(* ===== verification/_CoqProject ===== *)
-Q . S2P
Prelude.v
GoString.v
Keys.v
Sha256.v
GoTime.v
GoJson.v
GoJsonText.v
JsonFacts.v
JsonStrings.v
JsonValues.v
AesGcm.v
Cbor.v
GoDecode.v
DecodeFacts.v
TimeText.v
ToolSchema.v
ToolSchemaTheorems.v
ToolSchemaSpec.v
Sdk.v
SdkTypes.v
StateContract.v
RuntimeContent.v
ContentEnvelope.v
ContentFacts.v
ContentStore.v
StateCompiler.v
StatePlanner.v
PlannerFacts.v
PlannerProgress.v
PlannerTenancy.v
PlannerWf.v
CompilerFacts.v
PlannerScenario.v
PlannerSafety.v
PlannerRun.v
PlannerTheorems.v
Approval.v
ToolPolicy.v
ApprovalTheorems.v
HostProtocol.v
SandboxLedger.v
SandboxHost.v
LedgerSteps.v
LedgerTheorems.v
HostTheorems.v
HostOutputTheorems.v
OutputSpool.v
RedactionTheorems.v
SpoolTheorems.v
DigestFacts.v
ContentKeys.v
ContentTheorems.v
DurableFiles.v
HostFields.v
HostWire.v
HostWireFacts.v
ControlTrust.v
TrustTheorems.v
HostJournal.v
JournalFacts.v
JournalTheorems.v
HostProcess.v
HostProcessFacts.v
HostProcessTheorems.v
HostLoop.v
HostLoopTheorems.v
ResourceManifests.v
ResourceStore.v
ResourceFacts.v
ResourceRuns.v
ResourceTheorems.v
StateMemory.v
MemoryTheorems.v
AdmissionFacts.v
StateRuntime.v
StateRuntimeTheorems.v
Kernel.v
KernelFacts.v
KernelTheorems.v
