(* ===== verification/Prelude.v ===== *)
(** * Agent Runtime: verification library

    The program is a durable agent runtime.  Clients own Sessions of Turns; an
    authority service turns commands into metadata state, product events, audit
    facts and Outbox work; workers claim that work, call models and tools, and
    record outcomes; tools act only under a grant that an owner approved; sandbox
    work is routed to hosts through a fenced operation ledger.

    ** Parts and files

    - Go and its standard library.  [GoString] (bytes, [strings], [utf8], hex,
      decimal printing, string order), [Keys] (injectivity of the printed
      decimals and of keys joined with a separator), [Sha256] ([crypto/sha256], executable, with
      its test vectors), [GoTime] ([time.Time] as an instant and a location), [TimeText]
      (its RFC 3339 text, in both directions), [AesGcm] ([crypto/aes] and [cipher.NewGCM],
      executable, with test vectors), [DurableFiles] (files replaced by a rename, and what a
      loss of power leaves of them), [GoJson] ([json.Marshal]), [GoJsonText]
      and [GoDecode] (the scanner of [encoding/json] and its decoding into structs, maps,
      slices and raw messages).  [JsonFacts], [JsonStrings], [JsonValues] and
      [DecodeFacts] prove that what the encoder writes the decoder reads back, with one
      lemma per kind of type; [DigestFacts] is the shape of digests.  This file has
      the result type [res], the state-and-error monad [M] with its
      weakest-precondition rules, 64- and 32-bit wrap-around, and the lemmas on
      lists and loops that the components share.
    - [Sdk], [SdkTypes]: sdk/go/ids.go, and the vocabulary and the public records of
      sdk/go/types.go.
    - [StateContract]: the records, commands and errors of
      internal/runtimestate/contract.go and the aggregate [RuntimeState] of
      planner.go.  A Go slice of records is a list: every boundary of the source
      clones, so no aliasing is visible.
    - [RuntimeContent], [Cbor], [ContentEnvelope], [ContentStore]: internal/runtimecontent.
      [RuntimeContent] validates hand-offs, [Cbor] and [ContentEnvelope] are the canonical
      encodings of content.go, [ContentStore] its store and readers, the erasure of
      lifecycle.go and the bucket adapter of s3.go.  The S3 client, the repositories and the
      context act on a world that is a parameter.
    - [StateCompiler]: internal/runtimestate/compiler.go, one definition per
      Compile function, with the canonical JSON and its digest.
    - [StatePlanner]: internal/runtimestate/planner.go, one definition per command
      handler, and [Plan], which dispatches to them.  A handler is a function in
      the monad over the state and the number of identifiers drawn; the planner
      record carries the identifier source and the clock, so the theorems hold for
      every source of identifiers and every clock.
    - [StateMemory]: internal/runtimestate/memory.go.  The mutex makes each method
      atomic: a method is a function of the store, concurrency is a sequence of
      steps ([reachable] in [MemoryTheorems]).
    - [StateRuntime]: internal/runtimeapi/state_runtime.go, every public operation on the
      content store, the compiler, the planner and a state store, which is the interface
      [RuntimeStateStore] on a world that is a parameter.
    - [Approval], [ToolPolicy]: internal/approval/approval.go and
      internal/toolpolicy/toolpolicy.go.
    - [HostProtocol], [SandboxLedger], [SandboxHost]: the in-memory ledger of
      internal/sandboxcontrol.  [HostProtocol] has the messages of
      internal/sandboxhostprotocol/protocol.go and the host records of host.go;
      [SandboxLedger] is ledger.go; [SandboxHost] is the host side of the same
      ledger: host.go, attestation.go and output_replay.go.  A loop over a Go map,
      whose order the language leaves open, takes the order as an argument, so the
      theorems hold for every order.
    - [OutputSpool]: the streaming redactor and the process output spool of
      sandbox/output.go.
    - [ToolSchema]: internal/toolschema/schema.go, on bytes.
    - [Kernel]: the conversation kernel, internal/runtime/kernel.  A transition runs on
      a copy of the aggregate; a panic is an error of its own.
    - [HostFields], [HostWire], [ControlTrust]: the signed messages between the control
      plane and a host (internal/sandboxhostprotocol/protocol.go) and the versioned keys
      they are verified with (trust.go).  Ed25519 is a class, [Ed25519], with its laws
      in [Ed25519Laws] of [HostWireFacts]; an instance made of keyed digests shows that
      they can hold.
    - [HostJournal]: internal/sandboxhostjournal/journal.go.  The disk keeps the visible
      file and the contents that may be there after a loss of power; a write ends
      unwritten, renamed but not synced, or durable.
    - [HostProcess], [HostLoop]: internal/sandboxhostprocess, a poll of the host and
      the daemon around it.  Calls to the disk, the network, the executor and the clock are
      numbered, and an environment [Env] says how each ends; the process may die at each.
      [HostProcess] calls [HostJournal], [HostWire] and [ControlTrust]; [HostLoop] calls
      [HostProcess] with a trust that it reloads from a file.
    - [ResourceManifests], [ResourceStore]: internal/sandboxresource, the manifests of volumes,
      mounts and snapshots in one state file, and the encrypted payloads beside it.  An [IO]
      says how the system calls and the random source of one call end.

    ** Theorems

    [PlannerFacts] has the frame rules of the planner's effects, [PlannerWf] what
    validateState decides, [PlannerProgress] one lemma per handler: whatever it
    does is lawful progress of each kind of record.  [CompilerFacts] says what
    holds of every command the compiler seals; [PlannerSafety] combines both into
    theorems on [Plan], on [history], the states a sequence of compiled commands
    reaches from the empty state, and on [extends], the states that further commits of a
    tenant lead to; [PlannerTenancy] adds that a handler only writes
    records of its own tenant, [PlannerRun] reasons about runs of a successful
    handler.  [PlannerScenario] is a concrete run of the real
    definitions; the witnesses of the theorems are instances of it.

    - [PlannerTheorems]: tool executions are authorized by approved Approvals;
      idempotency keys are final; Turns, Sessions, Approvals and outcomes move only
      along their life cycles; logs are append-only; events are numbered without
      gap; commits keep the state well formed; settling, admission, promotion,
      leases and the end of Sessions do exactly what the command says.
    - [MemoryTheorems]: optimistic persistence is linearizable, every partition is
      a history of its own tenant, paged reads enumerate the logs, Session views
      are exact, reads are scoped to their owner.
    - [AdmissionFacts], [StateRuntimeTheorems]: against the class [LinearStore], of which the
      in-memory store is an instance ([memory_linear]), with other clients at every call: an
      accepted Input is the one that was sent, is accepted once, a call gives up with a
      conflict only when others made progress, and the public lists are exact.
    - [ApprovalTheorems]: approvals grant no more than proposed and are decided
      once; tool policy answers exactly the matching intents.
    - [LedgerTheorems]: operations are permanent, superseded hosts are fenced, the
      outbox is complete and paged exactly, principals are isolated, acceptance is
      idempotent, repeated reaping drains.  [LedgerSteps] carries them: every call
      of the ledger, host calls included, is a sequence of atomic steps, and the
      invariants are proved of the steps.  [op_change] lists the kinds of change of an
      operation, each with the states it is possible in.
    - [HostTheorems]: an expelled host is fenced and denied, a result counts once,
      a pull redelivers its envelope verbatim.
    - [HostOutputTheorems]: recorded output has no gaps, its retention is bounded,
      replay is complete, and a recorded chunk is replayed to its owner unchanged.
    - [RedactionTheorems]: no secret is split over two released pieces and the boundary
      search terminates, for all secrets; for secrets without square brackets ([plain])
      redacting a stream in chunks equals redacting it whole, and for those that in addition
      are not part of the replacement text none is released.
    - [SpoolTheorems]: a closed spool refines the tail of the redacted stream ([plain] secrets); its
      writes are refused exactly when the limits say so and never panic.
    - [ToolSchemaTheorems], [ToolSchemaSpec]: canonical schemas and arguments are fixed
      points; the validator decides a declarative relation, [conforms], for arguments of up to
      eight nested objects and arrays; beyond, its own count of levels decides.
    - [KernelFacts], [KernelTheorems]: in every reachable repository the Sessions are in
      order; no call panics; a mutation happens once under its key; a Session drains.
    - [HostWireFacts], [TrustTheorems]: a signed message verifies and decodes to itself; the
      trusted keys have one lineage; exactly which deliveries a host accepts.
    - [JournalFacts], [JournalTheorems]: every operation of the journal moves its entries
      up an order, [entries_le]; what a call has stored survives every death and loss of
      power, and the journal can always be opened again.
    - [HostProcessFacts], [HostProcessTheorems]: whatever fails or dies, a receipt is
      executed at most once.  Steps that do not execute are [stable]: they keep what is
      durable and what was executed.
    - [HostLoopTheorems]: the same of a daemon with a past, with its delays and its trust.
    - [ResourceFacts], [ResourceRuns], [ResourceTheorems]: every call of the resource store
      moves the manifests up an order, [state_le]; so, over any run with deaths and losses of
      power, attachments and mount leases are fenced, tombstones are final, the store opens
      again, and a snapshot is returned byte for byte.  Runs respect [call_ok]: texts are
      UTF-8, numbers and times can be written as JSON, a new volume carries no attachment and
      a new snapshot no lease, a volume has at most 64 items of provenance and is attached
      less than 2^64 times.  Examples show that the store locks itself without the
      conditions on attachments and provenance.
    - [ContentFacts], [ContentKeys], [ContentTheorems]: what is encoded is read back, and only
      encodings are read; a key determines its tenant and digest; content read under a staged
      reference is the staged content or a SHA-256 collision, for any object store; over a
      bucket that keeps its objects ([KeepsObjects]) it is delivered, and erasure is exact.
      Bodies and specifications are read back if their canonical schemas are UTF-8
      ([readable_tool]).

    Some theorems record where the code departs from its documents: a Turn that
    waits for an Approval is not active for admission and settlement, the digest of
    a tool-approval command leaves out most of the command, inspecting a pending
    approval expires it, the in-memory ledger accepts a result from a host that
    does not hold the assignment, the redactor can hold back more than its
    specified look-behind, the tool-schema profile accepts and refuses what it should
    not, a signed delivery has several accepted wires, an executor bound to its
    envelope is never asked for output, the resource store reuses the generation of a
    snapshot lease and can lock itself out, and the content store accepts a tool schema that
    it cannot read back.

    ** Bounds

    Loops over slices are structural recursion or [loop], which never runs out of
    steps.  Three loops of [OutputSpool] take fuel: the search for occurrences
    (one more step than there are pending bytes, since each one advances the
    offset), the passes over the patterns (one more than the limit, since each
    pass that changes it lowers it) and the eviction (one more than there are
    events); [boundary_search_terminates] and [spool_write_total] show that the
    fuel is never exhausted.  The clients that follow a cursor ([follow_events],
    [follow_log]) take fuel too, and the theorems about them state that one more
    read than there are records is enough.  Unsigned integers wrap ([u64], [u32]);
    a theorem that counts events, outbox records or bytes assumes fewer than 2^64
    of them.  The nesting of JSON is bounded as in the package (10000 levels), the nesting of
    tool schemas as in the code (16 levels: [room0]).  The delay of the host loop takes 40
    steps of fuel: doubling one nanosecond passes a minute in 36.

    ** Not modelled

    Third-party services and libraries (PostgreSQL, Temporal, S3, Kubernetes,
    Firecracker), network I/O, TLS, process composition and command-line tools.
    The typed JSON form of a dispatch body is an argument of [Accept], the
    attestation verifier and the envelope signer are arguments of the host
    operations, as they are in the code; Ed25519 is a parameter with its laws, and so is
    the compiler of general JSON schemas.  Of the host process, the parsing of its
    configuration and the boot probe are left out. *)

From stdpp Require Export base gmap list strings fin_maps relations.
From Stdlib Require Export ZArith Lia.

(** ** Decidable comparisons

    Go compares strings, integers, enumerations and structs with [==].  The
    model writes [a ≟ b] for the boolean test, at every type with a decidable
    equality. *)

Declare Scope go_scope.
Delimit Scope go_scope with go.

Notation "a ≟ b" := (bool_decide (a = b)) (at level 70, no associativity) : go_scope.
Notation "a ≠? b" := (negb (bool_decide (a = b))) (at level 70, no associativity) : go_scope.
#[global] Open Scope go_scope.
#[global] Open Scope string_scope.
#[global] Open Scope list_scope.

(** ** Results and the state-and-error monad

    A Go function that returns [(T, error)] is modelled by [res E T]: a non-nil
    error is [Err e], and the value that accompanies a non-nil error (which no
    caller reads) is dropped. *)

Inductive res (E A : Type) : Type :=
| Ok (a : A)
| Err (e : E).
Arguments Ok {E A} _.
Arguments Err {E A} _.

(** Stateful code is [M S E A]: the state is kept on the error path, so that a
    caller decides what an early return undoes. *)
Definition M (S E A : Type) : Type := S -> res E A * S.

Section monad.
Context {S E : Type}.

#[global] Instance M_ret : MRet (M S E) := fun A a s => (Ok a, s).
#[global] Instance M_bind : MBind (M S E) := fun A B k m s =>
  match m s with
  | (Ok a, s') => k a s'
  | (Err e, s') => (Err e, s')
  end.

Definition get : M S E S := fun s => (Ok s, s).
Definition put (s' : S) : M S E unit := fun _ => (Ok tt, s').
Definition modify (f : S -> S) : M S E unit := fun s => (Ok tt, f s).
Definition fail {A} (e : E) : M S E A := fun s => (Err e, s).

(** [guard_or e b]: [if !b { return e }]. *)
Definition guard_or (e : E) (b : bool) : M S E unit := if b then mret tt else fail e.

(** A Go [for ... range] loop whose body may return early with an error. *)
Fixpoint for_each {A B} (f : B -> A -> M S E B) (acc : B) (l : list A) : M S E B :=
  match l with
  | [] => mret acc
  | x :: l => acc' ← f acc x; for_each f acc' l
  end.

Lemma bind_Ok {A B} (m : M S E A) (k : A -> M S E B) s b s'' :
  (m ≫= k) s = (Ok b, s'') <-> exists a s', m s = (Ok a, s') /\ k a s' = (Ok b, s'').
Proof.
  unfold mbind, M_bind. destruct (m s) as [[a|e] s'] eqn:Hm; split.
  - intros Hk. eauto.
  - intros (a' & s1 & [= <- <-] & Hk). exact Hk.
  - discriminate.
  - intros (a' & s1 & [=] & _).
Qed.

Lemma ret_Ok {A} (a b : A) (s s' : S) :
  (mret a : M S E A) s = (Ok b, s') <-> a = b /\ s = s'.
Proof. unfold mret, M_ret. split; [by intros [= <- <-] | by intros [-> ->]]. Qed.

Lemma fail_Ok {A} (e : E) (b : A) (s s' : S) : fail e s = (Ok b, s') <-> False.
Proof. split; [discriminate | done]. Qed.

Lemma guard_Ok (e : E) (b : bool) (u : unit) (s s' : S) :
  guard_or e b s = (Ok u, s') <-> b = true /\ s = s'.
Proof.
  unfold guard_or. destruct b; rewrite ?ret_Ok, ?fail_Ok.
  - destruct u. naive_solver.
  - naive_solver.
Qed.

End monad.

(** ** Weakest preconditions

    [wp m s Q]: whenever [m] succeeds from [s], its result and final state
    satisfy [Q]. *)

Definition wp {S E A} (m : M S E A) (s : S) (Q : A -> S -> Prop) : Prop :=
  forall a s', m s = (Ok a, s') -> Q a s'.

Section wp.
Context {S E : Type}.

Lemma wp_mono {A} (m : M S E A) s (Q Q' : A -> S -> Prop) :
  wp m s Q -> (forall a s', Q a s' -> Q' a s') -> wp m s Q'.
Proof. intros H HQ a s' Hm. eauto. Qed.

Lemma wp_ret {A} (a : A) s (Q : A -> S -> Prop) : Q a s -> wp (mret a : M S E A) s Q.
Proof. intros H b s' [<- <-]%ret_Ok. exact H. Qed.

Lemma wp_fail {A} (e : E) s (Q : A -> S -> Prop) : wp (fail e) s Q.
Proof. intros b s' []%fail_Ok. Qed.

Lemma wp_guard (e : E) (b : bool) s (Q : unit -> S -> Prop) : (b = true -> Q tt s) -> wp (guard_or e b) s Q.
Proof. intros H [] s' [Hb <-]%guard_Ok. auto. Qed.

Lemma wp_bind {A B} (m : M S E A) (k : A -> M S E B) s (Q : B -> S -> Prop) :
  wp m s (fun a s' => wp (k a) s' Q) -> wp (m ≫= k) s Q.
Proof. intros H b s'' (a & s' & H1 & H2)%bind_Ok. exact (H a s' H1 b s'' H2). Qed.

(** A loop keeps every preorder its iterations keep. *)
Lemma wp_for_each {A B} (R : S -> S -> Prop) `{!PreOrder R} (f : B -> A -> M S E B) acc l s :
  (forall acc x s, wp (f acc x) s (fun _ s' => R s s')) -> wp (for_each f acc l) s (fun _ s' => R s s').
Proof.
  intros Hf. revert acc s. induction l as [|x l IH]; intros acc s; simpl.
  - apply wp_ret. reflexivity.
  - apply wp_bind. eapply wp_mono; [apply Hf|]. intros acc' s' HR.
    eapply wp_mono; [apply IH|]. simpl. intros _ s'' HR'. by transitivity s'.
Qed.

(** The same with an invariant of the accumulator and the state. *)
Lemma wp_for_each_inv {A B} (I : B -> S -> Prop) (f : B -> A -> M S E B) acc l s :
  (forall acc x s, I acc s -> wp (f acc x) s I) -> I acc s -> wp (for_each f acc l) s I.
Proof.
  intros Hf. revert acc s. induction l as [|x l IH]; intros acc s HI; simpl; [by apply wp_ret|].
  apply wp_bind. eapply wp_mono; [by apply Hf|]. auto.
Qed.
End wp.

(** Loops over the elements of a slice in which every iteration either returns
    the error of the function ([None]) or updates the loop's local state. *)
Fixpoint loop {A B} (f : B -> A -> option B) (acc : B) (l : list A) : option B :=
  match l with
  | [] => Some acc
  | x :: l => match f acc x with Some acc' => loop f acc' l | None => None end
  end.

(** ** Search loops

    [for i, x := range l { if p(x) { return i } }; return -1]: the index and the
    element found, [None] for -1. *)

Fixpoint find_index {A} (p : A -> bool) (l : list A) : option (nat * A) :=
  match l with
  | [] => None
  | x :: l => if p x then Some (0, x) else prod_map S id <$> find_index p l
  end.

(** The element of the last iteration that assigned it:
    [for _, x := range l { if p(x) { r = x } }]. *)
Definition last_match {A} (p : A -> bool) (d : A) (l : list A) : A :=
  foldl (fun acc x => if p x then x else acc) d l.

Lemma existsb_false {A} (p : A -> bool) (l : list A) x : existsb p l = false -> x ∈ l -> p x = false.
Proof.
  intros H Hx. destruct (p x) eqn:Hp; [|done]. rewrite <- H. symmetry. apply existsb_exists.
  exists x. by rewrite <- list_elem_of_In.
Qed.

Section find_index.
Context {A : Type} (p : A -> bool).

Lemma find_index_Some l i x :
  find_index p l = Some (i, x) ->
  l !! i = Some x /\ p x = true /\ forall j y, j < i -> l !! j = Some y -> p y = false.
Proof.
  revert i x. induction l as [|z l IH]; intros i x; simpl; [discriminate|].
  destruct (p z) eqn:Hz.
  - intros [= <- <-]. repeat split; [done | intros j y Hj; lia].
  - destruct (find_index p l) as [[i' x']|] eqn:Hf; [|discriminate].
    intros [= <- <-]. destruct (IH i' x' eq_refl) as (Hl & Hp & Hlt).
    repeat split; [done | done |].
    intros [|j] y Hj; simpl; [by intros [= <-] | intros Hy; apply (Hlt j y); [lia | done]].
Qed.

Lemma find_index_intro l i x :
  l !! i = Some x -> p x = true -> (forall j y, j < i -> l !! j = Some y -> p y = false) ->
  find_index p l = Some (i, x).
Proof.
  revert i. induction l as [|z l IH]; intros i; [done|]. destruct i as [|i]; simpl.
  - intros [= ->] -> _. done.
  - intros Hi Hx Hlt. rewrite (Hlt 0 z ltac:(lia) eq_refl). rewrite (IH i Hi Hx); [done|].
    intros j y Hj Hy. apply (Hlt (S j)); [lia | done].
Qed.

Lemma find_index_lookup l i x : find_index p l = Some (i, x) -> l !! i = Some x.
Proof. intros H. by apply find_index_Some in H as (? & _). Qed.

Lemma find_index_holds l i x : find_index p l = Some (i, x) -> p x = true.
Proof. intros H. by apply find_index_Some in H as (_ & ? & _). Qed.

Lemma find_index_app l k :
  find_index p (l ++ k) =
  match find_index p l with
  | Some r => Some r
  | None => prod_map (Nat.add (length l)) id <$> find_index p k
  end.
Proof.
  induction l as [|z l IH]; simpl.
  - by destruct (find_index p k) as [[i x]|].
  - destruct (p z); [done|]. rewrite IH. destruct (find_index p l) as [[i x]|]; [done|].
    by destruct (find_index p k) as [[i x]|].
Qed.

Lemma find_index_None l : find_index p l = None <-> Forall (fun x => p x = false) l.
Proof.
  induction l as [|z l IH]; simpl; [by split|]. rewrite Forall_cons. destruct (p z); [naive_solver|].
  destruct (find_index p l); simpl; naive_solver.
Qed.
End find_index.

(** ** Machine integers *)

Definition u64 (z : Z) : Z := z mod 2 ^ 64.
Definition u32 (z : Z) : Z := z mod 2 ^ 32.
Definition max_u64 : Z := 2 ^ 64 - 1.

Lemma u64_small z : (0 <= z <= max_u64)%Z -> u64 z = z.
Proof. intros H. apply Z.mod_small. unfold max_u64 in H. lia. Qed.

Lemma u32_small z : (0 <= z < 2 ^ 32)%Z -> u32 z = z.
Proof. intros H. by apply Z.mod_small. Qed.

(** ** Tactics *)

(** Turn boolean guards into propositions. *)
Ltac bools :=
  repeat match goal with
  | H : andb _ _ = true |- _ => apply andb_true_iff in H as [? H]
  | H : orb _ _ = false |- _ => apply orb_false_iff in H as [? H]
  | H : negb _ = true |- _ => apply negb_true_iff in H
  | H : negb _ = false |- _ => apply negb_false_iff in H
  | H : bool_decide _ = true |- _ => apply bool_decide_eq_true in H
  | H : bool_decide _ = false |- _ => apply bool_decide_eq_false in H
  | H : Z.ltb _ _ = true |- _ => apply Z.ltb_lt in H
  | H : Z.ltb _ _ = false |- _ => apply Z.ltb_ge in H
  | H : Z.leb _ _ = true |- _ => apply Z.leb_le in H
  | H : Z.leb _ _ = false |- _ => apply Z.leb_gt in H
  end.

Create HintDb go discriminated.
#[export] Hint Resolve rtc_refl rtc_once list_elem_of_lookup_2 : go.

(** ** Lists *)

Section lists.
Context {A : Type}.

Lemma lookup_insert_cases (l : list A) i j x y :
  <[i := x]> l !! j = Some y -> (i = j /\ y = x /\ j < length l) \/ (i <> j /\ l !! j = Some y).
Proof.
  intros H. destruct (decide (i = j)) as [->|Hne].
  - left. assert (Hlt : j < length l).
    { apply lookup_lt_Some in H. by rewrite length_insert in H. }
    rewrite list_lookup_insert_eq in H by done. naive_solver.
  - right. by rewrite list_lookup_insert_ne in H.
Qed.

End lists.

(** ** Histories of indexed collections

    [evolves step init l l']: the elements of [l] are still there, at the same
    index, after some [step]s each, and the elements of [l'] beyond them were
    added as [init]ial elements and may have stepped since. *)

Definition evolves {A} (step : A -> A -> Prop) (init : A -> Prop) (l l' : list A) : Prop :=
  exists l1 l2, l' = l1 ++ l2 /\ Forall2 (rtc step) l l1 /\ Forall (fun x => exists x0, init x0 /\ rtc step x0 x) l2.

Section evolves.
Context {A : Type} (step : A -> A -> Prop) (init : A -> Prop).

Lemma Forall2_rtc_refl (l : list A) : Forall2 (rtc step) l l.
Proof. induction l; constructor; auto using rtc_refl. Qed.

Lemma evolves_refl l : evolves step init l l.
Proof. exists l, []. rewrite app_nil_r. repeat split; [apply Forall2_rtc_refl | constructor]. Qed.

Lemma evolves_trans l1 l2 l3 : evolves step init l1 l2 -> evolves step init l2 l3 -> evolves step init l1 l3.
Proof.
  intros (a1 & b1 & -> & Ha & Hb) (a2 & b2 & -> & H & Hb2).
  apply Forall2_app_inv_l in H as (c1 & c2 & Hc1 & Hc2 & ->).
  exists c1, (c2 ++ b2). rewrite <- (assoc_L (++)). split; [done|]. split.
  - eapply Forall2_trans; [|exact Ha|exact Hc1]. intros x y z. apply transitivity.
  - apply Forall_app. split; [|done]. clear -Hb Hc2.
    induction Hc2 as [|x y l k Hxy _ IH]; inversion Hb as [|? ? (x0 & Hx0 & Hr)]; subst; constructor; [|by apply IH].
    exists x0. split; [done|]. by transitivity x.
Qed.

#[global] Instance evolves_preorder : PreOrder (evolves step init).
Proof. split; [exact evolves_refl | exact evolves_trans]. Qed.

Lemma evolves_snoc l x : init x -> evolves step init l (l ++ [x]).
Proof.
  intros Hx. exists l, [x]. repeat split; [apply Forall2_rtc_refl|].
  constructor; [|constructor]. exists x. split; [done | apply rtc_refl].
Qed.

Lemma evolves_Forall2 l l' : Forall2 (rtc step) l l' -> evolves step init l l'.
Proof. intros H. exists l', []. rewrite app_nil_r. by repeat split. Qed.

Lemma evolves_fmap f l : (forall x, x ∈ l -> rtc step x (f x)) -> evolves step init l (f <$> l).
Proof.
  intros Hf. apply evolves_Forall2. induction l as [|x l IH]; simpl; constructor.
  - apply Hf. by left.
  - apply IH. intros y Hy. apply Hf. by right.
Qed.

Lemma evolves_insert l i x y : l !! i = Some x -> step x y -> evolves step init l (<[i := y]> l).
Proof.
  intros Hi Hs. apply evolves_Forall2. apply Forall2_same_length_lookup_2; [by rewrite length_insert|].
  intros j a b Ha Hb. apply lookup_insert_cases in Hb as [(<- & -> & _)|(_ & Hb)].
  - simplify_eq. by apply rtc_once.
  - simplify_eq. apply rtc_refl.
Qed.

Lemma evolves_lookup l l' i x :
  evolves step init l l' -> l !! i = Some x -> exists y, l' !! i = Some y /\ rtc step x y.
Proof.
  intros (l1 & l2 & -> & H & _) Hi. eapply Forall2_lookup_l in Hi as (y & Hy & Hr); [|exact H].
  exists y. split; [|done]. by apply lookup_app_l_Some.
Qed.

End evolves.

Lemma evolves_mono {A} (step : A -> A -> Prop) (init init' : A -> Prop) l l' :
  (forall x, init x -> init' x) -> evolves step init l l' -> evolves step init' l l'.
Proof.
  intros Hi (l1 & l2 & -> & H & Hn). exists l1, l2. split_and!; [done|done|].
  eapply Forall_impl; [exact Hn|]. simpl. intros x (x0 & Hx & Hr). eauto.
Qed.

Lemma evolves_weaken {A} (step step' : A -> A -> Prop) (init : A -> Prop) l l' :
  (forall x y, step x y -> step' x y) -> evolves step init l l' -> evolves step' init l l'.
Proof.
  intros Hs (l1 & l2 & -> & H & Hn). exists l1, l2. split_and!; [done | |].
  - eapply Forall2_impl; [exact H|]. intros x y. apply rtc_subrel. exact Hs.
  - eapply Forall_impl; [exact Hn|]. simpl. intros x (x0 & Hx & Hr). exists x0. split; [done|].
    revert Hr. apply rtc_subrel. exact Hs.
Qed.

#[export] Hint Resolve evolves_refl evolves_snoc : go.
