(* ===== verification/GoString.v ===== *)
(** * Go strings

    A Go string is a sequence of bytes, and so is a Rocq [string].  This file
    models what the runtime uses of the packages [strings], [unicode/utf8],
    [encoding/hex], [strconv] (through [fmt]'s %d) and [sort] on such strings:
    decoding to runes ([for _, r := range s]), UTF-8 validity, prefixes,
    trimming and ordering. *)

From stdpp Require Import pretty sorting.
From Stdlib Require Import Ascii String.
From S2P Require Import Prelude.

Definition byte_val (c : ascii) : Z := Z.of_N (N_of_ascii c).
Definition byte_chr (z : Z) : ascii := ascii_of_N (Z.to_N z).

Fixpoint bytes (s : string) : list Z :=
  match s with
  | EmptyString => []
  | String c s => byte_val c :: bytes s
  end.

Fixpoint of_bytes (l : list Z) : string :=
  match l with
  | [] => EmptyString
  | z :: l => String (byte_chr z) (of_bytes l)
  end.

(** [len(s)] *)
Definition len (s : string) : Z := Z.of_nat (String.length s).

Definition NUL : string := String (ascii_of_nat 0) EmptyString.
Definition CR : string := String (ascii_of_nat 13) EmptyString.
Definition LF : string := String (ascii_of_nat 10) EmptyString.

(** ** UTF-8 *)

Definition RuneError : Z := 0xFFFD.

Definition between (lo x hi : Z) : bool := (lo <=? x)%Z && (x <=? hi)%Z.

(** [utf8.DecodeRuneInString] on a non-empty string: the rune and its width;
    [(RuneError, 1)] for an invalid encoding. *)
Definition decode_rune (l : list Z) : option (Z * nat) :=
  match l with
  | [] => None
  | b0 :: r =>
    if (b0 <? 0x80)%Z then Some (b0, 1) else
    if between 0xC2 b0 0xDF then
      match r with
      | b1 :: _ => if between 0x80 b1 0xBF
                   then Some (((b0 - 0xC0) * 64 + (b1 - 0x80))%Z, 2) else Some (RuneError, 1)
      | _ => Some (RuneError, 1)
      end
    else if between 0xE0 b0 0xEF then
      let lo := if (b0 =? 0xE0)%Z then 0xA0%Z else 0x80%Z in
      let hi := if (b0 =? 0xED)%Z then 0x9F%Z else 0xBF%Z in
      match r with
      | b1 :: b2 :: _ => if between lo b1 hi && between 0x80 b2 0xBF
                         then Some (((b0 - 0xE0) * 4096 + (b1 - 0x80) * 64 + (b2 - 0x80))%Z, 3)
                         else Some (RuneError, 1)
      | _ => Some (RuneError, 1)
      end
    else if between 0xF0 b0 0xF4 then
      let lo := if (b0 =? 0xF0)%Z then 0x90%Z else 0x80%Z in
      let hi := if (b0 =? 0xF4)%Z then 0x8F%Z else 0xBF%Z in
      match r with
      | b1 :: b2 :: b3 :: _ =>
        if between lo b1 hi && between 0x80 b2 0xBF && between 0x80 b3 0xBF
        then Some (((b0 - 0xF0) * 262144 + (b1 - 0x80) * 4096 + (b2 - 0x80) * 64 + (b3 - 0x80))%Z, 4)
        else Some (RuneError, 1)
      | _ => Some (RuneError, 1)
      end
    else Some (RuneError, 1)
  end.

Arguments decode_rune : simpl never.

(** The runes of a byte sequence with their widths; [skip] counts the bytes of
    the current rune still to be passed over. *)
Fixpoint decode_go (skip : nat) (l : list Z) : list (Z * nat) :=
  match l with
  | [] => []
  | _ :: l' =>
    match skip with
    | S k => decode_go k l'
    | 0 => match decode_rune l with
           | Some (r, w) => (r, w) :: decode_go (pred w) l'
           | None => []
           end
    end
  end.

Definition runes (s : string) : list Z := fst <$> decode_go 0 (bytes s).

(** [utf8.ValidString]: no rune is a width-1 [RuneError] (U+FFFD itself has
    width 3). *)
Definition ValidString (s : string) : bool :=
  forallb (fun rw => negb ((rw.1 =? RuneError)%Z && (rw.2 =? 1)%nat)) (decode_go 0 (bytes s)).

(** [for _, c := range s { if !p(c) { return false } }; return true] *)
Definition all_runes (p : Z -> bool) (s : string) : bool := forallb p (runes s).

(** ** Package strings *)

Fixpoint HasPrefix (s prefix : string) {struct prefix} : bool :=
  match prefix, s with
  | EmptyString, _ => true
  | String c p, String d s => Ascii.eqb c d && HasPrefix s p
  | String _ _, EmptyString => false
  end.

Fixpoint drop_bytes (n : nat) (s : string) : string :=
  match n, s with
  | S n, String _ s => drop_bytes n s
  | _, _ => s
  end.

Definition TrimPrefix (s prefix : string) : string :=
  if HasPrefix s prefix then drop_bytes (String.length prefix) s else s.

(** [unicode.IsSpace] *)
Definition isSpace (r : Z) : bool :=
  between 9 r 13 || (r =? 32)%Z || (r =? 0x85)%Z || (r =? 0xA0)%Z || (r =? 0x1680)%Z ||
  between 0x2000 r 0x200A || (r =? 0x2028)%Z || (r =? 0x2029)%Z || (r =? 0x202F)%Z ||
  (r =? 0x205F)%Z || (r =? 0x3000)%Z.

(** [strings.TrimSpace(s) == s] for a valid UTF-8 string: neither end is a
    space. *)
Definition space_trimmed (s : string) : bool :=
  match runes s with
  | [] => true
  | r :: rs => negb (isSpace r) && negb (isSpace (List.last rs r))
  end.

(** [strings.ContainsAny(s, chars)] for ASCII [chars]. *)
Definition ContainsAny (s chars : string) : bool :=
  existsb (fun b => existsb (Z.eqb b) (bytes chars)) (bytes s).

(** [strings.Trim(s, cutset) == ""] for an ASCII cutset: trimming leaves nothing
    exactly when every byte is in the cutset. *)
Definition trims_to_empty (s cutset : string) : bool :=
  forallb (fun b => existsb (Z.eqb b) (bytes cutset)) (bytes s).

(** [strings.ToLower] on ASCII. *)
Definition ascii_lower (c : ascii) : ascii :=
  if between 65 (byte_val c) 90 then byte_chr (byte_val c + 32) else c.
Fixpoint ToLower (s : string) : string :=
  match s with
  | EmptyString => EmptyString
  | String c s => String (ascii_lower c) (ToLower s)
  end.

(** [strings.SplitN(s, sep, 2)[0]] for a one-byte separator. *)
Fixpoint before_sep (sep : ascii) (s : string) : string :=
  match s with
  | EmptyString => EmptyString
  | String c s => if Ascii.eqb c sep then EmptyString else String c (before_sep sep s)
  end.

(** [fmt.Sprintf("%d", n)] for an unsigned integer. *)
Definition decimal (n : Z) : string := pretty (Z.to_N n).

(** ** Character classes *)

Definition is_lower (c : Z) : bool := between 97 c 122.
Definition is_upper (c : Z) : bool := between 65 c 90.
Definition is_digit (c : Z) : bool := between 48 c 57.
Definition is_lower_hex (c : Z) : bool := is_digit c || between 97 c 102.

(** ** Hexadecimal *)

Definition hex_digit (z : Z) : ascii :=
  if (z <? 10)%Z then byte_chr (48 + z) else byte_chr (87 + z).

(** [hex.EncodeToString] *)
Fixpoint hex_encode (l : list Z) : string :=
  match l with
  | [] => EmptyString
  | b :: l => String (hex_digit (b / 16)) (String (hex_digit (b mod 16)) (hex_encode l))
  end.

(** ** Ordering: [sort.Strings] *)

Definition string_le (a b : string) : Prop := String.leb a b = true.
#[export] Instance string_le_dec : RelDecision string_le.
Proof. unfold RelDecision, string_le. intros a b. apply _. Defined.

Definition sort_strings (l : list string) : list string := merge_sort string_le l.

(** ** Lemmas *)

Lemma byte_chr_val c : byte_chr (byte_val c) = c.
Proof. unfold byte_chr, byte_val. rewrite N2Z.id. apply ascii_N_embedding. Qed.

Lemma of_bytes_bytes s : of_bytes (bytes s) = s.
Proof. induction s as [|c s IH]; simpl; [done|]. by rewrite byte_chr_val, IH. Qed.

Lemma bytes_inj a b : bytes a = bytes b -> a = b.
Proof. intros H. rewrite <- (of_bytes_bytes a), <- (of_bytes_bytes b). by rewrite H. Qed.

Lemma append_nil b : (EmptyString ++ b)%string = b.
Proof. reflexivity. Qed.

Lemma append_cons c a b : (String c a ++ b)%string = String c (a ++ b)%string.
Proof. reflexivity. Qed.

Lemma length_bytes s : length (bytes s) = String.length s.
Proof. induction s as [|c s IH]; [done|]. simpl. by rewrite IH. Qed.

Lemma bytes_app a b : bytes (a ++ b)%string = bytes a ++ bytes b.
Proof. induction a as [|c a IH]; [done|]. rewrite append_cons. simpl. by rewrite IH. Qed.

(** Byte-wise and rune-wise tests agree for predicates that only accept ASCII:
    an accepted string contains no byte above 0x7F. *)
Definition ascii_pred (p : Z -> bool) : Prop := forall c, p c = true -> (0 <= c < 0x80)%Z.

Lemma decode_rune_high b0 r x w :
  (0x80 <= b0)%Z -> decode_rune (b0 :: r) = Some (x, w) -> (0x80 <= x)%Z.
Proof.
  intros Hb. unfold decode_rune, between, RuneError.
  replace (b0 <? 0x80)%Z with false by (symmetry; by apply Z.ltb_ge).
  repeat case_match; intros [= <- <-]; bools; try lia.
Qed.

Lemma all_runes_bytes p s :
  ascii_pred p -> all_runes p s = true -> forallb p (bytes s) = true.
Proof.
  intros Hp. unfold all_runes, runes. generalize (bytes s). intros l.
  induction l as [|b l IH]; simpl; [done|].
  destruct (decode_rune (b :: l)) as [[r w]|] eqn:Hd; simpl;
    [|exfalso; revert Hd; unfold decode_rune; repeat case_match; congruence].
  intros [Hr Hrest]%andb_true_iff. destruct (Z.ltb b 0x80) eqn:Hb.
  - assert (Heq : (r, w) = (b, 1)) by (unfold decode_rune in Hd; rewrite Hb in Hd; congruence).
    simplify_eq. simpl in *. rewrite Hr. by apply IH.
  - apply Z.ltb_ge in Hb. apply decode_rune_high in Hd; [|done]. apply Hp in Hr. lia.
Qed.
