(* ===== verification/Keys.v ===== *)
(** * Composite keys

    The runtime joins identifiers and decimal numbers with a separator byte to make
    map keys and cursors.  Such a key determines its last component when that
    component does not contain the separator, which decimal numbers and stream
    names do not. *)

From stdpp Require Import pretty sorting.
From Stdlib Require Import Ascii String.
From S2P Require Import Prelude GoString.

Open Scope Z_scope.

(** ** Decimal numbers *)

Lemma pretty_digits x s :
  Forall (fun c => is_digit c = true) (bytes s) -> Forall (fun c => is_digit c = true) (bytes (pretty_N_go x s)).
Proof.
  revert s. induction (N.lt_wf_0 x) as [x _ IH]; intros s Hs. assert (x = 0 \/ 0 < x)%N as [->|Hx] by lia; [done|].
  rewrite pretty_N_go_step by done. apply IH; [by apply N.div_lt|]. cbn [bytes]. constructor; [|done].
  unfold pretty_N_char. by repeat case_match.
Qed.

Lemma decimal_digits n : Forall (fun c => is_digit c = true) (bytes (decimal n)).
Proof.
  unfold decimal, pretty, pretty_N. destruct (decide _); [by repeat constructor|]. apply pretty_digits. constructor.
Qed.

Lemma decimal_inj a b : decimal a = decimal b -> Z.to_N a = Z.to_N b.
Proof. unfold decimal. apply (inj pretty). Qed.

(** ** Separators *)

Definition free_of (sep : ascii) (s : string) : Prop := byte_val sep ∉ bytes s.

Lemma decimal_free sep n : is_digit (byte_val sep) = false -> free_of sep (decimal n).
Proof. intros Hs Hin. pose proof (proj1 (Forall_forall _ _) (decimal_digits n) _ Hin) as H. simpl in H. congruence. Qed.

Lemma last_separator_list (x : Z) l m l' m' : l ++ x :: m = l' ++ x :: m' -> x ∉ m -> x ∉ m' -> l = l' /\ m = m'.
Proof.
  revert l'. induction l as [|y l IH]; intros [|z l'] He Hm Hm'; simpl in He.
  - by injection He.
  - injection He as -> ->. set_solver.
  - injection He as <- <-. set_solver.
  - injection He as -> He. by destruct (IH l' He Hm Hm') as [-> ->].
Qed.

(** A key ends after its last separator. *)
Lemma last_separator sep a b a' b' :
  a +:+ String sep b = a' +:+ String sep b' -> free_of sep b -> free_of sep b' -> a = a' /\ b = b'.
Proof.
  intros He Hb Hb'. apply (f_equal bytes) in He. rewrite !bytes_app in He. cbn [bytes] in He.
  apply last_separator_list in He as [H1 H2]; [|done|done]. split; by apply bytes_inj.
Qed.

Lemma app_inj_l a b b' : a +:+ b = a +:+ b' -> b = b'.
Proof.
  intros He. apply (f_equal bytes) in He. rewrite !bytes_app in He. apply app_inv_head in He. by apply bytes_inj.
Qed.

(** ** The order of strings *)

Lemma string_le_cons c s d t :
  string_le (String c s) (String d t) <-> byte_val c < byte_val d \/ (c = d /\ string_le s t).
Proof.
  unfold string_le, String.leb, byte_val. cbn [String.compare]. unfold Ascii.compare.
  destruct (N.compare_spec (N_of_ascii c) (N_of_ascii d)) as [He|Hlt|Hgt].
  - apply (f_equal ascii_of_N) in He. rewrite !ascii_N_embedding in He. subst d. split; [by right | intros [?|[_ ?]]; [lia | done]].
  - split; [left; lia | done].
  - split; [done|]. intros [?|[-> _]]; lia.
Qed.

#[export] Instance string_le_trans : Transitive string_le.
Proof.
  intros a. induction a as [|c a IH]; intros [|d b] [|e k]; try done.
  rewrite !string_le_cons. intros [H1|[-> H1]] [H2|[-> H2]]; [left; lia | by left | by left | right; eauto].
Qed.

#[export] Instance string_le_total : Total string_le.
Proof.
  intros a. unfold string_le. intros b. destruct (String.leb_total a b); auto.
Qed.

Lemma sort_strings_sorted l : StronglySorted string_le (sort_strings l).
Proof. apply StronglySorted_merge_sort; apply _. Qed.

#[export] Instance string_le_antisymm : AntiSymm (=) string_le.
Proof. intros a b. unfold string_le. apply String.leb_antisym. Qed.

Lemma sort_strings_permutation l l' : l ≡ₚ l' -> sort_strings l = sort_strings l'.
Proof.
  intros H. apply (StronglySorted_unique string_le); [apply sort_strings_sorted..|].
  unfold sort_strings. by rewrite !merge_sort_Permutation.
Qed.
