(* ===== verification/Sha256.v ===== *)
(** * SHA-256

    [crypto/sha256.Sum256], which the runtime uses for request digests, policy
    digests and idempotency digests: FIPS 180-4 on byte lists, executable. *)

From S2P Require Import Prelude GoString.

Open Scope Z_scope.

Definition w32 (z : Z) : Z := Z.land z 0xffffffff.
Definition rotr (n x : Z) : Z := Z.lor (Z.shiftr x n) (w32 (Z.shiftl x (32 - n))).

Definition Ch (x y z : Z) : Z := Z.lxor (Z.land x y) (Z.land (Z.lxor x 0xffffffff) z).
Definition Maj (x y z : Z) : Z := Z.lxor (Z.lxor (Z.land x y) (Z.land x z)) (Z.land y z).
Definition big_sigma0 (x : Z) : Z := Z.lxor (Z.lxor (rotr 2 x) (rotr 13 x)) (rotr 22 x).
Definition big_sigma1 (x : Z) : Z := Z.lxor (Z.lxor (rotr 6 x) (rotr 11 x)) (rotr 25 x).
Definition small_sigma0 (x : Z) : Z := Z.lxor (Z.lxor (rotr 7 x) (rotr 18 x)) (Z.shiftr x 3).
Definition small_sigma1 (x : Z) : Z := Z.lxor (Z.lxor (rotr 17 x) (rotr 19 x)) (Z.shiftr x 10).

(** FIPS 180-4 defines the constants as the first 32 bits of the fractional parts
    of the cube roots of the first 64 primes, and the initial hash value by the
    square roots of the first eight. *)
Definition primes : list Z :=
  List.filter (fun p => forallb (fun d => negb (p mod d =? 0)) (seqZ 2 (p - 2))) (seqZ 2 310).

(** The integer cube root of a number below [2 ^ 108], bit by bit. *)
Definition cube_root (n : Z) : Z :=
  foldl (fun r b => let r' := r + Z.shiftl 1 b in if r' * r' * r' <=? n then r' else r) 0 (reverse (seqZ 0 36)).

Definition round_constants : list Z := Eval vm_compute in
  (fun p => w32 (cube_root (Z.shiftl p 96))) <$> primes.

(** The working variables a..h. *)
Definition hash_state : Type := Z * Z * Z * Z * Z * Z * Z * Z.

Definition initial_hash : hash_state := Eval vm_compute in
  match (fun p => w32 (Z.sqrt (Z.shiftl p 64))) <$> take 8 primes with
  | [a; b; c; d; e; f; g; h] => (a, b, c, d, e, f, g, h)
  | _ => (0, 0, 0, 0, 0, 0, 0, 0)
  end.

(** One round: the message schedule is a sliding window of sixteen words. *)
Definition sha_round (st : hash_state * list Z) (k : Z) : hash_state * list Z :=
  let '((a, b, c, d, e, f, g, h), w) := st in
  let wt := nth 0 w 0 in
  let t1 := w32 (h + big_sigma1 e + Ch e f g + k + wt) in
  let t2 := w32 (big_sigma0 a + Maj a b c) in
  let next := w32 (small_sigma1 (nth 14 w 0) + nth 9 w 0 + small_sigma0 (nth 1 w 0) + wt) in
  ((w32 (t1 + t2), a, b, c, w32 (d + t1), e, f, g), tail w ++ [next]).

Definition add_state (x y : hash_state) : hash_state :=
  let '(a, b, c, d, e, f, g, h) := x in
  let '(a', b', c', d', e', f', g', h') := y in
  (w32 (a + a'), w32 (b + b'), w32 (c + c'), w32 (d + d'),
   w32 (e + e'), w32 (f + f'), w32 (g + g'), w32 (h + h')).

Definition compress (h : hash_state) (block : list Z) : hash_state :=
  add_state h (fst (foldl sha_round (h, block) round_constants)).

(** Big-endian words. *)
Fixpoint words (l : list Z) : list Z :=
  match l with
  | a :: b :: c :: d :: l => (a * 16777216 + b * 65536 + c * 256 + d) :: words l
  | _ => []
  end.

Definition word_bytes (w : Z) : list Z :=
  [Z.shiftr w 24; Z.land (Z.shiftr w 16) 255; Z.land (Z.shiftr w 8) 255; Z.land w 255].

Definition pad (l : list Z) : list Z :=
  let n := Z.of_nat (length l) in
  let zeros := Z.to_nat ((55 - n) mod 64) in
  let bits := n * 8 in
  l ++ [0x80] ++ replicate zeros 0 ++
  word_bytes (w32 (Z.shiftr bits 32)) ++ word_bytes (w32 bits).

(** [fuel] blocks; [pad] makes the length a multiple of 64, so the number of
    bytes is more than enough fuel. *)
Fixpoint blocks (fuel : nat) (h : hash_state) (ws : list Z) : hash_state :=
  match fuel, ws with
  | S fuel, _ :: _ => blocks fuel (compress h (take 16 ws)) (drop 16 ws)
  | _, _ => h
  end.

Definition Sum256 (l : list Z) : list Z :=
  let ws := words (pad l) in
  let '(a, b, c, d, e, f, g, h) := blocks (length ws) initial_hash ws in
  flat_map word_bytes [a; b; c; d; e; f; g; h].

(** ["sha256:" + hex.EncodeToString(sum[:])] *)
Definition sha256_hex (s : string) : string := hex_encode (Sum256 (bytes s)).

(** Published test vectors. *)
Example sha256_empty :
  sha256_hex "" = "e3b0c44298fc1c149afbf4c8996fb92427ae41e4649b934ca495991b7852b855".
Proof. vm_compute. reflexivity. Qed.

Example sha256_abc :
  sha256_hex "abc" = "ba7816bf8f01cfea414140de5dae2223b00361a396177a9cb410ff61f20015ad".
Proof. vm_compute. reflexivity. Qed.

Example sha256_two_blocks :
  sha256_hex "abcdbcdecdefdefgefghfghighijhijkijkljklmklmnlmnomnopnopq"
  = "248d6a61d20638b8e5c026930c3e6039a33ce45964ff2167f6ecedd419db06c1".
Proof. vm_compute. reflexivity. Qed.
