(* ===== verification/GoTime.v ===== *)
(** * Go times

    [time.Time] as an instant, in nanoseconds since January 1 of year 1 UTC, and
    a location.  A time whose location is UTC carries no monotonic reading (the
    [UTC] method strips it), so [==] on such times is equality of this record;
    the runtime converts every time it stores with [UTC]. *)

From stdpp Require Import pretty.
From S2P Require Import Prelude GoString.

Open Scope Z_scope.

Inductive Location : Type :=
| UTC
| Zone (offset_minutes : Z).

#[export] Instance Location_eq_dec : EqDecision Location.
Proof. solve_decision. Defined.

Record Time : Type := mkTime { instant : Z; location : Location }.

#[export] Instance Time_eq_dec : EqDecision Time.
Proof. solve_decision. Defined.

(** The zero value, [time.Time{}]. *)
Definition zeroTime : Time := mkTime 0 UTC.

Definition IsZero (t : Time) : bool := instant t =? 0.
Definition After (t u : Time) : bool := instant u <? instant t.
Definition Before (t u : Time) : bool := instant t <? instant u.
Definition toUTC (t : Time) : Time := mkTime (instant t) UTC.
Definition isUTC (t : Time) : bool := location t ≟ UTC.

(** [t.Add(d)], [d] in nanoseconds. *)
Definition AddDuration (t : Time) (d : Z) : Time := mkTime (instant t + d) (location t).
Definition Hour : Z := 3600 * 1000000000.

(** ** RFC 3339 text, as [Time.MarshalJSON] writes it *)

Definition pad2 (n : Z) : string := (if n <? 10 then "0" else "") +:+ decimal n.
Definition pad4 (n : Z) : string :=
  (if n <? 10 then "000" else if n <? 100 then "00" else if n <? 1000 then "0" else "") +:+ decimal n.

(** Year, month and day of a day count from 0001-01-01 (proleptic Gregorian). *)
Definition civil (days : Z) : Z * Z * Z :=
  let z := days + 306 in
  let era := z / 146097 in
  let doe := z mod 146097 in
  let yoe := (doe - doe / 1460 + doe / 36524 - doe / 146096) / 365 in
  let doy := doe - (365 * yoe + yoe / 4 - yoe / 100) in
  let mp := (5 * doy + 2) / 153 in
  let d := doy - (153 * mp + 2) / 5 + 1 in
  let m := if mp <? 10 then mp + 3 else mp - 9 in
  (yoe + era * 400 + (if m <=? 2 then 1 else 0), m, d).

(** Nine fractional digits without trailing zeros; nothing for a whole second. *)
Fixpoint fraction_digits (width : nat) (n : Z) : string :=
  match width with
  | O => EmptyString
  | S w => if n =? 0 then EmptyString
           else let p := 10 ^ Z.of_nat w in decimal (n / p) +:+ fraction_digits w (n mod p)
  end.

Definition zone_text (l : Location) : string :=
  match l with
  | UTC => "Z"
  | Zone o =>
    if o =? 0 then "Z" else
    (if o <? 0 then "-" else "+") +:+ pad2 (Z.abs o / 60) +:+ ":" +:+ pad2 (Z.abs o mod 60)
  end.

Definition zone_offset (l : Location) : Z :=
  match l with UTC => 0 | Zone o => o * 60 * 1000000000 end.

(** [None]: the year is outside 0..9999 or the zone offset is a day or more, the
    cases in which [MarshalJSON] returns an error. *)
Definition rfc3339 (t : Time) : option string :=
  let local := instant t + zone_offset (location t) in
  let days := local / (24 * Hour) in
  let rest := local mod (24 * Hour) in
  let secs := rest / 1000000000 in
  let nanos := rest mod 1000000000 in
  let '(y, m, d) := civil days in
  if (y <? 0) || (9999 <? y) || (24 * 60 <=? Z.abs (zone_offset (location t) / 60000000000)) then None
  else Some (pad4 y +:+ "-" +:+ pad2 m +:+ "-" +:+ pad2 d +:+ "T" +:+
             pad2 (secs / 3600) +:+ ":" +:+ pad2 (secs mod 3600 / 60) +:+ ":" +:+ pad2 (secs mod 60) +:+
             (if nanos =? 0 then EmptyString else "." +:+ fraction_digits 9 nanos) +:+
             zone_text (location t)).

Example rfc3339_zero : rfc3339 zeroTime = Some "0001-01-01T00:00:00Z".
Proof. vm_compute. reflexivity. Qed.

Example rfc3339_unix :
  rfc3339 (mkTime ((62135596800 + 1709210096) * 1000000000 + 120000000) UTC)
  = Some "2024-02-29T12:34:56.12Z".
Proof. vm_compute. reflexivity. Qed.

Example rfc3339_zone :
  rfc3339 (mkTime ((62135596800 + 1709210096) * 1000000000) (Zone (-330)))
  = Some "2024-02-29T07:04:56-05:30".
Proof. vm_compute. reflexivity. Qed.
