(* ===== verification/GoJson.v ===== *)
(** * JSON encoding

    What the runtime uses of [encoding/json]: [json.Marshal] of the structs whose
    encodings are digested.  A value to be encoded is a tree [jval] whose leaves
    are the Go values; [JRaw] is the text a [MarshalJSON] method returned, and
    [marshal] is [None] where such a method returns an error. *)

From S2P Require Import Prelude GoString GoTime.

Inductive jval : Type :=
| JNull
| JBool (b : bool)
| JNum (z : Z)
| JStr (s : string)
| JArr (l : list jval)
| JObj (fields : list (string * jval))
| JRaw (text : string)
| JFail.

(** ** Strings *)

Definition hex4 (z : Z) : string :=
  of_bytes (byte_val <$> [hex_digit (z / 4096 mod 16); hex_digit (z / 256 mod 16);
                          hex_digit (z / 16 mod 16); hex_digit (z mod 16)]%Z).

Definition backslash (c : Z) : string := of_bytes [92; c]%Z.

(** The encoding of one rune: [enc] are its bytes in the source string.  HTML
    characters are escaped, as [json.Marshal] does by default. *)
Definition escape_rune (r : Z) (enc : list Z) : string :=
  if (r =? 34)%Z || (r =? 92)%Z then backslash r
  else if (r =? 8)%Z then backslash 98
  else if (r =? 12)%Z then backslash 102
  else if (r =? 10)%Z then backslash 110
  else if (r =? 13)%Z then backslash 114
  else if (r =? 9)%Z then backslash 116
  else if (r <? 32)%Z || (r =? 60)%Z || (r =? 62)%Z || (r =? 38)%Z || (r =? 0x2028)%Z || (r =? 0x2029)%Z
  then backslash 117 +:+ hex4 r
  else of_bytes enc.

Fixpoint escape_go (l : list Z) (decoded : list (Z * nat)) : string :=
  match decoded with
  | [] => EmptyString
  | (r, w) :: rest =>
    let out := if (r =? RuneError)%Z && (w =? 1)%nat then backslash 117 +:+ "fffd"
               else escape_rune r (take w l) in
    out +:+ escape_go (drop w l) rest
  end.

Definition quote : string := of_bytes [34]%Z.
Definition json_string (s : string) : string :=
  quote +:+ escape_go (bytes s) (decode_go 0 (bytes s)) +:+ quote.

Definition json_int (z : Z) : string :=
  if (z <? 0)%Z then "-" +:+ decimal (- z) else decimal z.

(** ** Values *)

Fixpoint join (sep : string) (l : list string) : string :=
  match l with
  | [] => EmptyString
  | [x] => x
  | x :: l => x +:+ sep +:+ join sep l
  end.

Fixpoint marshal (v : jval) : option string :=
  match v with
  | JNull => Some "null"
  | JBool b => Some (if b then "true" else "false")
  | JNum z => Some (json_int z)
  | JStr s => Some (json_string s)
  | JArr l =>
      let fix go l := match l with
        | [] => Some []
        | x :: l => match marshal x, go l with
                    | Some s, Some r => Some (s :: r)
                    | _, _ => None
                    end
        end in
      match go l with Some ss => Some ("[" +:+ join "," ss +:+ "]") | None => None end
  | JObj fields =>
      let fix go l := match l with
        | [] => Some []
        | (k, x) :: l => match marshal x, go l with
                         | Some s, Some r => Some ((json_string k +:+ ":" +:+ s) :: r)
                         | _, _ => None
                         end
        end in
      match go fields with Some ss => Some ("{" +:+ join "," ss +:+ "}") | None => None end
  | JRaw text => Some text
  | JFail => None
  end.

(** ** Encoders of leaf types *)

Definition json_time (t : Time) : jval :=
  match rfc3339 t with Some s => JStr s | None => JFail end.

Definition json_ptr {A} (f : A -> jval) (p : option A) : jval :=
  match p with Some a => f a | None => JNull end.

(** A [map[string]string]: keys in sorted order. *)
Definition json_string_map (m : gmap string string) : jval :=
  JObj ((fun k => (k, JStr (default "" (m !! k)))) <$> sort_strings (map_to_list m).*1).

Example marshal_example :
  marshal (JObj [("a", JArr [JNum 1; JNum (-20); JNull]); ("b<", JBool true)])
  = Some (of_bytes (bytes "{" ++ bytes quote ++ bytes "a" ++ bytes quote ++ bytes ":[1,-20,null]," ++
                    bytes quote ++ bytes "b\u003c" ++ bytes quote ++ bytes ":true}")).
Proof. vm_compute. reflexivity. Qed.
