(* ===== verification/GoJsonText.v ===== *)
(** * JSON decoding

    What the runtime uses of [encoding/json] on the way in.  The scanner of that
    package is a pushdown automaton fed one byte at a time; [step] is its transition
    function, extended to collect the tokens it passes.  A [json.RawMessage] that
    comes out of [json.Unmarshal] is a [doc]: every use the runtime makes of one
    (decoding it further, compacting it, encoding it again) depends only on its
    tokens, not on the white space between them. *)

From Stdlib Require Import Ascii String.
From S2P Require Import Prelude GoString GoJson.

Open Scope Z_scope.

(** Numbers keep their text and strings the text between their quotes. *)
Inductive doc : Type :=
| DNull
| DBool (b : bool)
| DNum (text : list Z)
| DStr (body : list Z)
| DArr (l : list doc)
| DObj (members : list (list Z * doc)).

(** ** The scanner *)

Definition space (c : Z) : bool := (c =? 32) || (c =? 9) || (c =? 13) || (c =? 10).
Definition is_hex (c : Z) : bool := is_digit c || between 97 c 102 || between 65 c 70.

(** stateNeg, state0, state1, stateDot, stateDot0, stateE, stateESign, stateE0. *)
Inductive number_state : Type := NNeg | NZero | NInt | NDot | NFrac | NE | NESign | NExp.

#[global] Instance number_state_eq_dec : EqDecision number_state.
Proof. solve_decision. Defined.

Definition number_start (c : Z) : option number_state :=
  if c =? 45 then Some NNeg else if c =? 48 then Some NZero else if between 49 c 57 then Some NInt else None.

Definition fraction_or_exponent (c : Z) : option number_state :=
  if c =? 46 then Some NDot else if (c =? 101) || (c =? 69) then Some NE else None.

(** The state after one more byte of the number, [None] when the byte ends it. *)
Definition number_step (n : number_state) (c : Z) : option number_state :=
  match n with
  | NNeg => if c =? 48 then Some NZero else if between 49 c 57 then Some NInt else None
  | NZero => fraction_or_exponent c
  | NInt => if is_digit c then Some NInt else fraction_or_exponent c
  | NDot => if is_digit c then Some NFrac else None
  | NFrac => if is_digit c then Some NFrac else if (c =? 101) || (c =? 69) then Some NE else None
  | NE => if (c =? 43) || (c =? 45) then Some NESign else if is_digit c then Some NExp else None
  | NESign | NExp => if is_digit c then Some NExp else None
  end.

Definition number_final (n : number_state) : bool :=
  match n with NZero | NInt | NFrac | NExp => true | _ => false end.

(** stateInString, stateInStringEsc and the four states of a \u escape. *)
Inductive string_state : Type := SPlain | SEsc | SHex (more : nat).

Definition simple_escape (c : Z) : bool :=
  (c =? 98) || (c =? 102) || (c =? 110) || (c =? 114) || (c =? 116) || (c =? 92) || (c =? 47) || (c =? 34).

(** One byte inside a string, other than the closing quote. *)
Definition string_step (e : string_state) (c : Z) : option string_state :=
  match e with
  | SPlain => if c =? 92 then Some SEsc else if (c =? 34) || (c <? 32) then None else Some SPlain
  | SEsc => if simple_escape c then Some SPlain else if c =? 117 then Some (SHex 3) else None
  | SHex more => if is_hex c then Some (match more with O => SPlain | S more => SHex more end) else None
  end.

(** What is being read inside a container: the elements read so far, last first. *)
Inductive frame : Type :=
| InArr (elements : list doc)
| InObj (members : list (list Z * doc)) (key : list Z).

Inductive mode : Type :=
| MValue
| MFirst
| MKeyFirst
| MKey
| MColon
| MAfter
| MDone (d : doc)
| MString (key : bool) (read : list Z) (e : string_state)
| MNum (read : list Z) (n : number_state)
| MWord (rest : list Z) (d : doc).

Record machine : Type := mkMachine { at_ : mode; stack : list frame }.

Definition maxNestingDepth : nat := 10000.

(** pushParseState *)
Definition open (m : mode) (f : frame) (st : list frame) : option machine :=
  if (length (f :: st) <=? maxNestingDepth)%nat then Some (mkMachine m (f :: st)) else None.

(** popParseState and the transition at the end of a value. *)
Definition complete (d : doc) (st : list frame) : machine :=
  match st with
  | [] => mkMachine (MDone d) []
  | InArr l :: st => mkMachine MAfter (InArr (d :: l) :: st)
  | InObj l k :: st => mkMachine MAfter (InObj ((k, d) :: l) k :: st)
  end.

(** stateBeginValue *)
Definition begin_value (c : Z) (st : list frame) : option machine :=
  if c =? 123 then open MKeyFirst (InObj [] []) st
  else if c =? 91 then open MFirst (InArr []) st
  else if c =? 34 then Some (mkMachine (MString false [] SPlain) st)
  else if c =? 116 then Some (mkMachine (MWord (bytes "rue") (DBool true)) st)
  else if c =? 102 then Some (mkMachine (MWord (bytes "alse") (DBool false)) st)
  else if c =? 110 then Some (mkMachine (MWord (bytes "ull") DNull) st)
  else match number_start c with Some n => Some (mkMachine (MNum [c] n) st) | None => None end.

(** stateEndValue and stateEndTop *)
Definition end_value (c : Z) (m : machine) : option machine :=
  if space c then Some m else
  match at_ m, stack m with
  | MAfter, InArr l :: st =>
    if c =? 44 then Some (mkMachine MValue (stack m))
    else if c =? 93 then Some (complete (DArr (rev l)) st) else None
  | MAfter, InObj l k :: st =>
    if c =? 44 then Some (mkMachine MKey (stack m))
    else if c =? 125 then Some (complete (DObj (rev l)) st) else None
  | _, _ => None
  end.

(** The closing quote of a key or of a value. *)
Definition end_string (key : bool) (body : list Z) (st : list frame) : option machine :=
  if key then match st with InObj l _ :: st => Some (mkMachine MColon (InObj l body :: st)) | _ => None end
  else Some (complete (DStr body) st).

Definition step (m : machine) (c : Z) : option machine :=
  let st := stack m in
  match at_ m with
  | MValue => if space c then Some m else begin_value c st
  | MFirst =>
    if space c then Some m
    else if c =? 93 then match st with InArr _ :: st => Some (complete (DArr []) st) | _ => None end
    else begin_value c st
  | MKeyFirst =>
    if space c then Some m
    else if c =? 125 then match st with InObj _ _ :: st => Some (complete (DObj []) st) | _ => None end
    else if c =? 34 then Some (mkMachine (MString true [] SPlain) st) else None
  | MKey => if space c then Some m else if c =? 34 then Some (mkMachine (MString true [] SPlain) st) else None
  | MColon => if space c then Some m else if c =? 58 then Some (mkMachine MValue st) else None
  | MAfter | MDone _ => end_value c m
  | MString key read e =>
    match e with
    | SPlain => if c =? 34 then end_string key (rev read) st
                else match string_step e c with Some e => Some (mkMachine (MString key (c :: read) e) st) | None => None end
    | _ => match string_step e c with Some e => Some (mkMachine (MString key (c :: read) e) st) | None => None end
    end
  | MNum read n =>
    match number_step n c with
    | Some n => Some (mkMachine (MNum (c :: read) n) st)
    | None => if number_final n then end_value c (complete (DNum (rev read)) st) else None
    end
  | MWord (b :: rest) d =>
    if c =? b then match rest with [] => Some (complete d st) | _ => Some (mkMachine (MWord rest d) st) end else None
  | MWord [] _ => None
  end.

Fixpoint run (m : machine) (l : list Z) : option machine :=
  match l with
  | [] => Some m
  | c :: l => match step m c with Some m => run m l | None => None end
  end.

Definition start : machine := mkMachine MValue [].

(** checkValid: the end of the input is fed to the scanner as a space. *)
Definition parse (s : string) : option doc :=
  match run start (bytes s ++ [32]) with
  | Some m => match at_ m with MDone d => Some d | _ => None end
  | None => None
  end.

(** A number at the top of a stream that the byte [c] ends. *)
Definition ended_number (m : machine) (c : Z) : option doc :=
  match at_ m, stack m with
  | MNum read n, [] => if number_final n && bool_decide (number_step n c = None) then Some (DNum (rev read)) else None
  | _, _ => None
  end.

(** [Decoder.Decode]: the first value of the stream and what follows it. *)
Fixpoint read_value (m : machine) (l : list Z) : option (doc * list Z) :=
  match at_ m with
  | MDone d => Some (d, l)
  | _ => match l with
         | [] => match step m 32 with
                 | Some m => match at_ m with MDone d => Some (d, []) | _ => None end
                 | None => None
                 end
         | c :: l' => match step m c with
                      | Some m => read_value m l'
                      | None => (fun d => (d, l)) <$> ended_number m c
                      end
         end
  end.

(** [Decoder.More] on the bytes that are left. *)
Fixpoint more (l : list Z) : bool :=
  match l with
  | [] => false
  | c :: l => if space c then more l else negb ((c =? 93) || (c =? 125))
  end.

(** ** Strings *)

(** [utf8.EncodeRune] *)
Definition encode_rune (r : Z) : list Z :=
  let r := if between 0 r 0x10FFFF && negb (between 0xD800 r 0xDFFF) then r else RuneError in
  if r <? 0x80 then [r]
  else if r <? 0x800 then [0xC0 + r / 64; 0x80 + r mod 64]
  else if r <? 0x10000 then [0xE0 + r / 4096; 0x80 + r / 64 mod 64; 0x80 + r mod 64]
  else [0xF0 + r / 262144; 0x80 + r / 4096 mod 64; 0x80 + r / 64 mod 64; 0x80 + r mod 64].

Definition hex_value (c : Z) : Z :=
  if is_digit c then c - 48 else if between 97 c 102 then c - 87 else c - 55.

(** getu4: the code unit of a \u escape at the start of [l], or -1. *)
Definition getu4 (l : list Z) : Z :=
  match l with
  | 92 :: 117 :: a :: b :: c :: d :: _ =>
    if is_hex a && is_hex b && is_hex c && is_hex d
    then ((hex_value a * 16 + hex_value b) * 16 + hex_value c) * 16 + hex_value d else -1
  | _ => -1
  end.

(** [utf16.DecodeRune] *)
Definition decode_surrogates (r1 r2 : Z) : Z :=
  if between 0xD800 r1 0xDBFF && between 0xDC00 r2 0xDFFF
  then (r1 - 0xD800) * 1024 + (r2 - 0xDC00) + 0x10000 else RuneError.

Definition unescape (c : Z) : Z :=
  if c =? 98 then 8 else if c =? 102 then 12 else if c =? 110 then 10 else if c =? 114 then 13 else if c =? 116 then 9 else c.

(** unquoteBytes on the text between the quotes: the bytes that the first token of
    [l] stands for, and its length. *)
Definition unquote_token (l : list Z) : list Z * nat :=
  match l with
  | [] => ([], 1%nat)
  | c :: rest =>
    if c =? 92 then
      match rest with
      | e :: rest' =>
        if e =? 117 then
          let rr := getu4 l in
          if between 0xD800 rr 0xDFFF then
            let pair := decode_surrogates rr (getu4 (drop 6 l)) in
            (encode_rune pair, if pair =? RuneError then 6%nat else 12%nat)
          else (encode_rune rr, 6%nat)
        else ([unescape e], 2%nat)
      | [] => ([], 1%nat)
      end
    else if c <? 0x80 then ([c], 1%nat)
    else match decode_rune l with Some (r, w) => (encode_rune r, w) | None => ([], 1%nat) end
  end.

Fixpoint unquote_go (skip : nat) (l : list Z) : list Z :=
  match l with
  | [] => []
  | _ :: l' =>
    match skip with
    | S skip => unquote_go skip l'
    | O => let '(out, w) := unquote_token l in out ++ unquote_go (pred w) l'
    end
  end.

Definition unquote (body : list Z) : string := of_bytes (unquote_go 0 body).

(** ** Compact *)

Fixpoint join_bytes (l : list (list Z)) : list Z :=
  match l with
  | [] => []
  | [x] => x
  | x :: l => x ++ 44 :: join_bytes l
  end.

Definition quoted (body : list Z) : list Z := 34 :: body ++ [34].

(** The tokens of a document without white space: [json.Compact]. *)
Fixpoint print (d : doc) : list Z :=
  match d with
  | DNull => bytes "null"
  | DBool b => bytes (if b then "true" else "false")
  | DNum text => text
  | DStr body => quoted body
  | DArr l => 91 :: join_bytes (print <$> l) ++ [93]
  | DObj l => 123 :: join_bytes ((fun kd => quoted kd.1 ++ 58 :: print kd.2) <$> l) ++ [125]
  end.

(** The escapes [json.Marshal] adds to the strings of a [RawMessage]: HTML
    characters, U+2028 and U+2029; [skip] bytes belong to the separator just
    escaped. *)
Fixpoint html_go (skip : nat) (l : list Z) : list Z :=
  match l with
  | [] => []
  | c :: l' =>
    match skip with
    | S skip => html_go skip l'
    | O =>
      if (c =? 60) || (c =? 62) || (c =? 38) then bytes (backslash 117 +:+ hex4 c) ++ html_go 0 l'
      else match l' with
           | b1 :: b2 :: _ =>
             if (c =? 0xE2) && (b1 =? 0x80) && ((b2 =? 0xA8) || (b2 =? 0xA9))
             then bytes (backslash 117 +:+ hex4 (0x2028 + (b2 - 0xA8))) ++ html_go 2 l'
             else c :: html_go 0 l'
           | _ => c :: html_go 0 l'
           end
    end
  end.

Fixpoint html (d : doc) : doc :=
  match d with
  | DStr body => DStr (html_go 0 body)
  | DArr l => DArr (html <$> l)
  | DObj l => DObj ((fun kd => (html_go 0 kd.1, html kd.2)) <$> l)
  | _ => d
  end.

(** The encoding of a [RawMessage] by [json.Marshal]. *)
Definition raw_text (d : doc) : string := of_bytes (print (html d)).

(** [json.Compact] and the encoding of a [RawMessage] that holds any bytes: an error
    unless they are one JSON value. *)
Definition json_raw (text : string) : jval :=
  match parse text with Some d => JRaw (raw_text d) | None => JFail end.

(** ** Decoding into Go types

    [json.Unmarshal] of a raw value into a variable of the type: [None] is an error.
    A null leaves the variable as it is, and makes a map or a slice nil. *)

(** A [map[string]json.RawMessage]; the last of equal keys counts. *)
Definition as_map (d : doc) : option (option (gmap string doc)) :=
  match d with
  | DNull => Some None
  | DObj l => Some (Some (foldl (fun m kd => <[unquote kd.1 := kd.2]> m) ∅ l))
  | _ => None
  end.

(** A [[]json.RawMessage]. *)
Definition as_list (d : doc) : option (list doc) :=
  match d with DNull => Some [] | DArr l => Some l | _ => None end.

Definition as_string (old : string) (d : doc) : option string :=
  match d with DNull => Some old | DStr body => Some (unquote body) | _ => None end.

Definition as_bool (old : bool) (d : doc) : option bool :=
  match d with DNull => Some old | DBool b => Some b | _ => None end.

Fixpoint number_run (n : number_state) (l : list Z) : bool :=
  match l with
  | [] => number_final n
  | c :: l => match number_step n c with Some n => number_run n l | None => false end
  end.

(** isValidNumber *)
Definition isValidNumber (l : list Z) : bool :=
  match l with c :: l => match number_start c with Some n => number_run n l | None => false end | [] => false end.

(** A [json.Number], which also takes a string with the text of a number. *)
Definition as_number (d : doc) : option (list Z) :=
  match d with
  | DNull => Some []
  | DNum text => Some text
  | DStr body => let text := bytes (unquote body) in if isValidNumber text then Some text else None
  | _ => None
  end.

(** A [[]string]. *)
Definition as_strings (d : doc) : option (list string) := l ← as_list d; mapM (as_string "") l.

(** [strconv.ParseInt(s, 10, 64)] *)
Definition ParseInt64 (l : list Z) : option Z :=
  let '(negative, digits) :=
    match l with c :: l' => if c =? 45 then (true, l') else if c =? 43 then (false, l') else (false, l) | [] => (false, l) end in
  if forallb is_digit digits && negb (bool_decide (digits = [])) then
    let n := foldl (fun n c => 10 * n + (c - 48)) 0 digits in
    let n := if negative then - n else n in
    if between (- 2 ^ 63) n (2 ^ 63 - 1) then Some n else None
  else None.

(** ** Decoding into [any], with UseNumber

    A [map[string]any] is the list of its members in the order of their keys. *)

Inductive any : Type :=
| ANull
| ABool (b : bool)
| ANumber (text : list Z)
| AString (s : string)
| AArray (l : list any)
| AMap (members : list (string * any)).

Fixpoint put_member (k : string) (v : any) (l : list (string * any)) : list (string * any) :=
  match l with
  | [] => [(k, v)]
  | (k', v') :: l => if k ≟ k' then (k, v) :: l
                     else if String.leb k k' then (k, v) :: (k', v') :: l
                     else (k', v') :: put_member k v l
  end.

Fixpoint as_any (d : doc) : any :=
  match d with
  | DNull => ANull
  | DBool b => ABool b
  | DNum text => ANumber text
  | DStr body => AString (unquote body)
  | DArr l => AArray (as_any <$> l)
  | DObj l => AMap (foldl (fun m kv => put_member kv.1 kv.2 m) [] ((fun kd => (unquote kd.1, as_any kd.2)) <$> l))
  end.

Fixpoint json_any (v : any) : jval :=
  match v with
  | ANull => JNull
  | ABool b => JBool b
  | ANumber text => JRaw (of_bytes text)
  | AString s => JStr s
  | AArray l => JArr (json_any <$> l)
  | AMap l => JObj ((fun kv => (kv.1, json_any kv.2)) <$> l)
  end.

(** A [map[string]json.RawMessage]: keys in sorted order. *)
Definition json_raw_map (m : gmap string doc) : jval :=
  JObj ((fun k => (k, match m !! k with Some d => JRaw (raw_text d) | None => JNull end)) <$> sort_strings (map_to_list m).*1).

Definition sample : string := of_bytes (bytes " { " ++ quoted (bytes "b\u00e9") ++ bytes " : [1, -2.5e+3 ,true] ," ++
  quoted (bytes "a<") ++ bytes ":null, " ++ quoted (bytes "b\u00e9") ++ bytes ":{}} ").

Example parse_sample :
  option_map raw_text (parse sample) =
    Some (of_bytes (bytes "{" ++ quoted (bytes "b\u00e9") ++ bytes ":[1,-2.5e+3,true]," ++ quoted (bytes "a\u003c") ++
                    bytes ":null," ++ quoted (bytes "b\u00e9") ++ bytes ":{}}")) /\
  (d ← parse sample; marshal (json_any (as_any d))) =
    Some (of_bytes (bytes "{" ++ quoted (bytes "a\u003c") ++ bytes ":null," ++ quoted ([98; 0xC3; 0xA9]) ++ bytes ":{}}")).
Proof. vm_compute. split; reflexivity. Qed.
