(* ===== verification/JsonFacts.v ===== *)
(** * The JSON scanner and the printer

    The scanner reads back what the printer writes ([parse_print]), and what it
    reads is a well-formed document ([parse_ok]). *)

From Stdlib Require Import Ascii String.
From S2P Require Import Prelude GoString GoJson GoJsonText.

Open Scope Z_scope.

(** ** Induction on documents *)

Section doc_induction.
Variable P : doc -> Prop.
Hypothesis null : P DNull.
Hypothesis bool_ : forall b, P (DBool b).
Hypothesis num : forall t, P (DNum t).
Hypothesis str : forall b, P (DStr b).
Hypothesis arr : forall l, Forall P l -> P (DArr l).
Hypothesis obj : forall l, Forall (fun kd => P kd.2) l -> P (DObj l).

Fixpoint doc_nested (d : doc) : P d :=
  match d with
  | DNull => null
  | DBool b => bool_ b
  | DNum t => num t
  | DStr b => str b
  | DArr l => arr l ((fix go l : Forall P l :=
      match l with [] => Forall_nil_2 P | d :: l => Forall_cons_2 P d l (doc_nested d) (go l) end) l)
  | DObj l => obj l ((fix go l : Forall (fun kd => P kd.2) l :=
      match l with
      | [] => Forall_nil_2 _
      | kd :: l => Forall_cons_2 (fun kd => P kd.2) kd l (doc_nested kd.2) (go l)
      end) l)
  end.
End doc_induction.

(** ** Well-formed documents *)

Definition is_byte (c : Z) : bool := between 0 c 255.

Fixpoint body_run (e : string_state) (l : list Z) : option string_state :=
  match l with
  | [] => Some e
  | c :: l => match string_step e c with Some e => body_run e l | None => None end
  end.

Definition body_ok (b : list Z) : bool :=
  match body_run SPlain b with Some SPlain => forallb is_byte b | _ => false end.

(** The document may stand inside [depth] containers. *)
Fixpoint doc_ok (depth : nat) (d : doc) : bool :=
  match d with
  | DNull | DBool _ => true
  | DNum t => isValidNumber t
  | DStr b => body_ok b
  | DArr l => (depth <? maxNestingDepth)%nat && forallb (doc_ok (S depth)) l
  | DObj l => (depth <? maxNestingDepth)%nat && forallb (fun kd => body_ok kd.1 && doc_ok (S depth) kd.2) l
  end.

Lemma run_app m a b : run m (a ++ b) = match run m a with Some m => run m b | None => None end.
Proof. revert m. induction a as [|c a IH]; intros m; simpl; [done|]. destruct (step m c); auto. Qed.

Lemma body_run_app e a b : body_run e (a ++ b) = match body_run e a with Some e => body_run e b | None => None end.
Proof. revert e. induction a as [|c a IH]; intros e; simpl; [done|]. destruct (string_step e c); auto. Qed.

(** A byte that may follow a value. *)
Definition terminator (c : Z) : bool := space c || (c =? 44) || (c =? 93) || (c =? 125).

Lemma complete_end d st c : step (complete d st) c = end_value c (complete d st).
Proof. destruct st as [|[l|l k] st]; reflexivity. Qed.

(** ** Strings, numbers and words *)

Lemma scan_body key b e read st rest :
  body_run e b = Some SPlain ->
  run (mkMachine (MString key read e) st) (b ++ 34 :: rest) =
  match end_string key (rev (rev b ++ read)) st with Some m => run m rest | None => None end.
Proof.
  revert e read. induction b as [|c b IH]; intros e read H.
  - simpl in H. injection H as ->. reflexivity.
  - simpl in H. destruct (string_step e c) as [e'|] eqn:He; [|done]. simpl app.
    assert (Hstep : step (mkMachine (MString key read e) st) c = Some (mkMachine (MString key (c :: read) e') st)).
    { unfold step. cbn [at_ stack]. rewrite He. destruct e; [|done..].
      destruct (c =? 34) eqn:Hc; [|done]. apply Z.eqb_eq in Hc as ->. discriminate. }
    cbn [run]. rewrite Hstep, (IH _ _ H). simpl rev. by rewrite <- (assoc_L (++)).
Qed.

Lemma scan_string m b st rest :
  m = MValue \/ m = MFirst -> body_ok b = true ->
  run (mkMachine m st) (quoted b ++ rest) = run (complete (DStr b) st) rest.
Proof.
  intros Hm Hb. unfold body_ok in Hb. destruct (body_run SPlain b) as [[]|] eqn:He; try done.
  unfold quoted. rewrite <- app_comm_cons, <- (assoc_L (++)).
  transitivity (run (mkMachine (MString false [] SPlain) st) (b ++ 34 :: rest)); [by destruct Hm as [-> | ->]|].
  rewrite (scan_body _ _ _ _ _ _ He). unfold end_string. by rewrite (right_id_L [] (++)), rev_involutive.
Qed.

Lemma scan_key m b l k st rest :
  m = MKey \/ m = MKeyFirst -> body_ok b = true ->
  run (mkMachine m (InObj l k :: st)) (quoted b ++ rest) = run (mkMachine MColon (InObj l b :: st)) rest.
Proof.
  intros Hm Hb. unfold body_ok in Hb. destruct (body_run SPlain b) as [[]|] eqn:He; try done.
  unfold quoted. rewrite <- app_comm_cons, <- (assoc_L (++)).
  transitivity (run (mkMachine (MString true [] SPlain) (InObj l k :: st)) (b ++ 34 :: rest)); [by destruct Hm as [-> | ->]|].
  rewrite (scan_body _ _ _ _ _ _ He). unfold end_string. by rewrite (right_id_L [] (++)), rev_involutive.
Qed.

Lemma terminator_stops n c : terminator c = true -> number_step n c = None.
Proof.
  unfold terminator, space. intros H.
  assert (Hc : c ∈ [32; 9; 13; 10; 44; 93; 125]).
  { rewrite !orb_true_iff, !Z.eqb_eq in H. set_solver. }
  repeat (apply elem_of_cons in Hc as [-> | Hc]; [by destruct n|]). by apply not_elem_of_nil in Hc.
Qed.

Lemma step_number read n st c :
  step (mkMachine (MNum read n) st) c =
  match number_step n c with
  | Some n => Some (mkMachine (MNum (c :: read) n) st)
  | None => if number_final n then end_value c (complete (DNum (rev read)) st) else None
  end.
Proof. reflexivity. Qed.

Lemma scan_digits n l read st c rest :
  number_run n l = true -> terminator c = true ->
  run (mkMachine (MNum read n) st) (l ++ c :: rest) = run (complete (DNum (rev (rev l ++ read))) st) (c :: rest).
Proof.
  revert n read. induction l as [|b l IH]; intros n read H Hc.
  - simpl in H. simpl app. cbn [run]. rewrite complete_end, step_number, terminator_stops by done. by rewrite H.
  - simpl in H. destruct (number_step n b) as [n'|] eqn:Hn; [|done]. simpl app.
    transitivity (run (mkMachine (MNum (b :: read) n') st) (l ++ c :: rest)).
    { cbn [run]. by rewrite step_number, Hn. }
    rewrite (IH _ _ H Hc). simpl rev. by rewrite <- (assoc_L (++)).
Qed.

Lemma number_start_byte c n : number_start c = Some n -> c ∈ [45; 48; 49; 50; 51; 52; 53; 54; 55; 56; 57].
Proof.
  unfold number_start, between. rewrite !elem_of_cons. repeat case_match; bools; try done; try (rewrite Z.eqb_eq in * ); intros _; lia.
Qed.

Lemma scan_number m t st c rest :
  m = MValue \/ m = MFirst -> isValidNumber t = true -> terminator c = true ->
  run (mkMachine m st) (t ++ c :: rest) = run (complete (DNum t) st) (c :: rest).
Proof.
  intros Hm Ht Hc. destruct t as [|b t]; [done|]. simpl in Ht. destruct (number_start b) as [n|] eqn:Hn; [|done].
  transitivity (run (mkMachine (MNum [b] n) st) (t ++ c :: rest)).
  { simpl app. pose proof (number_start_byte _ _ Hn) as Hb. cbn [run].
    repeat (apply elem_of_cons in Hb as [-> | Hb]; [injection Hn as <-; by destruct Hm as [-> | ->]|]). by apply not_elem_of_nil in Hb. }
  rewrite (scan_digits _ _ _ _ _ _ Ht Hc), rev_app_distr, rev_involutive. reflexivity.
Qed.

(** ** Values *)

Definition scans (d : doc) : Prop := forall m st c rest,
  m = MValue \/ m = MFirst -> doc_ok (length st) d = true -> terminator c = true ->
  run (mkMachine m st) (print d ++ c :: rest) = run (complete d st) (c :: rest).

Lemma scan_elements l prev m st rest :
  m = MValue \/ m = MFirst -> l <> [] -> Forall scans l -> forallb (doc_ok (S (length st))) l = true ->
  run (mkMachine m (InArr prev :: st)) (join_bytes (print <$> l) ++ 93 :: rest) =
  run (complete (DArr (rev prev ++ l)) st) rest.
Proof.
  revert prev m. induction l as [|d [|d' l] IH]; intros prev m Hm Hne Hs Hok; [done|..];
    apply Forall_cons in Hs as [Hd Hs]; cbn [forallb] in Hok; apply andb_true_iff in Hok as [Hok Hoks].
  - simpl fmap. cbn [join_bytes]. rewrite Hd by done. reflexivity.
  - change (join_bytes (print <$> d :: d' :: l)) with (print d ++ 44 :: join_bytes (print <$> d' :: l)).
    rewrite <- (assoc_L (++)), <- app_comm_cons, Hd by done.
    change (run (mkMachine MValue (InArr (d :: prev) :: st)) (join_bytes (print <$> d' :: l) ++ 93 :: rest) = run (complete (DArr (rev prev ++ d :: d' :: l)) st) rest).
    rewrite IH by auto. simpl rev. by rewrite <- (assoc_L (++)).
Qed.

Definition print_member (kd : list Z * doc) : list Z := quoted kd.1 ++ 58 :: print kd.2.

Lemma scan_members l prev k m st rest :
  m = MKey \/ m = MKeyFirst -> l <> [] -> Forall (fun kd => scans kd.2) l ->
  forallb (fun kd => body_ok kd.1 && doc_ok (S (length st)) kd.2) l = true ->
  run (mkMachine m (InObj prev k :: st)) (join_bytes (print_member <$> l) ++ 125 :: rest) =
  run (complete (DObj (rev prev ++ l)) st) rest.
Proof.
  revert prev k m. induction l as [|[b d] [|kd l] IH]; intros prev k m Hm Hne Hs Hok; [done|..];
    apply Forall_cons in Hs as [Hd Hs]; cbn [forallb fst snd] in Hok; apply andb_true_iff in Hok as [[Hb Hok]%andb_true_iff Hoks].
  - simpl fmap. cbn [join_bytes]. unfold print_member. cbn [fst snd].
    rewrite <- (assoc_L (++)), scan_key by done.
    change (run (mkMachine MValue (InObj prev b :: st)) (print d ++ 125 :: rest) = run (complete (DObj (rev prev ++ [(b, d)])) st) rest).
    rewrite Hd by (simpl; auto). reflexivity.
  - change (join_bytes (print_member <$> (b, d) :: kd :: l)) with ((quoted b ++ 58 :: print d) ++ 44 :: join_bytes (print_member <$> kd :: l)).
    rewrite <- !(assoc_L (++)), scan_key by done. rewrite <- !app_comm_cons.
    change (run (mkMachine MValue (InObj prev b :: st)) (print d ++ 44 :: (join_bytes (print_member <$> kd :: l) ++ 125 :: rest)) = run (complete (DObj (rev prev ++ (b, d) :: kd :: l)) st) rest).
    rewrite Hd by (simpl; auto).
    change (run (mkMachine MKey (InObj ((b, d) :: prev) b :: st)) (join_bytes (print_member <$> kd :: l) ++ 125 :: rest) = run (complete (DObj (rev prev ++ (b, d) :: kd :: l)) st) rest).
    rewrite IH by auto. simpl rev. by rewrite <- (assoc_L (++)).
Qed.

Lemma open_ok m f st : (length st <? maxNestingDepth)%nat = true -> open m f st = Some (mkMachine m (f :: st)).
Proof. intros H. apply Nat.ltb_lt in H. unfold open. cbn [length]. by rewrite (proj2 (Nat.leb_le _ _) H). Qed.

Lemma scan_open m st b rest : m = MValue \/ m = MFirst -> (length st <? maxNestingDepth)%nat = true -> b = 91 \/ b = 123 ->
  run (mkMachine m st) (b :: rest) =
  run (if b =? 91 then mkMachine MFirst (InArr [] :: st) else mkMachine MKeyFirst (InObj [] [] :: st)) rest.
Proof.
  intros Hm Hd Hb. assert (Hs : step (mkMachine m st) b = if b =? 91 then open MFirst (InArr []) st else open MKeyFirst (InObj [] []) st)
    by (by destruct Hm as [-> | ->], Hb as [-> | ->]).
  cbn [run]. rewrite Hs. destruct (b =? 91); by rewrite open_ok.
Qed.

Lemma print_arr l : print (DArr l) = 91 :: join_bytes (print <$> l) ++ [93].
Proof. reflexivity. Qed.

Lemma print_obj l : print (DObj l) = 123 :: join_bytes (print_member <$> l) ++ [125].
Proof. reflexivity. Qed.

Lemma scan_value d : scans d.
Proof.
  induction d as [|b|t|b|l IH|l IH] using doc_nested; intros m st c rest Hm Hok Hc; simpl in Hok.
  - by destruct Hm as [-> | ->].
  - by destruct Hm as [-> | ->], b.
  - by apply scan_number.
  - by apply scan_string.
  - apply andb_true_iff in Hok as [Hdepth Hok]. rewrite print_arr, <- app_comm_cons, <- (assoc_L (++)), scan_open by auto.
    destruct l as [|d l]; [reflexivity|].
    change (run (mkMachine MFirst (InArr [] :: st)) (join_bytes (print <$> d :: l) ++ 93 :: c :: rest) = run (complete (DArr (d :: l)) st) (c :: rest)).
    by rewrite scan_elements by auto.
  - apply andb_true_iff in Hok as [Hdepth Hok]. rewrite print_obj, <- app_comm_cons, <- (assoc_L (++)), scan_open by auto.
    destruct l as [|d l]; [reflexivity|].
    change (run (mkMachine MKeyFirst (InObj [] [] :: st)) (join_bytes (print_member <$> d :: l) ++ 125 :: c :: rest) = run (complete (DObj (d :: l)) st) (c :: rest)).
    by rewrite scan_members by auto.
Qed.

(** ** Reading back *)

Lemma bytes_of_bytes l : forallb is_byte l = true -> bytes (of_bytes l) = l.
Proof.
  induction l as [|c l IH]; simpl; [done|]. unfold is_byte, between. intros [Hc Hl]%andb_true_iff. bools.
  rewrite IH by done. f_equal. unfold byte_val, byte_chr.
  rewrite N_ascii_embedding by lia. lia.
Qed.

Lemma number_start_is_byte c n : number_start c = Some n -> is_byte c = true.
Proof.
  intros H%number_start_byte. repeat (apply elem_of_cons in H as [-> | H]; [done|]). by apply not_elem_of_nil in H.
Qed.

Lemma number_step_is_byte n c n' : number_step n c = Some n' -> is_byte c = true.
Proof.
  unfold is_byte, between. intros H. apply andb_true_iff. rewrite !Z.leb_le.
  destruct n; simpl in H; unfold fraction_or_exponent, is_digit, between in H; repeat case_match; bools; try done;
    repeat match goal with E : (_ =? _) = true |- _ => apply Z.eqb_eq in E end; lia.
Qed.

Lemma number_bytes t : isValidNumber t = true -> forallb is_byte t = true.
Proof.
  destruct t as [|c t]; [done|]. simpl. destruct (number_start c) as [n|] eqn:Hn; [|done].
  rewrite (number_start_is_byte _ _ Hn). simpl. clear Hn. revert n.
  induction t as [|b t IH]; intros n; simpl; [done|]. destruct (number_step n b) as [n'|] eqn:Hb; [|done].
  rewrite (number_step_is_byte _ _ _ Hb). apply IH.
Qed.

Lemma join_bytes_forall (p : Z -> bool) ls :
  p 44 = true -> Forall (fun l => forallb p l = true) ls -> forallb p (join_bytes ls) = true.
Proof.
  intros Hp. induction 1 as [|x [|y ls] Hx Hls IH]; [done|done|].
  change (join_bytes (x :: y :: ls)) with (x ++ 44 :: join_bytes (y :: ls)).
  rewrite forallb_app, Hx. simpl forallb at 1. by rewrite Hp.
Qed.

Lemma body_bytes b : body_ok b = true -> forallb is_byte b = true.
Proof. unfold body_ok. by destruct (body_run SPlain b) as [[]|]. Qed.

Lemma quoted_bytes b : body_ok b = true -> forallb is_byte (quoted b) = true.
Proof. intros H%body_bytes. unfold quoted. simpl. by rewrite forallb_app, H. Qed.

Lemma print_bytes d depth : doc_ok depth d = true -> forallb is_byte (print d) = true.
Proof.
  revert depth. induction d as [|b|t|b|l IH|l IH] using doc_nested; intros depth Hok.
  - done.
  - by destruct b.
  - by apply number_bytes.
  - by apply quoted_bytes.
  - simpl in Hok. apply andb_true_iff in Hok as [_ Hok]. rewrite print_arr. simpl. rewrite forallb_app. simpl.
    rewrite join_bytes_forall; [done..|]. apply Forall_fmap. rewrite Forall_forall in *. intros d Hd. simpl.
    rewrite forallb_forall in Hok. apply (IH _ Hd (S depth)), Hok. by apply list_elem_of_In.
  - simpl in Hok. apply andb_true_iff in Hok as [_ Hok]. rewrite print_obj. simpl. rewrite forallb_app. simpl.
    rewrite join_bytes_forall; [done..|]. apply Forall_fmap. rewrite Forall_forall in *. intros [b d] Hd.
    rewrite forallb_forall in Hok. specialize (Hok (b, d)). rewrite <- list_elem_of_In in Hok.
    pose proof (Hok Hd) as [Hb Hok']%andb_true_iff. cbn [fst snd] in Hb, Hok'.
    change (forallb is_byte (quoted b ++ 58 :: print d) = true).
    rewrite forallb_app, quoted_bytes by done. by apply (IH _ Hd (S depth)).
Qed.

Lemma parse_print d : doc_ok 0 d = true -> parse (of_bytes (print d)) = Some d.
Proof.
  intros Hok. unfold parse. rewrite bytes_of_bytes by (by eapply print_bytes).
  pose proof (scan_value d MValue [] 32 [] (or_introl eq_refl) Hok eq_refl) as H.
  unfold start. by rewrite H.
Qed.

(** ** What the scanner accepts is well formed *)

Definition read_number (read : list Z) (n : number_state) : Prop :=
  exists c l n0, rev read = c :: l /\ number_start c = Some n0 /\
    forall l', number_run n l' = number_run n0 (l ++ l').

Fixpoint stack_ok (st : list frame) : Prop :=
  match st with
  | [] => True
  | InArr l :: st => (length st < maxNestingDepth)%nat /\ forallb (doc_ok (S (length st))) l = true /\ stack_ok st
  | InObj l k :: st => (length st < maxNestingDepth)%nat /\ body_ok k = true /\
      forallb (fun kd => body_ok kd.1 && doc_ok (S (length st)) kd.2) l = true /\ stack_ok st
  end.

Definition mode_ok (m : mode) : Prop :=
  match m with
  | MString key read e => body_run SPlain (rev read) = Some e /\ forallb is_byte (rev read) = true
  | MNum read n => read_number read n
  | MWord _ d => forall depth, doc_ok depth d = true
  | MDone d => doc_ok 0 d = true
  | _ => True
  end.

Definition machine_ok (m : machine) : Prop := mode_ok (at_ m) /\ stack_ok (stack m).

Lemma complete_ok d st : doc_ok (length st) d = true -> stack_ok st -> machine_ok (complete d st).
Proof.
  intros Hd Hst. destruct st as [|[l|l k] st]; [done|..]; (split; [done|]); simpl in *;
    [destruct Hst as (Hlen & Hl & Hst)|destruct Hst as (Hlen & Hk & Hl & Hst)]; by rewrite ?Hd, ?Hk, ?Hl.
Qed.

Lemma open_machine_ok m f st m' :
  open m f st = Some m' -> stack_ok st -> f = InArr [] \/ f = InObj [] [] -> mode_ok m -> machine_ok m'.
Proof.
  unfold open. intros H Hst Hf Hm. destruct (length (f :: st) <=? maxNestingDepth)%nat eqn:Hlen; [|done].
  injection H as <-. apply Nat.leb_le in Hlen. split; [done|]. by destruct Hf as [-> | ->].
Qed.

Lemma begin_value_ok c st m : begin_value c st = Some m -> stack_ok st -> machine_ok m.
Proof.
  unfold begin_value. intros H Hst.
  destruct (c =? 123); [by eapply open_machine_ok; [done..|auto|]|].
  destruct (c =? 91); [by eapply open_machine_ok; [done..|auto|]|].
  repeat (case_match; [injection H as <-; by split|]).
  destruct (number_start c) as [n|] eqn:Hn; [|done]. injection H as <-. split; [|done].
  exists c, [], n. split_and!; done.
Qed.

Lemma forallb_rev {A} (p : A -> bool) l : forallb p (rev l) = forallb p l.
Proof. induction l as [|x l IH]; [done|]. simpl. rewrite forallb_app, IH. simpl. destruct (p x), (forallb p l); done. Qed.

Lemma close_ok f st d :
  stack_ok (f :: st) -> match f with InArr l => d = DArr (rev l) \/ d = DArr [] | InObj l k => d = DObj (rev l) \/ d = DObj [] end ->
  machine_ok (complete d st).
Proof.
  intros Hst Hd. assert (Hlt : (length st <? maxNestingDepth)%nat = true)
    by (apply Nat.ltb_lt; by destruct f; destruct Hst).
  destruct f as [l|l k]; [destruct Hst as (Hlen & Hl & Hst)|destruct Hst as (Hlen & Hk & Hl & Hst)];
    apply complete_ok; try done; destruct Hd as [-> | ->]; simpl; by rewrite Hlt, ?forallb_rev, ?Hl.
Qed.

Lemma end_value_ok c m m' : end_value c m = Some m' -> machine_ok m -> machine_ok m'.
Proof.
  unfold end_value. intros H [Hm Hst]. destruct (space c); [by injection H as <-|].
  destruct (at_ m) eqn:Ha; try done. destruct (stack m) as [|[l|l k] st] eqn:Es; [done|..];
    (destruct (c =? 44); [injection H as <-; by split|]); case_match; try done; injection H as <-;
    (eapply close_ok; [done|by left]).
Qed.

Lemma string_read_ok key read e c e' st :
  mode_ok (MString key read e) -> stack_ok st -> is_byte c = true -> string_step e c = Some e' ->
  machine_ok (mkMachine (MString key (c :: read) e') st).
Proof.
  intros [He Hb] Hst Hc Hs. split; [|done]. simpl. rewrite body_run_app, He, forallb_app, Hb. simpl. by rewrite Hs, Hc.
Qed.

Lemma end_string_ok key read st m :
  end_string key (rev read) st = Some m -> mode_ok (MString key read SPlain) -> stack_ok st -> machine_ok m.
Proof.
  intros H [He Hb] Hst. assert (Hok : body_ok (rev read) = true) by (unfold body_ok; by rewrite He).
  destruct key; simpl in H.
  - destruct st as [|[l|l k] st]; try done. injection H as <-. split; [done|].
    destruct Hst as (Hlen & Hk & Hl & Hst). simpl. by rewrite Hok.
  - injection H as <-. by apply complete_ok.
Qed.

Lemma read_number_ok read n : read_number read n -> number_final n = true -> isValidNumber (rev read) = true.
Proof.
  intros (c & l & n0 & -> & Hn & Hrun) Hf. simpl. rewrite Hn. specialize (Hrun []). rewrite (right_id_L [] (++)) in Hrun. by rewrite <- Hrun.
Qed.

Lemma read_number_step read n c n' : read_number read n -> number_step n c = Some n' -> read_number (c :: read) n'.
Proof.
  intros (c0 & l & n0 & Hr & Hn & Hrun) Hs. exists c0, (l ++ [c]), n0. split_and!; [|done|].
  - simpl. by rewrite Hr.
  - intros l'. rewrite <- (assoc_L (++)), <- Hrun. simpl. by rewrite Hs.
Qed.

Lemma machine_step_ok m c m' : step m c = Some m' -> is_byte c = true -> machine_ok m -> machine_ok m'.
Proof.
  destruct m as [md st]. intros H Hc [Hm Hst]. cbn [at_ stack] in Hm, Hst. unfold step in H. cbn [at_ stack] in H. destruct md as [| | | | | |d|key read e|read n|[|b rest] d].
  - destruct (space c); [by injection H as <-|]. by eapply begin_value_ok.
  - destruct (space c); [by injection H as <-|]. destruct (c =? 93); [|by eapply begin_value_ok].
    destruct st as [|[l|] st]; try done. injection H as <-. eapply close_ok; [done|by right].
  - destruct (space c); [by injection H as <-|]. destruct (c =? 125).
    + destruct st as [|[l|] st]; try done. injection H as <-. eapply close_ok; [done|by right].
    + destruct (c =? 34); [|done]. injection H as <-. by split.
  - destruct (space c); [by injection H as <-|]. destruct (c =? 34); [|done]. injection H as <-. by split.
  - destruct (space c); [by injection H as <-|]. destruct (c =? 58); [|done]. injection H as <-. by split.
  - by eapply end_value_ok.
  - by eapply end_value_ok.
  - assert (Hread : forall e', string_step e c = Some e' -> machine_ok (mkMachine (MString key (c :: read) e') st))
      by (intros; by eapply string_read_ok).
    destruct e; [destruct (c =? 34); [by eapply end_string_ok|]|..];
      (destruct (string_step _ c) as [e'|]; [|done]); injection H as <-; by apply Hread.
  - destruct (number_step n c) as [n'|] eqn:Hn.
    + injection H as <-. split; [|done]. by eapply read_number_step.
    + destruct (number_final n) eqn:Hf; [|done]. eapply end_value_ok; [done|]. apply complete_ok; [|done]. by eapply read_number_ok.
  - done.
  - destruct (c =? b); [|done]. destruct rest as [|b' rest]; injection H as <-; [by apply complete_ok|by split].
Qed.

Lemma run_ok m l m' : run m l = Some m' -> forallb is_byte l = true -> machine_ok m -> machine_ok m'.
Proof.
  revert m. induction l as [|c l IH]; intros m H Hl Hm; simpl in H; [by injection H as <-|].
  simpl in Hl. apply andb_true_iff in Hl as [Hc Hl]. destruct (step m c) as [m1|] eqn:Hs; [|done].
  eapply IH; [done..|]. by eapply machine_step_ok.
Qed.

Lemma bytes_are_bytes s : forallb is_byte (bytes s) = true.
Proof.
  induction s as [|c s IH]; [done|]. simpl. rewrite IH. unfold is_byte, between, byte_val.
  pose proof (N_ascii_bounded c). rewrite andb_true_r. apply andb_true_iff. rewrite !Z.leb_le. lia.
Qed.

Lemma parse_ok s d : parse s = Some d -> doc_ok 0 d = true.
Proof.
  unfold parse. intros H. destruct (run start (bytes s ++ [32])) as [m|] eqn:Hr; [|done].
  destruct (at_ m) eqn:Ha; try done. injection H as ->.
  apply run_ok in Hr as [Hm _]; [by rewrite Ha in Hm|by rewrite forallb_app, bytes_are_bytes|done].
Qed.

(** ** Bytes *)

Notation bytes_ok := (Forall (fun b => is_byte b = true)).

Lemma is_byte_range b : is_byte b = true <-> 0 <= b < 256.
Proof. unfold is_byte, between. rewrite andb_true_iff, !Z.leb_le. lia. Qed.

Lemma bytes_ok_bytes s : bytes_ok (bytes s).
Proof. apply Forall_forall. intros b Hb. pose proof (bytes_are_bytes s) as H. rewrite forallb_forall in H. by apply H, list_elem_of_In. Qed.

Lemma bytes_ok_read l : bytes_ok l -> bytes (of_bytes l) = l.
Proof. intros H. apply bytes_of_bytes, forallb_forall. intros b Hb. rewrite Forall_forall in H. by apply H, list_elem_of_In. Qed.
