(* ===== verification/JsonStrings.v ===== *)
(** * JSON strings

    Quoting a string and unquoting it again gives the string ([unquote_escape]);
    what unquoting gives is valid UTF-8 ([unquote_utf8]); the escapes that
    [json.Marshal] adds to a raw value change neither what its strings stand for
    ([unquote_html]) nor themselves when added twice ([html_idem]). *)

From Stdlib Require Import Ascii String.
From S2P Require Import Prelude GoString GoJson GoJsonText JsonFacts.

Open Scope Z_scope.

(** ** Skipping *)

Lemma unquote_go_skip k l : unquote_go k l = unquote_go 0 (drop k l).
Proof. revert l. induction k as [|k IH]; intros [|c l]; simpl; [done..|]. apply IH. Qed.

Lemma decode_go_skip k l : decode_go k l = decode_go 0 (drop k l).
Proof. revert l. induction k as [|k IH]; intros [|c l]; simpl; [done..|]. apply IH. Qed.

Lemma html_go_skip k l : html_go k l = html_go 0 (drop k l).
Proof. revert l. induction k as [|k IH]; intros [|c l]; simpl; [done..|]. apply IH. Qed.

(** ** UTF-8 *)

Definition valid_rune (r : Z) : bool := between 0 r 0x10FFFF && negb (between 0xD800 r 0xDFFF).

(** Sequences of encoded runes. *)
Inductive utf8 : list Z -> Prop :=
| utf8_nil : utf8 []
| utf8_rune r l : valid_rune r = true -> utf8 l -> utf8 (encode_rune r ++ l).

Lemma valid_rune_bounds r : valid_rune r = true <-> (0 <= r <= 0x10FFFF) /\ (r < 0xD800 \/ 0xDFFF < r).
Proof. unfold valid_rune, between. rewrite andb_true_iff, negb_true_iff, andb_true_iff, andb_false_iff, !Z.leb_le, !Z.leb_gt. lia. Qed.

Lemma encode_valid r : valid_rune r = true ->
  encode_rune r =
  if r <? 0x80 then [r]
  else if r <? 0x800 then [0xC0 + r / 64; 0x80 + r mod 64]
  else if r <? 0x10000 then [0xE0 + r / 4096; 0x80 + r / 64 mod 64; 0x80 + r mod 64]
  else [0xF0 + r / 262144; 0x80 + r / 4096 mod 64; 0x80 + r / 64 mod 64; 0x80 + r mod 64].
Proof. unfold valid_rune, encode_rune. by intros ->. Qed.

Lemma encode_invalid r : valid_rune r = false -> encode_rune r = encode_rune RuneError.
Proof. unfold valid_rune, encode_rune. by intros ->. Qed.

Lemma utf8_encode r l : utf8 l -> utf8 (encode_rune r ++ l).
Proof.
  intros Hl. destruct (valid_rune r) eqn:Hr; [by apply utf8_rune|]. rewrite encode_invalid by done. by apply utf8_rune.
Qed.

Ltac euclid := Z.to_euclidean_division_equations; lia.

(** Boolean comparisons in the context as inequalities. *)
Ltac arith :=
  repeat match goal with
  | E : (_ =? _) = true |- _ => apply Z.eqb_eq in E
  | E : (_ =? _) = false |- _ => apply Z.eqb_neq in E
  | E : (_ <? _) = true |- _ => apply Z.ltb_lt in E
  | E : (_ <? _) = false |- _ => apply Z.ltb_ge in E
  | E : _ && _ = false |- _ => apply andb_false_iff in E; rewrite ?Z.leb_gt in E
  end.

Lemma decode_ascii c l : c < 0x80 -> decode_rune (c :: l) = Some (c, 1%nat).
Proof. intros H. unfold decode_rune. by rewrite (proj2 (Z.ltb_lt _ _) H). Qed.

Lemma decode_encode r l : valid_rune r = true -> decode_rune (encode_rune r ++ l) = Some (r, length (encode_rune r)).
Proof.
  intros Hr. rewrite (encode_valid r Hr). apply valid_rune_bounds in Hr.
  destruct (Z.ltb_spec r 0x80); [by apply decode_ascii|].
  destruct (Z.ltb_spec r 0x800); [|destruct (Z.ltb_spec r 0x10000)]; simpl app; unfold decode_rune, between.
  - rewrite (proj2 (Z.ltb_ge (0xC0 + r / 64) 0x80)) by euclid.
    rewrite !(proj2 (Z.leb_le _ _)) by euclid. simpl. do 2 f_equal. euclid.
  - rewrite (proj2 (Z.ltb_ge (0xE0 + r / 4096) 0x80)) by euclid.
    rewrite (proj2 (Z.leb_le 0xC2 (0xE0 + r / 4096))) by euclid.
    rewrite (proj2 (Z.leb_gt (0xE0 + r / 4096) 0xDF)) by euclid.
    rewrite (proj2 (Z.leb_le 0xE0 (0xE0 + r / 4096))) by euclid.
    rewrite (proj2 (Z.leb_le (0xE0 + r / 4096) 0xEF)) by euclid. cbn [andb].
    destruct (Z.eqb_spec (0xE0 + r / 4096) 0xE0), (Z.eqb_spec (0xE0 + r / 4096) 0xED);
      rewrite !(proj2 (Z.leb_le _ _)) by euclid; simpl; do 2 f_equal; euclid.
  - rewrite (proj2 (Z.ltb_ge (0xF0 + r / 262144) 0x80)) by euclid.
    rewrite (proj2 (Z.leb_le 0xC2 (0xF0 + r / 262144))) by euclid.
    rewrite (proj2 (Z.leb_gt (0xF0 + r / 262144) 0xDF)) by euclid.
    rewrite (proj2 (Z.leb_le 0xE0 (0xF0 + r / 262144))) by euclid.
    rewrite (proj2 (Z.leb_gt (0xF0 + r / 262144) 0xEF)) by euclid.
    rewrite (proj2 (Z.leb_le 0xF0 (0xF0 + r / 262144))) by euclid.
    rewrite (proj2 (Z.leb_le (0xF0 + r / 262144) 0xF4)) by euclid. cbn [andb].
    destruct (Z.eqb_spec (0xF0 + r / 262144) 0xF0), (Z.eqb_spec (0xF0 + r / 262144) 0xF4);
      rewrite !(proj2 (Z.leb_le _ _)) by euclid; simpl; do 2 f_equal; euclid.
Qed.

(** A rune that was decoded from a valid encoding is encoded the same way. *)
Definition decoded (l : list Z) (r : Z) (w : nat) : Prop :=
  valid_rune r = true /\ w = length (encode_rune r) /\ take w l = encode_rune r.

Lemma encode_decode c l r w :
  0 <= c -> decode_rune (c :: l) = Some (r, w) ->
  r = RuneError /\ w = 1%nat /\ 0x80 <= c \/ decoded (c :: l) r w.
Proof.
  intros Hc H. unfold decode_rune, between in H. unfold decoded.
  repeat (case_match; try done); bools; injection H as <- <-; try (left; lia); right; arith;
    match goal with |- valid_rune ?r = true /\ _ =>
      assert (Hv : valid_rune r = true) by (apply valid_rune_bounds; lia); rewrite (encode_valid r Hv)
    end;
    repeat (case_match; arith; try lia); (split_and!; [done..|]); simpl; repeat f_equal; euclid.
Qed.

Lemma encode_nonempty r : exists c l, encode_rune r = c :: l.
Proof. unfold encode_rune. repeat case_match; eauto. Qed.

(** The bytes of an encoded rune: ASCII, or all above. *)
Lemma encode_bytes r : valid_rune r = true -> forallb is_byte (encode_rune r) = true.
Proof.
  intros Hr. rewrite (encode_valid r Hr). apply valid_rune_bounds in Hr. unfold is_byte, between. simpl.
  repeat case_match; arith; simpl; rewrite !andb_true_iff, !Z.leb_le; euclid.
Qed.

Lemma encode_high r : valid_rune r = true -> 0x80 <= r -> Forall (fun c => 0x80 <= c) (encode_rune r).
Proof.
  intros Hr Hh. rewrite (encode_valid r Hr). apply valid_rune_bounds in Hr.
  repeat case_match; arith; repeat constructor; euclid.
Qed.

Lemma utf8_bytes l : utf8 l -> forallb is_byte l = true.
Proof. induction 1 as [|r l Hr _ IH]; [done|]. by rewrite forallb_app, encode_bytes, IH. Qed.

(** ** Unquoting, token by token *)

Lemma unquote_go_token l : l <> [] ->
  unquote_go 0 l = (unquote_token l).1 ++ unquote_go 0 (drop (S (pred (unquote_token l).2)) l).
Proof. destruct l as [|c l]; [done|]. intros _. cbn [unquote_go]. destruct (unquote_token (c :: l)) as [out w]. by rewrite unquote_go_skip. Qed.

Lemma unquote_high r l : valid_rune r = true -> 0x80 <= r -> unquote_go 0 (encode_rune r ++ l) = encode_rune r ++ unquote_go 0 l.
Proof.
  intros Hr Hh. pose proof (decode_encode r l Hr) as Hd. pose proof (encode_high r Hr Hh) as Hf.
  destruct (encode_nonempty r) as (c & l' & He). rewrite He in *. apply Forall_cons in Hf as [Hc _].
  rewrite unquote_go_token by done. simpl app in *. unfold unquote_token.
  rewrite (proj2 (Z.eqb_neq c 92)), (proj2 (Z.ltb_ge c 0x80)) by lia. rewrite Hd. cbn [fst snd pred length].
  rewrite He. simpl. f_equal. f_equal. by rewrite drop_app_length.
Qed.

Lemma unquote_plain c l : c <> 92 -> c < 0x80 -> unquote_go 0 (c :: l) = c :: unquote_go 0 l.
Proof.
  intros Hc Ha. rewrite unquote_go_token by done. unfold unquote_token.
  by rewrite (proj2 (Z.eqb_neq _ _) Hc), (proj2 (Z.ltb_lt _ _) Ha).
Qed.

(** ** Quoting *)

Definition escape_body (s : list Z) : list Z := bytes (escape_go s (decode_go 0 s)).

(** The runes that are written as an escape. *)
Definition escaped_runes : list Z :=
  [0; 1; 2; 3; 4; 5; 6; 7; 8; 9; 10; 11; 12; 13; 14; 15; 16; 17; 18; 19; 20; 21; 22; 23; 24; 25; 26; 27; 28; 29; 30; 31;
   34; 38; 60; 62; 92; 0x2028; 0x2029].

Definition escaped (r : Z) : list Z := bytes (escape_rune r (encode_rune r)).

Lemma escaped_plain r : valid_rune r = true -> r ∉ escaped_runes ->
  escaped r = encode_rune r /\ 32 <= r /\ r <> 34 /\ r <> 92 /\ r <> 38 /\ r <> 60 /\ r <> 62 /\ r <> 0x2028 /\ r <> 0x2029.
Proof.
  intros Hr Hn. pose proof (proj1 (valid_rune_bounds r) Hr) as Hb.
  assert (Hge : 32 <= r).
  { destruct (Z.le_gt_cases 32 r); [done|]. destruct Hn. unfold escaped_runes. rewrite !elem_of_cons. lia. }
  unfold escaped_runes in Hn. rewrite !not_elem_of_cons in Hn. split; [|lia].
  unfold escaped, escape_rune. rewrite <- (bytes_of_bytes (encode_rune r)) at 2 by (by apply encode_bytes).
  f_equal. rewrite !(proj2 (Z.eqb_neq _ _)) by lia. by rewrite (proj2 (Z.ltb_ge r 32)) by lia.
Qed.

Ltac each_escaped H :=
  repeat (apply elem_of_cons in H as [-> | H]; [reflexivity|]); by apply not_elem_of_nil in H.

Lemma unquote_escaped r l : valid_rune r = true -> unquote_go 0 (escaped r ++ l) = encode_rune r ++ unquote_go 0 l.
Proof.
  intros Hr. destruct (decide (r ∈ escaped_runes)) as [H|H]; [each_escaped H|].
  destruct (escaped_plain r Hr H) as (-> & Hge & Hq & Hb & _). destruct (Z.lt_ge_cases r 0x80) as [Ha|Ha]; [|by apply unquote_high].
  rewrite encode_valid by done. rewrite (proj2 (Z.ltb_lt _ _) Ha). simpl app. by apply unquote_plain.
Qed.

Lemma body_run_plain l : Forall (fun c => 32 <= c /\ c <> 34 /\ c <> 92) l -> body_run SPlain l = Some SPlain.
Proof.
  induction 1 as [|c l (Hc & Hq & Hb) _ IH]; [done|]. simpl.
  by rewrite (proj2 (Z.eqb_neq _ _) Hq), (proj2 (Z.eqb_neq _ _) Hb), (proj2 (Z.ltb_ge _ _) Hc).
Qed.

Lemma body_run_escaped r : valid_rune r = true -> body_run SPlain (escaped r) = Some SPlain.
Proof.
  intros Hr. destruct (decide (r ∈ escaped_runes)) as [H|H]; [each_escaped H|].
  destruct (escaped_plain r Hr H) as (-> & Hge & Hq & Hb & _). apply body_run_plain.
  destruct (Z.lt_ge_cases r 0x80) as [Ha|Ha].
  - rewrite encode_valid by done. rewrite (proj2 (Z.ltb_lt _ _) Ha). by repeat constructor.
  - eapply Forall_impl; [by apply encode_high|]. simpl. lia.
Qed.

Lemma escaped_bytes r : valid_rune r = true -> forallb is_byte (escaped r) = true.
Proof. intros _. apply bytes_are_bytes. Qed.

Lemma decode_go_rune r l : valid_rune r = true -> decode_go 0 (encode_rune r ++ l) = (r, length (encode_rune r)) :: decode_go 0 l.
Proof.
  intros Hr. pose proof (decode_encode r l Hr) as Hd. destruct (encode_nonempty r) as (c & l' & He).
  rewrite He in *. simpl app in *. cbn [decode_go]. rewrite Hd. f_equal. rewrite decode_go_skip. cbn [length pred]. by rewrite drop_app_length.
Qed.

Lemma escape_body_rune r l : valid_rune r = true -> escape_body (encode_rune r ++ l) = escaped r ++ escape_body l.
Proof.
  intros Hr. unfold escape_body, escaped. destruct (encode_nonempty r) as (c & l' & He). rewrite <- bytes_app. f_equal.
  rewrite decode_go_rune by done. cbn [escape_go]. rewrite take_app_length, drop_app_length.
  destruct ((r =? RuneError) && (length (encode_rune r) =? 1)%nat) eqn:E; [|done].
  apply andb_true_iff in E as [->%Z.eqb_eq E]. discriminate.
Qed.

Lemma utf8_valid s : utf8 (bytes s) -> ValidString s = true.
Proof.
  unfold ValidString. generalize (bytes s). induction 1 as [|r l Hr _ IH]; [done|]. rewrite decode_go_rune by done. cbn [forallb fst snd]. rewrite IH, andb_true_r.
  apply negb_true_iff, andb_false_iff. destruct (Z.eqb_spec r RuneError) as [->|]; [by right|by left].
Qed.

Lemma unquote_escape l : utf8 l -> unquote_go 0 (escape_body l) = l.
Proof.
  induction 1 as [|r l Hr _ IH]; [done|]. by rewrite escape_body_rune, unquote_escaped, IH.
Qed.

Lemma escape_body_ok l : utf8 l -> body_ok (escape_body l) = true.
Proof.
  intros H. assert (Hrun : body_run SPlain (escape_body l) = Some SPlain).
  { induction H as [|r l Hr _ IH]; [done|]. by rewrite escape_body_rune, body_run_app, body_run_escaped. }
  unfold body_ok. rewrite Hrun. apply bytes_are_bytes.
Qed.

Lemma json_string_body s : json_string s = of_bytes (quoted (escape_body (bytes s))).
Proof.
  apply bytes_inj. unfold json_string, quoted. rewrite !bytes_app, bytes_of_bytes; [done|].
  simpl. unfold escape_body. by rewrite forallb_app, bytes_are_bytes.
Qed.

(** ** What a body stands for is valid UTF-8 *)

Lemma body_run_skip e a b : body_run e (a ++ b) = Some SPlain -> body_run e a = Some SPlain -> body_run SPlain b = Some SPlain.
Proof. intros H Ha. by rewrite body_run_app, Ha in H. Qed.

Lemma getu4_some l : getu4 l <> -1 -> exists a b c d l', l = 92 :: 117 :: a :: b :: c :: d :: l' /\
  is_hex a = true /\ is_hex b = true /\ is_hex c = true /\ is_hex d = true.
Proof.
  unfold getu4. intros H. repeat (case_match; try done). bools. eauto 12.
Qed.

#[local] Arguments is_hex : simpl never.

Lemma body_run_hex4 a b c d : is_hex a = true -> is_hex b = true -> is_hex c = true -> is_hex d = true ->
  body_run SPlain [92; 117; a; b; c; d] = Some SPlain.
Proof. intros Ha Hb Hc Hd. simpl. rewrite Ha. simpl. rewrite Hb. simpl. rewrite Hc. simpl. by rewrite Hd. Qed.

Lemma body_hex4 l : body_run (SHex 3) l = Some SPlain -> exists a b c d l', l = a :: b :: c :: d :: l' /\
  is_hex a = true /\ is_hex b = true /\ is_hex c = true /\ is_hex d = true.
Proof.
  intros H. do 4 (destruct l as [|? l]; [done|]; simpl in H; destruct (is_hex _) eqn:? in H; [|done]). eauto 12.
Qed.

Lemma hex_value_bounds c : is_hex c = true -> 0 <= hex_value c < 16.
Proof. unfold is_hex, hex_value, is_digit, between. intros H. repeat case_match; bools; arith; lia. Qed.

Lemma getu4_bounds l : -1 <= getu4 l < 0x10000.
Proof.
  unfold getu4. repeat (case_match; try lia). bools.
  repeat match goal with H : is_hex _ = true |- _ => apply hex_value_bounds in H end. lia.
Qed.

Lemma simple_escape_bounds e : simple_escape e = true -> 0 <= unescape e < 0x80 /\ 0x20 <= e < 0x80.
Proof.
  unfold simple_escape, unescape. rewrite !orb_true_iff, !Z.eqb_eq. intros H.
  repeat destruct H as [H|H]; subst e; simpl; lia.
Qed.

Lemma encode_ascii c : 0 <= c < 0x80 -> encode_rune c = [c].
Proof. intros H. rewrite encode_valid by (apply valid_rune_bounds; lia). by rewrite (proj2 (Z.ltb_lt c 0x80)) by lia. Qed.

(** The first token of a body. *)
Definition token_ok (b : list Z) : Prop :=
  let '(out, w) := unquote_token b in
  (exists r, out = encode_rune r) /\ (1 <= w)%nat /\ body_run SPlain (take w b) = Some SPlain.

Lemma token_hex l : body_run (SHex 3) l = Some SPlain -> token_ok (92 :: 117 :: l).
Proof.
  intros H. destruct (body_hex4 l H) as (a & b & c & d & l' & -> & Ha & Hb & Hc & Hd).
  unfold token_ok, unquote_token. change (92 =? 92) with true. change (117 =? 117) with true. cbv iota.
  destruct (between 0xD800 _ 0xDFFF); [|split_and!; [eauto|lia|by apply body_run_hex4]].
  destruct (decode_surrogates _ _ =? RuneError) eqn:E; (split_and!; [eauto|lia|]); [by apply body_run_hex4|].
  assert (Hu : getu4 l' <> -1).
  { intros Hu. change (drop 6 (92 :: 117 :: a :: b :: c :: d :: l')) with l' in E. rewrite Hu in E. unfold decode_surrogates in E.
    change (between 0xDC00 (-1) 0xDFFF) with false in E. by rewrite andb_false_r in E. }
  destruct (getu4_some l' Hu) as (a' & b' & c' & d' & l'' & -> & Ha' & Hb' & Hc' & Hd').
  change (body_run SPlain ([92; 117; a; b; c; d] ++ [92; 117; a'; b'; c'; d']) = Some SPlain).
  by rewrite body_run_app, body_run_hex4, body_run_hex4.
Qed.

Lemma token_body b : b <> [] -> body_run SPlain b = Some SPlain -> forallb is_byte b = true -> token_ok b.
Proof.
  intros Hne Hrun Hb. destruct b as [|c l]; [done|]. simpl in Hb. apply andb_true_iff in Hb as [Hc Hl].
  unfold is_byte, between in Hc. bools. destruct (Z.eq_dec c 92) as [-> | Hn].
  - destruct l as [|e l]; [done|]. simpl in Hrun. destruct (simple_escape e) eqn:He.
    + apply simple_escape_bounds in He as Hs. unfold token_ok, unquote_token. change (92 =? 92) with true. cbv iota.
      destruct (Z.eqb_spec e 117) as [-> | _]; [done|]. split_and!; [exists (unescape e); by rewrite encode_ascii by lia|lia|].
      simpl. by rewrite He.
    + destruct (Z.eqb_spec e 117) as [-> | _]; [by apply token_hex|done].
  - unfold token_ok, unquote_token. rewrite (proj2 (Z.eqb_neq c 92) Hn). simpl in Hrun.
    rewrite (proj2 (Z.eqb_neq c 92) Hn) in Hrun. destruct ((c =? 34) || (c <? 32)) eqn:Hq; [done|].
    destruct (Z.ltb_spec c 0x80).
    + split_and!; [exists c; by rewrite encode_ascii by lia|lia|]. simpl. by rewrite (proj2 (Z.eqb_neq c 92) Hn), Hq.
    + destruct (decode_rune (c :: l)) as [[r w]|] eqn:Hd.
      * apply orb_false_iff in Hq as [Hq _]. arith. apply encode_decode in Hd as [(-> & -> & _)|(Hv & Hw & Ht)]; [..|lia].
        -- split_and!; [eauto|lia|]. apply body_run_plain. repeat constructor; lia.
        -- split_and!; [eauto|destruct (encode_nonempty r) as (? & ? & E); rewrite Hw, E; simpl; lia|].
           rewrite Ht. apply body_run_plain. eapply Forall_impl; [apply encode_high; [done|]|simpl; lia].
           destruct (Z.lt_ge_cases r 0x80); [|done]. apply valid_rune_bounds in Hv. rewrite Hw, encode_ascii in Ht by lia. simpl in Ht. injection Ht as ->. lia.
      * exfalso. revert Hd. unfold decode_rune. repeat case_match; done.
Qed.

Lemma unquote_utf8 b : body_ok b = true -> utf8 (unquote_go 0 b).
Proof.
  unfold body_ok. destruct (body_run SPlain b) as [[]|] eqn:Hrun; try done. intros Hb.
  remember (length b) as n eqn:Hn. revert b Hn Hrun Hb. induction (lt_wf n) as [n _ IH]. intros b Hn Hrun Hb.
  destruct (decide (b = [])) as [-> | Hne]; [constructor|]. rewrite unquote_go_token by done.
  pose proof (token_body b Hne Hrun Hb) as Ht. unfold token_ok in Ht. destruct (unquote_token b) as [out w].
  destruct Ht as ([r ->] & Hw & Ht). cbn [fst snd]. replace (S (pred w)) with w by lia. apply utf8_encode.
  rewrite <- (take_drop w b) in Hrun, Hb. rewrite forallb_app in Hb. apply andb_true_iff in Hb as [_ Hb].
  apply (IH (length (drop w b))); [|done|by eapply body_run_skip|done].
  rewrite length_drop. destruct b; [done|]. simpl in *. lia.
Qed.

(** ** The escapes of [json.Marshal] *)

Definition u4 (r : Z) : list Z := bytes (backslash 117 +:+ hex4 r).

Definition html_char (c : Z) : bool := (c =? 60) || (c =? 62) || (c =? 38).

(** U+2028 or U+2029 at the start. *)
Definition separator (l : list Z) : bool :=
  match l with a :: b :: c :: _ => (a =? 0xE2) && (b =? 0x80) && ((c =? 0xA8) || (c =? 0xA9)) | _ => false end.

Inductive Html : list Z -> list Z -> Prop :=
| html_nil : Html [] []
| html_escape c l l' : html_char c = true -> Html l l' -> Html (c :: l) (u4 c ++ l')
| html_separator c l l' : c = 0xA8 \/ c = 0xA9 -> Html l l' -> Html (0xE2 :: 0x80 :: c :: l) (u4 (0x2028 + (c - 0xA8)) ++ l')
| html_pass c l l' : html_char c = false -> separator (c :: l) = false -> Html l l' -> Html (c :: l) (c :: l').

Lemma html_go_cons c l : html_go 0 (c :: l) =
  if html_char c then u4 c ++ html_go 0 l
  else if separator (c :: l) then match l with _ :: b :: l => u4 (0x2028 + (b - 0xA8)) ++ html_go 0 l | _ => [] end
  else c :: html_go 0 l.
Proof.
  cbn [html_go]. unfold html_char. destruct (_ || _) eqn:Hc; [done|]. destruct l as [|b1 [|b2 l]]; [done..|].
  cbn [separator]. destruct (_ && _); [|done]. by rewrite html_go_skip.
Qed.

Lemma html_spec l : Html l (html_go 0 l).
Proof.
  remember (length l) as n eqn:Hn. revert l Hn. induction (lt_wf n) as [n _ IH]. intros [|c l] Hn; [constructor|].
  simpl in Hn. rewrite html_go_cons. destruct (html_char c) eqn:Hc.
  - apply html_escape; [done|]. eapply IH; [|done]. lia.
  - destruct (separator (c :: l)) eqn:Hs; [|apply html_pass; [done..|eapply IH; [|done]; lia]].
    destruct l as [|b1 [|b2 l]]; try done. simpl in Hs, Hn. rewrite !andb_true_iff, orb_true_iff, !Z.eqb_eq in Hs.
    destruct Hs as [[-> ->] Hb]. apply html_separator; [done|]. eapply IH; [|done]. lia.
Qed.

Lemma Html_fun l l' : Html l l' -> html_go 0 l = l'.
Proof.
  induction 1 as [|c l l' Hc _ IH|c l l' Hc _ IH|c l l' Hc Hs _ IH]; [done|..]; rewrite html_go_cons.
  - by rewrite Hc, IH.
  - destruct Hc as [-> | ->]; cbn; by rewrite IH.
  - by rewrite Hc, Hs, IH.
Qed.

(** Text that has nothing to escape. *)
Inductive clean : list Z -> Prop :=
| clean_nil : clean []
| clean_cons c l : html_char c = false -> separator (c :: l) = false -> clean l -> clean (c :: l).

Lemma clean_html l : clean l -> Html l l.
Proof. induction 1; [constructor|by apply html_pass]. Qed.

Lemma clean_plain p l : Forall (fun c => html_char c = false /\ c <> 0xE2) p -> clean l -> clean (p ++ l).
Proof.
  induction 1 as [|c p [Hc He] _ IH]; [done|]. intros Hl. simpl. apply clean_cons; [done| |by apply IH].
  simpl. destruct (p ++ l) as [|? [|]]; [done..|]. by rewrite (proj2 (Z.eqb_neq _ _) He).
Qed.

Lemma html_char_cases c : html_char c = true -> c = 60 \/ c = 62 \/ c = 38.
Proof. unfold html_char. rewrite !orb_true_iff, !Z.eqb_eq. tauto. Qed.

(** The five escapes that are added. *)
Definition added (r : Z) : Prop := r = 60 \/ r = 62 \/ r = 38 \/ r = 0x2028 \/ r = 0x2029.

Lemma added_clean r l : added r -> clean l -> clean (u4 r ++ l).
Proof.
  intros Hr Hl. apply clean_plain; [|done].
  repeat destruct Hr as [-> | Hr]; [..|subst r]; apply Forall_forall; intros c Hc; cbn in Hc;
    repeat (apply elem_of_cons in Hc as [-> | Hc]; [done|]); by apply not_elem_of_nil in Hc.
Qed.

Lemma u4_head r : exists l, u4 r = 92 :: l.
Proof. eexists. reflexivity. Qed.

Lemma Html_high l b l' : Html l (b :: l') -> 0x80 <= b -> exists l1, l = b :: l1 /\ Html l1 l'.
Proof.
  intros H Hb. remember (b :: l') as x eqn:Hx. destruct H; [done|..];
    [match type of Hx with u4 ?r ++ _ = _ => destruct (u4_head r) as [t Ht]; rewrite Ht in Hx end; injection Hx as Hx; lia..|].
  injection Hx as -> ->. eauto.
Qed.

Lemma Html_clean l l' : Html l l' -> clean l'.
Proof.
  induction 1 as [|c l l' Hc _ IH|c l l' Hc _ IH|c l l' Hc Hs Hl IH]; [constructor|..].
  - apply added_clean; [|done]. unfold added. destruct (html_char_cases c Hc) as [-> | [-> | ->]]; auto.
  - apply added_clean; [|done]. unfold added. destruct Hc as [-> | ->]; auto.
  - apply clean_cons; [done| |done]. destruct (separator (c :: l')) eqn:Hs'; [|done]. exfalso.
    destruct l' as [|b1 [|b2 l']]; try done. simpl in Hs'. rewrite !andb_true_iff, orb_true_iff, !Z.eqb_eq in Hs'.
    destruct Hs' as [[-> ->] Hb]. apply Html_high in Hl as (l1 & -> & Hl); [|lia].
    apply Html_high in Hl as (l2 & -> & _); [|lia]. by destruct Hb as [-> | ->].
Qed.

Lemma html_idem l : html_go 0 (html_go 0 l) = html_go 0 l.
Proof. apply Html_fun, clean_html. eapply Html_clean, html_spec. Qed.

Lemma body_run_added r : added r -> body_run SPlain (u4 r) = Some SPlain.
Proof. intros Hr. repeat destruct Hr as [-> | Hr]; [..|subst r]; reflexivity. Qed.

Lemma html_char_added c : html_char c = true -> added c.
Proof. unfold added. intros [-> | [-> | ->]]%html_char_cases; auto. Qed.

Lemma separator_added c : c = 0xA8 \/ c = 0xA9 -> added (0x2028 + (c - 0xA8)).
Proof. unfold added. intros [-> | ->]; auto. Qed.

(** Inside an escape no byte is changed. *)
Lemma escape_plain e c e' : string_step e c = Some e' -> html_char c = true \/ c = 0xE2 -> e = SPlain /\ e' = SPlain.
Proof.
  intros H Hc. assert (Hcases : c = 60 \/ c = 62 \/ c = 38 \/ c = 0xE2) by (destruct Hc as [Hc|Hc]; [apply html_char_cases in Hc; tauto|tauto]).
  destruct e; repeat destruct Hcases as [-> | Hcases]; subst; try discriminate; injection H as <-; done.
Qed.

Lemma Html_body e l l' : Html l l' -> body_run e l = Some SPlain -> body_run e l' = Some SPlain.
Proof.
  intros H. revert e. induction H as [|c l l' Hc _ IH|c l l' Hc _ IH|c l l' Hc Hs Hl IH]; intros e Hrun; [done|..].
  - simpl in Hrun. destruct (string_step e c) as [e'|] eqn:Hs; [|done]. apply escape_plain in Hs as [-> ->]; [|by left].
    rewrite body_run_app, body_run_added by (by apply html_char_added). by apply IH.
  - change (body_run e (0xE2 :: 0x80 :: c :: l)) with (match string_step e 0xE2 with Some e => body_run e (0x80 :: c :: l) | None => None end) in Hrun.
    destruct (string_step e 0xE2) as [e'|] eqn:Hs; [|done]. apply escape_plain in Hs as [-> ->]; [|by right].
    rewrite body_run_app, body_run_added by (by apply separator_added). apply IH.
    by destruct Hc as [-> | ->].
  - simpl in *. destruct (string_step e c) as [e'|]; [|done]. by apply IH.
Qed.

Lemma Html_bytes l l' : Html l l' -> forallb is_byte l = true -> forallb is_byte l' = true.
Proof.
  induction 1 as [|c l l' Hc _ IH|c l l' Hc _ IH|c l l' Hc Hs Hl IH]; intros Hb; [done|..].
  - simpl in Hb. apply andb_true_iff in Hb as [_ Hb]. unfold u4. rewrite forallb_app, bytes_are_bytes. simpl. by apply IH.
  - cbn [forallb] in Hb. rewrite !andb_true_iff in Hb. unfold u4. rewrite forallb_app, bytes_are_bytes. apply IH, Hb.
  - simpl in *. apply andb_true_iff in Hb as [-> Hb]. by apply IH.
Qed.

Lemma html_body_ok b : body_ok b = true -> body_ok (html_go 0 b) = true.
Proof.
  unfold body_ok. destruct (body_run SPlain b) as [[]|] eqn:Hrun; try done. intros Hb.
  rewrite (Html_body _ _ _ (html_spec b) Hrun). by eapply Html_bytes; [apply html_spec|].
Qed.

Lemma html_char_high c : 0x80 <= c -> html_char c = false.
Proof. intros H. unfold html_char. by rewrite !(proj2 (Z.eqb_neq _ _)) by lia. Qed.

Lemma encode_clean r l : valid_rune r = true -> html_char r = false -> r <> 0x2028 -> r <> 0x2029 -> clean l -> clean (encode_rune r ++ l).
Proof.
  intros Hr Hh H8 H9 Hl. rewrite (encode_valid r Hr). apply valid_rune_bounds in Hr.
  destruct (Z.ltb_spec r 0x80); [apply clean_plain; [|done]; repeat constructor; [done|lia]|].
  destruct (Z.ltb_spec r 0x800); [apply clean_plain; [|done]; repeat constructor; try (apply html_char_high); euclid|].
  destruct (Z.ltb_spec r 0x10000); [|apply clean_plain; [|done]; repeat constructor; try (apply html_char_high); euclid].
  change (clean ((0xE0 + r / 4096) :: ([0x80 + r / 64 mod 64; 0x80 + r mod 64] ++ l))). apply clean_cons.
  - apply html_char_high. euclid.
  - simpl. apply not_true_iff_false. rewrite !andb_true_iff, orb_true_iff, !Z.eqb_eq. euclid.
  - apply clean_plain; [|done]. repeat constructor; try (apply html_char_high); euclid.
Qed.

Lemma escape_clean l : utf8 l -> clean (escape_body l).
Proof.
  induction 1 as [|r l Hr _ IH]; [constructor|]. rewrite escape_body_rune by done.
  destruct (decide (r ∈ escaped_runes)) as [H|H].
  - apply clean_plain; [|done]. apply Forall_forall. intros c Hc.
    assert (Hall : forallb (fun r => forallb (fun c => negb (html_char c) && negb (c =? 0xE2)) (escaped r)) escaped_runes = true)
      by (vm_compute; reflexivity).
    rewrite forallb_forall in Hall. apply list_elem_of_In in H. apply Hall in H. rewrite forallb_forall in H.
    apply list_elem_of_In in Hc. apply H in Hc. apply andb_true_iff in Hc as [Hc He]. rewrite negb_true_iff in *. by arith.
  - destruct (escaped_plain r Hr H) as (-> & Hge & _ & _ & Ha & Hl & Hg & Hs1 & Hs2). apply encode_clean; try done.
    unfold html_char. by rewrite !(proj2 (Z.eqb_neq _ _)) by lia.
Qed.

(** ** The added escapes do not change what a string stands for *)

(** Bytes that are copied. *)
Lemma Html_plain p l x : Forall (fun c => html_char c = false /\ c <> 0xE2) p -> Html (p ++ l) x -> exists l', x = p ++ l' /\ Html l l'.
Proof.
  intros Hp. revert x. induction Hp as [|c p [Hc He] _ IH]; intros x H; [eauto|]. simpl in H.
  inversion H as [|? ? ? Hc' |? ? ? ? Heq|? ? l' ? ? H']; subst; [congruence|done|].
  destruct (IH _ H') as (l1 & -> & Hl). eauto.
Qed.

(** No continuation byte at the start. *)
Definition starts_rune (l : list Z) : bool := match l with b :: _ => negb (between 0x80 b 0xBF) | [] => true end.

Lemma Html_starts l l' : Html l l' -> starts_rune l = true -> starts_rune l' = true.
Proof.
  destruct 1 as [|c l l' Hc H|c l l' Hc H|c l l' Hc Hs H]; [done|..]; try done;
    (match goal with |- context [u4 ?r] => destruct (u4_head r) as [t ->] end); done.
Qed.

Lemma decode_starts0 c l : 0x80 <= c -> starts_rune l = true -> decode_rune (c :: l) = Some (RuneError, 1%nat).
Proof.
  intros Hc H. unfold decode_rune, between. rewrite (proj2 (Z.ltb_ge c 0x80)) by lia.
  destruct l as [|b l]; [by repeat case_match|]. unfold starts_rune, between in H. rewrite negb_true_iff in H.
  repeat (case_match; try done); bools; arith; lia.
Qed.

Lemma decode_starts1 c b l m : starts_rune l = true -> starts_rune m = true -> decode_rune (c :: b :: l) = decode_rune (c :: b :: m).
Proof.
  intros Hl Hm. unfold decode_rune. destruct (c <? 0x80); [done|]. destruct (between 0xC2 c 0xDF); [done|].
  destruct (between 0xE0 c 0xEF).
  - destruct l as [|x l], m as [|y m]; simpl in Hl, Hm; rewrite ?negb_true_iff in *; by rewrite ?Hl, ?Hm, ?andb_false_r.
  - destruct (between 0xF0 c 0xF4); [|done].
    destruct l as [|x [|x' l]], m as [|y [|y' m]]; simpl in Hl, Hm; rewrite ?negb_true_iff in *; by rewrite ?Hl, ?Hm, ?andb_false_r.
Qed.

Lemma decode_starts2 c b b' l m :
  starts_rune l = true -> starts_rune m = true -> decode_rune (c :: b :: b' :: l) = decode_rune (c :: b :: b' :: m).
Proof.
  intros Hl Hm. unfold decode_rune. destruct (c <? 0x80); [done|]. destruct (between 0xC2 c 0xDF); [done|].
  destruct (between 0xE0 c 0xEF); [done|]. destruct (between 0xF0 c 0xF4); [|done].
  destruct l as [|x l], m as [|y m]; simpl in Hl, Hm; rewrite ?negb_true_iff in *; by rewrite ?Hl, ?Hm, ?andb_false_r.
Qed.

(** A continuation byte is copied. *)
Lemma Html_continuation l l' : Html l l' -> starts_rune l = false -> exists b l1 l1', l = b :: l1 /\ l' = b :: l1' /\ Html l1 l1'.
Proof.
  intros H Hs. destruct l as [|b l]; [done|]. simpl in Hs. apply negb_false_iff in Hs. unfold between in Hs. bools.
  destruct (Html_plain [b] l l') as (l1 & -> & Hl1); [|done|simpl; eauto 8].
  repeat constructor; [by apply html_char_high|lia].
Qed.

Lemma decode_html c l l' : 0x80 <= c -> Html l l' -> decode_rune (c :: l') = decode_rune (c :: l).
Proof.
  intros Hc H. destruct (starts_rune l) eqn:Hs; [rewrite !decode_starts0; eauto using Html_starts|].
  destruct (Html_continuation _ _ H Hs) as (b & l1 & l1' & -> & -> & H1).
  destruct (starts_rune l1) eqn:Hs1; [apply decode_starts1; eauto using Html_starts|].
  destruct (Html_continuation _ _ H1 Hs1) as (b1 & l2 & l2' & -> & -> & H2).
  destruct (starts_rune l2) eqn:Hs2; [apply decode_starts2; eauto using Html_starts|].
  by destruct (Html_continuation _ _ H2 Hs2) as (b2 & l3 & l3' & -> & -> & H3).
Qed.

Lemma hex_plain c : is_hex c = true -> html_char c = false /\ c <> 0xE2.
Proof.
  unfold is_hex, is_digit, between, html_char. intros H.
  rewrite !orb_true_iff, !andb_true_iff, !Z.leb_le in H. rewrite !(proj2 (Z.eqb_neq _ _)) by lia. split; [done|lia].
Qed.

Lemma Html_hex4 a b c d l x : is_hex a = true -> is_hex b = true -> is_hex c = true -> is_hex d = true ->
  Html (92 :: 117 :: a :: b :: c :: d :: l) x -> exists l', x = 92 :: 117 :: a :: b :: c :: d :: l' /\ Html l l'.
Proof.
  intros Ha Hb Hc Hd H. apply (Html_plain [92; 117; a; b; c; d]) in H; [done|].
  repeat (apply Forall_cons_2; [first [by split | by apply hex_plain]|]). apply Forall_nil_2.
Qed.

Lemma getu4_not_escape c l : c <> 92 -> getu4 (c :: l) = -1.
Proof. intros H. unfold getu4. by repeat case_match. Qed.

(** A \u escape is copied, and no surrogate is added. *)
Lemma getu4_html l l' r : Html l l' -> body_run SPlain l = Some SPlain -> decode_surrogates r (getu4 l') = decode_surrogates r (getu4 l).
Proof.
  intros H Hrun. destruct H as [|c l l' Hc H|c l l' Hc H|c l l' Hc Hs H]; [done|..].
  - destruct (html_char_cases c Hc) as [-> | [-> | ->]]; unfold decode_surrogates; cbn; by rewrite !andb_false_r.
  - destruct Hc as [-> | ->]; unfold decode_surrogates; cbn; by rewrite !andb_false_r.
  - destruct (Z.eq_dec c 92) as [-> | Hn]; [|by rewrite !getu4_not_escape].
    destruct l as [|e l]; [done|]. simpl in Hrun. destruct (Z.eq_dec e 117) as [-> | He].
    + destruct (body_hex4 l Hrun) as (a & b & c & d & l1 & -> & Ha & Hb & Hc' & Hd).
      apply (html_pass 92) in H; [|done..]. apply Html_hex4 in H as (l2 & [= ->] & _); [|done..].
      unfold getu4. by rewrite Ha, Hb, Hc', Hd.
    + assert (Hno : forall e l, e <> 117 -> getu4 (92 :: e :: l) = -1) by (intros; unfold getu4; by repeat case_match).
      rewrite Hno by done. destruct (simple_escape e) eqn:Hse; [|by rewrite (proj2 (Z.eqb_neq e 117)) in Hrun].
      apply (Html_plain [e]) in H as (l1 & -> & _); [simpl app; by rewrite Hno|]. constructor; [|constructor].
      unfold simple_escape in Hse. rewrite !orb_true_iff, !Z.eqb_eq in Hse. unfold html_char.
      rewrite !(proj2 (Z.eqb_neq _ _)) by lia. split; [done|lia].
Qed.

Lemma unquote_hex a b c d l :
  unquote_go 0 (92 :: 117 :: a :: b :: c :: d :: l) =
  let rr := getu4 (92 :: 117 :: a :: b :: c :: d :: l) in
  if between 0xD800 rr 0xDFFF then
    let pair := decode_surrogates rr (getu4 l) in
    encode_rune pair ++ unquote_go 0 (if pair =? RuneError then l else drop 6 l)
  else encode_rune rr ++ unquote_go 0 l.
Proof.
  rewrite unquote_go_token by done. unfold unquote_token. change (92 =? 92) with true. change (117 =? 117) with true. cbv iota zeta.
  destruct (between 0xD800 _ 0xDFFF); [|done]. change (drop 6 (92 :: 117 :: a :: b :: c :: d :: l)) with l. cbn [fst snd].
  by destruct (_ =? RuneError).
Qed.

Lemma unquote_simple e l : e <> 117 -> unquote_go 0 (92 :: e :: l) = unescape e :: unquote_go 0 l.
Proof.
  intros He. rewrite unquote_go_token by done. unfold unquote_token. change (92 =? 92) with true.
  by rewrite (proj2 (Z.eqb_neq e 117) He).
Qed.

Lemma encode_tail r : valid_rune r = true -> Forall (fun c => 0x80 <= c <= 0xBF) (tail (encode_rune r)).
Proof.
  intros Hr. rewrite (encode_valid r Hr). apply valid_rune_bounds in Hr.
  repeat case_match; arith; repeat constructor; euclid.
Qed.

Section unquote_html.
(** The text below [l] has been dealt with. *)
Context (l : list Z)
  (smaller : forall p l1 l1', l = p ++ l1 -> p <> [] -> body_run SPlain p = Some SPlain -> Html l1 l1' -> unquote_go 0 l1' = unquote_go 0 l1)
  (Hrun : body_run SPlain l = Some SPlain) (Hb : forallb is_byte l = true).

Lemma unquote_html_escape l1 l' : l = 92 :: l1 -> Html l1 l' -> unquote_go 0 (92 :: l') = unquote_go 0 (92 :: l1).
Proof.
  intros Hl H. pose proof Hrun as Hrun'. rewrite Hl in Hrun'. destruct l1 as [|e l1]; [done|]. simpl in Hrun'.
  destruct (Z.eq_dec e 117) as [-> | He].
  - destruct (body_hex4 l1 Hrun') as (a & b & c & d & l2 & -> & Hxa & Hxb & Hxc & Hxd).
    assert (Hpre : body_run SPlain [92; 117; a; b; c; d] = Some SPlain) by (by apply body_run_hex4).
    apply (html_pass 92) in H; [|done..]. apply Html_hex4 in H as (l2' & [= ->] & H); [|done..].
    assert (Hrun2 : body_run SPlain l2 = Some SPlain) by (eapply (body_run_skip _ [92; 117; a; b; c; d]); [|done]; by rewrite Hl in Hrun).
    rewrite !unquote_hex. cbv zeta. rewrite (getu4_html _ _ _ H Hrun2).
    change (getu4 (92 :: 117 :: a :: b :: c :: d :: l2')) with (getu4 (92 :: 117 :: a :: b :: c :: d :: l2)).
    destruct (between 0xD800 _ 0xDFFF); f_equal; [|by apply (smaller [92; 117; a; b; c; d])].
    destruct (decode_surrogates _ _ =? RuneError) eqn:E; [by apply (smaller [92; 117; a; b; c; d])|].
    assert (Hu : getu4 l2 <> -1).
    { intros Hu. rewrite Hu in E. unfold decode_surrogates in E. change (between 0xDC00 (-1) 0xDFFF) with false in E. by rewrite andb_false_r in E. }
    destruct (getu4_some l2 Hu) as (a' & b' & c' & d' & l3 & -> & Ha' & Hb' & Hc' & Hd').
    apply Html_hex4 in H as (l3' & -> & H); [|done..]. simpl drop.
    apply (smaller ([92; 117; a; b; c; d] ++ [92; 117; a'; b'; c'; d'])); [done..| |done].
    by rewrite body_run_app, body_run_hex4, body_run_hex4.
  - destruct (simple_escape e) eqn:Hse; [|by rewrite (proj2 (Z.eqb_neq e 117)) in Hrun'].
    assert (Hpre : body_run SPlain [92; e] = Some SPlain) by (simpl; by rewrite Hse).
    apply (Html_plain [e]) in H as (l1' & -> & H).
    + simpl app. rewrite !unquote_simple by done. f_equal. by apply (smaller [92; e]).
    + constructor; [|constructor]. unfold simple_escape in Hse. rewrite !orb_true_iff, !Z.eqb_eq in Hse. unfold html_char.
      rewrite !(proj2 (Z.eqb_neq _ _)) by lia. split; [done|lia].
Qed.

Lemma unquote_html_high c l1 l' : l = c :: l1 -> 0x80 <= c -> Html l1 l' -> unquote_go 0 (c :: l') = unquote_go 0 (c :: l1).
Proof.
  intros Hl Hc H. rewrite (unquote_go_token (c :: l')), (unquote_go_token (c :: l1)) by done. unfold unquote_token.
  rewrite (proj2 (Z.eqb_neq c 92)), (proj2 (Z.ltb_ge c 0x80)), (decode_html c l1 l') by (done || lia).
  assert (Hone : body_run SPlain [c] = Some SPlain) by (apply body_run_plain; repeat constructor; lia).
  destruct (decode_rune (c :: l1)) as [[r w]|] eqn:Hd; [|cbn; by apply (smaller [c])].
  cbn [fst snd]. f_equal. apply encode_decode in Hd as [(-> & -> & _)|(Hv & Hw & Ht)]; [cbn; by apply (smaller [c])| |lia].
  destruct (encode_nonempty r) as (c' & t & He). rewrite Hw, He in Ht. rewrite Hw, He. cbn [length] in *. cbn [take] in Ht. injection Ht as -> Ht.
  pose proof (encode_tail r Hv) as Htail. rewrite He in Htail. cbn [tail] in Htail.
  rewrite <- (take_drop (length t) l1), Ht in H, Hl |- *. remember (drop (length t) l1) as l2 eqn:Hl2.
  apply Html_plain in H as (l2' & -> & H);
    [|eapply Forall_impl; [exact Htail|]; simpl; intros b Hbb; split; [apply html_char_high; lia|lia]].
  cbn [pred drop]. rewrite !drop_app_length. apply (smaller (c' :: t)); [done..| |done]. apply body_run_plain. constructor; [lia|].
  eapply Forall_impl; [exact Htail|]. simpl. lia.
Qed.
End unquote_html.

Lemma Html_unquote l l' : Html l l' -> body_run SPlain l = Some SPlain -> forallb is_byte l = true -> unquote_go 0 l' = unquote_go 0 l.
Proof.
  remember (length l) as n eqn:Hn. revert l l' Hn. induction (lt_wf n) as [n _ IH]. intros l l' Hn H Hrun Hb.
  assert (Hrec : forall p l1 l1', l = p ++ l1 -> p <> [] -> body_run SPlain p = Some SPlain -> Html l1 l1' -> unquote_go 0 l1' = unquote_go 0 l1).
  { intros p l1 l1' -> Hp Hpr Hh. rewrite forallb_app in Hb. apply andb_true_iff in Hb as [_ Hb].
    apply (IH (length l1)) with (l := l1); [|done..|by eapply body_run_skip|done].
    rewrite Hn, length_app. destruct p; [done|simpl; lia]. }
  destruct H as [|c l l' Hc H|c l l' Hc H|c l l' Hc Hs H]; [done|..].
  - assert (Hl : unquote_go 0 l' = unquote_go 0 l) by (apply (Hrec [c]); try done; by destruct (html_char_cases c Hc) as [-> | [-> | ->]]).
    destruct (html_char_cases c Hc) as [-> | [-> | ->]]; cbn; by rewrite <- Hl.
  - assert (Hl : unquote_go 0 l' = unquote_go 0 l) by (apply (Hrec [0xE2; 0x80; c]); try done; by destruct Hc as [-> | ->]).
    destruct Hc as [-> | ->];
      [change (unquote_go 0 (escaped 0x2028 ++ l') = unquote_go 0 (encode_rune 0x2028 ++ l))
      |change (unquote_go 0 (escaped 0x2029 ++ l') = unquote_go 0 (encode_rune 0x2029 ++ l))];
      by rewrite unquote_escaped, unquote_high, Hl.
  - destruct (Z.eq_dec c 92) as [-> | Hn92]; [by apply (unquote_html_escape (92 :: l))|].
    destruct (Z.lt_ge_cases c 0x80); [|by apply (unquote_html_high (c :: l))].
    rewrite !unquote_plain by done. f_equal. apply (Hrec [c]); try done.
    simpl in Hrun |- *. rewrite (proj2 (Z.eqb_neq c 92) Hn92) in Hrun |- *. by destruct ((c =? 34) || (c <? 32)).
Qed.

Lemma unquote_html b : body_ok b = true -> unquote (html_go 0 b) = unquote b.
Proof.
  unfold body_ok, unquote. destruct (body_run SPlain b) as [[]|] eqn:Hrun; try done. intros Hb.
  f_equal. by apply Html_unquote; [apply html_spec|..].
Qed.
