(* ===== verification/JsonValues.v ===== *)
(** * JSON values

    What an encoder writes, a decoder reads back: the encoding of a raw value
    ([parse_raw]), of a map of raw values ([parse_raw_map]) and of a decoded value
    ([decode_json_any]). *)

From stdpp Require Import sorting.
From Stdlib Require Import Ascii String.
From S2P Require Import Prelude GoString Keys GoJson GoJsonText JsonFacts JsonStrings.

Open Scope Z_scope.

(** ** Raw values *)

Lemma forallb_fmap {A B} (f : A -> B) (p : B -> bool) l : forallb p (f <$> l) = forallb (fun x => p (f x)) l.
Proof. induction l as [|x l IH]; [done|]. csimpl. by rewrite IH. Qed.

Lemma forallb_impl_Forall {A} (p q : A -> bool) l :
  Forall (fun x => p x = true -> q x = true) l -> forallb p l = true -> forallb q l = true.
Proof. induction 1 as [|x l Hx _ IH]; [done|]. simpl. rewrite !andb_true_iff. naive_solver. Qed.

Lemma html_doc_ok d depth : doc_ok depth d = true -> doc_ok depth (html d) = true.
Proof.
  revert depth. induction d as [|b|t|b|l IH|l IH] using doc_nested; intros depth Hok; [done..| | |].
  - by apply html_body_ok.
  - change (doc_ok depth (DArr (html <$> l)) = true). cbn [doc_ok] in *. apply andb_true_iff in Hok as [Hdepth Hok]. rewrite Hdepth, forallb_fmap.
    eapply forallb_impl_Forall; [|done]. eapply Forall_impl; [done|]. auto.
  - change (doc_ok depth (DObj ((fun kd => (html_go 0 kd.1, html kd.2)) <$> l)) = true).
    cbn [doc_ok] in *. apply andb_true_iff in Hok as [Hdepth Hok]. rewrite Hdepth, forallb_fmap.
    eapply forallb_impl_Forall; [|done]. eapply Forall_impl; [done|]. intros [k d] Hd. cbn [fst snd] in *.
    intros [Hk Hok']%andb_true_iff. by rewrite html_body_ok, Hd.
Qed.

Lemma html_doc_idem d : html (html d) = html d.
Proof.
  induction d as [|b|t|b|l IH|l IH] using doc_nested; [done..| | |]; simpl; f_equal.
  - apply html_idem.
  - rewrite <- list_fmap_compose. apply list_fmap_ext. intros i d Hd. eapply Forall_lookup_1 in IH; [|done]. exact IH.
  - rewrite <- list_fmap_compose. apply list_fmap_ext. intros i [k d] Hd. eapply Forall_lookup_1 in IH; [|done]. simpl in *.
    by rewrite html_idem, IH.
Qed.

Lemma parse_raw d : doc_ok 0 d = true -> parse (raw_text d) = Some (html d).
Proof. intros H. apply parse_print. by apply html_doc_ok. Qed.

(** ** Documents that are encoded *)

Lemma of_bytes_app a b : of_bytes (a ++ b) = of_bytes a +:+ of_bytes b.
Proof. induction a as [|c a IH]; [done|]. simpl. by rewrite IH. Qed.

Lemma join_of_bytes l : join "," (of_bytes <$> l) = of_bytes (join_bytes l).
Proof.
  induction l as [|x [|y l] IH]; [done|done|].
  change (of_bytes x +:+ "," +:+ join "," (of_bytes <$> y :: l) = of_bytes (x ++ 44 :: join_bytes (y :: l))).
  by rewrite IH, of_bytes_app.
Qed.

(** [prints v d]: the value [v] is encoded as the document [d]. *)
Definition prints (v : jval) (d : doc) : Prop := marshal v = Some (of_bytes (print d)).

Lemma prints_arr vs ds : Forall2 prints vs ds -> prints (JArr vs) (DArr ds).
Proof.
  intros H. unfold prints.
  assert (Hgo : (fix go l := match l with
        | [] => Some []
        | x :: l => match marshal x, go l with
                    | Some s, Some r => Some (s :: r)
                    | _, _ => None
                    end
        end) vs = Some (of_bytes <$> (print <$> ds))).
  { induction H as [|v d vs ds Hv _ IH]; [done|]. rewrite Hv, IH. done. }
  cbn [marshal]. rewrite Hgo, join_of_bytes, print_arr. cbn [of_bytes]. by rewrite of_bytes_app.
Qed.

(** A field whose name is written as the body [b]. *)
Definition prints_field (kv : string * jval) (bd : list Z * doc) : Prop := bd.1 = escape_body (bytes kv.1) /\ prints kv.2 bd.2.

Lemma prints_obj fields members : Forall2 prints_field fields members -> prints (JObj fields) (DObj members).
Proof.
  intros H. unfold prints.
  assert (Hgo : (fix go l := match l with
        | [] => Some []
        | (k, x) :: l => match marshal x, go l with
                         | Some s, Some r => Some ((json_string k +:+ ":" +:+ s) :: r)
                         | _, _ => None
                         end
        end) fields = Some (of_bytes <$> (print_member <$> members))).
  { induction H as [|[k v] [b d] fields members [Hk Hv] _ IH]; [done|]. cbn [fst snd] in Hk, Hv. rewrite Hv, IH, json_string_body, <- Hk.
    cbn [fmap list_fmap]. unfold print_member. cbn [fst snd]. by rewrite of_bytes_app. }
  cbn [marshal]. rewrite Hgo, join_of_bytes, print_obj. cbn [of_bytes]. by rewrite of_bytes_app.
Qed.

(** ** Maps of raw values *)

Definition object_ok (m : gmap string doc) : Prop := map_Forall (fun k d => utf8 (bytes k) /\ doc_ok 1 d = true) m.

Lemma foldl_members_ok l m :
  object_ok m -> forallb (fun kd => body_ok kd.1 && doc_ok 1 kd.2) l = true ->
  object_ok (foldl (fun m kd => <[unquote kd.1 := kd.2]> m) m l).
Proof.
  revert m. induction l as [|[k d] l IH]; intros m Hm Hl; [done|]. simpl in Hl. rewrite !andb_true_iff in Hl.
  destruct Hl as [[Hk Hd] Hl]. apply IH; [|done]. apply map_Forall_insert_2; [|done]. split; [|done]. unfold unquote.
  rewrite bytes_of_bytes; [by apply unquote_utf8|]. by apply utf8_bytes, unquote_utf8.
Qed.

Lemma as_map_ok d m : doc_ok 0 d = true -> as_map d = Some (Some m) -> object_ok m.
Proof.
  intros Hd H. destruct d; try done. injection H as <-. simpl in Hd. apply foldl_members_ok; [apply map_Forall_empty|done].
Qed.

Definition object_keys (m : gmap string doc) : list string := sort_strings (map_to_list m).*1.

Definition raw_member (m : gmap string doc) (k : string) : list Z * doc := (escape_body (bytes k), html (default DNull (m !! k))).

Definition raw_members (m : gmap string doc) : list (list Z * doc) := raw_member m <$> object_keys m.

Lemma object_keys_elem m k : k ∈ object_keys m <-> is_Some (m !! k).
Proof.
  unfold object_keys, sort_strings. rewrite merge_sort_Permutation, list_elem_of_fmap. split.
  - intros ([k' d] & -> & H%elem_of_map_to_list). eauto.
  - intros [d H]. exists (k, d). split; [done|]. by apply elem_of_map_to_list.
Qed.

Lemma object_keys_fmap f (m : gmap string doc) : object_keys (f <$> m) = object_keys m.
Proof.
  apply sort_strings_permutation. rewrite map_to_list_fmap, <- list_fmap_compose.
  apply reflexive_eq, list_fmap_ext. intros i [k d] _. done.
Qed.

Lemma marshal_raw_map m : marshal (json_raw_map m) = Some (of_bytes (print (DObj (raw_members m)))).
Proof.
  apply prints_obj. unfold raw_members, json_raw_map. fold (object_keys m). rewrite Forall2_fmap. apply Forall_Forall2_diag, Forall_forall.
  intros k [d Hd]%object_keys_elem. unfold raw_member. split; [done|]. simpl. by rewrite Hd.
Qed.

Lemma raw_members_html m : raw_members (html <$> m) = raw_members m.
Proof.
  unfold raw_members. rewrite object_keys_fmap. apply list_fmap_ext. intros i k _. unfold raw_member.
  rewrite lookup_fmap. destruct (m !! k); simpl; [by rewrite html_doc_idem|done].
Qed.

Lemma raw_members_ok m : object_ok m -> doc_ok 0 (DObj (raw_members m)) = true.
Proof.
  intros Hm. cbn [doc_ok]. apply andb_true_iff. split; [done|]. unfold raw_members. rewrite forallb_fmap. apply forallb_forall.
  intros k [d Hd]%list_elem_of_In%object_keys_elem. destruct (Hm k d Hd) as [Hk Hok]. unfold raw_member. cbn [fst snd].
  rewrite Hd. simpl. by rewrite escape_body_ok, html_doc_ok.
Qed.

Lemma unquote_key k : utf8 (bytes k) -> unquote (escape_body (bytes k)) = k.
Proof. intros H. unfold unquote. by rewrite unquote_escape, of_bytes_bytes. Qed.

Lemma as_raw_members m : object_ok m -> as_map (DObj (raw_members m)) = Some (Some (html <$> m)).
Proof.
  intros Hm. simpl. do 2 f_equal. unfold raw_members.
  assert (Hgo : forall ks (m0 : gmap string doc), Forall (fun k => is_Some (m !! k)) ks -> forall k,
    foldl (fun m kd => <[unquote kd.1 := kd.2]> m) m0 (raw_member m <$> ks) !! k =
    if decide (k ∈ ks) then html <$> (m !! k) else m0 !! k).
  { intros ks. induction ks as [|k0 ks IH] using rev_ind; intros m0 Hks k; [done|].
    apply Forall_app in Hks as [Hks Hk0]. apply Forall_singleton in Hk0 as [d Hd].
    rewrite fmap_app, foldl_app. cbn [fmap list_fmap foldl raw_member fst snd]. rewrite unquote_key by (by eapply Hm). rewrite Hd. cbn [default].
    destruct (decide (k = k0)) as [-> | Hne].
    - rewrite lookup_insert_eq, decide_True, Hd by set_solver. done.
    - rewrite lookup_insert_ne, IH by done. destruct (decide (k ∈ ks)); [rewrite decide_True by set_solver|rewrite decide_False by set_solver]; done. }
  apply map_eq. intros k. rewrite Hgo, lookup_fmap.
  - destruct (decide (k ∈ object_keys m)) as [_|Hk]; [done|]. rewrite object_keys_elem in Hk. by apply eq_None_not_Some in Hk as ->.
  - apply Forall_forall. intros k' Hk'. by apply object_keys_elem.
Qed.

Lemma parse_raw_map m c : object_ok m -> marshal (json_raw_map m) = Some c -> parse c = Some (DObj (raw_members m)).
Proof.
  intros Hm Hc. assert (c = of_bytes (print (DObj (raw_members m)))) as -> by (rewrite marshal_raw_map in Hc; congruence).
  by apply parse_print, raw_members_ok.
Qed.

(** ** Decoded values *)

Section any_induction.
Variable P : any -> Prop.
Hypothesis null : P ANull.
Hypothesis bool_ : forall b, P (ABool b).
Hypothesis num : forall t, P (ANumber t).
Hypothesis str : forall s, P (AString s).
Hypothesis arr : forall l, Forall P l -> P (AArray l).
Hypothesis obj : forall l, Forall (fun kv => P kv.2) l -> P (AMap l).

Fixpoint any_nested (v : any) : P v :=
  match v with
  | ANull => null
  | ABool b => bool_ b
  | ANumber t => num t
  | AString s => str s
  | AArray l => arr l ((fix go l : Forall P l :=
      match l with [] => Forall_nil_2 P | v :: l => Forall_cons_2 P v l (any_nested v) (go l) end) l)
  | AMap l => obj l ((fix go l : Forall (fun kv => P kv.2) l :=
      match l with
      | [] => Forall_nil_2 _
      | kv :: l => Forall_cons_2 (fun kv => P kv.2) kv l (any_nested kv.2) (go l)
      end) l)
  end.
End any_induction.

(** The members of a map in the strict order of their keys. *)
Definition key_before (a b : string * any) : Prop := string_le a.1 b.1 /\ a.1 <> b.1.

(** A decoded value that may stand inside [depth] containers. *)
Inductive any_ok : nat -> any -> Prop :=
| any_null depth : any_ok depth ANull
| any_bool depth b : any_ok depth (ABool b)
| any_number depth t : isValidNumber t = true -> any_ok depth (ANumber t)
| any_string depth s : utf8 (bytes s) -> any_ok depth (AString s)
| any_array depth l : (depth < maxNestingDepth)%nat -> Forall (any_ok (S depth)) l -> any_ok depth (AArray l)
| any_map depth l : (depth < maxNestingDepth)%nat -> StronglySorted key_before l ->
    Forall (fun kv => utf8 (bytes kv.1)) l -> Forall (fun kv => any_ok (S depth) kv.2) l -> any_ok depth (AMap l).

(** The document that encodes a decoded value. *)
Fixpoint any_doc (v : any) : doc :=
  match v with
  | ANull => DNull
  | ABool b => DBool b
  | ANumber t => DNum t
  | AString s => DStr (escape_body (bytes s))
  | AArray l => DArr (any_doc <$> l)
  | AMap l => DObj ((fun kv => (escape_body (bytes kv.1), any_doc kv.2)) <$> l)
  end.

Lemma marshal_any v : prints (json_any v) (any_doc v).
Proof.
  induction v as [|b|t|s|l IH|l IH] using any_nested.
  - done.
  - by destruct b.
  - done.
  - unfold prints. simpl. by rewrite json_string_body.
  - apply prints_arr. by rewrite Forall2_fmap; apply Forall_Forall2_diag.
  - apply prints_obj. rewrite Forall2_fmap. apply Forall_Forall2_diag. eapply Forall_impl; [done|]. intros [k v] Hv. by split.
Qed.

Lemma any_doc_ok depth v : any_ok depth v -> doc_ok depth (any_doc v) = true.
Proof.
  revert depth. induction v as [|b|t|s|l IH|l IH] using any_nested; intros depth H; [done..| | | |].
  - by inversion H.
  - inversion H. by apply escape_body_ok.
  - inversion H as [| | | |? ? Hd Hl|]; subst. simpl. rewrite (proj2 (Nat.ltb_lt _ _) Hd), forallb_fmap. apply forallb_forall.
    rewrite Forall_forall in *. intros v Hv%list_elem_of_In. by apply IH; [|auto].
  - inversion H as [| | | | |? ? Hd Hs Hk Hl]; subst. simpl. rewrite (proj2 (Nat.ltb_lt _ _) Hd), forallb_fmap. apply forallb_forall.
    rewrite Forall_forall in *. intros [k v] Hv%list_elem_of_In. apply andb_true_iff.
    split; [by apply escape_body_ok, (Hk _ Hv)|by apply (IH _ Hv), (Hl _ Hv)].
Qed.

Lemma put_member_Forall (P : string * any -> Prop) k v l : P (k, v) -> Forall P l -> Forall P (put_member k v l).
Proof.
  intros Hk. induction 1 as [|[k' v'] l Hx Hl IH]; simpl; [by repeat constructor|]. repeat case_match; repeat constructor; auto.
Qed.

#[local] Instance key_before_trans : Transitive key_before.
Proof.
  intros a b c [Hab Na] [Hbc Nb]. split; [by etrans|]. intros E. rewrite E in Hab. by destruct Nb, (anti_symm string_le b.1 c.1).
Qed.

Lemma put_member_sorted k v l : StronglySorted key_before l -> StronglySorted key_before (put_member k v l).
Proof.
  induction 1 as [|[k' v'] l Hs IH Hx]; simpl; [by repeat constructor|]. case_bool_decide as Hk.
  - subst k'. constructor; [done|]. eapply Forall_impl; [exact Hx|]. by intros [??].
  - destruct (String.leb k k') eqn:Hle.
    + assert (Hb : key_before (k, v) (k', v')) by (by split). constructor; [by constructor|]. constructor; [done|].
      eapply Forall_impl; [exact Hx|]. intros y Hy. by etrans.
    + constructor; [done|]. apply put_member_Forall; [|done]. split; [|simpl; congruence]. simpl.
      destruct (total string_le k' k); [done|]. unfold string_le in *. congruence.
Qed.

(** A member that comes after all others is appended. *)
Lemma put_member_last k v l : Forall (fun kv => key_before kv (k, v)) l -> put_member k v l = l ++ [(k, v)].
Proof.
  induction 1 as [|[k' v'] l [Hle Hne] _ IH]; [done|]. simpl in *. rewrite bool_decide_eq_false_2 by done.
  destruct (String.leb k k') eqn:E; [|by rewrite IH]. by destruct Hne, (anti_symm string_le k' k).
Qed.

Lemma put_members_sorted l : StronglySorted key_before l -> foldl (fun m kv => put_member kv.1 kv.2 m) [] l = l.
Proof.
  induction l as [|[k v] l IH] using rev_ind; [done|]. intros H. rewrite foldl_app. cbn [foldl fst snd].
  apply StronglySorted_app in H as (Hlast & Hl & _). rewrite IH by done. apply put_member_last, Forall_forall.
  intros kv Hkv. apply Hlast; [done|]. by apply list_elem_of_singleton.
Qed.

Lemma as_any_doc depth v : any_ok depth v -> as_any (any_doc v) = v.
Proof.
  revert depth. induction v as [|b|t|s|l IH|l IH] using any_nested; intros depth H; [done..| | |].
  - inversion H; subst. simpl. by rewrite unquote_key.
  - inversion H as [| | | |? ? Hd Hl|]; subst. simpl. f_equal. rewrite <- list_fmap_compose.
    rewrite <- (list_fmap_id l) at 2. apply list_fmap_ext. intros i v Hv. rewrite Forall_lookup in *. simpl. by eapply IH, Hl.
  - inversion H as [| | | | |? ? Hd Hs Hk Hl]; subst. simpl. f_equal. rewrite <- list_fmap_compose.
    rewrite <- (put_members_sorted l) at 2 by done. f_equal. rewrite <- (list_fmap_id l) at 2. apply list_fmap_ext.
    intros i [k v] Hv. rewrite Forall_lookup in *. simpl. rewrite unquote_key by (by apply (Hk i (k, v))).
    f_equal. eapply (IH i (k, v)); [done|]. by apply (Hl i (k, v)).
Qed.

Lemma as_any_ok depth d : doc_ok depth d = true -> any_ok depth (as_any d).
Proof.
  revert depth. induction d as [|b|t|b|l IH|l IH] using doc_nested; intros depth Hok; simpl in Hok.
  - constructor.
  - constructor.
  - by constructor.
  - constructor. unfold unquote. rewrite bytes_of_bytes; [|apply utf8_bytes]; by apply unquote_utf8.
  - apply andb_true_iff in Hok as [Hd%Nat.ltb_lt Hok]. constructor; [done|]. apply Forall_fmap. rewrite forallb_forall in Hok.
    rewrite Forall_forall in *. intros d Hx. simpl. apply IH; [done|]. by apply Hok, list_elem_of_In.
  - apply andb_true_iff in Hok as [Hd%Nat.ltb_lt Hok]. rewrite forallb_forall in Hok.
    set (P := fun kv : string * any => utf8 (bytes kv.1) /\ any_ok (S depth) kv.2).
    set (ms := (fun kd : list Z * doc => (unquote kd.1, as_any kd.2)) <$> l).
    assert (HP : Forall P ms).
    { apply Forall_fmap, Forall_forall. intros [b d] Hx. rewrite Forall_forall in IH. specialize (IH _ Hx). apply list_elem_of_In in Hx.
      apply Hok, andb_true_iff in Hx as [Hb Hx]. cbn [fst snd] in *. split; [|by apply IH]. simpl. unfold unquote.
      rewrite bytes_of_bytes; [|apply utf8_bytes]; by apply unquote_utf8. }
    assert (Hinv : forall ms m, Forall P ms -> Forall P m -> StronglySorted key_before m ->
      let m' := foldl (fun m kv => put_member kv.1 kv.2 m) m ms in Forall P m' /\ StronglySorted key_before m').
    { intros ms0. induction ms0 as [|[k v] ms0 IHm]; intros m Hms Hm Hs; [done|]. apply Forall_cons in Hms as [Hkv Hms].
      apply IHm; [done|by apply put_member_Forall|by apply put_member_sorted]. }
    destruct (Hinv ms [] HP) as [HPm Hs]; [constructor..|].
    constructor; [done..| |]; (eapply Forall_impl; [exact HPm|]; by intros [k v] []).
Qed.

(** ** The stream decoder agrees with [json.Unmarshal] on a single value *)

Lemma run_done l d st m : run (mkMachine (MDone d) st) l = Some m -> m = mkMachine (MDone d) st /\ forallb space l = true.
Proof.
  induction l as [|c l IH]; simpl; [by intros [= <-]|]. unfold step, end_value. cbn [at_ stack].
  destruct (space c); [|done]. simpl. exact IH.
Qed.

Lemma read_value_run m l m' d :
  run m (l ++ [32]) = Some m' -> at_ m' = MDone d -> exists rest, read_value m l = Some (d, rest) /\ forallb space rest = true.
Proof.
  revert m. induction l as [|c l IH]; intros m Hr Hd; destruct (at_ m) eqn:E.
  7: { destruct m as [md st]. simpl in E. subst md. apply run_done in Hr as [-> _]. simpl in *. injection Hd as ->. eauto. }
  16: { destruct m as [md st]. simpl in E. subst md. apply run_done in Hr as [-> Hs]. cbn [at_] in Hd. injection Hd as ->.
        rewrite forallb_app in Hs. apply andb_true_iff in Hs as [Hs _]. exists (c :: l). by split. }
  all: cbn [read_value app run] in *; rewrite E; destruct (step m _) as [m1|] eqn:Hs; try done; try (by eapply IH);
    injection Hr as ->; rewrite Hd; eauto.
Qed.

Lemma more_spaces l : forallb space l = true -> more l = false.
Proof. induction l as [|c l IH]; simpl; [done|]. destruct (space c); simpl; [done|discriminate]. Qed.

Lemma read_value_spaces s d : parse s = Some d -> exists rest, read_value start (bytes s) = Some (d, rest) /\ forallb space rest = true.
Proof.
  unfold parse. intros H. destruct (run start (bytes s ++ [32])) as [m|] eqn:Hr; [|done].
  destruct (at_ m) eqn:Ha; try done. injection H as ->. by apply (read_value_run _ _ _ _ Hr Ha).
Qed.

Lemma read_value_parse s d : parse s = Some d -> exists rest, read_value start (bytes s) = Some (d, rest) /\ more rest = false.
Proof. intros (rest & H & Hs)%read_value_spaces. exists rest. split; [done|]. by apply more_spaces. Qed.

(** What the stream decoder reads is well formed. *)
Lemma read_value_ok m l d rest :
  read_value m l = Some (d, rest) -> machine_ok m -> forallb is_byte l = true -> doc_ok 0 d = true.
Proof.
  revert m. induction l as [|c l IH]; intros m H Hm Hl.
  - cbn [read_value] in H. destruct (at_ m) eqn:E.
    7: { injection H as -> _. destruct Hm as [Hm _]. by rewrite E in Hm. }
    all: destruct (step m 32) as [m1|] eqn:Hs; [|done]; destruct (at_ m1) eqn:E1; try done; injection H as -> _;
      apply machine_step_ok in Hs as [Hm1 _]; try done; by rewrite E1 in Hm1.
  - cbn [forallb] in Hl. apply andb_true_iff in Hl as [Hc Hl]. cbn [read_value] in H. destruct (at_ m) eqn:E.
    7: { injection H as -> _. destruct Hm as [Hm _]. by rewrite E in Hm. }
    all: destruct (step m c) as [m1|] eqn:Hs; [eapply IH; [done|by eapply machine_step_ok|done]|];
      unfold ended_number in H; rewrite E in H; try done.
    destruct (stack m) eqn:Est; [|done]. destruct (number_final n) eqn:Hf; [|done]. case_bool_decide; [|done].
    injection H as <- _. destruct Hm as [Hm _]. rewrite E in Hm. by eapply read_number_ok.
Qed.

(** ** A decoded map as a value *)

(** The members of a map of raw values, decoded, in the order of their keys. *)
Definition any_members (m : gmap string doc) : list (string * any) :=
  (fun k => (k, as_any (default DNull (m !! k)))) <$> object_keys m.

Lemma object_keys_NoDup m : NoDup (object_keys m).
Proof. unfold object_keys, sort_strings. rewrite merge_sort_Permutation. apply NoDup_fst_map_to_list. Qed.

Lemma any_members_elem m k v : (k, v) ∈ any_members m <-> exists d, m !! k = Some d /\ v = as_any d.
Proof.
  unfold any_members. rewrite list_elem_of_fmap. split.
  - intros (k' & [= -> ->] & [d Hd]%object_keys_elem). rewrite Hd. eauto.
  - intros (d & Hd & ->). exists k. rewrite Hd. split; [done|]. apply object_keys_elem. eauto.
Qed.

Lemma any_members_sorted m : StronglySorted key_before (any_members m).
Proof.
  unfold any_members. pose proof (object_keys_NoDup m) as Hn. pose proof (sort_strings_sorted (map_to_list m).*1) as Hs.
  fold (object_keys m) in Hs. generalize (object_keys m) Hn Hs. intros ks. induction ks as [|k ks IH]; intros Hnd Hsort; [constructor|].
  apply NoDup_cons in Hnd as [Hk Hnd]. apply StronglySorted_inv in Hsort as [Hsort Hle]. csimpl. constructor; [by apply IH|].
  apply Forall_fmap. rewrite Forall_forall in Hle |- *. intros k' Hk'. split; simpl; [by apply Hle|]. intros ->. done.
Qed.

Lemma put_member_elem k v l k' v' : StronglySorted key_before l ->
  (k', v') ∈ put_member k v l <-> k' = k /\ v' = v \/ k' <> k /\ (k', v') ∈ l.
Proof.
  induction 1 as [|[k0 v0] l Hs IH Hx]; simpl; [set_solver|].
  assert (Hno : forall v', (k0, v') ∉ l) by (intros v1 Hin; rewrite Forall_forall in Hx; by destruct (Hx _ Hin)).
  case_bool_decide as E; [subst k0|destruct (String.leb k k0) eqn:Hle].
  - rewrite !elem_of_cons. split; [intros [[= -> ->]|H]; [auto|]|intros [[-> ->]|[Hne [[= -> ->]|H]]]; auto; done].
    right. split; [|auto]. intros ->. by eapply Hno.
  - rewrite !elem_of_cons. split; [|intros [[-> ->]|[Hne [[= -> ->]|H]]]; auto].
    intros [[= -> ->]|[[= -> ->]|H]]; [auto|right; split; auto|]. right. split; [|auto]. intros ->.
    rewrite Forall_forall in Hx. destruct (Hx _ H) as [Hb Hn]. simpl in *. destruct E. by apply (anti_symm string_le).
  - rewrite !elem_of_cons, IH. split; [intros [[= -> ->]|[[-> ->]|[Hne H]]]; auto|intros [[-> ->]|[Hne [[= -> ->]|H]]]; auto].
Qed.

Lemma sorted_members_eq l l' : StronglySorted key_before l -> StronglySorted key_before l' -> (forall kv, kv ∈ l <-> kv ∈ l') -> l = l'.
Proof.
  assert (Hnd : forall l, StronglySorted key_before l -> NoDup l).
  { intros l0. induction 1 as [|[k v] l0 Hs IH Hx]; constructor; [|done]. intros Hin. rewrite Forall_forall in Hx. by destruct (Hx _ Hin). }
  intros Hl Hl' H. assert (AntiSymm (=) key_before).
  { intros a b [Hab Nab] [Hba _]. destruct Nab. by apply (anti_symm string_le). }
  apply (StronglySorted_unique key_before); [done..|]. by apply NoDup_Permutation; auto.
Qed.

Lemma put_any_member k d m : put_member k (as_any d) (any_members m) = any_members (<[k := d]> m).
Proof.
  apply sorted_members_eq; [apply put_member_sorted, any_members_sorted|apply any_members_sorted|]. intros [k' v'].
  rewrite put_member_elem, !any_members_elem by apply any_members_sorted. split.
  - intros [[-> ->]|[Hne (d' & Hd' & ->)]]; [exists d|exists d']; by rewrite ?lookup_insert_eq, ?lookup_insert_ne.
  - intros (d' & Hd' & ->). destruct (decide (k' = k)) as [-> | Hne].
    + rewrite lookup_insert_eq in Hd'. left. by simplify_eq.
    + rewrite lookup_insert_ne in Hd' by done. eauto.
Qed.

Lemma as_any_map d m : as_map d = Some (Some m) -> as_any d = AMap (any_members m).
Proof.
  intros H. destruct d as [| | | | |l]; try done. injection H as <-. simpl. f_equal.
  induction l as [|[k d] l IH] using rev_ind; [done|]. rewrite fmap_app, !foldl_app, IH. cbn [fmap list_fmap foldl fst snd].
  apply put_any_member.
Qed.
