(* ===== verification/AesGcm.v ===== *)
(** * AES-256 in Galois counter mode

    What the runtime uses of [crypto/aes] and [crypto/cipher]: [NewGCM] of an AES-256
    block, with its 12-byte nonce and 16-byte tag, [Seal] and [Open].  A block is a list of
    16 bytes, first byte first; in GHASH it is a 128-bit number, first byte most
    significant.  [Open] undoes [Seal] ([open_seal]). *)

From Stdlib Require Import Ascii String.
From S2P Require Import Prelude GoString JsonFacts.

Open Scope Z_scope.

(** ** AES-256 *)

Definition sbox : list Z :=
  [
   0x63; 0x7c; 0x77; 0x7b; 0xf2; 0x6b; 0x6f; 0xc5; 0x30; 0x01; 0x67; 0x2b; 0xfe; 0xd7; 0xab; 0x76;
   0xca; 0x82; 0xc9; 0x7d; 0xfa; 0x59; 0x47; 0xf0; 0xad; 0xd4; 0xa2; 0xaf; 0x9c; 0xa4; 0x72; 0xc0;
   0xb7; 0xfd; 0x93; 0x26; 0x36; 0x3f; 0xf7; 0xcc; 0x34; 0xa5; 0xe5; 0xf1; 0x71; 0xd8; 0x31; 0x15;
   0x04; 0xc7; 0x23; 0xc3; 0x18; 0x96; 0x05; 0x9a; 0x07; 0x12; 0x80; 0xe2; 0xeb; 0x27; 0xb2; 0x75;
   0x09; 0x83; 0x2c; 0x1a; 0x1b; 0x6e; 0x5a; 0xa0; 0x52; 0x3b; 0xd6; 0xb3; 0x29; 0xe3; 0x2f; 0x84;
   0x53; 0xd1; 0x00; 0xed; 0x20; 0xfc; 0xb1; 0x5b; 0x6a; 0xcb; 0xbe; 0x39; 0x4a; 0x4c; 0x58; 0xcf;
   0xd0; 0xef; 0xaa; 0xfb; 0x43; 0x4d; 0x33; 0x85; 0x45; 0xf9; 0x02; 0x7f; 0x50; 0x3c; 0x9f; 0xa8;
   0x51; 0xa3; 0x40; 0x8f; 0x92; 0x9d; 0x38; 0xf5; 0xbc; 0xb6; 0xda; 0x21; 0x10; 0xff; 0xf3; 0xd2;
   0xcd; 0x0c; 0x13; 0xec; 0x5f; 0x97; 0x44; 0x17; 0xc4; 0xa7; 0x7e; 0x3d; 0x64; 0x5d; 0x19; 0x73;
   0x60; 0x81; 0x4f; 0xdc; 0x22; 0x2a; 0x90; 0x88; 0x46; 0xee; 0xb8; 0x14; 0xde; 0x5e; 0x0b; 0xdb;
   0xe0; 0x32; 0x3a; 0x0a; 0x49; 0x06; 0x24; 0x5c; 0xc2; 0xd3; 0xac; 0x62; 0x91; 0x95; 0xe4; 0x79;
   0xe7; 0xc8; 0x37; 0x6d; 0x8d; 0xd5; 0x4e; 0xa9; 0x6c; 0x56; 0xf4; 0xea; 0x65; 0x7a; 0xae; 0x08;
   0xba; 0x78; 0x25; 0x2e; 0x1c; 0xa6; 0xb4; 0xc6; 0xe8; 0xdd; 0x74; 0x1f; 0x4b; 0xbd; 0x8b; 0x8a;
   0x70; 0x3e; 0xb5; 0x66; 0x48; 0x03; 0xf6; 0x0e; 0x61; 0x35; 0x57; 0xb9; 0x86; 0xc1; 0x1d; 0x9e;
   0xe1; 0xf8; 0x98; 0x11; 0x69; 0xd9; 0x8e; 0x94; 0x9b; 0x1e; 0x87; 0xe9; 0xce; 0x55; 0x28; 0xdf;
   0x8c; 0xa1; 0x89; 0x0d; 0xbf; 0xe6; 0x42; 0x68; 0x41; 0x99; 0x2d; 0x0f; 0xb0; 0x54; 0xbb; 0x16].

Definition sub_byte (b : Z) : Z := nth (Z.to_nat b) sbox 0.

Definition xor_bytes (a b : list Z) : list Z := zip_with Z.lxor a b.

(** Multiplication by x in the field of AES. *)
Definition xtime (b : Z) : Z := if b <? 128 then 2 * b else Z.lxor (2 * b) 0x11b.

(** The words of the key schedule, latest first; [i]: the number of the next word. *)
Fixpoint expand (n : nat) (i : Z) (rcon : Z) (words : list (list Z)) : list (list Z) :=
  match n with
  | O => words
  | S n =>
    let previous := default [] (head words) in
    let back := nth 7 words [] in
    if i mod 8 =? 0 then
      let rotated := match previous with a :: l => l ++ [a] | [] => [] end in
      expand n (i + 1) (xtime rcon) (xor_bytes back (xor_bytes (sub_byte <$> rotated) [rcon; 0; 0; 0]) :: words)
    else if i mod 8 =? 4 then expand n (i + 1) rcon (xor_bytes back (sub_byte <$> previous) :: words)
    else expand n (i + 1) rcon (xor_bytes back previous :: words)
  end.

(** The list in pieces of [n]. *)
Fixpoint pieces (count n : nat) (l : list Z) : list (list Z) :=
  match count with O => [] | S count => take n l :: pieces count n (drop n l) end.

(** The fifteen round keys. *)
Definition round_keys (key : list Z) : list (list Z) := pieces 15 16 (concat (reverse (expand 52 8 1 (reverse (pieces 8 4 key))))).

Definition shift_rows (s : list Z) : list Z := (fun i => nth i s 0) <$> [0; 5; 10; 15; 4; 9; 14; 3; 8; 13; 2; 7; 12; 1; 6; 11]%nat.

Definition mix_column (c : list Z) : list Z :=
  match c with
  | [a; b; c; d] =>
    let all := Z.lxor (Z.lxor a b) (Z.lxor c d) in
    let mix x y := Z.lxor x (Z.lxor all (xtime (Z.lxor x y))) in
    [mix a b; mix b c; mix c d; mix d a]
  | _ => c
  end.
Definition mix_columns (s : list Z) : list Z := concat (mix_column <$> pieces 4 4 s).

Fixpoint rounds (s : list Z) (keys : list (list Z)) : list Z :=
  match keys with
  | [] => s
  | [last] => xor_bytes (shift_rows (sub_byte <$> s)) last
  | k :: keys => rounds (xor_bytes (mix_columns (shift_rows (sub_byte <$> s))) k) keys
  end.

(** [cipher.Block.Encrypt] *)
Definition aes_encrypt (key block : list Z) : list Z :=
  match round_keys key with
  | first :: keys => rounds (xor_bytes block first) keys
  | [] => block
  end.

(** ** GHASH *)

Definition of_block (l : list Z) : Z := foldl (fun n b => 256 * n + b) 0 l.
Definition to_block (n : Z) : list Z := (fun i => Z.shiftr n (8 * (15 - Z.of_nat i)) mod 256) <$> seq 0 16.

Fixpoint gf_mul_go (n : nat) (x v z : Z) : Z :=
  match n with
  | O => z
  | S n =>
    let z := if Z.testbit x (Z.of_nat n) then Z.lxor z v else z in
    gf_mul_go n x (if Z.odd v then Z.lxor (Z.shiftr v 1) (Z.shiftl 0xE1 120) else Z.shiftr v 1) z
  end.
Definition gf_mul (x y : Z) : Z := gf_mul_go 128 x y 0.

Definition blocks_of (l : list Z) : nat := ((length l + 15) / 16)%nat.
Definition padded (l : list Z) : list Z := l ++ replicate (16 * blocks_of l - length l) 0.

Definition ghash (h : Z) (l : list Z) : Z :=
  foldl (fun y block => gf_mul (Z.lxor y (of_block block)) h) 0 (pieces (blocks_of l) 16 l).

(** ** The mode *)

Definition NonceSize : Z := 12.
Definition Overhead : Z := 16.

Definition counter_block (nonce : list Z) (n : Z) : list Z := nonce ++ ((fun i => Z.shiftr n (8 * (3 - Z.of_nat i)) mod 256) <$> seq 0 4).

(** [stream]: what is left of the key stream of the last counter. *)
Fixpoint ctr (block : Z -> list Z) (counter : Z) (stream : list Z) (l : list Z) : list Z :=
  match l with
  | [] => []
  | b :: l =>
    match stream with
    | k :: stream => Z.lxor b k :: ctr block counter stream l
    | [] => match block counter with
            | k :: stream => Z.lxor b k :: ctr block (counter + 1) stream l
            | [] => []
            end
    end
  end.

Definition gcm_ctr (key nonce l : list Z) : list Z := ctr (fun n => aes_encrypt key (counter_block nonce n)) 2 [] l.

Definition gcm_tag (key nonce ciphertext aad : list Z) : list Z :=
  let h := of_block (aes_encrypt key (replicate 16 0)) in
  let lengths := Z.shiftl (8 * Z.of_nat (length aad)) 64 + 8 * Z.of_nat (length ciphertext) in
  xor_bytes (to_block (ghash h (padded aad ++ padded ciphertext ++ to_block lengths))) (aes_encrypt key (counter_block nonce 1)).

Definition gcm_seal (key nonce plain aad : string) : string :=
  let c := gcm_ctr (bytes key) (bytes nonce) (bytes plain) in of_bytes (c ++ gcm_tag (bytes key) (bytes nonce) c (bytes aad)).

Definition gcm_open (key nonce sealed aad : string) : option string :=
  if len sealed <? Overhead then None
  else
    let n := (length (bytes sealed) - 16)%nat in
    let c := take n (bytes sealed) in
    if gcm_tag (bytes key) (bytes nonce) c (bytes aad) ≟ drop n (bytes sealed) then Some (of_bytes (gcm_ctr (bytes key) (bytes nonce) c)) else None.

(** ** Test vectors: FIPS 197, C.3, and the cases 13 and 14 of the GCM specification *)

Example aes_vector : hex_encode (aes_encrypt (seqZ 0 32) ((fun i => 17 * i) <$> seqZ 0 16)) = "8ea2b7ca516745bfeafc49904b496089".
Proof. vm_compute. reflexivity. Qed.

Definition zeros (n : nat) : string := of_bytes (replicate n 0).

Example gcm_vectors :
  hex_encode (bytes (gcm_seal (zeros 32) (zeros 12) "" "")) = "530f8afbc74536b9a963b4f1c4cb738b" /\
  hex_encode (bytes (gcm_seal (zeros 32) (zeros 12) (zeros 16) "")) = "cea7403d4d606b6e074ec5d3baf39d18d0d1c8a799996bf0265b98b5d48ab919".
Proof. split; vm_compute; reflexivity. Qed.

(** ** Ranges *)

Lemma xor_byte a b : is_byte a = true -> is_byte b = true -> is_byte (Z.lxor a b) = true.
Proof.
  rewrite !is_byte_range. intros Ha Hb. split; [apply Z.lxor_nonneg; lia|].
  assert (Hlog : forall c, 0 <= c < 256 -> c = 0 \/ Z.log2 c < 8).
  { intros c Hc. destruct (Z.eq_dec c 0) as [->|]; [by left|right]. apply Z.log2_lt_pow2; lia. }
  destruct (Z.eq_dec (Z.lxor a b) 0) as [->|Hn]; [lia|]. apply (Z.log2_lt_pow2 _ 8); [pose proof (Z.lxor_nonneg a b); lia|].
  pose proof (Z.log2_lxor a b ltac:(lia) ltac:(lia)). destruct (Hlog a Ha) as [->|], (Hlog b Hb) as [->|]; rewrite ?Z.lxor_0_l, ?Z.lxor_0_r in *; try lia; done.
Qed.

Lemma xor_bytes_ok a b : bytes_ok a -> bytes_ok b -> bytes_ok (xor_bytes a b).
Proof. intros Ha. revert b. induction Ha as [|x a Hx _ IH]; intros [|y b] Hb; [done..|]. apply Forall_cons in Hb as [Hy Hb]. constructor; [by apply xor_byte|by apply IH]. Qed.

Lemma xor_bytes_length a b : length (xor_bytes a b) = Nat.min (length a) (length b).
Proof. apply length_zip_with. Qed.

Definition sbox_checked : bool := forallb is_byte sbox.

Lemma sub_byte_ok b : is_byte (sub_byte b) = true.
Proof.
  assert (Hc : sbox_checked = true) by (vm_compute; reflexivity). unfold sbox_checked in Hc. rewrite forallb_forall in Hc. unfold sub_byte.
  destruct (nth_in_or_default (Z.to_nat b) sbox 0) as [Hin| ->]; [by apply Hc|done].
Qed.

(** The part of the counter that is used: the last round makes bytes of anything. *)
Lemma rounds_ok s keys : keys <> [] -> Forall bytes_ok keys -> bytes_ok (rounds s keys).
Proof.
  revert s. induction keys as [|k keys IH]; intros s Hn Hk; [done|]. apply Forall_cons in Hk as [H1 H2]. destruct keys as [|k' keys]; [|by apply IH].
  apply xor_bytes_ok; [|done]. unfold shift_rows. apply Forall_fmap, Forall_forall. intros i _. cbn [compose].
  destruct (nth_in_or_default i (sub_byte <$> s) 0) as [Hin| ->]; [|done]. apply list_elem_of_In, list_elem_of_fmap in Hin as (b & -> & _). apply sub_byte_ok.
Qed.

(** ** The key schedule *)

Definition word_ok (w : list Z) : Prop := bytes_ok w /\ length w = 4%nat.

Definition xtime_checked : bool := forallb (fun b => is_byte (xtime b)) (seqZ 0 256).

Lemma xtime_ok b : is_byte b = true -> is_byte (xtime b) = true.
Proof.
  intros Hb%is_byte_range. assert (Hc : xtime_checked = true) by (vm_compute; reflexivity). unfold xtime_checked in Hc. rewrite forallb_forall in Hc.
  apply Hc, list_elem_of_In, elem_of_seqZ. lia.
Qed.

Lemma sub_bytes_ok l : bytes_ok (sub_byte <$> l).
Proof. apply Forall_fmap, Forall_forall. intros b _. apply sub_byte_ok. Qed.

Lemma word_xor a b : word_ok a -> word_ok b -> word_ok (xor_bytes a b).
Proof. intros [A1 A2] [B1 B2]. split; [by apply xor_bytes_ok|]. by rewrite xor_bytes_length, A2, B2. Qed.

Lemma expand_ok n i rcon words : is_byte rcon = true -> Forall word_ok words -> (8 <= length words)%nat ->
  Forall word_ok (expand n i rcon words) /\ length (expand n i rcon words) = (n + length words)%nat.
Proof.
  revert i rcon words. induction n as [|n IH]; intros i rcon words Hr Hw Hl; [done|]. cbn [expand].
  assert (Hb : word_ok (nth 7 words [])) by (rewrite Forall_forall in Hw; apply Hw, list_elem_of_In, nth_In; lia).
  destruct words as [|w words]; [simpl in Hl; lia|]. pose proof Hw as Hw'. apply Forall_cons in Hw' as [[W1 W2] _]. cbn [head default from_option id].
  assert (Hgo : forall w' rcon', is_byte rcon' = true -> word_ok w' ->
    Forall word_ok (expand n (i + 1) rcon' (w' :: w :: words)) /\ length (expand n (i + 1) rcon' (w' :: w :: words)) = (S n + length (w :: words))%nat).
  { intros w' rcon' Hr' Hw1. destruct (IH (i + 1) rcon' (w' :: w :: words)) as [E1 E2]; [done|by constructor|simpl in *; lia|]. split; [done|]. rewrite E2. simpl. lia. }
  destruct (i mod 8 =? 0); [|destruct (i mod 8 =? 4)]; apply Hgo; try done; [by apply xtime_ok| | |]; apply word_xor; try done.
  - apply word_xor; [|split; [by repeat constructor|done]]. split; [apply sub_bytes_ok|]. rewrite length_fmap. destruct w as [|a w]; [done|]. rewrite length_app. simpl in *. lia.
  - split; [apply sub_bytes_ok|]. by rewrite length_fmap.
Qed.

Lemma pieces_ok count n l : bytes_ok l -> Forall bytes_ok (pieces count n l).
Proof. revert l. induction count as [|count IH]; intros l Hl; constructor; [by apply Forall_take|by apply IH, Forall_drop]. Qed.

Lemma pieces_length count n l : length (pieces count n l) = count.
Proof. revert l. induction count as [|count IH]; intros l; [done|]. simpl. by rewrite IH. Qed.

Lemma pieces_lengths count n l : (count * n <= length l)%nat -> Forall (fun p => length p = n) (pieces count n l).
Proof.
  revert l. induction count as [|count IH]; intros l Hl; constructor; [rewrite length_take; simpl in Hl; lia|].
  apply IH. rewrite length_drop. simpl in Hl. lia.
Qed.

Lemma words_length ws : Forall word_ok ws -> length (concat ws) = (4 * length ws)%nat.
Proof. induction 1 as [|w ws [_ Hw] _ IH]; [done|]. simpl. rewrite length_app, Hw, IH. lia. Qed.

Lemma words_bytes ws : Forall word_ok ws -> bytes_ok (concat ws).
Proof. induction 1 as [|w ws [Hw _] _ IH]; [done|]. by apply Forall_app. Qed.

Lemma round_keys_ok key : bytes_ok key -> length key = 32%nat ->
  Forall (fun k => bytes_ok k /\ length k = 16%nat) (round_keys key) /\ length (round_keys key) = 15%nat.
Proof.
  intros Hk Hl. unfold round_keys. destruct (expand_ok 52 8 1 (reverse (pieces 8 4 key))) as [E1 E2]; [done| |by rewrite length_reverse, pieces_length|].
  { apply Forall_reverse, Forall_forall. intros w Hw. pose proof (pieces_ok 8 4 key Hk) as P1. pose proof (pieces_lengths 8 4 key ltac:(lia)) as P2.
    rewrite Forall_forall in P1, P2. split; auto. }
  apply Forall_reverse in E1. rewrite length_reverse, pieces_length in E2. rewrite <- length_reverse in E2.
  set (ws := reverse (expand _ _ _ _)) in *. pose proof (pieces_ok 15 16 _ (words_bytes ws E1)) as P1.
  pose proof (pieces_lengths 15 16 (concat ws)) as P2. rewrite words_length, E2 in P2 by done. specialize (P2 ltac:(lia)).
  rewrite pieces_length. split; [|done]. apply Forall_forall. intros k Hin. rewrite Forall_forall in P1, P2. auto.
Qed.

Lemma rounds_length s keys : keys <> [] -> Forall (fun k => length k = 16%nat) keys -> length (rounds s keys) = 16%nat.
Proof.
  revert s. induction keys as [|k keys IH]; intros s Hn Hk; [done|]. apply Forall_cons in Hk as [H1 H2]. destruct keys as [|k' keys]; [|by apply IH].
  cbn [rounds]. rewrite xor_bytes_length, H1. unfold shift_rows. by rewrite length_fmap.
Qed.

Lemma aes_encrypt_ok key block : bytes_ok key -> length key = 32%nat -> bytes_ok (aes_encrypt key block) /\ length (aes_encrypt key block) = 16%nat.
Proof.
  intros Hk Hl. destruct (round_keys_ok key Hk Hl) as [R1 R2]. unfold aes_encrypt. destruct (round_keys key) as [|k [|k' keys]]; [done..|].
  apply Forall_cons in R1 as [_ R1]. rewrite Forall_and in R1. destruct R1 as [R1 R3]. split; [by apply rounds_ok|by apply rounds_length].
Qed.

(** ** Opening what was sealed *)

Lemma ctr_twice block counter stream l : (forall n, block n <> []) -> ctr block counter stream (ctr block counter stream l) = l.
Proof.
  intros Hb. revert counter stream. induction l as [|b l IH]; intros counter stream; [done|]. cbn [ctr]. destruct stream as [|k stream].
  - destruct (block counter) as [|k stream] eqn:E; [by destruct (Hb counter)|]. cbn [ctr]. by rewrite E, Z.lxor_assoc, Z.lxor_nilpotent, Z.lxor_0_r, IH.
  - cbn [ctr]. by rewrite Z.lxor_assoc, Z.lxor_nilpotent, Z.lxor_0_r, IH.
Qed.

Lemma ctr_ok block counter stream l : (forall n, bytes_ok (block n)) -> bytes_ok stream -> bytes_ok l -> bytes_ok (ctr block counter stream l).
Proof.
  intros Hb Hs Hl. revert counter stream Hs. induction Hl as [|b l Hb' _ IH]; intros counter stream Hs; [done|]. cbn [ctr].
  destruct stream as [|k stream].
  - pose proof (Hb counter) as Hk. destruct (block counter) as [|k stream]; [done|]. apply Forall_cons in Hk as [H1 H2]. constructor; [by apply xor_byte|by apply IH].
  - apply Forall_cons in Hs as [H1 H2]. constructor; [by apply xor_byte|by apply IH].
Qed.

Section seal.
Context (key nonce : string) (Hkey : len key = 32).

Lemma key_bytes : bytes_ok (bytes key) /\ length (bytes key) = 32%nat.
Proof. split; [apply bytes_ok_bytes|]. rewrite length_bytes. unfold len in Hkey. lia. Qed.

Lemma gcm_tag_ok c aad : bytes_ok (gcm_tag (bytes key) (bytes nonce) c aad) /\ length (gcm_tag (bytes key) (bytes nonce) c aad) = 16%nat.
Proof.
  destruct key_bytes as [K1 K2]. destruct (aes_encrypt_ok (bytes key) (counter_block (bytes nonce) 1) K1 K2) as [A1 A2]. split.
  - apply xor_bytes_ok; [|done]. unfold to_block. apply Forall_fmap, Forall_forall. intros i _. apply is_byte_range. cbn [compose]. by apply Z.mod_pos_bound.
  - unfold gcm_tag. rewrite xor_bytes_length, A2. unfold to_block. by rewrite length_fmap.
Qed.

Lemma gcm_ctr_ok l : bytes_ok l -> bytes_ok (gcm_ctr (bytes key) (bytes nonce) l).
Proof. destruct key_bytes as [K1 K2]. intros Hl. apply ctr_ok; [|done..]. intros n. by apply aes_encrypt_ok. Qed.

Lemma gcm_ctr_twice l : gcm_ctr (bytes key) (bytes nonce) (gcm_ctr (bytes key) (bytes nonce) l) = l.
Proof.
  destruct key_bytes as [K1 K2]. apply ctr_twice. intros n E. pose proof (proj2 (aes_encrypt_ok (bytes key) (counter_block (bytes nonce) n) K1 K2)) as H.
  by rewrite E in H.
Qed.

Lemma open_seal plain aad : gcm_open key nonce (gcm_seal key nonce plain aad) aad = Some plain.
Proof.
  unfold gcm_open, gcm_seal. pose proof (gcm_ctr_twice (bytes plain)) as Htwice. pose proof (gcm_ctr_ok _ (bytes_ok_bytes plain)) as Hc.
  revert Htwice Hc. generalize (gcm_ctr (bytes key) (bytes nonce) (bytes plain)). intros c Htwice Hc.
  destruct (gcm_tag_ok c (bytes aad)) as [T1 T2]. cbv zeta.
  assert (Hs : bytes (of_bytes (c ++ gcm_tag (bytes key) (bytes nonce) c (bytes aad))) = c ++ gcm_tag (bytes key) (bytes nonce) c (bytes aad)).
  { apply bytes_ok_read, Forall_app. exact (conj Hc T1). }
  unfold len, Overhead. rewrite <- length_bytes, Hs, length_app, T2, (proj2 (Z.ltb_ge _ _)) by lia.
  replace (length c + 16 - 16)%nat with (length c) by lia. rewrite take_app_length, drop_app_length, bool_decide_eq_true_2 by reflexivity.
  by rewrite Htwice, of_bytes_bytes.
Qed.
End seal.
