(* ===== verification/Cbor.v ===== *)
(** * Canonical CBOR

    The part of CBOR that the runtime writes and reads by hand: arrays, unsigned numbers
    and texts with definite lengths (head, uintv and text, and the decoder, of
    internal/runtimecontent/content.go).  A decoder takes the bytes that are left.  The
    decoder accepts exactly what the encoder writes ([decodes_exactly]). *)

From Stdlib Require Import Ascii String.
From S2P Require Import Prelude GoString JsonFacts.

Open Scope Z_scope.

(** ** Writing *)

(** The [width] low bytes of a number, the highest first. *)
Definition big_endian (width : nat) (value : Z) : list Z := (fun i => Z.shiftr value (8 * (Z.of_nat width - 1 - i)) mod 256) <$> seqZ 0 (Z.of_nat width).

Definition head (major value : Z) : list Z :=
  if value <? 24 then [Z.lor (Z.shiftl major 5) value]
  else if value <=? 255 then Z.lor (Z.shiftl major 5) 24 :: big_endian 1 value
  else if value <=? 65535 then Z.lor (Z.shiftl major 5) 25 :: big_endian 2 value
  else if value <=? 0xffffffff then Z.lor (Z.shiftl major 5) 26 :: big_endian 4 value
  else Z.lor (Z.shiftl major 5) 27 :: big_endian 8 value.

Definition uintv (value : Z) : list Z := head 0 value.
Definition text (value : string) : list Z := head 3 (len value) ++ bytes value.

(** ** Reading *)

Definition Decoder (A : Type) : Type := list Z -> option (A * list Z).

#[export] Instance decoder_ret : MRet Decoder := fun A a l => Some (a, l).
#[export] Instance decoder_bind : MBind Decoder := fun A B k p l => match p l with Some (a, l) => k a l | None => None end.

(** [return errors.New(...)] unless the condition holds. *)
Definition require (b : bool) : Decoder unit := fun l => if b then Some (tt, l) else None.

Definition from_big_endian (l : list Z) : Z := foldl (fun value b => Z.lor (Z.shiftl value 8) b) 0 l.

Definition width_of (short : Z) : option nat :=
  if short =? 24 then Some 1%nat else if short =? 25 then Some 2%nat else if short =? 26 then Some 4%nat else if short =? 27 then Some 8%nat else None.

Definition too_wide (width : nat) (value : Z) : bool :=
  (Nat.eqb width 1 && (value <? 24)) || (Nat.eqb width 2 && (value <=? 255)) || (Nat.eqb width 4 && (value <=? 65535)) ||
  (Nat.eqb width 8 && (value <=? 0xffffffff)).

(** decoder.head: the major type and the number. *)
Definition dec_head : Decoder (Z * Z) := fun l =>
  match l with
  | [] => None
  | first :: l =>
    let major := Z.shiftr first 5 in
    let short := Z.land first 31 in
    if short <? 24 then Some ((major, short), l)
    else
      match width_of short with
      | None => None
      | Some width =>
        if (length l <? width)%nat then None
        else
          let value := from_big_endian (take width l) in
          if too_wide width value then None else Some ((major, value), drop width l)
      end
  end.

(** decoder.uint *)
Definition dec_uint : Decoder Z := '(major, value) ← dec_head; require (major =? 0) ≫= fun _ => mret value.

(** decoder.text *)
Definition dec_text_of (major count : Z) : Decoder string := fun l =>
  if negb (major =? 3) || (Z.of_nat (length l) <? count) then None
  else
    let value := of_bytes (take (Z.to_nat count) l) in
    if ValidString value then Some (value, drop (Z.to_nat count) l) else None.
Definition dec_text : Decoder string := '(major, count) ← dec_head; dec_text_of major count.

(** The head of an array. *)
Definition dec_array : Decoder Z := '(major, count) ← dec_head; require (major =? 4) ≫= fun _ => mret count.

(** [for index := 0; index < count; index++] *)
Fixpoint dec_times {A} (count : nat) (p : Decoder A) : Decoder (list A) :=
  match count with
  | O => mret []
  | S count => a ← p; l ← dec_times count p; mret (a :: l)
  end.

(** ** A decoder that accepts exactly what is written

    [write a] is read as [a], if [good a]; and what is read was written so. *)

Record decodes_exactly {A} (p : Decoder A) (write : A -> list Z) (good : A -> Prop) : Prop := mkExactly {
  exa_reads a rest : good a -> p (write a ++ rest) = Some (a, rest);
  exa_only l a rest : bytes_ok l -> p l = Some (a, rest) -> l = write a ++ rest /\ good a
}.

Lemma bind_decoded {A B} (p : Decoder A) (k : A -> Decoder B) l b rest :
  (p ≫= k) l = Some (b, rest) <-> exists a l', p l = Some (a, l') /\ k a l' = Some (b, rest).
Proof.
  unfold mbind, decoder_bind. destruct (p l) as [[a l']|]; split.
  - intros H. by exists a, l'.
  - by intros (a' & l1 & [= <- <-] & H).
  - done.
  - by intros (a' & l1 & [=] & H).
Qed.

Lemma require_decoded b u l rest : require b l = Some (u, rest) <-> b = true /\ l = rest.
Proof. unfold require. destruct b; split; [intros [= _ <-]; done|intros [_ ->]; by destruct u|done|by intros [[=] _]]. Qed.

Lemma ret_decoded {A} (a b : A) l rest : (mret a : Decoder A) l = Some (b, rest) <-> a = b /\ l = rest.
Proof. unfold mret, decoder_ret. split; [intros [= -> ->]; done|by intros [-> ->]]. Qed.

(** ** Numbers *)

Lemma lor_shift a b k : 0 <= k -> 0 <= b < 2 ^ k -> Z.lor (Z.shiftl a k) b = a * 2 ^ k + b.
Proof.
  intros Hk Hb. rewrite <- Z.shiftl_mul_pow2 by done. assert (E : Z.land (Z.shiftl a k) b = 0); [|pose proof (Z.add_lor_land (Z.shiftl a k) b); lia].
  destruct (Z.eq_dec b 0) as [->|]; [apply Z.land_0_r|]. apply Z.bits_inj'. intros n' Hn. rewrite Z.land_spec, Z.bits_0. destruct (Z_lt_le_dec n' k).
  - by rewrite Z.shiftl_spec_low.
  - rewrite (Z.bits_above_log2 b n'), andb_false_r; [done|lia|]. apply Z.log2_lt_pow2; [lia|].
    apply Z.lt_le_trans with (2 ^ k); [lia|]. by apply Z.pow_le_mono_r.
Qed.

Lemma from_big_endian_snoc l b : 0 <= b < 256 -> from_big_endian (l ++ [b]) = 256 * from_big_endian l + b.
Proof. intros Hb. unfold from_big_endian. rewrite foldl_app. cbn [foldl]. rewrite lor_shift by lia. lia. Qed.

Lemma big_endian_S width value : big_endian (S width) value = big_endian width (value / 256) ++ [value mod 256].
Proof.
  unfold big_endian. replace (Z.of_nat (S width)) with (Z.of_nat width + 1) by lia. rewrite seqZ_app, fmap_app by lia. f_equal.
  - apply list_fmap_ext. intros i x Hx%lookup_seqZ. change 256 with (2 ^ 8) at 2. rewrite <- Z.shiftr_div_pow2, Z.shiftr_shiftr by lia. do 2 f_equal. lia.
  - change (seqZ (0 + Z.of_nat width) 1) with [0 + Z.of_nat width]. rewrite fmap_cons. replace (8 * (Z.of_nat width + 1 - 1 - (0 + Z.of_nat width))) with 0 by lia.
    by rewrite Z.shiftr_0_r.
Qed.

Lemma big_endian_ok width value : bytes_ok (big_endian width value) /\ length (big_endian width value) = width.
Proof.
  split; [|unfold big_endian; rewrite length_fmap, length_seqZ; lia]. apply Forall_fmap, Forall_forall. intros i _. apply is_byte_range. cbn [compose]. by apply Z.mod_pos_bound.
Qed.

Lemma from_to width value : 0 <= value < 256 ^ Z.of_nat width -> from_big_endian (big_endian width value) = value.
Proof.
  revert value. induction width as [|width IH]; intros value Hv; [change (0 = value); change (0 <= value < 1) in Hv; lia|].
  rewrite big_endian_S, from_big_endian_snoc, IH.
  - pose proof (Z.div_mod value 256). lia.
  - rewrite Nat2Z.inj_succ, Z.pow_succ_r in Hv by lia. split; [apply Z.div_pos; lia|]. apply Z.div_lt_upper_bound; lia.
  - by apply Z.mod_pos_bound.
Qed.

Lemma to_from l : bytes_ok l -> 0 <= from_big_endian l < 256 ^ Z.of_nat (length l) /\ big_endian (length l) (from_big_endian l) = l.
Proof.
  induction l as [|b l IH] using rev_ind; intros H; [done|]. apply Forall_app in H as [Hl [Hb _]%Forall_cons]. apply is_byte_range in Hb.
  destruct (IH Hl) as [H1 H2]. rewrite from_big_endian_snoc, length_app by done. cbn [length]. rewrite Nat.add_1_r, Nat2Z.inj_succ, Z.pow_succ_r by lia.
  split; [lia|]. rewrite big_endian_S. f_equal.
  - replace ((256 * from_big_endian l + b) / 256) with (from_big_endian l); [done|]. apply Z.div_unique with b; lia.
  - f_equal. symmetry. apply Z.mod_unique with (from_big_endian l); lia.
Qed.

(** ** Heads *)

Definition head_ok (x : Z * Z) : Prop := 0 <= x.1 < 8 /\ 0 <= x.2 <= max_u64.

Lemma first_byte major short : 0 <= major < 8 -> 0 <= short < 32 ->
  let first := Z.lor (Z.shiftl major 5) short in 0 <= first < 256 /\ Z.shiftr first 5 = major /\ Z.land first 31 = short.
Proof.
  intros Hm Hs. cbv zeta. rewrite lor_shift by lia. change 31 with (Z.ones 5). rewrite Z.land_ones, Z.shiftr_div_pow2 by lia. change (2 ^ 5) with 32.
  split; [lia|]. split; [symmetry; apply Z.div_unique with short; lia|symmetry; apply Z.mod_unique with major; lia].
Qed.

Lemma byte_split first : 0 <= first < 256 -> let major := Z.shiftr first 5 in let short := Z.land first 31 in
  0 <= major < 8 /\ 0 <= short < 32 /\ first = Z.lor (Z.shiftl major 5) short.
Proof.
  intros H. cbv zeta. change 31 with (Z.ones 5). rewrite Z.land_ones, Z.shiftr_div_pow2 by lia. change (2 ^ 5) with 32.
  pose proof (Z.mod_pos_bound first 32). pose proof (Z.div_mod first 32). rewrite lor_shift by lia. change (2 ^ 5) with 32.
  split; [split; [apply Z.div_pos; lia|apply Z.div_lt_upper_bound; lia]|]. lia.
Qed.

(** The head of a number that needs [width] bytes. *)
Lemma dec_head_wide major short width value rest : 0 <= major < 8 -> 24 <= short < 32 -> width_of short = Some width ->
  0 <= value < 256 ^ Z.of_nat width -> too_wide width value = false ->
  dec_head (Z.lor (Z.shiftl major 5) short :: big_endian width value ++ rest) = Some ((major, value), rest).
Proof.
  intros Hm Hs Hw Hv Ht. destruct (first_byte major short Hm ltac:(lia)) as (_ & E1 & E2). cbv zeta in E1, E2.
  destruct (big_endian_ok width value) as [_ El]. unfold dec_head. rewrite E1, E2, (proj2 (Z.ltb_ge _ _)), Hw by lia.
  rewrite length_app, El. rewrite (proj2 (Nat.ltb_ge _ _)) by lia. rewrite take_app_length', drop_app_length', from_to by done. by rewrite Ht.
Qed.

Lemma head_wide major short width value : width_of short = Some width -> 0 <= value < 256 ^ Z.of_nat width -> too_wide width value = false ->
  head major value = Z.lor (Z.shiftl major 5) short :: big_endian width value /\ value <= max_u64.
Proof.
  intros Hw Hv Ht. unfold width_of in Hw. unfold too_wide in Ht. unfold head, max_u64.
  repeat match type of Hw with context [if ?a =? ?b then _ else _] => destruct (Z.eqb_spec a b) as [->|] end; [..|done]; injection Hw as <-; cbn in Ht; cbn [Z.of_nat] in Hv;
    repeat match goal with |- context [if ?a <? ?b then _ else _] => destruct (Z.ltb_spec a b) | |- context [if ?a <=? ?b then _ else _] => destruct (Z.leb_spec a b) end; try lia; (split; [done|lia]).
Qed.

Lemma head_exact : decodes_exactly dec_head (fun x => head x.1 x.2) head_ok.
Proof.
  split.
  - intros [major value] rest [Hm Hv]. cbn in Hm, Hv |- *. unfold max_u64 in Hv. unfold head.
    repeat match goal with |- context [if ?a <? ?b then _ else _] => destruct (Z.ltb_spec a b) | |- context [if ?a <=? ?b then _ else _] => destruct (Z.leb_spec a b) end.
    + destruct (first_byte major value Hm ltac:(lia)) as (_ & E1 & E2). cbv zeta in E1, E2. cbn [app]. unfold dec_head. rewrite E1, E2, (proj2 (Z.ltb_lt _ _)) by lia. done.
    + cbn [app]. apply (dec_head_wide major 24 1); [done|lia|done|lia|]. unfold too_wide. cbn. lia.
    + cbn [app]. apply (dec_head_wide major 25 2); [done|lia|done|lia|]. unfold too_wide. cbn. lia.
    + cbn [app]. apply (dec_head_wide major 26 4); [done|lia|done|lia|]. unfold too_wide. cbn. lia.
    + cbn [app]. apply (dec_head_wide major 27 8); [done|lia|done|lia|]. unfold too_wide. cbn. lia.
  - intros l [major value] rest Hl H. destruct l as [|first l]; [done|]. apply Forall_cons in Hl as [Hf%is_byte_range Hl]. destruct (byte_split first Hf) as (H1 & H2 & E). cbv zeta in H1, H2, E.
    unfold dec_head in H. set (short := Z.land first 31) in *. destruct (Z.ltb_spec short 24).
    + injection H as <- <- <-. cbn. unfold head. rewrite (proj2 (Z.ltb_lt _ _)) by lia. cbn. split; [by rewrite E at 1|]. split; cbn; unfold max_u64; lia.
    + destruct (width_of short) as [width|] eqn:Ew; [|done]. destruct (length l <? width)%nat eqn:El; [done|]. apply Nat.ltb_ge in El.
      destruct (too_wide width _) eqn:Et; [done|]. injection H as <- <- <-. destruct (to_from (take width l)) as [H3 H4]; [by apply Forall_take|].
      rewrite length_take, Nat.min_l in H3, H4 by lia. set (value := from_big_endian (take width l)) in *. cbn [fst snd].
      assert (Hh : head (Z.shiftr first 5) value = first :: big_endian width value /\ value <= max_u64) by (rewrite E at 2; by apply head_wide).
      destruct Hh as [-> Hv]. split; [|split; cbn; lia]. rewrite H4. cbn. by rewrite take_drop.
Qed.

(** ** Numbers, arrays and texts *)

Lemma uint_exact : decodes_exactly dec_uint uintv (fun v => 0 <= v <= max_u64).
Proof.
  destruct head_exact as [H1 H2]. split.
  - intros v rest Hv. apply bind_decoded. exists (0, v), rest. split; [by apply (H1 (0, v))|done].
  - intros l v rest Hl ([major value] & l1 & Hh & H)%bind_decoded. apply bind_decoded in H as (u & l2 & [Hm%Z.eqb_eq ->]%require_decoded & [-> ->]%ret_decoded).
    cbn in Hm. subst major. destruct (H2 _ _ _ Hl Hh) as [-> [_ Hv]]. done.
Qed.

Lemma array_exact : decodes_exactly dec_array (head 4) (fun n => 0 <= n <= max_u64).
Proof.
  destruct head_exact as [H1 H2]. split.
  - intros v rest Hv. apply bind_decoded. exists (4, v), rest. split; [by apply (H1 (4, v))|done].
  - intros l v rest Hl ([major value] & l1 & Hh & H)%bind_decoded. apply bind_decoded in H as (u & l2 & [Hm%Z.eqb_eq ->]%require_decoded & [-> ->]%ret_decoded).
    cbn in Hm. subst major. destruct (H2 _ _ _ Hl Hh) as [-> [_ Hv]]. done.
Qed.

Definition text_ok (s : string) : Prop := ValidString s = true /\ len s <= max_u64.

Lemma text_exact : decodes_exactly dec_text text text_ok.
Proof.
  destruct head_exact as [H1 H2]. split.
  - intros s rest [Hs Hl]. unfold text. rewrite <- app_assoc. apply bind_decoded. exists (3, len s), (bytes s ++ rest). split.
    + apply (H1 (3, len s)). split; [done|]. unfold len in *. cbn. lia.
    + unfold dec_text_of, len. cbn [Z.eqb Pos.eqb negb orb]. rewrite length_app, length_bytes, (proj2 (Z.ltb_ge _ _)) by lia.
      rewrite Nat2Z.id, take_app_length', drop_app_length', of_bytes_bytes, Hs by (by rewrite length_bytes). done.
  - intros l s rest Hl ([major count] & l1 & Hh & H)%bind_decoded. destruct (H2 _ _ _ Hl Hh) as [-> [Hm Hc]]. cbn [fst snd] in *. unfold dec_text_of in H.
    destruct (Z.eqb_spec major 3) as [->|]; [|done]. cbn [negb orb] in H. destruct (Z.ltb_spec (Z.of_nat (length l1)) count); [done|].
    destruct (ValidString _) eqn:Ev; [|done]. injection H as <- <-. apply Forall_app in Hl as [_ Hl].
    assert (Hb : bytes (of_bytes (take (Z.to_nat count) l1)) = take (Z.to_nat count) l1) by (by apply bytes_ok_read, Forall_take).
    assert (El : len (of_bytes (take (Z.to_nat count) l1)) = count) by (unfold len; rewrite <- length_bytes, Hb, length_take; lia).
    split; [|split; [done|lia]]. unfold text. rewrite El, Hb, <- app_assoc. by rewrite take_drop.
Qed.

(** ** Sequences *)

Lemma ret_exact {A} (a : A) : decodes_exactly (mret a) (fun _ => []) (fun b => b = a).
Proof. split; [by intros b rest ->|]. intros l b rest _ [-> ->]%ret_decoded. done. Qed.

(** What is left of bytes is bytes. *)
Lemma exact_rest {A} (p : Decoder A) write good l a rest : decodes_exactly p write good -> bytes_ok l -> p l = Some (a, rest) -> bytes_ok rest.
Proof. intros [_ H] Hl Hp. destruct (H l a rest Hl Hp) as [-> _]. by apply Forall_app in Hl as [_ Hl]. Qed.

Lemma times_reads {A} (p : Decoder A) write l rest : (forall a rest, a ∈ l -> p (write a ++ rest) = Some (a, rest)) ->
  dec_times (length l) p (concat (write <$> l) ++ rest) = Some (l, rest).
Proof.
  induction l as [|a l IH]; intros H; [done|]. cbn. rewrite <- app_assoc. apply bind_decoded. exists a, (concat (write <$> l) ++ rest).
  split; [apply H; by left|]. apply bind_decoded. exists l, rest. split; [|done]. apply IH. intros. apply H. by right.
Qed.

Lemma times_exact {A} (p : Decoder A) write good count : decodes_exactly p write good ->
  decodes_exactly (dec_times count p) (fun l => concat (write <$> l)) (fun l => length l = count /\ Forall good l).
Proof.
  intros Hp. split; [intros l rest [<- Hl]; apply times_reads; intros a r Ha; apply Hp; by eapply Forall_forall|].
  induction count as [|count IH]; intros l a rest Hl; [by intros [<- ->]%ret_decoded|].
  intros (x & l1 & Hx & H)%bind_decoded. apply bind_decoded in H as (xs & l2 & Hxs & [<- ->]%ret_decoded).
  destruct (exa_only _ _ _ Hp _ _ _ Hl Hx) as [E1 Hg]. destruct (IH _ _ _ (exact_rest _ _ _ _ _ _ Hp Hl Hx) Hxs) as [E2 [E3 Hf]].
  cbn. rewrite <- app_assoc, <- E2. split; [done|]. split; [by f_equal|by constructor].
Qed.

(** A field and what follows it: in both directions. *)
Lemma read_field {A B} (p : Decoder A) (k : A -> Decoder B) write good a l b rest : decodes_exactly p write good -> good a ->
  k a l = Some (b, rest) -> (p ≫= k) (write a ++ l) = Some (b, rest).
Proof. intros Hp Ha Hk. apply bind_decoded. exists a, l. split; [by apply Hp|done]. Qed.

Lemma read_required {B} (c : bool) (k : unit -> Decoder B) l b rest : c = true -> k tt l = Some (b, rest) -> (require c ≫= k) l = Some (b, rest).
Proof. intros -> Hk. apply bind_decoded. by exists tt, l. Qed.

Lemma field_read {A B} (p : Decoder A) (k : A -> Decoder B) write good l b rest : decodes_exactly p write good -> bytes_ok l ->
  (p ≫= k) l = Some (b, rest) -> exists a l', l = write a ++ l' /\ good a /\ bytes_ok l' /\ k a l' = Some (b, rest).
Proof.
  intros Hp Hl (a & l' & H & Hk)%bind_decoded. destruct (exa_only _ _ _ Hp _ _ _ Hl H) as [-> Hg]. exists a, l'.
  split_and!; [done..| |done]. by apply Forall_app in Hl as [_ Hl].
Qed.

Lemma required_read {B} (c : bool) (k : unit -> Decoder B) l b rest : (require c ≫= k) l = Some (b, rest) -> c = true /\ k tt l = Some (b, rest).
Proof. intros ([] & l' & [-> ->]%require_decoded & Hk)%bind_decoded. done. Qed.

Lemma head_bytes major value : 0 <= major < 8 -> 0 <= value -> bytes_ok (head major value).
Proof.
  intros Hm Hv. assert (Hw : forall short, 0 <= short < 32 -> is_byte (Z.lor (Z.shiftl major 5) short) = true).
  { intros short Hs. apply is_byte_range. apply (first_byte major short Hm Hs). }
  unfold head. repeat match goal with |- context [if ?a <? ?b then _ else _] => destruct (Z.ltb_spec a b) | |- context [if ?a <=? ?b then _ else _] => destruct (Z.leb_spec a b) end;
    (constructor; [apply Hw; lia|]); solve [done | apply big_endian_ok].
Qed.

Lemma text_bytes s : bytes_ok (text s).
Proof. apply Forall_app. split; [apply head_bytes; unfold len; lia|apply bytes_ok_bytes]. Qed.

Example cbor_vectors : head 4 9 = [0x89] /\ uintv 24 = [0x18; 24] /\ uintv 1000 = [0x19; 3; 232] /\ uintv 1000000 = [0x1a; 0; 0x0f; 0x42; 0x40] /\
  uintv max_u64 = 0x1b :: replicate 8 255 /\ text "IETF" = [0x64; 0x49; 0x45; 0x54; 0x46].
Proof. by vm_compute. Qed.
