(* ===== verification/GoDecode.v ===== *)
(** * Decoding JSON into Go types

    What the runtime uses of [encoding/json] to read structs back: [json.Unmarshal]
    and [Decoder.Decode] into structs with tags, unsigned integers, byte slices (in
    base64), times, pointers, slices and maps.  A decoder takes the old value of the
    variable and is [None] where the package reports an error.  Elements of a slice
    start from the zero value; a key that occurs twice decodes into what is there. *)

From Stdlib Require Import Ascii String.
From S2P Require Import Prelude GoString GoTime GoJson GoJsonText.

Open Scope Z_scope.

Definition decoder (A : Type) : Type := A -> doc -> option A.

(** ** Leaves *)

Definition dec_string : decoder string := as_string.
Definition dec_bool : decoder bool := as_bool.

Definition number_value (digits : list Z) : Z := foldl (fun n c => 10 * n + (c - 48)) 0 digits.

(** [strconv.ParseUint(s, 10, 64)] *)
Definition ParseUint64 (l : list Z) : option Z :=
  if forallb is_digit l && negb (bool_decide (l = [])) then
    let n := number_value l in if n <=? max_u64 then Some n else None
  else None.

Definition dec_uint64 : decoder Z := fun old d =>
  match d with DNull => Some old | DNum text => ParseUint64 text | _ => None end.

(** ** Base64, [base64.StdEncoding] *)

Definition base64_alphabet : list Z := bytes "ABCDEFGHIJKLMNOPQRSTUVWXYZabcdefghijklmnopqrstuvwxyz0123456789+/".
Definition base64_digit (n : Z) : Z := nth (Z.to_nat n) base64_alphabet 0.

Fixpoint base64_encode (l : list Z) : list Z :=
  match l with
  | [] => []
  | [a] => [base64_digit (a / 4); base64_digit (a mod 4 * 16); 61; 61]
  | [a; b] => [base64_digit (a / 4); base64_digit (a mod 4 * 16 + b / 16); base64_digit (b mod 16 * 4); 61]
  | a :: b :: c :: l =>
    base64_digit (a / 4) :: base64_digit (a mod 4 * 16 + b / 16) :: base64_digit (b mod 16 * 4 + c / 64) :: base64_digit (c mod 64) ::
    base64_encode l
  end.

Definition base64_value (c : Z) : option Z :=
  if is_upper c then Some (c - 65)
  else if is_lower c then Some (c - 71)
  else if is_digit c then Some (c + 4)
  else if c =? 43 then Some 62
  else if c =? 47 then Some 63
  else None.

(** Groups of four; the last may be padded.  Bits beyond the last byte are ignored. *)
Fixpoint base64_groups (l : list Z) : option (list Z) :=
  match l with
  | [] => Some []
  | a :: b :: c :: d :: rest =>
    x ← base64_value a;
    y ← base64_value b;
    if c =? 61 then
      if (d =? 61) && bool_decide (rest = []) then Some [x * 4 + y / 16] else None
    else
      z ← base64_value c;
      if d =? 61 then
        if bool_decide (rest = []) then Some [x * 4 + y / 16; y mod 16 * 16 + z / 4] else None
      else
        t ← base64_value d;
        tail ← base64_groups rest;
        Some (x * 4 + y / 16 :: y mod 16 * 16 + z / 4 :: z mod 4 * 64 + t :: tail)
  | _ => None
  end.

(** Line ends are skipped. *)
Definition base64_decode (l : list Z) : option (list Z) := base64_groups (List.filter (fun c => negb ((c =? 10) || (c =? 13))) l).

(** A [[]byte]; [None] is nil. *)
Definition json_bytes (b : option string) : jval :=
  match b with Some s => JStr (of_bytes (base64_encode (bytes s))) | None => JNull end.

(** An element of a byte array written as numbers. *)
Definition dec_uint8 (d : doc) : option Z :=
  match d with DNull => Some 0 | DNum text => n ← ParseUint64 text; if n <=? 255 then Some n else None | _ => None end.

Definition dec_bytes : decoder (option string) := fun old d =>
  match d with
  | DNull => Some None
  | DStr body => (fun l => Some (of_bytes l)) <$> base64_decode (bytes (unquote body))
  | DArr l => (fun l => Some (of_bytes l)) <$> mapM dec_uint8 l
  | _ => None
  end.

(** ** Structs, pointers, slices and maps *)

Record field (A : Type) : Type := mkField { fld_name : string; fld_set : A -> doc -> option A }.
Arguments mkField {A} _ _.
Arguments fld_name {A} _.
Arguments fld_set {A} _ _ _.

(** A field of a struct decoded by [dec]. *)
Definition field_of {A B} (name : string) (dec : decoder B) (get : A -> B) (set : B -> A -> A) : field A :=
  mkField name (fun a d => (fun b => set b a) <$> dec (get a) d).

(** foldName: letters in upper case, and the two other runes that fold to a letter. *)
Definition fold_rune (r : Z) : Z :=
  if is_lower r then r - 32 else if r =? 0x17F then 83 else if r =? 0x212A then 75 else r.
Definition fold_name (s : string) : list Z := fold_rune <$> runes s.

(** The field of the name, or the first one whose name differs in case only. *)
Definition find_field {A} (name : string) (fields : list (field A)) : option (field A) :=
  match find_index (fun f => fld_name f ≟ name) fields with
  | Some (_, f) => Some f
  | None => snd <$> find_index (fun f => fold_name (fld_name f) ≟ fold_name name) fields
  end.

(** [lenient]: unknown fields are skipped; otherwise DisallowUnknownFields is set. *)
Definition dec_members {A} (lenient : bool) (fields : list (field A)) : list (list Z * doc) -> A -> option A :=
  fix go l a :=
    match l with
    | [] => Some a
    | (k, d) :: l =>
      match find_field (unquote k) fields with
      | Some f => match fld_set f a d with Some a => go l a | None => None end
      | None => if lenient then go l a else None
      end
    end.

Definition dec_struct {A} (lenient : bool) (fields : list (field A)) : decoder A := fun old d =>
  match d with
  | DNull => Some old
  | DObj members => dec_members lenient fields members old
  | _ => None
  end.

Definition dec_ptr {A} (zero : A) (dec : decoder A) : decoder (option A) := fun old d =>
  match d with DNull => Some None | _ => Some <$> dec (default zero old) d end.

(** [None] is a nil slice. *)
Definition dec_slice {A} (zero : A) (dec : decoder A) : decoder (option (list A)) := fun old d =>
  match d with DNull => Some None | DArr l => Some <$> mapM (dec zero) l | _ => None end.

(** [None] is a nil map. *)
Definition dec_map {A} (zero : A) (dec : decoder A) : decoder (option (gmap string A)) := fun old d =>
  match d with
  | DNull => Some None
  | DObj l => Some <$> foldl (fun m kd => m ← m; a ← dec zero kd.2; Some (<[unquote kd.1 := a]> m)) (Some (default ∅ old)) l
  | _ => None
  end.

(** A map with string keys: keys in sorted order. *)
Definition json_map {A} (enc : A -> jval) (m : gmap string A) : jval :=
  JObj ((fun k => (k, match m !! k with Some a => enc a | None => JNull end)) <$> sort_strings (map_to_list m).*1).

(** [omitempty] *)
Definition omit (empty : bool) (name : string) (v : jval) : list (string * jval) := if empty then [] else [(name, v)].

Example base64_vectors :
  (fun s => of_bytes (base64_encode (bytes s))) <$> [""; "f"; "fo"; "foo"; "foob"; "fooba"; "foobar"]
  = [""; "Zg=="; "Zm8="; "Zm9v"; "Zm9vYg=="; "Zm9vYmE="; "Zm9vYmFy"].
Proof. vm_compute. reflexivity. Qed.
