(* ===== verification/DecodeFacts.v ===== *)
(** * Round trips through JSON

    [carries enc dec zero k a]: the value [a] is encoded as a document of at most [k]
    levels, and decoding that document into a zero variable gives [a] back.  One lemma
    per kind of type; a struct carries its value when its fields, one after the other,
    fill in the zero struct ([fills]). *)

From stdpp Require Import pretty sorting.
From Stdlib Require Import Ascii String.
From S2P Require Import Prelude GoString Keys GoTime GoJson GoJsonText JsonFacts JsonStrings JsonValues GoDecode.

Open Scope Z_scope.

(** ** Valid UTF-8 *)

Lemma decode_go_valid l : forallb is_byte l = true ->
  forallb (fun rw => negb ((rw.1 =? RuneError) && (rw.2 =? 1)%nat)) (decode_go 0 l) = true -> utf8 l.
Proof.
  remember (length l) as n eqn:Hn. revert l Hn. induction (lt_wf n) as [n _ IH]; intros l -> Hb Hv.
  destruct l as [|c l]; [constructor|]. cbn [decode_go] in Hv. destruct (decode_rune (c :: l)) as [[r w]|] eqn:Hd.
  2: { exfalso. revert Hd. unfold decode_rune. repeat case_match; congruence. }
  assert (Hc : 0 <= c) by (simpl in Hb; apply andb_true_iff in Hb as [Hb _]; unfold is_byte, between in Hb; bools; lia).
  cbn [forallb fst snd] in Hv. apply andb_true_iff in Hv as [H1 H2]. apply (encode_decode c l r w Hc) in Hd as [(-> & -> & _)|(Hr & Hw & Ht)]; [done|].
  destruct (encode_nonempty r) as (x & xs & Ex).
  assert (Hcons : c :: l = encode_rune r ++ drop w (c :: l)) by (by rewrite <- Ht, take_drop).
  rewrite Hcons. constructor; [done|]. apply (IH (length (drop w (c :: l)))); [|done| |].
  - rewrite length_drop, Hw, Ex. simpl. lia.
  - rewrite Hcons, forallb_app in Hb. by apply andb_true_iff in Hb as [_ Hb].
  - rewrite decode_go_skip in H2. rewrite Hw, Ex in *. simpl in *. by rewrite Nat.pred_succ in H2 || exact H2.
Qed.

Lemma valid_utf8 s : ValidString s = true -> utf8 (bytes s).
Proof. apply decode_go_valid, bytes_are_bytes. Qed.

(** ** Numbers *)

Lemma number_value_app a b : number_value (a ++ b) = number_value a * 10 ^ Z.of_nat (length b) + number_value b.
Proof.
  unfold number_value. rewrite foldl_app. generalize (foldl (fun n c => 10 * n + (c - 48)) 0 a). intros n.
  revert n. induction b as [|c b IH] using rev_ind; intros n; [simpl; lia|].
  rewrite !foldl_app, length_app. simpl. rewrite IH, Nat2Z.inj_add, Z.pow_add_r by lia. simpl. lia.
Qed.

Lemma number_value_cons c l : number_value (c :: l) = (c - 48) * 10 ^ Z.of_nat (length l) + number_value l.
Proof. exact (number_value_app [c] l). Qed.

Lemma pretty_char_value x : (x < 10)%N -> byte_val (pretty_N_char x) = 48 + Z.of_N x.
Proof.
  intros H. assert (x = 0 \/ x = 1 \/ x = 2 \/ x = 3 \/ x = 4 \/ x = 5 \/ x = 6 \/ x = 7 \/ x = 8 \/ x = 9)%N as Hx by lia.
  by repeat destruct Hx as [->|Hx]; subst.
Qed.

Lemma pretty_value x s : number_value (bytes (pretty_N_go x s)) = Z.of_N x * 10 ^ Z.of_nat (length (bytes s)) + number_value (bytes s).
Proof.
  revert s. induction (N.lt_wf_0 x) as [x _ IH]; intros s. assert (x = 0 \/ 0 < x)%N as [->|Hx] by lia; [done|].
  rewrite pretty_N_go_step by done. rewrite IH by (by apply N.div_lt). cbn [bytes length].
  rewrite number_value_cons, pretty_char_value by (by apply N.mod_lt).
  rewrite Nat2Z.inj_succ, Z.pow_succ_r, N2Z.inj_div, N2Z.inj_mod by lia. pose proof (Z.div_mod (Z.of_N x) 10). nia.
Qed.

Lemma decimal_value n : 0 <= n -> number_value (bytes (decimal n)) = n.
Proof.
  intros Hn. unfold decimal, pretty, pretty_N. destruct (decide _) as [E|_]; [replace n with 0 by lia; done|].
  rewrite pretty_value. change (Z.of_N (Z.to_N n) * 1 + 0 = n). lia.
Qed.

Lemma pretty_head x s : (0 < x)%N -> exists c l, bytes (pretty_N_go x s) = c :: l /\ 49 <= c <= 57.
Proof.
  revert s. induction (N.lt_wf_0 x) as [x _ IH]; intros s Hx. rewrite pretty_N_go_step by done.
  assert (x < 10 \/ 10 <= x)%N as [Hs|Hl] by lia.
  - rewrite N.div_small, N.mod_small, pretty_N_go_0 by done. cbn [bytes]. do 2 eexists. split; [done|]. rewrite pretty_char_value by done. lia.
  - apply IH; [by apply N.div_lt|]. apply N.div_str_pos. lia.
Qed.

Lemma digits_run l : Forall (fun c => is_digit c = true) l -> number_run NInt l = true.
Proof. induction 1 as [|c l Hc _ IH]; [done|]. simpl. by rewrite Hc. Qed.

Lemma decimal_number n : 0 <= n -> isValidNumber (bytes (decimal n)) = true.
Proof.
  intros Hn. pose proof (decimal_digits n) as Hd. unfold decimal, pretty, pretty_N in *. destruct (decide _) as [E|Hne]; [done|].
  destruct (pretty_head (Z.to_N n) "") as (c & l & E & Hc); [lia|]. rewrite E in *. apply Forall_cons in Hd as [_ Hd].
  unfold isValidNumber, number_start, between. rewrite !(proj2 (Z.eqb_neq _ _)), !(proj2 (Z.leb_le _ _)) by lia. simpl. by apply digits_run.
Qed.

Lemma decimal_ParseUint64 n : 0 <= n <= max_u64 -> ParseUint64 (bytes (decimal n)) = Some n.
Proof.
  intros [Hn Hm]. unfold ParseUint64. rewrite decimal_value by done.
  replace (forallb is_digit (bytes (decimal n))) with true.
  2: { symmetry. apply forallb_forall. intros c Hc. pose proof (decimal_digits n) as Hd. rewrite Forall_forall in Hd. by apply Hd, list_elem_of_In. }
  rewrite bool_decide_eq_false_2; [by rewrite (proj2 (Z.leb_le _ _) Hm)|].
  intros E. pose proof (decimal_number n Hn) as H. by rewrite E in H.
Qed.

Definition u64_range (n : Z) : Prop := 0 <= n <= max_u64.

(** The strings and the numbers of a struct that its encoding keeps. *)
Definition texts (l : list string) : Prop := Forall (fun s => utf8 (bytes s)) l.
Definition numbers (l : list Z) : Prop := Forall u64_range l.

(** ** Base64 *)

Definition digit_values : bool := forallb (fun n => bool_decide (base64_value (base64_digit n) = Some n)) (seqZ 0 64).

Lemma base64_digit_value n : 0 <= n < 64 -> base64_value (base64_digit n) = Some n.
Proof.
  intros H. assert (Hc : digit_values = true) by (by vm_compute). unfold digit_values in Hc. rewrite forallb_forall in Hc.
  eapply bool_decide_eq_true_1, Hc, list_elem_of_In, elem_of_seqZ. lia.
Qed.

(** A digit is printable ASCII and not the padding. *)
Definition digits_plain : bool :=
  forallb (fun n => let c := base64_digit n in (32 <=? c) && (c <? 128) && negb ((c =? 61) || (c =? 34) || (c =? 92))) (seqZ 0 64).

Lemma base64_digit_plain n : 0 <= n < 64 -> 32 <= base64_digit n < 128 /\ base64_digit n <> 61 /\ base64_digit n <> 34 /\ base64_digit n <> 92.
Proof.
  intros H. assert (Hc : digits_plain = true) by (by vm_compute). unfold digits_plain in Hc. rewrite forallb_forall in Hc.
  specialize (Hc n). rewrite <- list_elem_of_In, elem_of_seqZ in Hc. specialize (Hc ltac:(lia)). cbn zeta in Hc. bools. lia.
Qed.

Definition plain64 (c : Z) : Prop := 32 <= c < 128.

Lemma base64_encode_plain l : forallb is_byte l = true -> Forall plain64 (base64_encode l).
Proof.
  remember (length l) as n eqn:Hn. revert l Hn. induction (lt_wf n) as [n _ IH]; intros l -> Hl. unfold plain64.
  assert (Hd : forall x, 0 <= x < 64 -> 32 <= base64_digit x < 128) by (intros x Hx; apply base64_digit_plain in Hx; lia).
  destruct l as [|a [|b [|c l]]]; simpl in Hl; unfold is_byte, between in Hl; bools; cbn [base64_encode];
    repeat (constructor; [first [lia | apply Hd; euclid]|]); [constructor..|].
  apply (IH (length l)); [simpl; lia|done..].
Qed.

Lemma base64_groups_encode l : forallb is_byte l = true -> base64_groups (base64_encode l) = Some l.
Proof.
  remember (length l) as n eqn:Hn. revert l Hn. induction (lt_wf n) as [n _ IH]; intros l -> Hl.
  destruct l as [|a [|b [|c l]]]; [done|..]; simpl in Hl; unfold is_byte, between in Hl; bools; cbn [base64_encode base64_groups];
    rewrite !base64_digit_value by euclid; cbn [mbind option_bind].
  - f_equal. f_equal. euclid.
  - rewrite (proj2 (Z.eqb_neq (base64_digit _) 61)) by (apply base64_digit_plain; euclid). simpl. do 2 f_equal; [euclid|]. f_equal. euclid.
  - rewrite !(proj2 (Z.eqb_neq (base64_digit _) 61)) by (apply base64_digit_plain; euclid). cbn [mbind option_bind].
    rewrite (IH (length l)) by (simpl; done || lia). cbn [mbind option_bind]. f_equal. f_equal; [euclid|]. f_equal; [euclid|]. f_equal. euclid.
Qed.

Lemma base64_roundtrip l : forallb is_byte l = true -> base64_decode (base64_encode l) = Some l.
Proof.
  intros Hl. transitivity (base64_groups (base64_encode l)); [|by apply base64_groups_encode]. unfold base64_decode. f_equal.
  induction (base64_encode_plain l Hl) as [|c m Hc _ IH]; [done|]. unfold plain64 in Hc. simpl.
  rewrite (proj2 (Z.eqb_neq c 10)), (proj2 (Z.eqb_neq c 13)) by lia. simpl. by rewrite IH.
Qed.

Lemma utf8_ascii l : Forall (fun c => 0 <= c < 128) l -> utf8 l.
Proof. induction 1 as [|c l Hc _ IH]; [constructor|]. replace (c :: l) with (encode_rune c ++ l) by (by rewrite encode_ascii). by apply utf8_encode. Qed.

Lemma utf8_concat a b : utf8 a -> utf8 b -> utf8 (a ++ b).
Proof. induction 1 as [|r l Hr _ IH]; intros Hb; [done|]. rewrite <- app_assoc. constructor; auto. Qed.

(** ** Values that survive *)

Definition carries {A} (enc : A -> jval) (dec : decoder A) (zero : A) (k : nat) (a : A) : Prop :=
  exists d, prints (enc a) d /\ (forall n, (n + k <= maxNestingDepth)%nat -> doc_ok n d = true) /\ dec zero d = Some a.

Lemma carries_mono {A} (enc : A -> jval) dec zero k k' a : (k <= k')%nat -> carries enc dec zero k a -> carries enc dec zero k' a.
Proof. intros Hk (d & H1 & H2 & H3). exists d. split_and!; [done| |done]. intros n Hn. apply H2. lia. Qed.

Lemma prints_string s : prints (JStr s) (DStr (escape_body (bytes s))).
Proof. unfold prints. cbn [marshal]. by rewrite json_string_body. Qed.

Lemma carries_string k s : utf8 (bytes s) -> carries JStr dec_string "" k s.
Proof.
  intros Hs. exists (DStr (escape_body (bytes s))). split_and!; [apply prints_string| |].
  - intros n _. by apply escape_body_ok.
  - cbn. by rewrite unquote_key.
Qed.

Lemma carries_bool k b : carries JBool dec_bool false k b.
Proof. exists (DBool b). split_and!; [|done..]. unfold prints. simpl. by rewrite of_bytes_bytes. Qed.

Lemma carries_uint64 k n : 0 <= n <= max_u64 -> carries JNum dec_uint64 0 k n.
Proof.
  intros Hn. exists (DNum (bytes (decimal n))). split_and!.
  - unfold prints. cbn [marshal print]. unfold json_int. rewrite (proj2 (Z.ltb_ge n 0)) by lia. by rewrite of_bytes_bytes.
  - intros m _. apply decimal_number. lia.
  - by apply decimal_ParseUint64.
Qed.

Lemma carries_bytes k b : carries json_bytes dec_bytes None k b.
Proof.
  destruct b as [s|]; [|by exists DNull]. pose proof (bytes_are_bytes s) as Hs. pose proof (base64_encode_plain _ Hs) as Hp.
  assert (Hb : bytes (of_bytes (base64_encode (bytes s))) = base64_encode (bytes s)).
  { apply bytes_of_bytes, forallb_forall. intros c Hc%list_elem_of_In. rewrite Forall_forall in Hp. apply Hp in Hc. unfold plain64, is_byte, between in *.
    apply andb_true_iff. rewrite !Z.leb_le. lia. }
  assert (Hu : utf8 (bytes (of_bytes (base64_encode (bytes s))))).
  { rewrite Hb. apply utf8_ascii. eapply Forall_impl; [exact Hp|]. unfold plain64. intros c Hc. lia. }
  exists (DStr (escape_body (bytes (of_bytes (base64_encode (bytes s)))))). split_and!; [apply prints_string| |].
  - intros n _. by apply escape_body_ok.
  - cbn [dec_bytes]. rewrite unquote_key, Hb, base64_roundtrip by done. cbn. by rewrite of_bytes_bytes.
Qed.

(** The same for a value that is encoded as an object. *)
Definition carries_object {A} (enc : A -> jval) (dec : decoder A) (zero : A) (k : nat) (a : A) : Prop :=
  exists l, prints (enc a) (DObj l) /\ (forall n, (n + k <= maxNestingDepth)%nat -> doc_ok n (DObj l) = true) /\ dec zero (DObj l) = Some a.

Lemma carries_object_carries {A} (enc : A -> jval) dec zero k a : carries_object enc dec zero k a -> carries enc dec zero k a.
Proof. intros (l & H). by exists (DObj l). Qed.

Lemma carries_ptr {A} (enc : A -> jval) dec zero k p :
  (forall a, p = Some a -> carries_object enc dec zero k a) -> carries (json_ptr enc) (dec_ptr zero dec) None k p.
Proof.
  intros H. destruct p as [a|]; [|by exists DNull]. destruct (H a eq_refl) as (l & H1 & H2 & H3). exists (DObj l). split_and!; [done..|].
  unfold dec_ptr. cbn [default]. by rewrite H3.
Qed.

Lemma carries_all {A} (enc : A -> jval) dec zero k l :
  Forall (carries enc dec zero k) l ->
  exists ds, Forall2 prints (enc <$> l) ds /\ (forall n, (n + k <= maxNestingDepth)%nat -> forallb (doc_ok n) ds = true) /\ mapM (dec zero) ds = Some l.
Proof.
  induction 1 as [|a l (d & H1 & H2 & H3) _ (ds & G1 & G2 & G3)]; [exists []; split_and!; [constructor|done..]|].
  exists (d :: ds). split_and!; [by constructor| |].
  - intros n Hn. simpl. by rewrite H2, G2.
  - simpl. by rewrite H3, G3.
Qed.

(** A slice that is not nil. *)
Definition json_slice {A} (enc : A -> jval) (o : option (list A)) : jval := match o with Some l => JArr (enc <$> l) | None => JNull end.

Lemma carries_slice {A} (enc : A -> jval) dec zero k o :
  (forall l, o = Some l -> Forall (carries enc dec zero k) l) -> carries (json_slice enc) (dec_slice zero dec) None (S k) o.
Proof.
  intros H. destruct o as [l|]; [|by exists DNull]. destruct (carries_all _ _ _ _ _ (H l eq_refl)) as (ds & H1 & H2 & H3).
  exists (DArr ds). split_and!; [by apply prints_arr| |].
  - intros n Hn. simpl. rewrite (proj2 (Nat.ltb_lt n maxNestingDepth)) by lia. apply H2. lia.
  - simpl. by rewrite H3.
Qed.

(** ** Structs *)

Lemma dec_members_app {A} lenient (fields : list (field A)) l l' a :
  dec_members lenient fields (l ++ l') a = match dec_members lenient fields l a with Some a => dec_members lenient fields l' a | None => None end.
Proof.
  revert a. induction l as [|[k d] l IH]; intros a; [done|]. simpl. destruct (find_field (unquote k) fields); [destruct (fld_set _ _ _)|destruct lenient]; auto.
Qed.

(** The fields [l] of an encoded struct take the value [a] to [a']. *)
Definition fills {A} (lenient : bool) (fields : list (field A)) (k : nat) (l : list (string * jval)) (a a' : A) : Prop :=
  exists ds, Forall2 prints_field l ds /\
    (forall n, (n + k <= maxNestingDepth)%nat -> forallb (fun kd => body_ok kd.1 && doc_ok n kd.2) ds = true) /\
    dec_members lenient fields ds a = Some a'.

Lemma fills_nil {A} lenient (fields : list (field A)) k a : fills lenient fields k [] a a.
Proof. exists []. by split_and!. Qed.

Lemma fills_app {A} lenient (fields : list (field A)) k l l' a a' a'' :
  fills lenient fields k l a a' -> fills lenient fields k l' a' a'' -> fills lenient fields k (l ++ l') a a''.
Proof.
  intros (ds & H1 & H2 & H3) (ds' & G1 & G2 & G3). exists (ds ++ ds'). split_and!; [by apply Forall2_app| |].
  - intros n Hn. rewrite forallb_app. by rewrite H2, G2.
  - by rewrite dec_members_app, H3.
Qed.

Lemma fills_cons {A B} lenient (fields : list (field A)) k name enc (dec : decoder B) get set b l a a' :
  ValidString name = true -> find_field name fields = Some (field_of name dec get set) -> carries enc dec (get a) k b ->
  fills lenient fields k l (set b a) a' -> fills lenient fields k ((name, enc b) :: l) a a'.
Proof.
  intros Hu%valid_utf8 Hf (d & H1 & H2 & H3) (ds & G1 & G2 & G3). exists ((escape_body (bytes name), d) :: ds). split_and!.
  - by constructor.
  - intros n Hn. simpl. by rewrite escape_body_ok, H2, G2.
  - simpl. rewrite unquote_key, Hf by done. simpl. by rewrite H3.
Qed.

(** A field with [omitempty] that is left out keeps its zero value. *)
Lemma fills_omit {A B} lenient (fields : list (field A)) k (empty : bool) name enc (dec : decoder B) get set b l a a' :
  ValidString name = true -> find_field name fields = Some (field_of name dec get set) ->
  (empty = false -> carries enc dec (get a) k b) -> (empty = true -> set b a = a) ->
  fills lenient fields k l (set b a) a' -> fills lenient fields k (omit empty name (enc b) ++ l) a a'.
Proof.
  intros Hu Hf Hc He Hl. destruct empty; simpl; [by rewrite He in Hl|]. by eapply fills_cons; [..|apply Hc|].
Qed.

Lemma fills_struct {A} lenient (fields : list (field A)) k (enc : A -> jval) l zero a :
  enc a = JObj l -> fills lenient fields k l zero a -> carries_object enc (dec_struct lenient fields) zero (S k) a.
Proof.
  intros E (ds & H1 & H2 & H3). exists ds. split_and!; [rewrite E; by apply prints_obj| |done].
  intros n Hn. simpl. rewrite (proj2 (Nat.ltb_lt n maxNestingDepth)) by lia. apply H2. lia.
Qed.

(** One more field of a struct. *)
Ltac fill := eapply fills_cons; [reflexivity|reflexivity| |].
Ltac fill_omit := eapply fills_omit; [reflexivity|reflexivity| | |].

(** ** Maps *)

Lemma dec_map_members {A} (dec : decoder A) zero l m ms :
  Forall2 (fun ka kd => unquote kd.1 = ka.1 /\ dec zero kd.2 = Some ka.2) l ms ->
  foldl (fun m kd => m ← m; a ← dec zero kd.2; Some (<[unquote kd.1 := a]> m)) (Some m) ms =
  Some (foldl (fun (m : gmap string A) ka => <[ka.1 := ka.2]> m) m l).
Proof.
  intros H. revert m. induction H as [|[k a] [b d] l ms [Hk Hd] _ IH]; intros m; [done|]. cbn [foldl fst snd mbind option_bind] in *.
  rewrite Hd. cbn [mbind option_bind]. by rewrite Hk, IH.
Qed.

Lemma foldl_inserts {A} (l : list (string * A)) : foldl (fun (m : gmap string A) ka => <[ka.1 := ka.2]> m) ∅ l = list_to_map (reverse l).
Proof.
  induction l as [|[k a] l IH] using rev_ind; [done|]. rewrite foldl_app, IH, reverse_app. done.
Qed.

(** The members of a map in the order in which it is encoded. *)
Lemma json_map_members {A} (enc : A -> jval) (m : gmap string A) :
  exists l, l ≡ₚ map_to_list m /\ json_map enc m = JObj ((fun ka => (ka.1, enc ka.2)) <$> l).
Proof.
  assert (Hs : sort_strings (map_to_list m).*1 ≡ₚ map fst (map_to_list m)) by apply merge_sort_Permutation.
  apply Permutation_map_inv in Hs as (l & E & Hp).
  exists l. split; [done|]. unfold json_map. rewrite E. f_equal. change (map fst l) with l.*1. rewrite <- list_fmap_compose.
  apply list_fmap_ext. intros i [k a] Hi. simpl. replace (m !! k) with (Some a); [done|]. symmetry. apply elem_of_map_to_list.
  rewrite Hp. by eapply list_elem_of_lookup_2.
Qed.

Definition json_map_ptr {A} (enc : A -> jval) (o : option (gmap string A)) : jval := match o with Some m => json_map enc m | None => JNull end.

Lemma carries_map {A} (enc : A -> jval) dec zero k o :
  (forall m, o = Some m -> map_Forall (fun key a => utf8 (bytes key) /\ carries enc dec zero k a) m) ->
  carries (json_map_ptr enc) (dec_map zero dec) None (S k) o.
Proof.
  intros H. destruct o as [m|]; [|by exists DNull]. specialize (H m eq_refl). destruct (json_map_members enc m) as (l & Hp & E).
  assert (Hl : Forall (fun ka => utf8 (bytes ka.1) /\ carries enc dec zero k ka.2) l).
  { rewrite Hp. apply Forall_forall. intros [key a] Hk%elem_of_map_to_list. exact (H _ _ Hk). }
  assert (Hds : exists ds, Forall2 prints_field ((fun ka => (ka.1, enc ka.2)) <$> l) ds /\
    (forall n, (n + k <= maxNestingDepth)%nat -> forallb (fun kd => body_ok kd.1 && doc_ok n kd.2) ds = true) /\
    Forall2 (fun ka kd => unquote kd.1 = ka.1 /\ dec zero kd.2 = Some ka.2) l ds).
  { clear -Hl. induction Hl as [|[key a] l [Hu (d & H1 & H2 & H3)] _ (ds & G1 & G2 & G3)]; [exists []; split_and!; [constructor|done|constructor]|].
    exists ((escape_body (bytes key), d) :: ds). split_and!; [by constructor| |constructor; [|done]].
    - intros n Hn. simpl. by rewrite escape_body_ok, H2, G2.
    - simpl in *. by rewrite unquote_key. }
  destruct Hds as (ds & H1 & H2 & H3). exists (DObj ds). split_and!.
  - unfold json_map_ptr. rewrite E. by apply prints_obj.
  - intros n Hn. simpl. rewrite (proj2 (Nat.ltb_lt n maxNestingDepth)) by lia. apply H2. lia.
  - cbn [dec_map default]. rewrite (dec_map_members _ _ _ _ _ H3), foldl_inserts. simpl. do 2 f_equal.
    rewrite <- (list_to_map_to_list m). apply list_to_map_proper; [|by rewrite reverse_Permutation].
    rewrite reverse_Permutation, Hp. apply NoDup_fst_map_to_list.
Qed.

(** What a value is read back as from its text. *)
Lemma carries_parse {A} (enc : A -> jval) dec zero k a : carries enc dec zero k a -> (k <= maxNestingDepth)%nat ->
  exists text d, marshal (enc a) = Some text /\ parse text = Some d /\ dec zero d = Some a.
Proof.
  intros (d & H1 & H2 & H3) Hk. exists (of_bytes (print d)), d. split_and!; [done| |done]. apply parse_print, H2. lia.
Qed.
