(* ===== verification/TimeText.v ===== *)
(** * Reading RFC 3339 times

    [Time.UnmarshalJSON] as the standard library reads times out of JSON, and that it
    reads back what [MarshalJSON] wrote for a time in UTC. *)

From stdpp Require Import pretty.
From Stdlib Require Import Ascii String.
From S2P Require Import Prelude GoString Keys GoTime GoJson GoJsonText JsonFacts JsonStrings JsonValues GoDecode DecodeFacts.

Open Scope Z_scope.

(** ** Parsing *)

Definition leap (y : Z) : bool := (y mod 4 =? 0) && (negb (y mod 100 =? 0) || (y mod 400 =? 0)).

(** daysIn *)
Definition daysIn (m y : Z) : Z :=
  if m =? 2 then (if leap y then 29 else 28)
  else if (m =? 4) || (m =? 6) || (m =? 9) || (m =? 11) then 30 else 31.

(** Days from 0001-01-01 to a date, as [time.Date] counts them. *)
Definition days_of (y m d : Z) : Z :=
  let y' := if m <=? 2 then y - 1 else y in
  let mp := (m + 9) mod 12 in
  let yoe := y' mod 400 in
  y' / 400 * 146097 + (yoe * 365 + yoe / 4 - yoe / 100 + ((153 * mp + 2) / 5 + d - 1)) - 306.

(** parseUint: digits of a number within bounds. *)
Definition parse_field (min max : Z) (l : list Z) : option Z :=
  if forallb is_digit l then let x := number_value l in if (min <=? x) && (x <=? max) then Some x else None else None.

(** The digits at the front of a list, and the rest. *)
Fixpoint digits_of (l : list Z) : list Z * list Z :=
  match l with
  | c :: l' => if is_digit c then let '(d, rest) := digits_of l' in (c :: d, rest) else ([], l)
  | [] => ([], [])
  end.

(** The nanoseconds, and what follows them: a point and at least one digit, of which
    nine count. *)
Definition parse_fraction (l : list Z) : Z * list Z :=
  match l with
  | 46 :: l' =>
    match digits_of l' with
    | ([], _) => (0, l)
    | (ds, rest) => let ds := take 9 ds in (number_value ds * 10 ^ (9 - Z.of_nat (length ds)), rest)
    end
  | _ => (0, l)
  end.

(** The zone in minutes. *)
Definition parse_zone (l : list Z) : option Location :=
  match l with
  | [90] => Some UTC
  | [sign; h1; h2; 58; m1; m2] =>
    if (sign =? 43) || (sign =? 45) then
      h ← parse_field 0 23 [h1; h2];
      m ← parse_field 0 59 [m1; m2];
      let o := h * 60 + m in Some (Zone (if sign =? 45 then - o else o))
    else None
  | _ => None
  end.

Definition second : Z := 1000000000.

(** parseStrictRFC3339 *)
Definition parse_rfc3339 (l : list Z) : option Time :=
  match l with
  | y1 :: y2 :: y3 :: y4 :: 45 :: m1 :: m2 :: 45 :: d1 :: d2 :: 84 :: h1 :: h2 :: 58 :: n1 :: n2 :: 58 :: s1 :: s2 :: rest =>
    y ← parse_field 0 9999 [y1; y2; y3; y4];
    m ← parse_field 1 12 [m1; m2];
    d ← parse_field 1 (daysIn m y) [d1; d2];
    h ← parse_field 0 23 [h1; h2];
    n ← parse_field 0 59 [n1; n2];
    s ← parse_field 0 59 [s1; s2];
    let '(nanos, rest) := parse_fraction rest in
    zone ← parse_zone rest;
    Some (mkTime ((days_of y m d * 86400 + h * 3600 + n * 60 + s) * second + nanos - zone_offset zone) zone)
  | _ => None
  end.

(** The text between the quotes is read as it is. *)
Definition dec_time : decoder Time := fun old d =>
  match d with DNull => Some old | DStr body => parse_rfc3339 body | _ => None end.

(** ** The calendar *)

(** The year and the day of an era of 400 years that begins on March 1. *)
Definition year_of_era (doe : Z) : Z := (doe - doe / 1460 + doe / 36524 - doe / 146096) / 365.
Definition day_of_year (doe : Z) : Z := let yoe := year_of_era doe in doe - (365 * yoe + yoe / 4 - yoe / 100).

Lemma year_of_era_range doe : 0 <= doe < 146097 -> 0 <= year_of_era doe < 400 /\ 0 <= day_of_year doe <= 365.
Proof. intros H. unfold day_of_year, year_of_era. Z.to_euclidean_division_equations. lia. Qed.

(** The last day is a February 29. *)
Lemma last_day_leap doe : 0 <= doe < 146097 -> day_of_year doe = 365 -> leap (year_of_era doe + 1) = true.
Proof.
  intros H Hd. unfold leap. set (y := year_of_era doe) in *.
  assert (H4 : (y + 1) mod 4 = 0) by (unfold day_of_year in Hd; subst y; unfold year_of_era in *; Z.to_euclidean_division_equations; lia).
  assert (H100 : (y + 1) mod 100 <> 0 \/ (y + 1) mod 400 = 0)
    by (unfold day_of_year in Hd; subst y; unfold year_of_era in *; Z.to_euclidean_division_equations; lia).
  rewrite H4. destruct H100 as [H1|H1]; [rewrite (proj2 (Z.eqb_neq _ _) H1)|rewrite H1, orb_true_r]; done.
Qed.

(** Month and day of a day of such a year. *)
Definition month_checked (doy : Z) : bool :=
  let mp := (5 * doy + 2) / 153 in
  let d := doy - (153 * mp + 2) / 5 + 1 in
  let m := if mp <? 10 then mp + 3 else mp - 9 in
  (1 <=? m) && (m <=? 12) && (1 <=? d) && (d <=? (if doy =? 365 then 29 else daysIn m 1)) &&
  ((153 * ((m + 9) mod 12) + 2) / 5 + d - 1 =? doy) && (if doy =? 365 then m =? 2 else true) && Bool.eqb (mp <? 10) (2 <? m).

Lemma months_checked doy : 0 <= doy <= 365 -> month_checked doy = true.
Proof.
  intros H. assert (Hc : forallb month_checked (seqZ 0 366) = true) by (vm_compute; reflexivity).
  rewrite forallb_forall in Hc. apply Hc, list_elem_of_In, elem_of_seqZ. lia.
Qed.

Lemma daysIn_era m y k : daysIn m (y + k * 400) = daysIn m y.
Proof.
  unfold daysIn, leap. replace ((y + k * 400) mod 4) with (y mod 4) by (rewrite <- (Z.mod_add y (k * 100) 4) by lia; f_equal; lia).
  replace ((y + k * 400) mod 100) with (y mod 100) by (rewrite <- (Z.mod_add y (k * 4) 100) by lia; f_equal; lia).
  by rewrite Z.mod_add by lia.
Qed.

Lemma daysIn_leap m y : daysIn m 1 <= daysIn m y /\ (leap y = true -> m = 2 -> daysIn m y = 29).
Proof. unfold daysIn. destruct (m =? 2) eqn:E; [destruct (leap y)|]; split; try done; bools; lia. Qed.

(** The date of a day is a date, and counts that day. *)
Lemma civil_date days y m d : civil days = (y, m, d) -> 1 <= m <= 12 /\ 1 <= d <= daysIn m y /\ days_of y m d = days.
Proof.
  pose proof (Z.mod_pos_bound (days + 306) 146097 eq_refl) as Hb. pose proof (Z.div_mod (days + 306) 146097 ltac:(lia)) as Hdm.
  unfold civil. set (doe := (days + 306) mod 146097) in *. set (era := (days + 306) / 146097) in *.
  change ((doe - doe / 1460 + doe / 36524 - doe / 146096) / 365) with (year_of_era doe).
  change (doe - (365 * year_of_era doe + year_of_era doe / 4 - year_of_era doe / 100)) with (day_of_year doe).
  destruct (year_of_era_range doe Hb) as [Hy Hd]. pose proof (months_checked _ Hd) as Hm. pose proof (last_day_leap doe Hb) as Hl.
  unfold month_checked in Hm. cbn zeta. set (mp := (5 * day_of_year doe + 2) / 153) in *.
  set (mm := if mp <? 10 then mp + 3 else mp - 9) in *. set (dd := day_of_year doe - (153 * mp + 2) / 5 + 1) in *.
  intros [= <- <- <-]. bools. rewrite (Z.leb_antisym 2 mm).
  assert (Hdays : days_of (year_of_era doe + era * 400 + (if negb (2 <? mm) then 1 else 0)) mm dd = days).
  { unfold days_of. rewrite (Z.leb_antisym 2 mm). set (y' := if negb (2 <? mm) then _ else _).
    assert (y' = year_of_era doe + era * 400) as -> by (subst y'; destruct (2 <? mm); simpl; lia).
    rewrite Z.mod_add, Z.div_add, Z.mod_small, Z.div_small by lia. unfold day_of_year in *. cbn zeta in *. lia. }
  split; [lia|]. split; [|done].
  destruct (day_of_year doe =? 365) eqn:E; bools.
  - assert (mm = 2) as Em by lia. rewrite Em in *. simpl. replace (year_of_era doe + era * 400 + 1) with (year_of_era doe + 1 + era * 400) by lia.
    rewrite daysIn_era. rewrite (proj2 (daysIn_leap 2 (year_of_era doe + 1)) (Hl (proj1 (Z.eqb_eq _ _) E)) eq_refl). lia.
  - pose proof (proj1 (daysIn_leap mm (year_of_era doe + era * 400 + (if negb (2 <? mm) then 1 else 0)))). lia.
Qed.

(** ** Round trip *)

Definition digits (l : list Z) : Prop := Forall (fun c => is_digit c = true) l.

Lemma digit_range c : is_digit c = true <-> 48 <= c <= 57.
Proof. unfold is_digit, between. rewrite andb_true_iff, !Z.leb_le. lia. Qed.

Lemma number_value_range l : digits l -> 0 <= number_value l < 10 ^ Z.of_nat (length l).
Proof.
  induction 1 as [|c l Hc _ IH]; [done|]. rewrite number_value_cons. apply digit_range in Hc. simpl length. rewrite Nat2Z.inj_succ, Z.pow_succ_r by lia. nia.
Qed.

Lemma decimal_lower n : 0 < n -> 10 ^ (Z.of_nat (length (bytes (decimal n))) - 1) <= n.
Proof.
  intros Hn. pose proof (decimal_value n ltac:(lia)) as Hv. pose proof (decimal_digits n) as Hd. unfold decimal, pretty, pretty_N in *.
  destruct (decide _); [lia|]. destruct (pretty_head (Z.to_N n) "") as (c & l & E & Hc); [lia|]. rewrite E in *.
  rewrite number_value_cons in Hv. apply Forall_cons in Hd as [_ Hd]. pose proof (number_value_range l Hd). simpl length.
  replace (Z.of_nat (S (length l)) - 1) with (Z.of_nat (length l)) by lia. nia.
Qed.

Lemma decimal_length n k : 0 < n -> 10 ^ (k - 1) <= n < 10 ^ k -> 0 < k -> Z.of_nat (length (bytes (decimal n))) = k.
Proof.
  intros Hn Hk Hk0. pose proof (decimal_lower n Hn) as Hl. pose proof (number_value_range _ (decimal_digits n)) as [_ Hu].
  rewrite decimal_value in Hu by lia. set (len := Z.of_nat (length (bytes (decimal n)))) in *.
  assert (len - 1 < k) by (apply (Z.pow_lt_mono_r_iff 10); lia). assert (k - 1 < len) by (apply (Z.pow_lt_mono_r_iff 10); lia). lia.
Qed.

(** Text of a number in a field of the given width. *)
Definition field_text (width : nat) (n : Z) (l : list Z) : Prop := length l = width /\ digits l /\ number_value l = n.

Lemma padded k n : 0 <= n -> digits (replicate k 48 ++ bytes (decimal n)) /\ number_value (replicate k 48 ++ bytes (decimal n)) = n.
Proof.
  intros Hn. split; [apply Forall_app; split; [by apply Forall_replicate|apply decimal_digits]|].
  rewrite number_value_app, decimal_value by done. replace (number_value (replicate k 48)) with 0; [lia|].
  induction k as [|k IH]; [done|]. simpl replicate. rewrite number_value_cons, <- IH. lia.
Qed.

Lemma padded_field k n width : 0 <= n -> Z.of_nat k + Z.of_nat (length (bytes (decimal n))) = Z.of_nat width ->
  field_text width n (replicate k 48 ++ bytes (decimal n)).
Proof. intros Hn Hl. destruct (padded k n Hn) as [H1 H2]. split; [|done]. rewrite length_app, length_replicate. lia. Qed.

Lemma decimal_small n : 0 <= n < 10 -> Z.of_nat (length (bytes (decimal n))) = 1.
Proof. intros Hn. destruct (decide (n = 0)) as [->|]; [done|]. apply decimal_length; simpl; lia. Qed.

Lemma pad2_text n : 0 <= n < 100 -> field_text 2 n (bytes (pad2 n)).
Proof.
  intros Hn. unfold pad2. destruct (n <? 10) eqn:E; bools; rewrite bytes_app.
  - apply (padded_field 1); [lia|]. rewrite decimal_small by lia. done.
  - apply (padded_field 0); [lia|]. rewrite (decimal_length n 2); lia.
Qed.

Lemma pad4_text n : 0 <= n < 10000 -> field_text 4 n (bytes (pad4 n)).
Proof.
  intros Hn. unfold pad4. destruct (n <? 10) eqn:E1; [|destruct (n <? 100) eqn:E2; [|destruct (n <? 1000) eqn:E3]]; bools; rewrite bytes_app.
  - apply (padded_field 3); [lia|]. rewrite decimal_small by lia. done.
  - apply (padded_field 2); [lia|]. rewrite (decimal_length n 2); lia.
  - apply (padded_field 1); [lia|]. rewrite (decimal_length n 3); lia.
  - apply (padded_field 0); [lia|]. rewrite (decimal_length n 4); lia.
Qed.

Lemma parse_field_text width min max n l : field_text width n l -> min <= n <= max -> parse_field min max l = Some n.
Proof.
  intros (_ & Hd & Hv) Hn. unfold parse_field. rewrite Hv. replace (forallb is_digit l) with true.
  - by rewrite !(proj2 (Z.leb_le _ _)) by lia.
  - symmetry. apply forallb_forall. intros c Hc%list_elem_of_In. unfold digits in Hd. rewrite Forall_forall in Hd. by apply Hd.
Qed.

Lemma fraction_text w n : 0 <= n < 10 ^ Z.of_nat w ->
  let ds := bytes (fraction_digits w n) in
  digits ds /\ (length ds <= w)%nat /\ number_value ds * 10 ^ (Z.of_nat w - Z.of_nat (length ds)) = n /\ (n <> 0 -> ds <> []).
Proof.
  revert n. induction w as [|w IH]; intros n Hn.
  { change (0 <= n < 1) in Hn. cbn. split_and!; [by apply Forall_nil|done|lia|lia]. }
  cbn [fraction_digits].
  destruct (n =? 0) eqn:E; [apply Z.eqb_eq in E as ->|apply Z.eqb_neq in E].
  { cbn [bytes]. split_and!; [by apply Forall_nil|simpl; lia|reflexivity|done]. }
  rewrite Nat2Z.inj_succ, Z.pow_succ_r in Hn by lia. set (p := 10 ^ Z.of_nat w) in *. assert (Hp : 0 < p) by (apply Z.pow_pos_nonneg; lia).
  assert (Hq : 0 <= n / p < 10) by (split; [apply Z.div_pos; lia|apply Z.div_lt_upper_bound; lia]).
  destruct (IH (n mod p)) as (H1 & H2 & H3 & _); [by apply Z.mod_pos_bound|].
  pose proof (decimal_small (n / p) Hq) as Hl. pose proof (decimal_value (n / p) ltac:(lia)) as Hv. cbn zeta. rewrite bytes_app.
  split_and!.
  - apply Forall_app. split; [apply decimal_digits|done].
  - rewrite length_app. lia.
  - rewrite number_value_app, Hv, length_app, Nat2Z.inj_add, Hl. set (k := Z.of_nat (length (bytes (fraction_digits w (n mod p))))) in *.
    replace (Z.of_nat (S w) - (1 + k)) with (Z.of_nat w - k) by lia. rewrite Z.mul_add_distr_r, H3, <- Z.mul_assoc, <- Z.pow_add_r by lia.
    replace (k + (Z.of_nat w - k)) with (Z.of_nat w) by lia. fold p. pose proof (Z.div_mod n p). lia.
  - intros _ E'. apply app_eq_nil in E' as [E' _]. by rewrite E' in Hl.
Qed.

Lemma digits_of_app ds rest c : digits ds -> is_digit c = false -> digits_of (ds ++ c :: rest) = (ds, c :: rest).
Proof. intros Hd Hc. induction Hd as [|x ds Hx _ IH]; simpl; [by rewrite Hc|]. by rewrite Hx, IH. Qed.

Lemma parse_fraction_text nanos : 0 <= nanos < 1000000000 ->
  parse_fraction (bytes ((if nanos =? 0 then EmptyString else "." +:+ fraction_digits 9 nanos) +:+ "Z")) = (nanos, [90]).
Proof.
  intros Hn. destruct (nanos =? 0) eqn:E; [by apply Z.eqb_eq in E as ->|apply Z.eqb_neq in E]. destruct (fraction_text 9 nanos Hn) as (H1 & H2 & H3 & H4). cbn zeta in *.
  rewrite !bytes_app. change (bytes "." ++ bytes (fraction_digits 9 nanos)) with (46 :: bytes (fraction_digits 9 nanos)). change (bytes "Z") with [90].
  cbn [app parse_fraction].
  rewrite digits_of_app by done. destruct (bytes (fraction_digits 9 nanos)) as [|c ds] eqn:Eds; [by destruct H4|]. rewrite <- Eds in *.
  cbn zeta. rewrite take_ge by lia. f_equal. exact H3.
Qed.

Lemma text2 n l : field_text 2 n l -> exists a b, l = [a; b].
Proof. intros (H & _). destruct l as [|a [|b []]]; try done. by exists a, b. Qed.

Lemma text4 n l : field_text 4 n l -> exists a b c d, l = [a; b; c; d].
Proof. intros (H & _). destruct l as [|a [|b [|c [|d []]]]]; try done. by exists a, b, c, d. Qed.

Lemma parse_text_fields y m d h n s nanos ys ms ds hs ns ss :
  field_text 4 y ys -> field_text 2 m ms -> field_text 2 d ds -> field_text 2 h hs -> field_text 2 n ns -> field_text 2 s ss ->
  0 <= y <= 9999 -> 1 <= m <= 12 -> 1 <= d <= daysIn m y -> 0 <= h <= 23 -> 0 <= n <= 59 -> 0 <= s <= 59 -> 0 <= nanos < 1000000000 ->
  parse_rfc3339 (ys ++ 45 :: ms ++ 45 :: ds ++ 84 :: hs ++ 58 :: ns ++ 58 :: ss ++
                 bytes ((if nanos =? 0 then EmptyString else "." +:+ fraction_digits 9 nanos) +:+ "Z")) =
  Some (mkTime ((days_of y m d * 86400 + h * 3600 + n * 60 + s) * second + nanos) UTC).
Proof.
  intros Hys Hms Hds Hhs Hns Hss Hy Hm Hd Hh Hn Hs Hf.
  destruct (text4 y ys Hys) as (y1 & y2 & y3 & y4 & ->), (text2 m ms Hms) as (m1 & m2 & ->), (text2 d ds Hds) as (d1 & d2 & ->).
  destruct (text2 h hs Hhs) as (h1 & h2 & ->), (text2 n ns Hns) as (n1 & n2 & ->), (text2 s ss Hss) as (s1 & s2 & ->).
  cbn [app parse_rfc3339]. rewrite (parse_field_text 4 0 9999 y), (parse_field_text 2 1 12 m) by done. cbn [mbind option_bind].
  rewrite (parse_field_text 2 1 _ d), (parse_field_text 2 0 23 h), (parse_field_text 2 0 59 n [n1; n2]), (parse_field_text 2 0 59 s [s1; s2]) by done.
  cbn [mbind option_bind]. rewrite parse_fraction_text by done. cbn [parse_zone mbind option_bind zone_offset]. do 2 f_equal. lia.
Qed.

(** The text of a time in UTC, field by field. *)
Lemma rfc3339_fields t s : isUTC t = true -> rfc3339 t = Some s -> exists y m d h n sec nanos ys ms ds hs ns ss,
  bytes s = ys ++ 45 :: ms ++ 45 :: ds ++ 84 :: hs ++ 58 :: ns ++ 58 :: ss ++
            bytes ((if nanos =? 0 then EmptyString else "." +:+ fraction_digits 9 nanos) +:+ "Z") /\
  field_text 4 y ys /\ field_text 2 m ms /\ field_text 2 d ds /\ field_text 2 h hs /\ field_text 2 n ns /\ field_text 2 sec ss /\
  0 <= y <= 9999 /\ 1 <= m <= 12 /\ 1 <= d <= daysIn m y /\ 0 <= h <= 23 /\ 0 <= n <= 59 /\ 0 <= sec <= 59 /\ 0 <= nanos < 1000000000 /\
  t = mkTime ((days_of y m d * 86400 + h * 3600 + n * 60 + sec) * second + nanos) UTC.
Proof.
  destruct t as [i loc]. unfold isUTC, rfc3339. cbn [instant location]. intros ->%bool_decide_eq_true. cbn [zone_offset zone_text]. rewrite Z.add_0_r.
  destruct (civil (i / (24 * Hour))) as [[y m] d] eqn:Ec. destruct (civil_date _ _ _ _ Ec) as (Hm & Hd & Hdays).
  destruct (_ || _) eqn:Eg; [done|]. intros <-%(inj Some). rewrite !orb_false_iff, !Z.ltb_ge in Eg. destruct Eg as [[Hy1 Hy2] _].
  assert (Hdi : daysIn m y <= 31) by (unfold daysIn; repeat case_match; lia).
  pose proof (Z.div_mod i (24 * Hour) ltac:(done)) as Hi. pose proof (Z.mod_pos_bound i (24 * Hour) eq_refl) as Hr.
  set (rest := i mod (24 * Hour)) in *. set (secs := rest / 1000000000) in *.
  assert (Hs : 0 <= secs < 86400) by (unfold Hour in Hr; subst secs; Z.to_euclidean_division_equations; lia).
  set (frac := (if rest mod 1000000000 =? 0 then "" else "." +:+ fraction_digits 9 (rest mod 1000000000)) +:+ "Z").
  exists y, m, d, (secs / 3600), (secs mod 3600 / 60), (secs mod 60), (rest mod 1000000000).
  exists (bytes (pad4 y)), (bytes (pad2 m)), (bytes (pad2 d)), (bytes (pad2 (secs / 3600))), (bytes (pad2 (secs mod 3600 / 60))), (bytes (pad2 (secs mod 60))).
  split; [subst frac; rewrite !bytes_app; reflexivity|].
  split_and!; try apply pad4_text; try apply pad2_text; try (Z.to_euclidean_division_equations; lia).
  f_equal. rewrite Hdays. unfold second, Hour in *. subst secs. Z.to_euclidean_division_equations. lia.
Qed.

(** What [MarshalJSON] writes for a time in UTC is read back as that time. *)
Lemma rfc3339_roundtrip t s : isUTC t = true -> rfc3339 t = Some s -> parse_rfc3339 (bytes s) = Some t.
Proof.
  intros Hu Hs. destruct (rfc3339_fields t s Hu Hs) as (y & m & d & h & n & sec & nanos & ys & ms & ds & hs & ns & ss & -> & H). destruct_and!. subst t. by apply parse_text_fields.
Qed.

(** The characters of a time are not escaped. *)
Definition time_char (c : Z) : Prop := 45 <= c <= 58 \/ c = 84 \/ c = 90.

Lemma escape_time l : Forall time_char l -> utf8 l /\ escape_body l = l.
Proof.
  induction 1 as [|c l Hc _ [IH1 IH2]]; [split; [constructor|done]|]. unfold time_char in Hc.
  assert (E : c :: l = encode_rune c ++ l) by (by rewrite encode_ascii by lia). rewrite E.
  assert (Hv : valid_rune c = true) by (apply valid_rune_bounds; lia). split; [by constructor|].
  rewrite escape_body_rune, IH2 by done. f_equal. apply escaped_plain; [done|]. unfold escaped_runes. rewrite !not_elem_of_cons. split_and!; lia || apply not_elem_of_nil.
Qed.

Lemma time_digits l : digits l -> Forall time_char l.
Proof. intros H. eapply Forall_impl; [exact H|]. intros c Hc%digit_range. left. lia. Qed.

Lemma time_literal s : forallb (fun c => (45 <=? c) && (c <=? 58) || (c =? 84) || (c =? 90)) (bytes s) = true -> Forall time_char (bytes s).
Proof.
  intros H. apply Forall_forall. intros c Hc. rewrite forallb_forall in H. specialize (H c (proj1 (list_elem_of_In _ _) Hc)).
  rewrite !orb_true_iff, andb_true_iff, !Z.leb_le, !Z.eqb_eq in H. unfold time_char. lia.
Qed.

Lemma time_app a b : Forall time_char (bytes a) -> Forall time_char (bytes b) -> Forall time_char (bytes (a +:+ b)).
Proof. intros Ha Hb. rewrite bytes_app. by apply Forall_app. Qed.

Lemma time_decimal n : Forall time_char (bytes (decimal n)).
Proof. apply time_digits, decimal_digits. Qed.

Lemma rfc3339_chars t s : isUTC t = true -> rfc3339 t = Some s -> Forall time_char (bytes s).
Proof.
  destruct t as [i loc]. unfold isUTC, rfc3339. cbn [instant location]. intros ->%bool_decide_eq_true. cbn [zone_offset zone_text].
  assert (H2 : forall n, Forall time_char (bytes (pad2 n))).
  { intros n. apply time_app; [|apply time_decimal]. by destruct (n <? 10); apply time_literal. }
  assert (H4 : forall n, Forall time_char (bytes (pad4 n))).
  { intros n. apply time_app; [|apply time_decimal]. by destruct (n <? 10); [|destruct (n <? 100); [|destruct (n <? 1000)]]; apply time_literal. }
  assert (Hf : forall w n, Forall time_char (bytes (fraction_digits w n))).
  { intros w. induction w as [|w IH]; intros n; cbn [fraction_digits]; [constructor|]. destruct (n =? 0); [constructor|].
    apply time_app; [apply time_decimal|apply IH]. }
  destruct (civil _) as [[y m] d]. destruct (_ || _); [done|]. intros <-%(inj Some).
  do 11 (apply time_app; [first [apply H4|apply H2|by apply time_literal]|]). apply time_app; [|by apply time_literal].
  destruct (_ =? 0); [constructor|]. apply time_app; [by apply time_literal|apply Hf].
Qed.

Definition time_ok (t : Time) : Prop := isUTC t = true /\ is_Some (rfc3339 t).

Lemma carries_time k t : time_ok t -> carries json_time dec_time zeroTime k t.
Proof.
  intros [Hu [s Hs]]. destruct (escape_time (bytes s) (rfc3339_chars t s Hu Hs)) as [H8 He].
  exists (DStr (escape_body (bytes s))). unfold json_time. rewrite Hs. split_and!; [apply prints_string| |].
  - intros n _. by apply escape_body_ok.
  - cbn [dec_time]. rewrite He. by apply rfc3339_roundtrip.
Qed.

(** ** [time.Parse] and [Time.Format] with [time.RFC3339Nano] *)

(** The hour may have one digit (getnum). *)
Definition parse_hour (l : list Z) : option (Z * list Z) :=
  match l with
  | a :: b :: l' => if is_digit a && is_digit b then (fun h => (h, l')) <$> parse_field 0 23 [a; b] else (fun h => (h, b :: l')) <$> parse_field 0 23 [a]
  | _ => None
  end.

(** The fraction may begin with a comma. *)
Definition parse_nanos (l : list Z) : Z * list Z :=
  match l with
  | 44 :: l' => let '(nanos, rest) := parse_fraction (46 :: l') in if bool_decide (rest = 46 :: l') then (0, l) else (nanos, rest)
  | _ => parse_fraction l
  end.

(** The times in UTC: [time.Parse], when the location of its result is [time.UTC], which is
    when the zone is written Z. *)
Definition ParseUTC (l : list Z) : option Time :=
  match l with
  | y1 :: y2 :: y3 :: y4 :: 45 :: m1 :: m2 :: 45 :: d1 :: d2 :: 84 :: rest =>
    y ← parse_field 0 9999 [y1; y2; y3; y4];
    m ← parse_field 1 12 [m1; m2];
    d ← parse_field 1 (daysIn m y) [d1; d2];
    '(h, rest) ← parse_hour rest;
    match rest with
    | 58 :: n1 :: n2 :: 58 :: s1 :: s2 :: rest =>
      n ← parse_field 0 59 [n1; n2];
      s ← parse_field 0 59 [s1; s2];
      let '(nanos, rest) := parse_nanos rest in
      if bool_decide (rest = [90]) then Some (mkTime ((days_of y m d * 86400 + h * 3600 + n * 60 + s) * second + nanos) UTC) else None
    | _ => None
    end
  | _ => None
  end.

Lemma parse_nanos_text nanos : 0 <= nanos < 1000000000 ->
  parse_nanos (bytes ((if nanos =? 0 then EmptyString else "." +:+ fraction_digits 9 nanos) +:+ "Z")) = (nanos, [90]).
Proof. intros H. etrans; [|by apply parse_fraction_text]. by destruct (nanos =? 0). Qed.

Lemma parse_utc_fields y m d h n s nanos ys ms ds hs ns ss :
  field_text 4 y ys -> field_text 2 m ms -> field_text 2 d ds -> field_text 2 h hs -> field_text 2 n ns -> field_text 2 s ss ->
  0 <= y <= 9999 -> 1 <= m <= 12 -> 1 <= d <= daysIn m y -> 0 <= h <= 23 -> 0 <= n <= 59 -> 0 <= s <= 59 -> 0 <= nanos < 1000000000 ->
  ParseUTC (ys ++ 45 :: ms ++ 45 :: ds ++ 84 :: hs ++ 58 :: ns ++ 58 :: ss ++
            bytes ((if nanos =? 0 then EmptyString else "." +:+ fraction_digits 9 nanos) +:+ "Z")) =
  Some (mkTime ((days_of y m d * 86400 + h * 3600 + n * 60 + s) * second + nanos) UTC).
Proof.
  intros Hys Hms Hds Hhs Hns Hss Hy Hm Hd Hh Hn Hs Hf.
  destruct (text4 y ys Hys) as (y1 & y2 & y3 & y4 & ->), (text2 m ms Hms) as (m1 & m2 & ->), (text2 d ds Hds) as (d1 & d2 & ->).
  destruct (text2 h hs Hhs) as (h1 & h2 & ->), (text2 n ns Hns) as (n1 & n2 & ->), (text2 s ss Hss) as (s1 & s2 & ->).
  cbn [app ParseUTC]. rewrite (parse_field_text 4 0 9999 y), (parse_field_text 2 1 12 m) by done. cbn [mbind option_bind].
  rewrite (parse_field_text 2 1 _ d) by done. cbn [mbind option_bind parse_hour]. assert (E : is_digit h1 && is_digit h2 = true) by (destruct Hhs as (_ & [? [? _]%Forall_cons]%Forall_cons & _); by apply andb_true_iff).
  rewrite E, (parse_field_text 2 0 23 h) by done. cbn [fmap option_fmap option_map mbind option_bind].
  rewrite (parse_field_text 2 0 59 n [n1; n2]), (parse_field_text 2 0 59 s [s1; s2]) by done. cbn [mbind option_bind]. by rewrite parse_nanos_text.
Qed.

(** [Format]: unlike [MarshalJSON], it has a text for every year. *)
Definition year_text (y : Z) : string := if y <? 0 then "-" +:+ pad4 (- y) else pad4 y.
Definition FormatUTC (t : Time) : string :=
  let days := instant t / (24 * Hour) in
  let rest := instant t mod (24 * Hour) in
  let secs := rest / 1000000000 in
  let nanos := rest mod 1000000000 in
  let '(y, m, d) := civil days in
  year_text y +:+ "-" +:+ pad2 m +:+ "-" +:+ pad2 d +:+ "T" +:+
  pad2 (secs / 3600) +:+ ":" +:+ pad2 (secs mod 3600 / 60) +:+ ":" +:+ pad2 (secs mod 60) +:+
  (if nanos =? 0 then EmptyString else "." +:+ fraction_digits 9 nanos) +:+ "Z".

Lemma format_rfc3339 t s : isUTC t = true -> rfc3339 t = Some s -> FormatUTC t = s.
Proof.
  destruct t as [i loc]. unfold isUTC, rfc3339, FormatUTC. cbn [instant location]. intros ->%bool_decide_eq_true. cbn [zone_offset zone_text]. rewrite Z.add_0_r.
  destruct (civil _) as [[y m] d]. destruct (_ || _) eqn:Eg; [done|]. intros <-%(inj Some). rewrite !orb_false_iff, !Z.ltb_ge in Eg. unfold year_text. by rewrite (proj2 (Z.ltb_ge _ _)) by lia.
Qed.

Lemma parse_format t : time_ok t -> ParseUTC (bytes (FormatUTC t)) = Some t.
Proof.
  intros [Hu [s Hs]]. rewrite (format_rfc3339 t s Hu Hs).
  destruct (rfc3339_fields t s Hu Hs) as (y & m & d & h & n & sec & nanos & ys & ms & ds & hs & ns & ss & -> & H). destruct_and!. subst t. by apply parse_utc_fields.
Qed.

Lemma format_utf8 t : time_ok t -> utf8 (bytes (FormatUTC t)).
Proof. intros [Hu [s Hs]]. rewrite (format_rfc3339 t s Hu Hs). by apply escape_time, (rfc3339_chars t). Qed.

(** What only the lenient parser reads, and a year that is written and not read. *)
Example parse_lenient :
  ParseUTC (bytes "2024-02-29T2:34:56,5Z") = ParseUTC (bytes "2024-02-29T02:34:56.5Z") /\ parse_rfc3339 (bytes "2024-02-29T2:34:56,5Z") = None /\
  ParseUTC (bytes "2024-02-29T02:34:56+00:00") = None /\ ParseUTC (bytes (FormatUTC (mkTime (4000000 * 24 * Hour) UTC))) = None.
Proof. by vm_compute. Qed.
