(* ===== verification/ToolSchema.v ===== *)
(** * Tool input schemas

    internal/toolschema/schema.go: the bounded object-schema profile of the tool
    catalog, the validation of arguments against it, and the canonical forms of
    both.  Errors carry nothing but their text, so a fallible function is an option
    and a validator is a bool.  The general profile delegates to a third-party
    JSON-Schema compiler, the argument [compile]: it compiles a decoded document to
    a validator of decoded arguments, or fails. *)

From Stdlib Require Import Ascii String.
From S2P Require Import Prelude GoString GoJson GoJsonText.

Open Scope Z_scope.

Definition VersionV1 : string := "agent-runtime.tool-input/v1".
Definition VersionV2 : string := "agent-runtime.tool-input/v2".

(** [map[string]json.RawMessage] *)
Notation object := (gmap string doc).

Definition maximumSchemaBytes : Z := 49152.

(** [json.Unmarshal(raw, &m) != nil || m == nil] *)
Definition non_nil_map (d : doc) : option object := match as_map d with Some m => m | None => None end.

Definition schemaType (schema : object) : string :=
  match schema !! "type" with Some raw => default "" (as_string "" raw) | None => "" end.

(** [if raw, ok := schema[key]; ok { if bad(raw) { return error } }] *)
Definition absent_or (schema : object) (key : string) (p : doc -> bool) : bool :=
  match schema !! key with Some raw => p raw | None => true end.

Definition only_keys (allowed : list string) (schema : object) : bool :=
  forallb (fun kd => bool_decide (kd.1 ∈ allowed)) (map_to_list schema).

(** ** Schemas

    A schema at depth [16 - below]; [child] checks the schemas one level down. *)

Definition object_schema (child : object -> bool) (schema : object) : bool :=
  (schemaType schema ≟ "object") &&
  only_keys ["type"; "properties"; "required"; "additionalProperties"] schema &&
  absent_or schema "properties" (fun raw =>
    match as_map raw with
    | Some properties =>
      forallb (fun np => negb ((np.1 ≟ "") || (128 <? len np.1)) &&
                         match non_nil_map np.2 with Some schema => child schema | None => false end)
              (map_to_list (default ∅ properties))
    | None => false
    end) &&
  absent_or schema "required" (fun raw => bool_decide (is_Some (as_strings raw))) &&
  absent_or schema "additionalProperties" (fun raw => bool_decide (is_Some (as_bool false raw))).

Definition value_types : list string := ["string"; "boolean"; "number"; "integer"; "object"; "array"].

(** [room] is 17 minus the depth: none is left at a depth above 16. *)
Fixpoint validateValueSchema (room : nat) (schema : object) : bool :=
  match room with
  | O => false
  | S below =>
    let typeName := schemaType schema in
    bool_decide (typeName ∈ value_types) &&
    only_keys ["type"; "enum"; "properties"; "required"; "additionalProperties"; "items"] schema &&
    absent_or schema "enum" (fun raw => match as_list raw with Some values => negb (bool_decide (values = [])) | None => false end) &&
    (if typeName ≟ "object" then object_schema (validateValueSchema below) schema
     else if typeName ≟ "array" then
       match schema !! "items" with
       | Some raw => match non_nil_map raw with Some item => validateValueSchema below item | None => false end
       | None => false
       end
     else true)
  end.

Definition validateObjectSchema (room : nat) (schema : object) : bool :=
  match room with O => false | S below => object_schema (validateValueSchema below) schema end.

(** The room at depth 0. *)
Definition room0 : nat := 17.

(** ** Arguments *)

(** Whether the arguments [value] of an object match; [child] checks the property
    values. *)
Definition object_value (child : object -> doc -> bool) (schema : object) (value : object) : bool :=
  (schemaType schema ≟ "object") &&
  match (match schema !! "properties" with Some raw => default ∅ <$> as_map raw | None => Some ∅ end) with
  | None => false
  | Some properties =>
    absent_or schema "required" (fun raw =>
      match as_strings raw with
      | Some required => forallb (fun name => bool_decide (is_Some (value !! name))) required
      | None => false
      end) &&
    match (match schema !! "additionalProperties" with Some raw => as_bool true raw | None => Some true end) with
    | None => false
    | Some additional =>
      forallb (fun nr =>
        match properties !! nr.1 with
        | None => additional
        | Some property => match non_nil_map property with Some schema => child schema nr.2 | None => false end
        end) (map_to_list value)
    end
  end.

(** [compact]: the tokens of a raw value; equal exactly for equal documents. *)
Definition compact (raw : doc) : list Z := print raw.

Fixpoint validateValue (room : nat) (schema : object) (raw : doc) : bool :=
  match room with
  | O => false
  | S below =>
    absent_or schema "enum" (fun choices =>
      match as_list choices with
      | Some values => existsb (fun choice => compact choice ≟ compact raw) values
      | None => false
      end) &&
    (let typeName := schemaType schema in
     if typeName ≟ "string" then bool_decide (is_Some (as_string "" raw))
     else if typeName ≟ "boolean" then bool_decide (is_Some (as_bool false raw))
     else if typeName ≟ "number" then bool_decide (is_Some (as_number raw))
     else if typeName ≟ "integer" then
       match as_number raw with Some v => bool_decide (is_Some (ParseInt64 v)) | None => false end
     else if typeName ≟ "object" then
       match non_nil_map raw, below with
       | Some v, S below => object_value (validateValue below) schema v
       | _, _ => false
       end
     else if typeName ≟ "array" then
       match as_list raw with
       | Some values =>
         match schema !! "items" with
         | Some items =>
           match non_nil_map items with
           | Some item => forallb (validateValue below item) values
           | None => false
           end
         | None => false
         end
       | None => false
       end
     else false)
  end.

Definition validateObject (room : nat) (schema : object) (value : object) : bool :=
  match room with O => false | S below => object_value (validateValue below) schema value end.

(** ** The general profile *)

Fixpoint hasExternalReference (value : any) : bool :=
  match value with
  | AMap l => existsb (fun kv => (kv.1 ≟ "$schema") || (kv.1 ≟ "$ref") || (kv.1 ≟ "$dynamicRef") || hasExternalReference kv.2) l
  | AArray l => existsb hasExternalReference l
  | _ => false
  end.

(** [decoder.Decode(&v); err != nil || decoder.More()] *)
Definition decode_any (raw : string) : option any :=
  match read_value start (bytes raw) with
  | Some (d, rest) => if more rest then None else Some (as_any d)
  | None => None
  end.

Section general.
Context (compile : any -> option (any -> bool)).

Definition compileGeneralSchema (raw : string) : option (any -> bool) :=
  match decode_any raw with Some document => compile document | None => None end.

Definition canonicalGeneralSchema (raw : string) : option string :=
  match decode_any raw with
  | Some (AMap members as schema) =>
    if hasExternalReference schema then None else
    match marshal (json_any schema) with
    | Some canonical =>
      if (maximumSchemaBytes <? len canonical) then None
      else match compileGeneralSchema canonical with Some _ => Some canonical | None => None end
    | None => None
    end
  | _ => None
  end.

Definition emptySchema : string := of_bytes (bytes "{" ++ quoted (bytes "additionalProperties") ++ bytes ":false," ++
  quoted (bytes "type") ++ bytes ":" ++ quoted (bytes "object") ++ bytes "}").

(** The version and the canonical text of the schema. *)
Definition CanonicalSchema (version raw : string) : option (string * string) :=
  if (version ≟ "") && (raw ≟ "") then Some (VersionV1, emptySchema)
  else if (raw ≟ "") || (maximumSchemaBytes <? len raw) then None
  else if version ≟ VersionV2 then (fun canonical => (VersionV2, canonical)) <$> canonicalGeneralSchema raw
  else if version ≠? VersionV1 then None
  else
    d ← parse raw;
    schema ← non_nil_map d;
    if negb (validateObjectSchema room0 schema) then None else
    canonical ← marshal (json_raw_map schema);
    if maximumSchemaBytes <? len canonical then None else Some (VersionV1, canonical).

Definition CanonicalArguments (version schemaRaw argumentsRaw : string) : option string :=
  '(canonicalVersion, schemaRaw) ← CanonicalSchema version schemaRaw;
  let argumentsRaw := if argumentsRaw ≟ "" then "{}" else argumentsRaw in
  if maximumSchemaBytes <? len argumentsRaw then None else
  d ← parse argumentsRaw;
  arguments ← non_nil_map d;
  if canonicalVersion ≟ VersionV2 then
    validate ← compileGeneralSchema schemaRaw;
    generalArguments ← decode_any argumentsRaw;
    if negb (validate generalArguments) then None else marshal (json_raw_map arguments)
  else
    document ← parse schemaRaw;
    match as_map document with
    | None => None
    | Some schema =>
      if negb (validateObject room0 (default ∅ schema) arguments) then None else marshal (json_raw_map arguments)
    end.

End general.
