(* ===== verification/ToolSchemaTheorems.v ===== *)
(** * Tool input schemas: theorems

    Canonical schemas and canonical arguments are fixed points of the functions that
    produce them; the validator of arguments decides the declarative relation
    [conforms], up to its bound on nesting. *)

From stdpp Require Import sorting.
From Stdlib Require Import Ascii String.
From S2P Require Import Prelude GoString Keys GoJson GoJsonText JsonFacts JsonStrings JsonValues ToolSchema.

Open Scope Z_scope.

(** ** Decoding is blind to the added escapes *)

Notation html_map := (fmap (M := gmap string) html).

Definition good (d : doc) : Prop := exists depth, doc_ok depth d = true.

Lemma html_as_string old d : good d -> as_string old (html d) = as_string old d.
Proof. intros [depth H]. destruct d; try done. simpl in *. by rewrite unquote_html. Qed.

Lemma html_as_bool old d : as_bool old (html d) = as_bool old d.
Proof. by destruct d. Qed.

Lemma html_as_number d : good d -> as_number (html d) = as_number d.
Proof. intros [depth H]. destruct d; try done. simpl in *. by rewrite unquote_html. Qed.

Lemma html_as_list d : as_list (html d) = option_map (fmap html) (as_list d).
Proof. by destruct d. Qed.

Lemma good_list d l : good d -> as_list d = Some l -> Forall good l.
Proof.
  intros [depth H] Hl. destruct d; try done; simpl in Hl; injection Hl as <-; [constructor|].
  simpl in H. apply andb_true_iff in H as [_ H]. rewrite forallb_forall in H. apply Forall_forall. intros x Hx%list_elem_of_In.
  exists (S depth). auto.
Qed.

Lemma html_as_strings d : good d -> as_strings (html d) = as_strings d.
Proof.
  intros Hd. unfold as_strings. rewrite html_as_list. destruct (as_list d) as [l|] eqn:Hl; [|done]. simpl.
  apply (good_list _ _ Hd) in Hl. induction Hl as [|x l Hx _ IH]; [done|].
  change ((y ← as_string "" (html x); k ← mapM (as_string "") (html <$> l); mret (y :: k)) =
          (y ← as_string "" x; k ← mapM (as_string "") l; mret (y :: k))).
  by rewrite html_as_string, IH.
Qed.

Lemma html_as_map d : good d -> as_map (html d) = option_map (option_map html_map) (as_map d).
Proof.
  intros [depth H]. destruct d as [| | | | |l]; try done. simpl in *. apply andb_true_iff in H as [_ H]. do 2 f_equal.
  rewrite forallb_forall in H. assert (Hl : Forall (fun kd => body_ok kd.1 = true) l).
  { apply Forall_forall. intros kd Hkd%list_elem_of_In. by apply H, andb_true_iff in Hkd as [? _]. }
  clear H. induction l as [|kd l IH] using rev_ind; [symmetry; apply fmap_empty|].
  apply Forall_app in Hl as [Hl Hkd%Forall_inv]. rewrite fmap_app, !foldl_app, IH by done. cbn [fmap list_fmap foldl fst snd].
  by rewrite unquote_html, fmap_insert.
Qed.

Definition good_map (m : object) : Prop := map_Forall (fun _ d => good d) m.

Lemma good_as_map d m : good d -> as_map d = Some (Some m) -> good_map m.
Proof.
  intros [depth H] Hm. destruct d as [| | | | |l]; try done. injection Hm as <-. simpl in H. apply andb_true_iff in H as [_ H].
  rewrite forallb_forall in H. assert (Hl : Forall (fun kd => good kd.2) l).
  { apply Forall_forall. intros kd Hkd%list_elem_of_In. apply H, andb_true_iff in Hkd as [_ ?]. by exists (S depth). }
  clear H. induction l as [|kd l IH] using rev_ind; [apply map_Forall_empty|].
  apply Forall_app in Hl as [Hl Hkd%Forall_inv]. rewrite foldl_app. cbn [foldl]. by apply map_Forall_insert_2, IH.
Qed.

Lemma html_non_nil_map d : good d -> non_nil_map (html d) = option_map html_map (non_nil_map d).
Proof. intros H. unfold non_nil_map. rewrite html_as_map by done. by destruct (as_map d) as [[m|]|]. Qed.

Lemma good_non_nil_map d m : good d -> non_nil_map d = Some m -> good_map m.
Proof. intros H Hm. unfold non_nil_map in Hm. destruct (as_map d) as [[m'|]|] eqn:E; try done. injection Hm as ->. by eapply good_as_map. Qed.

Lemma forallb_map_to_list (p : string * doc -> bool) (m : object) : forallb p (map_to_list m) = true <-> map_Forall (fun k d => p (k, d) = true) m.
Proof.
  rewrite forallb_forall. split.
  - intros H k d Hd. apply H, list_elem_of_In. by apply elem_of_map_to_list.
  - intros H [k d] Hkd%list_elem_of_In%elem_of_map_to_list. by apply H.
Qed.

Lemma forallb_html (p q : string * doc -> bool) (m : object) :
  map_Forall (fun k d => p (k, html d) = q (k, d)) m -> forallb p (map_to_list (html <$> m)) = forallb q (map_to_list m).
Proof.
  intros H. apply eq_bool_prop_intro. rewrite !Is_true_true, !forallb_map_to_list. split.
  - intros Hp k d Hd. rewrite <- (H k d Hd). apply Hp. by rewrite lookup_fmap, Hd.
  - intros Hq k d Hd. rewrite lookup_fmap, fmap_Some in Hd. destruct Hd as (d' & Hd' & ->). rewrite (H k d' Hd'). by apply Hq.
Qed.

(** ** Schemas *)

Lemma html_schemaType m : good_map m -> schemaType (html <$> m) = schemaType m.
Proof.
  intros H. unfold schemaType. rewrite lookup_fmap. destruct (m !! "type") as [d|] eqn:E; [|done]. simpl.
  rewrite html_as_string; [done|]. by eapply H.
Qed.

Lemma html_absent_or m key p q :
  good_map m -> (forall d, good d -> p (html d) = q d) -> absent_or (html <$> m) key p = absent_or m key q.
Proof.
  intros H Hpq. unfold absent_or. rewrite lookup_fmap. destruct (m !! key) as [d|] eqn:E; [|done]. simpl. apply Hpq. by eapply H.
Qed.

Lemma html_only_keys keys m : only_keys keys (html <$> m) = only_keys keys m.
Proof. unfold only_keys. apply forallb_html. by intros k d _. Qed.

(** A check of schemas that is blind to the added escapes. *)
Definition blind (child : object -> bool) : Prop := forall m, good_map m -> child (html <$> m) = child m.

Lemma html_object_schema child : blind child -> blind (object_schema child).
Proof.
  intros Hchild m Hm. unfold object_schema. rewrite html_schemaType, html_only_keys by done.
  repeat (f_equal; [|apply html_absent_or; [done|]; intros d Hd; by rewrite ?html_as_strings, ?html_as_bool by done]).
  f_equal. apply html_absent_or; [done|]. intros d Hd. rewrite html_as_map by done.
  destruct (as_map d) as [[ps|]|] eqn:E; [|done..]. simpl. apply (good_as_map _ _ Hd) in E. apply forallb_html.
  intros k p Hp. simpl. f_equal. apply E in Hp. rewrite html_non_nil_map by done.
  destruct (non_nil_map p) as [s|] eqn:Es; [|done]. simpl. apply Hchild. by eapply good_non_nil_map.
Qed.

Lemma html_validateValueSchema room : blind (validateValueSchema room).
Proof.
  induction room as [|below IH]; intros m Hm; [done|]. cbn [validateValueSchema]. cbv zeta.
  rewrite html_schemaType, html_only_keys by done. f_equal.
  - f_equal. apply html_absent_or; [done|]. intros d Hd. rewrite html_as_list. by destruct (as_list d) as [[|? ?]|].
  - rewrite (html_object_schema _ IH) by done. rewrite lookup_fmap.
    destruct (schemaType m ≟ "object"), (schemaType m ≟ "array"); try done.
    destruct (m !! "items") as [d|] eqn:E; [|done]. simpl. apply Hm in E. rewrite html_non_nil_map by done.
    destruct (non_nil_map d) as [s|] eqn:Es; [|done]. simpl. apply IH. by eapply good_non_nil_map.
Qed.

Lemma html_validateObjectSchema room : blind (validateObjectSchema room).
Proof. destruct room; [done|]. apply html_object_schema, html_validateValueSchema. Qed.

Lemma object_ok_good m : object_ok m -> good_map m.
Proof. intros H k d Hd. exists 1%nat. by destruct (H k d Hd). Qed.

Lemma non_nil_map_ok d m : doc_ok 0 d = true -> non_nil_map d = Some m -> object_ok m.
Proof.
  intros Hd Hm. unfold non_nil_map in Hm. destruct (as_map d) as [[m'|]|] eqn:E; try done. injection Hm as ->. by eapply as_map_ok.
Qed.

(** The canonical text of a map is decoded to the map with the escapes added. *)
Lemma canonical_map m c : object_ok m -> marshal (json_raw_map m) = Some c ->
  c <> "" /\ parse c = Some (DObj (raw_members m)) /\ non_nil_map (DObj (raw_members m)) = Some (html_map m) /\
  marshal (json_raw_map (html_map m)) = Some c.
Proof.
  intros Hm Hc. split_and!.
  - intros ->. rewrite marshal_raw_map in Hc. discriminate.
  - by apply parse_raw_map.
  - unfold non_nil_map. by rewrite as_raw_members.
  - by rewrite marshal_raw_map, raw_members_html, <- marshal_raw_map.
Qed.

Lemma decode_any_parse s d : parse s = Some d -> decode_any s = Some (as_any d).
Proof. intros (rest & Hr & Hm)%read_value_parse. unfold decode_any. by rewrite Hr, Hm. Qed.

Lemma decode_any_ok s v : decode_any s = Some v -> any_ok 0 v.
Proof.
  unfold decode_any. destruct (read_value start (bytes s)) as [[d rest]|] eqn:E; [|done]. destruct (more rest); [done|].
  intros [= <-]. apply as_any_ok. eapply read_value_ok; [exact E|done|apply bytes_are_bytes].
Qed.

(** The canonical text of a decoded value is decoded to the value. *)
Lemma canonical_any v c : any_ok 0 v -> marshal (json_any v) = Some c -> decode_any c = Some v.
Proof.
  intros Hv Hc. pose proof (marshal_any v) as Hp. unfold prints in Hp. rewrite Hp in Hc.
  assert (c = of_bytes (print (any_doc v))) as -> by congruence.
  erewrite decode_any_parse by (by apply parse_print, any_doc_ok). by erewrite as_any_doc.
Qed.

(** ** Arguments and the added escapes *)

(** A map whose strings have nothing left to escape. *)
Definition settled (m : object) : Prop := html_map m = m.

Lemma settled_value m k d : settled m -> m !! k = Some d -> html d = d.
Proof. intros Hm Hd. pose proof (lookup_fmap html m k) as H. rewrite Hm, Hd in H. simpl in H. congruence. Qed.

Lemma settled_as_map d m : html d = d -> good d -> as_map d = Some (Some m) -> settled m.
Proof. intros Hh Hd Hm. pose proof (html_as_map d Hd) as H. rewrite Hh, Hm in H. simpl in H. unfold settled. congruence. Qed.

Lemma settled_non_nil_map d m : html d = d -> good d -> non_nil_map d = Some m -> settled m.
Proof.
  intros Hh Hd Hm. unfold non_nil_map in Hm. destruct (as_map d) as [[m'|]|] eqn:E; try done. injection Hm as ->. by eapply settled_as_map.
Qed.

Lemma settled_list d l : html d = d -> as_list d = Some l -> Forall (fun x => html x = x) l.
Proof.
  intros Hh Hl. pose proof (html_as_list d) as H. rewrite Hh, Hl in H. simpl in H. injection H as H. apply Forall_lookup. intros i x Hx.
  assert (Hx' : (html <$> l) !! i = Some x) by (by rewrite <- H). rewrite list_lookup_fmap, Hx in Hx'. simpl in Hx'. congruence.
Qed.

Lemma existsb_impl {A} (p q : A -> bool) l : (forall x, x ∈ l -> p x = true -> q x = true) -> existsb p l = true -> existsb q l = true.
Proof. rewrite !existsb_exists. intros H (x & Hx & Hp). exists x. split; [done|]. apply H; [by apply list_elem_of_In|done]. Qed.

Lemma doc_ok_shallow d depth depth' : (depth' <= depth)%nat -> doc_ok depth d = true -> doc_ok depth' d = true.
Proof.
  revert depth depth'. induction d as [|b|t|b|l IH|l IH] using doc_nested; intros depth depth' Hle H; [done..| |];
    simpl in *; apply andb_true_iff in H as [Hd%Nat.ltb_lt H]; (apply andb_true_iff; split; [apply Nat.ltb_lt; lia|]);
    (eapply forallb_impl_Forall; [|exact H]); (eapply Forall_impl; [exact IH|]).
  - intros d Hd'. apply Hd'. lia.
  - intros [k d] Hd'. cbn [fst snd]. intros [Hk Hok]%andb_true_iff. rewrite Hk. eapply Hd'; [|exact Hok]. lia.
Qed.

Lemma print_inj d d' : good d -> good d' -> print d = print d' -> d = d'.
Proof.
  intros [n Hd] [n' Hd'] H. apply (doc_ok_shallow _ _ 0), parse_print in Hd, Hd'; [|lia..]. rewrite H in Hd. congruence.
Qed.

(** A check of arguments that goes on to accept them with the escapes added. *)
Definition stable (child : object -> doc -> bool) : Prop := forall s d,
  settled s -> good_map s -> good d -> child s d = true -> child s (html d) = true.

Lemma stable_object_value child s v :
  stable child -> settled s -> good_map s -> good_map v -> object_value child s v = true -> object_value child s (html_map v) = true.
Proof.
  intros Hchild Hs Hgs Hgv. unfold object_value. intros [Ht H]%andb_true_iff. rewrite Ht. cbn [andb].
  destruct (match s !! "properties" with Some raw => default ∅ <$> as_map raw | None => Some ∅ end) as [ps|] eqn:Hps; [|done].
  assert (Hpsok : settled ps /\ good_map ps).
  { destruct (s !! "properties") as [raw|] eqn:Er; [|injection Hps as <-; split; [apply fmap_empty|apply map_Forall_empty]].
    destruct (as_map raw) as [[m|]|] eqn:Em; try done; injection Hps as <-; [|split; [apply fmap_empty|apply map_Forall_empty]].
    split; [eapply settled_as_map; [by eapply settled_value|by eapply Hgs|done]|eapply good_as_map; [by eapply Hgs|done]]. }
  destruct Hpsok as [Hsp Hgp]. apply andb_true_iff in H as [Hreq H]. apply andb_true_iff. split.
  - revert Hreq. unfold absent_or. destruct (s !! "required"); [|done]. destruct (as_strings _); [|done].
    rewrite !forallb_forall. intros Hreq name Hin. specialize (Hreq name Hin). rewrite lookup_fmap.
    case_bool_decide as Hb; [|done]. apply bool_decide_eq_true. destruct Hb as [x ->]. eauto.
  - destruct (match s !! "additionalProperties" with Some raw => as_bool true raw | None => Some true end) as [additional|]; [|done].
    rewrite forallb_map_to_list in H |- *. intros k d Hd. rewrite lookup_fmap, fmap_Some in Hd. destruct Hd as (d' & Hd' & ->).
    specialize (H k d' Hd'). cbn [fst snd] in *. destruct (ps !! k) as [p|] eqn:Hp; [|done].
    destruct (non_nil_map p) as [s'|] eqn:Hs'; [|done].
    apply Hchild; [eapply settled_non_nil_map; [by eapply settled_value|by eapply Hgp|done]| |by eapply Hgv|done].
    eapply good_non_nil_map; [by eapply Hgp|done].
Qed.

Lemma stable_validateValue room : stable (validateValue room).
Proof.
  induction room as [room IHroom] using lt_wf_ind. destruct room as [|below]; [done|]. intros s d Hs Hgs Hgd.
  assert (IH : stable (validateValue below)) by (apply IHroom; lia). cbn [validateValue]. cbv zeta.
  intros [Henum H]%andb_true_iff. apply andb_true_iff. split.
  - revert Henum. unfold absent_or. destruct (s !! "enum") as [choices|] eqn:Ee; [|done].
    destruct (as_list choices) as [l|] eqn:El; [|done]. apply existsb_impl. intros x Hx Heq%bool_decide_eq_true.
    assert (Hxd : x = d).
    { apply print_inj; [|done|done]. pose proof (good_list _ _ (Hgs _ _ Ee) El) as Hl. rewrite Forall_forall in Hl. auto. }
    pose proof (settled_list _ _ (settled_value _ _ _ Hs Ee) El) as Hl. rewrite Forall_forall in Hl.
    apply bool_decide_eq_true. rewrite <- Hxd, Hl; [done|done].
  - revert H. rewrite html_as_string, html_as_bool, html_as_number, html_non_nil_map, html_as_list by done.
    destruct (schemaType s ≟ "string"); [done|]. destruct (schemaType s ≟ "boolean"); [done|].
    destruct (schemaType s ≟ "number"); [done|]. destruct (schemaType s ≟ "integer"); [done|].
    destruct (schemaType s ≟ "object"); [|destruct (schemaType s ≟ "array"); [|done]].
    + destruct (non_nil_map d) as [m|] eqn:Hm; [|done]. cbn [option_map]. destruct below as [|below]; [done|].
      apply stable_object_value; [apply IHroom; lia|done|done|]. by eapply good_non_nil_map.
    + destruct (as_list d) as [l|] eqn:Hl; [|done]. cbn [option_map]. destruct (s !! "items") as [items|] eqn:Ei; [|done].
      destruct (non_nil_map items) as [item|] eqn:Hitem; [|done].
      apply (good_list _ _ Hgd) in Hl. rewrite forallb_fmap. apply forallb_impl_Forall. eapply Forall_impl; [exact Hl|].
      intros x Hx. apply IH; [eapply settled_non_nil_map; [by eapply settled_value|by eapply Hgs|done]| |done].
      eapply good_non_nil_map; [by eapply Hgs|done].
Qed.

Lemma as_any_html d : good d -> as_any (html d) = as_any d.
Proof.
  intros [depth H]. revert depth H. induction d as [|b|t|b|l IH|l IH] using doc_nested; intros depth H; [done..| | |]; simpl in *.
  - by rewrite unquote_html.
  - apply andb_true_iff in H as [_ H]. rewrite forallb_forall in H. f_equal. rewrite <- list_fmap_compose.
    apply list_fmap_ext. intros i d Hd. rewrite Forall_lookup in IH. simpl. eapply (IH _ _ Hd), H, list_elem_of_In. by eapply list_elem_of_lookup_2.
  - apply andb_true_iff in H as [_ H]. rewrite forallb_forall in H. f_equal. f_equal. rewrite <- list_fmap_compose.
    apply list_fmap_ext. intros i kd Hd. rewrite Forall_lookup in IH. assert (Hin : kd ∈ l) by (by eapply list_elem_of_lookup_2).
    apply list_elem_of_In, H, andb_true_iff in Hin as [Hk Hok]. simpl. rewrite unquote_html by done. f_equal. by eapply IH.
Qed.

Section general.
Context (compile : any -> option (any -> bool)).

Lemma schema_v1_inv raw v c : CanonicalSchema compile VersionV1 raw = Some (v, c) ->
  exists d schema, parse raw = Some d /\ non_nil_map d = Some schema /\ object_ok schema /\
    validateObjectSchema room0 schema = true /\ marshal (json_raw_map schema) = Some c /\ len c <= maximumSchemaBytes /\ v = VersionV1.
Proof.
  unfold CanonicalSchema. change (VersionV1 ≟ "") with false. change (VersionV1 ≟ VersionV2) with false.
  change (VersionV1 ≠? VersionV1) with false. cbn [andb]. destruct ((raw ≟ "") || _); [done|].
  destruct (parse raw) as [d|] eqn:Hd; [|done]. cbn [mbind option_bind]. destruct (non_nil_map d) as [schema|] eqn:Hs; [|done]. cbn [mbind option_bind].
  destruct (validateObjectSchema room0 schema) eqn:Hv; [|done]. cbn [negb].
  destruct (marshal (json_raw_map schema)) as [c'|] eqn:Hc; [|done]. cbn [mbind option_bind].
  destruct (maximumSchemaBytes <? len c') eqn:Hl; [done|]. intros [= <- <-]. arith. exists d, schema. split_and!; try done.
  eapply non_nil_map_ok; [|done]. by eapply parse_ok.
Qed.

Lemma schema_v1_intro raw d schema c :
  raw <> "" -> len raw <= maximumSchemaBytes -> parse raw = Some d -> non_nil_map d = Some schema ->
  validateObjectSchema room0 schema = true -> marshal (json_raw_map schema) = Some c -> len c <= maximumSchemaBytes ->
  CanonicalSchema compile VersionV1 raw = Some (VersionV1, c).
Proof.
  intros Hne Hr Hd Hs Hv Hc Hl. unfold CanonicalSchema. change (VersionV1 ≟ "") with false. change (VersionV1 ≟ VersionV2) with false.
  change (VersionV1 ≠? VersionV1) with false. cbn [andb]. rewrite bool_decide_eq_false_2 by done.
  rewrite (proj2 (Z.ltb_ge _ _) Hr). cbn [orb]. rewrite Hd. cbn [mbind option_bind]. rewrite Hs. cbn [mbind option_bind].
  rewrite Hv. cbn [negb]. rewrite Hc. cbn [mbind option_bind]. by rewrite (proj2 (Z.ltb_ge _ _) Hl).
Qed.

Lemma schema_v1_fixed raw v c : CanonicalSchema compile VersionV1 raw = Some (v, c) -> CanonicalSchema compile VersionV1 c = Some (VersionV1, c).
Proof.
  intros (d & schema & Hd & Hs & Hok & Hv & Hc & Hl & _)%schema_v1_inv.
  destruct (canonical_map _ _ Hok Hc) as (Hne & Hp & Hm & Hc').
  eapply schema_v1_intro; [done..| |done|done]. by rewrite html_validateObjectSchema by (by apply object_ok_good).
Qed.

Lemma general_fixed raw c : canonicalGeneralSchema compile raw = Some c ->
  canonicalGeneralSchema compile c = Some c /\ c <> "" /\ len c <= maximumSchemaBytes.
Proof.
  unfold canonicalGeneralSchema. destruct (decode_any raw) as [v|] eqn:Hd; [|done].
  destruct v as [| | | | |members]; try done. destruct (hasExternalReference _) eqn:Hr; [done|].
  destruct (marshal _) as [c'|] eqn:Hc; [|done]. destruct (maximumSchemaBytes <? len c') eqn:Hl; [done|].
  destruct (compileGeneralSchema compile c') eqn:Hcomp; [|done]. intros [= <-].
  rewrite (canonical_any _ _ (decode_any_ok _ _ Hd) Hc), Hr, Hc, Hl, Hcomp. arith. split_and!; [done| |done].
  intros ->. pose proof (marshal_any (AMap members)) as Hp. unfold prints in Hp. rewrite Hp in Hc. discriminate.
Qed.

Lemma schema_v2_fixed raw v c : CanonicalSchema compile VersionV2 raw = Some (v, c) -> CanonicalSchema compile VersionV2 c = Some (VersionV2, c).
Proof.
  unfold CanonicalSchema. change (VersionV2 ≟ "") with false. change (VersionV2 ≟ VersionV2) with true. cbn [andb].
  destruct ((raw ≟ "") || _); [done|]. destruct (canonicalGeneralSchema compile raw) as [c'|] eqn:Hg; [|done].
  intros [= _ <-]. destruct (general_fixed _ _ Hg) as (Hf & Hne & Hl).
  rewrite bool_decide_eq_false_2 by done. rewrite (proj2 (Z.ltb_ge _ _) Hl). cbn [orb]. by rewrite Hf.
Qed.

Lemma canonical_version version raw v c : CanonicalSchema compile version raw = Some (v, c) ->
  version = "" /\ raw = "" /\ v = VersionV1 /\ c = emptySchema \/ version = v /\ (v = VersionV1 \/ v = VersionV2).
Proof.
  unfold CanonicalSchema. destruct ((version ≟ "") && (raw ≟ "")) eqn:E.
  - apply andb_true_iff in E as [E1%bool_decide_eq_true E2%bool_decide_eq_true]. intros [= <- <-]. auto.
  - clear E. destruct ((raw ≟ "") || _); [done|]. case_bool_decide as H2.
    + destruct (canonicalGeneralSchema compile raw); [|discriminate]. intros [= <- <-]. auto.
    + case_bool_decide as H1; [|done]. cbn [negb]. destruct (parse raw); [|done]. cbn [mbind option_bind].
      destruct (non_nil_map _); [|done]. cbn [mbind option_bind]. destruct (negb _); [done|].
      destruct (marshal _); [|done]. cbn [mbind option_bind]. destruct (_ <? _); [done|]. intros [= <- <-]. auto.
Qed.

(** The canonical form of an accepted schema, of either profile, is accepted and
    is its own canonical form, for every JSON-Schema compiler. *)
Theorem canonical_schema_fixed version raw v c :
  CanonicalSchema compile version raw = Some (v, c) -> CanonicalSchema compile v c = Some (v, c).
Proof.
  intros H. destruct (canonical_version _ _ _ _ H) as [(-> & -> & -> & ->)|(-> & [-> | ->])].
  - reflexivity.
  - by eapply schema_v1_fixed.
  - by eapply schema_v2_fixed.
Qed.


(** The arguments that are decoded, and how they are validated against the canonical
    schema [c] of version [v]. *)
Definition decoded_arguments (argumentsRaw : string) (d : doc) (m : object) : Prop :=
  let argumentsRaw := if argumentsRaw ≟ "" then "{}" else argumentsRaw in
  len argumentsRaw <= maximumSchemaBytes /\ parse argumentsRaw = Some d /\ non_nil_map d = Some m.

Definition accepts (v c : string) (d : doc) (m : object) : Prop :=
  if v ≟ VersionV2 then exists validate, compileGeneralSchema compile c = Some validate /\ validate (as_any d) = true
  else exists document schema, parse c = Some document /\ as_map document = Some schema /\ validateObject room0 (default ∅ schema) m = true.

Lemma arguments_iff version schemaRaw argumentsRaw out :
  CanonicalArguments compile version schemaRaw argumentsRaw = Some out <->
  exists v c d m, CanonicalSchema compile version schemaRaw = Some (v, c) /\ decoded_arguments argumentsRaw d m /\
    accepts v c d m /\ marshal (json_raw_map m) = Some out.
Proof.
  unfold CanonicalArguments, decoded_arguments, accepts. cbv zeta. set (raw := if argumentsRaw ≟ "" then _ else _). split.
  - intros ([v c] & Hs & H)%bind_Some. destruct (maximumSchemaBytes <? len raw) eqn:Hl; [done|]. arith.
    apply bind_Some in H as (d & Hd & H). apply bind_Some in H as (m & Hm & H). exists v, c, d, m. split; [done|]. split; [done|].
    destruct (v ≟ VersionV2).
    + apply bind_Some in H as (validate & Hc & H). apply bind_Some in H as (g & Hg & H).
      rewrite (decode_any_parse raw d Hd) in Hg. injection Hg as <-. destruct (validate (as_any d)) eqn:Hv; [|done]. eauto.
    + apply bind_Some in H as (document & Hdoc & H). destruct (as_map document) as [schema|] eqn:Hm'; [|done].
      destruct (validateObject room0 (default ∅ schema) m) eqn:Hv; [|done]. eauto 8.
  - intros (v & c & d & m & Hs & (Hl & Hd & Hm) & Ha & Hout). rewrite Hs. cbn [mbind option_bind].
    rewrite (proj2 (Z.ltb_ge _ _) Hl), Hd. cbn [mbind option_bind]. rewrite Hm. cbn [mbind option_bind].
    destruct (v ≟ VersionV2).
    + destruct Ha as (validate & -> & Hv). cbn [mbind option_bind]. rewrite (decode_any_parse raw d Hd). cbn [mbind option_bind].
      by rewrite Hv.
    + destruct Ha as (document & schema & -> & Hm' & Hv). cbn [mbind option_bind]. by rewrite Hm', Hv.
Qed.

(** What the canonical text of the bounded profile decodes to. *)
Lemma canonical_v1 version raw c : CanonicalSchema compile version raw = Some (VersionV1, c) ->
  exists schema, non_nil_map (DObj (raw_members schema)) = Some (html_map schema) /\ parse c = Some (DObj (raw_members schema)) /\
    settled (html_map schema) /\ good_map (html_map schema) /\ validateObjectSchema room0 (html_map schema) = true.
Proof.
  intros H. assert (Hv1 : exists raw', CanonicalSchema compile VersionV1 raw' = Some (VersionV1, c)).
  { destruct (canonical_version _ _ _ _ H) as [(-> & -> & _ & ->)|(-> & _)]; [by exists emptySchema|eauto]. }
  destruct Hv1 as [raw' (d & schema & Hd & Hs & Hok & Hv & Hc & Hl & _)%schema_v1_inv].
  destruct (canonical_map _ _ Hok Hc) as (Hne & Hp & Hm & Hc'). exists schema. split_and!; [done|done|..].
  - unfold settled. rewrite <- map_fmap_compose. apply map_fmap_ext. intros k x _. apply html_doc_idem.
  - apply object_ok_good. intros k x Hx. rewrite lookup_fmap, fmap_Some in Hx. destruct Hx as (x' & Hx & ->).
    destruct (Hok _ _ Hx). split; [done|]. by apply html_doc_ok.
  - by rewrite html_validateObjectSchema by (by apply object_ok_good).
Qed.

Lemma any_members_html m : good_map m -> any_members (html_map m) = any_members m.
Proof.
  intros Hm. unfold any_members. rewrite object_keys_fmap. apply list_fmap_ext. intros i k _. rewrite lookup_fmap.
  destruct (m !! k) as [d|] eqn:Hd; [|done]. simpl. rewrite as_any_html; [done|]. by eapply Hm.
Qed.

Lemma canonical_as_any d m : doc_ok 0 d = true -> non_nil_map d = Some m -> as_any (DObj (raw_members m)) = as_any d.
Proof.
  intros Hd Hm. assert (Hok : object_ok m) by (by eapply non_nil_map_ok).
  rewrite (as_any_map _ _ (as_raw_members m Hok)), any_members_html by (by apply object_ok_good).
  symmetry. apply as_any_map. unfold non_nil_map in Hm. destruct (as_map d) as [[m'|]|]; congruence.
Qed.

(** Canonical arguments are accepted again under the same schema and are their own
    canonical form, unless the added escapes push them over the size limit. *)
Theorem canonical_arguments_fixed version schemaRaw argumentsRaw out :
  CanonicalArguments compile version schemaRaw argumentsRaw = Some out -> len out <= maximumSchemaBytes ->
  CanonicalArguments compile version schemaRaw out = Some out.
Proof.
  intros (v & c & d & m & Hs & (Hl & Hd & Hm) & Ha & Hout)%arguments_iff Hlen. apply parse_ok in Hd.
  assert (Hok : object_ok m) by (by eapply non_nil_map_ok). destruct (canonical_map _ _ Hok Hout) as (Hne & Hp & Hm' & Hout').
  apply arguments_iff. exists v, c, (DObj (raw_members m)), (html_map m). split; [done|]. split; [|split; [|done]].
  - unfold decoded_arguments. by rewrite bool_decide_eq_false_2.
  - unfold accepts in *. destruct (v ≟ VersionV2) eqn:Ev; [by rewrite (canonical_as_any d m)|].
    destruct (canonical_version _ _ _ _ Hs) as [(_ & _ & -> & _)|(_ & [-> | ->])]; [..|done];
    destruct (canonical_v1 _ _ _ Hs) as (schema & Has & Hpc & Hset & Hgood & _); destruct Ha as (document & s & Hpd & Hmd & Hv);
      rewrite Hpc in Hpd; injection Hpd as <-; exists (DObj (raw_members schema)), s; (split; [done|]); (split; [done|]);
      unfold non_nil_map in Has; rewrite Hmd in Has; subst s; cbn [default] in *;
      (apply stable_object_value; [apply stable_validateValue|done|done|by apply object_ok_good|done]).
Qed.

End general.
