(* ===== verification/ToolSchemaSpec.v ===== *)
(** * Tool input schemas: what arguments conform to a schema

    [conforms] says declaratively which JSON values a schema of the bounded profile
    allows; the validator decides it for arguments that are not nested too deeply.
    The last section records where the profile departs from its description. *)

From Stdlib Require Import Ascii String.
From S2P Require Import Prelude GoString GoJson GoJsonText JsonFacts JsonStrings JsonValues ToolSchema ToolSchemaTheorems.

Open Scope Z_scope.

(** ** The specification *)

(** The value is one of the enumerated ones, where the schema enumerates them. *)
Definition enumerated (s : object) (d : doc) : Prop :=
  forall raw l, s !! "enum" = Some raw -> as_list raw = Some l -> d ∈ l.

Definition required (s : object) (name : string) : Prop :=
  exists raw names, s !! "required" = Some raw /\ as_strings raw = Some names /\ name ∈ names.

(** The schema of a named property. *)
Definition property (s : object) (name : string) : option object :=
  raw ← s !! "properties"; ps ← as_map raw; p ← default ∅ ps !! name; non_nil_map p.

(** Arguments the schema does not name are allowed. *)
Definition open_ended (s : object) : bool :=
  match s !! "additionalProperties" with Some raw => default true (as_bool true raw) | None => true end.

Definition items (s : object) : option object := raw ← s !! "items"; non_nil_map raw.

Inductive conforms : object -> doc -> Prop :=
| conforms_string s d : enumerated s d -> schemaType s = "string" -> d = DNull \/ (exists b, d = DStr b) -> conforms s d
| conforms_boolean s d : enumerated s d -> schemaType s = "boolean" -> d = DNull \/ (exists b, d = DBool b) -> conforms s d
| conforms_number s d : enumerated s d -> schemaType s = "number" -> is_Some (as_number d) -> conforms s d
| conforms_integer s d t : enumerated s d -> schemaType s = "integer" -> as_number d = Some t -> is_Some (ParseInt64 t) -> conforms s d
| conforms_object s d m : enumerated s d -> schemaType s = "object" -> non_nil_map d = Some m -> conforms_members s m -> conforms s d
| conforms_array s d l item : enumerated s d -> schemaType s = "array" -> as_list d = Some l -> items s = Some item ->
    (forall x, x ∈ l -> conforms item x) -> conforms s d
with conforms_members : object -> object -> Prop :=
| members_conform s m :
    (forall name, required s name -> is_Some (m !! name)) ->
    (forall name d, m !! name = Some d -> property s name = None -> open_ended s = true) ->
    (forall name d p, m !! name = Some d -> property s name = Some p -> conforms p d) ->
    conforms_members s m.

(** The depth as the validator counts it: its depth grows by two for an object, once for the
    value and once for its members, by one for an array, and a value of another kind takes
    one. *)
Fixpoint counted_levels (d : doc) : nat :=
  match d with
  | DArr l => S (foldr Nat.max 0%nat (counted_levels <$> l))
  | DObj l => S (S (foldr Nat.max 0%nat ((fun kd => counted_levels kd.2) <$> l)))
  | _ => 1
  end.

(** The depth as one reads it: how many objects and arrays lie inside each other. *)
Fixpoint nesting (d : doc) : nat :=
  match d with
  | DArr l => S (foldr Nat.max 0%nat (nesting <$> l))
  | DObj l => S (foldr Nat.max 0%nat ((fun kd => nesting kd.2) <$> l))
  | _ => 0
  end.

(** ** The validator decides it *)

(** A schema whose properties all decode. *)
Definition properties_decode (s : object) : Prop :=
  forall raw, s !! "properties" = Some raw -> exists ps, as_map raw = Some ps /\
    forall name p, default ∅ ps !! name = Some p -> is_Some (non_nil_map p).

Lemma object_schema_inv child s : object_schema child s = true ->
  schemaType s = "object" /\ properties_decode s /\
  (forall name p, property s name = Some p -> child p = true) /\
  (forall raw, s !! "required" = Some raw -> is_Some (as_strings raw)) /\
  (forall raw, s !! "additionalProperties" = Some raw -> is_Some (as_bool true raw)).
Proof.
  unfold object_schema, absent_or. rewrite !andb_true_iff. intros ((((Ht & _) & Hp) & Hr) & Ha).
  apply bool_decide_eq_true in Ht. split; [done|].
  assert (Hps : forall raw, s !! "properties" = Some raw -> exists ps, as_map raw = Some ps /\
    forall name p, default ∅ ps !! name = Some p -> exists p', non_nil_map p = Some p' /\ child p' = true).
  { intros raw Hraw. rewrite Hraw in Hp. destruct (as_map raw) as [ps|]; [|done]. exists ps. split; [done|]. intros name p Hnp.
    rewrite forallb_map_to_list in Hp. specialize (Hp name p Hnp). cbn [fst snd] in Hp. apply andb_true_iff in Hp as [_ Hp].
    destruct (non_nil_map p) as [p'|]; [|done]. eauto. }
  split_and!.
  - intros raw Hraw. destruct (Hps raw Hraw) as (ps & Hm & Hall). exists ps. split; [done|]. intros name p Hnp.
    destruct (Hall name p Hnp) as (p' & Hp' & _). eauto.
  - unfold property. intros name p' (raw & Hraw & (ps & Hm & (p & Hnp & Hp')%bind_Some)%bind_Some)%bind_Some.
    destruct (Hps raw Hraw) as (ps' & Hm' & Hall). rewrite Hm in Hm'. injection Hm' as <-.
    destruct (Hall name p Hnp) as (p'' & Hp'' & Hc). congruence.
  - intros raw Hraw. rewrite Hraw in Hr. by apply bool_decide_eq_true in Hr.
  - intros raw Hraw. rewrite Hraw in Ha. apply bool_decide_eq_true in Ha. by destruct raw.
Qed.

Lemma object_value_sound child s v :
  object_value child s v = true -> (forall name p d, property s name = Some p -> v !! name = Some d -> child p d = true -> conforms p d) ->
  conforms_members s v.
Proof.
  unfold object_value. intros [_ H]%andb_true_iff Hchild.
  destruct (match s !! "properties" with Some raw => default ∅ <$> as_map raw | None => Some ∅ end) as [ps|] eqn:Hps; [|done].
  assert (Hprop : forall name, property s name = (p ← ps !! name; non_nil_map p)).
  { intros name. unfold property. destruct (s !! "properties") as [raw|]; [|injection Hps as <-; by rewrite lookup_empty].
    cbn [mbind option_bind]. destruct (as_map raw) as [ps'|]; [|done]. injection Hps as <-. done. }
  apply andb_true_iff in H as [Hreq H]. constructor.
  - intros name (raw & names & Hraw & Hn & Hin). unfold absent_or in Hreq. rewrite Hraw, Hn, forallb_forall in Hreq.
    apply list_elem_of_In, Hreq in Hin. by apply bool_decide_eq_true in Hin.
  - intros name d Hd Hnone. rewrite Hprop in Hnone. unfold open_ended.
    destruct (s !! "additionalProperties") as [raw|]; [|done]. destruct (as_bool true raw) as [additional|]; [|done].
    rewrite forallb_map_to_list in H. specialize (H name d Hd). cbn [fst snd] in H. destruct (ps !! name) as [p|]; [|done].
    cbn [mbind option_bind] in Hnone. by rewrite Hnone in H.
  - intros name d p Hd Hp. apply (Hchild name p d); [done..|]. rewrite Hprop in Hp.
    destruct (match s !! "additionalProperties" with Some raw => as_bool true raw | None => Some true end); [|done].
    rewrite forallb_map_to_list in H. specialize (H name d Hd). cbn [fst snd] in H. destruct (ps !! name) as [p0|]; [|done].
    cbn [mbind option_bind] in Hp. by rewrite Hp in H.
Qed.

Lemma object_value_complete child s v :
  schemaType s = "object" -> properties_decode s -> (forall raw, s !! "required" = Some raw -> is_Some (as_strings raw)) ->
  (forall raw, s !! "additionalProperties" = Some raw -> is_Some (as_bool true raw)) ->
  conforms_members s v -> (forall name p d, property s name = Some p -> v !! name = Some d -> conforms p d -> child p d = true) ->
  object_value child s v = true.
Proof.
  intros Ht Hdec Hreqs Hadd Hm Hchild. destruct Hm as [s v Hreq Hopen Hprops]. unfold object_value. rewrite Ht. cbn [andb].
  destruct (match s !! "properties" with Some raw => default ∅ <$> as_map raw | None => Some ∅ end) as [ps|] eqn:Hps.
  2: { destruct (s !! "properties") as [raw|] eqn:Hraw; [|done]. destruct (Hdec raw Hraw) as (ps & Hm & _). by rewrite Hm in Hps. }
  assert (Hprop : forall name, property s name = (p ← ps !! name; non_nil_map p)).
  { intros name. unfold property. destruct (s !! "properties") as [raw|]; [|injection Hps as <-; by rewrite lookup_empty].
    cbn [mbind option_bind]. destruct (as_map raw) as [ps'|]; [|done]. injection Hps as <-. done. }
  assert (Hsome : forall name p, ps !! name = Some p -> is_Some (non_nil_map p)).
  { intros name p Hp. destruct (s !! "properties") as [raw|] eqn:Hraw; [|injection Hps as <-; by rewrite lookup_empty in Hp].
    destruct (Hdec raw Hraw) as (ps' & Hm & Hall). rewrite Hm in Hps. injection Hps as <-. eauto. }
  change (bool_decide ("object" = "object")) with true. cbn [andb]. apply andb_true_iff. split.
  - unfold absent_or. destruct (s !! "required") as [raw|] eqn:Hraw; [|done]. destruct (Hreqs raw eq_refl) as [names Hn].
    rewrite Hn. apply forallb_forall. intros name Hin%list_elem_of_In. apply bool_decide_eq_true, Hreq. by exists raw, names.
  - unfold open_ended in Hopen. destruct (s !! "additionalProperties") as [raw|] eqn:Hraw.
    + destruct (Hadd raw eq_refl) as [additional Ha]. rewrite Ha in Hopen |- *. apply forallb_map_to_list. intros name d Hd. cbn [fst snd].
      specialize (Hprop name). destruct (ps !! name) as [p|] eqn:Hp; [|by eapply Hopen].
      destruct (Hsome name p Hp) as [p' Hp']. cbn [mbind option_bind] in Hprop. rewrite Hp' in Hprop |- *. eauto.
    + apply forallb_map_to_list. intros name d Hd. cbn [fst snd]. specialize (Hprop name).
      destruct (ps !! name) as [p|] eqn:Hp; [|done]. destruct (Hsome name p Hp) as [p' Hp'].
      cbn [mbind option_bind] in Hprop. rewrite Hp' in Hprop |- *. eauto.
Qed.

(** ** Values *)

Lemma good_property s name p : good_map s -> property s name = Some p -> good_map p.
Proof.
  unfold property. intros Hs (raw & Hraw & (ps & Hm & (q & Hq & Hp)%bind_Some)%bind_Some)%bind_Some.
  destruct ps as [ps|]; simpl in Hq; [|by rewrite lookup_empty in Hq]. eapply good_non_nil_map; [|done]. eapply (good_as_map raw ps); [by eapply Hs|done|done].
Qed.

Lemma good_items s item : good_map s -> items s = Some item -> good_map item.
Proof. unfold items. intros Hs (raw & Hraw & Hi)%bind_Some. eapply good_non_nil_map; [by eapply Hs|done]. Qed.

Lemma enumerated_iff s d : good_map s -> good d ->
  (forall raw, s !! "enum" = Some raw -> is_Some (as_list raw)) ->
  absent_or s "enum" (fun choices =>
    match as_list choices with Some values => existsb (fun choice => compact choice ≟ compact d) values | None => false end) = true <->
  enumerated s d.
Proof.
  intros Hs Hd Hl. unfold absent_or, enumerated. destruct (s !! "enum") as [raw|] eqn:Hraw; [|naive_solver].
  destruct (Hl raw eq_refl) as [l Hl']. pose proof (good_list _ _ (Hs _ _ Hraw) Hl') as Hg. rewrite Forall_forall in Hg.
  rewrite Hl'. rewrite existsb_exists. split.
  - intros (x & Hx%list_elem_of_In & Heq%bool_decide_eq_true) raw' l' [= <-] Hl2. rewrite Hl' in Hl2. injection Hl2 as <-.
    apply print_inj in Heq as <-; auto.
  - intros H. exists d. rewrite <- list_elem_of_In. split; [by eapply H|]. by apply bool_decide_eq_true.
Qed.

Lemma validateValue_sound room s d : validateValue room s d = true -> good_map s -> good d -> conforms s d.
Proof.
  revert s d. induction room as [room IHroom] using lt_wf_ind. destruct room as [|below]; [done|]. intros s d H Hs Hd.
  cbn [validateValue] in H. cbv zeta in H. apply andb_true_iff in H as [Henum H].
  assert (He : enumerated s d).
  { apply enumerated_iff; [done..| |done]. intros raw Hraw. unfold absent_or in Henum. rewrite Hraw in Henum. by destruct (as_list raw). }
  case_bool_decide as Ht; [apply conforms_string; [done..|]; apply bool_decide_eq_true in H as [x Hx]; destruct d; naive_solver|].
  clear Ht. case_bool_decide as Ht; [apply conforms_boolean; [done..|]; apply bool_decide_eq_true in H as [x Hx]; destruct d; naive_solver|].
  clear Ht. case_bool_decide as Ht; [apply conforms_number; [done..|]; by apply bool_decide_eq_true in H|].
  clear Ht. case_bool_decide as Ht.
  { destruct (as_number d) as [t|] eqn:Hn; [|done]. apply bool_decide_eq_true in H. by eapply conforms_integer. }
  clear Ht. case_bool_decide as Ht.
  { destruct (non_nil_map d) as [m|] eqn:Hm; [|done]. destruct below as [|below]; [done|]. eapply conforms_object; [done..|].
    eapply object_value_sound; [done|]. intros name p x Hp Hx Hv. apply (IHroom below); [lia|done|by eapply good_property|].
    by eapply (good_non_nil_map d m). }
  clear Ht. case_bool_decide as Ht; [|done]. destruct (as_list d) as [l|] eqn:Hl; [|done].
  destruct (s !! "items") as [raw|] eqn:Hi; [|done]. destruct (non_nil_map raw) as [item|] eqn:Hitem; [|done].
  assert (His : items s = Some item) by (unfold items; rewrite Hi; exact Hitem).
  eapply conforms_array; [done..|]. intros x Hx. rewrite forallb_forall in H. apply (IHroom below); [lia|by apply H, list_elem_of_In|by eapply good_items|].
  pose proof (good_list _ _ Hd Hl) as Hg. rewrite Forall_forall in Hg. auto.
Qed.

(** Comparisons of literal strings, computed. *)
Ltac literals :=
  repeat match goal with
  | |- context [bool_decide (?a = ?b)] =>
    let v := eval vm_compute in (bool_decide (a = b)) in
    match v with true => idtac | false => idtac end; change (bool_decide (a = b)) with v
  | H : context [bool_decide (?a = ?b)] |- _ =>
    let v := eval vm_compute in (bool_decide (a = b)) in
    match v with true => idtac | false => idtac end; change (bool_decide (a = b)) with v in H
  end.

Definition validated (s : object) : Prop := exists room, validateValueSchema room s = true.

Lemma validated_inv s : validated s ->
  (forall raw, s !! "enum" = Some raw -> is_Some (as_list raw)) /\
  (schemaType s = "object" -> exists below, object_schema (validateValueSchema below) s = true) /\
  (forall item, schemaType s = "array" -> items s = Some item -> validated item).
Proof.
  intros [[|below] H]; [done|]. cbn [validateValueSchema] in H. cbv zeta in H. rewrite !andb_true_iff in H. destruct H as ((_ & He) & H).
  split_and!.
  - intros raw Hraw. unfold absent_or in He. rewrite Hraw in He. destruct (as_list raw); [eauto|done].
  - intros Ht. rewrite Ht in H. literals. by exists below.
  - intros item Ht Hi. rewrite Ht in H. literals. exists below. unfold items in Hi. destruct (s !! "items") as [raw|]; [|done].
    cbn [mbind option_bind] in Hi. by rewrite Hi in H.
Qed.

(** A member of an object is one of its pairs. *)
Lemma object_member d m k x : non_nil_map d = Some m -> m !! k = Some x -> exists l b, d = DObj l /\ (b, x) ∈ l.
Proof.
  intros Hm Hx. destruct d as [| | | | |l]; try done. injection Hm as <-. exists l. cut (exists b, (b, x) ∈ l); [naive_solver|].
  induction l as [|[b y] l IH] using rev_ind; [simpl in Hx; by rewrite lookup_empty in Hx|]. rewrite foldl_app in Hx. cbn [foldl fst snd] in Hx.
  destruct (decide (unquote b = k)) as [<- | Hne]; [rewrite lookup_insert_eq in Hx|rewrite lookup_insert_ne in Hx by done].
  - injection Hx as ->. exists b. apply elem_of_app. right. by apply list_elem_of_singleton.
  - destruct (IH Hx) as [b' Hb']. exists b'. apply elem_of_app. by left.
Qed.

Lemma foldr_max_ge n l x : x ∈ l -> (x <= foldr Nat.max n l)%nat.
Proof. induction l as [|y l IH]; simpl; [by intros ?%not_elem_of_nil|]. intros [-> | H]%elem_of_cons; [lia|]. apply IH in H. lia. Qed.

Lemma foldr_max_le {A} (f g : A -> nat) l : Forall (fun x => (f x <= 2 * g x + 1)%nat) l -> (foldr Nat.max 0 (f <$> l) <= 2 * foldr Nat.max 0 (g <$> l) + 1)%nat.
Proof. intros H. induction H as [|x l Hx _ IH]; [simpl; lia|]. rewrite !fmap_cons. cbn [foldr]. lia. Qed.

(** At most two counted levels for each object or array. *)
Lemma levels_nesting d : (counted_levels d <= 2 * nesting d + 1)%nat.
Proof.
  induction d as [| | | |l IH|l IH] using doc_nested; simpl; try lia.
  - apply foldr_max_le in IH. lia.
  - apply (foldr_max_le (fun kd => counted_levels kd.2) (fun kd => nesting kd.2)) in IH. lia.
Qed.

Lemma nesting_member d m k x : non_nil_map d = Some m -> m !! k = Some x -> (S (nesting x) <= nesting d)%nat.
Proof.
  intros Hm Hx. destruct (object_member _ _ _ _ Hm Hx) as (l & b & -> & Hb). simpl. pose proof (foldr_max_ge 0 ((fun kd => nesting kd.2) <$> l) (nesting x)) as H.
  rewrite list_elem_of_fmap in H. specialize (H (ex_intro _ (b, x) (conj eq_refl Hb))). lia.
Qed.

Lemma levels_pos d : (1 <= counted_levels d)%nat.
Proof. destruct d; simpl; lia. Qed.

Lemma levels_list d l x : as_list d = Some l -> x ∈ l -> (S (counted_levels x) <= counted_levels d)%nat.
Proof.
  intros Hl Hx. destruct d; try done; injection Hl as <-; [by apply not_elem_of_nil in Hx|]. simpl.
  pose proof (foldr_max_ge 0 (counted_levels <$> l0) (counted_levels x)) as H. rewrite list_elem_of_fmap in H. specialize (H (ex_intro _ x (conj eq_refl Hx))). lia.
Qed.

Lemma levels_member d m k x : non_nil_map d = Some m -> m !! k = Some x -> (S (S (counted_levels x)) <= counted_levels d)%nat.
Proof.
  intros Hm Hx. destruct (object_member _ _ _ _ Hm Hx) as (l & b & -> & Hb). simpl. pose proof (foldr_max_ge 0 ((fun kd => counted_levels kd.2) <$> l) (counted_levels x)) as H.
  rewrite list_elem_of_fmap in H. specialize (H (ex_intro _ (b, x) (conj eq_refl Hb))). lia.
Qed.

Lemma validateValue_complete room s d :
  validated s -> good_map s -> good d -> conforms s d -> (counted_levels d <= room)%nat -> validateValue room s d = true.
Proof.
  revert s d. induction room as [room IHroom] using lt_wf_ind. intros s d Hv Hs Hd Hc Hroom.
  pose proof (levels_pos d) as Hpos. destruct room as [|below]; [lia|]. destruct (validated_inv s Hv) as (Hel & Hobj & Harr).
  cbn [validateValue]. cbv zeta. apply andb_true_iff. split.
  { apply enumerated_iff; [done..|]. by destruct Hc. }
  destruct Hc as [s d _ Ht H|s d _ Ht H|s d _ Ht H|s d t _ Ht Hn H|s d m _ Ht Hm H|s d l item _ Ht Hl Hi H]; rewrite Ht; literals.
  - apply bool_decide_eq_true. destruct H as [-> | [b ->]]; simpl; eauto.
  - apply bool_decide_eq_true. destruct H as [-> | [b ->]]; simpl; eauto.
  - by apply bool_decide_eq_true.
  - rewrite Hn. by apply bool_decide_eq_true.
  - rewrite Hm. destruct (Hobj Ht) as [b Hobj']. destruct (object_schema_inv _ _ Hobj') as (_ & Hdec & Hch & Hreq & Hadd).
    assert (Hm2 : (2 <= S below)%nat) by (destruct d; try done; simpl in Hroom; lia). destruct below as [|below]; [lia|].
    apply object_value_complete; [done..|]. intros name p x Hp Hx Hcx. pose proof (levels_member d m name x Hm Hx).
    apply IHroom; [lia|exists b; by eapply Hch|by eapply good_property|by eapply (good_non_nil_map d m)|done|lia].
  - rewrite Hl. pose proof Hi as Hi'. unfold items in Hi'. destruct (s !! "items") as [raw|]; [|done]. cbn [mbind option_bind] in Hi'. rewrite Hi'.
    apply forallb_forall. intros x Hx%list_elem_of_In. pose proof (levels_list d l x Hl Hx).
    pose proof (good_list _ _ Hd Hl) as Hg. rewrite Forall_forall in Hg.
    apply IHroom; [lia|by eapply Harr|by eapply good_items|by apply Hg|by apply H|lia].
Qed.

(** ** The theorem *)

Section general.
Context (compile : any -> option (any -> bool)).

(** C38: under an accepted schema of the bounded profile, arguments are accepted only if
    they conform to it.  Conforming ones are accepted, in canonical form, if at most eight
    objects and arrays lie inside each other, the arguments themselves included, or if every
    argument that the schema names has at most 16 levels as the validator counts them
    ([counted_levels]: two for each object, one for each array and for any other value).
    Deeper ones can be refused although they conform ([schema_profile_gaps]). *)
Theorem arguments_decided version schemaRaw c document s argumentsRaw d m :
  CanonicalSchema compile version schemaRaw = Some (VersionV1, c) ->
  parse c = Some document -> non_nil_map document = Some s -> decoded_arguments argumentsRaw d m ->
  (is_Some (CanonicalArguments compile version schemaRaw argumentsRaw) -> conforms_members s m) /\
  (conforms_members s m ->
   (nesting d <= 8)%nat \/ (forall name p x, property s name = Some p -> m !! name = Some x -> (counted_levels x <= 16)%nat) ->
   exists out, CanonicalArguments compile version schemaRaw argumentsRaw = Some out /\ marshal (json_raw_map m) = Some out).
Proof.
  intros Hs Hc Hdoc Hargs. destruct (canonical_v1 _ _ _ _ Hs) as (schema & Has & Hpc & _ & Hgood & Hval).
  rewrite Hpc in Hc. injection Hc as <-. rewrite Has in Hdoc. injection Hdoc as <-.
  assert (Hd : good d) by (exists 0%nat; destruct Hargs as (_ & Hp & _); by eapply parse_ok).
  assert (Hm : non_nil_map d = Some m) by apply Hargs.
  assert (Hmg : good_map m) by (by eapply good_non_nil_map).
  split.
  - intros [out (v & c' & d' & m' & Hs' & (_ & Hp' & Hm') & Ha & _)%arguments_iff]. rewrite Hs in Hs'. injection Hs' as <- <-.
    destruct Hargs as (_ & Hp & _). rewrite Hp in Hp'. injection Hp' as <-. rewrite Hm in Hm'. injection Hm' as <-.
    unfold accepts in Ha. literals. destruct Ha as (document & s & Hpd & Hmd & Hv). rewrite Hpc in Hpd. injection Hpd as <-.
    unfold non_nil_map in Has. rewrite Hmd in Has. subst s. cbn [default] in Hv.
    eapply object_value_sound; [exact Hv|]. intros name p x Hp1 Hx Hvx.
    eapply validateValue_sound; [exact Hvx|exact (good_property _ _ _ Hgood Hp1)|by eapply Hmg].
  - intros Hconf Hlev. destruct (object_schema_inv _ _ Hval) as (Ht & Hdec & Hch & Hreq & Hadd).
    exists (of_bytes (print (DObj (raw_members m)))). split; [|apply marshal_raw_map].
    apply arguments_iff. exists VersionV1, c, d, m. split_and!; [done|done| |apply marshal_raw_map].
    unfold accepts. literals. exists (DObj (raw_members schema)), (Some (html_map schema)). split_and!; [done| |].
    + exact (f_equal Some Has).
    + apply object_value_complete; [done..|]. intros name p x Hp Hx Hcx.
      assert (Hx16 : (counted_levels x <= 16)%nat) by (destruct Hlev as [Hn|Hn]; [pose proof (nesting_member d m name x Hm Hx); pose proof (levels_nesting x); lia|by eapply Hn]).
      apply validateValue_complete; [eexists; by eapply Hch|exact (good_property _ _ _ Hgood Hp)|by eapply Hmg|done|lia].
Qed.

End general.

(** ** Examples *)

(** JSON text with apostrophes for quotes. *)
Definition text (s : string) : string := of_bytes ((fun c => if c =? 39 then 34 else c) <$> bytes s).

(** A compiler of general schemas that asks for an object. *)
Definition object_compiler (schema : any) : option (any -> bool) :=
  match schema with AMap _ => Some (fun v => match v with AMap _ => true | _ => false end) | _ => None end.

Definition mode_schema : string := text
  "{ 'type':'object', 'properties':{'mode':{'type':'string','enum':['fast','slow']},'count':{'type':'integer'}}, 'required':['mode'],
     'additionalProperties':false }".
Definition mode_arguments : string := text "{ 'mode' : 'fast', 'count' : 3 }".

Definition mode_canonical : string := Eval vm_compute in
  match CanonicalSchema object_compiler VersionV1 mode_schema with Some (_, c) => c | None => "" end.
Definition mode_canonical_document : doc := Eval vm_compute in default DNull (parse mode_canonical).
Definition mode_arguments_document : doc := Eval vm_compute in default DNull (parse mode_arguments).
Definition as_object (d : doc) : object := default ∅ (non_nil_map d).

Lemma canonical_schema_fixed_witness :
  CanonicalSchema object_compiler VersionV2 (text "{'type' : 'object', 'title':'a<b'}") =
    Some (VersionV2, text "{'title':'a\u003cb','type':'object'}") /\
  CanonicalSchema object_compiler VersionV2 (text "{'title':'a\u003cb','type':'object'}") =
    Some (VersionV2, text "{'title':'a\u003cb','type':'object'}").
Proof.
  assert (H : CanonicalSchema object_compiler VersionV2 (text "{'type' : 'object', 'title':'a<b'}") =
    Some (VersionV2, text "{'title':'a\u003cb','type':'object'}")) by (vm_compute; reflexivity).
  split; [exact H|]. exact (canonical_schema_fixed _ _ _ _ _ H).
Defined.

Lemma canonical_arguments_fixed_witness :
  CanonicalArguments object_compiler VersionV1 mode_schema (text "{'count':3,'mode':'fast'}") = Some (text "{'count':3,'mode':'fast'}").
Proof.
  assert (H : CanonicalArguments object_compiler VersionV1 mode_schema mode_arguments = Some (text "{'count':3,'mode':'fast'}"))
    by (vm_compute; reflexivity).
  apply (canonical_arguments_fixed _ _ _ _ _ H). vm_compute. discriminate.
Defined.

Lemma arguments_decided_witness : conforms_members (as_object mode_canonical_document) (as_object mode_arguments_document).
Proof.
  assert (Hs : CanonicalSchema object_compiler VersionV1 mode_schema = Some (VersionV1, mode_canonical)) by (vm_compute; reflexivity).
  assert (Hc : parse mode_canonical = Some mode_canonical_document) by (vm_compute; reflexivity).
  assert (Hd : decoded_arguments mode_arguments mode_arguments_document (as_object mode_arguments_document)).
  { split; [vm_compute; discriminate|]. split; vm_compute; reflexivity. }
  apply (arguments_decided object_compiler _ _ _ _ (as_object mode_canonical_document) _ _ _ Hs Hc eq_refl Hd).
  exists (text "{'count':3,'mode':'fast'}"). vm_compute. reflexivity.
Defined.

(** ** Where the profile departs from its description *)

Definition one_property (property : string) : string := "{'type':'object','properties':{'x':" +:+ property +:+ "}}".

(** Object schemas nested [n] deep, and arguments of that shape. *)
Fixpoint nested_schema (n : nat) : string :=
  match n with O => "{'type':'object'}" | S n => one_property (nested_schema n) end.
Fixpoint nested_arguments (n : nat) : string := match n with O => "{}" | S n => "{'x':" +:+ nested_arguments n +:+ "}" end.

(** An enumerated string with an HTML character is refused as written and accepted
    only in its escaped spelling; null passes for a string and a numeral in quotes for
    a number; and a schema may nest sixteen objects while its arguments may nest only
    eight. *)
Theorem schema_profile_gaps :
  let accepted s a := bool_decide (is_Some (CanonicalArguments object_compiler VersionV1 (text s) (text a))) in
  (accepted (one_property "{'type':'string','enum':['a<b']}") "{'x':'a<b'}" = false /\
   accepted (one_property "{'type':'string','enum':['a<b']}") "{'x':'a\u003cb'}" = true) /\
  (accepted (one_property "{'type':'string'}") "{'x':null}" = true /\
   accepted (one_property "{'type':'number'}") "{'x':'12'}" = true) /\
  (is_Some (CanonicalSchema object_compiler VersionV1 (text (nested_schema 16))) /\
   accepted (nested_schema 16) (nested_arguments 8) = true /\
   accepted (nested_schema 16) (nested_arguments 9) = false).
Proof. vm_compute. split_and!; try reflexivity. eexists. reflexivity. Qed.
