(* ===== verification/Sdk.v ===== *)
(** * Public SDK vocabulary

    Models [sdk/go/ids.go] (opaque identifiers: parsing, JSON, redaction) and the
    part of [sdk/go/types.go] that the runtime's state is made of.  Each
    identifier type is a string, as in the source; the enumerated string types
    are inductive types whose [..._text] functions give the source's constants.
    A constructor ending in [None_] is the Go zero value (the empty string). *)

From Stdlib Require Import Ascii String.
From S2P Require Import Prelude GoString GoTime GoJson.

Open Scope Z_scope.

(** ** Identifiers *)

Definition AgentID := string.
Definition AgentRevisionID := string.
Definition SessionID := string.
Definition InputID := string.
Definition TurnID := string.
Definition EventID := string.
Definition Cursor := string.
Definition ArtifactID := string.
Definition ApprovalID := string.

Definition agentPrefix : string := "agent_".
Definition agentRevisionPrefix : string := "arev_".
Definition sessionPrefix : string := "sess_".
Definition inputPrefix : string := "inpt_".
Definition turnPrefix : string := "turn_".
Definition eventPrefix : string := "evt_".
Definition cursorPrefix : string := "cur_".
Definition artifactPrefix : string := "art_".
Definition approvalPrefix : string := "appr_".
Definition requestPrefix : string := "req_".

Definition asciiAlphaNumeric (c : Z) : bool := is_lower c || is_upper c || is_digit c.

Definition validPayload (payload : string) : bool :=
  if len payload =? 16 then all_runes asciiAlphaNumeric payload else false.

(** [parseID[T](value, prefix)]: [None] is the error. *)
Definition parseID (value prefix : string) : option string :=
  if negb (HasPrefix value prefix) || negb (validPayload (TrimPrefix value prefix))
  then None else Some value.

Definition ParseAgentID (value : string) : option AgentID := parseID value agentPrefix.
Definition ParseAgentRevisionID (value : string) : option AgentRevisionID := parseID value agentRevisionPrefix.
Definition ParseSessionID (value : string) : option SessionID := parseID value sessionPrefix.
Definition ParseInputID (value : string) : option InputID := parseID value inputPrefix.
Definition ParseTurnID (value : string) : option TurnID := parseID value turnPrefix.
Definition ParseEventID (value : string) : option EventID := parseID value eventPrefix.
Definition ParseCursor (value : string) : option Cursor := parseID value cursorPrefix.
Definition ParseArtifactID (value : string) : option ArtifactID := parseID value artifactPrefix.
Definition ParseApprovalID (value : string) : option ApprovalID := parseID value approvalPrefix.

(** [marshalID]: an invalid identifier is an encoding error. *)
Definition marshalID (id prefix : string) : jval :=
  match parseID id prefix with Some _ => JStr id | None => JFail end.

(** [redactID]: the prefix and the last four characters. *)
Definition redactID (id prefix : string) : string :=
  match parseID id prefix with
  | None => "[INVALID ID]"
  | Some value => prefix +:+ "..." +:+ drop_bytes (String.length value - 4) value
  end.

(** ** Enumerations *)

Inductive SessionState : Type :=
| SessionStateNone_ | SessionOpen | SessionClosing | SessionCompleted | SessionCancelled | SessionFailed.

Inductive TurnState : Type :=
| TurnStateNone_ | TurnQueued | TurnRunning | TurnWaitingForApproval
| TurnSucceeded | TurnFailed | TurnCancelled.

Inductive EventKind : Type :=
| EventKindNone_ | EventSessionCreated | EventInputAccepted | EventTurnQueued | EventTurnStarted
| EventTurnSucceeded | EventTurnFailed | EventTurnCancelled | EventProducerGap
| EventApprovalResolved | EventApprovalExpired | EventApprovalCancelled
| EventSandboxOperationFinalized | EventSessionClosing | EventSessionCompleted
| EventSessionCancelled | EventSessionFailed.

Inductive PolicyDecision : Type :=
| PolicyDenied | PolicyRequiresApproval | PolicyDecisionOther (raw : string).

Definition PolicyDecision_text (d : PolicyDecision) : string :=
  match d with
  | PolicyDenied => "denied"
  | PolicyRequiresApproval => "requires_approval"
  | PolicyDecisionOther raw => raw
  end.

Definition TurnState_text (s : TurnState) : string :=
  match s with
  | TurnStateNone_ => "" | TurnQueued => "queued" | TurnRunning => "running"
  | TurnWaitingForApproval => "waiting_for_approval" | TurnSucceeded => "succeeded"
  | TurnFailed => "failed" | TurnCancelled => "cancelled"
  end.

(** The strings of [ApprovalState]. *)
Definition ApprovalPending : string := "pending".
Definition ApprovalApproved : string := "approved".
Definition ApprovalDenied : string := "denied".
Definition ApprovalExpired : string := "expired".
Definition ApprovalCancelled : string := "cancelled".

#[export] Instance SessionState_eq_dec : EqDecision SessionState.
Proof. solve_decision. Defined.
#[export] Instance TurnState_eq_dec : EqDecision TurnState.
Proof. solve_decision. Defined.
#[export] Instance EventKind_eq_dec : EqDecision EventKind.
Proof. solve_decision. Defined.
#[export] Instance PolicyDecision_eq_dec : EqDecision PolicyDecision.
Proof. solve_decision. Defined.

(** ** Records *)

Record PolicyRule : Type := mkPolicyRule { ToolName : string; Decision_ : PolicyDecision }.

#[export] Instance PolicyRule_eq_dec : EqDecision PolicyRule.
Proof. solve_decision. Defined.

Record Failure : Type := mkFailure {
  Code : string;
  Message : string;
  Retryable : bool;
  Details : gmap string string
}.

#[export] Instance Failure_eq_dec : EqDecision Failure.
Proof. solve_decision. Defined.

Record ModelUsage : Type := mkUsage { InputTokens : option Z; OutputTokens : option Z }.

#[export] Instance ModelUsage_eq_dec : EqDecision ModelUsage.
Proof. solve_decision. Defined.

(** [Failure]'s JSON form: [details] is omitted when the map is empty. *)
Definition json_failure (f : Failure) : jval :=
  JObj ([("code", JStr (Code f)); ("message", JStr (Message f)); ("retryable", JBool (Retryable f))] ++
        (if Details f ≟ ∅ then [] else [("details", json_string_map (Details f))])).

(** [PolicyRule]'s JSON form. *)
Definition json_rule (r : PolicyRule) : jval :=
  JObj [("tool_name", JStr (ToolName r)); ("decision", JStr (PolicyDecision_text (Decision_ r)))].

(** ** Lemmas *)

Lemma HasPrefix_app p x : HasPrefix (p +:+ x) p = true.
Proof.
  induction p as [|c p IH]; [done|]. rewrite append_cons. simpl. by rewrite Ascii.eqb_refl, IH.
Qed.

Lemma drop_bytes_app p x : drop_bytes (String.length p) (p +:+ x) = x.
Proof. induction p as [|c p IH]; [by destruct x|]. rewrite append_cons. exact IH. Qed.

Lemma TrimPrefix_app p x : TrimPrefix (p +:+ x) p = x.
Proof. unfold TrimPrefix. by rewrite HasPrefix_app, drop_bytes_app. Qed.

Lemma HasPrefix_split s p : HasPrefix s p = true -> exists x, s = p +:+ x.
Proof.
  revert s. induction p as [|c p IH]; intros s; simpl; [eauto|].
  destruct s as [|d s]; [done|]. intros [->%Ascii.eqb_eq H]%andb_true_iff.
  apply IH in H as [x ->]. exists x. by rewrite append_cons.
Qed.

Lemma parseID_value value prefix id : parseID value prefix = Some id -> id = value.
Proof. unfold parseID. case_match; congruence. Qed.

Lemma parseID_spec value prefix :
  is_Some (parseID value prefix) <->
  exists payload, value = prefix +:+ payload /\ validPayload payload = true.
Proof.
  unfold parseID. split.
  - destruct (HasPrefix value prefix) eqn:Hp; simpl; [|by intros [? ?]].
    apply HasPrefix_split in Hp as [x ->]. rewrite TrimPrefix_app.
    destruct (validPayload x) eqn:Hv; simpl; [eauto | by intros [? ?]].
  - intros (x & -> & Hv). rewrite HasPrefix_app, TrimPrefix_app, Hv. simpl. eauto.
Qed.

Lemma parseID_nonempty value prefix id : parseID value prefix = Some id -> id <> "".
Proof.
  intros H. pose proof (parseID_value _ _ _ H) as ->.
  destruct (proj1 (parseID_spec value prefix) (mk_is_Some _ _ H)) as (x & -> & Hv).
  intros Heq. assert (Hl : len x = 0).
  { apply (f_equal String.length) in Heq. unfold len. simpl in Heq.
    revert Heq. clear. induction prefix as [|c p IH]; [intros H; simpl in *|by rewrite append_cons].
    rewrite append_nil in H. lia. }
  unfold validPayload in Hv. rewrite Hl in Hv. done.
Qed.
