(* ===== verification/SdkTypes.v ===== *)
(** * The public records

    The records of sdk/go/types.go that requests and answers are made of, shared by the
    conversation kernel, the content store and the state runtime.  A nil slice of tools or
    parts is the empty list. *)

From stdpp Require Import gmap.
From Stdlib Require Import Ascii String.
From S2P Require Import Prelude GoString GoTime GoJson Sdk.

Open Scope Z_scope.

Record ToolDefinition : Type := mkTool {
  tol_Name : string; tol_Description : string; tol_InputSchemaVersion : string; tol_InputSchema : string
}.

Record AgentSpecification : Type := mkSpecification {
  spc_ID : AgentID; spc_RevisionID : AgentRevisionID; spc_Revision : Z; spc_Name : string; spc_ModelProfile : string;
  spc_Instructions : string; spc_Tools : list ToolDefinition; spc_CreatedAt : Time
}.

Definition noSpecification : AgentSpecification := mkSpecification "" "" 0 "" "" "" [] zeroTime.

Record Session : Type := mkPublicSession {
  ssn_ID : SessionID; ssn_AgentID : AgentID; ssn_AgentRevision : AgentRevisionID; ssn_State : SessionState;
  ssn_CreatedAt : Time; ssn_UpdatedAt : Time
}.

Definition noSession : Session := mkPublicSession "" "" "" SessionStateNone_ zeroTime zeroTime.

Record ArtifactReference : Type := mkArtifactReference { art_ID : ArtifactID; art_MediaType : string; art_SizeBytes : Z; art_SHA256 : string }.
#[export] Instance ArtifactReference_eq_dec : EqDecision ArtifactReference.
Proof. solve_decision. Defined.

Record ContentPart : Type := mkPart { prt_Kind : string; prt_Text : string; prt_Artifact : option ArtifactReference }.

Definition ContentText : string := "text".
Definition ContentArtifact : string := "artifact".

Record Input : Type := mkPublicInput { ipt_ID : InputID; ipt_Parts : list ContentPart; ipt_AcceptedAt : Time }.

Definition noInput : Input := mkPublicInput "" [] zeroTime.

Record Turn : Type := mkPublicTurn {
  trn_ID : TurnID; trn_InputID : InputID; trn_Position : Z; trn_State : TurnState; trn_StartedAt : option Time;
  trn_CompletedAt : option Time; trn_Failure : option Failure; trn_Usage : option ModelUsage; trn_Output : option ArtifactReference
}.

Record Event : Type := mkPublicEvent {
  evt_ID : EventID; evt_Cursor : Cursor; evt_Sequence : Z; evt_Kind : EventKind; evt_SessionID : SessionID;
  evt_InputID : InputID; evt_TurnID : TurnID; evt_OccurredAt : Time
}.

Record CreateAgentRequest : Type := mkCreateAgent {
  rca_IdempotencyKey : string; rca_Name : string; rca_ModelProfile : string; rca_Instructions : string; rca_Tools : list ToolDefinition
}.
Record ReviseAgentRequest : Type := mkReviseAgent {
  rva_AgentID : AgentID; rva_IdempotencyKey : string; rva_ModelProfile : string; rva_Instructions : string; rva_Tools : list ToolDefinition
}.
Record CreateSessionRequest : Type := mkCreateSession { crs_IdempotencyKey : string; crs_AgentRevision : AgentRevisionID }.
Record SendInputRequest : Type := mkSendInput { sni_SessionID : SessionID; sni_IdempotencyKey : string; sni_Parts : list ContentPart }.
Record SendInputResult : Type := mkSendResult { snr_Input : Input; snr_Turn : Turn }.
Record CancelTurnRequest : Type := mkCancelTurn { cnt_SessionID : SessionID; cnt_TurnID : TurnID; cnt_IdempotencyKey : string }.
Record CloseSessionRequest : Type := mkCloseSession { cls_SessionID : SessionID; cls_IdempotencyKey : string }.
Record CancelSessionRequest : Type := mkCancelSession { cns_SessionID : SessionID; cns_IdempotencyKey : string }.

Record SessionView : Type := mkView {
  viw_Session : Session; viw_ActiveTurn : option Turn; viw_QueuedTurns : list Turn; viw_QueuedTurnCount : Z;
  viw_QueuedTurnsTruncated : bool; viw_RecentEvents : list Event
}.

Record EventGap : Type := mkEventGap { gap_RequestedAfter : Cursor; gap_Earliest : Cursor; gap_InspectSession : bool }.
#[export] Instance EventGap_eq_dec : EqDecision EventGap.
Proof. solve_decision. Defined.

Record EventPage : Type := mkPage { pag_Events : list Event; pag_NextCursor : Cursor; pag_Gap : option EventGap }.
