(* ===== verification/StateContract.v ===== *)
(** * Runtime state: records and commands

    Models the data of [internal/runtimestate/contract.go]: the metadata records,
    the effect set, the state aggregate of [planner.go] and the commands.  The
    source passes records by value and clones every slice at a boundary
    ([Clone], [Owned]); with immutable values those copies are identities.

    A record's fields carry a three-letter prefix (Rocq's projections share one
    name space); [xxx_set_F] is the Go assignment [x.F = v] on a copy.  A field
    of type [*T] is an [option].  [zeroX] is the Go zero value [X{}].  Integers
    of type [uint64], [uint32] and [int64] are [Z]; the operations write their
    wrap-around. *)

From S2P Require Import Prelude GoString GoTime GoJson Sdk.

Open Scope Z_scope.

Definition TenantID := string.
Definition PrincipalID := string.
Definition RequestDigest := string.
Definition OperationID := string.
Definition InvocationID := string.
Definition AuditFactID := string.
Definition OutboxID := string.

Inductive Authority : Type :=
| AuthorityNone_ | AuthorityTenantAdministrator | AuthoritySessionOwner | AuthorityRuntimeWorker
| AuthorityAuditReader | AuthorityOutboxPublisher.

Inductive ToolExecutionState : Type :=
| ToolExecutionStateNone_ | ToolExecutionIntent | ToolExecutionSucceeded | ToolExecutionFailed
| ToolExecutionUncertain.

Inductive InvocationState : Type :=
| InvocationStateNone_ | InvocationIntent | InvocationSucceeded | InvocationFailed
| InvocationUncertain | InvocationCancelled.

Inductive OutboxState : Type :=
| OutboxStateNone_ | OutboxPending | OutboxClaimed | OutboxPublished | OutboxReconcile.

(** Errors that cross the state authority, and the error of a failed identifier
    allocation ([fmt.Errorf("allocate runtime state ...")] or a parse error). *)
Inductive StateError : Type :=
| ErrConflict | ErrNotFoundOrDenied | ErrUnavailable | ErrIntegrity | ErrReceiptExpired
| ErrContext | ErrAllocate | ErrInvalidCommand.

#[export] Instance Authority_eq_dec : EqDecision Authority.
Proof. solve_decision. Defined.
#[export] Instance ToolExecutionState_eq_dec : EqDecision ToolExecutionState.
Proof. solve_decision. Defined.
#[export] Instance InvocationState_eq_dec : EqDecision InvocationState.
Proof. solve_decision. Defined.
#[export] Instance OutboxState_eq_dec : EqDecision OutboxState.
Proof. solve_decision. Defined.
#[export] Instance StateError_eq_dec : EqDecision StateError.
Proof. solve_decision. Defined.

Definition Authority_text (a : Authority) : string :=
  match a with
  | AuthorityNone_ => "" | AuthorityTenantAdministrator => "tenant_administrator"
  | AuthoritySessionOwner => "session_owner" | AuthorityRuntimeWorker => "runtime_worker"
  | AuthorityAuditReader => "audit_reader" | AuthorityOutboxPublisher => "outbox_publisher"
  end.

(** ** Records *)

(** Immutable content metadata (runtimecontent.Reference). *)
Record Reference : Type := mkReference {
  ref_Digest : string;
  ref_MediaType : string;
  ref_SizeBytes : Z
}.
#[export] Instance Reference_eq_dec : EqDecision Reference.
Proof. solve_decision. Defined.
Definition zeroReference : Reference :=
  mkReference "" "" 0.

(** Authenticated application metadata of a command or query. *)
Record MutationScope : Type := mkScope {
  sco_Tenant : TenantID;
  sco_Principal : PrincipalID;
  sco_Authority : Authority
}.
#[export] Instance MutationScope_eq_dec : EqDecision MutationScope.
Proof. solve_decision. Defined.
Definition zeroScope : MutationScope :=
  mkScope "" "" AuthorityNone_.

Record AgentRevisionRecord : Type := mkRevision {
  rev_Tenant : TenantID;
  rev_AgentID : AgentID;
  rev_RevisionID : AgentRevisionID;
  rev_Revision : Z;
  rev_Name : string;
  rev_ModelProfile : string;
  rev_Specification : Reference;
  rev_CreatedAt : Time;
  rev_RetainUntil : Time
}.
#[export] Instance AgentRevisionRecord_eq_dec : EqDecision AgentRevisionRecord.
Proof. solve_decision. Defined.
Definition zeroAgentRevisionRecord : AgentRevisionRecord :=
  mkRevision "" "" "" 0 "" "" zeroReference zeroTime zeroTime.

Record PolicyRevisionRecord : Type := mkPolicy {
  pol_Tenant : TenantID;
  pol_Name : string;
  pol_Revision : Z;
  pol_Digest : string;
  pol_Rules : list PolicyRule;
  pol_CreatedAt : Time;
  pol_RetainUntil : Time
}.
#[export] Instance PolicyRevisionRecord_eq_dec : EqDecision PolicyRevisionRecord.
Proof. solve_decision. Defined.
Definition zeroPolicyRevisionRecord : PolicyRevisionRecord :=
  mkPolicy "" "" 0 "" [] zeroTime zeroTime.

Record SessionRecord : Type := mkSession {
  ses_Tenant : TenantID;
  ses_Principal : PrincipalID;
  ses_SessionID : SessionID;
  ses_AgentID : AgentID;
  ses_RevisionID : AgentRevisionID;
  ses_State : SessionState;
  ses_Version : Z;
  ses_CreatedAt : Time;
  ses_UpdatedAt : Time;
  ses_RetainUntil : Time
}.
#[export] Instance SessionRecord_eq_dec : EqDecision SessionRecord.
Proof. solve_decision. Defined.
Definition zeroSessionRecord : SessionRecord :=
  mkSession "" "" "" "" "" SessionStateNone_ 0 zeroTime zeroTime zeroTime.
Definition ses_set_State (v : SessionState) (r : SessionRecord) : SessionRecord :=
  mkSession (ses_Tenant r) (ses_Principal r) (ses_SessionID r) (ses_AgentID r) (ses_RevisionID r)
    v (ses_Version r) (ses_CreatedAt r) (ses_UpdatedAt r) (ses_RetainUntil r).
Definition ses_set_Version (v : Z) (r : SessionRecord) : SessionRecord :=
  mkSession (ses_Tenant r) (ses_Principal r) (ses_SessionID r) (ses_AgentID r) (ses_RevisionID r)
    (ses_State r) v (ses_CreatedAt r) (ses_UpdatedAt r) (ses_RetainUntil r).
Definition ses_set_UpdatedAt (v : Time) (r : SessionRecord) : SessionRecord :=
  mkSession (ses_Tenant r) (ses_Principal r) (ses_SessionID r) (ses_AgentID r) (ses_RevisionID r)
    (ses_State r) (ses_Version r) (ses_CreatedAt r) v (ses_RetainUntil r).

Record InputRecord : Type := mkInput {
  inp_Tenant : TenantID;
  inp_Principal : PrincipalID;
  inp_SessionID : SessionID;
  inp_InputID : InputID;
  inp_Content : Reference;
  inp_AcceptedAt : Time;
  inp_RetentionUntil : Time
}.
#[export] Instance InputRecord_eq_dec : EqDecision InputRecord.
Proof. solve_decision. Defined.
Definition zeroInputRecord : InputRecord :=
  mkInput "" "" "" "" zeroReference zeroTime zeroTime.

Record ArtifactRecord : Type := mkArtifact {
  art_Tenant : TenantID;
  art_Principal : PrincipalID;
  art_ArtifactID : ArtifactID;
  art_SessionID : SessionID;
  art_TurnID : TurnID;
  art_Reference : Reference;
  art_CreatedAt : Time;
  art_RetainUntil : Time
}.
#[export] Instance ArtifactRecord_eq_dec : EqDecision ArtifactRecord.
Proof. solve_decision. Defined.
Definition zeroArtifactRecord : ArtifactRecord :=
  mkArtifact "" "" "" "" "" zeroReference zeroTime zeroTime.

Record ConversationRecord : Type := mkConversation {
  con_Tenant : TenantID;
  con_Principal : PrincipalID;
  con_SessionID : SessionID;
  con_Version : Z;
  con_Reference : Reference;
  con_CreatedAt : Time;
  con_RetainUntil : Time
}.
#[export] Instance ConversationRecord_eq_dec : EqDecision ConversationRecord.
Proof. solve_decision. Defined.
Definition zeroConversationRecord : ConversationRecord :=
  mkConversation "" "" "" 0 zeroReference zeroTime zeroTime.

Record ToolIntentRecord : Type := mkToolIntent {
  int_Tenant : TenantID;
  int_Principal : PrincipalID;
  int_SessionID : SessionID;
  int_TurnID : TurnID;
  int_ToolCallID : string;
  int_ToolName : string;
  int_ActionDigest : string;
  int_ActionDescriptor : Reference;
  int_PolicyRevisionDigest : string;
  int_CreatedAt : Time;
  int_RetainUntil : Time
}.
#[export] Instance ToolIntentRecord_eq_dec : EqDecision ToolIntentRecord.
Proof. solve_decision. Defined.
Record CapabilityGrantRecord : Type := mkGrant {
  gra_Tenant : TenantID;
  gra_Principal : PrincipalID;
  gra_SessionID : SessionID;
  gra_TurnID : TurnID;
  gra_GrantID : string;
  gra_ToolCallID : string;
  gra_CapabilityDigest : string;
  gra_MaximumUses : Z;
  gra_Uses : Z;
  gra_ExpiresAt : Time;
  gra_RevokedAt : option Time;
  gra_PolicyRevisionDigest : string;
  gra_CreatedAt : Time;
  gra_RetainUntil : Time
}.
#[export] Instance CapabilityGrantRecord_eq_dec : EqDecision CapabilityGrantRecord.
Proof. solve_decision. Defined.
Definition zeroCapabilityGrantRecord : CapabilityGrantRecord :=
  mkGrant "" "" "" "" "" "" "" 0 0 zeroTime None "" zeroTime zeroTime.
Definition gra_set_Uses (v : Z) (r : CapabilityGrantRecord) : CapabilityGrantRecord :=
  mkGrant (gra_Tenant r) (gra_Principal r) (gra_SessionID r) (gra_TurnID r) (gra_GrantID r)
    (gra_ToolCallID r) (gra_CapabilityDigest r) (gra_MaximumUses r) v (gra_ExpiresAt r)
    (gra_RevokedAt r) (gra_PolicyRevisionDigest r) (gra_CreatedAt r) (gra_RetainUntil r).
Definition gra_set_RevokedAt (v : option Time) (r : CapabilityGrantRecord) : CapabilityGrantRecord :=
  mkGrant (gra_Tenant r) (gra_Principal r) (gra_SessionID r) (gra_TurnID r) (gra_GrantID r)
    (gra_ToolCallID r) (gra_CapabilityDigest r) (gra_MaximumUses r) (gra_Uses r) (gra_ExpiresAt r) v
    (gra_PolicyRevisionDigest r) (gra_CreatedAt r) (gra_RetainUntil r).

Record ToolExecutionRecord : Type := mkToolExecution {
  exe_Tenant : TenantID;
  exe_Principal : PrincipalID;
  exe_SessionID : SessionID;
  exe_TurnID : TurnID;
  exe_ToolCallID : string;
  exe_GrantID : string;
  exe_OperationID : OperationID;
  exe_State : ToolExecutionState;
  exe_Result : option Reference;
  exe_Failure : option Failure;
  exe_CreatedAt : Time;
  exe_UpdatedAt : Time;
  exe_RetentionUntil : Time
}.
#[export] Instance ToolExecutionRecord_eq_dec : EqDecision ToolExecutionRecord.
Proof. solve_decision. Defined.
Definition exe_set_State (v : ToolExecutionState) (r : ToolExecutionRecord) : ToolExecutionRecord :=
  mkToolExecution (exe_Tenant r) (exe_Principal r) (exe_SessionID r) (exe_TurnID r)
    (exe_ToolCallID r) (exe_GrantID r) (exe_OperationID r) v (exe_Result r) (exe_Failure r)
    (exe_CreatedAt r) (exe_UpdatedAt r) (exe_RetentionUntil r).
Definition exe_set_Result (v : option Reference) (r : ToolExecutionRecord) : ToolExecutionRecord :=
  mkToolExecution (exe_Tenant r) (exe_Principal r) (exe_SessionID r) (exe_TurnID r)
    (exe_ToolCallID r) (exe_GrantID r) (exe_OperationID r) (exe_State r) v (exe_Failure r)
    (exe_CreatedAt r) (exe_UpdatedAt r) (exe_RetentionUntil r).
Definition exe_set_Failure (v : option Failure) (r : ToolExecutionRecord) : ToolExecutionRecord :=
  mkToolExecution (exe_Tenant r) (exe_Principal r) (exe_SessionID r) (exe_TurnID r)
    (exe_ToolCallID r) (exe_GrantID r) (exe_OperationID r) (exe_State r) (exe_Result r) v
    (exe_CreatedAt r) (exe_UpdatedAt r) (exe_RetentionUntil r).
Definition exe_set_UpdatedAt (v : Time) (r : ToolExecutionRecord) : ToolExecutionRecord :=
  mkToolExecution (exe_Tenant r) (exe_Principal r) (exe_SessionID r) (exe_TurnID r)
    (exe_ToolCallID r) (exe_GrantID r) (exe_OperationID r) (exe_State r) (exe_Result r) (exe_Failure
    r) (exe_CreatedAt r) v (exe_RetentionUntil r).

Record ApprovalRecord : Type := mkApproval {
  app_Tenant : TenantID;
  app_Principal : PrincipalID;
  app_ApprovalID : string;
  app_SessionID : SessionID;
  app_TurnID : TurnID;
  app_ToolCallID : string;
  app_ActionDigest : string;
  app_PolicyRevisionDigest : string;
  app_State : string;
  app_CapabilityDigest : string;
  app_ActionVerb : string;
  app_ActionTarget : string;
  app_MaximumUses : Z;
  app_ExpiresAt : Time;
  app_Decision : string;
  app_DecidedAt : option Time;
  app_CreatedAt : Time;
  app_RetainUntil : Time
}.
#[export] Instance ApprovalRecord_eq_dec : EqDecision ApprovalRecord.
Proof. solve_decision. Defined.
Definition zeroApprovalRecord : ApprovalRecord :=
  mkApproval "" "" "" "" "" "" "" "" "" "" "" "" 0 zeroTime "" None zeroTime zeroTime.
Definition app_set_State (v : string) (r : ApprovalRecord) : ApprovalRecord :=
  mkApproval (app_Tenant r) (app_Principal r) (app_ApprovalID r) (app_SessionID r) (app_TurnID r)
    (app_ToolCallID r) (app_ActionDigest r) (app_PolicyRevisionDigest r) v (app_CapabilityDigest r)
    (app_ActionVerb r) (app_ActionTarget r) (app_MaximumUses r) (app_ExpiresAt r) (app_Decision r)
    (app_DecidedAt r) (app_CreatedAt r) (app_RetainUntil r).
Definition app_set_Decision (v : string) (r : ApprovalRecord) : ApprovalRecord :=
  mkApproval (app_Tenant r) (app_Principal r) (app_ApprovalID r) (app_SessionID r) (app_TurnID r)
    (app_ToolCallID r) (app_ActionDigest r) (app_PolicyRevisionDigest r) (app_State r)
    (app_CapabilityDigest r) (app_ActionVerb r) (app_ActionTarget r) (app_MaximumUses r)
    (app_ExpiresAt r) v (app_DecidedAt r) (app_CreatedAt r) (app_RetainUntil r).
Definition app_set_DecidedAt (v : option Time) (r : ApprovalRecord) : ApprovalRecord :=
  mkApproval (app_Tenant r) (app_Principal r) (app_ApprovalID r) (app_SessionID r) (app_TurnID r)
    (app_ToolCallID r) (app_ActionDigest r) (app_PolicyRevisionDigest r) (app_State r)
    (app_CapabilityDigest r) (app_ActionVerb r) (app_ActionTarget r) (app_MaximumUses r)
    (app_ExpiresAt r) (app_Decision r) v (app_CreatedAt r) (app_RetainUntil r).

Record TurnRecord : Type := mkTurn {
  tur_Tenant : TenantID;
  tur_Principal : PrincipalID;
  tur_SessionID : SessionID;
  tur_TurnID : TurnID;
  tur_InputID : InputID;
  tur_Position : Z;
  tur_State : TurnState;
  tur_Version : Z;
  tur_StartedAt : option Time;
  tur_CompletedAt : option Time;
  tur_Failure : option Failure;
  tur_RetentionUntil : Time
}.
#[export] Instance TurnRecord_eq_dec : EqDecision TurnRecord.
Proof. solve_decision. Defined.
Definition zeroTurnRecord : TurnRecord :=
  mkTurn "" "" "" "" "" 0 TurnStateNone_ 0 None None None zeroTime.
Definition tur_set_State (v : TurnState) (r : TurnRecord) : TurnRecord :=
  mkTurn (tur_Tenant r) (tur_Principal r) (tur_SessionID r) (tur_TurnID r) (tur_InputID r)
    (tur_Position r) v (tur_Version r) (tur_StartedAt r) (tur_CompletedAt r) (tur_Failure r)
    (tur_RetentionUntil r).
Definition tur_set_Version (v : Z) (r : TurnRecord) : TurnRecord :=
  mkTurn (tur_Tenant r) (tur_Principal r) (tur_SessionID r) (tur_TurnID r) (tur_InputID r)
    (tur_Position r) (tur_State r) v (tur_StartedAt r) (tur_CompletedAt r) (tur_Failure r)
    (tur_RetentionUntil r).
Definition tur_set_StartedAt (v : option Time) (r : TurnRecord) : TurnRecord :=
  mkTurn (tur_Tenant r) (tur_Principal r) (tur_SessionID r) (tur_TurnID r) (tur_InputID r)
    (tur_Position r) (tur_State r) (tur_Version r) v (tur_CompletedAt r) (tur_Failure r)
    (tur_RetentionUntil r).
Definition tur_set_CompletedAt (v : option Time) (r : TurnRecord) : TurnRecord :=
  mkTurn (tur_Tenant r) (tur_Principal r) (tur_SessionID r) (tur_TurnID r) (tur_InputID r)
    (tur_Position r) (tur_State r) (tur_Version r) (tur_StartedAt r) v (tur_Failure r)
    (tur_RetentionUntil r).
Definition tur_set_Failure (v : option Failure) (r : TurnRecord) : TurnRecord :=
  mkTurn (tur_Tenant r) (tur_Principal r) (tur_SessionID r) (tur_TurnID r) (tur_InputID r)
    (tur_Position r) (tur_State r) (tur_Version r) (tur_StartedAt r) (tur_CompletedAt r) v
    (tur_RetentionUntil r).

Record InvocationRecord : Type := mkInvocation {
  inv_Tenant : TenantID;
  inv_Principal : PrincipalID;
  inv_SessionID : SessionID;
  inv_TurnID : TurnID;
  inv_InvocationID : InvocationID;
  inv_OperationID : OperationID;
  inv_Ordinal : Z;
  inv_Fence : Z;
  inv_State : InvocationState;
  inv_Result : option Reference;
  inv_Failure : option Failure;
  inv_Usage : option ModelUsage;
  inv_CreatedAt : Time;
  inv_UpdatedAt : Time;
  inv_RetentionUntil : Time
}.
#[export] Instance InvocationRecord_eq_dec : EqDecision InvocationRecord.
Proof. solve_decision. Defined.
Definition zeroInvocationRecord : InvocationRecord :=
  mkInvocation "" "" "" "" "" "" 0 0 InvocationStateNone_ None None None zeroTime zeroTime zeroTime.
Definition inv_set_State (v : InvocationState) (r : InvocationRecord) : InvocationRecord :=
  mkInvocation (inv_Tenant r) (inv_Principal r) (inv_SessionID r) (inv_TurnID r) (inv_InvocationID
    r) (inv_OperationID r) (inv_Ordinal r) (inv_Fence r) v (inv_Result r) (inv_Failure r) (inv_Usage
    r) (inv_CreatedAt r) (inv_UpdatedAt r) (inv_RetentionUntil r).
Definition inv_set_Result (v : option Reference) (r : InvocationRecord) : InvocationRecord :=
  mkInvocation (inv_Tenant r) (inv_Principal r) (inv_SessionID r) (inv_TurnID r) (inv_InvocationID
    r) (inv_OperationID r) (inv_Ordinal r) (inv_Fence r) (inv_State r) v (inv_Failure r) (inv_Usage
    r) (inv_CreatedAt r) (inv_UpdatedAt r) (inv_RetentionUntil r).
Definition inv_set_Failure (v : option Failure) (r : InvocationRecord) : InvocationRecord :=
  mkInvocation (inv_Tenant r) (inv_Principal r) (inv_SessionID r) (inv_TurnID r) (inv_InvocationID
    r) (inv_OperationID r) (inv_Ordinal r) (inv_Fence r) (inv_State r) (inv_Result r) v (inv_Usage
    r) (inv_CreatedAt r) (inv_UpdatedAt r) (inv_RetentionUntil r).
Definition inv_set_Usage (v : option ModelUsage) (r : InvocationRecord) : InvocationRecord :=
  mkInvocation (inv_Tenant r) (inv_Principal r) (inv_SessionID r) (inv_TurnID r) (inv_InvocationID
    r) (inv_OperationID r) (inv_Ordinal r) (inv_Fence r) (inv_State r) (inv_Result r) (inv_Failure
    r) v (inv_CreatedAt r) (inv_UpdatedAt r) (inv_RetentionUntil r).
Definition inv_set_UpdatedAt (v : Time) (r : InvocationRecord) : InvocationRecord :=
  mkInvocation (inv_Tenant r) (inv_Principal r) (inv_SessionID r) (inv_TurnID r) (inv_InvocationID
    r) (inv_OperationID r) (inv_Ordinal r) (inv_Fence r) (inv_State r) (inv_Result r) (inv_Failure
    r) (inv_Usage r) (inv_CreatedAt r) v (inv_RetentionUntil r).

Record ProductEventRecord : Type := mkEvent {
  eve_Tenant : TenantID;
  eve_Principal : PrincipalID;
  eve_SessionID : SessionID;
  eve_Sequence : Z;
  eve_Cursor : Cursor;
  eve_EventID : EventID;
  eve_Kind : EventKind;
  eve_InputID : InputID;
  eve_TurnID : TurnID;
  eve_OperationID : OperationID;
  eve_OccurredAt : Time;
  eve_RetentionUntil : Time
}.
#[export] Instance ProductEventRecord_eq_dec : EqDecision ProductEventRecord.
Proof. solve_decision. Defined.
Record AuditFactRecord : Type := mkAudit {
  aud_Tenant : TenantID;
  aud_AuditFactID : AuditFactID;
  aud_OperationID : OperationID;
  aud_Actor : PrincipalID;
  aud_Kind : string;
  aud_SessionID : SessionID;
  aud_TurnID : TurnID;
  aud_AgentRevisionID : AgentRevisionID;
  aud_PolicyRevisionDigest : string;
  aud_CapabilityScopeDigest : string;
  aud_ToolCallID : string;
  aud_OccurredAt : Time;
  aud_RetentionUntil : Time
}.
#[export] Instance AuditFactRecord_eq_dec : EqDecision AuditFactRecord.
Proof. solve_decision. Defined.
Definition aud_set_OperationID (v : OperationID) (r : AuditFactRecord) : AuditFactRecord :=
  mkAudit (aud_Tenant r) (aud_AuditFactID r) v (aud_Actor r) (aud_Kind r) (aud_SessionID r)
    (aud_TurnID r) (aud_AgentRevisionID r) (aud_PolicyRevisionDigest r) (aud_CapabilityScopeDigest
    r) (aud_ToolCallID r) (aud_OccurredAt r) (aud_RetentionUntil r).
Definition aud_set_Kind (v : string) (r : AuditFactRecord) : AuditFactRecord :=
  mkAudit (aud_Tenant r) (aud_AuditFactID r) (aud_OperationID r) (aud_Actor r) v (aud_SessionID r)
    (aud_TurnID r) (aud_AgentRevisionID r) (aud_PolicyRevisionDigest r) (aud_CapabilityScopeDigest
    r) (aud_ToolCallID r) (aud_OccurredAt r) (aud_RetentionUntil r).
Definition aud_set_PolicyRevisionDigest (v : string) (r : AuditFactRecord) : AuditFactRecord :=
  mkAudit (aud_Tenant r) (aud_AuditFactID r) (aud_OperationID r) (aud_Actor r) (aud_Kind r)
    (aud_SessionID r) (aud_TurnID r) (aud_AgentRevisionID r) v (aud_CapabilityScopeDigest r)
    (aud_ToolCallID r) (aud_OccurredAt r) (aud_RetentionUntil r).
Definition aud_set_CapabilityScopeDigest (v : string) (r : AuditFactRecord) : AuditFactRecord :=
  mkAudit (aud_Tenant r) (aud_AuditFactID r) (aud_OperationID r) (aud_Actor r) (aud_Kind r)
    (aud_SessionID r) (aud_TurnID r) (aud_AgentRevisionID r) (aud_PolicyRevisionDigest r) v
    (aud_ToolCallID r) (aud_OccurredAt r) (aud_RetentionUntil r).
Definition aud_set_ToolCallID (v : string) (r : AuditFactRecord) : AuditFactRecord :=
  mkAudit (aud_Tenant r) (aud_AuditFactID r) (aud_OperationID r) (aud_Actor r) (aud_Kind r)
    (aud_SessionID r) (aud_TurnID r) (aud_AgentRevisionID r) (aud_PolicyRevisionDigest r)
    (aud_CapabilityScopeDigest r) v (aud_OccurredAt r) (aud_RetentionUntil r).

Record OutboxRecord : Type := mkOutbox {
  out_Tenant : TenantID;
  out_Principal : PrincipalID;
  out_OutboxID : OutboxID;
  out_Aggregate : string;
  out_AggregateVersion : Z;
  out_Version : Z;
  out_EventID : EventID;
  out_EventKind : EventKind;
  out_EventSequence : Z;
  out_AuditFactID : AuditFactID;
  out_OperationID : OperationID;
  out_ToolCallID : string;
  out_SessionID : SessionID;
  out_TurnID : TurnID;
  out_InvocationID : InvocationID;
  out_InvocationOrdinal : Z;
  out_InvocationFence : Z;
  out_SessionVersion : Z;
  out_TurnVersion : Z;
  out_State : OutboxState;
  out_ClaimedBy : string;
  out_ClaimUntil : option Time;
  out_CommittedAt : Time;
  out_RetentionUntil : Time
}.
#[export] Instance OutboxRecord_eq_dec : EqDecision OutboxRecord.
Proof. solve_decision. Defined.
Definition zeroOutboxRecord : OutboxRecord :=
  mkOutbox "" "" "" "" 0 0 "" EventKindNone_ 0 "" "" "" "" "" "" 0 0 0 0 OutboxStateNone_ "" None
    zeroTime zeroTime.
Definition out_set_Version (v : Z) (r : OutboxRecord) : OutboxRecord :=
  mkOutbox (out_Tenant r) (out_Principal r) (out_OutboxID r) (out_Aggregate r)
    (out_AggregateVersion r) v (out_EventID r) (out_EventKind r) (out_EventSequence r)
    (out_AuditFactID r) (out_OperationID r) (out_ToolCallID r) (out_SessionID r) (out_TurnID r)
    (out_InvocationID r) (out_InvocationOrdinal r) (out_InvocationFence r) (out_SessionVersion r)
    (out_TurnVersion r) (out_State r) (out_ClaimedBy r) (out_ClaimUntil r) (out_CommittedAt r)
    (out_RetentionUntil r).
Definition out_set_AuditFactID (v : AuditFactID) (r : OutboxRecord) : OutboxRecord :=
  mkOutbox (out_Tenant r) (out_Principal r) (out_OutboxID r) (out_Aggregate r)
    (out_AggregateVersion r) (out_Version r) (out_EventID r) (out_EventKind r) (out_EventSequence r)
    v (out_OperationID r) (out_ToolCallID r) (out_SessionID r) (out_TurnID r) (out_InvocationID r)
    (out_InvocationOrdinal r) (out_InvocationFence r) (out_SessionVersion r) (out_TurnVersion r)
    (out_State r) (out_ClaimedBy r) (out_ClaimUntil r) (out_CommittedAt r) (out_RetentionUntil r).
Definition out_set_OperationID (v : OperationID) (r : OutboxRecord) : OutboxRecord :=
  mkOutbox (out_Tenant r) (out_Principal r) (out_OutboxID r) (out_Aggregate r)
    (out_AggregateVersion r) (out_Version r) (out_EventID r) (out_EventKind r) (out_EventSequence r)
    (out_AuditFactID r) v (out_ToolCallID r) (out_SessionID r) (out_TurnID r) (out_InvocationID r)
    (out_InvocationOrdinal r) (out_InvocationFence r) (out_SessionVersion r) (out_TurnVersion r)
    (out_State r) (out_ClaimedBy r) (out_ClaimUntil r) (out_CommittedAt r) (out_RetentionUntil r).
Definition out_set_State (v : OutboxState) (r : OutboxRecord) : OutboxRecord :=
  mkOutbox (out_Tenant r) (out_Principal r) (out_OutboxID r) (out_Aggregate r)
    (out_AggregateVersion r) (out_Version r) (out_EventID r) (out_EventKind r) (out_EventSequence r)
    (out_AuditFactID r) (out_OperationID r) (out_ToolCallID r) (out_SessionID r) (out_TurnID r)
    (out_InvocationID r) (out_InvocationOrdinal r) (out_InvocationFence r) (out_SessionVersion r)
    (out_TurnVersion r) v (out_ClaimedBy r) (out_ClaimUntil r) (out_CommittedAt r)
    (out_RetentionUntil r).
Definition out_set_ClaimedBy (v : string) (r : OutboxRecord) : OutboxRecord :=
  mkOutbox (out_Tenant r) (out_Principal r) (out_OutboxID r) (out_Aggregate r)
    (out_AggregateVersion r) (out_Version r) (out_EventID r) (out_EventKind r) (out_EventSequence r)
    (out_AuditFactID r) (out_OperationID r) (out_ToolCallID r) (out_SessionID r) (out_TurnID r)
    (out_InvocationID r) (out_InvocationOrdinal r) (out_InvocationFence r) (out_SessionVersion r)
    (out_TurnVersion r) (out_State r) v (out_ClaimUntil r) (out_CommittedAt r) (out_RetentionUntil
    r).
Definition out_set_ClaimUntil (v : option Time) (r : OutboxRecord) : OutboxRecord :=
  mkOutbox (out_Tenant r) (out_Principal r) (out_OutboxID r) (out_Aggregate r)
    (out_AggregateVersion r) (out_Version r) (out_EventID r) (out_EventKind r) (out_EventSequence r)
    (out_AuditFactID r) (out_OperationID r) (out_ToolCallID r) (out_SessionID r) (out_TurnID r)
    (out_InvocationID r) (out_InvocationOrdinal r) (out_InvocationFence r) (out_SessionVersion r)
    (out_TurnVersion r) (out_State r) (out_ClaimedBy r) v (out_CommittedAt r) (out_RetentionUntil
    r).

Record MutationReceipt : Type := mkReceipt {
  rec_Scope : MutationScope;
  rec_IdempotencyKey : string;
  rec_OperationID : OperationID;
  rec_Command : string;
  rec_RequestDigest : RequestDigest;
  rec_AgentID : AgentID;
  rec_RevisionID : AgentRevisionID;
  rec_SessionID : SessionID;
  rec_InputID : InputID;
  rec_TurnID : TurnID;
  rec_ArtifactID : ArtifactID;
  rec_PolicyName : string;
  rec_PolicyRevision : Z;
  rec_ConversationVersion : Z;
  rec_AcceptedAt : Time;
  rec_RetentionUntil : Time
}.
#[export] Instance MutationReceipt_eq_dec : EqDecision MutationReceipt.
Proof. solve_decision. Defined.
Definition zeroMutationReceipt : MutationReceipt :=
  mkReceipt zeroScope "" "" "" "" "" "" "" "" "" "" "" 0 0 zeroTime zeroTime.

(** Effects committed atomically with a mutation. *)
Record EffectSet : Type := mkEffects {
  eff_Events : list ProductEventRecord;
  eff_Audit : list AuditFactRecord;
  eff_Outbox : list OutboxRecord
}.
#[export] Instance EffectSet_eq_dec : EqDecision EffectSet.
Proof. solve_decision. Defined.
Definition zeroEffects : EffectSet := mkEffects [] [] [].
Definition eff_set_Audit (v : list AuditFactRecord) (r : EffectSet) : EffectSet :=
  mkEffects (eff_Events r) v (eff_Outbox r).
Definition eff_set_Outbox (v : list OutboxRecord) (r : EffectSet) : EffectSet :=
  mkEffects (eff_Events r) (eff_Audit r) v.

(** The complete metadata state the planner reads and replaces. *)
Record RuntimeState : Type := mkState {
  Revisions : list AgentRevisionRecord;
  Policies : list PolicyRevisionRecord;
  Sessions : list SessionRecord;
  Inputs : list InputRecord;
  Artifacts : list ArtifactRecord;
  Conversations : list ConversationRecord;
  ToolIntents : list ToolIntentRecord;
  Grants : list CapabilityGrantRecord;
  ToolExecutions : list ToolExecutionRecord;
  Approvals : list ApprovalRecord;
  Turns : list TurnRecord;
  Invocations : list InvocationRecord;
  Receipts : list MutationReceipt;
  Events : list ProductEventRecord;
  Audit : list AuditFactRecord;
  Outbox : list OutboxRecord
}.
#[export] Instance RuntimeState_eq_dec : EqDecision RuntimeState.
Proof. solve_decision. Defined.
Definition emptyState : RuntimeState :=
  mkState [] [] [] [] [] [] [] [] [] [] [] [] [] [] [] [].
Definition set_Revisions (v : list AgentRevisionRecord) (st : RuntimeState) : RuntimeState :=
  mkState v (Policies st) (Sessions st) (Inputs st) (Artifacts st) (Conversations st) (ToolIntents
    st) (Grants st) (ToolExecutions st) (Approvals st) (Turns st) (Invocations st) (Receipts st)
    (Events st) (Audit st) (Outbox st).
Definition set_Policies (v : list PolicyRevisionRecord) (st : RuntimeState) : RuntimeState :=
  mkState (Revisions st) v (Sessions st) (Inputs st) (Artifacts st) (Conversations st)
    (ToolIntents st) (Grants st) (ToolExecutions st) (Approvals st) (Turns st) (Invocations st)
    (Receipts st) (Events st) (Audit st) (Outbox st).
Definition set_Sessions (v : list SessionRecord) (st : RuntimeState) : RuntimeState :=
  mkState (Revisions st) (Policies st) v (Inputs st) (Artifacts st) (Conversations st)
    (ToolIntents st) (Grants st) (ToolExecutions st) (Approvals st) (Turns st) (Invocations st)
    (Receipts st) (Events st) (Audit st) (Outbox st).
Definition set_Inputs (v : list InputRecord) (st : RuntimeState) : RuntimeState :=
  mkState (Revisions st) (Policies st) (Sessions st) v (Artifacts st) (Conversations st)
    (ToolIntents st) (Grants st) (ToolExecutions st) (Approvals st) (Turns st) (Invocations st)
    (Receipts st) (Events st) (Audit st) (Outbox st).
Definition set_Artifacts (v : list ArtifactRecord) (st : RuntimeState) : RuntimeState :=
  mkState (Revisions st) (Policies st) (Sessions st) (Inputs st) v (Conversations st) (ToolIntents
    st) (Grants st) (ToolExecutions st) (Approvals st) (Turns st) (Invocations st) (Receipts st)
    (Events st) (Audit st) (Outbox st).
Definition set_Conversations (v : list ConversationRecord) (st : RuntimeState) : RuntimeState :=
  mkState (Revisions st) (Policies st) (Sessions st) (Inputs st) (Artifacts st) v (ToolIntents st)
    (Grants st) (ToolExecutions st) (Approvals st) (Turns st) (Invocations st) (Receipts st) (Events
    st) (Audit st) (Outbox st).
Definition set_ToolIntents (v : list ToolIntentRecord) (st : RuntimeState) : RuntimeState :=
  mkState (Revisions st) (Policies st) (Sessions st) (Inputs st) (Artifacts st) (Conversations st)
    v (Grants st) (ToolExecutions st) (Approvals st) (Turns st) (Invocations st) (Receipts st)
    (Events st) (Audit st) (Outbox st).
Definition set_Grants (v : list CapabilityGrantRecord) (st : RuntimeState) : RuntimeState :=
  mkState (Revisions st) (Policies st) (Sessions st) (Inputs st) (Artifacts st) (Conversations st)
    (ToolIntents st) v (ToolExecutions st) (Approvals st) (Turns st) (Invocations st) (Receipts st)
    (Events st) (Audit st) (Outbox st).
Definition set_ToolExecutions (v : list ToolExecutionRecord) (st : RuntimeState) : RuntimeState :=
  mkState (Revisions st) (Policies st) (Sessions st) (Inputs st) (Artifacts st) (Conversations st)
    (ToolIntents st) (Grants st) v (Approvals st) (Turns st) (Invocations st) (Receipts st) (Events
    st) (Audit st) (Outbox st).
Definition set_Approvals (v : list ApprovalRecord) (st : RuntimeState) : RuntimeState :=
  mkState (Revisions st) (Policies st) (Sessions st) (Inputs st) (Artifacts st) (Conversations st)
    (ToolIntents st) (Grants st) (ToolExecutions st) v (Turns st) (Invocations st) (Receipts st)
    (Events st) (Audit st) (Outbox st).
Definition set_Turns (v : list TurnRecord) (st : RuntimeState) : RuntimeState :=
  mkState (Revisions st) (Policies st) (Sessions st) (Inputs st) (Artifacts st) (Conversations st)
    (ToolIntents st) (Grants st) (ToolExecutions st) (Approvals st) v (Invocations st) (Receipts st)
    (Events st) (Audit st) (Outbox st).
Definition set_Invocations (v : list InvocationRecord) (st : RuntimeState) : RuntimeState :=
  mkState (Revisions st) (Policies st) (Sessions st) (Inputs st) (Artifacts st) (Conversations st)
    (ToolIntents st) (Grants st) (ToolExecutions st) (Approvals st) (Turns st) v (Receipts st)
    (Events st) (Audit st) (Outbox st).
Definition set_Receipts (v : list MutationReceipt) (st : RuntimeState) : RuntimeState :=
  mkState (Revisions st) (Policies st) (Sessions st) (Inputs st) (Artifacts st) (Conversations st)
    (ToolIntents st) (Grants st) (ToolExecutions st) (Approvals st) (Turns st) (Invocations st) v
    (Events st) (Audit st) (Outbox st).
Definition set_Events (v : list ProductEventRecord) (st : RuntimeState) : RuntimeState :=
  mkState (Revisions st) (Policies st) (Sessions st) (Inputs st) (Artifacts st) (Conversations st)
    (ToolIntents st) (Grants st) (ToolExecutions st) (Approvals st) (Turns st) (Invocations st)
    (Receipts st) v (Audit st) (Outbox st).
Definition set_Audit (v : list AuditFactRecord) (st : RuntimeState) : RuntimeState :=
  mkState (Revisions st) (Policies st) (Sessions st) (Inputs st) (Artifacts st) (Conversations st)
    (ToolIntents st) (Grants st) (ToolExecutions st) (Approvals st) (Turns st) (Invocations st)
    (Receipts st) (Events st) v (Outbox st).
Definition set_Outbox (v : list OutboxRecord) (st : RuntimeState) : RuntimeState :=
  mkState (Revisions st) (Policies st) (Sessions st) (Inputs st) (Artifacts st) (Conversations st)
    (ToolIntents st) (Grants st) (ToolExecutions st) (Approvals st) (Turns st) (Invocations st)
    (Receipts st) (Events st) (Audit st) v.

(** ** Staged content

    [runtimecontent.ContentHandoff]: the in-process proof that a content store
    wrote an object.  [han_issuer] is the identity of the store. *)

Inductive contentKind : Type :=
| contentKindNone_ | contentKindAgentSpecificationBody | contentKindInputEnvelope
| contentKindArtifact | contentKindConversationEntry | contentKindToolActionDescriptor.
#[export] Instance contentKind_eq_dec : EqDecision contentKind.
Proof. solve_decision. Defined.

Record ContentHandoff : Type := mkContentHandoff {
  han_issuer : nat;
  han_tenant : TenantID;
  han_reference : Reference;
  han_kind : contentKind;
  han_name : string;
  han_modelProfile : string
}.
#[export] Instance ContentHandoff_eq_dec : EqDecision ContentHandoff.
Proof. solve_decision. Defined.

Record AgentSpecificationBodyCommitment : Type := mkAgentSpecificationBodyCommitment {
  asc_Tenant : TenantID;
  asc_Reference : Reference;
  asc_Name : string;
  asc_ModelProfile : string
}.
#[export] Instance AgentSpecificationBodyCommitment_eq_dec : EqDecision AgentSpecificationBodyCommitment.
Proof. solve_decision. Defined.

Record ContentCommitment : Type := mkContentCommitment {
  cmt_Tenant : TenantID;
  cmt_Reference : Reference
}.
#[export] Instance ContentCommitment_eq_dec : EqDecision ContentCommitment.
Proof. solve_decision. Defined.

Record OutboxLeaseFence : Type := mkOutboxLeaseFence {
  olf_OutboxID : OutboxID;
  olf_ExpectedVersion : Z;
  olf_Claimer : string
}.
#[export] Instance OutboxLeaseFence_eq_dec : EqDecision OutboxLeaseFence.
Proof. solve_decision. Defined.

Record TerminalOutcome : Type := mkTerminalOutcome {
  tou_OperationID : OperationID;
  tou_Ordinal : Z;
  tou_Fence : Z;
  tou_State : TurnState;
  tou_Failure : option Failure
}.
#[export] Instance TerminalOutcome_eq_dec : EqDecision TerminalOutcome.
Proof. solve_decision. Defined.

(** ** Commands

    Every command of the source also carries [Scope] and [IdempotencyKey]. *)

Record RegisterAgentRevisionCommand : Type := mkRegisterAgentRevisionCommand {
  cra_Scope : MutationScope;
  cra_IdempotencyKey : string;
  cra_AgentID : AgentID;
  cra_ExpectedRevision : Z;
  cra_Specification : ContentHandoff
}.

Record RegisterPolicyRevisionCommand : Type := mkRegisterPolicyRevisionCommand {
  crp_Scope : MutationScope;
  crp_IdempotencyKey : string;
  crp_Name : string;
  crp_ExpectedRevision : Z;
  crp_Rules : list PolicyRule
}.

Record CreateSessionCommand : Type := mkCreateSessionCommand {
  ccs_Scope : MutationScope;
  ccs_IdempotencyKey : string;
  ccs_RevisionID : AgentRevisionID
}.

Record AdmitInputCommand : Type := mkAdmitInputCommand {
  cai_Scope : MutationScope;
  cai_IdempotencyKey : string;
  cai_SessionID : SessionID;
  cai_Input : ContentHandoff
}.

Record RegisterArtifactCommand : Type := mkRegisterArtifactCommand {
  car_Scope : MutationScope;
  car_IdempotencyKey : string;
  car_SessionID : SessionID;
  car_TurnID : TurnID;
  car_Artifact : ContentHandoff;
  car_LeaseFence : option OutboxLeaseFence
}.

Record AppendConversationCommand : Type := mkAppendConversationCommand {
  cac_Scope : MutationScope;
  cac_IdempotencyKey : string;
  cac_SessionID : SessionID;
  cac_ExpectedVersion : Z;
  cac_Entry : ContentHandoff
}.

Record RecordToolIntentCommand : Type := mkRecordToolIntentCommand {
  cti_Scope : MutationScope;
  cti_IdempotencyKey : string;
  cti_SessionID : SessionID;
  cti_TurnID : TurnID;
  cti_ToolCallID : string;
  cti_ToolName : string;
  cti_ActionDigest : string;
  cti_PolicyRevisionDigest : string;
  cti_Descriptor : ContentHandoff
}.

Record AdmitToolApprovalCommand : Type := mkAdmitToolApprovalCommand {
  cta_Scope : MutationScope;
  cta_IdempotencyKey : string;
  cta_SessionID : SessionID;
  cta_TurnID : TurnID;
  cta_ToolCallID : string;
  cta_ToolName : string;
  cta_ApprovalID : string;
  cta_ActionDigest : string;
  cta_PolicyRevisionDigest : string;
  cta_CapabilityDigest : string;
  cta_ActionVerb : string;
  cta_ActionTarget : string;
  cta_Descriptor : ContentHandoff;
  cta_MaximumUses : Z;
  cta_ExpiresAt : Time
}.

Record RequestApprovalCommand : Type := mkRequestApprovalCommand {
  cqa_Scope : MutationScope;
  cqa_IdempotencyKey : string;
  cqa_SessionID : SessionID;
  cqa_TurnID : TurnID;
  cqa_ToolCallID : string;
  cqa_ApprovalID : string;
  cqa_ActionDigest : string;
  cqa_PolicyRevisionDigest : string;
  cqa_CapabilityDigest : string;
  cqa_ActionVerb : string;
  cqa_ActionTarget : string;
  cqa_MaximumUses : Z;
  cqa_ExpiresAt : Time
}.

Record DecideApprovalCommand : Type := mkDecideApprovalCommand {
  cda_Scope : MutationScope;
  cda_IdempotencyKey : string;
  cda_ApprovalID : string;
  cda_Decision : string
}.

Record ConsumeCapabilityGrantCommand : Type := mkConsumeCapabilityGrantCommand {
  ccg_Scope : MutationScope;
  ccg_IdempotencyKey : string;
  ccg_GrantID : string;
  ccg_ToolCallID : string;
  ccg_PolicyRevisionDigest : string;
  ccg_SessionID : SessionID;
  ccg_TurnID : TurnID
}.

Record RevokeCapabilityGrantCommand : Type := mkRevokeCapabilityGrantCommand {
  crg_Scope : MutationScope;
  crg_IdempotencyKey : string;
  crg_GrantID : string;
  crg_ToolCallID : string;
  crg_SessionID : SessionID;
  crg_TurnID : TurnID
}.

Record ExpireCapabilityGrantCommand : Type := mkExpireCapabilityGrantCommand {
  ceg_Scope : MutationScope;
  ceg_IdempotencyKey : string;
  ceg_GrantID : string;
  ceg_ToolCallID : string;
  ceg_SessionID : SessionID;
  ceg_TurnID : TurnID
}.

Record DenyToolAdmissionCommand : Type := mkDenyToolAdmissionCommand {
  cdt_Scope : MutationScope;
  cdt_IdempotencyKey : string;
  cdt_ToolCallID : string;
  cdt_Decision : string;
  cdt_PolicyRevisionDigest : string;
  cdt_CapabilityScopeDigest : string;
  cdt_SessionID : SessionID;
  cdt_TurnID : TurnID
}.

Record BeginToolExecutionCommand : Type := mkBeginToolExecutionCommand {
  cbt_Scope : MutationScope;
  cbt_IdempotencyKey : string;
  cbt_ToolCallID : string;
  cbt_GrantID : string;
  cbt_SessionID : SessionID;
  cbt_TurnID : TurnID;
  cbt_OperationID : OperationID
}.

Record RecordToolExecutionOutcomeCommand : Type := mkRecordToolExecutionOutcomeCommand {
  cto_Scope : MutationScope;
  cto_IdempotencyKey : string;
  cto_SessionID : SessionID;
  cto_TurnID : TurnID;
  cto_ToolCallID : string;
  cto_OperationID : OperationID;
  cto_Outcome : ToolExecutionState;
  cto_Result : option Reference;
  cto_Failure : option Failure;
  cto_LeaseFence : option OutboxLeaseFence
}.

Record BeginInvocationAttemptCommand : Type := mkBeginInvocationAttemptCommand {
  cbi_Scope : MutationScope;
  cbi_IdempotencyKey : string;
  cbi_SessionID : SessionID;
  cbi_TurnID : TurnID;
  cbi_OperationID : OperationID;
  cbi_ExpectedSessionVersion : Z;
  cbi_ExpectedTurnVersion : Z;
  cbi_ExpectedFence : Z
}.

Record RecordInvocationOutcomeCommand : Type := mkRecordInvocationOutcomeCommand {
  cio_Scope : MutationScope;
  cio_IdempotencyKey : string;
  cio_SessionID : SessionID;
  cio_TurnID : TurnID;
  cio_OperationID : OperationID;
  cio_Ordinal : Z;
  cio_Fence : Z;
  cio_Outcome : InvocationState;
  cio_Result : option Reference;
  cio_Failure : option Failure;
  cio_Usage : option ModelUsage;
  cio_ExpectedSessionVersion : Z;
  cio_ExpectedTurnVersion : Z
}.

Record SettleTurnCommand : Type := mkSettleTurnCommand {
  cst_Scope : MutationScope;
  cst_IdempotencyKey : string;
  cst_SessionID : SessionID;
  cst_TurnID : TurnID;
  cst_ExpectedSessionVersion : Z;
  cst_ExpectedTurnVersion : Z;
  cst_Outcome : TerminalOutcome;
  cst_LeaseFence : option OutboxLeaseFence
}.

Record CancelTurnCommand : Type := mkCancelTurnCommand {
  cct_Scope : MutationScope;
  cct_IdempotencyKey : string;
  cct_SessionID : SessionID;
  cct_TurnID : TurnID
}.

Record CloseSessionCommand : Type := mkCloseSessionCommand {
  ccl_Scope : MutationScope;
  ccl_IdempotencyKey : string;
  ccl_SessionID : SessionID
}.

Record CancelSessionCommand : Type := mkCancelSessionCommand {
  cca_Scope : MutationScope;
  cca_IdempotencyKey : string;
  cca_SessionID : SessionID
}.

Record FailSessionCommand : Type := mkFailSessionCommand {
  cfs_Scope : MutationScope;
  cfs_IdempotencyKey : string;
  cfs_SessionID : SessionID
}.

Record ClaimOutboxCommand : Type := mkClaimOutboxCommand {
  cco_Scope : MutationScope;
  cco_IdempotencyKey : string;
  cco_OutboxID : OutboxID;
  cco_ExpectedVersion : Z;
  cco_Claimer : string;
  cco_ClaimUntil : Time
}.

Record RenewOutboxCommand : Type := mkRenewOutboxCommand {
  cro_Scope : MutationScope;
  cro_IdempotencyKey : string;
  cro_OutboxID : OutboxID;
  cro_ExpectedVersion : Z;
  cro_Claimer : string;
  cro_ClaimUntil : Time
}.

Record AcknowledgeOutboxCommand : Type := mkAcknowledgeOutboxCommand {
  cao_Scope : MutationScope;
  cao_IdempotencyKey : string;
  cao_OutboxID : OutboxID;
  cao_ExpectedVersion : Z;
  cao_Claimer : string;
  cao_PublishedAt : Time
}.

(** [normalizeTime] (contract.go): zero times are kept as they are. *)
Definition normalizeTime (value : Time) : Time := if IsZero value then value else toUTC value.

