(* ===== verification/RuntimeContent.v ===== *)
(** * Content handoffs

    Models the handoff validation of [internal/runtimecontent/content.go]: a
    content store accepts only the handoffs it issued itself, of the expected
    kind, and returns the bounded metadata a state command may persist.  [store]
    is the identity of the store ([handoff.issuer != store]).  The records with
    which reads are authorized are here too. *)

From Stdlib Require Import Ascii String.
From S2P Require Import Prelude GoString GoTime GoJson Sdk StateContract.

Open Scope Z_scope.

Definition AgentSpecificationBodyMediaTypeV1 : string :=
  "application/vnd.agent-runtime.agent-specification-body+cbor;version=1".
Definition InputEnvelopeMediaTypeV1 : string := "application/vnd.agent-runtime.input+cbor;version=1".
Definition ConversationEntryMediaTypeV1 : string :=
  "application/vnd.agent-runtime.conversation-entry+octets;version=1".
Definition ToolActionDescriptorMediaTypeV1 : string :=
  "application/vnd.agent-runtime.tool-action+octets;version=1".
Definition maximumSpecificationBytes : Z := Z.shiftl 1 20.
Definition maximumInputEnvelopeBytes : Z := Z.shiftl 2 20 + Z.shiftl 4 10.
Definition maximumArtifactBytes : Z := Z.shiftl 8 20.
Definition maximumArtifactMediaTypeBytes : Z := 255.
Definition maximumConversationEntryBytes : Z := Z.shiftl 2 20.
Definition maximumNameBytes : Z := 128.
Definition maximumTenantIDBytes : Z := 128.

(** The runes of the string paired with "is not the first". *)
Definition segment_rune (later : bool) (c : Z) : bool :=
  is_lower c || is_digit c || (later && ((c =? 45) || (c =? 95))).

Definition validSegment (value : string) (maximumBytes : Z) : bool :=
  if (value ≟ "") || (value ≟ ".") || (value ≟ "..") || (maximumBytes <? len value) ||
     negb (ValidString value)
  then false
  else match runes value with
       | [] => true
       | c :: cs => segment_rune false c && forallb (segment_rune true) cs
       end.

Definition validTenantID (value : TenantID) : bool := validSegment value maximumTenantIDBytes.

Definition validName (value : string) : bool :=
  if (len value =? 0) || (maximumNameBytes <? len value) then false
  else all_runes (fun c => is_lower c || is_upper c || is_digit c ||
                           (c =? 45) || (c =? 95) || (c =? 46)) value.

Definition validDigest (value : string) : bool :=
  (len value =? 71) && HasPrefix value "sha256:" &&
  trims_to_empty (drop_bytes 7 value) "0123456789abcdef".

Definition validArtifactMediaType (value : string) : bool :=
  (value ≠? "") && (len value <=? maximumArtifactMediaTypeBytes) && ValidString value &&
  negb (ContainsAny value (String (byte_chr 92) EmptyString +:+ NUL +:+ CR +:+ LF)).

Definition validAgentSpecificationBodyReference (r : Reference) : bool :=
  (ref_MediaType r ≟ AgentSpecificationBodyMediaTypeV1) && (0 <? ref_SizeBytes r) &&
  (ref_SizeBytes r <=? maximumSpecificationBytes) && validDigest (ref_Digest r).

Definition validInputEnvelopeReference (r : Reference) : bool :=
  (ref_MediaType r ≟ InputEnvelopeMediaTypeV1) && (0 <? ref_SizeBytes r) &&
  (ref_SizeBytes r <=? maximumInputEnvelopeBytes) && validDigest (ref_Digest r).

Definition validArtifactReference (r : Reference) : bool :=
  validArtifactMediaType (ref_MediaType r) && (0 <? ref_SizeBytes r) &&
  (ref_SizeBytes r <=? maximumArtifactBytes) && validDigest (ref_Digest r).

Definition validConversationEntryReference (r : Reference) : bool :=
  (ref_MediaType r ≟ ConversationEntryMediaTypeV1) && (0 <? ref_SizeBytes r) &&
  (ref_SizeBytes r <=? maximumConversationEntryBytes) && validDigest (ref_Digest r).

(** What a repository returns when it authorizes a read; [ArtifactBodyRecord] is the
    ArtifactRecord of content.go. *)

Record AgentSpecificationRecord : Type := mkSpecificationRecord {
  asr_Tenant : TenantID; asr_AgentID : AgentID; asr_RevisionID : AgentRevisionID; asr_Revision : Z; asr_Reference : Reference
}.
Record AgentSpecificationBodyRecord : Type := mkBodyRecord {
  abr_Tenant : TenantID; abr_AgentID : AgentID; abr_RevisionID : AgentRevisionID; abr_Revision : Z;
  abr_Name : string; abr_ModelProfile : string; abr_Reference : Reference; abr_CreatedAt : Time
}.
Record InputEnvelopeRecord : Type := mkEnvelopeRecord {
  ier_Tenant : TenantID; ier_Principal : PrincipalID; ier_SessionID : SessionID; ier_InputID : InputID; ier_Reference : Reference
}.
Record ArtifactBodyRecord : Type := mkStoredArtifact {
  arr_Tenant : TenantID; arr_Principal : PrincipalID; arr_ArtifactID : ArtifactID; arr_Reference : Reference
}.

Definition ValidateAgentSpecificationBodyHandoff (store : nat) (h : ContentHandoff)
  : option AgentSpecificationBodyCommitment :=
  if (han_issuer h ≠? store) || (han_kind h ≠? contentKindAgentSpecificationBody) ||
     negb (validTenantID (han_tenant h)) || negb (validAgentSpecificationBodyReference (han_reference h)) ||
     negb (validName (han_name h)) || negb (validName (han_modelProfile h))
  then None
  else Some (mkAgentSpecificationBodyCommitment (han_tenant h) (han_reference h) (han_name h) (han_modelProfile h)).

Definition ValidateInputEnvelopeHandoff (store : nat) (h : ContentHandoff) : option ContentCommitment :=
  if (han_issuer h ≠? store) || (han_kind h ≠? contentKindInputEnvelope) ||
     negb (validTenantID (han_tenant h)) || negb (validInputEnvelopeReference (han_reference h)) ||
     (han_name h ≠? "") || (han_modelProfile h ≠? "")
  then None else Some (mkContentCommitment (han_tenant h) (han_reference h)).

Definition ValidateArtifactHandoff (store : nat) (h : ContentHandoff) : option ContentCommitment :=
  if (han_issuer h ≠? store) || (han_kind h ≠? contentKindArtifact) ||
     negb (validTenantID (han_tenant h)) || negb (validArtifactReference (han_reference h)) ||
     (han_name h ≠? "") || (han_modelProfile h ≠? "")
  then None else Some (mkContentCommitment (han_tenant h) (han_reference h)).

Definition ValidateToolActionDescriptorHandoff (store : nat) (h : ContentHandoff) : option ContentCommitment :=
  if (han_issuer h ≠? store) || (han_kind h ≠? contentKindToolActionDescriptor) ||
     negb (validTenantID (han_tenant h)) || (ref_MediaType (han_reference h) ≠? ToolActionDescriptorMediaTypeV1) ||
     (ref_SizeBytes (han_reference h) <=? 0) || (maximumConversationEntryBytes <? ref_SizeBytes (han_reference h)) ||
     negb (validDigest (ref_Digest (han_reference h)))
  then None else Some (mkContentCommitment (han_tenant h) (han_reference h)).

Definition ValidateConversationEntryHandoff (store : nat) (h : ContentHandoff) : option ContentCommitment :=
  if (han_issuer h ≠? store) || (han_kind h ≠? contentKindConversationEntry) ||
     negb (validTenantID (han_tenant h)) || negb (validConversationEntryReference (han_reference h)) ||
     (han_name h ≠? "") || (han_modelProfile h ≠? "")
  then None else Some (mkContentCommitment (han_tenant h) (han_reference h)).
