(* ===== verification/ContentEnvelope.v ===== *)
(** * Content envelopes

    The canonical encodings of internal/runtimecontent/content.go: Agent specifications, their
    identity-free bodies, and Inputs, in the CBOR of [Cbor].  A Go error is [None].  The
    compiler of general JSON schemas is an argument, as in [ToolSchema]. *)

From Stdlib Require Import Ascii String.
From S2P Require Import Prelude GoString Sha256 GoTime GoJson GoJsonText JsonFacts TimeText Cbor ToolSchema Sdk SdkTypes StateContract RuntimeContent.

Open Scope Z_scope.

Definition maximumInstructionsBytes : Z := 256 * 1024.
Definition maximumToolDescriptionBytes : Z := 4096.
Definition maximumTools : Z := 64.
Definition MaxInputParts : Z := 32.
Definition MaxTextPartBytes : Z := 64 * 1024.

Definition AgentSpecificationMediaTypeV1 : string := "application/vnd.agent-runtime.agent-specification+cbor;version=1".

Record AgentSpecificationBody : Type := mkBody {
  bod_Name : string; bod_ModelProfile : string; bod_Instructions : string; bod_Tools : list ToolDefinition
}.

Definition validText (value : string) (maximumBytes : Z) : bool := (0 <? len value) && (len value <=? maximumBytes) && ValidString value.

Definition validAgentRevision (agentID : AgentID) (revisionID : AgentRevisionID) (revision : Z) : bool :=
  negb (revision =? 0) && bool_decide (is_Some (ParseAgentID agentID)) && bool_decide (is_Some (ParseAgentRevisionID revisionID)).

(** ** Inputs *)

Definition validPart (part : ContentPart) : bool :=
  if prt_Kind part ≟ ContentText then validText (prt_Text part) MaxTextPartBytes && bool_decide (prt_Artifact part = None)
  else if prt_Kind part ≟ ContentArtifact then
    match prt_Artifact part with
    | None => false
    | Some a => (prt_Text part ≟ "") && (0 <=? art_SizeBytes a) && validText (art_MediaType a) 255 && (len (art_SHA256 a) =? 64) &&
                trims_to_empty (art_SHA256 a) "0123456789abcdef" && bool_decide (is_Some (ParseArtifactID (art_ID a)))
    end
  else false.

Definition validateInputEnvelope (parts : list ContentPart) : bool :=
  negb (length parts =? 0)%nat && (Z.of_nat (length parts) <=? MaxInputParts) && forallb validPart parts.

(** One part.  A nil artifact, which validation excludes, is [None]. *)
Definition encode_part (part : ContentPart) : option (list Z) :=
  if prt_Kind part ≟ ContentText then Some (head 4 2 ++ uintv 1 ++ text (prt_Text part))
  else if prt_Kind part ≟ ContentArtifact then
    a ← prt_Artifact part;
    Some (head 4 2 ++ uintv 2 ++ head 4 4 ++ text (art_ID a) ++ text (art_MediaType a) ++ uintv (art_SizeBytes a) ++ text (art_SHA256 a))
  else None.

Definition encodeInputEnvelope (parts : list ContentPart) : option string :=
  if negb (validateInputEnvelope parts) then None
  else
    l ← mapM encode_part parts;
    let encoded := head 4 2 ++ uintv 1 ++ head 4 (Z.of_nat (length parts)) ++ concat l in
    if maximumInputEnvelopeBytes <? Z.of_nat (length encoded) then None else Some (of_bytes encoded).

Definition dec_artifact : Decoder ContentPart :=
  fields ← dec_array; require (fields =? 4) ≫= fun _ =>
  id ← dec_text;
  mediaType ← dec_text;
  sizeBytes ← dec_uint; require (sizeBytes <=? 2 ^ 63 - 1) ≫= fun _ =>
  digest ← dec_text;
  mret (mkPart ContentArtifact "" (Some (mkArtifactReference id mediaType sizeBytes digest))).

Definition dec_part : Decoder ContentPart :=
  fields ← dec_array; require (fields =? 2) ≫= fun _ =>
  kind ← dec_uint;
  if kind =? 1 then value ← dec_text; mret (mkPart ContentText value None)
  else if kind =? 2 then dec_artifact
  else fun _ => None.

Definition dec_parts : Decoder (list ContentPart) :=
  count ← dec_array; require (count =? 2) ≫= fun _ =>
  version ← dec_uint; require (version =? 1) ≫= fun _ =>
  count ← dec_array; require (negb (count =? 0) && (count <=? MaxInputParts)) ≫= fun _ =>
  dec_times (Z.to_nat count) dec_part.

Definition decodeInputEnvelope (raw : string) : option (list ContentPart) :=
  if (len raw =? 0) || (maximumInputEnvelopeBytes <? len raw) then None
  else match dec_parts (bytes raw) with
       | Some (parts, []) =>
         if negb (validateInputEnvelope parts) then None
         else match encodeInputEnvelope parts with Some canonical => if canonical ≟ raw then Some parts else None | None => None end
       | _ => None
       end.

(** ** Agent specifications *)

Definition hasToolSchemas (tools : list ToolDefinition) : bool :=
  existsb (fun t => (tol_InputSchemaVersion t ≠? "") || negb (len (tol_InputSchema t) =? 0)) tools.

Definition dec_tool (version : Z) : Decoder ToolDefinition :=
  fields ← dec_array; require ((fields =? 2) || ((version =? 2) && (fields =? 4))) ≫= fun _ =>
  name ← dec_text;
  description ← dec_text;
  if version =? 2 then
    schemaVersion ← dec_text;
    schema ← dec_text;
    mret (mkTool name description schemaVersion schema)
  else mret (mkTool name description "" "").

Definition dec_tools (version : Z) : Decoder (list ToolDefinition) :=
  count ← dec_array; require (count <=? maximumTools) ≫= fun _ =>
  dec_times (Z.to_nat count) (dec_tool version).

Definition dec_version : Decoder Z := version ← dec_uint; require ((version =? 1) || (version =? 2)) ≫= fun _ => mret version.

(** The version and the body. *)
Definition dec_body : Decoder (Z * AgentSpecificationBody) :=
  count ← dec_array; require (count =? 5) ≫= fun _ =>
  version ← dec_version;
  name ← dec_text;
  modelProfile ← dec_text;
  instructions ← dec_text;
  tools ← dec_tools version;
  mret (version, mkBody name modelProfile instructions tools).

(** The version and the fields, before the identifiers and the time are parsed. *)
Definition dec_specification : Decoder (Z * (string * string * Z * AgentSpecificationBody * string)) :=
  count ← dec_array; require (count =? 9) ≫= fun _ =>
  version ← dec_version;
  id ← dec_text;
  revisionID ← dec_text;
  revision ← dec_uint;
  name ← dec_text;
  model ← dec_text;
  instructions ← dec_text;
  tools ← dec_tools version;
  createdAt ← dec_text;
  mret (version, (id, revisionID, revision, mkBody name model instructions tools, createdAt)).

Section specifications.
Context (compile : any -> option (any -> bool)).

(** The loop over the tools of validate and validateAgentSpecificationBody. *)
Fixpoint valid_tools (seen : list string) (tools : list ToolDefinition) : bool :=
  match tools with
  | [] => true
  | t :: tools =>
    validName (tol_Name t) && validText (tol_Description t) maximumToolDescriptionBytes &&
    bool_decide (is_Some (CanonicalSchema compile (tol_InputSchemaVersion t) (tol_InputSchema t))) &&
    negb (bool_decide (tol_Name t ∈ seen)) && valid_tools (tol_Name t :: seen) tools
  end.

Definition validateAgentSpecificationBody (b : AgentSpecificationBody) : bool :=
  validName (bod_Name b) && validName (bod_ModelProfile b) && validText (bod_Instructions b) maximumInstructionsBytes &&
  (Z.of_nat (length (bod_Tools b)) <=? maximumTools) && valid_tools [] (bod_Tools b).

Definition validate (s : AgentSpecification) : bool :=
  validAgentRevision (spc_ID s) (spc_RevisionID s) (spc_Revision s) && validName (spc_Name s) && validName (spc_ModelProfile s) &&
  validText (spc_Instructions s) maximumInstructionsBytes && negb (IsZero (spc_CreatedAt s)) && isUTC (spc_CreatedAt s) &&
  (Z.of_nat (length (spc_Tools s)) <=? maximumTools) && valid_tools [] (spc_Tools s).

Definition encode_tool (hasSchemas : bool) (t : ToolDefinition) : option (list Z) :=
  if hasSchemas then
    '(version, schema) ← CanonicalSchema compile (tol_InputSchemaVersion t) (tol_InputSchema t);
    Some (head 4 4 ++ text (tol_Name t) ++ text (tol_Description t) ++ text version ++ text schema)
  else Some (head 4 2 ++ text (tol_Name t) ++ text (tol_Description t)).

Definition encode_tools (tools : list ToolDefinition) : option (list Z) :=
  l ← mapM (encode_tool (hasToolSchemas tools)) tools; Some (head 4 (Z.of_nat (length tools)) ++ concat l).

Definition version_number (tools : list ToolDefinition) : Z := if hasToolSchemas tools then 2 else 1.

Definition encodeAgentSpecificationBody (b : AgentSpecificationBody) : option string :=
  if negb (validateAgentSpecificationBody b) then None
  else
    tools ← encode_tools (bod_Tools b);
    let encoded := head 4 5 ++ uintv (version_number (bod_Tools b)) ++ text (bod_Name b) ++ text (bod_ModelProfile b) ++ text (bod_Instructions b) ++ tools in
    if maximumSpecificationBytes <? Z.of_nat (length encoded) then None else Some (of_bytes encoded).

Definition encode (s : AgentSpecification) : option string :=
  if negb (validate s) then None
  else
    tools ← encode_tools (spc_Tools s);
    let encoded := head 4 9 ++ uintv (version_number (spc_Tools s)) ++ text (spc_ID s) ++ text (spc_RevisionID s) ++ uintv (spc_Revision s) ++
      text (spc_Name s) ++ text (spc_ModelProfile s) ++ text (spc_Instructions s) ++ tools ++ text (FormatUTC (spc_CreatedAt s)) in
    if maximumSpecificationBytes <? Z.of_nat (length encoded) then None else Some (of_bytes encoded).

Definition decodeAgentSpecificationBody (raw : string) : option AgentSpecificationBody :=
  if (len raw =? 0) || (maximumSpecificationBytes <? len raw) then None
  else match dec_body (bytes raw) with
       | Some ((version, body), []) =>
         canonical ← encodeAgentSpecificationBody body;
         if (version =? 2) && (canonical ≠? raw) then None else Some body
       | _ => None
       end.

Definition decode (raw : string) : option AgentSpecification :=
  if (len raw =? 0) || (maximumSpecificationBytes <? len raw) then None
  else match dec_specification (bytes raw) with
       | Some ((version, (id, revisionID, revision, body, createdAt)), []) =>
         agentID ← ParseAgentID id;
         agentRevisionID ← ParseAgentRevisionID revisionID;
         parsedCreatedAt ← ParseUTC (bytes createdAt);
         let s := mkSpecification agentID agentRevisionID revision (bod_Name body) (bod_ModelProfile body) (bod_Instructions body) (bod_Tools body) parsedCreatedAt in
         canonical ← encode s;
         if (version =? 2) && (canonical ≠? raw) then None else Some s
       | _ => None
       end.
End specifications.
