(* ===== verification/ContentFacts.v ===== *)
(** * Facts about content envelopes

    Every envelope that is written is read back, and what is read was written: the
    decoders of Inputs and of Agent specification bodies accept exactly the canonical
    encodings. *)

From Stdlib Require Import Ascii String.
From S2P Require Import Prelude GoString Sha256 GoTime GoJson GoJsonText JsonFacts JsonStrings DecodeFacts TimeText Cbor ToolSchema ToolSchemaTheorems Sdk SdkTypes StateContract RuntimeContent ContentEnvelope.

Open Scope Z_scope.

(** ** Texts *)

Lemma runes_valid p s : (forall c, p c = true -> c < 128) -> all_runes p s = true -> ValidString s = true.
Proof.
  intros Hp. unfold all_runes, ValidString. rewrite !forallb_forall. intros H [r w] Hin. cbn.
  destruct (Z.eqb_spec r RuneError) as [->|]; [|done]. exfalso. unfold runes in H. specialize (H RuneError). rewrite in_map_iff in H.
  assert (RuneError < 128); [|done]. apply Hp, H. by exists (RuneError, w).
Qed.

Lemma validText_ok s maximum : maximum <= max_u64 -> validText s maximum = true -> text_ok s.
Proof. unfold validText, text_ok. intros Hm H. bools. split; [done|lia]. Qed.

Lemma validName_ok s : validName s = true -> text_ok s.
Proof.
  unfold validName. destruct (_ || _) eqn:E; [done|]. bools. intros Hv. split; [|unfold maximumNameBytes, max_u64 in *; lia].
  revert Hv. apply runes_valid. unfold is_lower, is_upper, is_digit, between. intros c Hc. lia.
Qed.

Lemma utf8_text a b : ValidString a = true -> ValidString b = true -> ValidString (a +:+ b) = true.
Proof. intros Ha%valid_utf8 Hb%valid_utf8. apply utf8_valid. rewrite bytes_app. by apply utf8_concat. Qed.

Lemma parseID_ok value prefix : ValidString prefix = true -> len prefix <= 16 -> is_Some (parseID value prefix) -> text_ok value.
Proof.
  intros Hp Hl (payload & -> & H)%parseID_spec. unfold validPayload in H. destruct (Z.eqb_spec (len payload) 16) as [E|]; [|done]. split.
  - apply utf8_text; [done|]. revert H. apply runes_valid. unfold asciiAlphaNumeric, is_lower, is_upper, is_digit, between. intros c Hc. lia.
  - unfold len in *. rewrite <- length_bytes, bytes_app, length_app, !length_bytes. unfold max_u64. lia.
Qed.

Lemma trimmed_valid s cutset : Forall (fun c => 0 <= c < 128) (bytes cutset) -> trims_to_empty s cutset = true -> ValidString s = true.
Proof.
  intros Hc H. apply utf8_valid, utf8_ascii. apply Forall_forall. intros c Hin. unfold trims_to_empty in H. rewrite forallb_forall in H.
  specialize (H c (proj1 (list_elem_of_In _ _) Hin)). apply existsb_exists in H as (d & Hd & ->%Z.eqb_eq). rewrite Forall_forall in Hc. by apply Hc, list_elem_of_In.
Qed.

(** ** Inputs *)

Definition part_bytes (part : ContentPart) : list Z := default [] (encode_part part).

(** A part as the decoder makes it. *)
Definition part_ok (part : ContentPart) : Prop :=
  (exists s, part = mkPart ContentText s None /\ text_ok s) \/
  (exists a, part = mkPart ContentArtifact "" (Some a) /\ text_ok (art_ID a) /\ text_ok (art_MediaType a) /\
             0 <= art_SizeBytes a <= 2 ^ 63 - 1 /\ text_ok (art_SHA256 a)).

Lemma version_exact : decodes_exactly dec_version uintv (fun v => v = 1 \/ v = 2).
Proof.
  split.
  - intros v rest Hv. unfold dec_version. apply (read_field _ _ _ _ _ _ _ _ uint_exact); [unfold max_u64; lia|]. by apply read_required; [lia|].
  - intros l v rest Hl H. unfold dec_version in H. apply (field_read _ _ _ _ _ _ _ uint_exact) in H as (n & l' & -> & Hn & Hb & H); [|done].
    apply required_read in H as [Hr [<- ->]%ret_decoded]. split; [done|lia].
Qed.

(** Reads the next field, or checks the next requirement, of a decoder. *)
Ltac read_next :=
  lazymatch goal with
  | |- (require _ ≫= _) _ = _ => apply read_required; [first [done|lia]|]
  | |- (dec_array ≫= _) _ = _ => apply (read_field _ _ _ _ _ _ _ _ array_exact); [unfold max_u64 in *; lia|]
  | |- (dec_uint ≫= _) _ = _ => apply (read_field _ _ _ _ _ _ _ _ uint_exact); [unfold max_u64 in *; lia|]
  | |- (dec_version ≫= _) _ = _ => apply (read_field _ _ _ _ _ _ _ _ version_exact); [done|]
  | |- (dec_text ≫= _) _ = _ => apply (read_field _ _ _ _ _ _ _ _ text_exact); [done|]
  end.

(** The next field of what a decoder has read. *)
Ltac field_next H :=
  lazymatch type of H with
  | (require _ ≫= _) _ = _ => apply required_read in H as [?Hr H]
  | (dec_array ≫= _) _ = _ => apply (field_read _ _ _ _ _ _ _ array_exact) in H as (?n & ?l & -> & ?Hn & ?Hb & H); [|done]
  | (dec_uint ≫= _) _ = _ => apply (field_read _ _ _ _ _ _ _ uint_exact) in H as (?n & ?l & -> & ?Hn & ?Hb & H); [|done]
  | (dec_version ≫= _) _ = _ => apply (field_read _ _ _ _ _ _ _ version_exact) in H as (?n & ?l & -> & ?Hn & ?Hb & H); [|done]
  | (dec_text ≫= _) _ = _ => apply (field_read _ _ _ _ _ _ _ text_exact) in H as (?s & ?l & -> & ?Hs & ?Hb & H); [|done]
  end.

Lemma text_part_bytes s : part_bytes (mkPart ContentText s None) = head 4 2 ++ uintv 1 ++ text s.
Proof. done. Qed.

Lemma artifact_part_bytes a : part_bytes (mkPart ContentArtifact "" (Some a)) =
  head 4 2 ++ uintv 2 ++ head 4 4 ++ text (art_ID a) ++ text (art_MediaType a) ++ uintv (art_SizeBytes a) ++ text (art_SHA256 a).
Proof. done. Qed.

Lemma part_exact : decodes_exactly dec_part part_bytes part_ok.
Proof.
  split.
  - intros a rest [(s & -> & Hs)|([id media size digest] & -> & H1 & H2 & H3 & H4)]; [rewrite text_part_bytes|rewrite artifact_part_bytes; cbn in H1, H2, H3, H4; cbn [art_ID art_MediaType art_SizeBytes art_SHA256]];
      rewrite <- !app_assoc; unfold dec_part; do 3 read_next; cbn [Z.eqb Pos.eqb]; [by read_next|]. unfold dec_artifact. by do 7 read_next.
  - intros l a rest Hl H. unfold dec_part in H. do 3 field_next H. apply Z.eqb_eq in Hr as ->. destruct (Z.eqb_spec n0 1) as [->|].
    + field_next H. apply ret_decoded in H as [<- ->]. rewrite text_part_bytes, <- !app_assoc. split; [done|]. left. eauto.
    + destruct (Z.eqb_spec n0 2) as [->|]; [|done]. unfold dec_artifact in H. do 7 field_next H. apply ret_decoded in H as [<- ->]. apply Z.eqb_eq in Hr as ->. apply Z.leb_le in Hr0.
      rewrite artifact_part_bytes, <- !app_assoc. split; [done|]. right. eexists. split; [reflexivity|]. cbn. split_and!; first [done|lia].
Qed.

(** Sizes are int64 values. *)
Definition part_int64 (part : ContentPart) : Prop := forall a, prt_Artifact part = Some a -> art_SizeBytes a <= 2 ^ 63 - 1.

Lemma validPart_ok part : part_int64 part -> validPart part = true -> encode_part part = Some (part_bytes part) /\ part_ok part.
Proof.
  destruct part as [kind txt artifact]. unfold part_int64, validPart, part_bytes, encode_part. cbn [prt_Kind prt_Text prt_Artifact]. intros Hi H.
  destruct (bool_decide_reflect (kind = ContentText)) as [->|].
  - bools. subst artifact. split; [done|]. left. eexists. split; [done|]. by eapply validText_ok; [|done].
  - destruct (bool_decide_reflect (kind = ContentArtifact)) as [->|]; [|done]. destruct artifact as [a|]; [|done]. bools. subst txt. split; [done|]. right. exists a. split; [done|].
    specialize (Hi a eq_refl). split_and!; [by apply (parseID_ok _ artifactPrefix)|by eapply validText_ok; [|done]|lia|lia|]. split; [by eapply trimmed_valid; [|done]; repeat constructor|unfold max_u64; lia].
Qed.

Lemma encode_parts parts : Forall part_int64 parts -> forallb validPart parts = true -> mapM encode_part parts = Some (part_bytes <$> parts) /\ Forall part_ok parts.
Proof.
  intros Hi Hv. rewrite forallb_forall in Hv. assert (H : Forall (fun p => encode_part p = Some (part_bytes p) /\ part_ok p) parts).
  { rewrite Forall_forall in Hi. apply Forall_forall. intros p Hp. apply validPart_ok; [by apply Hi|]. by apply Hv, list_elem_of_In. }
  split; [|eapply Forall_impl; [exact H|by intros ? []]]. apply mapM_Some_2, Forall2_fmap_r, Forall_Forall2_diag. eapply Forall_impl; [exact H|by intros ? []].
Qed.

(** The bytes of a sequence of heads and texts. *)
Ltac written := repeat apply Forall_app_2; first [apply bytes_ok_bytes | apply head_bytes; unfold len; lia | idtac].

(** What an envelope with at least one byte and at most [maximum] is decoded from. *)
Lemma of_bytes_len l : bytes_ok l -> len (of_bytes l) = Z.of_nat (length l).
Proof. intros H. unfold len. by rewrite <- length_bytes, bytes_ok_read. Qed.

Lemma part_bytes_ok part : part_ok part -> bytes_ok (part_bytes part).
Proof.
  intros [(s & -> & _)|(a & -> & _ & _ & Hs & _)]; [rewrite text_part_bytes|rewrite artifact_part_bytes]; written.
Qed.

Lemma input_read parts raw : Forall part_int64 parts -> encodeInputEnvelope parts = Some raw -> decodeInputEnvelope raw = Some parts.
Proof.
  intros Hi He. pose proof He as H. unfold encodeInputEnvelope in H. destruct (validateInputEnvelope parts) eqn:Hv; [|done]. cbn [negb] in H.
  pose proof Hv as Hv'. unfold validateInputEnvelope in Hv'. bools. destruct (encode_parts parts Hi) as [Em Hok]; [done|]. rewrite Em in H. cbn [mbind option_bind] in H.
  set (encoded := head 4 2 ++ _) in H. destruct (_ <? _) eqn:Hm; [done|]. apply (inj Some) in H as <-. bools.
  assert (Hb : bytes_ok encoded).
  { written. apply Forall_concat, Forall_fmap. eapply Forall_impl; [exact Hok|]. intros p. apply part_bytes_ok. }
  unfold decodeInputEnvelope. rewrite (of_bytes_len _ Hb), bytes_ok_read, (proj2 (Z.ltb_ge _ _)), orb_false_r by done.
  destruct (Z.eqb_spec (Z.of_nat (length encoded)) 0) as [E0|_].
  { exfalso. unfold encoded in E0. rewrite length_app in E0. cbn in E0. lia. }
  assert (Er : dec_parts encoded = Some (parts, [])).
  { apply Nat.eqb_neq in H1. unfold dec_parts, encoded, MaxInputParts in *. do 5 read_next. apply read_required; [rewrite andb_true_iff, negb_true_iff, Z.leb_le, Z.eqb_neq; lia|].
    rewrite <- (app_nil_r (concat _)), Nat2Z.id. apply times_reads. intros p rest Hp. apply part_exact. by eapply Forall_forall. }
  rewrite Er, Hv. cbn [negb]. rewrite He. by rewrite bool_decide_true.
Qed.

Lemma input_written parts raw : decodeInputEnvelope raw = Some parts -> encodeInputEnvelope parts = Some raw.
Proof.
  unfold decodeInputEnvelope. destruct (_ || _); [done|]. destruct (dec_parts _) as [[parts' [|]]|]; [|done..]. destruct (negb _); [done|].
  destruct (encodeInputEnvelope parts') as [canonical|] eqn:E; [|done]. destruct (bool_decide_reflect (canonical = raw)) as [->|]; [|done]. by intros [= <-].
Qed.

(** ** Tools *)

(** The tool that a version 1 or a version 2 encoding carries. *)
Definition tool_bytes (version : Z) (t : ToolDefinition) : list Z :=
  if version =? 2 then head 4 4 ++ text (tol_Name t) ++ text (tol_Description t) ++ text (tol_InputSchemaVersion t) ++ text (tol_InputSchema t)
  else head 4 2 ++ text (tol_Name t) ++ text (tol_Description t).

Definition tool_ok (version : Z) (t : ToolDefinition) : Prop :=
  text_ok (tol_Name t) /\ text_ok (tol_Description t) /\
  if version =? 2 then text_ok (tol_InputSchemaVersion t) /\ text_ok (tol_InputSchema t) else tol_InputSchemaVersion t = "" /\ tol_InputSchema t = "".

Lemma tool_read version t rest : tool_ok version t -> dec_tool version (tool_bytes version t ++ rest) = Some (t, rest).
Proof.
  destruct t as [name description schemaVersion schema]. unfold tool_ok, tool_bytes, dec_tool. cbn [tol_Name tol_Description tol_InputSchemaVersion tol_InputSchema]. intros (Hn & Hd & H).
  destruct (Z.eqb_spec version 2) as [->|]; rewrite <- !app_assoc.
  - destruct H. by do 6 read_next.
  - destruct H as [-> ->]. by do 4 read_next.
Qed.

Lemma tools_read version tools rest : Z.of_nat (length tools) <= maximumTools -> Forall (tool_ok version) tools ->
  dec_tools version (head 4 (Z.of_nat (length tools)) ++ concat (tool_bytes version <$> tools) ++ rest) = Some (tools, rest).
Proof.
  intros Hl Hf. unfold dec_tools, maximumTools in *. do 2 read_next. rewrite Nat2Z.id. apply times_reads. intros t r Ht. apply tool_read. by eapply Forall_forall.
Qed.

(** Version 1 has no other encoding of the tools. *)
Lemma tool_v1_exact : decodes_exactly (dec_tool 1) (tool_bytes 1) (tool_ok 1).
Proof.
  split; [intros; by apply tool_read|]. intros l t rest Hl H. unfold dec_tool in H. do 4 field_next H. cbn [Z.eqb Pos.eqb] in H. apply ret_decoded in H as [<- ->].
  assert (n = 2) as -> by (cbn in Hr; lia). unfold tool_bytes, tool_ok. cbn. rewrite <- !app_assoc. split; [done|]. done.
Qed.

Lemma tools_v1_read l tools rest : bytes_ok l -> dec_tools 1 l = Some (tools, rest) ->
  l = head 4 (Z.of_nat (length tools)) ++ concat (tool_bytes 1 <$> tools) ++ rest /\ Forall (tool_ok 1) tools /\ bytes_ok rest.
Proof.
  intros Hl H. unfold dec_tools in H. do 2 field_next H. pose proof (times_exact _ _ _ (Z.to_nat n) tool_v1_exact) as He. pose proof (exact_rest _ _ _ _ _ _ He Hb H).
  destruct (exa_only _ _ _ He _ _ _ Hb H) as [-> [El Hf]]. rewrite El, Z2Nat.id by lia. done.
Qed.

Section specifications.
Context (compile : any -> option (any -> bool)).
Notation CanonicalSchema := (CanonicalSchema compile).
Notation encode_tools := (encode_tools compile).
Notation valid_tools := (valid_tools compile).

(** A tool with its schema in canonical form. *)
Definition canonical_tool (t : ToolDefinition) : ToolDefinition :=
  match CanonicalSchema (tol_InputSchemaVersion t) (tol_InputSchema t) with
  | Some (version, schema) => mkTool (tol_Name t) (tol_Description t) version schema
  | None => t
  end.

Definition canonical_tools (tools : list ToolDefinition) : list ToolDefinition := if hasToolSchemas tools then canonical_tool <$> tools else tools.

(** The canonical schema is a valid text. *)
Definition readable_tool (t : ToolDefinition) : Prop := ValidString (tol_InputSchema (canonical_tool t)) = true.

Definition tool_valid (t : ToolDefinition) : Prop :=
  validName (tol_Name t) = true /\ validText (tol_Description t) maximumToolDescriptionBytes = true /\
  is_Some (CanonicalSchema (tol_InputSchemaVersion t) (tol_InputSchema t)).

Lemma valid_tools_spec seen tools : valid_tools seen tools = true <-> Forall tool_valid tools /\ NoDup (tol_Name <$> tools) /\ Forall (fun t => tol_Name t ∉ seen) tools.
Proof.
  revert seen. induction tools as [|t tools IH]; intros seen; [by split; [repeat constructor|]|]. cbn [ContentEnvelope.valid_tools].
  rewrite !andb_true_iff, negb_true_iff, bool_decide_eq_true, bool_decide_eq_false, IH, !Forall_cons, fmap_cons, NoDup_cons. unfold tool_valid at 2.
  assert (E : Forall (fun x => tol_Name x ∉ tol_Name t :: seen) tools <-> tol_Name t ∉ tol_Name <$> tools /\ Forall (fun x => tol_Name x ∉ seen) tools).
  { rewrite !Forall_forall, list_elem_of_fmap. split.
    - intros H. split; [intros (x & E & Hx); apply (H x Hx); rewrite E; by left|]. intros x Hx Hin. apply (H x Hx). by right.
    - intros [H1 H2] x Hx [E|Hin]%elem_of_cons; [apply H1; by exists x|by apply (H2 x)]. }
  rewrite E. tauto.
Qed.

Lemma canonical_short version raw v c : CanonicalSchema version raw = Some (v, c) -> text_ok v /\ v <> "" /\ len c <= maximumSchemaBytes.
Proof.
  intros H. split_and!.
  - by destruct (canonical_version _ _ _ _ _ H) as [(_ & _ & -> & _)|(_ & [-> | ->])].
  - by destruct (canonical_version _ _ _ _ _ H) as [(_ & _ & -> & _)|(_ & [-> | ->])].
  - revert H. unfold ToolSchema.CanonicalSchema. destruct (_ && _); [by intros [= _ <-]|]. destruct (_ || _); [done|]. destruct (version ≟ VersionV2).
    + intros (c' & H & [= -> ->])%fmap_Some. unfold canonicalGeneralSchema in H. repeat case_match; try done. bools. by simplify_eq.
    + destruct (_ ≠? _); [done|]. intros (d & _ & H)%bind_Some. apply bind_Some in H as (schema & _ & H). destruct (negb _); [done|]. apply bind_Some in H as (canonical & _ & H).
      destruct (_ <? _) eqn:E; [done|]. bools. by simplify_eq.
Qed.

Lemma canonical_tool_ok t : tool_valid t -> readable_tool t -> tool_ok 2 (canonical_tool t).
Proof.
  unfold tool_valid, readable_tool, canonical_tool. intros (Hn & Hd & [[v c] E]) Hr. rewrite E in *. cbn in *. destruct (canonical_short _ _ _ _ E) as (Hv & _ & Hc).
  split_and!; [by apply validName_ok|by eapply validText_ok; [|done]|]. cbn. split; [done|]. split; [done|unfold maximumSchemaBytes, max_u64 in *; lia].
Qed.

Lemma canonical_tool_fixed t : tool_valid t -> let u := canonical_tool t in tool_valid u /\ encode_tool compile true u = encode_tool compile true t /\
  encode_tool compile true t = Some (tool_bytes 2 u) /\ canonical_tool u = u /\ tol_Name u = tol_Name t /\ tol_InputSchemaVersion u <> "".
Proof.
  unfold tool_valid, canonical_tool, encode_tool. intros (Hn & Hd & [[v c] E]). rewrite E. cbn. rewrite (canonical_schema_fixed _ _ _ _ _ E). cbn.
  destruct (canonical_short _ _ _ _ E) as (_ & Hv & _). split_and!; first [done|eauto].
Qed.

Lemma no_schemas tools : hasToolSchemas tools = false -> Forall (fun t => tol_InputSchemaVersion t = "" /\ tol_InputSchema t = "") tools.
Proof.
  unfold hasToolSchemas. intros H. apply Forall_forall. intros t Ht. destruct (existsb _ tools) eqn:E; [done|].
  assert (Hf : forall x, In x tools -> (tol_InputSchemaVersion x ≠? "") || negb (len (tol_InputSchema x) =? 0) = false).
  { intros x Hx. destruct (_ || _) eqn:Ex; [|done]. by rewrite (proj2 (existsb_exists _ _)) in E by eauto. }
  specialize (Hf t (proj1 (list_elem_of_In _ _) Ht)). bools. apply Z.eqb_eq in Hf. split; [done|]. destruct (tol_InputSchema t); [done|]. unfold len in *. cbn in *. lia.
Qed.

(** What a property of every tool's canonical form gives of the list. *)
Lemma canonical_each {A} (f g : ToolDefinition -> A) tools : Forall tool_valid tools -> (forall t, tool_valid t -> f (canonical_tool t) = g t) -> f <$> (canonical_tool <$> tools) = g <$> tools.
Proof. intros Hf H. rewrite <- list_fmap_compose. apply list_fmap_ext. intros i t Ht. apply H. by eapply Forall_lookup_1. Qed.

Lemma canonical_valid seen tools : valid_tools seen tools = true -> valid_tools seen (canonical_tool <$> tools) = true.
Proof.
  intros (Hf & Hnd & Hs)%valid_tools_spec. apply valid_tools_spec. split_and!.
  - apply Forall_fmap. eapply Forall_impl; [exact Hf|]. intros t Ht. by apply (canonical_tool_fixed t).
  - rewrite (canonical_each tol_Name tol_Name); [done..|]. intros t Ht. by apply (canonical_tool_fixed t).
  - apply Forall_fmap. rewrite Forall_forall in Hf, Hs |- *. intros t Ht. cbn. destruct (canonical_tool_fixed t (Hf t Ht)) as (_ & _ & _ & _ & -> & _). by apply Hs.
Qed.

Lemma encode_all tools : Forall tool_valid tools -> mapM (encode_tool compile true) tools = Some (tool_bytes 2 <$> (canonical_tool <$> tools)).
Proof.
  intros Hf. rewrite <- list_fmap_compose. apply mapM_Some_2, Forall2_fmap_r, Forall_Forall2_diag. eapply Forall_impl; [exact Hf|]. intros t Ht. by apply canonical_tool_fixed.
Qed.

Lemma encode_none tools : mapM (encode_tool compile false) tools = Some (tool_bytes 1 <$> tools).
Proof. apply mapM_Some_2, Forall2_fmap_r, Forall_Forall2_diag, Forall_forall. done. Qed.

Lemma canonical_has tools : Forall tool_valid tools -> hasToolSchemas tools = true -> hasToolSchemas (canonical_tool <$> tools) = true.
Proof.
  destruct tools as [|t tools]; [done|]. intros [Ht _]%Forall_cons _. unfold hasToolSchemas. cbn. destruct (canonical_tool_fixed t Ht) as (_ & _ & _ & _ & _ & Hv). by rewrite bool_decide_false.
Qed.

Lemma canonical_tools_spec seen tools : valid_tools seen tools = true -> let l := canonical_tools tools in
  canonical_tools l = l /\ version_number l = version_number tools /\ valid_tools seen l = true /\ length l = length tools /\
  encode_tools tools = Some (head 4 (Z.of_nat (length l)) ++ concat (tool_bytes (version_number tools) <$> l)).
Proof.
  intros H. cbv zeta. pose proof H as (Hf & _ & _)%valid_tools_spec. unfold encode_tools, ContentEnvelope.encode_tools, version_number, canonical_tools.
  destruct (hasToolSchemas tools) eqn:Eh.
  - rewrite (canonical_has tools Hf Eh), encode_all, length_fmap by done. split_and!; [|done| |done..]; [|by apply canonical_valid].
    apply canonical_each; [done|]. intros t Ht. by apply (canonical_tool_fixed t).
  - rewrite Eh, encode_none. done.
Qed.

Lemma canonical_tools_ok seen tools : valid_tools seen tools = true -> Forall readable_tool tools -> Forall (tool_ok (version_number tools)) (canonical_tools tools).
Proof.
  intros (Hf & _ & _)%valid_tools_spec Hr. unfold version_number, canonical_tools. destruct (hasToolSchemas tools) eqn:Eh.
  - apply Forall_fmap. rewrite Forall_forall in Hf, Hr |- *. intros t Ht. apply canonical_tool_ok; auto.
  - apply no_schemas in Eh. rewrite Forall_forall in Hf, Eh |- *. intros t Ht. destruct (Hf t Ht) as (Hn & Hd & _). split_and!; [by apply validName_ok|by eapply validText_ok; [|done]|by apply Eh].
Qed.

(** ** Bodies *)

Definition canonical_body (b : AgentSpecificationBody) : AgentSpecificationBody :=
  mkBody (bod_Name b) (bod_ModelProfile b) (bod_Instructions b) (canonical_tools (bod_Tools b)).

Definition tools_encoding (tools : list ToolDefinition) : list Z :=
  let l := canonical_tools tools in head 4 (Z.of_nat (length l)) ++ concat (tool_bytes (version_number tools) <$> l).

Definition body_encoding (b : AgentSpecificationBody) : list Z :=
  head 4 5 ++ uintv (version_number (bod_Tools b)) ++ text (bod_Name b) ++ text (bod_ModelProfile b) ++ text (bod_Instructions b) ++ tools_encoding (bod_Tools b).

Lemma version_range tools : version_number tools = 1 \/ version_number tools = 2.
Proof. unfold version_number. destruct (hasToolSchemas tools); auto. Qed.

Lemma tools_bytes version tools : bytes_ok (concat (tool_bytes version <$> tools)).
Proof. apply Forall_concat, Forall_fmap, Forall_forall. intros t _. cbn. unfold tool_bytes. destruct (_ =? 2); written. Qed.

(** Writing within a bound. *)
Lemma bounded_write (encoded : list Z) maximum raw : bytes_ok encoded -> (if maximum <? Z.of_nat (length encoded) then None else Some (of_bytes encoded)) = Some raw <->
  bytes raw = encoded /\ len raw <= maximum.
Proof.
  intros Hb. split.
  - destruct (_ <? _) eqn:E; [done|]. intros <-%(inj Some). bools. by rewrite bytes_ok_read, of_bytes_len.
  - intros [<- Hl]. rewrite length_bytes, (proj2 (Z.ltb_ge _ _)), of_bytes_bytes by (unfold len in Hl; lia). done.
Qed.

Lemma encode_body_iff b raw : encodeAgentSpecificationBody compile b = Some raw <->
  validateAgentSpecificationBody compile b = true /\ bytes raw = body_encoding b /\ len raw <= maximumSpecificationBytes.
Proof.
  unfold encodeAgentSpecificationBody. destruct (validateAgentSpecificationBody compile b) eqn:Hv; cbn [negb]; [|by split; [|intros [[=] _]]].
  pose proof Hv as H. unfold validateAgentSpecificationBody in H. bools. destruct (canonical_tools_spec [] (bod_Tools b)) as (_ & _ & _ & _ & Et); [done|]. rewrite Et. cbn [mbind option_bind].
  rewrite bounded_write; [unfold body_encoding, tools_encoding; naive_solver|]. destruct (version_range (bod_Tools b)) as [-> | ->]; written; apply tools_bytes.
Qed.

Lemma canonical_body_encoding b raw : encodeAgentSpecificationBody compile b = Some raw -> encodeAgentSpecificationBody compile (canonical_body b) = Some raw.
Proof.
  rewrite !encode_body_iff. unfold validateAgentSpecificationBody, body_encoding, tools_encoding, canonical_body. cbn [bod_Name bod_ModelProfile bod_Instructions bod_Tools].
  intros (Hv & Hb & Hl). bools. destruct (canonical_tools_spec [] (bod_Tools b)) as (-> & -> & -> & El & _); [done|]. rewrite El in *. rewrite !andb_true_iff, Z.leb_le. by split_and!.
Qed.

Lemma tools_then {B} tools (k : list ToolDefinition -> Decoder B) l x rest : valid_tools [] tools = true -> Z.of_nat (length tools) <= maximumTools -> Forall readable_tool tools ->
  k (canonical_tools tools) l = Some (x, rest) -> (dec_tools (version_number tools) ≫= k) (tools_encoding tools ++ l) = Some (x, rest).
Proof.
  intros Hv Hl Hr Hk. apply bind_decoded. exists (canonical_tools tools), l. split; [|done]. unfold tools_encoding. cbv zeta. rewrite <- app_assoc.
  destruct (canonical_tools_spec _ _ Hv) as (_ & _ & _ & El & _). apply tools_read; [by rewrite El|by eapply canonical_tools_ok].
Qed.

Lemma body_decoded b : validateAgentSpecificationBody compile b = true -> Forall readable_tool (bod_Tools b) ->
  dec_body (body_encoding b) = Some ((version_number (bod_Tools b), canonical_body b), []).
Proof.
  unfold validateAgentSpecificationBody. intros Hv Hr. bools. assert (Hi : text_ok (bod_Instructions b)) by (by eapply validText_ok; [|done]).
  assert (Hn : text_ok (bod_Name b) /\ text_ok (bod_ModelProfile b)) by (split; by apply validName_ok). destruct Hn. pose proof (version_range (bod_Tools b)).
  unfold dec_body, body_encoding. do 6 read_next. rewrite <- (app_nil_r (tools_encoding _)). by apply tools_then.
Qed.

Lemma nonempty_len raw l : bytes raw = l -> l <> [] -> (len raw =? 0) = false.
Proof. intros <- H. apply Z.eqb_neq. unfold len. rewrite <- length_bytes. by destruct (bytes raw). Qed.

Lemma body_read b raw : encodeAgentSpecificationBody compile b = Some raw -> Forall readable_tool (bod_Tools b) -> decodeAgentSpecificationBody compile raw = Some (canonical_body b).
Proof.
  intros He Hr. pose proof (canonical_body_encoding _ _ He) as Hc. apply encode_body_iff in He as (Hv & Hb & Hl). unfold decodeAgentSpecificationBody.
  rewrite (proj2 (Z.ltb_ge _ _)), orb_false_r, (nonempty_len raw _ Hb) by done. rewrite Hb, (body_decoded b Hv Hr), Hc. cbn [mbind option_bind]. by rewrite bool_decide_true, andb_false_r.
Qed.

Lemma v1_tools tools : Forall (tool_ok 1) tools -> hasToolSchemas tools = false.
Proof.
  intros H. unfold hasToolSchemas. apply not_true_iff_false. intros (t & Hin & Ht)%existsb_exists. rewrite Forall_forall in H.
  destruct (H t (proj2 (list_elem_of_In _ _) Hin)) as (_ & _ & E1 & E2). rewrite E1, E2 in Ht. done.
Qed.

Lemma v1_tools_encoding tools : Forall (tool_ok 1) tools -> version_number tools = 1 /\ tools_encoding tools = head 4 (Z.of_nat (length tools)) ++ concat (tool_bytes 1 <$> tools).
Proof. intros H%v1_tools. unfold tools_encoding, version_number, canonical_tools. rewrite H. done. Qed.

Lemma body_written b raw : decodeAgentSpecificationBody compile raw = Some b -> encodeAgentSpecificationBody compile b = Some raw.
Proof.
  unfold decodeAgentSpecificationBody. destruct (_ || _) eqn:El; [done|]. bools. destruct (dec_body _) as [[[version body] [|]]|] eqn:Ed; [|done..].
  intros (canonical & Hc & He)%bind_Some. destruct ((version =? 2) && _) eqn:Eb; [done|]. injection He as ->. destruct (Z.eqb_spec version 2) as [->|Hn2]; cbn [andb] in Eb.
  { bools. by subst canonical. }
  apply encode_body_iff in Hc as (Hv & _). apply encode_body_iff. split_and!; [done| |done].
  pose proof (bytes_ok_bytes raw) as Hb. revert Hb Ed. generalize (bytes raw). intros l Hb Hd. unfold dec_body in Hd. do 6 field_next Hd. apply Z.eqb_eq in Hr as ->.
  apply bind_decoded in Hd as (tools & rest & Ht & [[= -> <-] ->]%ret_decoded). destruct Hn0 as [-> |]; [|done]. apply tools_v1_read in Ht as (-> & Hf & _); [|done].
  destruct (v1_tools_encoding tools Hf) as [E1 E2]. unfold body_encoding. cbn [bod_Name bod_ModelProfile bod_Instructions bod_Tools]. by rewrite E1, E2, app_nil_r.
Qed.

(** ** Specifications *)

Definition canonical_specification (s : AgentSpecification) : AgentSpecification :=
  mkSpecification (spc_ID s) (spc_RevisionID s) (spc_Revision s) (spc_Name s) (spc_ModelProfile s) (spc_Instructions s) (canonical_tools (spc_Tools s)) (spc_CreatedAt s).

Definition specification_encoding (s : AgentSpecification) : list Z :=
  head 4 9 ++ uintv (version_number (spc_Tools s)) ++ text (spc_ID s) ++ text (spc_RevisionID s) ++ uintv (spc_Revision s) ++ text (spc_Name s) ++
  text (spc_ModelProfile s) ++ text (spc_Instructions s) ++ tools_encoding (spc_Tools s) ++ text (FormatUTC (spc_CreatedAt s)).

Lemma tools_encoded tools : valid_tools [] tools = true -> encode_tools tools = Some (tools_encoding tools).
Proof. intros H. by destruct (canonical_tools_spec _ _ H) as (_ & _ & _ & _ & ->). Qed.

Lemma encode_iff s raw : 0 <= spc_Revision s -> encode compile s = Some raw <->
  validate compile s = true /\ bytes raw = specification_encoding s /\ len raw <= maximumSpecificationBytes.
Proof.
  intros Hv0. unfold encode. destruct (validate compile s) eqn:Hv; cbn [negb]; [|by split; [|intros [[=] _]]].
  pose proof Hv as H. unfold validate in H. bools. rewrite tools_encoded by done. cbn [mbind option_bind].
  rewrite bounded_write; [unfold specification_encoding; naive_solver|]. unfold tools_encoding. cbv zeta. destruct (version_range (spc_Tools s)) as [-> | ->]; written; apply tools_bytes.
Qed.

Lemma canonical_specification_encoding s raw : 0 <= spc_Revision s -> encode compile s = Some raw -> encode compile (canonical_specification s) = Some raw.
Proof.
  intros Hr. rewrite !encode_iff by done. unfold validate, specification_encoding, tools_encoding, canonical_specification.
  cbn [spc_ID spc_RevisionID spc_Revision spc_Name spc_ModelProfile spc_Instructions spc_Tools spc_CreatedAt].
  intros (Hv & Hb & Hl). bools. destruct (canonical_tools_spec [] (spc_Tools s)) as (-> & -> & -> & El & _); [done|]. rewrite El in *. rewrite !andb_true_iff, Z.leb_le, !negb_true_iff. by split_and!.
Qed.

Lemma parsed_id {value} prefix : ValidString prefix = true -> len prefix <= 16 -> is_Some (parseID value prefix) -> text_ok value /\ parseID value prefix = Some value.
Proof. intros Hp Hl H. split; [by eapply parseID_ok|]. destruct H as [id H]. by rewrite H, (parseID_value _ _ _ H). Qed.

(** A text within an encoding is as short as the encoding. *)
Lemma encoded_text raw a s : bytes raw = a ++ text s -> len raw <= maximumSpecificationBytes -> len s <= max_u64.
Proof.
  unfold len. rewrite <- (length_bytes raw). intros ->. unfold text. rewrite !length_app, length_bytes. change maximumSpecificationBytes with (2 ^ 20). unfold max_u64. lia.
Qed.

Lemma specification_decoded s : validate compile s = true -> 0 <= spc_Revision s <= max_u64 -> time_ok (spc_CreatedAt s) -> len (FormatUTC (spc_CreatedAt s)) <= max_u64 ->
  Forall readable_tool (spc_Tools s) -> let c := canonical_specification s in
  dec_specification (specification_encoding s) = Some ((version_number (spc_Tools s),
    (spc_ID s, spc_RevisionID s, spc_Revision s, mkBody (spc_Name s) (spc_ModelProfile s) (spc_Instructions s) (spc_Tools c), FormatUTC (spc_CreatedAt s))), []).
Proof.
  unfold validate, validAgentRevision. intros Hv Hrev Ht Hl Hr. cbv zeta. bools. assert (Hi : text_ok (spc_Instructions s)) by (by eapply validText_ok; [|done]).
  assert (Hn : text_ok (spc_Name s) /\ text_ok (spc_ModelProfile s)) by (split; by apply validName_ok). destruct Hn. pose proof (version_range (spc_Tools s)).
  assert (text_ok (spc_ID s)) by (by apply (parseID_ok _ agentPrefix)). assert (text_ok (spc_RevisionID s)) by (by apply (parseID_ok _ agentRevisionPrefix)).
  assert (text_ok (FormatUTC (spc_CreatedAt s))) by (split; [apply utf8_valid; by apply format_utf8|done]).
  unfold dec_specification, specification_encoding. do 9 read_next. apply tools_then; [done..|]. rewrite <- (app_nil_r (text (FormatUTC _))). by read_next.
Qed.

Lemma specification_read s raw : encode compile s = Some raw -> 0 <= spc_Revision s <= max_u64 -> time_ok (spc_CreatedAt s) -> Forall readable_tool (spc_Tools s) ->
  decode compile raw = Some (canonical_specification s).
Proof.
  intros He Hrev Ht Hr. pose proof (canonical_specification_encoding s raw ltac:(lia) He) as Hc. apply encode_iff in He as (Hv & Hb & Hl); [|lia]. unfold decode.
  rewrite (proj2 (Z.ltb_ge _ _)), orb_false_r, (nonempty_len raw _ Hb) by done.
  rewrite Hb, specification_decoded; [|done..| |done].
  - unfold validate, validAgentRevision in Hv. bools. unfold ParseAgentID, ParseAgentRevisionID in *.
    rewrite (proj2 (parsed_id agentPrefix eq_refl ltac:(done) ltac:(done))), (proj2 (parsed_id agentRevisionPrefix eq_refl ltac:(done) ltac:(done))), parse_format by done.
    cbn [mbind option_bind bod_Name bod_ModelProfile bod_Instructions bod_Tools]. change (mkSpecification _ _ _ _ _ _ _ _) with (canonical_specification s). rewrite Hc. cbn [mbind option_bind]. by rewrite bool_decide_true, andb_false_r.
  - eapply encoded_text; [|done]. rewrite Hb. unfold specification_encoding. by rewrite !app_assoc.
Qed.

Lemma specification_written s raw : decode compile raw = Some s -> exists canonical, encode compile s = Some canonical /\ (hasToolSchemas (spc_Tools s) = true -> canonical = raw).
Proof.
  unfold decode. destruct (_ || _); [done|]. destruct (dec_specification _) as [[[version [[[[id revisionID] revision] body] createdAt]] [|]]|] eqn:Ed; [|done..].
  intros (aid & _ & H)%bind_Some. apply bind_Some in H as (rid & _ & H). apply bind_Some in H as (t & _ & H). apply bind_Some in H as (canonical & Hc & H).
  destruct ((version =? 2) && _) eqn:Eb; [done|]. injection H as <-. exists canonical. split; [done|]. cbn [spc_Tools]. intros Hs. destruct (Z.eqb_spec version 2); [cbn in Eb; by bools|].
  exfalso. pose proof (bytes_ok_bytes raw) as Hb. revert Hb Ed. generalize (bytes raw). intros l Hb Hd. unfold dec_specification in Hd. do 9 field_next Hd.
  apply bind_decoded in Hd as (tools & rest & Htl & Hd). destruct Hn0 as [-> | ->].
  - apply tools_v1_read in Htl as (-> & Hf & Hrest); [|done]. field_next Hd. apply ret_decoded in Hd as [E ->]. simplify_eq. cbn [bod_Tools] in Hs. by rewrite (v1_tools tools Hf) in Hs.
  - apply bind_decoded in Hd as (? & ? & _ & [E ->]%ret_decoded). by simplify_eq.
Qed.
End specifications.
