(* ===== verification/ContentStore.v ===== *)
(** * The content store

    Models the Store and the readers of internal/runtimecontent/content.go, the tenant
    erasure of lifecycle.go and the bucket adapter of s3.go.  The object store, the S3
    client, the repositories that authorize reads and the context act on a world [W] that
    only they change; each call of [ctx.Err()] is a step of that world.  A handoff carries
    the identity [id] of the store that issued it. *)

From Stdlib Require Import Ascii String.
From S2P Require Import Prelude GoString Sha256 GoTime GoJson GoJsonText Cbor ToolSchema Sdk SdkTypes StateContract RuntimeContent ContentEnvelope.

Open Scope Z_scope.

(** What errors.Is tells of an error: a cancelled or expired context, ErrIntegrity,
    ErrNotFoundOrDenied, ErrUnavailable, or none of them. *)
Inductive ContentError : Type := ContentContext | ContentIntegrity | ContentDenied | ContentUnavailable | ContentOther.
#[export] Instance ContentError_eq_dec : EqDecision ContentError.
Proof. solve_decision. Defined.

Definition classifyObjectError (err fallback : ContentError) : ContentError :=
  match err with
  | ContentContext => ContentContext
  | ContentIntegrity => ContentIntegrity
  | ContentDenied => fallback
  | _ => ContentUnavailable
  end.

Definition C (W A : Type) : Type := M W ContentError A.

(** [if err != nil { return classifyObjectError(action, err, fallback) }] *)
Definition classified {W A} (fallback : ContentError) (m : C W A) : C W A := fun w =>
  match m w with (Err e, w) => (Err (classifyObjectError e fallback), w) | r => r end.

(** [if err := ctx.Err(); err != nil { return err }] *)
Definition alive {W} (done : W -> bool * W) : C W unit := fun w => let '(d, w) := done w in (if d then Err ContentContext else Ok tt, w).

Record ImmutableObjectStore (W : Type) : Type := mkObjectStore {
  PutIfAbsent : string -> string -> C W bool;
  Get : string -> Z -> C W string
}.
Arguments PutIfAbsent {W} _ _ _. Arguments Get {W} _ _ _.

(** ** Records and references *)

Definition validPrincipalID (value : PrincipalID) : bool := validSegment value maximumTenantIDBytes.

Definition ParseTenantID (raw : string) : option TenantID := if validSegment raw maximumTenantIDBytes then Some raw else None.
Definition ParsePrincipalID (raw : string) : option PrincipalID := if validSegment raw maximumTenantIDBytes then Some raw else None.

Definition maximumContentRootBytes : Z := 128.

(** [strings.Split] on one byte. *)
Fixpoint Split (s : string) (sep : ascii) : list string :=
  match s with
  | EmptyString => [""]
  | String c s =>
    if Ascii.eqb c sep then "" :: Split s sep
    else match Split s sep with segment :: rest => String c segment :: rest | [] => [String c ""] end
  end.

Fixpoint Contains (s sub : string) : bool := HasPrefix s sub || match s with EmptyString => false | String _ s => Contains s sub end.
Fixpoint HasSuffix (s suffix : string) : bool := (s ≟ suffix) || match s with EmptyString => false | String _ s => HasSuffix s suffix end.

Definition backslash : string := String (byte_chr 92) EmptyString.
Definition slash : ascii := byte_chr 47.

Definition validContentRoot (value : string) : bool :=
  if (len value =? 0) || (maximumContentRootBytes <? len value) || ContainsAny value (backslash +:+ NUL +:+ LF +:+ CR) || HasPrefix value "/" || HasSuffix value "/"
  then false
  else forallb (fun segment => validSegment segment maximumContentRootBytes && (segment ≠? "temporal-payload")) (Split value slash).

Definition validReference (r : Reference) : bool :=
  (ref_MediaType r ≟ AgentSpecificationMediaTypeV1) && (0 <? ref_SizeBytes r) && (ref_SizeBytes r <=? maximumSpecificationBytes) && validDigest (ref_Digest r).

Definition validToolActionDescriptorReference (r : Reference) : bool :=
  (ref_MediaType r ≟ ToolActionDescriptorMediaTypeV1) && (0 <? ref_SizeBytes r) && (ref_SizeBytes r <=? maximumConversationEntryBytes) && validDigest (ref_Digest r).

Definition validToolCallID (value : string) : bool :=
  (value ≠? "") && (len value <=? 128) && ValidString value && negb (ContainsAny value (backslash +:+ NUL +:+ CR +:+ LF)).

Definition validLocator (r : AgentSpecificationRecord) : bool :=
  validTenantID (asr_Tenant r) && validAgentRevision (asr_AgentID r) (asr_RevisionID r) (asr_Revision r) && validReference (asr_Reference r).

(** The metadata of a body record that both its reader and the store check. *)
Definition validBodyRecord (r : AgentSpecificationBodyRecord) : bool :=
  validAgentRevision (abr_AgentID r) (abr_RevisionID r) (abr_Revision r) && validName (abr_Name r) && validName (abr_ModelProfile r) &&
  validAgentSpecificationBodyReference (abr_Reference r) && negb (IsZero (abr_CreatedAt r)) && isUTC (abr_CreatedAt r).

Definition validInputEnvelopeRecord (r : InputEnvelopeRecord) : bool :=
  validTenantID (ier_Tenant r) && validPrincipalID (ier_Principal r) && validInputEnvelopeReference (ier_Reference r) &&
  bool_decide (is_Some (ParseSessionID (ier_SessionID r))) && bool_decide (is_Some (ParseInputID (ier_InputID r))).

Definition validArtifactRecord (r : ArtifactBodyRecord) : bool :=
  validTenantID (arr_Tenant r) && validPrincipalID (arr_Principal r) && validArtifactReference (arr_Reference r) && bool_decide (is_Some (ParseArtifactID (arr_ArtifactID r))).

Definition referenceForMediaType (encoded mediaType : string) : Reference := mkReference ("sha256:" +:+ sha256_hex encoded) mediaType (len encoded).
Definition referenceFor (encoded : string) : Reference := referenceForMediaType encoded AgentSpecificationMediaTypeV1.

(** [int64(len(raw)) != reference.SizeBytes || referenceForMediaType(raw, ...).Digest != reference.Digest] fails *)
Definition matches (raw : string) (r : Reference) : bool :=
  (len raw =? ref_SizeBytes r) && (ref_Digest (referenceForMediaType raw (ref_MediaType r)) ≟ ref_Digest r).

(** New *)
Definition NewStore (contentRoot : string) : option string := if validContentRoot contentRoot then Some contentRoot else None.

Section store.
Context {W : Type} (compile : any -> option (any -> bool)).
Context (objects : ImmutableObjectStore W) (done : W -> bool * W) (id : nat) (contentRoot : string).

Definition key (tenant : TenantID) (digest : string) : string := tenant +:+ "/" +:+ contentRoot +:+ "/v1/sha256/" +:+ TrimPrefix digest "sha256:".

Definition lift {A} (e : ContentError) (o : option A) : C W A := match o with Some a => mret a | None => fail e end.

(** ** Writing *)

Definition putVerified (tenant : TenantID) (reference : Reference) (encoded : string) : C W unit :=
  classified ContentUnavailable (PutIfAbsent objects (key tenant (ref_Digest reference)) encoded);;
  alive done;;
  existing ← classified ContentUnavailable (Get objects (key tenant (ref_Digest reference)) (ref_SizeBytes reference));
  alive done;;
  guard_or ContentIntegrity (matches existing reference && (existing ≟ encoded)).

Definition PutAgentSpecification (tenant : TenantID) (specification : AgentSpecification) : C W Reference :=
  guard_or ContentOther (validTenantID tenant);;
  alive done;;
  encoded ← lift ContentOther (encode compile specification);
  let reference := referenceFor encoded in
  created ← classified ContentUnavailable (PutIfAbsent objects (key tenant (ref_Digest reference)) encoded);
  alive done;;
  if (created : bool) then mret reference
  else
    existing ← classified ContentUnavailable (Get objects (key tenant (ref_Digest reference)) (ref_SizeBytes reference));
    alive done;;
    guard_or ContentIntegrity ((len existing =? ref_SizeBytes reference) && (existing ≟ encoded));;
    mret reference.

Definition StageAgentSpecificationBody (tenant : TenantID) (body : AgentSpecificationBody) : C W ContentHandoff :=
  guard_or ContentOther (validTenantID tenant);;
  alive done;;
  encoded ← lift ContentOther (encodeAgentSpecificationBody compile body);
  let reference := referenceForMediaType encoded AgentSpecificationBodyMediaTypeV1 in
  putVerified tenant reference encoded;;
  mret (mkContentHandoff id tenant reference contentKindAgentSpecificationBody (bod_Name body) (bod_ModelProfile body)).

Definition StageInputEnvelope (tenant : TenantID) (parts : list ContentPart) : C W ContentHandoff :=
  guard_or ContentOther (validTenantID tenant);;
  alive done;;
  encoded ← lift ContentOther (encodeInputEnvelope parts);
  let reference := referenceForMediaType encoded InputEnvelopeMediaTypeV1 in
  putVerified tenant reference encoded;;
  mret (mkContentHandoff id tenant reference contentKindInputEnvelope "" "").

Definition StageArtifact (tenant : TenantID) (mediaType data : string) : C W ContentHandoff :=
  guard_or ContentOther (validTenantID tenant && validArtifactMediaType mediaType && negb (len data =? 0) && (len data <=? maximumArtifactBytes));;
  alive done;;
  let reference := referenceForMediaType data mediaType in
  putVerified tenant reference data;;
  mret (mkContentHandoff id tenant reference contentKindArtifact "" "").

Definition StageConversationEntry (tenant : TenantID) (body : string) : C W ContentHandoff :=
  guard_or ContentOther (validTenantID tenant && negb (len body =? 0) && (len body <=? maximumConversationEntryBytes));;
  alive done;;
  let reference := referenceForMediaType body ConversationEntryMediaTypeV1 in
  putVerified tenant reference body;;
  mret (mkContentHandoff id tenant reference contentKindConversationEntry "" "").

Definition StageToolActionDescriptor (tenant : TenantID) (body : string) : C W ContentHandoff :=
  guard_or ContentDenied (validTenantID tenant && negb (len body =? 0) && (len body <=? maximumConversationEntryBytes));;
  let reference := referenceForMediaType body ToolActionDescriptorMediaTypeV1 in
  putVerified tenant reference body;;
  mret (mkContentHandoff id tenant reference contentKindToolActionDescriptor "" "").

(** ** Reading *)

(** The bytes of a reference: the part that the five reads share. *)
Definition fetch (tenant : TenantID) (reference : Reference) : C W string :=
  alive done;;
  raw ← classified ContentDenied (Get objects (key tenant (ref_Digest reference)) (ref_SizeBytes reference));
  alive done;;
  guard_or ContentIntegrity (matches raw reference);;
  mret raw.

Definition getAgentSpecification (r : AgentSpecificationRecord) : C W AgentSpecification :=
  guard_or ContentDenied (validLocator r);;
  raw ← fetch (asr_Tenant r) (asr_Reference r);
  specification ← lift ContentIntegrity (decode compile raw);
  guard_or ContentDenied ((spc_ID specification ≟ asr_AgentID r) && (spc_RevisionID specification ≟ asr_RevisionID r) && (spc_Revision specification =? asr_Revision r));;
  mret specification.

Definition getAgentSpecificationBody (r : AgentSpecificationBodyRecord) : C W AgentSpecification :=
  guard_or ContentDenied (validTenantID (abr_Tenant r) && validBodyRecord r);;
  raw ← fetch (abr_Tenant r) (abr_Reference r);
  body ← lift ContentIntegrity (decodeAgentSpecificationBody compile raw);
  guard_or ContentDenied ((bod_Name body ≟ abr_Name r) && (bod_ModelProfile body ≟ abr_ModelProfile r));;
  mret (mkSpecification (abr_AgentID r) (abr_RevisionID r) (abr_Revision r) (abr_Name r) (abr_ModelProfile r) (bod_Instructions body) (bod_Tools body) (abr_CreatedAt r)).

Definition getInputEnvelope (r : InputEnvelopeRecord) : C W (list ContentPart) :=
  guard_or ContentDenied (validInputEnvelopeRecord r);;
  raw ← fetch (ier_Tenant r) (ier_Reference r);
  lift ContentIntegrity (decodeInputEnvelope raw).

Definition getArtifact (r : ArtifactBodyRecord) : C W string :=
  guard_or ContentDenied (validArtifactRecord r);;
  fetch (arr_Tenant r) (arr_Reference r).

Definition getToolActionDescriptor (c : ContentCommitment) : C W string :=
  guard_or ContentDenied (validTenantID (cmt_Tenant c) && validToolActionDescriptorReference (cmt_Reference c));;
  fetch (cmt_Tenant c) (cmt_Reference c).

(** ** The readers; [authorize] is the call of the repository *)

(** The calls and checks around the repository. *)
Definition authorized {R} (authorize : C W R) (exact : R -> bool) : C W R :=
  alive done;;
  record ← classified ContentDenied authorize;
  alive done;;
  guard_or ContentDenied (exact record);;
  mret record.

Definition ReadAgentSpecification (authorize : C W AgentSpecificationRecord) (tenant : TenantID) (agentID : AgentID) (revisionID : AgentRevisionID) : C W AgentSpecification :=
  guard_or ContentDenied (validTenantID tenant && bool_decide (is_Some (ParseAgentID agentID)) && bool_decide (is_Some (ParseAgentRevisionID revisionID)));;
  record ← authorized authorize (fun r =>
    (asr_Tenant r ≟ tenant) && (asr_AgentID r ≟ agentID) && (asr_RevisionID r ≟ revisionID) &&
    validAgentRevision (asr_AgentID r) (asr_RevisionID r) (asr_Revision r) && validReference (asr_Reference r));
  getAgentSpecification record.

Definition ReadAgentSpecificationBody (authorize : C W AgentSpecificationBodyRecord) (tenant : TenantID) (agentID : AgentID) (revisionID : AgentRevisionID) : C W AgentSpecification :=
  guard_or ContentDenied (validTenantID tenant && bool_decide (is_Some (ParseAgentID agentID)) && bool_decide (is_Some (ParseAgentRevisionID revisionID)));;
  record ← authorized authorize (fun r => (abr_Tenant r ≟ tenant) && (abr_AgentID r ≟ agentID) && (abr_RevisionID r ≟ revisionID) && validBodyRecord r);
  getAgentSpecificationBody record.

Definition ReadInputEnvelope (authorize : C W InputEnvelopeRecord) (tenant : TenantID) (principal : PrincipalID) (sessionID : SessionID) (inputID : InputID) : C W (list ContentPart) :=
  guard_or ContentDenied (validTenantID tenant && validPrincipalID principal && bool_decide (is_Some (ParseSessionID sessionID)) && bool_decide (is_Some (ParseInputID inputID)));;
  record ← authorized authorize (fun r =>
    (ier_Tenant r ≟ tenant) && (ier_Principal r ≟ principal) && (ier_SessionID r ≟ sessionID) && (ier_InputID r ≟ inputID) && validInputEnvelopeRecord r);
  getInputEnvelope record.

Definition exact_artifact (tenant : TenantID) (principal : PrincipalID) (artifactID : ArtifactID) (r : ArtifactBodyRecord) : bool :=
  (arr_Tenant r ≟ tenant) && (arr_Principal r ≟ principal) && (arr_ArtifactID r ≟ artifactID) && validArtifactRecord r.

Definition ReadArtifact (authorize : C W ArtifactBodyRecord) (tenant : TenantID) (principal : PrincipalID) (artifactID : ArtifactID) : C W string :=
  guard_or ContentDenied (validTenantID tenant && validPrincipalID principal && bool_decide (is_Some (ParseArtifactID artifactID)));;
  record ← authorized authorize (exact_artifact tenant principal artifactID);
  getArtifact record.

(** [streamer] is nil when the object store cannot stream; a stream is the bytes it would
    yield, of which the reader sees one more than the size of the reference. *)
Definition OpenArtifact (streamer : option (string -> Z -> C W (option string))) (authorize : C W ArtifactBodyRecord)
  (tenant : TenantID) (principal : PrincipalID) (artifactID : ArtifactID) : C W (Reference * string) :=
  guard_or ContentDenied (validTenantID tenant && validPrincipalID principal && bool_decide (is_Some (ParseArtifactID artifactID)));;
  record ← classified ContentDenied authorize;
  guard_or ContentDenied (exact_artifact tenant principal artifactID record);;
  open ← lift ContentUnavailable streamer;
  body ← classified ContentDenied (open (key (arr_Tenant record) (ref_Digest (arr_Reference record))) (ref_SizeBytes (arr_Reference record)));
  stream ← lift ContentUnavailable body;
  mret (arr_Reference record, of_bytes (take (Z.to_nat (ref_SizeBytes (arr_Reference record) + 1)) (bytes stream))).

Definition ReadToolActionDescriptor (authorize : C W ContentCommitment) (tenant : TenantID) (principal : PrincipalID) (sessionID : SessionID) (turnID : TurnID) (toolCallID : string) : C W string :=
  guard_or ContentDenied (validTenantID tenant && validPrincipalID principal && bool_decide (is_Some (ParseSessionID sessionID)) &&
    bool_decide (is_Some (ParseTurnID turnID)) && validToolCallID toolCallID);;
  commitment ← authorized authorize (fun c => (cmt_Tenant c ≟ tenant) && validToolActionDescriptorReference (cmt_Reference c));
  getToolActionDescriptor commitment.
End store.

(** ** The bucket adapter (s3.go) *)

Definition validObjectKey (k : string) : bool :=
  (k ≠? "") && (len k <=? 512) && negb (HasPrefix k "/") && negb (Contains k "..") && negb (Contains k backslash).

(** The client of the object service; its optional capabilities are the type assertions
    of Open and DeleteExact.  Every error of the client is replaced. *)
Record S3Client (W : Type) : Type := mkClient {
  s3_PutIfAbsent : string -> string -> string -> W -> option bool * W;
  s3_Get : string -> string -> Z -> W -> option string * W;
  s3_Open : option (string -> string -> Z -> W -> option (option string) * W);
  s3_DeleteExact : option (string -> string -> W -> option unit * W)
}.
Arguments s3_PutIfAbsent {W} _ _ _ _ _. Arguments s3_Get {W} _ _ _ _ _. Arguments s3_Open {W} _. Arguments s3_DeleteExact {W} _.

(** NewS3ImmutableObjects *)
Definition NewS3ImmutableObjects (bucket : string) : option string := if all_runes isSpace bucket || Contains bucket "/" then None else Some bucket.

Section s3.
Context {W : Type} (client : S3Client W) (done : W -> bool * W) (bucket : string).

(** [value, err := call; if err != nil { return e }] *)
Definition calling {A} (e : ContentError) (call : W -> option A * W) : C W A := fun w =>
  match call w with (Some a, w) => (Ok a, w) | (None, w) => (Err e, w) end.

Definition S3PutIfAbsent (k value : string) : C W bool :=
  alive done;;
  guard_or ContentIntegrity (validObjectKey k);;
  calling ContentUnavailable (s3_PutIfAbsent client bucket k value).

Definition S3Get (k : string) (maxBytes : Z) : C W string :=
  alive done;;
  guard_or ContentIntegrity (validObjectKey k && (0 <? maxBytes));;
  value ← calling ContentDenied (s3_Get client bucket k maxBytes);
  guard_or ContentIntegrity (len value <=? maxBytes);;
  mret value.

Definition S3Open (k : string) (maxBytes : Z) : C W (option string) :=
  alive done;;
  guard_or ContentUnavailable ((0 <? maxBytes) && validObjectKey k);;
  open ← lift ContentUnavailable (s3_Open client);
  stream ← calling ContentDenied (open bucket k maxBytes);
  body ← lift ContentUnavailable stream;
  mret (Some body).

Definition S3DeleteExact (k : string) : C W unit :=
  alive done;;
  guard_or ContentIntegrity (validObjectKey k);;
  delete ← lift ContentUnavailable (s3_DeleteExact client);
  calling ContentUnavailable (delete bucket k).

Definition S3ImmutableObjects : ImmutableObjectStore W := mkObjectStore W S3PutIfAbsent S3Get.
End s3.

(** ** Erasure (lifecycle.go) *)

Definition maximumErasureReferences : Z := 1024.

Record ErasureRequest : Type := mkErasureRequest { era_Tenant : TenantID; era_AuthorizationID : string; era_References : list Reference }.
Record ErasureReceipt : Type := mkErasureReceipt { ert_Tenant : TenantID; ert_Deleted : list Reference; ert_Failed : option Reference }.

Definition validLifecycleReference (r : Reference) : bool :=
  validReference r || validAgentSpecificationBodyReference r || validInputEnvelopeReference r || validArtifactReference r || validConversationEntryReference r.

Fixpoint valid_references (seen : list string) (l : list Reference) : bool :=
  match l with
  | [] => true
  | r :: l =>
    let k := ref_Digest r +:+ NUL +:+ ref_MediaType r in
    validLifecycleReference r && negb (bool_decide (k ∈ seen)) && valid_references (k :: seen) l
  end.

Definition validErasureRequest (request : ErasureRequest) : bool :=
  if negb (validTenantID (era_Tenant request)) || (len (era_AuthorizationID request) <? 16) || (128 <? len (era_AuthorizationID request)) ||
     ContainsAny (era_AuthorizationID request) (NUL +:+ CR +:+ LF) || (length (era_References request) =? 0)%nat ||
     (maximumErasureReferences <? Z.of_nat (length (era_References request)))
  then false
  else valid_references [] (era_References request).

Section erasure.
Context {W : Type} (done : W -> bool * W) (contentRoot : string) (authorize : ErasureRequest -> C W unit) (DeleteExact : string -> C W unit).

(** The loop: the receipt so far, and the error that ended it. *)
Fixpoint erase_loop (tenant : TenantID) (deleted l : list Reference) (w : W) : ErasureReceipt * option ContentError * W :=
  match l with
  | [] => (mkErasureReceipt tenant deleted None, None, w)
  | r :: l =>
    match alive done w with
    | (Err e, w) => (mkErasureReceipt tenant deleted (Some r), Some e, w)
    | (Ok _, w) =>
      match DeleteExact (key contentRoot tenant (ref_Digest r)) w with
      | (Err _, w) => (mkErasureReceipt tenant deleted (Some r), Some ContentUnavailable, w)
      | (Ok _, w) => erase_loop tenant (deleted ++ [r]) l w
      end
    end
  end.

Definition noReceipt : ErasureReceipt := mkErasureReceipt "" [] None.

(** Unlike the other operations, the receipt matters when there is an error. *)
Definition Erase (request : ErasureRequest) (w : W) : ErasureReceipt * option ContentError * W :=
  match alive done w with
  | (Err e, w) => (noReceipt, Some e, w)
  | (Ok _, w) =>
    if negb (validErasureRequest request) then (noReceipt, Some ContentDenied, w)
    else match authorize request w with
         | (Err _, w) => (noReceipt, Some ContentDenied, w)
         | (Ok _, w) => erase_loop (era_Tenant request) [] (era_References request) w
         end
  end.
End erasure.
