(* ===== verification/StateCompiler.v ===== *)
(** * Command compiler

    Models [internal/runtimestate/compiler.go]: the only way to build a command
    the planner accepts.  Every [Compile...] function takes the command after
    [Owned] (which only normalizes times and copies), checks authority, scope and
    content commitments, and seals the command with a receipt binding whose
    digest commits the canonical JSON form of the request.

    An error created by [errors.New] in the compiler is [ErrInvalidCommand]. *)

From S2P Require Import Prelude GoString Sha256 GoTime GoJson Sdk StateContract RuntimeContent.

Open Scope Z_scope.

(** ** The command vocabulary *)

Inductive CommandKind : Type :=
| CommandRegisterAgentRevision
| CommandRegisterPolicyRevision
| CommandCreateSession
| CommandAdmitInput
| CommandRegisterArtifact
| CommandAppendConversation
| CommandAdmitToolApproval
| CommandRecordToolIntent
| CommandRequestApproval
| CommandDecideApproval
| CommandRevokeCapabilityGrant
| CommandExpireCapabilityGrant
| CommandDenyToolAdmission
| CommandConsumeCapabilityGrant
| CommandBeginToolExecution
| CommandRecordToolOutcome
| CommandBeginInvocation
| CommandRecordOutcome
| CommandSettleTurn
| CommandCancelTurn
| CommandCloseSession
| CommandCancelSession
| CommandFailSession
| CommandClaimOutbox
| CommandRenewOutbox
| CommandAcknowledgeOutbox.

#[export] Instance CommandKind_eq_dec : EqDecision CommandKind.
Proof. solve_decision. Defined.

Definition CommandKind_text (kind : CommandKind) : string :=
  match kind with
  | CommandRegisterAgentRevision => "register_agent_revision"
  | CommandRegisterPolicyRevision => "register_policy_revision"
  | CommandCreateSession => "create_session"
  | CommandAdmitInput => "admit_input"
  | CommandRegisterArtifact => "register_artifact"
  | CommandAppendConversation => "append_conversation"
  | CommandAdmitToolApproval => "admit_tool_approval"
  | CommandRecordToolIntent => "record_tool_intent"
  | CommandRequestApproval => "request_approval"
  | CommandDecideApproval => "decide_approval"
  | CommandRevokeCapabilityGrant => "revoke_capability_grant"
  | CommandExpireCapabilityGrant => "expire_capability_grant"
  | CommandDenyToolAdmission => "deny_tool_admission"
  | CommandConsumeCapabilityGrant => "consume_capability_grant"
  | CommandBeginToolExecution => "begin_tool_execution"
  | CommandRecordToolOutcome => "record_tool_execution_outcome"
  | CommandBeginInvocation => "begin_invocation_attempt"
  | CommandRecordOutcome => "record_invocation_outcome"
  | CommandSettleTurn => "settle_turn"
  | CommandCancelTurn => "cancel_turn"
  | CommandCloseSession => "close_session"
  | CommandCancelSession => "cancel_session"
  | CommandFailSession => "fail_session"
  | CommandClaimOutbox => "claim_outbox"
  | CommandRenewOutbox => "renew_outbox"
  | CommandAcknowledgeOutbox => "acknowledge_outbox"
  end.

Record ReceiptBinding : Type := mkBinding {
  bin_Scope : MutationScope;
  bin_IdempotencyKey : string;
  bin_Command : CommandKind;
  bin_RequestDigest : RequestDigest
}.

(** The dynamic type and value of [compiledMutation.command]. *)
Inductive compiledCommand : Type :=
| compiledRegister (command : RegisterAgentRevisionCommand) (commitment : AgentSpecificationBodyCommitment)
| compiledPolicy (command : RegisterPolicyRevisionCommand)
| compiledCreate (command : CreateSessionCommand)
| compiledAdmit (command : AdmitInputCommand) (commitment : ContentCommitment)
| compiledArtifact (command : RegisterArtifactCommand) (commitment : ContentCommitment)
| compiledConversation (command : AppendConversationCommand) (commitment : ContentCommitment)
| compiledToolIntent (command : RecordToolIntentCommand) (descriptor : Reference)
| compiledToolApproval (command : AdmitToolApprovalCommand) (descriptor : Reference)
| compiledRequestApproval (command : RequestApprovalCommand)
| compiledDecide (command : DecideApprovalCommand)
| compiledConsume (command : ConsumeCapabilityGrantCommand)
| compiledRevoke (command : RevokeCapabilityGrantCommand)
| compiledExpire (command : ExpireCapabilityGrantCommand)
| compiledDeny (command : DenyToolAdmissionCommand)
| compiledBeginTool (command : BeginToolExecutionCommand)
| compiledToolOutcome (command : RecordToolExecutionOutcomeCommand)
| compiledBeginInvocation (command : BeginInvocationAttemptCommand)
| compiledOutcome (command : RecordInvocationOutcomeCommand)
| compiledSettle (command : SettleTurnCommand)
| compiledCancelTurn (command : CancelTurnCommand)
| compiledClose (command : CloseSessionCommand)
| compiledCancelSession (command : CancelSessionCommand)
| compiledFailSession (command : FailSessionCommand)
| compiledClaim (command : ClaimOutboxCommand)
| compiledRenew (command : RenewOutboxCommand)
| compiledAcknowledge (command : AcknowledgeOutboxCommand).

Record CompiledMutation : Type := mkMutation {
  mut_kind : CommandKind;
  mut_receipt : ReceiptBinding;
  mut_command : compiledCommand
}.

(** ** Validators *)

Definition validOpaque (value : string) (maximum : Z) : bool :=
  (value ≠? "") && (len value <=? maximum) && ValidString value && space_trimmed value.

Definition validDigest (value : string) : bool :=
  (len value =? 71) && HasPrefix value "sha256:" &&
  trims_to_empty (drop_bytes 7 value) "0123456789abcdef".

Definition validName (value : string) : bool := validOpaque value 128.

(** The loop of [validPolicyRules], with its [seen] set. *)
Fixpoint validPolicyRules_go (seen : gset string) (rules : list PolicyRule) : bool :=
  match rules with
  | [] => true
  | rule :: rules =>
    if negb (validName (ToolName rule)) ||
       ((Decision_ rule ≠? PolicyDenied) && (Decision_ rule ≠? PolicyRequiresApproval)) then false
    else if bool_decide (ToolName rule ∈ seen) then false
    else validPolicyRules_go ({[ToolName rule]} ∪ seen) rules
  end.

Definition validPolicyRules (rules : list PolicyRule) : bool :=
  if (length rules =? 0)%nat || (64 <? length rules)%nat then false
  else validPolicyRules_go ∅ rules.

Definition validReference (r : Reference) : bool :=
  (0 <? ref_SizeBytes r) && (ref_SizeBytes r <=? Z.shiftl 2 20 + Z.shiftl 4 10) &&
  validOpaque (ref_Digest r) 128 && validOpaque (ref_MediaType r) 256.

Definition validArtifactReference (r : Reference) : bool :=
  (0 <? ref_SizeBytes r) && (ref_SizeBytes r <=? Z.shiftl 8 20) &&
  validOpaque (ref_Digest r) 128 && validOpaque (ref_MediaType r) 256.

Definition validConversationReference (r : Reference) : bool :=
  (ref_MediaType r ≟ ConversationEntryMediaTypeV1) && (0 <? ref_SizeBytes r) &&
  (ref_SizeBytes r <=? Z.shiftl 2 20) && validOpaque (ref_Digest r) 128.

Definition validAgent (id : AgentID) : bool := bool_decide (is_Some (ParseAgentID id)).
Definition validRevision (id : AgentRevisionID) : bool := bool_decide (is_Some (ParseAgentRevisionID id)).
Definition validSession (id : SessionID) : bool := bool_decide (is_Some (ParseSessionID id)).
Definition validInput (id : InputID) : bool := bool_decide (is_Some (ParseInputID id)).
Definition validTurn (id : TurnID) : bool := bool_decide (is_Some (ParseTurnID id)).
Definition validArtifact (id : ArtifactID) : bool := bool_decide (is_Some (ParseArtifactID id)).

(** [true] when [validateScope] returns no error. *)
Definition validateScope (scope : MutationScope) (authority : Authority) (requirePrincipal : bool) : bool :=
  if (sco_Authority scope ≠? authority) || negb (validOpaque (sco_Tenant scope) 128) ||
     (requirePrincipal && negb (validOpaque (sco_Principal scope) 128)) then false
  else if negb requirePrincipal && (sco_Principal scope ≠? "") && negb (validOpaque (sco_Principal scope) 128)
  then false else true.

Definition validateWorkerCommand (scope : MutationScope) (session : SessionID) (turn : TurnID)
    (operation : OperationID) : bool :=
  validateScope scope AuthorityRuntimeWorker true && validSession session && validTurn turn &&
  validOpaque operation 128.

Definition validFailure (failure : option Failure) : bool :=
  match failure with
  | None => false
  | Some f => validOpaque (Code f) 64 && (len (Message f) <=? 1024) && (Z.of_nat (size (Details f)) <=? 16)
  end.

Definition validResult (result : option Reference) : bool :=
  match result with None => false | Some r => validReference r end.

Definition validOutcome (outcome : InvocationState) (result : option Reference) (failure : option Failure) : bool :=
  ((outcome ≟ InvocationSucceeded) && (failure ≟ None) && validResult result) ||
  (((outcome ≟ InvocationFailed) || (outcome ≟ InvocationUncertain)) && (result ≟ None) && validFailure failure) ||
  ((outcome ≟ InvocationCancelled) && (result ≟ None) && (failure ≟ None)).

Definition validTerminal (outcome : TerminalOutcome) : bool :=
  if (tou_State outcome ≠? TurnSucceeded) && (tou_State outcome ≠? TurnFailed) &&
     (tou_State outcome ≠? TurnCancelled) then false
  else if tou_State outcome ≟ TurnSucceeded then
    ((tou_OperationID outcome ≟ "") && (tou_Ordinal outcome =? 0) && (tou_Fence outcome =? 0) &&
     (tou_Failure outcome ≟ None)) ||
    (validOpaque (tou_OperationID outcome) 128 && (0 <? tou_Ordinal outcome) && (0 <? tou_Fence outcome) &&
     (tou_Failure outcome ≟ None))
  else (tou_Failure outcome ≟ None) || validFailure (tou_Failure outcome).

Definition validApprovalSummary (verb target : string) : bool :=
  ((verb ≟ "execute") || (verb ≟ "restart") || (verb ≟ "write") || (verb ≟ "delete")) &&
  ((target ≟ "workspace-service") || (target ≟ "sandbox-process") || (target ≟ "artifact") ||
   (target ≟ "network-request")).

Definition validOutboxLeaseFence (fence : option OutboxLeaseFence) : bool :=
  match fence with
  | None => true
  | Some f => validOpaque (olf_OutboxID f) 128 && (0 <? olf_ExpectedVersion f) && validOpaque (olf_Claimer f) 128
  end.

Definition receiptExpired (receipt : MutationReceipt) (now : Time) : bool :=
  negb (IsZero (rec_RetentionUntil receipt)) && negb (After (rec_RetentionUntil receipt) now).

(** ** Canonical request shapes

    The JSON objects [json.Marshal] writes for the command structs, in field
    order.  Identifier types encode through [marshalID], which rejects an
    invalid identifier. *)

Definition json_SessionID (id : SessionID) : jval := marshalID id sessionPrefix.
Definition json_TurnID (id : TurnID) : jval := marshalID id turnPrefix.

Definition json_scope (s : MutationScope) : jval :=
  JObj [("Tenant", JStr (sco_Tenant s)); ("Principal", JStr (sco_Principal s));
        ("Authority", JStr (Authority_text (sco_Authority s)))].

Definition json_Reference (r : Reference) : jval :=
  JObj [("Digest", JStr (ref_Digest r)); ("MediaType", JStr (ref_MediaType r)); ("SizeBytes", JNum (ref_SizeBytes r))].

Definition json_OutboxLeaseFence (f : OutboxLeaseFence) : jval :=
  JObj [("OutboxID", JStr (olf_OutboxID f)); ("ExpectedVersion", JNum (olf_ExpectedVersion f));
        ("Claimer", JStr (olf_Claimer f))].

Definition json_ToolExecutionState (s : ToolExecutionState) : jval :=
  JStr match s with
       | ToolExecutionStateNone_ => "" | ToolExecutionIntent => "intent" | ToolExecutionSucceeded => "succeeded"
       | ToolExecutionFailed => "failed" | ToolExecutionUncertain => "uncertain"
       end.

Definition json_InvocationState (s : InvocationState) : jval :=
  JStr match s with
       | InvocationStateNone_ => "" | InvocationIntent => "intent" | InvocationSucceeded => "succeeded"
       | InvocationFailed => "failed" | InvocationUncertain => "uncertain" | InvocationCancelled => "cancelled"
       end.

Definition json_TerminalOutcome (o : TerminalOutcome) : jval :=
  JObj [("OperationID", JStr (tou_OperationID o)); ("Ordinal", JNum (tou_Ordinal o)); ("Fence", JNum (tou_Fence o));
        ("State", JStr (TurnState_text (tou_State o))); ("Failure", json_ptr json_failure (tou_Failure o))].

Definition json_ModelUsage (u : ModelUsage) : jval :=
  JObj [("InputTokens", json_ptr JNum (InputTokens u)); ("OutputTokens", json_ptr JNum (OutputTokens u))].

Definition json_RequestApprovalCommand (c : RequestApprovalCommand) : jval :=
  JObj [("Scope", json_scope (cqa_Scope c)); ("IdempotencyKey", JStr (cqa_IdempotencyKey c));
        ("SessionID", json_SessionID (cqa_SessionID c)); ("TurnID", json_TurnID (cqa_TurnID c));
        ("ToolCallID", JStr (cqa_ToolCallID c)); ("ApprovalID", JStr (cqa_ApprovalID c));
        ("ActionDigest", JStr (cqa_ActionDigest c));
        ("PolicyRevisionDigest", JStr (cqa_PolicyRevisionDigest c));
        ("CapabilityDigest", JStr (cqa_CapabilityDigest c)); ("ActionVerb", JStr (cqa_ActionVerb c));
        ("ActionTarget", JStr (cqa_ActionTarget c)); ("MaximumUses", JNum (cqa_MaximumUses c));
        ("ExpiresAt", json_time (cqa_ExpiresAt c))].

Definition json_DecideApprovalCommand (c : DecideApprovalCommand) : jval :=
  JObj [("Scope", json_scope (cda_Scope c)); ("IdempotencyKey", JStr (cda_IdempotencyKey c));
        ("ApprovalID", JStr (cda_ApprovalID c)); ("Decision", JStr (cda_Decision c))].

Definition json_ConsumeCapabilityGrantCommand (c : ConsumeCapabilityGrantCommand) : jval :=
  JObj [("Scope", json_scope (ccg_Scope c)); ("IdempotencyKey", JStr (ccg_IdempotencyKey c));
        ("GrantID", JStr (ccg_GrantID c)); ("ToolCallID", JStr (ccg_ToolCallID c));
        ("PolicyRevisionDigest", JStr (ccg_PolicyRevisionDigest c));
        ("SessionID", json_SessionID (ccg_SessionID c)); ("TurnID", json_TurnID (ccg_TurnID c))].

Definition json_RevokeCapabilityGrantCommand (c : RevokeCapabilityGrantCommand) : jval :=
  JObj [("Scope", json_scope (crg_Scope c)); ("IdempotencyKey", JStr (crg_IdempotencyKey c));
        ("GrantID", JStr (crg_GrantID c)); ("ToolCallID", JStr (crg_ToolCallID c));
        ("SessionID", json_SessionID (crg_SessionID c)); ("TurnID", json_TurnID (crg_TurnID c))].

Definition json_ExpireCapabilityGrantCommand (c : ExpireCapabilityGrantCommand) : jval :=
  JObj [("Scope", json_scope (ceg_Scope c)); ("IdempotencyKey", JStr (ceg_IdempotencyKey c));
        ("GrantID", JStr (ceg_GrantID c)); ("ToolCallID", JStr (ceg_ToolCallID c));
        ("SessionID", json_SessionID (ceg_SessionID c)); ("TurnID", json_TurnID (ceg_TurnID c))].

Definition json_DenyToolAdmissionCommand (c : DenyToolAdmissionCommand) : jval :=
  JObj [("Scope", json_scope (cdt_Scope c)); ("IdempotencyKey", JStr (cdt_IdempotencyKey c));
        ("ToolCallID", JStr (cdt_ToolCallID c)); ("Decision", JStr (cdt_Decision c));
        ("PolicyRevisionDigest", JStr (cdt_PolicyRevisionDigest c));
        ("CapabilityScopeDigest", JStr (cdt_CapabilityScopeDigest c));
        ("SessionID", json_SessionID (cdt_SessionID c)); ("TurnID", json_TurnID (cdt_TurnID c))].

Definition json_BeginToolExecutionCommand (c : BeginToolExecutionCommand) : jval :=
  JObj [("Scope", json_scope (cbt_Scope c)); ("IdempotencyKey", JStr (cbt_IdempotencyKey c));
        ("ToolCallID", JStr (cbt_ToolCallID c)); ("GrantID", JStr (cbt_GrantID c));
        ("SessionID", json_SessionID (cbt_SessionID c)); ("TurnID", json_TurnID (cbt_TurnID c));
        ("OperationID", JStr (cbt_OperationID c))].

Definition json_RecordToolExecutionOutcomeCommand (c : RecordToolExecutionOutcomeCommand) : jval :=
  JObj [("Scope", json_scope (cto_Scope c)); ("IdempotencyKey", JStr (cto_IdempotencyKey c));
        ("SessionID", json_SessionID (cto_SessionID c)); ("TurnID", json_TurnID (cto_TurnID c));
        ("ToolCallID", JStr (cto_ToolCallID c)); ("OperationID", JStr (cto_OperationID c));
        ("Outcome", json_ToolExecutionState (cto_Outcome c));
        ("Result", json_ptr json_Reference (cto_Result c)); ("Failure", json_ptr json_failure (cto_Failure c));
        ("LeaseFence", json_ptr json_OutboxLeaseFence (cto_LeaseFence c))].

Definition json_BeginInvocationAttemptCommand (c : BeginInvocationAttemptCommand) : jval :=
  JObj [("Scope", json_scope (cbi_Scope c)); ("IdempotencyKey", JStr (cbi_IdempotencyKey c));
        ("SessionID", json_SessionID (cbi_SessionID c)); ("TurnID", json_TurnID (cbi_TurnID c));
        ("OperationID", JStr (cbi_OperationID c));
        ("ExpectedSessionVersion", JNum (cbi_ExpectedSessionVersion c));
        ("ExpectedTurnVersion", JNum (cbi_ExpectedTurnVersion c));
        ("ExpectedFence", JNum (cbi_ExpectedFence c))].

Definition json_SettleTurnCommand (c : SettleTurnCommand) : jval :=
  JObj [("Scope", json_scope (cst_Scope c)); ("IdempotencyKey", JStr (cst_IdempotencyKey c));
        ("SessionID", json_SessionID (cst_SessionID c)); ("TurnID", json_TurnID (cst_TurnID c));
        ("ExpectedSessionVersion", JNum (cst_ExpectedSessionVersion c));
        ("ExpectedTurnVersion", JNum (cst_ExpectedTurnVersion c));
        ("Outcome", json_TerminalOutcome (cst_Outcome c));
        ("LeaseFence", json_ptr json_OutboxLeaseFence (cst_LeaseFence c))].

Definition json_CancelTurnCommand (c : CancelTurnCommand) : jval :=
  JObj [("Scope", json_scope (cct_Scope c)); ("IdempotencyKey", JStr (cct_IdempotencyKey c));
        ("SessionID", json_SessionID (cct_SessionID c)); ("TurnID", json_TurnID (cct_TurnID c))].

Definition json_CloseSessionCommand (c : CloseSessionCommand) : jval :=
  JObj [("Scope", json_scope (ccl_Scope c)); ("IdempotencyKey", JStr (ccl_IdempotencyKey c));
        ("SessionID", json_SessionID (ccl_SessionID c))].

Definition json_CancelSessionCommand (c : CancelSessionCommand) : jval :=
  JObj [("Scope", json_scope (cca_Scope c)); ("IdempotencyKey", JStr (cca_IdempotencyKey c));
        ("SessionID", json_SessionID (cca_SessionID c))].

Definition json_FailSessionCommand (c : FailSessionCommand) : jval :=
  JObj [("Scope", json_scope (cfs_Scope c)); ("IdempotencyKey", JStr (cfs_IdempotencyKey c));
        ("SessionID", json_SessionID (cfs_SessionID c))].

Definition json_ClaimOutboxCommand (c : ClaimOutboxCommand) : jval :=
  JObj [("Scope", json_scope (cco_Scope c)); ("IdempotencyKey", JStr (cco_IdempotencyKey c));
        ("OutboxID", JStr (cco_OutboxID c)); ("ExpectedVersion", JNum (cco_ExpectedVersion c));
        ("Claimer", JStr (cco_Claimer c)); ("ClaimUntil", json_time (cco_ClaimUntil c))].

Definition json_RenewOutboxCommand (c : RenewOutboxCommand) : jval :=
  JObj [("Scope", json_scope (cro_Scope c)); ("IdempotencyKey", JStr (cro_IdempotencyKey c));
        ("OutboxID", JStr (cro_OutboxID c)); ("ExpectedVersion", JNum (cro_ExpectedVersion c));
        ("Claimer", JStr (cro_Claimer c)); ("ClaimUntil", json_time (cro_ClaimUntil c))].

Definition json_AcknowledgeOutboxCommand (c : AcknowledgeOutboxCommand) : jval :=
  JObj [("Scope", json_scope (cao_Scope c)); ("IdempotencyKey", JStr (cao_IdempotencyKey c));
        ("OutboxID", JStr (cao_OutboxID c)); ("ExpectedVersion", JNum (cao_ExpectedVersion c));
        ("Claimer", JStr (cao_Claimer c)); ("PublishedAt", json_time (cao_PublishedAt c))].

(** [outcomeDigestShape] *)
Definition outcomeDigestShape (c : RecordInvocationOutcomeCommand) : jval :=
  let result := match cio_Result c with Some r => r | None => zeroReference end in
  JObj [("Session", JStr (cio_SessionID c)); ("Turn", JStr (cio_TurnID c)); ("Operation", JStr (cio_OperationID c));
        ("Ordinal", JNum (cio_Ordinal c)); ("Fence", JNum (cio_Fence c));
        ("SessionVersion", JNum (cio_ExpectedSessionVersion c)); ("TurnVersion", JNum (cio_ExpectedTurnVersion c));
        ("Outcome", json_InvocationState (cio_Outcome c)); ("Result", json_Reference result);
        ("Failure", json_ptr json_failure (cio_Failure c)); ("Usage", json_ptr json_ModelUsage (cio_Usage c))].

(** The canonical bytes [compile] digests. *)
Definition canonical (kind : CommandKind) (scope : MutationScope) (key : string) (shape : jval) : option string :=
  marshal (JObj [("version", JStr "runtime-state-command/v1"); ("kind", JStr (CommandKind_text kind));
                 ("scope", json_scope scope); ("key", JStr key); ("shape", shape)]).

Definition compile (kind : CommandKind) (scope : MutationScope) (key : string) (shape : jval)
    (command : compiledCommand) : res StateError CompiledMutation :=
  if negb (validOpaque key 256) then Err ErrInvalidCommand
  else match canonical kind scope key shape with
       | None => Err ErrInvalidCommand
       | Some text =>
         Ok (mkMutation kind (mkBinding scope key kind ("sha256:" +:+ sha256_hex text)) command)
       end.

(** ** The content authority

    [runtimecontent.ContentHandoffValidator]: what the compiler asks of the store
    that issued a handoff; [None] is an error. *)

Class ContentHandoffValidator : Type := {
  checkAgentSpecificationBody : ContentHandoff -> option AgentSpecificationBodyCommitment;
  checkInputEnvelope : ContentHandoff -> option ContentCommitment;
  checkArtifact : ContentHandoff -> option ContentCommitment;
  checkConversationEntry : ContentHandoff -> option ContentCommitment;
  checkToolActionDescriptor : ContentHandoff -> option ContentCommitment
}.

Definition storeValidator (store : nat) : ContentHandoffValidator := {|
  checkAgentSpecificationBody := ValidateAgentSpecificationBodyHandoff store;
  checkInputEnvelope := ValidateInputEnvelopeHandoff store;
  checkArtifact := ValidateArtifactHandoff store;
  checkConversationEntry := ValidateConversationEntryHandoff store;
  checkToolActionDescriptor := ValidateToolActionDescriptorHandoff store
|}.

(** ** Compilation *)

Section Compiler.
Context {content : ContentHandoffValidator}.

Definition CompileRegisterAgentRevision (command : RegisterAgentRevisionCommand) : res StateError CompiledMutation :=
  if negb (validateScope (cra_Scope command) AuthorityTenantAdministrator false) then Err ErrInvalidCommand
  else if (if cra_AgentID command ≟ "" then negb (cra_ExpectedRevision command =? 0)
           else negb (validAgent (cra_AgentID command)) || (cra_ExpectedRevision command =? 0))
  then Err ErrInvalidCommand
  else match checkAgentSpecificationBody (cra_Specification command) with
       | None => Err ErrIntegrity
       | Some commitment =>
         if (asc_Tenant commitment ≠? sco_Tenant (cra_Scope command)) ||
            negb (validReference (asc_Reference commitment)) || negb (validName (asc_Name commitment)) ||
            negb (validName (asc_ModelProfile commitment))
         then Err ErrIntegrity
         else compile CommandRegisterAgentRevision (cra_Scope command) (cra_IdempotencyKey command)
                (JObj [("AgentID", JStr (cra_AgentID command)); ("Reference", json_Reference (asc_Reference commitment));
                       ("Name", JStr (asc_Name commitment)); ("Profile", JStr (asc_ModelProfile commitment))])
                (compiledRegister command commitment)
       end.

Definition CompileRegisterPolicyRevision (command : RegisterPolicyRevisionCommand) : res StateError CompiledMutation :=
  if negb (validateScope (crp_Scope command) AuthorityTenantAdministrator false) ||
     negb (validName (crp_Name command)) || negb (validPolicyRules (crp_Rules command))
  then Err ErrInvalidCommand
  else compile CommandRegisterPolicyRevision (crp_Scope command) (crp_IdempotencyKey command)
         (JObj [("Name", JStr (crp_Name command)); ("ExpectedRevision", JNum (crp_ExpectedRevision command));
                ("Rules", JArr (json_rule <$> crp_Rules command))])
         (compiledPolicy command).

Definition CompileCreateSession (command : CreateSessionCommand) : res StateError CompiledMutation :=
  if negb (validateScope (ccs_Scope command) AuthoritySessionOwner true) || negb (validRevision (ccs_RevisionID command))
  then Err ErrInvalidCommand
  else compile CommandCreateSession (ccs_Scope command) (ccs_IdempotencyKey command)
         (JObj [("Revision", JStr (ccs_RevisionID command))]) (compiledCreate command).

Definition CompileAdmitInput (command : AdmitInputCommand) : res StateError CompiledMutation :=
  if negb (validateScope (cai_Scope command) AuthoritySessionOwner true) || negb (validSession (cai_SessionID command))
  then Err ErrInvalidCommand
  else match checkInputEnvelope (cai_Input command) with
       | None => Err ErrIntegrity
       | Some commitment =>
         if (cmt_Tenant commitment ≠? sco_Tenant (cai_Scope command)) || negb (validReference (cmt_Reference commitment))
         then Err ErrIntegrity
         else compile CommandAdmitInput (cai_Scope command) (cai_IdempotencyKey command)
                (JObj [("Session", JStr (cai_SessionID command)); ("Reference", json_Reference (cmt_Reference commitment))])
                (compiledAdmit command commitment)
       end.

Definition CompileRegisterArtifact (command : RegisterArtifactCommand) : res StateError CompiledMutation :=
  if negb (validateScope (car_Scope command) AuthorityRuntimeWorker true) || negb (validSession (car_SessionID command)) ||
     negb (validTurn (car_TurnID command)) || negb (validOutboxLeaseFence (car_LeaseFence command))
  then Err ErrInvalidCommand
  else match checkArtifact (car_Artifact command) with
       | None => Err ErrIntegrity
       | Some commitment =>
         if (cmt_Tenant commitment ≠? sco_Tenant (car_Scope command)) || negb (validArtifactReference (cmt_Reference commitment))
         then Err ErrIntegrity
         else compile CommandRegisterArtifact (car_Scope command) (car_IdempotencyKey command)
                (JObj [("Session", JStr (car_SessionID command)); ("Turn", JStr (car_TurnID command));
                       ("Reference", json_Reference (cmt_Reference commitment))])
                (compiledArtifact command commitment)
       end.

Definition CompileAppendConversation (command : AppendConversationCommand) : res StateError CompiledMutation :=
  if negb (validateScope (cac_Scope command) AuthorityRuntimeWorker true) || negb (validSession (cac_SessionID command))
  then Err ErrInvalidCommand
  else match checkConversationEntry (cac_Entry command) with
       | None => Err ErrIntegrity
       | Some commitment =>
         if (cmt_Tenant commitment ≠? sco_Tenant (cac_Scope command)) || negb (validConversationReference (cmt_Reference commitment))
         then Err ErrIntegrity
         else compile CommandAppendConversation (cac_Scope command) (cac_IdempotencyKey command)
                (JObj [("Session", JStr (cac_SessionID command)); ("Expected", JNum (cac_ExpectedVersion command));
                       ("Reference", json_Reference (cmt_Reference commitment))])
                (compiledConversation command commitment)
       end.

Definition CompileRecordToolIntent (command : RecordToolIntentCommand) : res StateError CompiledMutation :=
  match checkToolActionDescriptor (cti_Descriptor command) with
  | None => Err ErrInvalidCommand
  | Some commitment =>
    if negb (validateWorkerCommand (cti_Scope command) (cti_SessionID command) (cti_TurnID command) (cti_ToolCallID command)) ||
       (cmt_Tenant commitment ≠? sco_Tenant (cti_Scope command)) || negb (validOpaque (cti_ToolName command) 128) ||
       negb (validDigest (cti_ActionDigest command)) || negb (validDigest (cti_PolicyRevisionDigest command))
    then Err ErrInvalidCommand
    else compile CommandRecordToolIntent (cti_Scope command) (cti_IdempotencyKey command)
           (json_Reference (cmt_Reference commitment)) (compiledToolIntent command (cmt_Reference commitment))
  end.

(** [Owned] of the commands that carry a time. *)
Definition ownedAdmitToolApproval (c : AdmitToolApprovalCommand) : AdmitToolApprovalCommand :=
  mkAdmitToolApprovalCommand (cta_Scope c) (cta_IdempotencyKey c) (cta_SessionID c) (cta_TurnID c) (cta_ToolCallID c)
    (cta_ToolName c) (cta_ApprovalID c) (cta_ActionDigest c) (cta_PolicyRevisionDigest c) (cta_CapabilityDigest c)
    (cta_ActionVerb c) (cta_ActionTarget c) (cta_Descriptor c) (cta_MaximumUses c) (normalizeTime (cta_ExpiresAt c)).

Definition ownedRequestApproval (c : RequestApprovalCommand) : RequestApprovalCommand :=
  mkRequestApprovalCommand (cqa_Scope c) (cqa_IdempotencyKey c) (cqa_SessionID c) (cqa_TurnID c) (cqa_ToolCallID c)
    (cqa_ApprovalID c) (cqa_ActionDigest c) (cqa_PolicyRevisionDigest c) (cqa_CapabilityDigest c)
    (cqa_ActionVerb c) (cqa_ActionTarget c) (cqa_MaximumUses c) (normalizeTime (cqa_ExpiresAt c)).

Definition ownedClaimOutbox (c : ClaimOutboxCommand) : ClaimOutboxCommand :=
  mkClaimOutboxCommand (cco_Scope c) (cco_IdempotencyKey c) (cco_OutboxID c) (cco_ExpectedVersion c) (cco_Claimer c)
    (normalizeTime (cco_ClaimUntil c)).

Definition ownedRenewOutbox (c : RenewOutboxCommand) : RenewOutboxCommand :=
  mkRenewOutboxCommand (cro_Scope c) (cro_IdempotencyKey c) (cro_OutboxID c) (cro_ExpectedVersion c) (cro_Claimer c)
    (normalizeTime (cro_ClaimUntil c)).

Definition ownedAcknowledgeOutbox (c : AcknowledgeOutboxCommand) : AcknowledgeOutboxCommand :=
  mkAcknowledgeOutboxCommand (cao_Scope c) (cao_IdempotencyKey c) (cao_OutboxID c) (cao_ExpectedVersion c) (cao_Claimer c)
    (normalizeTime (cao_PublishedAt c)).

Definition CompileAdmitToolApproval (cmd : AdmitToolApprovalCommand) : res StateError CompiledMutation :=
  let command := ownedAdmitToolApproval cmd in
  match checkToolActionDescriptor (cta_Descriptor command) with
  | None => Err ErrInvalidCommand
  | Some commitment =>
    if bool_decide (ParseApprovalID (cta_ApprovalID command) = None) ||
       negb (validateWorkerCommand (cta_Scope command) (cta_SessionID command) (cta_TurnID command) (cta_ToolCallID command)) ||
       (cmt_Tenant commitment ≠? sco_Tenant (cta_Scope command)) || negb (validOpaque (cta_ToolName command) 128) ||
       negb (validDigest (cta_ActionDigest command)) || negb (validDigest (cta_PolicyRevisionDigest command)) ||
       negb (validDigest (cta_CapabilityDigest command)) ||
       negb (validApprovalSummary (cta_ActionVerb command) (cta_ActionTarget command)) ||
       (cta_MaximumUses command =? 0) || (32 <? cta_MaximumUses command) || IsZero (cta_ExpiresAt command)
    then Err ErrInvalidCommand
    else compile CommandAdmitToolApproval (cta_Scope command) (cta_IdempotencyKey command)
           (json_Reference (cmt_Reference commitment)) (compiledToolApproval command (cmt_Reference commitment))
  end.

Definition CompileRequestApproval (cmd : RequestApprovalCommand) : res StateError CompiledMutation :=
  let command := ownedRequestApproval cmd in
  if bool_decide (ParseApprovalID (cqa_ApprovalID command) = None) ||
     negb (validateWorkerCommand (cqa_Scope command) (cqa_SessionID command) (cqa_TurnID command) (cqa_ToolCallID command)) ||
     negb (validDigest (cqa_ActionDigest command)) || negb (validDigest (cqa_PolicyRevisionDigest command)) ||
     negb (validDigest (cqa_CapabilityDigest command)) ||
     negb (validApprovalSummary (cqa_ActionVerb command) (cqa_ActionTarget command)) ||
     (cqa_MaximumUses command =? 0) || (32 <? cqa_MaximumUses command) || IsZero (cqa_ExpiresAt command)
  then Err ErrInvalidCommand
  else compile CommandRequestApproval (cqa_Scope command) (cqa_IdempotencyKey command)
         (json_RequestApprovalCommand command) (compiledRequestApproval command).

Definition CompileDecideApproval (command : DecideApprovalCommand) : res StateError CompiledMutation :=
  if bool_decide (ParseApprovalID (cda_ApprovalID command) = None) ||
     negb (validateScope (cda_Scope command) AuthoritySessionOwner true) ||
     ((cda_Decision command ≠? "approved") && (cda_Decision command ≠? "denied"))
  then Err ErrInvalidCommand
  else compile CommandDecideApproval (cda_Scope command) (cda_IdempotencyKey command)
         (json_DecideApprovalCommand command) (compiledDecide command).

Definition CompileConsumeCapabilityGrant (command : ConsumeCapabilityGrantCommand) : res StateError CompiledMutation :=
  if negb (validateWorkerCommand (ccg_Scope command) (ccg_SessionID command) (ccg_TurnID command) (ccg_ToolCallID command)) ||
     negb (validOpaque (ccg_GrantID command) 128) || negb (validDigest (ccg_PolicyRevisionDigest command))
  then Err ErrInvalidCommand
  else compile CommandConsumeCapabilityGrant (ccg_Scope command) (ccg_IdempotencyKey command)
         (json_ConsumeCapabilityGrantCommand command) (compiledConsume command).

Definition CompileRevokeCapabilityGrant (command : RevokeCapabilityGrantCommand) : res StateError CompiledMutation :=
  if negb (validateScope (crg_Scope command) AuthoritySessionOwner true) || negb (validSession (crg_SessionID command)) ||
     negb (validTurn (crg_TurnID command)) || negb (validOpaque (crg_ToolCallID command) 128) ||
     negb (validOpaque (crg_GrantID command) 128)
  then Err ErrInvalidCommand
  else compile CommandRevokeCapabilityGrant (crg_Scope command) (crg_IdempotencyKey command)
         (json_RevokeCapabilityGrantCommand command) (compiledRevoke command).

Definition CompileExpireCapabilityGrant (command : ExpireCapabilityGrantCommand) : res StateError CompiledMutation :=
  if negb (validateScope (ceg_Scope command) AuthorityRuntimeWorker true) || negb (validSession (ceg_SessionID command)) ||
     negb (validTurn (ceg_TurnID command)) || negb (validOpaque (ceg_ToolCallID command) 128) ||
     negb (validOpaque (ceg_GrantID command) 128)
  then Err ErrInvalidCommand
  else compile CommandExpireCapabilityGrant (ceg_Scope command) (ceg_IdempotencyKey command)
         (json_ExpireCapabilityGrantCommand command) (compiledExpire command).

Definition CompileDenyToolAdmission (command : DenyToolAdmissionCommand) : res StateError CompiledMutation :=
  if negb (validateWorkerCommand (cdt_Scope command) (cdt_SessionID command) (cdt_TurnID command) (cdt_ToolCallID command)) ||
     negb (validOpaque (cdt_ToolCallID command) 128) || negb (validDigest (cdt_CapabilityScopeDigest command)) ||
     ((cdt_PolicyRevisionDigest command ≠? "") && negb (validDigest (cdt_PolicyRevisionDigest command))) ||
     ((cdt_Decision command ≠? "denied") && (cdt_Decision command ≠? "exhausted"))
  then Err ErrInvalidCommand
  else compile CommandDenyToolAdmission (cdt_Scope command) (cdt_IdempotencyKey command)
         (json_DenyToolAdmissionCommand command) (compiledDeny command).

Definition CompileBeginToolExecution (command : BeginToolExecutionCommand) : res StateError CompiledMutation :=
  if negb (validateWorkerCommand (cbt_Scope command) (cbt_SessionID command) (cbt_TurnID command) (cbt_OperationID command)) ||
     negb (validOpaque (cbt_GrantID command) 128) || negb (validOpaque (cbt_ToolCallID command) 128)
  then Err ErrInvalidCommand
  else compile CommandBeginToolExecution (cbt_Scope command) (cbt_IdempotencyKey command)
         (json_BeginToolExecutionCommand command) (compiledBeginTool command).

Definition CompileRecordToolExecutionOutcome (command : RecordToolExecutionOutcomeCommand)
  : res StateError CompiledMutation :=
  let valid :=
    ((cto_Outcome command ≟ ToolExecutionSucceeded) && (cto_Failure command ≟ None) && validResult (cto_Result command)) ||
    (((cto_Outcome command ≟ ToolExecutionFailed) || (cto_Outcome command ≟ ToolExecutionUncertain)) &&
     (cto_Result command ≟ None) && validFailure (cto_Failure command)) in
  if negb (validateWorkerCommand (cto_Scope command) (cto_SessionID command) (cto_TurnID command) (cto_OperationID command)) ||
     negb (validOpaque (cto_ToolCallID command) 128) || negb valid || negb (validOutboxLeaseFence (cto_LeaseFence command))
  then Err ErrInvalidCommand
  else compile CommandRecordToolOutcome (cto_Scope command) (cto_IdempotencyKey command)
         (json_RecordToolExecutionOutcomeCommand command) (compiledToolOutcome command).

Definition CompileBeginInvocationAttempt (command : BeginInvocationAttemptCommand) : res StateError CompiledMutation :=
  if negb (validateWorkerCommand (cbi_Scope command) (cbi_SessionID command) (cbi_TurnID command) (cbi_OperationID command)) ||
     (cbi_ExpectedSessionVersion command =? 0) || (cbi_ExpectedTurnVersion command =? 0)
  then Err ErrInvalidCommand
  else compile CommandBeginInvocation (cbi_Scope command) (cbi_IdempotencyKey command)
         (json_BeginInvocationAttemptCommand command) (compiledBeginInvocation command).

Definition CompileRecordInvocationOutcome (command : RecordInvocationOutcomeCommand) : res StateError CompiledMutation :=
  if negb (validateWorkerCommand (cio_Scope command) (cio_SessionID command) (cio_TurnID command) (cio_OperationID command)) ||
     (cio_Ordinal command =? 0) || (cio_Fence command =? 0) || (cio_ExpectedSessionVersion command =? 0) ||
     (cio_ExpectedTurnVersion command =? 0) ||
     negb (validOutcome (cio_Outcome command) (cio_Result command) (cio_Failure command))
  then Err ErrInvalidCommand
  else compile CommandRecordOutcome (cio_Scope command) (cio_IdempotencyKey command)
         (outcomeDigestShape command) (compiledOutcome command).

Definition CompileSettleTurn (command : SettleTurnCommand) : res StateError CompiledMutation :=
  if negb (validateScope (cst_Scope command) AuthorityRuntimeWorker true) || negb (validSession (cst_SessionID command)) ||
     negb (validTurn (cst_TurnID command)) || (cst_ExpectedSessionVersion command =? 0) ||
     (cst_ExpectedTurnVersion command =? 0) || negb (validTerminal (cst_Outcome command)) ||
     negb (validOutboxLeaseFence (cst_LeaseFence command))
  then Err ErrInvalidCommand
  else compile CommandSettleTurn (cst_Scope command) (cst_IdempotencyKey command)
         (json_SettleTurnCommand command) (compiledSettle command).

Definition CompileCancelTurn (command : CancelTurnCommand) : res StateError CompiledMutation :=
  if negb (validateScope (cct_Scope command) AuthoritySessionOwner true) || negb (validSession (cct_SessionID command)) ||
     negb (validTurn (cct_TurnID command))
  then Err ErrInvalidCommand
  else compile CommandCancelTurn (cct_Scope command) (cct_IdempotencyKey command)
         (json_CancelTurnCommand command) (compiledCancelTurn command).

Definition CompileCloseSession (command : CloseSessionCommand) : res StateError CompiledMutation :=
  if negb (validateScope (ccl_Scope command) AuthoritySessionOwner true) || negb (validSession (ccl_SessionID command))
  then Err ErrInvalidCommand
  else compile CommandCloseSession (ccl_Scope command) (ccl_IdempotencyKey command)
         (json_CloseSessionCommand command) (compiledClose command).

Definition CompileCancelSession (command : CancelSessionCommand) : res StateError CompiledMutation :=
  if negb (validateScope (cca_Scope command) AuthoritySessionOwner true) || negb (validSession (cca_SessionID command))
  then Err ErrInvalidCommand
  else compile CommandCancelSession (cca_Scope command) (cca_IdempotencyKey command)
         (json_CancelSessionCommand command) (compiledCancelSession command).

Definition CompileFailSession (command : FailSessionCommand) : res StateError CompiledMutation :=
  if negb (validateScope (cfs_Scope command) AuthorityRuntimeWorker true) || negb (validSession (cfs_SessionID command))
  then Err ErrInvalidCommand
  else compile CommandFailSession (cfs_Scope command) (cfs_IdempotencyKey command)
         (json_FailSessionCommand command) (compiledFailSession command).

Definition CompileClaimOutbox (cmd : ClaimOutboxCommand) : res StateError CompiledMutation :=
  let command := ownedClaimOutbox cmd in
  if negb (validateScope (cco_Scope command) AuthorityOutboxPublisher false) || negb (validOpaque (cco_OutboxID command) 128) ||
     (cco_ExpectedVersion command =? 0) || negb (validOpaque (cco_Claimer command) 128) || IsZero (cco_ClaimUntil command)
  then Err ErrInvalidCommand
  else compile CommandClaimOutbox (cco_Scope command) (cco_IdempotencyKey command)
         (json_ClaimOutboxCommand command) (compiledClaim command).

Definition CompileRenewOutbox (cmd : RenewOutboxCommand) : res StateError CompiledMutation :=
  let command := ownedRenewOutbox cmd in
  if negb (validateScope (cro_Scope command) AuthorityOutboxPublisher false) || negb (validOpaque (cro_OutboxID command) 128) ||
     (cro_ExpectedVersion command =? 0) || negb (validOpaque (cro_Claimer command) 128) || IsZero (cro_ClaimUntil command)
  then Err ErrInvalidCommand
  else compile CommandRenewOutbox (cro_Scope command) (cro_IdempotencyKey command)
         (json_RenewOutboxCommand command) (compiledRenew command).

Definition CompileAcknowledgeOutbox (cmd : AcknowledgeOutboxCommand) : res StateError CompiledMutation :=
  let command := ownedAcknowledgeOutbox cmd in
  if negb (validateScope (cao_Scope command) AuthorityOutboxPublisher false) || negb (validOpaque (cao_OutboxID command) 128) ||
     (cao_ExpectedVersion command =? 0) || negb (validOpaque (cao_Claimer command) 128) || IsZero (cao_PublishedAt command)
  then Err ErrInvalidCommand
  else compile CommandAcknowledgeOutbox (cao_Scope command) (cao_IdempotencyKey command)
         (json_AcknowledgeOutboxCommand command) (compiledAcknowledge command).
End Compiler.

(** ** Read authorizations *)

Record CompiledReadAuthorization : Type := mkReadAuthorization {
  aut_scope : MutationScope;
  aut_agentID : AgentID;
  aut_revisionID : AgentRevisionID;
  aut_sessionID : SessionID;
  aut_inputID : InputID;
  aut_artifactID : ArtifactID;
  aut_turnID : TurnID;
  aut_toolCallID : string
}.

Definition validateAgentSpecificationBodyReaderScope (scope : MutationScope) : bool :=
  if (sco_Authority scope ≠? AuthorityTenantAdministrator) && (sco_Authority scope ≠? AuthorityRuntimeWorker)
  then false else validateScope scope (sco_Authority scope) false.

Definition CompileAuthorizeAgentSpecificationBodyRead (scope : MutationScope) (agent : AgentID)
    (revision : AgentRevisionID) : option CompiledReadAuthorization :=
  if negb (validateAgentSpecificationBodyReaderScope scope) || negb (validAgent agent) || negb (validRevision revision)
  then None else Some (mkReadAuthorization scope agent revision "" "" "" "" "").

Definition CompileAuthorizeInputEnvelopeRead (scope : MutationScope) (session : SessionID) (input : InputID)
  : option CompiledReadAuthorization :=
  if negb (validateScope scope AuthoritySessionOwner true) || negb (validSession session) || negb (validInput input)
  then None else Some (mkReadAuthorization scope "" "" session input "" "" "").

Definition CompileAuthorizeArtifactRead (scope : MutationScope) (artifact : ArtifactID)
  : option CompiledReadAuthorization :=
  if negb (validateScope scope AuthoritySessionOwner true) || negb (validArtifact artifact)
  then None else Some (mkReadAuthorization scope "" "" "" "" artifact "" "").

Definition CompileAuthorizeToolActionDescriptorRead (scope : MutationScope) (session : SessionID) (turn : TurnID)
    (toolCall : string) : option CompiledReadAuthorization :=
  if negb (validateScope scope AuthorityRuntimeWorker true) || negb (validSession session) || negb (validTurn turn) ||
     negb (validOpaque toolCall 128)
  then None else Some (mkReadAuthorization scope "" "" session "" "" turn toolCall).
