(* ===== verification/StatePlanner.v ===== *)
(** * Runtime-state planner

    Models [internal/runtimestate/planner.go]: the deterministic interpreter that
    turns one compiler-sealed command and the prior metadata state into an atomic
    replacement of that state and its ordered effects.

    The planner's methods mutate a private clone of the state through a pointer;
    here they are computations [P A] over that clone.  The identifier source, the
    clock and the retention policy are injected interfaces of the source; they
    are the parameters in [Planner]: [pla_ids n kind] is the result of the [n]-th
    call of [NextIdentifier] of this [Plan] call ([None] is an error), and
    [pla_now] the one clock reading.  Methods that report an allocation error
    return [ErrAllocate]. *)

From S2P Require Import Prelude GoString Sha256 GoTime GoJson Sdk StateContract RuntimeContent StateCompiler.

Open Scope Z_scope.

(** ** Injected interfaces *)

Inductive IdentifierKind : Type :=
| IdentifierAgent | IdentifierRevision | IdentifierSession | IdentifierInput | IdentifierArtifact
| IdentifierTurn | IdentifierInvocation | IdentifierEvent | IdentifierCursor | IdentifierAudit
| IdentifierOutbox | IdentifierGrant.

Inductive DataClass : Type :=
| DataClassAgentRevision | DataClassPolicy | DataClassSession | DataClassInput | DataClassTurn
| DataClassArtifact | DataClassConversation | DataClassAuthorization | DataClassInvocation
| DataClassEvent | DataClassAudit | DataClassOutbox | DataClassReceipt.

(** A [RetentionPolicy], which may also implement [ClassRetentionPolicy]. *)
Inductive RetentionPolicy : Type :=
| FallbackRetention (RetainUntil : Time -> Time)
| ClassRetention (RetainClassUntil : DataClass -> Time -> Time).

Definition defaultRetention : RetentionPolicy := FallbackRetention (fun now => AddDuration now (24 * Hour)).

Record Planner : Type := mkPlanner {
  pla_ids : nat -> IdentifierKind -> option string;
  pla_now : Time;
  pla_retention : RetentionPolicy
}.

(** ** Results *)

Record PlanResult : Type := mkResult {
  res_Kind : option CommandKind;
  res_Revision : AgentRevisionRecord;
  res_Policy : PolicyRevisionRecord;
  res_Session : SessionRecord;
  res_Input : InputRecord;
  res_Artifact : ArtifactRecord;
  res_Conversation : ConversationRecord;
  res_Turn : TurnRecord;
  res_Promoted : option TurnRecord;
  res_Invocation : InvocationRecord;
  res_Outbox : OutboxRecord;
  res_Receipt : MutationReceipt
}.

Definition zeroResult : PlanResult :=
  mkResult None zeroAgentRevisionRecord zeroPolicyRevisionRecord zeroSessionRecord zeroInputRecord
    zeroArtifactRecord zeroConversationRecord zeroTurnRecord None zeroInvocationRecord zeroOutboxRecord
    zeroMutationReceipt.

(** The struct literals of the operations: unnamed fields are zero. *)
Definition revisionResult (r : AgentRevisionRecord) : PlanResult :=
  mkResult None r zeroPolicyRevisionRecord zeroSessionRecord zeroInputRecord zeroArtifactRecord
    zeroConversationRecord zeroTurnRecord None zeroInvocationRecord zeroOutboxRecord zeroMutationReceipt.
Definition policyResult (r : PolicyRevisionRecord) : PlanResult :=
  mkResult None zeroAgentRevisionRecord r zeroSessionRecord zeroInputRecord zeroArtifactRecord
    zeroConversationRecord zeroTurnRecord None zeroInvocationRecord zeroOutboxRecord zeroMutationReceipt.
Definition artifactResult (r : ArtifactRecord) : PlanResult :=
  mkResult None zeroAgentRevisionRecord zeroPolicyRevisionRecord zeroSessionRecord zeroInputRecord r
    zeroConversationRecord zeroTurnRecord None zeroInvocationRecord zeroOutboxRecord zeroMutationReceipt.
Definition conversationResult (r : ConversationRecord) : PlanResult :=
  mkResult None zeroAgentRevisionRecord zeroPolicyRevisionRecord zeroSessionRecord zeroInputRecord
    zeroArtifactRecord r zeroTurnRecord None zeroInvocationRecord zeroOutboxRecord zeroMutationReceipt.
Definition outboxResult (r : OutboxRecord) : PlanResult :=
  mkResult None zeroAgentRevisionRecord zeroPolicyRevisionRecord zeroSessionRecord zeroInputRecord
    zeroArtifactRecord zeroConversationRecord zeroTurnRecord None zeroInvocationRecord r zeroMutationReceipt.
(** Results about a Session, a Turn, an Input, a promotion or an invocation. *)
Definition lifecycleResult (session : SessionRecord) (turn : TurnRecord) (input : InputRecord)
    (promoted : option TurnRecord) (invocation : InvocationRecord) : PlanResult :=
  mkResult None zeroAgentRevisionRecord zeroPolicyRevisionRecord session input zeroArtifactRecord
    zeroConversationRecord turn promoted invocation zeroOutboxRecord zeroMutationReceipt.

Definition res_set_Kind (k : CommandKind) (r : PlanResult) : PlanResult :=
  mkResult (Some k) (res_Revision r) (res_Policy r) (res_Session r) (res_Input r) (res_Artifact r)
    (res_Conversation r) (res_Turn r) (res_Promoted r) (res_Invocation r) (res_Outbox r) (res_Receipt r).
Definition res_set_Receipt (m : MutationReceipt) (r : PlanResult) : PlanResult :=
  mkResult (res_Kind r) (res_Revision r) (res_Policy r) (res_Session r) (res_Input r) (res_Artifact r)
    (res_Conversation r) (res_Turn r) (res_Promoted r) (res_Invocation r) (res_Outbox r) m.

Record TransitionPlan : Type := mkPlan {
  plan_base : RuntimeState;
  plan_kind : CommandKind;
  plan_state : RuntimeState;
  plan_effects : EffectSet;
  plan_result : PlanResult
}.

(** ** Search helpers *)

Definition session_matches (scope : MutationScope) (id : SessionID) (s : SessionRecord) : bool :=
  (ses_Tenant s ≟ sco_Tenant scope) && (ses_Principal s ≟ sco_Principal scope) && (ses_SessionID s ≟ id).
Definition findSession (st : RuntimeState) (scope : MutationScope) (id : SessionID) : option (nat * SessionRecord) :=
  find_index (session_matches scope id) (Sessions st).

Definition turn_matches (scope : MutationScope) (sid : SessionID) (tid : TurnID) (t : TurnRecord) : bool :=
  (tur_Tenant t ≟ sco_Tenant scope) && (tur_Principal t ≟ sco_Principal scope) && (tur_SessionID t ≟ sid) &&
  (tur_TurnID t ≟ tid).
Definition findTurn (st : RuntimeState) (scope : MutationScope) (sid : SessionID) (tid : TurnID)
  : option (nat * TurnRecord) :=
  find_index (turn_matches scope sid tid) (Turns st).

Definition findInvocation (st : RuntimeState) (scope : MutationScope) (sid : SessionID) (tid : TurnID)
    (operation : OperationID) : option (nat * InvocationRecord) :=
  find_index (fun i => (inv_Tenant i ≟ sco_Tenant scope) && (inv_Principal i ≟ sco_Principal scope) &&
                       (inv_SessionID i ≟ sid) && (inv_TurnID i ≟ tid) && (inv_OperationID i ≟ operation))
             (Invocations st).

Definition findOutbox (st : RuntimeState) (tenant : TenantID) (id : OutboxID) : option (nat * OutboxRecord) :=
  find_index (fun r => (out_Tenant r ≟ tenant) && (out_OutboxID r ≟ id)) (Outbox st).

Definition receipt_matches (b : ReceiptBinding) (r : MutationReceipt) : bool :=
  (rec_Scope r ≟ bin_Scope b) && (rec_IdempotencyKey r ≟ bin_IdempotencyKey b).
Definition findReceipt (st : RuntimeState) (b : ReceiptBinding) : option MutationReceipt :=
  snd <$> find_index (receipt_matches b) (Receipts st).

(** A grant looked up by the grant commands. *)
Definition grant_matches (scope : MutationScope) (id : string) (g : CapabilityGrantRecord) : bool :=
  (gra_GrantID g ≟ id) && (gra_Tenant g ≟ sco_Tenant scope) && (gra_Principal g ≟ sco_Principal scope).

Definition pending_state (s : TurnState) : bool :=
  (s ≟ TurnQueued) || (s ≟ TurnRunning) || (s ≟ TurnWaitingForApproval).

Definition hasPending (st : RuntimeState) (sid : SessionID) : bool :=
  existsb (fun t => (tur_SessionID t ≟ sid) && pending_state (tur_State t)) (Turns st).

Definition terminalEvent (s : TurnState) : EventKind :=
  match s with
  | TurnSucceeded => EventTurnSucceeded
  | TurnCancelled => EventTurnCancelled
  | _ => EventTurnFailed
  end.

Definition outboxLeaseFenceCurrent (st : RuntimeState) (tenant : TenantID) (fence : option OutboxLeaseFence)
    (now : Time) : bool :=
  match fence with
  | None => true
  | Some f =>
    match findOutbox st tenant (olf_OutboxID f) with
    | None => false
    | Some (_, r) =>
      (out_Version r =? olf_ExpectedVersion f) && (out_State r ≟ OutboxClaimed) &&
      (out_ClaimedBy r ≟ olf_Claimer f) &&
      match out_ClaimUntil r with Some t => After t now | None => false end
    end
  end.

(** [for _, x := range l { if p(x) && v(x) > latest { latest = v(x) } }] *)
Definition latest_of {A} (p : A -> bool) (v : A -> Z) (l : list A) : Z :=
  foldl (fun latest x => if p x && (latest <? v x) then v x else latest) 0 l.

(** [n := uint64(1); for _, x := range l { if p(x) && v(x) >= n { n = v(x) + 1 } }] *)
Definition next_after {A} (p : A -> bool) (v : A -> Z) (l : list A) : Z :=
  foldl (fun n x => if p x && (n <=? v x) then u64 (v x + 1) else n) 1 l.

Definition policyDigestBelongsTo (policies : list PolicyRevisionRecord) (name digest : string) : bool :=
  existsb (fun p => (pol_Name p ≟ name) && (pol_Digest p ≟ digest)) policies.

Definition policyDigest (name : string) (revision : Z) (rules : list PolicyRule) : option string :=
  match marshal (JObj [("version", JStr "runtime-policy/v1"); ("name", JStr name); ("revision", JNum revision);
                       ("rules", JArr (json_rule <$> rules))]) with
  | Some text => Some ("sha256:" +:+ sha256_hex text)
  | None => None
  end.

Definition appendEffects (l r : EffectSet) : EffectSet :=
  mkEffects (eff_Events l ++ eff_Events r) (eff_Audit l ++ eff_Audit r) (eff_Outbox l ++ eff_Outbox r).

Definition auditAgentRevisionID (st : RuntimeState) (sid : SessionID) : AgentRevisionID :=
  match find_index (fun s => ses_SessionID s ≟ sid) (Sessions st) with
  | Some (_, s) => ses_RevisionID s
  | None => ""
  end.

Definition auditLifecycleKinds (command : CommandKind) : list string :=
  let prefix := CommandKind_text command in
  let kinds := [prefix +:+ ".attempted"; prefix +:+ ".authorized"; prefix +:+ ".committed"] in
  match command with
  | CommandRecordToolOutcome | CommandRecordOutcome | CommandSettleTurn | CommandCancelTurn | CommandCloseSession
  | CommandCancelSession | CommandFailSession | CommandRevokeCapabilityGrant | CommandExpireCapabilityGrant =>
      kinds ++ [prefix +:+ ".terminal"]
  | CommandClaimOutbox | CommandRenewOutbox | CommandAcknowledgeOutbox => kinds ++ [prefix +:+ ".reconciled"]
  | _ => kinds
  end.

(** ** Correlation of tool audit facts *)

Record toolAuditContext : Type := mkContext {
  ctx_policyRevisionDigest : string;
  ctx_capabilityScopeDigest : string;
  ctx_toolCallID : string;
  ctx_operationID : OperationID
}.

Definition auditContextForApproval (a : ApprovalRecord) : toolAuditContext :=
  mkContext (app_PolicyRevisionDigest a) (app_CapabilityDigest a) (app_ToolCallID a) "".
Definition auditContextForGrant (g : CapabilityGrantRecord) : toolAuditContext :=
  mkContext (gra_PolicyRevisionDigest g) (gra_CapabilityDigest g) (gra_ToolCallID g) "".
Definition auditContextForExecution (e : ToolExecutionRecord) (g : CapabilityGrantRecord) : toolAuditContext :=
  mkContext (gra_PolicyRevisionDigest g) (gra_CapabilityDigest g) (exe_ToolCallID e) (exe_OperationID e).

Definition decorateFact (c : toolAuditContext) (f : AuditFactRecord) : AuditFactRecord :=
  let f := aud_set_ToolCallID (ctx_toolCallID c) f in
  let f := aud_set_PolicyRevisionDigest (ctx_policyRevisionDigest c) f in
  let f := aud_set_CapabilityScopeDigest (ctx_capabilityScopeDigest c) f in
  if ctx_operationID c ≠? "" then aud_set_OperationID (ctx_operationID c) f else f.

Definition decorateOutbox (decorated : gmap AuditFactID AuditFactRecord) (o : OutboxRecord) : OutboxRecord :=
  match decorated !! out_AuditFactID o with
  | Some f => out_set_OperationID (aud_OperationID f) o
  | None => o
  end.

Definition decorateToolAuditFacts (c : toolAuditContext) (e : EffectSet) (st : RuntimeState)
  : EffectSet * RuntimeState :=
  if (length (eff_Audit e) =? 0)%nat || (length (Audit st) <? length (eff_Audit e))%nat then (e, st)
  else
    let start := (length (Audit st) - length (eff_Audit e))%nat in
    let facts := decorateFact c <$> eff_Audit e in
    let decorated := foldl (fun m f => <[aud_AuditFactID f := f]> m) ∅ facts in
    (mkEffects (eff_Events e) facts (decorateOutbox decorated <$> eff_Outbox e),
     set_Outbox (decorateOutbox decorated <$> Outbox st) (set_Audit (take start (Audit st) ++ facts) st)).

(** ** The planner's computations *)

Record pstate : Type := mkPstate { pst_state : RuntimeState; pst_allocated : nat }.

Definition P (A : Type) : Type := M pstate StateError A.

#[export] Instance P_ret : MRet P := M_ret.
#[export] Instance P_bind : MBind P := M_bind.

Definition state : P RuntimeState := fun s => (Ok (pst_state s), s).
Definition update (f : RuntimeState -> RuntimeState) : P unit :=
  fun s => (Ok tt, mkPstate (f (pst_state s)) (pst_allocated s)).

(** The found element, or the error of the caller. *)
Definition require {A} (e : StateError) (o : option A) : P A :=
  match o with Some a => mret a | None => fail e end.

Definition append_Event (x : ProductEventRecord) : P unit := update (fun st => set_Events (Events st ++ [x]) st).
Definition append_Audit (x : AuditFactRecord) : P unit := update (fun st => set_Audit (Audit st ++ [x]) st).
Definition append_Outbox (x : OutboxRecord) : P unit := update (fun st => set_Outbox (Outbox st ++ [x]) st).
Definition put_Session (i : nat) (x : SessionRecord) : P unit :=
  update (fun st => set_Sessions (<[i := x]> (Sessions st)) st).
Definition put_Turn (i : nat) (x : TurnRecord) : P unit := update (fun st => set_Turns (<[i := x]> (Turns st)) st).
Definition put_Approval (i : nat) (x : ApprovalRecord) : P unit :=
  update (fun st => set_Approvals (<[i := x]> (Approvals st)) st).
Definition put_Grant (i : nat) (x : CapabilityGrantRecord) : P unit :=
  update (fun st => set_Grants (<[i := x]> (Grants st)) st).
Definition put_Outbox (i : nat) (x : OutboxRecord) : P unit :=
  update (fun st => set_Outbox (<[i := x]> (Outbox st)) st).

Definition decorate (c : toolAuditContext) (e : EffectSet) : P EffectSet := fun s =>
  let '(e', st') := decorateToolAuditFacts c e (pst_state s) in (Ok e', mkPstate st' (pst_allocated s)).

(** Assignments the operations share. *)
Definition touch (now : Time) (s : SessionRecord) : SessionRecord :=
  ses_set_UpdatedAt now (ses_set_Version (u64 (ses_Version s + 1)) s).
Definition bump (t : TurnRecord) : TurnRecord := tur_set_Version (u64 (tur_Version t + 1)) t.
Definition moved (state : TurnState) (t : TurnRecord) : TurnRecord := tur_set_State state (bump t).

Section Planner.
Context (planner : Planner).

Definition retain (now : Time) (class : DataClass) : Time :=
  match pla_retention planner with
  | ClassRetention f => normalizeTime (f class now)
  | FallbackRetention f => normalizeTime (f now)
  end.

(** *** Identifiers *)

Definition raw (kind : IdentifierKind) : P string := fun s =>
  let s' := mkPstate (pst_state s) (S (pst_allocated s)) in
  match pla_ids planner (pst_allocated s) kind with
  | Some value => if value ≟ "" then (Err ErrAllocate, s') else (Ok value, s')
  | None => (Err ErrAllocate, s')
  end.

Definition parsed (kind : IdentifierKind) (parse : string -> option string) : P string :=
  value ← raw kind; require ErrAllocate (parse value).

Definition agentID : P AgentID := parsed IdentifierAgent ParseAgentID.
Definition revisionID : P AgentRevisionID := parsed IdentifierRevision ParseAgentRevisionID.
Definition sessionID : P SessionID := parsed IdentifierSession ParseSessionID.
Definition inputID : P InputID := parsed IdentifierInput ParseInputID.
Definition artifactID : P ArtifactID := parsed IdentifierArtifact ParseArtifactID.
Definition turnID : P TurnID := parsed IdentifierTurn ParseTurnID.
Definition eventID : P EventID := parsed IdentifierEvent ParseEventID.
Definition cursor : P Cursor := parsed IdentifierCursor ParseCursor.
Definition grantID : P string :=
  value ← raw IdentifierGrant;
  (guard_or ErrIntegrity (validOpaque value 128) : P unit);; mret value.
Definition invocationID : P InvocationID := raw IdentifierInvocation.
Definition auditID : P AuditFactID := raw IdentifierAudit.
Definition outboxID : P OutboxID := raw IdentifierOutbox.

(** *** Effects *)

Definition event (session : SessionRecord) (turn : TurnRecord) (invocation : InvocationRecord)
    (binding : ReceiptBinding) (kind : EventKind) (now until : Time) : P ProductEventRecord :=
  st ← state;
  let sequence := next_after (fun e => eve_SessionID e ≟ ses_SessionID session) eve_Sequence (Events st) in
  id ← eventID;
  cur ← cursor;
  let operation := if inv_OperationID invocation ≟ "" then bin_IdempotencyKey binding else inv_OperationID invocation in
  mret (mkEvent (ses_Tenant session) (ses_Principal session) (ses_SessionID session) sequence cur id kind
          (tur_InputID turn) (tur_TurnID turn) operation now until).

Definition factKind (binding : ReceiptBinding) (kind : string) (sid : SessionID) (tid : TurnID) (now until : Time)
  : P AuditFactRecord :=
  st ← state;
  id ← auditID;
  mret (mkAudit (sco_Tenant (bin_Scope binding)) id (bin_IdempotencyKey binding) (sco_Principal (bin_Scope binding))
          kind sid tid (auditAgentRevisionID st sid) "" "" "" now until).

Definition fact (binding : ReceiptBinding) (session : SessionRecord) (turn : TurnRecord) (now until : Time)
  : P AuditFactRecord :=
  factKind binding (CommandKind_text (bin_Command binding)) (ses_SessionID session) (tur_TurnID turn) now until.

Definition outbox (session : SessionRecord) (turn : TurnRecord) (invocation : InvocationRecord) (eventID : EventID)
    (eventKind : EventKind) (eventSequence : Z) (now until : Time) : P OutboxRecord :=
  id ← outboxID;
  mret (mkOutbox (ses_Tenant session) (ses_Principal session) id "session" (ses_Version session) 1 eventID eventKind
          eventSequence "" (inv_OperationID invocation) "" (ses_SessionID session) (tur_TurnID turn)
          (inv_InvocationID invocation) (inv_Ordinal invocation) (inv_Fence invocation) (ses_Version session)
          (tur_Version turn) OutboxPending "" None now until).

Definition auditOutbox (f : AuditFactRecord) (now until : Time) : P OutboxRecord :=
  id ← outboxID;
  mret (mkOutbox (aud_Tenant f) (aud_Actor f) id "audit_fact" 1 1 "" EventKindNone_ 0 (aud_AuditFactID f)
          (aud_OperationID f) "" (aud_SessionID f) (aud_TurnID f) "" 0 0 0 0 OutboxPending "" None now until).

Definition catalogOutbox (binding : ReceiptBinding) (r : AgentRevisionRecord) (now until : Time) : P OutboxRecord :=
  id ← outboxID;
  mret (mkOutbox (sco_Tenant (bin_Scope binding)) (sco_Principal (bin_Scope binding)) id "agent_revision"
          (rev_Revision r) 1 "" EventKindNone_ 0 "" (bin_IdempotencyKey binding) "" "" "" "" 0 0 0 0
          OutboxPending "" None now until).

Definition artifactOutbox (binding : ReceiptBinding) (a : ArtifactRecord) (now until : Time) : P OutboxRecord :=
  id ← outboxID;
  mret (mkOutbox (art_Tenant a) (art_Principal a) id "artifact" 1 1 "" EventKindNone_ 0 ""
          (bin_IdempotencyKey binding) "" (art_SessionID a) (art_TurnID a) "" 0 0 0 0
          OutboxPending "" None now until).

Definition toolExecutionOutbox (e : ToolExecutionRecord) (now until : Time) : P OutboxRecord :=
  id ← outboxID;
  mret (mkOutbox (exe_Tenant e) (exe_Principal e) id "tool_execution" 1 1 "" EventKindNone_ 0 ""
          (exe_OperationID e) (exe_ToolCallID e) (exe_SessionID e) (exe_TurnID e) "" 0 0 0 0
          OutboxPending "" None now until).

Definition conversationOutbox (binding : ReceiptBinding) (c : ConversationRecord) (now until : Time) : P OutboxRecord :=
  id ← outboxID;
  mret (mkOutbox (con_Tenant c) (con_Principal c) id "conversation" (con_Version c) 1 "" EventKindNone_ 0 ""
          (bin_IdempotencyKey binding) "" (con_SessionID c) "" "" 0 0 0 0
          OutboxPending "" None now until).

(** One audit fact and its export route, added to the state and to the effects. *)
Definition auditRoute (binding : ReceiptBinding) (sid : SessionID) (tid : TurnID) (now : Time)
    (e : EffectSet) (kind : string) : P EffectSet :=
  f ← factKind binding kind sid tid now (retain now DataClassAudit);
  append_Audit f;;
  o ← auditOutbox f now (retain now DataClassOutbox);
  append_Outbox o;;
  mret (mkEffects (eff_Events e) (eff_Audit e ++ [f]) (eff_Outbox e ++ [o])).

Definition appendAuditLifecycle (e : EffectSet) (binding : ReceiptBinding) (sid : SessionID) (tid : TurnID)
    (now : Time) : P EffectSet :=
  for_each (auditRoute binding sid tid now) e (auditLifecycleKinds (bin_Command binding)).

Definition auditOnly (binding : ReceiptBinding) (kind : string) (sid : SessionID) (tid : TurnID) (now : Time)
  : P EffectSet :=
  e ← auditRoute binding sid tid now zeroEffects kind;
  appendAuditLifecycle e binding sid tid now.

(** One product event and its route. *)
Definition eventRoute (binding : ReceiptBinding) (session : SessionRecord) (turn : TurnRecord)
    (invocation : InvocationRecord) (now : Time) (e : EffectSet) (kind : EventKind) : P EffectSet :=
  ev ← event session turn invocation binding kind now (retain now DataClassEvent);
  append_Event ev;;
  o ← outbox session turn invocation (eve_EventID ev) kind (eve_Sequence ev) now (retain now DataClassOutbox);
  append_Outbox o;;
  mret (mkEffects (eff_Events e ++ [ev]) (eff_Audit e) (eff_Outbox e ++ [o])).

(** [effects.Outbox[0].AuditFactID = id] and the same assignment to the record
    that route has in the state; nothing when there is no route. *)
Definition linkFirst (id : AuditFactID) (e : EffectSet) : P EffectSet :=
  update (fun st =>
    if (length (eff_Outbox e) =? 0)%nat then st
    else set_Outbox (alter (out_set_AuditFactID id) (length (Outbox st) - length (eff_Outbox e))%nat (Outbox st)) st);;
  mret (eff_set_Outbox (alter (out_set_AuditFactID id) 0%nat (eff_Outbox e)) e).

Definition effects (binding : ReceiptBinding) (session : SessionRecord) (turn : TurnRecord)
    (invocation : InvocationRecord) (kinds : list EventKind) (now : Time) : P EffectSet :=
  e ← for_each (eventRoute binding session turn invocation now) zeroEffects kinds;
  f ← fact binding session turn now (retain now DataClassAudit);
  append_Audit f;;
  e ← linkFirst (aud_AuditFactID f) (eff_set_Audit (eff_Audit e ++ [f]) e);
  e ← (if (length kinds =? 0)%nat then
         o ← outbox session turn invocation "" EventKindNone_ 0 now (retain now DataClassOutbox);
         let o := out_set_AuditFactID (aud_AuditFactID f) o in
         append_Outbox o;;
         mret (eff_set_Outbox (eff_Outbox e ++ [o]) e)
       else mret e : P EffectSet);
  appendAuditLifecycle e binding (ses_SessionID session) (tur_TurnID turn) now.

(** *** Approval effects *)

Definition approvalEffects (binding : ReceiptBinding) (a : ApprovalRecord) (now : Time) : P EffectSet :=
  st ← state;
  '(_, session) ← require ErrNotFoundOrDenied (findSession st (bin_Scope binding) (app_SessionID a));
  '(_, turn) ← require ErrNotFoundOrDenied (findTurn st (bin_Scope binding) (app_SessionID a) (app_TurnID a));
  let kind := if app_State a ≟ ApprovalExpired then EventApprovalExpired else EventApprovalResolved in
  e ← effects binding session turn zeroInvocationRecord [kind] now;
  st ← state;
  if (length (eff_Audit e) =? 0)%nat || (length (Audit st) =? 0)%nat then mret e
  else
    let kind := "approval." +:+ app_State a in
    update (fun st =>
      set_Audit (alter (aud_set_Kind kind) (length (Audit st) - length (eff_Audit e))%nat (Audit st)) st);;
    decorate (auditContextForApproval a) (eff_set_Audit (alter (aud_set_Kind kind) 0%nat (eff_Audit e)) e).

Definition terminalApprovalEffects (binding : ReceiptBinding) (session : SessionRecord) (turn : TurnRecord)
    (a : ApprovalRecord) (now : Time) (auditKind : string) : P EffectSet :=
  ev ← event session turn zeroInvocationRecord binding EventApprovalCancelled now (retain now DataClassEvent);
  append_Event ev;;
  o ← outbox session turn zeroInvocationRecord (eve_EventID ev) (eve_Kind ev) (eve_Sequence ev) now
        (retain now DataClassOutbox);
  append_Outbox o;;
  st ← state;
  let index := (length (Outbox st) - 1)%nat in
  audit ← auditOnly binding auditKind (app_SessionID a) (app_TurnID a) now;
  first ← require ErrIntegrity (head (eff_Audit audit));
  let o := out_set_AuditFactID (aud_AuditFactID first) o in
  update (fun st => set_Outbox (alter (out_set_AuditFactID (aud_AuditFactID first)) index (Outbox st)) st);;
  audit ← decorate (auditContextForApproval a) audit;
  st ← state;
  let o := default o (Outbox st !! index) in
  mret (mkEffects [ev] (eff_Audit audit) (o :: eff_Outbox audit)).

Definition cancelledApprovalEffects (binding : ReceiptBinding) (session : SessionRecord) (turn : TurnRecord)
    (now : Time) (a : ApprovalRecord) : P EffectSet :=
  terminalApprovalEffects binding session turn a now "approval.cancelled".

Definition invalidatedApprovalEffects (binding : ReceiptBinding) (session : SessionRecord) (turn : TurnRecord)
    (a : ApprovalRecord) (now : Time) : P EffectSet :=
  terminalApprovalEffects binding session turn a now "approval.policy_invalidated".

(** *** Promotion of a queued Turn

    The loop of [promote] keeps the index and position of the best candidate. *)

Fixpoint promote_go (sid : SessionID) (i : nat) (best : option (nat * Z)) (l : list TurnRecord) : option (nat * Z) :=
  match l with
  | [] => best
  | t :: l =>
    promote_go sid (S i)
      (if (tur_SessionID t ≟ sid) && (tur_State t ≟ TurnQueued) &&
          match best with None => true | Some (_, position) => tur_Position t <? position end
       then Some (i, tur_Position t) else best) l
  end.

Definition promoted (now : Time) (t : TurnRecord) : TurnRecord := tur_set_StartedAt (Some now) (moved TurnRunning t).

Definition promote (sid : SessionID) (now : Time) : P (option TurnRecord) :=
  st ← state;
  match promote_go sid 0 None (Turns st) with
  | None => mret None
  | Some (i, _) =>
    match Turns st !! i with
    | None => mret None
    | Some t => put_Turn i (promoted now t);; mret (Some (promoted now t))
    end
  end.

(** *** Catalog *)

Definition invalidatePendingApproval (binding : ReceiptBinding) (index : nat) (approval : ApprovalRecord) (now : Time)
  : P EffectSet :=
  st ← state;
  let scope := mkScope (app_Tenant approval) (app_Principal approval) AuthorityNone_ in
  '(sessionIndex, session) ← require ErrConflict (findSession st scope (app_SessionID approval));
  '(turnIndex, turn) ← require ErrConflict (findTurn st scope (app_SessionID approval) (app_TurnID approval));
  (guard_or ErrConflict (tur_State turn ≟ TurnWaitingForApproval) : P unit);;
  let approval := app_set_State ApprovalCancelled approval in
  put_Approval index approval;;
  let turn := tur_set_CompletedAt (Some now) (moved TurnCancelled turn) in
  put_Turn turnIndex turn;;
  let session := touch now session in
  p ← promote (ses_SessionID session) now;
  put_Session sessionIndex session;;
  let kinds := EventTurnCancelled :: match p with Some _ => [EventTurnStarted] | None => [] end in
  e ← effects binding session turn zeroInvocationRecord kinds now;
  e' ← invalidatedApprovalEffects binding session turn approval now;
  mret (appendEffects e e').

Definition superseded (tenant : TenantID) (name : string) (st : RuntimeState) (a : ApprovalRecord) : bool :=
  (app_Tenant a ≟ tenant) && (app_State a ≟ ApprovalPending) &&
  policyDigestBelongsTo (Policies st) name (app_PolicyRevisionDigest a).

Definition registerPolicy (binding : ReceiptBinding) (command : RegisterPolicyRevisionCommand) (now : Time)
  : P (PlanResult * EffectSet) :=
  st ← state;
  let tenant := sco_Tenant (bin_Scope binding) in
  let latest := latest_of (fun r => (pol_Tenant r ≟ tenant) && (pol_Name r ≟ crp_Name command)) pol_Revision (Policies st) in
  (guard_or ErrConflict (latest =? crp_ExpectedRevision command) : P unit);;
  digest ← require ErrIntegrity (policyDigest (crp_Name command) (u64 (latest + 1)) (crp_Rules command));
  let record := mkPolicy tenant (crp_Name command) (u64 (latest + 1)) digest (crp_Rules command) now
                  (retain now DataClassPolicy) in
  update (fun st => set_Policies (Policies st ++ [record]) st);;
  e ← auditOnly binding "policy_revision.registered" "" "" now;
  st ← state;
  e ← for_each (fun e index =>
        st ← state;
        match Approvals st !! index with
        | Some a => if superseded tenant (crp_Name command) st a
                    then e' ← invalidatePendingApproval binding index a now; mret (appendEffects e e')
                    else mret e
        | None => mret e
        end : P EffectSet) e (seq 0 (length (Approvals st)));
  mret (policyResult record, e).

Definition register (binding : ReceiptBinding) (command : RegisterAgentRevisionCommand)
    (commitment : AgentSpecificationBodyCommitment) (now : Time) : P (PlanResult * EffectSet) :=
  st ← state;
  let tenant := sco_Tenant (bin_Scope binding) in
  '(agent, revision) ←
    (if cra_AgentID command ≟ "" then id ← agentID; mret (id, 1)
     else
       let latest := latest_of (fun r => (rev_Tenant r ≟ tenant) && (rev_AgentID r ≟ cra_AgentID command))
                       rev_Revision (Revisions st) in
       (guard_or ErrConflict (latest =? cra_ExpectedRevision command) : P unit);;
       mret (cra_AgentID command, u64 (latest + 1)) : P (AgentID * Z));
  id ← revisionID;
  let record := mkRevision tenant agent id revision (asc_Name commitment) (asc_ModelProfile commitment)
                  (asc_Reference commitment) now (retain now DataClassAgentRevision) in
  update (fun st => set_Revisions (Revisions st ++ [record]) st);;
  e ← auditOnly binding "agent_revision.registered" "" "" now;
  o ← catalogOutbox binding record now (retain now DataClassOutbox);
  append_Outbox o;;
  mret (revisionResult record, eff_set_Outbox (eff_Outbox e ++ [o]) e).

(** *** Sessions and Inputs *)

Definition createSession (binding : ReceiptBinding) (command : CreateSessionCommand) (now : Time)
  : P (PlanResult * EffectSet) :=
  st ← state;
  '(_, revision) ← require ErrNotFoundOrDenied
     (find_index (fun r => (rev_Tenant r ≟ sco_Tenant (bin_Scope binding)) && (rev_RevisionID r ≟ ccs_RevisionID command))
                 (Revisions st));
  id ← sessionID;
  let session := mkSession (sco_Tenant (bin_Scope binding)) (sco_Principal (bin_Scope binding)) id
                   (rev_AgentID revision) (rev_RevisionID revision) SessionOpen 1 now now
                   (retain now DataClassSession) in
  update (fun st => set_Sessions (Sessions st ++ [session]) st);;
  e ← effects binding session zeroTurnRecord zeroInvocationRecord [EventSessionCreated] now;
  mret (lifecycleResult session zeroTurnRecord zeroInputRecord None zeroInvocationRecord, e).

Definition in_session (sid : SessionID) (t : TurnRecord) : bool := tur_SessionID t ≟ sid.
Definition running_in (sid : SessionID) (t : TurnRecord) : bool := in_session sid t && (tur_State t ≟ TurnRunning).

Definition admit_input (binding : ReceiptBinding) (command : AdmitInputCommand) (commitment : ContentCommitment) (now : Time)
  : P (PlanResult * EffectSet) :=
  st ← state;
  '(sessionIndex, session) ← require ErrNotFoundOrDenied (findSession st (bin_Scope binding) (cai_SessionID command));
  (guard_or ErrConflict (ses_State session ≟ SessionOpen) : P unit);;
  iid ← inputID;
  tid ← turnID;
  let sid := ses_SessionID session in
  let input := mkInput (ses_Tenant session) (ses_Principal session) sid iid (cmt_Reference commitment) now
                 (retain now DataClassInput) in
  update (fun st => set_Inputs (Inputs st ++ [input]) st);;
  let position := next_after (in_session sid) tur_Position (Turns st) in
  let active := existsb (running_in sid) (Turns st) in
  let turnState := if active then TurnQueued else TurnRunning in
  let kinds := [EventInputAccepted; if active then EventTurnQueued else EventTurnStarted] in
  let turn := mkTurn (ses_Tenant session) (ses_Principal session) sid tid iid position turnState 1
                (if active then None else Some now) None None (retain now DataClassTurn) in
  update (fun st => set_Turns (Turns st ++ [turn]) st);;
  let session := touch now session in
  put_Session sessionIndex session;;
  e ← effects binding session turn zeroInvocationRecord kinds now;
  mret (lifecycleResult session turn input None zeroInvocationRecord, e).

Definition registerArtifact (binding : ReceiptBinding) (command : RegisterArtifactCommand) (commitment : ContentCommitment)
    (now : Time) : P (PlanResult * EffectSet) :=
  st ← state;
  (guard_or ErrConflict (outboxLeaseFenceCurrent st (sco_Tenant (bin_Scope binding)) (car_LeaseFence command) now) : P unit);;
  _ ← require ErrNotFoundOrDenied (findTurn st (bin_Scope binding) (car_SessionID command) (car_TurnID command));
  id ← artifactID;
  let record := mkArtifact (sco_Tenant (bin_Scope binding)) (sco_Principal (bin_Scope binding)) id
                  (car_SessionID command) (car_TurnID command) (cmt_Reference commitment) now
                  (retain now DataClassArtifact) in
  update (fun st => set_Artifacts (Artifacts st ++ [record]) st);;
  e ← auditOnly binding "artifact.registered" (car_SessionID command) (car_TurnID command) now;
  o ← artifactOutbox binding record now (retain now DataClassOutbox);
  append_Outbox o;;
  mret (artifactResult record, eff_set_Outbox (eff_Outbox e ++ [o]) e).

Definition appendConversation (binding : ReceiptBinding) (command : AppendConversationCommand)
    (commitment : ContentCommitment) (now : Time) : P (PlanResult * EffectSet) :=
  st ← state;
  _ ← require ErrNotFoundOrDenied (findSession st (bin_Scope binding) (cac_SessionID command));
  let version := latest_of (fun r => con_SessionID r ≟ cac_SessionID command) con_Version (Conversations st) in
  (guard_or ErrConflict (cac_ExpectedVersion command =? version) : P unit);;
  let record := mkConversation (sco_Tenant (bin_Scope binding)) (sco_Principal (bin_Scope binding))
                  (cac_SessionID command) (u64 (version + 1)) (cmt_Reference commitment) now
                  (retain now DataClassConversation) in
  update (fun st => set_Conversations (Conversations st ++ [record]) st);;
  e ← auditOnly binding "conversation.appended" (cac_SessionID command) "" now;
  o ← conversationOutbox binding record now (retain now DataClassOutbox);
  append_Outbox o;;
  mret (conversationResult record, eff_set_Outbox (eff_Outbox e ++ [o]) e).

(** *** Tool intents, Approvals and grants *)

Definition intent_for (call : string) (sid : SessionID) (tid : TurnID) (i : ToolIntentRecord) : bool :=
  (int_ToolCallID i ≟ call) && (int_SessionID i ≟ sid) && (int_TurnID i ≟ tid).

Definition recordToolIntent (binding : ReceiptBinding) (c : RecordToolIntentCommand) (descriptor : Reference) (now : Time)
  : P (PlanResult * EffectSet) :=
  st ← state;
  _ ← require ErrNotFoundOrDenied (findTurn st (bin_Scope binding) (cti_SessionID c) (cti_TurnID c));
  let r := mkToolIntent (sco_Tenant (bin_Scope binding)) (sco_Principal (bin_Scope binding)) (cti_SessionID c)
             (cti_TurnID c) (cti_ToolCallID c) (cti_ToolName c) (cti_ActionDigest c) descriptor
             (cti_PolicyRevisionDigest c) now (retain now DataClassAuthorization) in
  update (fun st => set_ToolIntents (ToolIntents st ++ [r]) st);;
  e ← auditOnly binding "tool.intent_recorded" (cti_SessionID c) (cti_TurnID c) now;
  mret (zeroResult, e).

Definition admitToolApproval (binding : ReceiptBinding) (c : AdmitToolApprovalCommand) (descriptor : Reference) (now : Time)
  : P (PlanResult * EffectSet) :=
  st ← state;
  (guard_or ErrConflict (After (cta_ExpiresAt c) now) : P unit);;
  '(turnIndex, turn) ← require ErrConflict (findTurn st (bin_Scope binding) (cta_SessionID c) (cta_TurnID c));
  (guard_or ErrConflict (tur_State turn ≟ TurnRunning) : P unit);;
  (guard_or ErrConflict (negb (existsb (intent_for (cta_ToolCallID c) (cta_SessionID c) (cta_TurnID c)) (ToolIntents st))) : P unit);;
  (guard_or ErrConflict (negb (existsb (fun a => app_ApprovalID a ≟ cta_ApprovalID c) (Approvals st))) : P unit);;
  put_Turn turnIndex (moved TurnWaitingForApproval turn);;
  let tenant := sco_Tenant (bin_Scope binding) in
  let principal := sco_Principal (bin_Scope binding) in
  let intent := mkToolIntent tenant principal (cta_SessionID c) (cta_TurnID c) (cta_ToolCallID c) (cta_ToolName c)
                  (cta_ActionDigest c) descriptor (cta_PolicyRevisionDigest c) now (retain now DataClassAuthorization) in
  update (fun st => set_ToolIntents (ToolIntents st ++ [intent]) st);;
  let approval := mkApproval tenant principal (cta_ApprovalID c) (cta_SessionID c) (cta_TurnID c) (cta_ToolCallID c)
                    (cta_ActionDigest c) (cta_PolicyRevisionDigest c) ApprovalPending (cta_CapabilityDigest c)
                    (cta_ActionVerb c) (cta_ActionTarget c) (cta_MaximumUses c) (cta_ExpiresAt c) "" None now
                    (retain now DataClassAuthorization) in
  update (fun st => set_Approvals (Approvals st ++ [approval]) st);;
  e ← auditOnly binding "tool.approval_requested" (cta_SessionID c) (cta_TurnID c) now;
  e ← decorate (auditContextForApproval approval) e;
  mret (zeroResult, e).

Definition requestApproval (binding : ReceiptBinding) (c : RequestApprovalCommand) (now : Time)
  : P (PlanResult * EffectSet) :=
  st ← state;
  (guard_or ErrConflict (After (cqa_ExpiresAt c) now) : P unit);;
  (guard_or ErrNotFoundOrDenied (existsb (intent_for (cqa_ToolCallID c) (cqa_SessionID c) (cqa_TurnID c)) (ToolIntents st)) : P unit);;
  '(turnIndex, turn) ← require ErrConflict (findTurn st (bin_Scope binding) (cqa_SessionID c) (cqa_TurnID c));
  (guard_or ErrConflict (tur_State turn ≟ TurnRunning) : P unit);;
  (guard_or ErrConflict (negb (existsb (fun a => app_ApprovalID a ≟ cqa_ApprovalID c) (Approvals st))) : P unit);;
  let r := mkApproval (sco_Tenant (bin_Scope binding)) (sco_Principal (bin_Scope binding)) (cqa_ApprovalID c)
             (cqa_SessionID c) (cqa_TurnID c) (cqa_ToolCallID c) (cqa_ActionDigest c) (cqa_PolicyRevisionDigest c)
             ApprovalPending (cqa_CapabilityDigest c) (cqa_ActionVerb c) (cqa_ActionTarget c) (cqa_MaximumUses c)
             (cqa_ExpiresAt c) "" None now (retain now DataClassAuthorization) in
  put_Turn turnIndex (moved TurnWaitingForApproval turn);;
  update (fun st => set_Approvals (Approvals st ++ [r]) st);;
  e ← auditOnly binding "approval.requested" (cqa_SessionID c) (cqa_TurnID c) now;
  e ← decorate (auditContextForApproval r) e;
  mret (zeroResult, e).

Definition approval_matches (scope : MutationScope) (id : string) (a : ApprovalRecord) : bool :=
  (app_ApprovalID a ≟ id) && (app_Tenant a ≟ sco_Tenant scope) && (app_Principal a ≟ sco_Principal scope).

(** The grant an approved Approval creates. *)
Definition granted (a : ApprovalRecord) (id : string) (now : Time) : CapabilityGrantRecord :=
  mkGrant (app_Tenant a) (app_Principal a) (app_SessionID a) (app_TurnID a) id (app_ToolCallID a)
    (app_CapabilityDigest a) (app_MaximumUses a) 0 (app_ExpiresAt a) None (app_PolicyRevisionDigest a) now
    (app_RetainUntil a).

Definition decideApproval (binding : ReceiptBinding) (c : DecideApprovalCommand) (now : Time)
  : P (PlanResult * EffectSet) :=
  st ← state;
  '(n, a) ← require ErrNotFoundOrDenied (find_index (approval_matches (bin_Scope binding) (cda_ApprovalID c)) (Approvals st));
  (guard_or ErrConflict (app_State a ≟ ApprovalPending) : P unit);;
  if negb (Before now (app_ExpiresAt a)) then
    let a := app_set_State ApprovalExpired a in
    put_Approval n a;;
    e ← approvalEffects binding a now;
    mret (zeroResult, e)
  else
    let a := app_set_DecidedAt (Some now) (app_set_Decision (cda_Decision c) (app_set_State (cda_Decision c) a)) in
    put_Approval n a;;
    (if cda_Decision c ≟ "approved" then
       id ← grantID;
       update (fun st => set_Grants (Grants st ++ [granted a id now]) st);;
       st ← state;
       '(turnIndex, turn) ← require ErrConflict (findTurn st (bin_Scope binding) (app_SessionID a) (app_TurnID a));
       (guard_or ErrConflict (tur_State turn ≟ TurnWaitingForApproval) : P unit);;
       put_Turn turnIndex (moved TurnRunning turn)
     else mret tt : P unit);;
    e ← approvalEffects binding a now;
    mret (zeroResult, e).

Definition grant_for (g : CapabilityGrantRecord) (sid : SessionID) (tid : TurnID) (call : string) : bool :=
  (gra_SessionID g ≟ sid) && (gra_TurnID g ≟ tid) && (gra_ToolCallID g ≟ call).

Definition consumeCapabilityGrant (binding : ReceiptBinding) (c : ConsumeCapabilityGrantCommand) (now : Time)
  : P (PlanResult * EffectSet) :=
  st ← state;
  '(_, turn) ← require ErrNotFoundOrDenied (findTurn st (bin_Scope binding) (ccg_SessionID c) (ccg_TurnID c));
  (guard_or ErrConflict (tur_State turn ≟ TurnRunning) : P unit);;
  '(index, grant) ← require ErrNotFoundOrDenied (find_index (grant_matches (bin_Scope binding) (ccg_GrantID c)) (Grants st));
  (guard_or ErrConflict
     (grant_for grant (ccg_SessionID c) (ccg_TurnID c) (ccg_ToolCallID c) &&
      (gra_PolicyRevisionDigest grant ≟ ccg_PolicyRevisionDigest c) && (gra_RevokedAt grant ≟ None) &&
      Before now (gra_ExpiresAt grant) && (gra_Uses grant <? gra_MaximumUses grant)) : P unit);;
  let grant := gra_set_Uses (u32 (gra_Uses grant + 1)) grant in
  put_Grant index grant;;
  e ← auditOnly binding "capability_grant.consumed" (ccg_SessionID c) (ccg_TurnID c) now;
  e ← decorate (auditContextForGrant grant) e;
  mret (zeroResult, e).

Definition revokeCapabilityGrant (binding : ReceiptBinding) (c : RevokeCapabilityGrantCommand) (now : Time)
  : P (PlanResult * EffectSet) :=
  st ← state;
  _ ← require ErrNotFoundOrDenied (findTurn st (bin_Scope binding) (crg_SessionID c) (crg_TurnID c));
  '(index, grant) ← require ErrNotFoundOrDenied (find_index (grant_matches (bin_Scope binding) (crg_GrantID c)) (Grants st));
  (guard_or ErrConflict
     (grant_for grant (crg_SessionID c) (crg_TurnID c) (crg_ToolCallID c) && (gra_Uses grant =? 0) &&
      (gra_RevokedAt grant ≟ None) && Before now (gra_ExpiresAt grant)) : P unit);;
  (guard_or ErrConflict (negb (existsb (fun x => exe_GrantID x ≟ gra_GrantID grant) (ToolExecutions st))) : P unit);;
  let grant := gra_set_RevokedAt (Some now) grant in
  put_Grant index grant;;
  e ← auditOnly binding "capability_grant.revoked" (crg_SessionID c) (crg_TurnID c) now;
  e ← decorate (auditContextForGrant grant) e;
  mret (zeroResult, e).

Definition expireCapabilityGrant (binding : ReceiptBinding) (c : ExpireCapabilityGrantCommand) (now : Time)
  : P (PlanResult * EffectSet) :=
  st ← state;
  _ ← require ErrNotFoundOrDenied (findTurn st (bin_Scope binding) (ceg_SessionID c) (ceg_TurnID c));
  '(index, grant) ← require ErrNotFoundOrDenied (find_index (grant_matches (bin_Scope binding) (ceg_GrantID c)) (Grants st));
  (guard_or ErrConflict
     (grant_for grant (ceg_SessionID c) (ceg_TurnID c) (ceg_ToolCallID c) &&
      (gra_RevokedAt grant ≟ None) && negb (Before now (gra_ExpiresAt grant))) : P unit);;
  let grant := gra_set_RevokedAt (Some now) grant in
  put_Grant index grant;;
  e ← auditOnly binding "capability_grant.expired" (ceg_SessionID c) (ceg_TurnID c) now;
  e ← decorate (auditContextForGrant grant) e;
  mret (zeroResult, e).

Definition denyToolAdmission (binding : ReceiptBinding) (c : DenyToolAdmissionCommand) (now : Time)
  : P (PlanResult * EffectSet) :=
  st ← state;
  _ ← require ErrNotFoundOrDenied (findTurn st (bin_Scope binding) (cdt_SessionID c) (cdt_TurnID c));
  e ← auditOnly binding "tool.admission_denied" (cdt_SessionID c) (cdt_TurnID c) now;
  e ← decorate (mkContext (cdt_PolicyRevisionDigest c) (cdt_CapabilityScopeDigest c) (cdt_ToolCallID c) "") e;
  mret (zeroResult, e).

(** *** Tool executions *)

Definition beginToolExecution (binding : ReceiptBinding) (c : BeginToolExecutionCommand) (now : Time)
  : P (PlanResult * EffectSet) :=
  st ← state;
  '(_, turn) ← require ErrNotFoundOrDenied (findTurn st (bin_Scope binding) (cbt_SessionID c) (cbt_TurnID c));
  (guard_or ErrConflict (tur_State turn ≟ TurnRunning) : P unit);;
  (guard_or ErrConflict (negb (existsb (fun x => exe_OperationID x ≟ cbt_OperationID c) (ToolExecutions st))) : P unit);;
  '(_, grant) ← require ErrNotFoundOrDenied (find_index (grant_matches (bin_Scope binding) (cbt_GrantID c)) (Grants st));
  (guard_or ErrConflict
     (grant_for grant (cbt_SessionID c) (cbt_TurnID c) (cbt_ToolCallID c) && negb (gra_Uses grant =? 0) &&
      Before now (gra_ExpiresAt grant)) : P unit);;
  let record := mkToolExecution (sco_Tenant (bin_Scope binding)) (sco_Principal (bin_Scope binding)) (cbt_SessionID c)
                  (cbt_TurnID c) (cbt_ToolCallID c) (cbt_GrantID c) (cbt_OperationID c) ToolExecutionIntent None None
                  now now (retain now DataClassAuthorization) in
  update (fun st => set_ToolExecutions (ToolExecutions st ++ [record]) st);;
  e ← auditOnly binding "tool.execution_intended" (cbt_SessionID c) (cbt_TurnID c) now;
  e ← decorate (auditContextForExecution record grant) e;
  o ← toolExecutionOutbox record now (retain now DataClassOutbox);
  append_Outbox o;;
  mret (zeroResult, eff_set_Outbox (eff_Outbox e ++ [o]) e).

Definition execution_matches (scope : MutationScope) (c : RecordToolExecutionOutcomeCommand) (r : ToolExecutionRecord) : bool :=
  (exe_OperationID r ≟ cto_OperationID c) && (exe_ToolCallID r ≟ cto_ToolCallID c) &&
  (exe_Tenant r ≟ sco_Tenant scope) && (exe_Principal r ≟ sco_Principal scope) &&
  (exe_SessionID r ≟ cto_SessionID c) && (exe_TurnID r ≟ cto_TurnID c).

(** Retire the first grant with this identifier, and return its final value. *)
Definition retireGrant (id : string) (now : Time) : P CapabilityGrantRecord :=
  st ← state;
  match find_index (fun g => gra_GrantID g ≟ id) (Grants st) with
  | None => mret zeroCapabilityGrantRecord
  | Some (i, g) =>
    match gra_RevokedAt g with
    | None => let g := gra_set_RevokedAt (Some now) g in put_Grant i g;; mret g
    | Some _ => mret g
    end
  end.

Definition recordToolExecutionOutcome (binding : ReceiptBinding) (c : RecordToolExecutionOutcomeCommand) (now : Time)
  : P (PlanResult * EffectSet) :=
  st ← state;
  (guard_or ErrConflict (outboxLeaseFenceCurrent st (sco_Tenant (bin_Scope binding)) (cto_LeaseFence c) now) : P unit);;
  '(_, session) ← require ErrNotFoundOrDenied (findSession st (bin_Scope binding) (cto_SessionID c));
  '(_, turn) ← require ErrNotFoundOrDenied (findTurn st (bin_Scope binding) (cto_SessionID c) (cto_TurnID c));
  '(index, record) ← require ErrNotFoundOrDenied (find_index (execution_matches (bin_Scope binding) c) (ToolExecutions st));
  (guard_or ErrConflict (exe_State record ≟ ToolExecutionIntent) : P unit);;
  let record := exe_set_UpdatedAt now (exe_set_Failure (cto_Failure c) (exe_set_Result (cto_Result c)
                  (exe_set_State (cto_Outcome c) record))) in
  update (fun st => set_ToolExecutions (<[index := record]> (ToolExecutions st)) st);;
  executionGrant ← retireGrant (exe_GrantID record) now;
  let invocation := mkInvocation "" "" "" "" "" (exe_OperationID record) 0 0 InvocationStateNone_ None None None
                      zeroTime zeroTime zeroTime in
  e ← effects binding session turn invocation [EventSandboxOperationFinalized] now;
  e ← decorate (auditContextForExecution record executionGrant) e;
  st ← state;
  match find_index (fun g => (gra_GrantID g ≟ exe_GrantID record) && (gra_MaximumUses g <=? gra_Uses g)) (Grants st) with
  | Some (_, grant) =>
    extra ← auditOnly binding "capability_grant.exhausted" (cto_SessionID c) (cto_TurnID c) now;
    extra ← decorate (auditContextForExecution record grant) extra;
    mret (zeroResult, mkEffects (eff_Events e) (eff_Audit e ++ eff_Audit extra) (eff_Outbox e ++ eff_Outbox extra))
  | None => mret (zeroResult, e)
  end.

(** *** Invocations *)

Definition begin_invocation (binding : ReceiptBinding) (command : BeginInvocationAttemptCommand) (now : Time)
  : P (PlanResult * EffectSet) :=
  st ← state;
  '(sessionIndex, session) ← require ErrNotFoundOrDenied (findSession st (bin_Scope binding) (cbi_SessionID command));
  '(turnIndex, turn) ← require ErrNotFoundOrDenied
     (findTurn st (bin_Scope binding) (cbi_SessionID command) (cbi_TurnID command));
  (guard_or ErrConflict
     ((ses_Version session =? cbi_ExpectedSessionVersion command) && (tur_Version turn =? cbi_ExpectedTurnVersion command) &&
      (tur_State turn ≟ TurnRunning)) : P unit);;
  (guard_or ErrConflict (negb (existsb (fun i => inv_OperationID i ≟ cbi_OperationID command) (Invocations st))) : P unit);;
  let ordinal := next_after (fun i => inv_TurnID i ≟ tur_TurnID turn) inv_Ordinal (Invocations st) in
  let fence := next_after (fun i => inv_TurnID i ≟ tur_TurnID turn) inv_Fence (Invocations st) in
  (guard_or ErrConflict ((cbi_ExpectedFence command =? 0) || (cbi_ExpectedFence command =? u64 (fence - 1))) : P unit);;
  id ← invocationID;
  let invocation := mkInvocation (ses_Tenant session) (ses_Principal session) (ses_SessionID session) (tur_TurnID turn) id
                      (cbi_OperationID command) ordinal fence InvocationIntent None None None now now
                      (retain now DataClassInvocation) in
  update (fun st => set_Invocations (Invocations st ++ [invocation]) st);;
  let turn := bump turn in
  let session := touch now session in
  put_Turn turnIndex turn;;
  put_Session sessionIndex session;;
  e ← effects binding session turn invocation [] now;
  mret (lifecycleResult session turn zeroInputRecord None invocation, e).

Definition recordOutcome (binding : ReceiptBinding) (command : RecordInvocationOutcomeCommand) (now : Time)
  : P (PlanResult * EffectSet) :=
  st ← state;
  '(_, session) ← require ErrNotFoundOrDenied (findSession st (bin_Scope binding) (cio_SessionID command));
  '(_, turn) ← require ErrNotFoundOrDenied
     (findTurn st (bin_Scope binding) (cio_SessionID command) (cio_TurnID command));
  '(index, invocation) ← require ErrNotFoundOrDenied
     (findInvocation st (bin_Scope binding) (cio_SessionID command) (cio_TurnID command) (cio_OperationID command));
  (guard_or ErrConflict
     ((ses_Version session =? cio_ExpectedSessionVersion command) && (tur_Version turn =? cio_ExpectedTurnVersion command) &&
      (inv_Ordinal invocation =? cio_Ordinal command) && (inv_Fence invocation =? cio_Fence command) &&
      (inv_State invocation ≟ InvocationIntent) && (tur_State turn ≟ TurnRunning)) : P unit);;
  let invocation := inv_set_UpdatedAt now (inv_set_Usage (cio_Usage command) (inv_set_Failure (cio_Failure command)
                      (inv_set_Result (cio_Result command) (inv_set_State (cio_Outcome command) invocation)))) in
  update (fun st => set_Invocations (<[index := invocation]> (Invocations st)) st);;
  e ← effects binding session turn invocation [] now;
  mret (lifecycleResult zeroSessionRecord zeroTurnRecord zeroInputRecord None invocation, e).

(** *** Settlement and cancellation *)

Definition observed (i : InvocationRecord) : bool :=
  (inv_State i ≟ InvocationSucceeded) || (inv_State i ≟ InvocationFailed) || (inv_State i ≟ InvocationUncertain).

Definition settle (binding : ReceiptBinding) (command : SettleTurnCommand) (now : Time) : P (PlanResult * EffectSet) :=
  st ← state;
  (guard_or ErrConflict (outboxLeaseFenceCurrent st (sco_Tenant (bin_Scope binding)) (cst_LeaseFence command) now) : P unit);;
  '(sessionIndex, session) ← require ErrNotFoundOrDenied (findSession st (bin_Scope binding) (cst_SessionID command));
  '(turnIndex, turn) ← require ErrNotFoundOrDenied
     (findTurn st (bin_Scope binding) (cst_SessionID command) (cst_TurnID command));
  (guard_or ErrConflict
     ((ses_Version session =? cst_ExpectedSessionVersion command) && (tur_Version turn =? cst_ExpectedTurnVersion command) &&
      (tur_State turn ≟ TurnRunning)) : P unit);;
  let outcome := cst_Outcome command in
  gap ← (if tou_OperationID outcome ≟ "" then mret false else
           match findInvocation st (bin_Scope binding) (cst_SessionID command) (cst_TurnID command) (tou_OperationID outcome) with
           | Some (_, i) =>
             (guard_or ErrConflict
                ((inv_Ordinal i =? tou_Ordinal outcome) && (inv_Fence i =? tou_Fence outcome) && observed i) : P unit);;
             mret (inv_State i ≟ InvocationUncertain)
           | None => fail ErrConflict
           end : P bool);
  let turn := tur_set_CompletedAt (Some now) (tur_set_Failure (tou_Failure outcome) (moved (tou_State outcome) turn)) in
  put_Turn turnIndex turn;;
  let session := touch now session in
  let kinds := (if (gap : bool) then [EventProducerGap] else []) ++ [terminalEvent (tur_State turn)] in
  p ← promote (ses_SessionID session) now;
  let completes := bool_decide (p = None) && (ses_State session ≟ SessionClosing) in
  let session := if completes then ses_set_State SessionCompleted session else session in
  let kinds := kinds ++ match p with
                        | Some _ => [EventTurnStarted]
                        | None => if completes then [EventSessionCompleted] else []
                        end in
  put_Session sessionIndex session;;
  e ← effects binding session turn zeroInvocationRecord kinds now;
  mret (lifecycleResult session turn zeroInputRecord p zeroInvocationRecord, e).

Definition cancels_approval (scope : MutationScope) (sid : SessionID) (tid : TurnID) (a : ApprovalRecord) : bool :=
  (app_SessionID a ≟ sid) && (app_TurnID a ≟ tid) && (app_Tenant a ≟ sco_Tenant scope) &&
  (app_Principal a ≟ sco_Principal scope) && (app_State a ≟ ApprovalPending).

Definition withdraws_grant (scope : MutationScope) (sid : SessionID) (tid : TurnID) (g : CapabilityGrantRecord) : bool :=
  (gra_Tenant g ≟ sco_Tenant scope) && (gra_Principal g ≟ sco_Principal scope) && (gra_SessionID g ≟ sid) &&
  (gra_TurnID g ≟ tid) && (gra_Uses g =? 0) && (gra_RevokedAt g ≟ None).

(** [for i := range l { if p(l[i]) { l[i] = f(l[i]); changed = append(changed, l[i]) } }] *)
Definition change_all {A} (p : A -> bool) (f : A -> A) (l : list A) : list A := (fun x => if p x then f x else x) <$> l.
Definition changed {A} (p : A -> bool) (f : A -> A) (l : list A) : list A := f <$> List.filter p l.

Definition cancel (binding : ReceiptBinding) (command : CancelTurnCommand) (now : Time) : P (PlanResult * EffectSet) :=
  st ← state;
  let scope := bin_Scope binding in
  '(sessionIndex, session) ← require ErrNotFoundOrDenied (findSession st scope (cct_SessionID command));
  '(turnIndex, turn) ← require ErrNotFoundOrDenied (findTurn st scope (cct_SessionID command) (cct_TurnID command));
  (guard_or ErrConflict (pending_state (tur_State turn)) : P unit);;
  let priorState := tur_State turn in
  let turn := tur_set_CompletedAt (Some now) (moved TurnCancelled turn) in
  put_Turn turnIndex turn;;
  let cancelling := cancels_approval scope (cct_SessionID command) (cct_TurnID command) in
  let cancelledApprovals := changed cancelling (app_set_State ApprovalCancelled) (Approvals st) in
  update (fun st => set_Approvals (change_all cancelling (app_set_State ApprovalCancelled) (Approvals st)) st);;
  let withdrawing := withdraws_grant scope (cct_SessionID command) (cct_TurnID command) in
  let revokedGrants := changed withdrawing (gra_set_RevokedAt (Some now)) (Grants st) in
  update (fun st => set_Grants (change_all withdrawing (gra_set_RevokedAt (Some now)) (Grants st)) st);;
  let session := touch now session in
  p ← (if (priorState ≟ TurnRunning) || (priorState ≟ TurnWaitingForApproval)
       then promote (ses_SessionID session) now else mret None : P (option TurnRecord));
  st ← state;
  let completes := bool_decide (p = None) && (ses_State session ≟ SessionClosing) &&
                   negb (hasPending st (ses_SessionID session)) in
  let session := if completes then ses_set_State SessionCompleted session else session in
  let kinds := EventTurnCancelled :: match p with
                                     | Some _ => [EventTurnStarted]
                                     | None => if completes then [EventSessionCompleted] else []
                                     end in
  put_Session sessionIndex session;;
  e ← effects binding session turn zeroInvocationRecord kinds now;
  e ← for_each (fun e a => e' ← cancelledApprovalEffects binding session turn now a; mret (appendEffects e e') : P EffectSet)
        e cancelledApprovals;
  e ← for_each (fun e g =>
        e' ← auditOnly binding "capability_grant.revoked" (cct_SessionID command) (cct_TurnID command) now;
        e' ← decorate (auditContextForGrant g) e';
        mret (mkEffects (eff_Events e) (eff_Audit e ++ eff_Audit e') (eff_Outbox e ++ eff_Outbox e')) : P EffectSet)
        e revokedGrants;
  mret (lifecycleResult session turn zeroInputRecord p zeroInvocationRecord, e).

(** *** Session closure *)

Definition close (binding : ReceiptBinding) (command : CloseSessionCommand) (now : Time) : P (PlanResult * EffectSet) :=
  st ← state;
  '(index, session) ← require ErrNotFoundOrDenied (findSession st (bin_Scope binding) (ccl_SessionID command));
  (guard_or ErrConflict (ses_State session ≟ SessionOpen) : P unit);;
  let pending := hasPending st (ses_SessionID session) in
  let session := ses_set_State (if pending then SessionClosing else SessionCompleted) (touch now session) in
  let kinds := EventSessionClosing :: if pending then [] else [EventSessionCompleted] in
  put_Session index session;;
  e ← effects binding session zeroTurnRecord zeroInvocationRecord kinds now;
  mret (lifecycleResult session zeroTurnRecord zeroInputRecord None zeroInvocationRecord, e).

(** The common body of [cancelSession] and [failSession]. *)
Definition endSession (binding : ReceiptBinding) (sid : SessionID) (final : SessionState) (kind : EventKind) (now : Time)
  : P (PlanResult * EffectSet) :=
  st ← state;
  '(index, session) ← require ErrNotFoundOrDenied (findSession st (bin_Scope binding) sid);
  (guard_or ErrConflict
     (((ses_State session ≟ SessionOpen) || (ses_State session ≟ SessionClosing)) &&
      negb (hasPending st (ses_SessionID session))) : P unit);;
  let session := ses_set_State final (touch now session) in
  put_Session index session;;
  e ← effects binding session zeroTurnRecord zeroInvocationRecord [kind] now;
  mret (lifecycleResult session zeroTurnRecord zeroInputRecord None zeroInvocationRecord, e).

Definition cancelSession (binding : ReceiptBinding) (command : CancelSessionCommand) (now : Time) : P (PlanResult * EffectSet) :=
  endSession binding (cca_SessionID command) SessionCancelled EventSessionCancelled now.

Definition failSession (binding : ReceiptBinding) (command : FailSessionCommand) (now : Time) : P (PlanResult * EffectSet) :=
  endSession binding (cfs_SessionID command) SessionFailed EventSessionFailed now.

(** *** Outbox leases *)

(** Audit-export routes are not audited themselves. *)
Definition auditLease (binding : ReceiptBinding) (record : OutboxRecord) (kind : string) (now : Time) : P EffectSet :=
  if out_Aggregate record ≟ "audit_fact" then mret zeroEffects
  else auditOnly binding kind (out_SessionID record) (out_TurnID record) now.

Definition leased (r : OutboxRecord) (now : Time) : bool :=
  match out_ClaimUntil r with Some t => After t now | None => false end.

Definition claim (binding : ReceiptBinding) (command : ClaimOutboxCommand) (now : Time) : P (PlanResult * EffectSet) :=
  st ← state;
  '(index, record) ← require ErrNotFoundOrDenied (findOutbox st (sco_Tenant (bin_Scope binding)) (cco_OutboxID command));
  let claimable := (out_State record ≟ OutboxPending) ||
                   ((out_State record ≟ OutboxClaimed) &&
                    match out_ClaimUntil record with Some t => negb (After t now) | None => false end) in
  (guard_or ErrConflict
     ((out_Version record =? cco_ExpectedVersion command) && claimable && After (cco_ClaimUntil command) now) : P unit);;
  let record := out_set_Version (u64 (out_Version record + 1)) (out_set_ClaimUntil (Some (cco_ClaimUntil command))
                  (out_set_ClaimedBy (cco_Claimer command) (out_set_State OutboxClaimed record))) in
  put_Outbox index record;;
  e ← auditLease binding record "outbox.claimed" now;
  mret (outboxResult record, e).

Definition renew (binding : ReceiptBinding) (command : RenewOutboxCommand) (now : Time) : P (PlanResult * EffectSet) :=
  st ← state;
  '(index, record) ← require ErrNotFoundOrDenied (findOutbox st (sco_Tenant (bin_Scope binding)) (cro_OutboxID command));
  (guard_or ErrConflict
     ((out_Version record =? cro_ExpectedVersion command) && (out_State record ≟ OutboxClaimed) &&
      (out_ClaimedBy record ≟ cro_Claimer command) && leased record now &&
      match out_ClaimUntil record with Some t => After (cro_ClaimUntil command) t | None => false end) : P unit);;
  let record := out_set_Version (u64 (out_Version record + 1)) (out_set_ClaimUntil (Some (cro_ClaimUntil command)) record) in
  put_Outbox index record;;
  e ← auditLease binding record "outbox.renewed" now;
  mret (outboxResult record, e).

Definition acknowledge (binding : ReceiptBinding) (command : AcknowledgeOutboxCommand) (now : Time)
  : P (PlanResult * EffectSet) :=
  st ← state;
  '(index, record) ← require ErrNotFoundOrDenied (findOutbox st (sco_Tenant (bin_Scope binding)) (cao_OutboxID command));
  (guard_or ErrConflict
     ((out_Version record =? cao_ExpectedVersion command) && (out_State record ≟ OutboxClaimed) &&
      (out_ClaimedBy record ≟ cao_Claimer command) && leased record now) : P unit);;
  let record := out_set_ClaimUntil None (out_set_Version (u64 (out_Version record + 1)) (out_set_State OutboxPublished record)) in
  put_Outbox index record;;
  e ← auditLease binding record "outbox.published" now;
  mret (outboxResult record, e).

(** *** Receipts and dispatch *)

Definition firstID (left right : string) : string := if left ≠? "" then left else right.

Definition receipt (binding : ReceiptBinding) (result : PlanResult) (now : Time) : MutationReceipt :=
  mkReceipt (bin_Scope binding) (bin_IdempotencyKey binding) (bin_IdempotencyKey binding)
    (CommandKind_text (bin_Command binding)) (bin_RequestDigest binding) (rev_AgentID (res_Revision result))
    (rev_RevisionID (res_Revision result))
    (firstID (firstID (firstID (ses_SessionID (res_Session result)) (tur_SessionID (res_Turn result)))
                      (art_SessionID (res_Artifact result))) (con_SessionID (res_Conversation result)))
    (inp_InputID (res_Input result))
    (firstID (tur_TurnID (res_Turn result)) (art_TurnID (res_Artifact result)))
    (art_ArtifactID (res_Artifact result)) (pol_Name (res_Policy result)) (pol_Revision (res_Policy result))
    (con_Version (res_Conversation result)) now (retain now DataClassReceipt).

(** The type switch of [Plan]. *)
Definition execute (binding : ReceiptBinding) (command : compiledCommand) (now : Time) : P (PlanResult * EffectSet) :=
  match command with
  | compiledRegister c k => register binding c k now
  | compiledPolicy c => registerPolicy binding c now
  | compiledCreate c => createSession binding c now
  | compiledAdmit c k => admit_input binding c k now
  | compiledArtifact c k => registerArtifact binding c k now
  | compiledConversation c k => appendConversation binding c k now
  | compiledToolIntent c d => recordToolIntent binding c d now
  | compiledToolApproval c d => admitToolApproval binding c d now
  | compiledRequestApproval c => requestApproval binding c now
  | compiledDecide c => decideApproval binding c now
  | compiledConsume c => consumeCapabilityGrant binding c now
  | compiledRevoke c => revokeCapabilityGrant binding c now
  | compiledExpire c => expireCapabilityGrant binding c now
  | compiledDeny c => denyToolAdmission binding c now
  | compiledBeginTool c => beginToolExecution binding c now
  | compiledToolOutcome c => recordToolExecutionOutcome binding c now
  | compiledBeginInvocation c => begin_invocation binding c now
  | compiledOutcome c => recordOutcome binding c now
  | compiledSettle c => settle binding c now
  | compiledCancelTurn c => cancel binding c now
  | compiledClose c => close binding c now
  | compiledCancelSession c => cancelSession binding c now
  | compiledFailSession c => failSession binding c now
  | compiledClaim c => claim binding c now
  | compiledRenew c => renew binding c now
  | compiledAcknowledge c => acknowledge binding c now
  end.
End Planner.

(** ** State validation *)

(** [duplicate]: whether the value was seen, and the set after the call. *)
Definition duplicate (seen : gset string) (value : string) : bool * gset string :=
  if value ≟ "" then (false, seen)
  else if bool_decide (value ∈ seen) then (true, seen) else (false, {[value]} ∪ seen).

(** One validation loop: every record passes [check] and has a fresh key. *)
Definition uniqueRecord {A} (key : A -> string) (check : A -> bool) (seen : gset string) (x : A) : option (gset string) :=
  let '(dup, seen') := duplicate seen (key x) in
  if dup || negb (check x) then None else Some seen'.

Definition uniqueLoop {A} (key : A -> string) (check : A -> bool) (seen : gset string) (l : list A)
  : option (gset string) := loop (uniqueRecord key check) seen l.

Definition validPolicyRecord (r : PolicyRevisionRecord) : bool :=
  validName (pol_Name r) && validPolicyRules (pol_Rules r) && validDigest (pol_Digest r) &&
  negb (pol_Revision r =? 0) && negb (IsZero (pol_CreatedAt r)) && isUTC (pol_CreatedAt r) &&
  (policyDigest (pol_Name r) (pol_Revision r) (pol_Rules r) ≟ Some (pol_Digest r)).

Definition validSessionRecord (r : SessionRecord) : bool := IsZero (ses_CreatedAt r) || isUTC (ses_CreatedAt r).

Definition validGrantRecord (r : CapabilityGrantRecord) : bool :=
  validSession (gra_SessionID r) && validTurn (gra_TurnID r) && negb (gra_MaximumUses r =? 0) &&
  (gra_Uses r <=? gra_MaximumUses r) && negb (IsZero (gra_ExpiresAt r)) &&
  match gra_RevokedAt r with Some t => negb (IsZero t) && isUTC t | None => true end.

Definition policyKey (r : PolicyRevisionRecord) : string :=
  pol_Tenant r +:+ "/" +:+ pol_Name r +:+ "/" +:+ decimal (pol_Revision r).
Definition conversationKey (r : ConversationRecord) : string := con_SessionID r +:+ "/" +:+ decimal (con_Version r).
Definition positionKey (r : TurnRecord) : string := tur_SessionID r +:+ "/" +:+ decimal (tur_Position r).
Definition receiptKey (r : MutationReceipt) : string :=
  sco_Tenant (rec_Scope r) +:+ "/" +:+ sco_Principal (rec_Scope r) +:+ "/" +:+
  Authority_text (sco_Authority (rec_Scope r)) +:+ "/" +:+ rec_IdempotencyKey r.

(** The Turn loop keeps the Turn identifiers, the positions and the number of
    running Turns per Session. *)
Definition validateTurn (acc : gset string * gset string * gmap SessionID Z) (t : TurnRecord)
  : option (gset string * gset string * gmap SessionID Z) :=
  let '(turns, positions, active) := acc in
  let '(dup, turns) := duplicate turns (tur_TurnID t) in
  if dup then None else
  let '(dup, positions) := duplicate positions (positionKey t) in
  if dup then None else
  if tur_State t ≟ TurnRunning then
    let n := default 0 (active !! tur_SessionID t) + 1 in
    if 1 <? n then None else Some (turns, positions, <[tur_SessionID t := n]> active)
  else Some (turns, positions, active).

Definition validateEvent (acc : gset string * gset string) (e : ProductEventRecord) : option (gset string * gset string) :=
  let '(events, cursors) := acc in
  let '(dup, events) := duplicate events (eve_EventID e) in
  if dup then None else
  let '(dup, cursors) := duplicate cursors (eve_Cursor e) in
  if dup then None else Some (events, cursors).

Definition always {A} (_ : A) : bool := true.

(** [true] when [validateState] returns nil; its only error is [ErrIntegrity]. *)
Definition validateState (st : RuntimeState) : bool :=
  bool_decide (is_Some (uniqueLoop rev_RevisionID always ∅ (Revisions st))) &&
  bool_decide (is_Some (uniqueLoop policyKey validPolicyRecord ∅ (Policies st))) &&
  bool_decide (is_Some (uniqueLoop ses_SessionID validSessionRecord ∅ (Sessions st))) &&
  bool_decide (is_Some (uniqueLoop inp_InputID always ∅ (Inputs st))) &&
  bool_decide (is_Some (uniqueLoop art_ArtifactID always ∅ (Artifacts st))) &&
  bool_decide (is_Some (uniqueLoop conversationKey always ∅ (Conversations st))) &&
  bool_decide (is_Some (uniqueLoop app_ApprovalID always ∅ (Approvals st))) &&
  bool_decide (is_Some (uniqueLoop gra_GrantID validGrantRecord ∅ (Grants st))) &&
  bool_decide (is_Some (loop validateTurn (∅, ∅, ∅) (Turns st))) &&
  bool_decide (is_Some (operations ← uniqueLoop inv_OperationID always ∅ (Invocations st);
                        uniqueLoop exe_OperationID always operations (ToolExecutions st))) &&
  bool_decide (is_Some (loop validateEvent (∅, ∅) (Events st))) &&
  bool_decide (is_Some (uniqueLoop aud_AuditFactID always ∅ (Audit st))) &&
  bool_decide (is_Some (uniqueLoop out_OutboxID always ∅ (Outbox st))) &&
  bool_decide (is_Some (uniqueLoop receiptKey always ∅ (Receipts st))).

(** ** Plans *)

Definition containsReceipt (st : RuntimeState) (r : MutationReceipt) : bool :=
  existsb (fun x => (rec_Scope x ≟ rec_Scope r) && (rec_IdempotencyKey x ≟ rec_IdempotencyKey r) &&
                    (rec_RequestDigest x ≟ rec_RequestDigest r)) (Receipts st).
Definition containsEvent (st : RuntimeState) (e : ProductEventRecord) : bool :=
  existsb (fun x => eve_EventID x ≟ eve_EventID e) (Events st).
Definition containsAudit (st : RuntimeState) (f : AuditFactRecord) : bool :=
  existsb (fun x => aud_AuditFactID x ≟ aud_AuditFactID f) (Audit st).
Definition containsOutbox (st : RuntimeState) (o : OutboxRecord) : bool :=
  existsb (fun x => out_OutboxID x ≟ out_OutboxID o) (Outbox st).

(** [TransitionPlan.Validate]: [true] for nil. *)
Definition Validate (plan : TransitionPlan) : bool :=
  (res_Kind (plan_result plan) ≟ Some (plan_kind plan)) &&
  (rec_Command (res_Receipt (plan_result plan)) ≟ CommandKind_text (plan_kind plan)) &&
  containsReceipt (plan_state plan) (res_Receipt (plan_result plan)) &&
  forallb (containsEvent (plan_state plan)) (eff_Events (plan_effects plan)) &&
  forallb (containsAudit (plan_state plan)) (eff_Audit (plan_effects plan)) &&
  forallb (containsOutbox (plan_state plan)) (eff_Outbox (plan_effects plan)).

Definition replayPlan (st : RuntimeState) (kind : CommandKind) (r : MutationReceipt) : TransitionPlan :=
  let result := mkResult (Some kind)
    (last_match (fun x => rev_RevisionID x ≟ rec_RevisionID r) zeroAgentRevisionRecord (Revisions st))
    (last_match (fun x => (pol_Name x ≟ rec_PolicyName r) && (pol_Revision x =? rec_PolicyRevision r))
       zeroPolicyRevisionRecord (Policies st))
    (last_match (fun x => ses_SessionID x ≟ rec_SessionID r) zeroSessionRecord (Sessions st))
    (last_match (fun x => inp_InputID x ≟ rec_InputID r) zeroInputRecord (Inputs st))
    (last_match (fun x => art_ArtifactID x ≟ rec_ArtifactID r) zeroArtifactRecord (Artifacts st))
    (last_match (fun x => (con_SessionID x ≟ rec_SessionID r) && (con_Version x =? rec_ConversationVersion r))
       zeroConversationRecord (Conversations st))
    (last_match (fun x => tur_TurnID x ≟ rec_TurnID r) zeroTurnRecord (Turns st))
    None zeroInvocationRecord zeroOutboxRecord r in
  mkPlan st kind st zeroEffects result.

(** [Plan]: [cancelled] is [ctx.Err() != nil]. *)
Definition Plan (cancelled : bool) (planner : Planner) (prior : RuntimeState) (mutation : CompiledMutation)
  : res StateError TransitionPlan :=
  if cancelled then Err ErrContext else
  let kind := mut_kind mutation in
  let binding := mut_receipt mutation in
  if bin_Command binding ≠? kind then Err ErrIntegrity else
  let now := normalizeTime (pla_now planner) in
  if IsZero now then Err ErrIntegrity else
  if negb (validateState prior) then Err ErrIntegrity else
  match findReceipt prior binding with
  | Some r =>
    if receiptExpired r now then Err ErrReceiptExpired
    else if (rec_Command r ≠? CommandKind_text kind) || (rec_RequestDigest r ≠? bin_RequestDigest binding)
    then Err ErrConflict
    else Ok (replayPlan prior kind r)
  | None =>
    match execute planner binding (mut_command mutation) now (mkPstate prior 0) with
    | (Err e, _) => Err e
    | (Ok (result, effs), s) =>
      let result := res_set_Kind kind result in
      let result := res_set_Receipt (receipt planner binding result now) result in
      let st := set_Receipts (Receipts (pst_state s) ++ [res_Receipt result]) (pst_state s) in
      if negb (validateState st) then Err ErrIntegrity else
      let plan := mkPlan prior kind st effs result in
      if negb (Validate plan) then Err ErrIntegrity else Ok plan
    end
  end.
