(* ===== verification/PlannerFacts.v ===== *)
(** * Planner: reasoning infrastructure

    A weakest-precondition rule for each primitive of the planner's monad, and
    the frame of the effect constructors: [effects], [auditOnly] and their
    variants only append product events (numbered as [event] numbers them),
    append audit facts, append pending Outbox records and re-correlate existing
    ones; everything else in the state is left alone. *)

From S2P Require Import Prelude GoString GoTime GoJson Sdk StateContract RuntimeContent StateCompiler StatePlanner.

Open Scope Z_scope.

(** ** Rules for the primitives *)

Lemma wpP_bind {A B} (m : P A) (k : A -> P B) s Q :
  wp m s (fun a s' => wp (k a) s' Q) -> wp (m ≫= k) s Q.
Proof. apply wp_bind. Qed.

Lemma wpP_ret {A} (a : A) s (Q : A -> pstate -> Prop) : Q a s -> wp (mret a : P A) s Q.
Proof. apply wp_ret. Qed.

Lemma wp_state s (Q : RuntimeState -> pstate -> Prop) : Q (pst_state s) s -> wp state s Q.
Proof. by intros H a s' [= <- <-]. Qed.

Lemma wp_update f s (Q : unit -> pstate -> Prop) :
  Q tt (mkPstate (f (pst_state s)) (pst_allocated s)) -> wp (update f) s Q.
Proof. by intros H a s' [= <- <-]. Qed.

Lemma wp_require {A} e (o : option A) s (Q : A -> pstate -> Prop) :
  (forall a, o = Some a -> Q a s) -> wp (require e o) s Q.
Proof. intros H. destruct o as [a|]; [apply wpP_ret; eauto | apply wp_fail]. Qed.

Lemma wp_raw planner kind s (Q : string -> pstate -> Prop) :
  (forall v n, v <> "" -> Q v (mkPstate (pst_state s) n)) -> wp (raw planner kind) s Q.
Proof.
  intros H a s'. unfold raw. destruct (pla_ids planner _ kind) as [v|]; [|discriminate].
  case_bool_decide; [discriminate|]. intros [= <- <-]. eauto.
Qed.

Lemma wp_parsed planner kind parse s (Q : string -> pstate -> Prop) :
  (forall v w n, parse v = Some w -> Q w (mkPstate (pst_state s) n)) -> wp (parsed planner kind parse) s Q.
Proof.
  intros H. apply wpP_bind, wp_raw. intros v n _. apply wp_require. simpl. eauto.
Qed.

Lemma wp_grantID planner s (Q : string -> pstate -> Prop) :
  (forall v n, validOpaque v 128 = true -> Q v (mkPstate (pst_state s) n)) -> wp (grantID planner) s Q.
Proof.
  intros H. apply wpP_bind, wp_raw. intros v n _. apply wpP_bind, wp_guard. intros Hv. apply wpP_ret. simpl. eauto.
Qed.

(** Walk through a computation: every primitive becomes a hypothesis about the
    values it produced, and the state is kept as an explicit expression. *)
Ltac wp_step :=
  lazymatch goal with
  | |- wp (_ ≫= _) _ _ => apply wpP_bind
  | |- wp (mret _) _ _ => apply wpP_ret
  | |- wp (fail _) _ _ => apply wp_fail
  | |- wp state _ _ => apply wp_state
  | |- wp (update _) _ _ => apply wp_update
  | |- wp (append_Event _) _ _ => apply wp_update
  | |- wp (append_Audit _) _ _ => apply wp_update
  | |- wp (append_Outbox _) _ _ => apply wp_update
  | |- wp (put_Session _ _) _ _ => apply wp_update
  | |- wp (put_Turn _ _) _ _ => apply wp_update
  | |- wp (put_Approval _ _) _ _ => apply wp_update
  | |- wp (put_Grant _ _) _ _ => apply wp_update
  | |- wp (put_Outbox _ _) _ _ => apply wp_update
  | |- wp (guard_or _ _) _ _ => apply wp_guard; let H := fresh "Hg" in intros H
  | |- wp (require _ _) _ _ => apply wp_require; let a := fresh "x" in let H := fresh "Hr" in intros a H
  | |- wp (parsed _ _ _) _ _ =>
      apply wp_parsed; let v := fresh "v" in let w := fresh "id" in let n := fresh "n" in let H := fresh "Hid" in
      intros v w n H
  | |- wp (raw _ _) _ _ =>
      apply wp_raw; let v := fresh "id" in let n := fresh "n" in let H := fresh "Hid" in intros v n H
  | |- wp (grantID _) _ _ =>
      apply wp_grantID; let v := fresh "id" in let n := fresh "n" in let H := fresh "Hid" in intros v n H
  | |- wp (agentID _) _ _ => unfold agentID
  | |- wp (revisionID _) _ _ => unfold revisionID
  | |- wp (sessionID _) _ _ => unfold sessionID
  | |- wp (inputID _) _ _ => unfold inputID
  | |- wp (artifactID _) _ _ => unfold artifactID
  | |- wp (turnID _) _ _ => unfold turnID
  | |- wp (eventID _) _ _ => unfold eventID
  | |- wp (cursor _) _ _ => unfold cursor
  | |- wp (invocationID _) _ _ => unfold invocationID
  | |- wp (auditID _) _ _ => unfold auditID
  | |- wp (outboxID _) _ _ => unfold outboxID
  | |- wp (let '(_, _) := ?x in _) _ _ => destruct x as [? ?]
  | |- wp (match ?x with (_, _) => _ end) _ _ => destruct x as [? ?]
  end; cbn beta iota zeta.

Ltac wp_run := repeat wp_step.

(** Use a specification of the computation at hand. *)
Ltac wp_use L := eapply wp_mono; [apply L | cbn beta].

(** ** Growth of the event log *)

Definition of_session (sid : SessionID) (e : ProductEventRecord) : bool := eve_SessionID e ≟ sid.
Definition next_sequence (sid : SessionID) (l : list ProductEventRecord) : Z := next_after (of_session sid) eve_Sequence l.

(** Events are added at the end, each numbered after the events of its Session
    that precede it. *)
Inductive events_grow : list ProductEventRecord -> list ProductEventRecord -> Prop :=
| events_grow_refl l : events_grow l l
| events_grow_snoc l l' e :
    events_grow l l' -> eve_Sequence e = next_sequence (eve_SessionID e) l' -> events_grow l (l' ++ [e]).

Lemma events_grow_trans l1 l2 l3 : events_grow l1 l2 -> events_grow l2 l3 -> events_grow l1 l3.
Proof. intros H12 H23. induction H23; [done|]. constructor; auto. Qed.

#[export] Instance events_grow_preorder : PreOrder events_grow.
Proof. split; [exact events_grow_refl | exact events_grow_trans]. Qed.

Lemma events_grow_prefix l l' : events_grow l l' -> exists new, l' = l ++ new.
Proof.
  induction 1 as [l|l l' e _ [new ->] _]; [exists []; by rewrite app_nil_r|].
  exists (new ++ [e]). by rewrite (assoc_L (++)).
Qed.

(** ** Evolution of Outbox records *)

(** What never changes of an Outbox record. *)
Definition out_core (o : OutboxRecord) :=
  (out_Tenant o, out_Principal o, out_OutboxID o, out_Aggregate o, out_AggregateVersion o, out_EventID o,
   out_EventKind o, out_EventSequence o, out_ToolCallID o, out_SessionID o, out_TurnID o, out_InvocationID o,
   out_CommittedAt o, out_RetentionUntil o).
Definition out_lease (o : OutboxRecord) := (out_State o, out_ClaimedBy o, out_ClaimUntil o, out_Version o).

(** Correlation with an audit fact: neither the route nor the lease changes. *)
Definition outbox_correlation (o o' : OutboxRecord) : Prop := out_core o' = out_core o /\ out_lease o' = out_lease o.

(** A lease is taken, extended or completed; each of these advances the version. *)
Inductive outbox_step : OutboxRecord -> OutboxRecord -> Prop :=
| outbox_correlated o o' : outbox_correlation o o' -> outbox_step o o'
| outbox_claimed o o' :
    out_core o' = out_core o -> out_State o' = OutboxClaimed -> out_Version o' = u64 (out_Version o + 1) ->
    out_State o = OutboxPending \/ out_State o = OutboxClaimed -> outbox_step o o'
| outbox_published o o' :
    out_core o' = out_core o -> out_State o' = OutboxPublished -> out_Version o' = u64 (out_Version o + 1) ->
    out_State o = OutboxClaimed -> outbox_step o o'.

Definition fresh_outbox (o : OutboxRecord) : Prop := out_lease o = (OutboxPending, "", None, 1).

Definition outbox_grow : list OutboxRecord -> list OutboxRecord -> Prop := evolves outbox_correlation fresh_outbox.

#[export] Instance outbox_grow_preorder : PreOrder outbox_grow.
Proof. unfold outbox_grow. apply _. Qed.

Lemma outbox_grow_fmap f l :
  (forall o, out_core (f o) = out_core o) -> (forall o, out_lease (f o) = out_lease o) -> outbox_grow l (f <$> l).
Proof. intros Hc Hl. apply evolves_fmap. intros o _. apply rtc_once. by split. Qed.

Lemma outbox_grow_link id i l : outbox_grow l (alter (out_set_AuditFactID id) i l).
Proof.
  destruct (l !! i) as [o|] eqn:Hi.
  - replace (alter (out_set_AuditFactID id) i l) with (<[i := out_set_AuditFactID id o]> l).
    + by eapply evolves_insert.
    + apply list_eq. intros j. destruct (decide (i = j)) as [->|Hne].
      * rewrite list_lookup_alter_eq, list_lookup_insert_eq by (by eapply lookup_lt_Some). by rewrite Hi.
      * by rewrite list_lookup_alter_ne, list_lookup_insert_ne.
  - replace (alter (out_set_AuditFactID id) i l) with l; [reflexivity|].
    apply list_eq. intros j. destruct (decide (i = j)) as [->|Hne].
    + by rewrite list_lookup_alter_eq, Hi.
    + by rewrite list_lookup_alter_ne.
Qed.

Lemma decorateOutbox_core d o : out_core (decorateOutbox d o) = out_core o.
Proof. unfold decorateOutbox. by case_match. Qed.
Lemma decorateOutbox_lease d o : out_lease (decorateOutbox d o) = out_lease o.
Proof. unfold decorateOutbox. by case_match. Qed.

(** ** The frame of the effect constructors *)

(** [with_log evs aud out st]: [st] with its three logs replaced. *)
Definition with_log (evs : list ProductEventRecord) (aud : list AuditFactRecord) (out : list OutboxRecord)
    (st : RuntimeState) : RuntimeState := set_Outbox out (set_Audit aud (set_Events evs st)).

(** [routed st e st']: from [st] with the effects [e0] to [st'] with [e]: the
    logs of the state grew, and the audit facts added to the state are those
    added to the effects. *)
Definition routed (st : RuntimeState) (e0 : EffectSet) (st' : RuntimeState) (e : EffectSet) : Prop :=
  exists evs new out,
    st' = with_log evs (Audit st ++ new) out st /\ eff_Audit e = eff_Audit e0 ++ new /\
    events_grow (Events st) evs /\ outbox_grow (Outbox st) out.

(** The state part alone. *)
Definition quiet (st st' : RuntimeState) : Prop :=
  exists evs new out,
    st' = with_log evs (Audit st ++ new) out st /\ events_grow (Events st) evs /\ outbox_grow (Outbox st) out.

Lemma state_eta st : with_log (Events st) (Audit st) (Outbox st) st = st.
Proof. by destruct st. Qed.

Lemma routed_refl st e : routed st e st e.
Proof.
  exists (Events st), [], (Outbox st). rewrite !app_nil_r, state_eta. repeat split; reflexivity.
Qed.

Lemma routed_trans st1 e1 st2 e2 st3 e3 : routed st1 e1 st2 e2 -> routed st2 e2 st3 e3 -> routed st1 e1 st3 e3.
Proof.
  intros (v & n & o & -> & Ha & Hv & Ho) (v' & n' & o' & -> & Ha' & Hv' & Ho').
  exists v', (n ++ n'), o'. simpl in *. rewrite (assoc_L (++)), Ha', Ha, (assoc_L (++)).
  repeat split; by etransitivity.
Qed.

Lemma quiet_refl st : quiet st st.
Proof. destruct (routed_refl st zeroEffects) as (v & n & o & H & _ & Hv & Ho). exists v, n, o. auto. Qed.

Lemma quiet_trans st1 st2 st3 : quiet st1 st2 -> quiet st2 st3 -> quiet st1 st3.
Proof.
  intros (v & n & o & -> & Hv & Ho) (v' & n' & o' & -> & Hv' & Ho').
  exists v', (n ++ n'), o'. simpl in *. rewrite (assoc_L (++)). repeat split; by etransitivity.
Qed.

Lemma routed_quiet st e0 st' e : routed st e0 st' e -> quiet st st'.
Proof. intros (v & n & o & -> & _ & Hv & Ho). exists v, n, o. auto. Qed.

(** [quiet] on the planner's own state. *)
Definition quietP (s s' : pstate) : Prop := quiet (pst_state s) (pst_state s').
#[export] Instance quietP_preorder : PreOrder quietP.
Proof. split; [intros s; apply quiet_refl | intros s1 s2 s3; apply quiet_trans]. Qed.

Section frame.
Context (planner : Planner) (binding : ReceiptBinding) (now : Time).

Lemma wp_event session turn invocation kind until s (Q : ProductEventRecord -> pstate -> Prop) :
  (forall e n, eve_SessionID e = ses_SessionID session ->
     eve_Sequence e = next_sequence (eve_SessionID e) (Events (pst_state s)) ->
     eve_Kind e = kind -> Q e (mkPstate (pst_state s) n)) ->
  wp (event planner session turn invocation binding kind now until) s Q.
Proof. intros H. unfold event. wp_run. by apply H. Qed.

Lemma wp_outbox session turn invocation eid kind sequence until s (Q : OutboxRecord -> pstate -> Prop) :
  (forall o n, fresh_outbox o -> Q o (mkPstate (pst_state s) n)) ->
  wp (outbox planner session turn invocation eid kind sequence now until) s Q.
Proof. intros H. unfold outbox. wp_run. by apply H. Qed.

Lemma wp_auditRoute sid tid e kind s :
  wp (auditRoute planner binding sid tid now e kind) s (fun e' s' => routed (pst_state s) e (pst_state s') e').
Proof.
  unfold auditRoute, factKind, auditOutbox. wp_run. simpl.
  eexists (Events (pst_state s)), [_], _. repeat split; [reflexivity|]. by apply evolves_snoc.
Qed.

Lemma wp_lifecycle sid tid e s :
  wp (appendAuditLifecycle planner e binding sid tid now) s (fun e' s' => routed (pst_state s) e (pst_state s') e').
Proof.
  unfold appendAuditLifecycle. generalize (auditLifecycleKinds (bin_Command binding)). intros kinds.
  revert e s. induction kinds as [|k kinds IH]; intros e s; simpl.
  - apply wpP_ret, routed_refl.
  - apply wpP_bind. wp_use wp_auditRoute. intros e' s' H.
    wp_use IH. intros e'' s'' H'. eapply routed_trans; eauto.
Qed.

Lemma wp_auditOnly kind sid tid s :
  wp (auditOnly planner binding kind sid tid now) s (fun e s' => routed (pst_state s) zeroEffects (pst_state s') e).
Proof.
  unfold auditOnly. apply wpP_bind. wp_use wp_auditRoute. intros e s' H.
  wp_use wp_lifecycle. intros e' s'' H'. eapply routed_trans; eauto.
Qed.

Lemma wp_eventRoute session turn invocation e kind s :
  wp (eventRoute planner binding session turn invocation now e kind) s
     (fun e' s' => routed (pst_state s) e (pst_state s') e').
Proof.
  unfold eventRoute. apply wpP_bind, wp_event. intros ev n Hs Hseq _. wp_run. apply wp_outbox. intros o n' Ho.
  wp_run. simpl. eexists _, [], _. rewrite !app_nil_r. repeat split.
  - constructor; [reflexivity | done].
  - by apply evolves_snoc.
Qed.

Lemma wp_eventRoutes session turn invocation kinds e s :
  wp (for_each (eventRoute planner binding session turn invocation now) e kinds) s
     (fun e' s' => routed (pst_state s) e (pst_state s') e').
Proof.
  revert e s. induction kinds as [|k kinds IH]; intros e s; simpl.
  - apply wpP_ret, routed_refl.
  - apply wpP_bind. wp_use wp_eventRoute. intros e' s' H.
    wp_use IH. intros e'' s'' H'. eapply routed_trans; eauto.
Qed.

Lemma wp_linkFirst id e s :
  wp (linkFirst id e) s (fun e' s' => routed (pst_state s) e (pst_state s') e').
Proof.
  unfold linkFirst. wp_run. simpl. case_match; eexists (Events (pst_state s)), [], _; rewrite !app_nil_r.
  - rewrite state_eta. repeat split; reflexivity.
  - repeat split; [reflexivity|]. apply outbox_grow_link.
Qed.

Lemma wp_effects session turn invocation kinds s :
  wp (effects planner binding session turn invocation kinds now) s
     (fun e s' => routed (pst_state s) zeroEffects (pst_state s') e).
Proof.
  unfold effects. apply wpP_bind. wp_use wp_eventRoutes. intros e s1 H1. simpl.
  unfold fact, factKind. wp_run.
  wp_use wp_linkFirst. intros e2 s3 H3. simpl in H3. apply wpP_bind.
  match goal with H : routed ?stA _ _ e2 |- _ => assert (H2 : routed (pst_state s) zeroEffects (pst_state s3) e2) end.
  { eapply routed_trans; [exact H1|]. eapply routed_trans; [|exact H3].
    eexists (Events (pst_state s1)), [_], (Outbox (pst_state s1)). by repeat split. }
  clear H1 H3. case_match.
  - wp_run. apply wp_outbox. intros o n' Ho. wp_run. wp_use wp_lifecycle. intros e4 s4 H4.
    eapply routed_trans; [exact H2|]. eapply routed_trans; [|exact H4].
    eexists (Events (pst_state s3)), [], _. rewrite !app_nil_r. repeat split; [reflexivity|].
    by apply evolves_snoc.
  - wp_run. wp_use wp_lifecycle. intros e4 s4 H4. eapply routed_trans; eauto.
Qed.

(** Decoration rewrites only the audit facts of the effects at hand. *)
Lemma wp_decorate c e st s :
  routed st zeroEffects (pst_state s) e ->
  wp (decorate c e) s (fun e' s' => routed st zeroEffects (pst_state s') e').
Proof.
  intros (evs & new & out & Hst & Ha & Hv & Ho) e' s'. unfold decorate, decorateToolAuditFacts. cbn beta. rewrite Hst.
  simpl in Ha. subst new. simpl.
  destruct ((length (eff_Audit e) =? 0)%nat || _) eqn:Hb; intros [= <- <-].
  - exists evs, (eff_Audit e), out. by repeat split.
  - simpl. rewrite length_app, Nat.add_sub, take_app_length.
    eexists evs, _, _. repeat split; [done|]. etransitivity; [exact Ho|].
    apply outbox_grow_fmap; intros o; [apply decorateOutbox_core | apply decorateOutbox_lease].
Qed.

(** Changing the kind of the first new audit fact. *)
Lemma routed_rekind st st' e kind :
  routed st zeroEffects st' e ->
  routed st zeroEffects
    (set_Audit (alter (aud_set_Kind kind) (length (Audit st') - length (eff_Audit e))%nat (Audit st')) st')
    (eff_set_Audit (alter (aud_set_Kind kind) 0%nat (eff_Audit e)) e).
Proof.
  intros (evs & new & out & -> & Ha & Hv & Ho). simpl in Ha. subst new. simpl.
  exists evs, (alter (aud_set_Kind kind) 0%nat (eff_Audit e)), out. repeat split; [|done|done].
  rewrite length_app, Nat.add_sub. unfold with_log, set_Audit, set_Outbox, set_Events; simpl. f_equal.
  rewrite <- (Nat.add_0_r (length (Audit st))) at 1. by rewrite alter_app_r.
Qed.

Lemma wp_approvalEffects a s :
  wp (approvalEffects planner binding a now) s (fun e s' => routed (pst_state s) zeroEffects (pst_state s') e).
Proof.
  unfold approvalEffects. wp_run. wp_use wp_effects. intros e s' H. wp_run.
  case_match; [by apply wpP_ret|]. wp_run. apply wp_decorate. simpl. by apply routed_rekind.
Qed.

(** A link in the Outbox between two effect constructors. *)
Lemma routed_link st st' e id i :
  routed st zeroEffects st' e ->
  routed st zeroEffects (set_Outbox (alter (out_set_AuditFactID id) i (Outbox st')) st') e.
Proof.
  intros (evs & new & out & -> & Ha & Hv & Ho). exists evs, new, (alter (out_set_AuditFactID id) i out).
  repeat split; [done|done|]. etransitivity; [exact Ho | apply outbox_grow_link].
Qed.

Lemma wp_terminalApprovalEffects session turn a kind s :
  wp (terminalApprovalEffects planner binding session turn a now kind) s (fun _ s' => quietP s s').
Proof.
  unfold terminalApprovalEffects. apply wpP_bind, wp_event. intros ev n Hs Hseq _. wp_run. apply wp_outbox.
  intros o n' Ho. wp_run. wp_use wp_auditOnly. intros e s1 H1. simpl in H1. wp_run.
  wp_use wp_decorate; [simpl; apply routed_link; exact H1|]. intros e2 s2 H2. wp_run.
  unfold quietP. eapply quiet_trans; [|eapply routed_quiet, H2].
  eexists _, [], _. rewrite !app_nil_r. repeat split.
  - constructor; [reflexivity | done].
  - by apply evolves_snoc.
Qed.

Lemma wp_auditLease record kind s :
  wp (auditLease planner binding record kind now) s (fun _ s' => quietP s s').
Proof.
  unfold auditLease. case_match; [apply wpP_ret; reflexivity|].
  wp_use wp_auditOnly. intros e s1 H1. by eapply routed_quiet.
Qed.

End frame.
