(* ===== verification/PlannerProgress.v ===== *)
(** * Planner: every command makes lawful progress

    The life cycles of the records, as step relations, and one theorem per
    operation of the planner: whatever the operation does to the state is lawful
    progress.  Records are never removed or reordered; the catalogues and logs
    are append-only; Turns, Sessions, Approvals, grants, invocations, tool
    executions and Outbox leases only move along their life cycle. *)

From S2P Require Import Prelude GoString GoTime GoJson Sdk StateContract RuntimeContent StateCompiler.
From S2P Require Import StatePlanner PlannerFacts.

Open Scope Z_scope.

(** ** Life cycles *)

Definition turn_terminal (s : TurnState) : bool :=
  match s with TurnSucceeded | TurnFailed | TurnCancelled => true | _ => false end.

Definition turn_move (a b : TurnState) : bool :=
  match a, b with
  | TurnQueued, (TurnRunning | TurnCancelled) => true
  | TurnRunning, (TurnRunning | TurnWaitingForApproval | TurnSucceeded | TurnFailed | TurnCancelled) => true
  | TurnWaitingForApproval, (TurnRunning | TurnCancelled) => true
  | _, _ => false
  end.

Definition turn_identity (t : TurnRecord) :=
  (tur_Tenant t, tur_Principal t, tur_SessionID t, tur_TurnID t, tur_InputID t, tur_Position t, tur_RetentionUntil t).

Definition turn_step (t t' : TurnRecord) : Prop :=
  turn_identity t' = turn_identity t /\ tur_Version t' = u64 (tur_Version t + 1) /\
  turn_move (tur_State t) (tur_State t') = true /\
  (if turn_terminal (tur_State t') then is_Some (tur_CompletedAt t') else tur_CompletedAt t' = tur_CompletedAt t).

(** A Turn belongs to a Session of the same owner. *)
Definition turn_owned (st : RuntimeState) (t : TurnRecord) : Prop :=
  exists s, s ∈ Sessions st /\
    (ses_Tenant s, ses_Principal s, ses_SessionID s) = (tur_Tenant t, tur_Principal t, tur_SessionID t).

Definition turn_init (st : RuntimeState) (t : TurnRecord) : Prop :=
  (tur_State t = TurnRunning \/ tur_State t = TurnQueued) /\ tur_Version t = 1 /\ tur_CompletedAt t = None /\
  turn_owned st t.

Definition session_terminal (s : SessionState) : bool :=
  match s with SessionCompleted | SessionCancelled | SessionFailed => true | _ => false end.

Definition session_move (a b : SessionState) : bool :=
  (a ≟ b) ||
  match a, b with
  | SessionOpen, (SessionClosing | SessionCompleted | SessionCancelled | SessionFailed) => true
  | SessionClosing, (SessionCompleted | SessionCancelled | SessionFailed) => true
  | _, _ => false
  end.

Definition session_identity (s : SessionRecord) :=
  (ses_Tenant s, ses_Principal s, ses_SessionID s, ses_AgentID s, ses_RevisionID s, ses_CreatedAt s, ses_RetainUntil s).

Definition session_step (s s' : SessionRecord) : Prop :=
  session_identity s' = session_identity s /\ ses_Version s' = u64 (ses_Version s + 1) /\
  session_move (ses_State s) (ses_State s') = true.

(** A Session is pinned to a registered revision of its tenant. *)
Definition session_pinned (st : RuntimeState) (s : SessionRecord) : Prop :=
  exists r, r ∈ Revisions st /\
    (rev_Tenant r, rev_AgentID r, rev_RevisionID r) = (ses_Tenant s, ses_AgentID s, ses_RevisionID s).

Definition session_init (st : RuntimeState) (s : SessionRecord) : Prop :=
  ses_State s = SessionOpen /\ ses_Version s = 1 /\ session_pinned st s.

Definition approval_identity (a : ApprovalRecord) :=
  (app_Tenant a, app_Principal a, app_ApprovalID a, app_SessionID a, app_TurnID a, app_ToolCallID a, app_ActionDigest a,
   app_PolicyRevisionDigest a, app_CapabilityDigest a, app_ActionVerb a, app_ActionTarget a, app_MaximumUses a,
   app_ExpiresAt a, app_CreatedAt a, app_RetainUntil a).

(** Only a pending Approval moves, to exactly one final state. *)
Definition approval_step (a a' : ApprovalRecord) : Prop :=
  approval_identity a' = approval_identity a /\ app_State a = ApprovalPending /\
  app_State a' ∈ [ApprovalApproved; ApprovalDenied; ApprovalExpired; ApprovalCancelled] /\
  (app_State a' ∈ [ApprovalApproved; ApprovalDenied] -> app_Decision a' = app_State a' /\ is_Some (app_DecidedAt a')).

(** An Approval is bounded and about a Turn of the same owner. *)
Definition approval_owned (st : RuntimeState) (a : ApprovalRecord) : Prop :=
  0 < app_MaximumUses a <= 32 /\
  exists t, t ∈ Turns st /\
    (tur_Tenant t, tur_Principal t, tur_SessionID t, tur_TurnID t) =
    (app_Tenant a, app_Principal a, app_SessionID a, app_TurnID a).

Definition approval_init (st : RuntimeState) (a : ApprovalRecord) : Prop :=
  app_State a = ApprovalPending /\ approval_owned st a.

Definition grant_identity (g : CapabilityGrantRecord) :=
  (gra_Tenant g, gra_Principal g, gra_SessionID g, gra_TurnID g, gra_GrantID g, gra_ToolCallID g, gra_CapabilityDigest g,
   gra_MaximumUses g, gra_ExpiresAt g, gra_PolicyRevisionDigest g, gra_CreatedAt g, gra_RetainUntil g).

(** A grant that is not revoked is used once more, below its bound, or revoked. *)
Definition grant_step (g g' : CapabilityGrantRecord) : Prop :=
  grant_identity g' = grant_identity g /\ gra_RevokedAt g = None /\
  ((gra_Uses g' = u32 (gra_Uses g + 1) /\ gra_Uses g < gra_MaximumUses g /\ gra_RevokedAt g' = None) \/
   (gra_Uses g' = gra_Uses g /\ is_Some (gra_RevokedAt g'))).

(** A grant carries exactly the authority of an approved Approval. *)
Definition grant_approved (st : RuntimeState) (g : CapabilityGrantRecord) : Prop :=
  exists a, a ∈ Approvals st /\ app_State a = ApprovalApproved /\
    (app_Tenant a, app_Principal a, app_SessionID a, app_TurnID a, app_ToolCallID a, app_CapabilityDigest a,
     app_MaximumUses a, app_ExpiresAt a, app_PolicyRevisionDigest a) =
    (gra_Tenant g, gra_Principal g, gra_SessionID g, gra_TurnID g, gra_ToolCallID g, gra_CapabilityDigest g,
     gra_MaximumUses g, gra_ExpiresAt g, gra_PolicyRevisionDigest g).

Definition grant_init (st : RuntimeState) (g : CapabilityGrantRecord) : Prop :=
  gra_Uses g = 0 /\ gra_RevokedAt g = None /\ grant_approved st g.

Definition invocation_identity (i : InvocationRecord) :=
  (inv_Tenant i, inv_Principal i, inv_SessionID i, inv_TurnID i, inv_InvocationID i, inv_OperationID i, inv_Ordinal i,
   inv_Fence i, inv_CreatedAt i, inv_RetentionUntil i).

(** An outcome is recorded once, on an intent. *)
Definition invocation_step (i i' : InvocationRecord) : Prop :=
  invocation_identity i' = invocation_identity i /\ inv_State i = InvocationIntent /\
  inv_State i' ∈ [InvocationSucceeded; InvocationFailed; InvocationUncertain; InvocationCancelled].

(** An invocation belongs to a Turn of the same owner. *)
Definition invocation_owned (st : RuntimeState) (i : InvocationRecord) : Prop :=
  exists t, t ∈ Turns st /\
    (tur_Tenant t, tur_Principal t, tur_SessionID t, tur_TurnID t) =
    (inv_Tenant i, inv_Principal i, inv_SessionID i, inv_TurnID i).

Definition invocation_init (st : RuntimeState) (i : InvocationRecord) : Prop :=
  inv_State i = InvocationIntent /\ invocation_owned st i.

Definition execution_identity (x : ToolExecutionRecord) :=
  (exe_Tenant x, exe_Principal x, exe_SessionID x, exe_TurnID x, exe_ToolCallID x, exe_GrantID x, exe_OperationID x,
   exe_CreatedAt x, exe_RetentionUntil x).

Definition execution_step (x x' : ToolExecutionRecord) : Prop :=
  execution_identity x' = execution_identity x /\ exe_State x = ToolExecutionIntent /\
  exe_State x' ∈ [ToolExecutionSucceeded; ToolExecutionFailed; ToolExecutionUncertain].

(** A tool execution runs under a grant for the same tool call. *)
Definition execution_granted (st : RuntimeState) (x : ToolExecutionRecord) : Prop :=
  exists g, g ∈ Grants st /\
    (gra_Tenant g, gra_Principal g, gra_SessionID g, gra_TurnID g, gra_ToolCallID g, gra_GrantID g) =
    (exe_Tenant x, exe_Principal x, exe_SessionID x, exe_TurnID x, exe_ToolCallID x, exe_GrantID x).

Definition execution_init (st : RuntimeState) (x : ToolExecutionRecord) : Prop :=
  exe_State x = ToolExecutionIntent /\ execution_granted st x.

(** ** Lawful progress of the whole state

    [R] relates the receipts: an operation leaves them alone ([progress]), and a
    committed plan appends to them ([advance]). *)

Record evolution (R : relation (list MutationReceipt)) (st st' : RuntimeState) : Prop := mkEvolution {
  pg_Revisions : Revisions st `prefix_of` Revisions st';
  pg_Policies : Policies st `prefix_of` Policies st';
  pg_Sessions : evolves session_step (session_init st') (Sessions st) (Sessions st');
  pg_Inputs : Inputs st `prefix_of` Inputs st';
  pg_Artifacts : Artifacts st `prefix_of` Artifacts st';
  pg_Conversations : Conversations st `prefix_of` Conversations st';
  pg_ToolIntents : ToolIntents st `prefix_of` ToolIntents st';
  pg_Grants : evolves grant_step (grant_init st') (Grants st) (Grants st');
  pg_ToolExecutions : evolves execution_step (execution_init st') (ToolExecutions st) (ToolExecutions st');
  pg_Approvals : evolves approval_step (approval_init st') (Approvals st) (Approvals st');
  pg_Turns : evolves turn_step (turn_init st') (Turns st) (Turns st');
  pg_Invocations : evolves invocation_step (invocation_init st') (Invocations st) (Invocations st');
  pg_Receipts : R (Receipts st) (Receipts st');
  pg_Events : events_grow (Events st) (Events st');
  pg_Audit : Audit st `prefix_of` Audit st';
  pg_Outbox : evolves outbox_step fresh_outbox (Outbox st) (Outbox st')
}.

Notation progress := (evolution eq).
Notation advance := (evolution prefix).

(** *** The relations between records survive progress *)

(** What a step leaves alone is left alone by many. *)
Lemma rtc_same {A B} (step : A -> A -> Prop) (f : A -> B) :
  (forall x y, step x y -> f y = f x) -> forall x y, rtc step x y -> f y = f x.
Proof. intros Hs x y H. induction H as [|x y z Hxy _ IH]; [done|]. rewrite IH. auto. Qed.

Lemma turn_identity_rtc t t' : rtc turn_step t t' -> turn_identity t' = turn_identity t.
Proof. apply rtc_same. by intros x y [H _]. Qed.
Lemma session_identity_rtc s s' : rtc session_step s s' -> session_identity s' = session_identity s.
Proof. apply rtc_same. by intros x y [H _]. Qed.
Lemma approval_identity_rtc a a' : rtc approval_step a a' -> approval_identity a' = approval_identity a.
Proof. apply rtc_same. by intros x y [H _]. Qed.
Lemma grant_identity_rtc g g' : rtc grant_step g g' -> grant_identity g' = grant_identity g.
Proof. apply rtc_same. by intros x y [H _]. Qed.
Lemma invocation_identity_rtc i i' : rtc invocation_step i i' -> invocation_identity i' = invocation_identity i.
Proof. apply rtc_same. by intros x y [H _]. Qed.
Lemma execution_identity_rtc x x' : rtc execution_step x x' -> execution_identity x' = execution_identity x.
Proof. apply rtc_same. by intros y z [H _]. Qed.

(** A decided Approval is final. *)
Lemma approval_final a a' : app_State a <> ApprovalPending -> rtc approval_step a a' -> a' = a.
Proof. intros Ha H. inversion H as [|? b ? (_ & Hp & _)]; subst; done. Qed.

Section survive.
Context (R : relation (list MutationReceipt)) (st st' : RuntimeState) (Hp : evolution R st st').

Lemma survives_session s : s ∈ Sessions st -> exists s', s' ∈ Sessions st' /\ session_identity s' = session_identity s.
Proof.
  intros [i Hi]%list_elem_of_lookup. destruct (evolves_lookup _ _ _ _ _ _ (pg_Sessions _ _ _ Hp) Hi) as (s' & Hi' & Hr).
  exists s'. split; [by eapply list_elem_of_lookup_2 | by apply session_identity_rtc].
Qed.

Lemma survives_turn t : t ∈ Turns st -> exists t', t' ∈ Turns st' /\ turn_identity t' = turn_identity t.
Proof.
  intros [i Hi]%list_elem_of_lookup. destruct (evolves_lookup _ _ _ _ _ _ (pg_Turns _ _ _ Hp) Hi) as (t' & Hi' & Hr).
  exists t'. split; [by eapply list_elem_of_lookup_2 | by apply turn_identity_rtc].
Qed.

Lemma survives_grant g : g ∈ Grants st -> exists g', g' ∈ Grants st' /\ grant_identity g' = grant_identity g.
Proof.
  intros [i Hi]%list_elem_of_lookup. destruct (evolves_lookup _ _ _ _ _ _ (pg_Grants _ _ _ Hp) Hi) as (g' & Hi' & Hr).
  exists g'. split; [by eapply list_elem_of_lookup_2 | by apply grant_identity_rtc].
Qed.

Lemma survives_approved a : a ∈ Approvals st -> app_State a <> ApprovalPending -> a ∈ Approvals st'.
Proof.
  intros [i Hi]%list_elem_of_lookup Ha.
  destruct (evolves_lookup _ _ _ _ _ _ (pg_Approvals _ _ _ Hp) Hi) as (a' & Hi' & Hr).
  apply approval_final in Hr as ->; [|done]. by eapply list_elem_of_lookup_2.
Qed.

Lemma turn_owned_mono t : turn_owned st t -> turn_owned st' t.
Proof.
  intros (s & (s' & Hs & He)%survives_session & Ho). exists s'. split; [done|].
  unfold session_identity in He. simplify_eq. congruence.
Qed.

Lemma session_pinned_mono s : session_pinned st s -> session_pinned st' s.
Proof. intros (r & Hr & He). exists r. split; [|done]. destruct (pg_Revisions _ _ _ Hp) as [k ->]. set_solver. Qed.

Lemma approval_owned_mono a : approval_owned st a -> approval_owned st' a.
Proof.
  intros (Hb & t & (t' & Ht & He)%survives_turn & Ho). split; [done|]. exists t'. split; [done|].
  unfold turn_identity in He. simplify_eq. congruence.
Qed.

Lemma invocation_owned_mono i : invocation_owned st i -> invocation_owned st' i.
Proof.
  intros (t & (t' & Ht & He)%survives_turn & Ho). exists t'. split; [done|].
  unfold turn_identity in He. simplify_eq. congruence.
Qed.

Lemma execution_granted_mono x : execution_granted st x -> execution_granted st' x.
Proof.
  intros (g & (g' & Hg & He)%survives_grant & Ho). exists g'. split; [done|].
  unfold grant_identity in He. simplify_eq. congruence.
Qed.

Lemma grant_approved_mono g : grant_approved st g -> grant_approved st' g.
Proof.
  intros (a & Ha & Hs & Ho). exists a. split_and!; [|done|done]. apply survives_approved; [done|]. by rewrite Hs.
Qed.
End survive.

#[export] Instance evolution_preorder R `{!PreOrder R} : PreOrder (evolution R).
Proof.
  split.
  - intros st. constructor; reflexivity.
  - intros st1 st2 st3 H1 H2. pose proof H1 as []. pose proof H2 as [].
    constructor; try (etransitivity; eassumption);
      (etransitivity; [|eassumption]; eapply evolves_mono; [|eassumption]).
    + intros s (? & ? & ?). split_and!; eauto using session_pinned_mono.
    + intros g (? & ? & ?). split_and!; eauto using grant_approved_mono.
    + intros x (? & ?). split; eauto using execution_granted_mono.
    + intros a (? & ?). split; eauto using approval_owned_mono.
    + intros t (? & ? & ? & ?). split_and!; eauto using turn_owned_mono.
    + intros i (? & ?). split; eauto using invocation_owned_mono.
Qed.

Lemma progress_advance st st' : progress st st' -> advance st st'.
Proof. intros []. constructor; try done. by rewrite pg_Receipts0. Qed.

Definition progressP (s s' : pstate) : Prop := progress (pst_state s) (pst_state s').
#[export] Instance progressP_preorder : PreOrder progressP.
Proof. split; [intros s; unfold progressP; reflexivity | intros s1 s2 s3; unfold progressP; by etransitivity]. Qed.

Lemma quiet_progress st st' : quiet st st' -> progress st st'.
Proof.
  intros (evs & new & out & -> & Hv & Ho). constructor; simpl; try reflexivity; [done | |].
  - by apply prefix_app_r.
  - eapply evolves_weaken; [|exact Ho]. apply outbox_correlated.
Qed.

(** ** Updates of one collection *)

Lemma progress_outbox st v : evolves outbox_step fresh_outbox (Outbox st) v -> progress st (set_Outbox v st).
Proof. intros H. constructor; simpl; done || reflexivity. Qed.
Lemma progress_catalog st v : Revisions st `prefix_of` v -> progress st (set_Revisions v st).
Proof. intros H. constructor; simpl; done || reflexivity. Qed.
Lemma progress_policies st v : Policies st `prefix_of` v -> progress st (set_Policies v st).
Proof. intros H. constructor; simpl; done || reflexivity. Qed.
Lemma progress_inputs st v : Inputs st `prefix_of` v -> progress st (set_Inputs v st).
Proof. intros H. constructor; simpl; done || reflexivity. Qed.
Lemma progress_artifacts st v : Artifacts st `prefix_of` v -> progress st (set_Artifacts v st).
Proof. intros H. constructor; simpl; done || reflexivity. Qed.
Lemma progress_conversations st v : Conversations st `prefix_of` v -> progress st (set_Conversations v st).
Proof. intros H. constructor; simpl; done || reflexivity. Qed.
Lemma progress_intents st v : ToolIntents st `prefix_of` v -> progress st (set_ToolIntents v st).
Proof. intros H. constructor; simpl; done || reflexivity. Qed.
Lemma advance_receipts st v : Receipts st `prefix_of` v -> advance st (set_Receipts v st).
Proof. intros H. constructor; simpl; done || reflexivity. Qed.
Lemma progress_sessions st v : evolves session_step (session_init st) (Sessions st) v -> progress st (set_Sessions v st).
Proof. intros H. constructor; simpl; done || reflexivity. Qed.
Lemma progress_turns st v : evolves turn_step (turn_init st) (Turns st) v -> progress st (set_Turns v st).
Proof. intros H. constructor; simpl; done || reflexivity. Qed.
Lemma progress_approvals st v : evolves approval_step (approval_init st) (Approvals st) v -> progress st (set_Approvals v st).
Proof. intros H. constructor; simpl; done || reflexivity. Qed.
Lemma progress_grants st v : evolves grant_step (grant_init st) (Grants st) v -> progress st (set_Grants v st).
Proof. intros H. constructor; simpl; done || reflexivity. Qed.
Lemma progress_invocations st v : evolves invocation_step (invocation_init st) (Invocations st) v -> progress st (set_Invocations v st).
Proof. intros H. constructor; simpl; done || reflexivity. Qed.
Lemma progress_executions st v : evolves execution_step (execution_init st) (ToolExecutions st) v -> progress st (set_ToolExecutions v st).
Proof. intros H. constructor; simpl; done || reflexivity. Qed.

(** The legal moves of a Turn. *)
Lemma step_moved s t :
  turn_move (tur_State t) s = true -> turn_terminal s = false -> turn_step t (moved s t).
Proof. intros Hm Ht. repeat split; [done|]. simpl. by rewrite Ht. Qed.

Lemma step_bump t : tur_State t = TurnRunning -> turn_step t (bump t).
Proof. intros Hs. repeat split; simpl; by rewrite Hs. Qed.

Lemma step_promoted now t : tur_State t = TurnQueued -> turn_step t (promoted now t).
Proof. intros Hs. repeat split. simpl. by rewrite Hs. Qed.

Lemma step_finished now s f t :
  turn_move (tur_State t) s = true -> turn_terminal s = true ->
  turn_step t (tur_set_CompletedAt (Some now) (tur_set_Failure f (moved s t))).
Proof. intros Hm Ht. repeat split; [done|]. simpl. rewrite Ht. eauto. Qed.

Lemma step_cancelled now t :
  pending_state (tur_State t) = true -> turn_step t (tur_set_CompletedAt (Some now) (moved TurnCancelled t)).
Proof. intros Hp. repeat split; simpl; [by destruct (tur_State t) | eauto]. Qed.

Lemma step_touch now s : session_step s (touch now s).
Proof. repeat split. simpl. unfold session_move. by rewrite bool_decide_eq_true_2. Qed.

Lemma step_touch_to now state s :
  session_move (ses_State s) state = true -> session_step s (ses_set_State state (touch now s)).
Proof. by repeat split. Qed.

Lemma step_revoked now g : gra_RevokedAt g = None -> grant_step g (gra_set_RevokedAt (Some now) g).
Proof. intros H. repeat split; [done|]. right. eauto. Qed.

Lemma step_withdrawn s a :
  app_State a = ApprovalPending -> s = ApprovalExpired \/ s = ApprovalCancelled -> approval_step a (app_set_State s a).
Proof.
  intros Ha Hs. split_and!; [done | done | |]; simpl; destruct Hs as [-> | ->].
  1-2: by repeat constructor.
  all: rewrite !elem_of_cons, elem_of_nil; intros [H|[H|[]]]; discriminate H.
Qed.

Lemma step_decided s now a :
  app_State a = ApprovalPending -> s ∈ [ApprovalApproved; ApprovalDenied] ->
  approval_step a (app_set_DecidedAt (Some now) (app_set_Decision s (app_set_State s a))).
Proof.
  intros Ha Hs. split_and!; [done | done | |]; simpl; [|eauto].
  apply elem_of_cons in Hs as [->|[->|[]%elem_of_nil]%elem_of_cons]; by repeat constructor.
Qed.

(** ** Walking through an operation *)

Lemma promote_go_spec sid l i best j z :
  promote_go sid i best l = Some (j, z) ->
  best = Some (j, z) \/
  (exists k t, j = (i + k)%nat /\ l !! k = Some t /\ tur_SessionID t = sid /\ tur_State t = TurnQueued /\ tur_Position t = z).
Proof.
  revert i best. induction l as [|t l IH]; intros i best; simpl; [by left|]. intros H%IH.
  destruct H as [H|(k & t' & -> & Hk & Hr)].
  - case_match; [|by left]. bools. simplify_eq. right. exists 0%nat, t. rewrite Nat.add_0_r. by repeat split.
  - right. exists (S k), t'. split; [lia|]. done.
Qed.

Lemma wp_promote sid now s (Q : option TurnRecord -> pstate -> Prop) :
  Q None s ->
  (forall i t, Turns (pst_state s) !! i = Some t -> tur_SessionID t = sid -> tur_State t = TurnQueued ->
     promote_go sid 0 None (Turns (pst_state s)) = Some (i, tur_Position t) ->
     Q (Some (promoted now t))
       (mkPstate (set_Turns (<[i := promoted now t]> (Turns (pst_state s))) (pst_state s)) (pst_allocated s))) ->
  wp (promote sid now) s Q.
Proof.
  intros H0 H1. unfold promote. wp_run. destruct (promote_go sid 0 None _) as [[i z]|] eqn:Hp; [|by apply wpP_ret].
  destruct (promote_go_spec _ _ _ _ _ _ Hp) as [[=]|(k & t & -> & Hk & Hs & Hq & <-)]. simpl in *. rewrite Hk.
  wp_run. by apply H1.
Qed.

Ltac wp_call :=
  match goal with
  | |- wp (effects _ _ _ _ _ _ _) _ _ =>
      wp_use wp_effects; let e := fresh "e" in let s := fresh "s" in let H := fresh "Hq" in intros e s H
  | |- wp (auditOnly _ _ _ _ _ _) _ _ =>
      wp_use wp_auditOnly; let e := fresh "e" in let s := fresh "s" in let H := fresh "Hq" in intros e s H
  | |- wp (approvalEffects _ _ _ _) _ _ =>
      wp_use wp_approvalEffects; let e := fresh "e" in let s := fresh "s" in let H := fresh "Hq" in intros e s H
  | |- wp (auditLease _ _ _ _ _) _ _ =>
      wp_use wp_auditLease; let e := fresh "e" in let s := fresh "s" in let H := fresh "Hq" in intros e s H
  | |- wp (outbox _ _ _ _ _ _ _ _ _) _ _ =>
      apply wp_outbox; let o := fresh "o" in let n := fresh "n" in let H := fresh "Ho" in intros o n H
  | H : routed ?st zeroEffects (pst_state ?s) ?e |- wp (decorate _ ?e) ?s _ =>
      wp_use wp_decorate; [exact H|];
      clear H; let e := fresh "e" in let s := fresh "s" in let H := fresh "Hq" in intros e s H
  end.

Ltac wp_walk := repeat (wp_step || wp_call).

(** Follow the updates back to the initial state, one collection at a time. *)
Ltac peel :=
  cbn [pst_state] in *;
  lazymatch goal with
  | |- progress ?st ?st => reflexivity
  | H : routed ?st0 _ (pst_state ?s) _ |- progress _ (pst_state ?s) =>
      transitivity st0; [clear H; peel | exact (quiet_progress _ _ (routed_quiet _ _ _ _ H))]
  | H : quietP ?s0 ?s |- progress _ (pst_state ?s) =>
      transitivity (pst_state s0); [clear H; peel | exact (quiet_progress _ _ H)]
  | |- progress _ (set_Outbox _ ?X) => transitivity X; [peel | apply progress_outbox]
  | |- progress _ (set_Revisions _ ?X) => transitivity X; [peel | apply progress_catalog]
  | |- progress _ (set_Policies _ ?X) => transitivity X; [peel | apply progress_policies]
  | |- progress _ (set_Inputs _ ?X) => transitivity X; [peel | apply progress_inputs]
  | |- progress _ (set_Artifacts _ ?X) => transitivity X; [peel | apply progress_artifacts]
  | |- progress _ (set_Conversations _ ?X) => transitivity X; [peel | apply progress_conversations]
  | |- progress _ (set_ToolIntents _ ?X) => transitivity X; [peel | apply progress_intents]
  | |- progress _ (set_Sessions _ ?X) => transitivity X; [peel | apply progress_sessions]
  | |- progress _ (set_Turns _ ?X) => transitivity X; [peel | apply progress_turns]
  | |- progress _ (set_Approvals _ ?X) => transitivity X; [peel | apply progress_approvals]
  | |- progress _ (set_Grants _ ?X) => transitivity X; [peel | apply progress_grants]
  | |- progress _ (set_Invocations _ ?X) => transitivity X; [peel | apply progress_invocations]
  | |- progress _ (set_ToolExecutions _ ?X) => transitivity X; [peel | apply progress_executions]
  end.

(** The element an index search found. *)
Ltac found :=
  match goal with
  | H : find_index _ _ = Some (?i, _) |- _ !! ?i = Some _ => exact (find_index_lookup _ _ _ _ H)
  | H : findSession _ _ _ = Some (?i, _) |- _ !! ?i = Some _ => exact (find_index_lookup _ _ _ _ H)
  | H : findTurn _ _ _ _ = Some (?i, _) |- _ !! ?i = Some _ => exact (find_index_lookup _ _ _ _ H)
  | H : findOutbox _ _ _ = Some (?i, _) |- _ !! ?i = Some _ => exact (find_index_lookup _ _ _ _ H)
  | H : findInvocation _ _ _ _ _ = Some (?i, _) |- _ !! ?i = Some _ => exact (find_index_lookup _ _ _ _ H)
  end.

Ltac found_in :=
  match goal with
  | H : find_index _ _ = Some (?i, _) |- _ ∈ _ => exact (list_elem_of_lookup_2 _ i _ (find_index_lookup _ _ _ _ H))
  | H : findSession _ _ _ = Some (?i, _) |- _ ∈ Sessions _ => exact (list_elem_of_lookup_2 _ i _ (find_index_lookup _ _ _ _ H))
  | H : findTurn _ _ _ _ = Some (?i, _) |- _ ∈ Turns _ => exact (list_elem_of_lookup_2 _ i _ (find_index_lookup _ _ _ _ H))
  end.

(** What the searches say about the element they return. *)
Lemma findTurn_owner st scope sid tid i t :
  findTurn st scope sid tid = Some (i, t) ->
  (tur_Tenant t, tur_Principal t, tur_SessionID t, tur_TurnID t) = (sco_Tenant scope, sco_Principal scope, sid, tid).
Proof. intros H%find_index_holds. unfold turn_matches in H. bools. congruence. Qed.

Lemma findSession_owner st scope sid i s :
  findSession st scope sid = Some (i, s) ->
  (ses_Tenant s, ses_Principal s, ses_SessionID s) = (sco_Tenant scope, sco_Principal scope, sid).
Proof. intros H%find_index_holds. unfold session_matches in H. bools. congruence. Qed.

(** A guard on the current state decides a move. *)
Ltac in_state :=
  match goal with
  | H : tur_State ?t = _ |- context [tur_State ?t] => by rewrite H
  | H : ses_State ?s = _ |- context [ses_State ?s] => by rewrite H
  | H : tur_State ?t = _ |- tur_State ?t = _ => exact H
  end.

(** Additions at the end of a collection. *)
Ltac appended :=
  first [ apply prefix_app_r; reflexivity
        | apply evolves_snoc; first [done | by repeat split | by (split; [auto | by repeat split])] ].

(** ** Every operation *)

Section operations.
Context (planner : Planner) (binding : ReceiptBinding) (now : Time).

Local Notation lawful m := (forall s, wp m s (fun _ s' => progressP s s')).

Lemma register_progress c k : lawful (register planner binding c k now).
Proof.
  intros s. unfold register, catalogOutbox. wp_run. case_bool_decide; wp_walk; unfold progressP; peel; appended.
Qed.

Lemma createSession_progress c : lawful (createSession planner binding c now).
Proof.
  intros s. unfold createSession. wp_walk. unfold progressP. peel. apply evolves_snoc. split_and!; [done|done|].
  eexists. split; [found_in|].
  match goal with H : find_index _ _ = _ |- _ => apply find_index_holds in H end. bools. simpl. congruence.
Qed.

Lemma admit_input_progress c k : lawful (admit_input planner binding c k now).
Proof.
  intros s. unfold admit_input. wp_walk. unfold progressP. peel.
  - appended.
  - apply evolves_snoc. split_and!; [simpl; case_match; auto | done | done|].
    eexists. split; [found_in | done].
  - eapply evolves_insert; [simpl; found | apply step_touch].
Qed.

Lemma registerArtifact_progress c k : lawful (registerArtifact planner binding c k now).
Proof. intros s. unfold registerArtifact, artifactOutbox. wp_walk. unfold progressP. peel; appended. Qed.

Lemma appendConversation_progress c k : lawful (appendConversation planner binding c k now).
Proof. intros s. unfold appendConversation, conversationOutbox. wp_walk. unfold progressP. peel; appended. Qed.

Lemma recordToolIntent_progress c d : lawful (recordToolIntent planner binding c d now).
Proof. intros s. unfold recordToolIntent. wp_walk. unfold progressP. peel; appended. Qed.

(** A new Approval on a Turn that was just paused. *)
Lemma approval_on_paused (st : RuntimeState) i scope sid tid t s a :
  findTurn st scope sid tid = Some (i, t) -> 0 < app_MaximumUses a <= 32 ->
  (app_Tenant a, app_Principal a, app_SessionID a, app_TurnID a) = (sco_Tenant scope, sco_Principal scope, sid, tid) ->
  approval_owned (set_Turns (<[i := moved s t]> (Turns st)) st) a.
Proof.
  intros Hf Hb Ha. split; [done|]. exists (moved s t). split.
  - eapply list_elem_of_lookup_2. simpl. apply list_lookup_insert_eq.
    eapply lookup_lt_Some. exact (find_index_lookup _ _ _ _ Hf).
  - apply findTurn_owner in Hf. by rewrite Ha.
Qed.

Lemma admitToolApproval_progress c d :
  0 < cta_MaximumUses c <= 32 -> lawful (admitToolApproval planner binding c d now).
Proof.
  intros Hc s. unfold admitToolApproval. wp_walk. unfold progressP. bools. peel; [|appended|].
  - eapply evolves_insert; [found|]. apply step_moved; [in_state | done].
  - apply evolves_snoc. split; [done|]. by eapply approval_on_paused.
Qed.

Lemma requestApproval_progress c :
  0 < cqa_MaximumUses c <= 32 -> lawful (requestApproval planner binding c now).
Proof.
  intros Hc s. unfold requestApproval. wp_walk. unfold progressP. bools. peel.
  - eapply evolves_insert; [found|]. apply step_moved; [in_state | done].
  - apply evolves_snoc. split; [done|]. by eapply approval_on_paused.
Qed.

Lemma decideApproval_progress c :
  cda_Decision c ∈ [ApprovalApproved; ApprovalDenied] -> lawful (decideApproval planner binding c now).
Proof.
  intros Hc s. unfold decideApproval. wp_run. bools. case_match.
  - wp_walk. unfold progressP. peel. eapply evolves_insert; [found|]. apply step_withdrawn; auto.
  - wp_run. case_bool_decide; wp_walk; unfold progressP; bools; peel.
    + eapply evolves_insert; [found|]. by apply step_decided.
    + apply evolves_snoc. split_and!; [done | done|]. eexists. split.
      { eapply list_elem_of_lookup_2. simpl. apply list_lookup_insert_eq. eapply lookup_lt_Some. found. }
      by split.
    + eapply evolves_insert; [found|]. apply step_moved; [in_state | done].
    + eapply evolves_insert; [found|]. by apply step_decided.
Qed.

Lemma consumeCapabilityGrant_progress c : lawful (consumeCapabilityGrant planner binding c now).
Proof.
  intros s. unfold consumeCapabilityGrant. wp_walk. unfold progressP. bools. peel.
  eapply evolves_insert; [found|]. repeat split; [done | left; repeat split; done].
Qed.

Lemma revokeCapabilityGrant_progress c : lawful (revokeCapabilityGrant planner binding c now).
Proof.
  intros s. unfold revokeCapabilityGrant. wp_walk. unfold progressP. bools. peel.
  eapply evolves_insert; [found | by apply step_revoked].
Qed.

Lemma expireCapabilityGrant_progress c : lawful (expireCapabilityGrant planner binding c now).
Proof.
  intros s. unfold expireCapabilityGrant. wp_walk. unfold progressP. bools. peel.
  eapply evolves_insert; [found | by apply step_revoked].
Qed.

Lemma denyToolAdmission_progress c : lawful (denyToolAdmission planner binding c now).
Proof. intros s. unfold denyToolAdmission. wp_walk. unfold progressP. peel. Qed.

Lemma beginToolExecution_progress c : lawful (beginToolExecution planner binding c now).
Proof.
  intros s. unfold beginToolExecution, toolExecutionOutbox. wp_walk. unfold progressP. peel; [|appended].
  apply evolves_snoc. split; [done|]. eexists. split; [found_in|].
  match goal with H : find_index _ _ = _ |- _ => apply find_index_holds in H; unfold grant_matches, grant_for in * end.
  bools. simpl. congruence.
Qed.

Lemma wp_retireGrant id s (Q : CapabilityGrantRecord -> pstate -> Prop) :
  (forall g, Q g s) ->
  (forall i g g', Grants (pst_state s) !! i = Some g -> gra_RevokedAt g = None ->
     Q g' (mkPstate (set_Grants (<[i := gra_set_RevokedAt (Some now) g]> (Grants (pst_state s))) (pst_state s))
             (pst_allocated s))) ->
  wp (retireGrant id now) s Q.
Proof.
  intros H0 H1. unfold retireGrant. wp_run. destruct (find_index _ _) as [[i g]|] eqn:Hf; [|by apply wpP_ret].
  destruct (gra_RevokedAt g) eqn:Hg; wp_run; [done|]. apply H1; [by eapply find_index_lookup | done].
Qed.

Lemma recordToolExecutionOutcome_progress c :
  cto_Outcome c ∈ [ToolExecutionSucceeded; ToolExecutionFailed; ToolExecutionUncertain] ->
  lawful (recordToolExecutionOutcome planner binding c now).
Proof.
  intros Hc s. unfold recordToolExecutionOutcome. wp_run. bools.
  apply wp_retireGrant; intros; wp_walk; (case_match; [case_match|]); wp_walk; unfold progressP; peel;
    (eapply evolves_insert; [first [found | eassumption] | first [by apply step_revoked | by repeat split]]).
Qed.

Lemma begin_invocation_progress c : lawful (begin_invocation planner binding c now).
Proof.
  intros s. unfold begin_invocation. wp_walk. unfold progressP. bools. peel.
  - apply evolves_snoc. split; [done|]. eexists. split; [found_in|]. simpl.
    repeat match goal with
    | H : findTurn _ _ _ _ = _ |- _ => apply findTurn_owner in H
    | H : findSession _ _ _ = _ |- _ => apply findSession_owner in H
    end. congruence.
  - eapply evolves_insert; [simpl; found|]. by apply step_bump.
  - eapply evolves_insert; [simpl; found|]. apply step_touch.
Qed.

Lemma recordOutcome_progress c :
  cio_Outcome c ∈ [InvocationSucceeded; InvocationFailed; InvocationUncertain; InvocationCancelled] ->
  lawful (recordOutcome planner binding c now).
Proof.
  intros Hc s. unfold recordOutcome. wp_walk. unfold progressP. bools. peel.
  eapply evolves_insert; [found | by repeat split].
Qed.

(** Completing a closing Session. *)
Lemma step_complete b s :
  (b = true -> ses_State s = SessionClosing) ->
  session_step s (if b then ses_set_State SessionCompleted (touch now s) else touch now s).
Proof.
  intros Hb. destruct b; [|apply step_touch]. apply step_touch_to. by rewrite Hb.
Qed.

(** A computation that only inspects the state. *)
Lemma wp_inspect {A} (m : P A) s (Q : A -> pstate -> Prop) :
  wp m s (fun _ s' => s' = s) -> (forall a, Q a s) -> wp m s Q.
Proof. intros Hm HQ. eapply wp_mono; [exact Hm|]. by intros a s' ->. Qed.

Lemma settle_progress c :
  turn_terminal (tou_State (cst_Outcome c)) = true -> lawful (settle planner binding c now).
Proof.
  intros Hc s. unfold settle. wp_run. bools. apply wp_inspect.
  { case_bool_decide; [by apply wpP_ret|]. case_match; [case_match|]; wp_run; done. }
  intros gap. wp_run. apply wp_promote; [|intros i x Hi Hsid Hqd _]; wp_walk; unfold progressP; peel.
  1,3: eapply evolves_insert; [found|]; apply step_finished; [|done]; simpl;
       match goal with H : tur_State _ = TurnRunning |- _ => rewrite H end; by destruct (tou_State (cst_Outcome c)).
  1,3: eapply evolves_insert; [simpl; found|]; apply step_complete; intros; by bools.
  eapply evolves_insert; [exact Hi | by apply step_promoted].
Qed.

Lemma invalidatePendingApproval_progress i a s :
  Approvals (pst_state s) !! i = Some a -> app_State a = ApprovalPending ->
  wp (invalidatePendingApproval planner binding i a now) s (fun _ s' => progressP s s').
Proof.
  intros Hi Ha. unfold invalidatePendingApproval, invalidatedApprovalEffects. wp_run. bools.
  apply wp_promote; [|intros j x Hj Hsid Hqd _]; wp_walk;
    (wp_use wp_terminalApprovalEffects; intros e' s' Hq'; wp_run; unfold progressP; peel).
  1,4: eapply evolves_insert; [exact Hi|]; apply step_withdrawn; auto.
  1,3: eapply evolves_insert; [simpl; found|]; apply step_cancelled; in_state.
  1,3: eapply evolves_insert; [simpl; found|]; apply step_touch.
  eapply evolves_insert; [exact Hj | by apply step_promoted].
Qed.

Lemma registerPolicy_progress c : lawful (registerPolicy planner binding c now).
Proof.
  intros s. unfold registerPolicy. wp_walk. eapply wp_mono; [apply (wp_for_each progressP) | cbn beta].
  - intros e' index s1. wp_run. destruct (Approvals (pst_state s1) !! index) as [a|] eqn:Ha; [|apply wpP_ret; reflexivity].
    destruct (superseded _ _ _ a) eqn:Hs; [|apply wpP_ret; reflexivity]. unfold superseded in Hs. bools.
    apply wpP_bind. wp_use invalidatePendingApproval_progress; [done..|]. intros e2 s2 H2. by apply wpP_ret.
  - intros e2 s2 H2. wp_run. unfold progressP in *. transitivity (pst_state s0); [clear H2; peel|exact H2]. appended.
Qed.

Lemma close_progress c : lawful (close planner binding c now).
Proof.
  intros s. unfold close. wp_walk. unfold progressP. bools. peel.
  eapply evolves_insert; [found|]. apply step_touch_to. case_match; in_state.
Qed.

Lemma endSession_progress sid final kind :
  final = SessionCancelled \/ final = SessionFailed -> lawful (endSession planner binding sid final kind now).
Proof.
  intros Hf s. unfold endSession. wp_walk. unfold progressP. bools. peel.
  eapply evolves_insert; [found|]. apply step_touch_to.
  match goal with H : orb _ _ = true |- _ => apply orb_true_iff in H as [H|H]; bools end;
    destruct Hf as [-> | ->]; in_state.
Qed.

Lemma claim_progress c : lawful (claim planner binding c now).
Proof.
  intros s. unfold claim. wp_walk. unfold progressP. bools. peel.
  eapply evolves_insert; [found|]. apply outbox_claimed; [done..|].
  match goal with H : orb _ _ = true |- _ => apply orb_true_iff in H as [H|H]; bools; auto end.
Qed.

Lemma renew_progress c : lawful (renew planner binding c now).
Proof.
  intros s. unfold renew. wp_walk. unfold progressP. bools. peel.
  eapply evolves_insert; [found|]. apply outbox_claimed; auto.
Qed.

Lemma acknowledge_progress c : lawful (acknowledge planner binding c now).
Proof.
  intros s. unfold acknowledge. wp_walk. unfold progressP. bools. peel.
  eapply evolves_insert; [found|]. by apply outbox_published.
Qed.

Lemma change_all_evolves {A} (step : A -> A -> Prop) init (p : A -> bool) f l :
  (forall x, p x = true -> step x (f x)) -> evolves step init l (change_all p f l).
Proof.
  intros H. apply evolves_fmap. intros x _. destruct (p x) eqn:Hp; [|apply rtc_refl]. apply rtc_once. auto.
Qed.

(** The effects of a cancelled Turn, after its records were updated. *)
Lemma cancelled_approvals_quiet session turn e0 approvals s :
  wp (for_each (fun e a => e' ← cancelledApprovalEffects planner binding session turn now a; mret (appendEffects e e') : P EffectSet)
        e0 approvals) s (fun _ s' => quietP s s').
Proof.
  apply (wp_for_each quietP). intros e a s1. unfold cancelledApprovalEffects. apply wpP_bind.
  wp_use wp_terminalApprovalEffects. intros e2 s2 H2. by apply wpP_ret.
Qed.

Lemma revoked_grants_quiet sid tid e0 grants s :
  wp (for_each (fun e g =>
        e' ← auditOnly planner binding "capability_grant.revoked" sid tid now;
        e' ← decorate (auditContextForGrant g) e';
        mret (mkEffects (eff_Events e) (eff_Audit e ++ eff_Audit e') (eff_Outbox e ++ eff_Outbox e')) : P EffectSet)
        e0 grants) s (fun _ s' => quietP s s').
Proof.
  apply (wp_for_each quietP). intros e2 g s2. wp_walk. by eapply routed_quiet.
Qed.

Lemma cancels_approval_step scope sid tid a :
  cancels_approval scope sid tid a = true -> approval_step a (app_set_State ApprovalCancelled a).
Proof. unfold cancels_approval. intros. bools. apply step_withdrawn; auto. Qed.

Lemma withdraws_grant_step scope sid tid g :
  withdraws_grant scope sid tid g = true -> grant_step g (gra_set_RevokedAt (Some now) g).
Proof. unfold withdraws_grant. intros. bools. by apply step_revoked. Qed.

Lemma cancel_progress c : lawful (cancel planner binding c now).
Proof.
  intros s. unfold cancel. wp_run. bools.
  match goal with |- wp (if ?b then _ else _) _ _ => destruct b end;
    [apply wp_promote; [|intros i x Hi Hsid Hqd _]|]; wp_walk;
    (wp_use cancelled_approvals_quiet; intros ea sa Hqa; wp_run;
     wp_use revoked_grants_quiet; intros eb sb Hqb; wp_run; unfold progressP; peel).
  all: try (apply change_all_evolves; intros ? Hx; first [by eapply cancels_approval_step | by eapply withdraws_grant_step]).
  all: try (eapply evolves_insert; [simpl; found|]; by apply step_cancelled).
  all: try (eapply evolves_insert; [simpl; found|]; apply step_complete; intros; by bools).
  eapply evolves_insert; [exact Hi | by apply step_promoted].
Qed.

(** What the compiler guarantees about the command values. *)
Definition outcome_sealed (c : compiledCommand) : Prop :=
  match c with
  | compiledSettle c => turn_terminal (tou_State (cst_Outcome c)) = true
  | compiledDecide c => cda_Decision c ∈ [ApprovalApproved; ApprovalDenied]
  | compiledOutcome c =>
      cio_Outcome c ∈ [InvocationSucceeded; InvocationFailed; InvocationUncertain; InvocationCancelled]
  | compiledToolOutcome c => cto_Outcome c ∈ [ToolExecutionSucceeded; ToolExecutionFailed; ToolExecutionUncertain]
  | _ => True
  end.

(** Requested use counts are within 1..32. *)
Definition bounded_uses (c : compiledCommand) : Prop :=
  match c with
  | compiledToolApproval c _ => 0 < cta_MaximumUses c <= 32
  | compiledRequestApproval c => 0 < cqa_MaximumUses c <= 32
  | _ => True
  end.

Lemma execute_progress c : outcome_sealed c -> bounded_uses c -> lawful (execute planner binding c now).
Proof.
  intros Hc Hb s. destruct c; simpl in *;
    eauto using register_progress, registerPolicy_progress, createSession_progress, admit_input_progress,
      registerArtifact_progress, appendConversation_progress, recordToolIntent_progress, admitToolApproval_progress,
      requestApproval_progress, decideApproval_progress, consumeCapabilityGrant_progress,
      revokeCapabilityGrant_progress, expireCapabilityGrant_progress, denyToolAdmission_progress,
      beginToolExecution_progress, recordToolExecutionOutcome_progress, begin_invocation_progress,
      recordOutcome_progress, settle_progress, cancel_progress, close_progress, claim_progress, renew_progress,
      acknowledge_progress.
  - apply endSession_progress. auto.
  - apply endSession_progress. auto.
Qed.
End operations.
