(* ===== verification/PlannerTenancy.v ===== *)
(** * Planner: tenancy

    A partition holds the records of one tenant.  Every operation of the planner
    keeps it so: whatever it adds carries the tenant of the caller's scope, and
    whatever it changes keeps its tenant.  The same walk shows that every event,
    audit fact and Outbox record has a non-empty identifier, on which the paged
    reads rely. *)

From S2P Require Import Prelude GoString GoTime GoJson Sdk StateContract RuntimeContent StateCompiler.
From S2P Require Import StatePlanner PlannerFacts PlannerProgress.

Open Scope Z_scope.

Definition event_of (T : TenantID) (e : ProductEventRecord) : Prop := eve_Tenant e = T /\ eve_Cursor e <> "".
Definition fact_of (T : TenantID) (f : AuditFactRecord) : Prop := aud_Tenant f = T /\ aud_AuditFactID f <> "".
Definition route_of (T : TenantID) (o : OutboxRecord) : Prop := out_Tenant o = T /\ out_OutboxID o <> "".

Record tenancy (T : TenantID) (st : RuntimeState) : Prop := mkTenancy {
  ty_Revisions : Forall (fun r => rev_Tenant r = T) (Revisions st);
  ty_Policies : Forall (fun r => pol_Tenant r = T) (Policies st);
  ty_Sessions : Forall (fun r => ses_Tenant r = T) (Sessions st);
  ty_Inputs : Forall (fun r => inp_Tenant r = T) (Inputs st);
  ty_Artifacts : Forall (fun r => art_Tenant r = T) (Artifacts st);
  ty_Conversations : Forall (fun r => con_Tenant r = T) (Conversations st);
  ty_ToolIntents : Forall (fun r => int_Tenant r = T) (ToolIntents st);
  ty_Grants : Forall (fun r => gra_Tenant r = T) (Grants st);
  ty_ToolExecutions : Forall (fun r => exe_Tenant r = T) (ToolExecutions st);
  ty_Approvals : Forall (fun r => app_Tenant r = T) (Approvals st);
  ty_Turns : Forall (fun r => tur_Tenant r = T) (Turns st);
  ty_Invocations : Forall (fun r => inv_Tenant r = T) (Invocations st);
  ty_Receipts : Forall (fun r => sco_Tenant (rec_Scope r) = T) (Receipts st);
  ty_Events : Forall (event_of T) (Events st);
  ty_Audit : Forall (fact_of T) (Audit st);
  ty_Outbox : Forall (route_of T) (Outbox st)
}.

(** An element that a search found is one of the list. *)
Lemma Forall_found {A} (Q : A -> Prop) (p : A -> bool) l i x : Forall Q l -> find_index p l = Some (i, x) -> Q x.
Proof. intros Hl Hf. eapply Forall_lookup_1; [exact Hl | exact (find_index_lookup _ _ _ _ Hf)]. Qed.

Lemma Forall_snoc {A} (Q : A -> Prop) l x : Forall Q l -> Q x -> Forall Q (l ++ [x]).
Proof. intros. apply Forall_app. auto. Qed.

Lemma Forall_alter_all {A} (Q : A -> Prop) f i l : (forall x, Q x -> Q (f x)) -> Forall Q l -> Forall Q (alter f i l).
Proof. intros Hf Hl. apply Forall_alter; [done|]. intros x _. apply Hf. Qed.

Lemma Forall_change_all {A} (Q : A -> Prop) (p : A -> bool) f l :
  (forall x, Q x -> Q (f x)) -> Forall Q l -> Forall Q (change_all p f l).
Proof. intros Hf Hl. apply Forall_fmap. eapply Forall_impl; [exact Hl|]. intros x Hx. simpl. case_match; auto. Qed.

Lemma ParseCursor_nonempty v w : ParseCursor v = Some w -> w <> "".
Proof. apply parseID_nonempty. Qed.

(** ** One collection is replaced *)

Section replace.
Context (T : TenantID) (st : RuntimeState) (Ht : tenancy T st).

Lemma keep_Revisions v : Forall (fun r => rev_Tenant r = T) v -> tenancy T (set_Revisions v st).
Proof. intros H. destruct Ht. by constructor. Qed.
Lemma keep_Policies v : Forall (fun r => pol_Tenant r = T) v -> tenancy T (set_Policies v st).
Proof. intros H. destruct Ht. by constructor. Qed.
Lemma keep_Sessions v : Forall (fun r => ses_Tenant r = T) v -> tenancy T (set_Sessions v st).
Proof. intros H. destruct Ht. by constructor. Qed.
Lemma keep_Inputs v : Forall (fun r => inp_Tenant r = T) v -> tenancy T (set_Inputs v st).
Proof. intros H. destruct Ht. by constructor. Qed.
Lemma keep_Artifacts v : Forall (fun r => art_Tenant r = T) v -> tenancy T (set_Artifacts v st).
Proof. intros H. destruct Ht. by constructor. Qed.
Lemma keep_Conversations v : Forall (fun r => con_Tenant r = T) v -> tenancy T (set_Conversations v st).
Proof. intros H. destruct Ht. by constructor. Qed.
Lemma keep_ToolIntents v : Forall (fun r => int_Tenant r = T) v -> tenancy T (set_ToolIntents v st).
Proof. intros H. destruct Ht. by constructor. Qed.
Lemma keep_Grants v : Forall (fun r => gra_Tenant r = T) v -> tenancy T (set_Grants v st).
Proof. intros H. destruct Ht. by constructor. Qed.
Lemma keep_ToolExecutions v : Forall (fun r => exe_Tenant r = T) v -> tenancy T (set_ToolExecutions v st).
Proof. intros H. destruct Ht. by constructor. Qed.
Lemma keep_Approvals v : Forall (fun r => app_Tenant r = T) v -> tenancy T (set_Approvals v st).
Proof. intros H. destruct Ht. by constructor. Qed.
Lemma keep_Turns v : Forall (fun r => tur_Tenant r = T) v -> tenancy T (set_Turns v st).
Proof. intros H. destruct Ht. by constructor. Qed.
Lemma keep_Invocations v : Forall (fun r => inv_Tenant r = T) v -> tenancy T (set_Invocations v st).
Proof. intros H. destruct Ht. by constructor. Qed.
Lemma keep_Receipts v : Forall (fun r => sco_Tenant (rec_Scope r) = T) v -> tenancy T (set_Receipts v st).
Proof. intros H. destruct Ht. by constructor. Qed.
Lemma keep_Events v : Forall (event_of T) v -> tenancy T (set_Events v st).
Proof. intros H. destruct Ht. by constructor. Qed.
Lemma keep_Audit v : Forall (fact_of T) v -> tenancy T (set_Audit v st).
Proof. intros H. destruct Ht. by constructor. Qed.
Lemma keep_Outbox v : Forall (route_of T) v -> tenancy T (set_Outbox v st).
Proof. intros H. destruct Ht. by constructor. Qed.
End replace.

(** Reduce the tenancy of an updated state to the tenancy of the records that were
    written, and that to the records they were made from. *)
Ltac keep :=
  cbn [pst_state];
  lazymatch goal with
  | H : tenancy ?T ?st |- tenancy ?T ?st => exact H
  | |- tenancy _ (set_Revisions _ _) => apply keep_Revisions; keep
  | |- tenancy _ (set_Policies _ _) => apply keep_Policies; keep
  | |- tenancy _ (set_Sessions _ _) => apply keep_Sessions; keep
  | |- tenancy _ (set_Inputs _ _) => apply keep_Inputs; keep
  | |- tenancy _ (set_Artifacts _ _) => apply keep_Artifacts; keep
  | |- tenancy _ (set_Conversations _ _) => apply keep_Conversations; keep
  | |- tenancy _ (set_ToolIntents _ _) => apply keep_ToolIntents; keep
  | |- tenancy _ (set_Grants _ _) => apply keep_Grants; keep
  | |- tenancy _ (set_ToolExecutions _ _) => apply keep_ToolExecutions; keep
  | |- tenancy _ (set_Approvals _ _) => apply keep_Approvals; keep
  | |- tenancy _ (set_Turns _ _) => apply keep_Turns; keep
  | |- tenancy _ (set_Invocations _ _) => apply keep_Invocations; keep
  | |- tenancy _ (set_Receipts _ _) => apply keep_Receipts; keep
  | |- tenancy _ (set_Events _ _) => apply keep_Events; keep
  | |- tenancy _ (set_Audit _ _) => apply keep_Audit; keep
  | |- tenancy _ (set_Outbox _ _) => apply keep_Outbox; keep
  | |- Forall _ (<[_ := _]> _) => apply Forall_insert; keep
  | |- Forall _ (_ ++ [_]) => apply Forall_snoc; keep
  | |- Forall _ (change_all _ _ _) => apply Forall_change_all; [by intros | keep]
  | |- Forall _ (alter _ _ _) => apply Forall_alter_all; [by intros | keep]
  | |- Forall _ (Revisions _) => apply ty_Revisions; keep
  | |- Forall _ (Policies _) => apply ty_Policies; keep
  | |- Forall _ (Sessions _) => apply ty_Sessions; keep
  | |- Forall _ (Inputs _) => apply ty_Inputs; keep
  | |- Forall _ (Artifacts _) => apply ty_Artifacts; keep
  | |- Forall _ (Conversations _) => apply ty_Conversations; keep
  | |- Forall _ (ToolIntents _) => apply ty_ToolIntents; keep
  | |- Forall _ (Grants _) => apply ty_Grants; keep
  | |- Forall _ (ToolExecutions _) => apply ty_ToolExecutions; keep
  | |- Forall _ (Approvals _) => apply ty_Approvals; keep
  | |- Forall _ (Turns _) => apply ty_Turns; keep
  | |- Forall _ (Invocations _) => apply ty_Invocations; keep
  | |- Forall _ (Receipts _) => apply ty_Receipts; keep
  | |- Forall _ (Events _) => apply ty_Events; keep
  | |- Forall _ (Audit _) => apply ty_Audit; keep
  | |- Forall _ (Outbox _) => apply ty_Outbox; keep
  | |- event_of _ _ => assumption
  | |- fact_of _ _ => first [assumption | split; [owner | cbn; assumption]]
  | H : findOutbox ?st _ _ = Some _ |- route_of ?T _ => refine (Forall_found (route_of T) _ _ _ _ (ty_Outbox T st _) H); keep
  | |- route_of _ _ => first [assumption | split; [owner | cbn; assumption]]
  | |- _ = _ => owner
  | _ => try assumption
  end
with owner :=
  cbn;
  lazymatch goal with
  | H : ?x = ?T |- ?x = ?T => exact H
  | |- context [if ?b then _ else _] => destruct b; owner
  | H : findSession ?st _ _ = Some (_, ?s) |- ses_Tenant ?s = ?T =>
      refine (Forall_found _ _ _ _ _ (ty_Sessions T st _) H); keep
  | H : findTurn ?st _ _ _ = Some (_, ?t) |- tur_Tenant ?t = ?T =>
      refine (Forall_found _ _ _ _ _ (ty_Turns T st _) H); keep
  | H : findInvocation ?st _ _ _ _ = Some (_, ?i) |- inv_Tenant ?i = ?T =>
      refine (Forall_found _ _ _ _ _ (ty_Invocations T st _) H); keep
  | H : find_index _ (Approvals ?st) = Some (_, ?a) |- app_Tenant ?a = ?T =>
      refine (Forall_found _ _ _ _ _ (ty_Approvals T st _) H); keep
  | H : find_index _ (Grants ?st) = Some (_, ?g) |- gra_Tenant ?g = ?T =>
      refine (Forall_found _ _ _ _ _ (ty_Grants T st _) H); keep
  | H : find_index _ (ToolExecutions ?st) = Some (_, ?x) |- exe_Tenant ?x = ?T =>
      refine (Forall_found _ _ _ _ _ (ty_ToolExecutions T st _) H); keep
  | H : ?l !! _ = Some ?t |- tur_Tenant ?t = ?T => refine (Forall_lookup_1 _ _ _ _ _ H); keep
  | H : ?l !! _ = Some ?a |- app_Tenant ?a = ?T => refine (Forall_lookup_1 _ _ _ _ _ H); keep
  | H : ?l !! _ = Some ?g |- gra_Tenant ?g = ?T => refine (Forall_lookup_1 _ _ _ _ _ H); keep
  | _ => idtac
  end.

(** ** The effect constructors *)

Section tenancy.
Context (planner : Planner) (binding : ReceiptBinding) (now : Time) (T : TenantID).
Context (HT : sco_Tenant (bin_Scope binding) = T).

(** The state and the audit facts of the effects at hand belong to the tenant. *)
Definition kept (e : EffectSet) (s : pstate) : Prop := tenancy T (pst_state s) /\ Forall (fact_of T) (eff_Audit e).

Lemma keep_event session turn invocation kind until s (Q : ProductEventRecord -> pstate -> Prop) :
  ses_Tenant session = T ->
  (forall e n, event_of T e -> eve_Kind e = kind -> Q e (mkPstate (pst_state s) n)) ->
  wp (event planner session turn invocation binding kind now until) s Q.
Proof.
  intros Hs H. unfold event. wp_run. apply H; [|done]. split; [done|]. simpl. by eapply ParseCursor_nonempty.
Qed.

Lemma keep_outbox session turn invocation eid kind sequence until s (Q : OutboxRecord -> pstate -> Prop) :
  ses_Tenant session = T ->
  (forall o n, route_of T o -> Q o (mkPstate (pst_state s) n)) ->
  wp (outbox planner session turn invocation eid kind sequence now until) s Q.
Proof. intros Hs H. unfold outbox. wp_run. by apply H. Qed.

Lemma keep_auditRoute sid tid e kind s :
  kept e s -> wp (auditRoute planner binding sid tid now e kind) s kept.
Proof.
  intros [Ht He]. unfold auditRoute, factKind, auditOutbox. wp_run. split.
  - keep.
  - cbn. keep.
Qed.

Lemma keep_lifecycle sid tid e s :
  kept e s -> wp (appendAuditLifecycle planner e binding sid tid now) s kept.
Proof. apply (wp_for_each_inv kept). intros. by apply keep_auditRoute. Qed.

Lemma keep_auditOnly kind sid tid s :
  tenancy T (pst_state s) -> wp (auditOnly planner binding kind sid tid now) s kept.
Proof.
  intros H. unfold auditOnly. apply wpP_bind. wp_use keep_auditRoute; [by split|]. intros e s'. apply keep_lifecycle.
Qed.

Lemma keep_eventRoutes session turn invocation kinds e s :
  ses_Tenant session = T -> kept e s ->
  wp (for_each (eventRoute planner binding session turn invocation now) e kinds) s kept.
Proof.
  intros Hs. apply (wp_for_each_inv kept). clear e s. intros e k s [Ht He]. unfold eventRoute.
  apply wpP_bind, keep_event; [done|]. intros ev n Hev _. wp_run.
  apply keep_outbox; [done|]. intros o n' Ho. wp_run. split; [keep | done].
Qed.

Lemma keep_linkFirst id e s : kept e s -> wp (linkFirst id e) s kept.
Proof. intros [Ht He]. unfold linkFirst. wp_run. split; [|done]. simpl. case_match; keep. Qed.

Lemma keep_effects session turn invocation kinds s :
  ses_Tenant session = T -> tenancy T (pst_state s) ->
  wp (effects planner binding session turn invocation kinds now) s kept.
Proof.
  intros Hs Ht. unfold effects. apply wpP_bind. wp_use keep_eventRoutes; [done | by split|]. intros e s1 [H1 He].
  unfold fact, factKind. wp_run. wp_use keep_linkFirst.
  { split; [keep | cbn; keep]. }
  intros e2 s2 [H2 He2]. apply wpP_bind. case_match; wp_run.
  - apply keep_outbox; [done|]. intros o n' Ho. wp_run. apply keep_lifecycle. split; [keep | done].
  - by apply keep_lifecycle.
Qed.

Lemma decorateFact_of c f : fact_of T f -> fact_of T (decorateFact c f).
Proof. unfold decorateFact, fact_of. intros H. by case_match. Qed.
Lemma decorateOutbox_of d o : route_of T o -> route_of T (decorateOutbox d o).
Proof. unfold decorateOutbox, route_of. intros H. by case_match. Qed.

Lemma keep_decorate c e s : kept e s -> wp (decorate c e) s kept.
Proof.
  intros [Ht He] e' s'. unfold decorate, decorateToolAuditFacts. cbn beta.
  destruct (_ || _); intros [= <- <-]; [by split|].
  assert (Hf : Forall (fact_of T) (decorateFact c <$> eff_Audit e)).
  { apply Forall_fmap. eapply Forall_impl; [exact He | apply decorateFact_of]. }
  split; [keep | done].
  - apply Forall_app. split; [apply Forall_take; keep | done].
  - apply Forall_fmap. eapply Forall_impl; [exact (ty_Outbox _ _ Ht)|]. intros o. apply decorateOutbox_of.
Qed.

Lemma keep_approvalEffects a s :
  tenancy T (pst_state s) -> wp (approvalEffects planner binding a now) s kept.
Proof.
  intros Ht. unfold approvalEffects. wp_run. wp_use keep_effects; [owner | done|]. intros e s' [Ht' He]. wp_run.
  case_match; [by apply wpP_ret|]. wp_run. apply keep_decorate. split; [keep|]. cbn. keep.
Qed.

Lemma keep_terminalApprovalEffects session turn a kind s :
  ses_Tenant session = T -> tenancy T (pst_state s) ->
  wp (terminalApprovalEffects planner binding session turn a now kind) s (fun _ s' => tenancy T (pst_state s')).
Proof.
  intros Hs Ht. unfold terminalApprovalEffects. apply wpP_bind, keep_event; [done|]. intros ev n Hev _. wp_run.
  apply keep_outbox; [done|]. intros o n' Ho. wp_run. wp_use keep_auditOnly; [keep|]. intros e s1 [H1 He]. wp_run.
  wp_use keep_decorate; [split; [keep | done]|]. intros e2 s2 [H2 _]. by wp_run.
Qed.

Lemma keep_auditLease record kind s :
  tenancy T (pst_state s) -> wp (auditLease planner binding record kind now) s (fun _ s' => tenancy T (pst_state s')).
Proof.
  intros Ht. unfold auditLease. case_match; [by apply wpP_ret|]. wp_use keep_auditOnly; [done|]. by intros e s1 [H1 _].
Qed.
End tenancy.

(** ** Every operation *)

Ltac wp_keep_call :=
  match goal with
  | |- wp (effects _ _ _ _ _ _ _) _ _ =>
      wp_use keep_effects; [eassumption | owner | keep|]; let e := fresh "e" in let s := fresh "s" in
      let H := fresh "Hk" in let He := fresh "He" in intros e s [H He]
  | |- wp (auditOnly _ _ _ _ _ _) _ _ =>
      wp_use keep_auditOnly; [eassumption | keep|]; let e := fresh "e" in let s := fresh "s" in
      let H := fresh "Hk" in let He := fresh "He" in intros e s [H He]
  | |- wp (approvalEffects _ _ _ _) _ _ =>
      wp_use keep_approvalEffects; [eassumption | keep|]; let e := fresh "e" in let s := fresh "s" in
      let H := fresh "Hk" in let He := fresh "He" in intros e s [H He]
  | |- wp (auditLease _ _ _ _ _) _ _ =>
      wp_use keep_auditLease; [eassumption | keep|]; let e := fresh "e" in let s := fresh "s" in
      let H := fresh "Hk" in intros e s H
  | H : Forall (fact_of ?T) (eff_Audit ?e) |- wp (decorate _ ?e) ?s _ =>
      wp_use (keep_decorate T); [split; [keep | exact H]|]; clear H; let e := fresh "e" in let s := fresh "s" in
      let H := fresh "Hk" in let He := fresh "He" in intros e s [H He]
  end.

Ltac wp_keep := repeat (wp_step || wp_keep_call).

Section operations.
Context (planner : Planner) (binding : ReceiptBinding) (now : Time) (T : TenantID).
Context (HT : sco_Tenant (bin_Scope binding) = T).

Local Notation keeps m := (forall s, tenancy T (pst_state s) -> wp m s (fun _ s' => tenancy T (pst_state s'))).

Lemma for_each_keeps (A B : Type) (f : B -> A -> P B) acc l :
  (forall acc x, keeps (f acc x)) -> keeps (for_each f acc l).
Proof. intros Hf s. apply (wp_for_each_inv (fun _ s => tenancy T (pst_state s))). auto. Qed.

Lemma register_keeps c k : keeps (register planner binding c k now).
Proof. intros s Ht. unfold register, catalogOutbox. wp_run. case_bool_decide; wp_keep; keep. Qed.

Lemma createSession_keeps c : keeps (createSession planner binding c now).
Proof. intros s Ht. unfold createSession. wp_keep. keep. Qed.

Lemma admit_input_keeps c k : keeps (admit_input planner binding c k now).
Proof. intros s Ht. unfold admit_input. wp_keep. keep. Qed.

Lemma registerArtifact_keeps c k : keeps (registerArtifact planner binding c k now).
Proof. intros s Ht. unfold registerArtifact, artifactOutbox. wp_keep. keep. Qed.

Lemma appendConversation_keeps c k : keeps (appendConversation planner binding c k now).
Proof. intros s Ht. unfold appendConversation, conversationOutbox. wp_keep. keep. Qed.

Lemma recordToolIntent_keeps c d : keeps (recordToolIntent planner binding c d now).
Proof. intros s Ht. unfold recordToolIntent. wp_keep. keep. Qed.

Lemma admitToolApproval_keeps c d : keeps (admitToolApproval planner binding c d now).
Proof. intros s Ht. unfold admitToolApproval. wp_keep. keep. Qed.

Lemma requestApproval_keeps c : keeps (requestApproval planner binding c now).
Proof. intros s Ht. unfold requestApproval. wp_keep. keep. Qed.

Lemma decideApproval_keeps c : keeps (decideApproval planner binding c now).
Proof.
  intros s Ht. unfold decideApproval. wp_run. bools. case_match; [wp_keep; keep|]. wp_run. case_bool_decide; wp_keep; keep.
Qed.

Lemma consumeCapabilityGrant_keeps c : keeps (consumeCapabilityGrant planner binding c now).
Proof. intros s Ht. unfold consumeCapabilityGrant. wp_keep. keep. Qed.

Lemma revokeCapabilityGrant_keeps c : keeps (revokeCapabilityGrant planner binding c now).
Proof. intros s Ht. unfold revokeCapabilityGrant. wp_keep. keep. Qed.

Lemma expireCapabilityGrant_keeps c : keeps (expireCapabilityGrant planner binding c now).
Proof. intros s Ht. unfold expireCapabilityGrant. wp_keep. keep. Qed.

Lemma denyToolAdmission_keeps c : keeps (denyToolAdmission planner binding c now).
Proof. intros s Ht. unfold denyToolAdmission. wp_keep. keep. Qed.

Lemma beginToolExecution_keeps c : keeps (beginToolExecution planner binding c now).
Proof. intros s Ht. unfold beginToolExecution, toolExecutionOutbox. wp_keep. keep. Qed.

Lemma recordToolExecutionOutcome_keeps c : keeps (recordToolExecutionOutcome planner binding c now).
Proof.
  intros s Ht. unfold recordToolExecutionOutcome. wp_run.
  apply wp_retireGrant; intros; wp_keep; (case_match; [case_match|]); wp_keep; keep.
Qed.

Lemma begin_invocation_keeps c : keeps (begin_invocation planner binding c now).
Proof. intros s Ht. unfold begin_invocation. wp_keep. keep. Qed.

Lemma recordOutcome_keeps c : keeps (recordOutcome planner binding c now).
Proof. intros s Ht. unfold recordOutcome. wp_keep. keep. Qed.

Lemma settle_keeps c : keeps (settle planner binding c now).
Proof.
  intros s Ht. unfold settle. wp_run. bools. apply wp_inspect.
  { case_bool_decide; [by apply wpP_ret|]. case_match; [case_match|]; wp_run; done. }
  intros gap. wp_run. apply wp_promote; [|intros i x Hi _ _ _]; wp_keep; keep.
Qed.

Lemma invalidatePendingApproval_keeps i a :
  app_Tenant a = T -> keeps (invalidatePendingApproval planner binding i a now).
Proof.
  intros Ha s Ht. unfold invalidatePendingApproval, invalidatedApprovalEffects. wp_run.
  apply wp_promote; [|intros j x Hj _ _ _]; wp_keep;
    (wp_use keep_terminalApprovalEffects; [eassumption | owner | keep|]; intros e' s' Hk'; wp_run; keep).
Qed.

Lemma registerPolicy_keeps c : keeps (registerPolicy planner binding c now).
Proof.
  intros s Ht. unfold registerPolicy. wp_keep. wp_use for_each_keeps; [|keep | intros e2 s2 H2; by wp_run].
  intros e' index s1 H1. wp_run. destruct (Approvals (pst_state s1) !! index) as [a|] eqn:Ha; [|by apply wpP_ret].
  destruct (superseded _ _ _ a); [|by apply wpP_ret]. apply wpP_bind.
  wp_use invalidatePendingApproval_keeps; [owner | done|]. intros e2 s2 H2. by apply wpP_ret.
Qed.

Lemma close_keeps c : keeps (close planner binding c now).
Proof. intros s Ht. unfold close. wp_keep. keep. Qed.

Lemma endSession_keeps sid final kind : keeps (endSession planner binding sid final kind now).
Proof. intros s Ht. unfold endSession. wp_keep. keep. Qed.

Lemma claim_keeps c : keeps (claim planner binding c now).
Proof. intros s Ht. unfold claim. wp_keep. keep. Qed.

Lemma renew_keeps c : keeps (renew planner binding c now).
Proof. intros s Ht. unfold renew. wp_keep. keep. Qed.

Lemma acknowledge_keeps c : keeps (acknowledge planner binding c now).
Proof. intros s Ht. unfold acknowledge. wp_keep. keep. Qed.

Lemma cancel_keeps c : keeps (cancel planner binding c now).
Proof.
  intros s Ht. unfold cancel, cancelledApprovalEffects. wp_run.
  match goal with |- wp (if ?b then _ else _) _ _ => destruct b end;
    [apply wp_promote; [|intros i x Hi _ _ _]|]; wp_keep.
  all: wp_use for_each_keeps; [|keep|].
  all: try (intros ea a sa Ha; apply wpP_bind; wp_use keep_terminalApprovalEffects; [eassumption | owner | done|];
            intros eb sb Hb; by apply wpP_ret).
  all: intros ea sa Ha; wp_run; wp_use for_each_keeps; [|done | intros eb sb Hb; by wp_run].
  all: intros eb g sb Hb; wp_keep; done.
Qed.

Lemma execute_keeps c : keeps (execute planner binding c now).
Proof.
  destruct c; simpl;
    eauto using register_keeps, registerPolicy_keeps, createSession_keeps, admit_input_keeps, registerArtifact_keeps,
      appendConversation_keeps, recordToolIntent_keeps, admitToolApproval_keeps, requestApproval_keeps,
      decideApproval_keeps, consumeCapabilityGrant_keeps, revokeCapabilityGrant_keeps, expireCapabilityGrant_keeps,
      denyToolAdmission_keeps, beginToolExecution_keeps, recordToolExecutionOutcome_keeps, begin_invocation_keeps,
      recordOutcome_keeps, settle_keeps, cancel_keeps, close_keeps, claim_keeps, renew_keeps, acknowledge_keeps,
      endSession_keeps.
Qed.
End operations.
