(* ===== verification/PlannerWf.v ===== *)
(** * Planner: what [validateState] decides

    [validateState] is a sequence of loops over sets of seen keys; it is shown
    equivalent to a declarative well-formedness of the state: identifiers are
    unique, policies carry their digest, grants are within bounds, and a Session
    has at most one running Turn. *)

From S2P Require Import Prelude GoString GoTime GoJson Sdk StateContract RuntimeContent StateCompiler StatePlanner.

Open Scope Z_scope.

(** Two records with the same non-empty key are the same record. *)
Definition distinct {A} (key : A -> string) (l : list A) : Prop :=
  forall i j x y, l !! i = Some x -> l !! j = Some y -> key x = key y -> key x <> "" -> i = j.

(** At most one record satisfies the property. *)
Definition at_most_one {A} (p : A -> Prop) (l : list A) : Prop :=
  forall i j x y, l !! i = Some x -> l !! j = Some y -> p x -> p y -> i = j.

Definition is_running (sid : SessionID) (t : TurnRecord) : Prop := tur_State t = TurnRunning /\ tur_SessionID t = sid.

Record well_formed (st : RuntimeState) : Prop := mkWf {
  wf_Revisions : distinct rev_RevisionID (Revisions st);
  wf_Policies : distinct policyKey (Policies st);
  wf_Policy_records : forall p, p ∈ Policies st -> validPolicyRecord p = true;
  wf_Sessions : distinct ses_SessionID (Sessions st);
  wf_Session_records : forall s, s ∈ Sessions st -> validSessionRecord s = true;
  wf_Inputs : distinct inp_InputID (Inputs st);
  wf_Artifacts : distinct art_ArtifactID (Artifacts st);
  wf_Conversations : distinct conversationKey (Conversations st);
  wf_Approvals : distinct app_ApprovalID (Approvals st);
  wf_Grants : distinct gra_GrantID (Grants st);
  wf_Grant_records : forall g, g ∈ Grants st -> validGrantRecord g = true;
  wf_Turns : distinct tur_TurnID (Turns st);
  wf_Positions : distinct positionKey (Turns st);
  wf_Running : forall sid, at_most_one (is_running sid) (Turns st);
  wf_Operations : distinct id ((inv_OperationID <$> Invocations st) ++ (exe_OperationID <$> ToolExecutions st));
  wf_Events : distinct eve_EventID (Events st);
  wf_Cursors : distinct eve_Cursor (Events st);
  wf_Audit : distinct aud_AuditFactID (Audit st);
  wf_Outbox : distinct out_OutboxID (Outbox st);
  wf_Receipts : distinct receiptKey (Receipts st)
}.

(** ** The loops *)

Lemma distinct_cons {A} (key : A -> string) x l :
  distinct key (x :: l) <-> distinct key l /\ (key x <> "" -> forall y, y ∈ l -> key y <> key x).
Proof.
  split.
  - intros H. split.
    + intros i j a b Ha Hb He Hn. assert (S i = S j) by (eapply H; eauto). congruence.
    + intros Hx y [j Hj]%list_elem_of_lookup He. discriminate (H (S j) 0%nat y x Hj eq_refl He ltac:(congruence)).
  - intros [H Hx] [|i] [|j] a b; simpl; intros Ha Hb He Hn; simplify_eq; [done| | |f_equal; eauto].
    + exfalso. eapply Hx; [done | eapply list_elem_of_lookup_2, Hb | done].
    + exfalso. eapply Hx; [congruence | eapply list_elem_of_lookup_2, Ha | done].
Qed.

Lemma distinct_nil {A} (key : A -> string) : distinct key [].
Proof. intros i j x y H. by rewrite lookup_nil in H. Qed.

Lemma distinct_fmap {A B} (f : A -> B) (key : B -> string) l : distinct key (f <$> l) <-> distinct (key ∘ f) l.
Proof.
  split.
  - intros H i j x y Hi Hj He Hn. apply (H i j (f x) (f y)); [by rewrite list_lookup_fmap, Hi |
      by rewrite list_lookup_fmap, Hj | done | done].
  - intros H i j x y Hi Hj. apply list_lookup_fmap_Some in Hi as (a & -> & Hi).
    apply list_lookup_fmap_Some in Hj as (b & -> & Hj). intros He Hn. by apply (H i j a b).
Qed.

Lemma distinct_app {A} (key : A -> string) l k :
  distinct key (l ++ k) <->
  distinct key l /\ distinct key k /\ (forall x y, x ∈ l -> y ∈ k -> key x = key y -> key x <> "" -> False).
Proof.
  induction l as [|z l IH]; simpl.
  - split; [|by intros (_ & H & _)]. intros H. split_and!; [apply distinct_nil | done |].
    by intros x y Hx%elem_of_nil.
  - rewrite !distinct_cons, IH. setoid_rewrite elem_of_app. setoid_rewrite elem_of_cons. split.
    + intros ((Hl & Hk & Hd) & Hz). split_and!; [done | auto | done|].
      intros x y [->|Hx] Hy He Hn; [apply (Hz Hn y); auto | by apply (Hd x y)].
    + intros ((Hl & Hz) & Hk & Hd). split_and!; [done | done | eauto|].
      intros Hn y [Hy|Hy] He; [by apply (Hz Hn y) | by apply (Hd z y); auto].
Qed.

(** Keys not met before the loop. *)
Definition unseen {A} (key : A -> string) (seen : gset string) (l : list A) : Prop :=
  forall x, x ∈ l -> key x <> "" -> key x ∉ seen.

Lemma duplicate_spec seen v :
  (duplicate seen v).1 = false <-> (v <> "" -> v ∉ seen).
Proof. unfold duplicate. repeat case_bool_decide; simpl; naive_solver. Qed.

Lemma duplicate_after seen v w :
  (duplicate seen v).1 = false -> w ∈ (duplicate seen v).2 <-> w ∈ seen \/ (w = v /\ v <> "").
Proof. unfold duplicate. repeat case_bool_decide; simpl; [naive_solver | done | set_solver]. Qed.

Lemma unseen_after {A} (key : A -> string) seen v (l : list A) :
  (duplicate seen v).1 = false ->
  unseen key (duplicate seen v).2 l <-> unseen key seen l /\ (v <> "" -> forall y, y ∈ l -> key y <> v).
Proof.
  intros Hd. unfold unseen. setoid_rewrite (duplicate_after seen v _ Hd). split.
  - intros H. split; [naive_solver|]. intros Hv y Hy <-. naive_solver.
  - intros [H1 H2] x Hx Hn [Hin|[Hv1 Hv2]]; [by eapply H1 | by eapply H2].
Qed.

Lemma unseen_cons {A} (key : A -> string) seen x (l : list A) :
  unseen key seen (x :: l) <-> (key x <> "" -> key x ∉ seen) /\ unseen key seen l.
Proof.
  unfold unseen. split.
  - intros H. split; [by apply H; left | intros y Hy; apply H; by right].
  - intros [H1 H2] y [->|Hy]%elem_of_cons; auto.
Qed.

Lemma unseen_empty {A} (key : A -> string) (l : list A) : unseen key ∅ l.
Proof. unfold unseen. set_solver. Qed.

Lemma uniqueLoop_spec {A} (key : A -> string) check seen (l : list A) :
  is_Some (uniqueLoop key check seen l) <->
  distinct key l /\ unseen key seen l /\ forall x, x ∈ l -> check x = true.
Proof.
  unfold uniqueLoop. revert seen. induction l as [|x l IH]; intros seen; simpl.
  - split; [|eauto]. intros _. split_and!; [apply distinct_nil | |]; intros y Hy%elem_of_nil; done.
  - unfold uniqueRecord at 1. destruct (duplicate seen (key x)) as [dup seen'] eqn:Hd.
    pose proof (duplicate_spec seen (key x)) as Hs. pose proof (unseen_after key seen (key x) l) as Ha.
    rewrite Hd in Hs, Ha. simpl in *. rewrite distinct_cons, unseen_cons.
    destruct dup; simpl; [split; [by intros [? ?] | intros (_ & (H & _) & _); by apply Hs in H]|].
    destruct (check x) eqn:Hc; simpl.
    + rewrite IH, Ha by done. setoid_rewrite elem_of_cons. split; [|naive_solver].
      intros (Hdl & (Hu & Hx) & Hch). split_and!; [done|done|by apply Hs|done|]. intros y [->|Hy]; auto.
    + split; [by intros [? ?]|]. intros (_ & _ & H). specialize (H x ltac:(left)). congruence.
Qed.

Lemma uniqueLoop_ok {A} (key : A -> string) check (l : list A) :
  bool_decide (is_Some (uniqueLoop key check ∅ l)) = true <->
  distinct key l /\ forall x, x ∈ l -> check x = true.
Proof. rewrite bool_decide_eq_true, uniqueLoop_spec. pose proof (unseen_empty key l). naive_solver. Qed.

Lemma uniqueLoop_seen {A} (key : A -> string) check seen (l : list A) seen' :
  uniqueLoop key check seen l = Some seen' ->
  forall v, v ∈ seen' <-> v ∈ seen \/ (v <> "" /\ v ∈ key <$> l).
Proof.
  unfold uniqueLoop. revert seen. induction l as [|x l IH]; intros seen; simpl.
  - intros [= ->] v. set_solver.
  - unfold uniqueRecord at 1. destruct (duplicate seen (key x)) as [dup seen1] eqn:Hd.
    destruct dup; [done|]. destruct (check x); [|done]. simpl. intros H v. rewrite (IH _ H).
    pose proof (duplicate_after seen (key x) v) as Ha. rewrite Hd in Ha. rewrite Ha by done. rewrite elem_of_cons.
    naive_solver.
Qed.

(** Operation identifiers are shared by invocations and tool executions. *)
Lemma operations_ok (is_ : list InvocationRecord) (xs : list ToolExecutionRecord) :
  bool_decide (is_Some (operations ← uniqueLoop inv_OperationID always ∅ is_;
                        uniqueLoop exe_OperationID always operations xs)) = true <->
  distinct id ((inv_OperationID <$> is_) ++ (exe_OperationID <$> xs)).
Proof.
  rewrite bool_decide_eq_true.
  rewrite distinct_app, !distinct_fmap. unfold compose, id.
  destruct (uniqueLoop inv_OperationID always ∅ is_) as [ops|] eqn:Hi; simpl.
  - pose proof (proj1 (uniqueLoop_spec _ _ _ _) (mk_is_Some _ _ Hi)) as (Hd & _ & _).
    pose proof (uniqueLoop_seen _ _ _ _ _ Hi) as Hs. rewrite uniqueLoop_spec. unfold unseen.
    setoid_rewrite Hs. setoid_rewrite list_elem_of_fmap. unfold always. split.
    + intros (Hx & Hu & _). split_and!; [done|done|]. intros ? ? (a & -> & Ha) (b & -> & Hb) He Hn.
      apply (Hu b Hb); [congruence|]. right. split; [congruence|]. by exists a.
    + intros (_ & Hx & Hu). split_and!; [done| |done]. intros x Hx' Hn [H|[_ (a & Ha & Ha')]]; [by apply not_elem_of_empty in H|].
      apply (Hu (inv_OperationID a) (exe_OperationID x)); [by exists a | by exists x | done | congruence].
  - split; [by intros [? ?]|]. intros (Hd & _). exfalso.
    assert (is_Some (uniqueLoop inv_OperationID always ∅ is_)) as [? ?]; [|congruence].
    apply uniqueLoop_spec. split_and!; [done | apply unseen_empty | done].
Qed.

Lemma validateEvent_spec acc (l : list ProductEventRecord) :
  is_Some (loop validateEvent acc l) <->
  distinct eve_EventID l /\ distinct eve_Cursor l /\ unseen eve_EventID acc.1 l /\ unseen eve_Cursor acc.2 l.
Proof.
  revert acc. induction l as [|e l IH]; intros [es cs]; simpl.
  - split; [|eauto]. intros _. split_and!; try apply distinct_nil; intros y Hy%elem_of_nil; done.
  - rewrite !distinct_cons, !unseen_cons.
    destruct (duplicate es (eve_EventID e)) as [d1 es'] eqn:H1. destruct (duplicate cs (eve_Cursor e)) as [d2 cs'] eqn:H2.
    pose proof (duplicate_spec es (eve_EventID e)) as S1. pose proof (duplicate_spec cs (eve_Cursor e)) as S2.
    pose proof (unseen_after eve_EventID es (eve_EventID e) l) as A1.
    pose proof (unseen_after eve_Cursor cs (eve_Cursor e) l) as A2. rewrite H1 in *. rewrite H2 in *. simpl in *.
    destruct d1; [split; [by intros [? ?]|]; intros (_ & _ & (H & _) & _); by apply S1 in H|].
    destruct d2; [split; [by intros [? ?]|]; intros (_ & _ & _ & H & _); by apply S2 in H|].
    rewrite IH. simpl. rewrite A1, A2 by done. split.
    + intros (D1 & D2 & (U1 & F1) & (U2 & F2)). split_and!; auto; [by apply S1 | by apply S2].
    + intros ((D1 & F1) & (D2 & F2) & (_ & U1) & (_ & U2)). split_and!; auto.
Qed.

Lemma at_most_one_cons {A} (p : A -> Prop) x l :
  at_most_one p (x :: l) <-> at_most_one p l /\ (p x -> forall y, y ∈ l -> ~ p y).
Proof.
  split.
  - intros H. split.
    + intros i j a b Ha Hb Hpa Hpb. assert (S i = S j) by (eapply H; eauto). congruence.
    + intros Hx y [j Hj]%list_elem_of_lookup Hy. discriminate (H (S j) 0%nat y x Hj eq_refl Hy Hx).
  - intros [H Hx] [|i] [|j] a b; simpl; intros Ha Hb Hpa Hpb; simplify_eq; [done| | |f_equal; eauto].
    + exfalso. eapply Hx; [done | eapply list_elem_of_lookup_2, Hb | done].
    + exfalso. eapply Hx; [done | eapply list_elem_of_lookup_2, Ha | done].
Qed.

(** The Turn loop, from sets and a map of Sessions with a running Turn. *)
Lemma validateTurn_spec ts ps (active : gmap SessionID Z) (l : list TurnRecord) :
  (forall sid n, active !! sid = Some n -> 1 <= n) ->
  is_Some (loop validateTurn (ts, ps, active) l) <->
  distinct tur_TurnID l /\ distinct positionKey l /\ unseen tur_TurnID ts l /\ unseen positionKey ps l /\
  (forall sid, at_most_one (is_running sid) l) /\
  (forall t, t ∈ l -> tur_State t = TurnRunning -> active !! tur_SessionID t = None).
Proof.
  revert ts ps active. induction l as [|t l IH]; intros ts ps active Hact; simpl.
  - split; [|eauto]. intros _. split_and!; try apply distinct_nil; try (intros y Hy%elem_of_nil; done).
    intros sid i j x y H. by rewrite lookup_nil in H.
  - rewrite !distinct_cons, !unseen_cons. setoid_rewrite at_most_one_cons. setoid_rewrite elem_of_cons.
    destruct (duplicate ts (tur_TurnID t)) as [d1 ts'] eqn:H1. destruct (duplicate ps (positionKey t)) as [d2 ps'] eqn:H2.
    pose proof (duplicate_spec ts (tur_TurnID t)) as S1. pose proof (duplicate_spec ps (positionKey t)) as S2.
    pose proof (unseen_after tur_TurnID ts (tur_TurnID t) l) as A1.
    pose proof (unseen_after positionKey ps (positionKey t) l) as A2. rewrite H1 in *. rewrite H2 in *. simpl in *.
    destruct d1; [split; [by intros [? ?]|]; intros (_ & _ & (H & _) & _); by apply S1 in H|].
    destruct d2; [split; [by intros [? ?]|]; intros (_ & _ & _ & (H & _) & _); by apply S2 in H|].
    case_bool_decide as Hrun.
    + destruct (active !! tur_SessionID t) as [n|] eqn:Hn; simpl.
      * apply Hact in Hn as Hn1. destruct (1 <? n + 1) eqn:Hlt; [|bools; lia].
        split; [by intros [? ?]|]. intros (_ & _ & _ & _ & _ & H). rewrite (H t) in Hn; auto. done.
      * rewrite IH. 2:{ intros sid m [[_ <-]|[_ H]]%lookup_insert_Some; [lia | eauto]. }
        rewrite A1, A2 by done. setoid_rewrite lookup_insert_None. split.
        -- intros (D1 & D2 & (U1 & F1) & (U2 & F2) & Hone & Hno).
           split_and!; auto; [by apply S1 | by apply S2 | |].
           ++ intros sid. split; [apply Hone|]. intros [_ <-] y Hy [Hy1 Hy2]. destruct (Hno y Hy Hy1). congruence.
           ++ intros y [->|Hy] Hy1; [done | by apply Hno].
        -- intros ((D1 & F1) & (D2 & F2) & (_ & U1) & (_ & U2) & Hone & Hno). split_and!; auto.
           ++ intros sid. apply Hone.
           ++ intros y Hy Hy1. split; [auto|]. intros He. destruct (Hone (tur_SessionID t)) as [_ H].
              by apply (H (conj Hrun eq_refl) y Hy).
    + rewrite IH, A1, A2 by done. split.
      * intros (D1 & D2 & (U1 & F1) & (U2 & F2) & Hone & Hno). split_and!; auto; [by apply S1 | by apply S2 | |].
        -- intros sid. split; [apply Hone|]. by intros [? _].
        -- intros y [->|Hy] Hy1; [done | by apply Hno].
      * intros ((D1 & F1) & (D2 & F2) & (_ & U1) & (_ & U2) & Hone & Hno). split_and!; auto. intros sid. apply Hone.
Qed.

Lemma validateState_iff (st : RuntimeState) : validateState st = true <-> well_formed st.
Proof.
  unfold validateState. rewrite !andb_true_iff, !uniqueLoop_ok, operations_ok, !bool_decide_eq_true, validateEvent_spec.
  rewrite validateTurn_spec by (intros ? ? H; by rewrite lookup_empty in H). simpl.
  split.
  - intros H. decompose [and] H. constructor; auto.
  - intros []. split_and!; auto; try apply unseen_empty; intros; apply lookup_empty.
Qed.
