(* ===== verification/CompilerFacts.v ===== *)
(** * Compiler: what a sealed command guarantees

    A mutation is [compiled] when one of the compiler's functions returned it;
    the source's type system makes that the only way to build one.  Every
    guarantee the planner relies on is a consequence. *)

From S2P Require Import Prelude GoString Sha256 GoTime GoJson Sdk StateContract RuntimeContent StateCompiler.
From S2P Require Import StatePlanner PlannerFacts PlannerProgress.

Open Scope Z_scope.

Section compiled.
Context {content : ContentHandoffValidator}.

Inductive compiled (m : CompiledMutation) : Prop :=
| from_RegisterAgentRevision (c : RegisterAgentRevisionCommand) (_ : CompileRegisterAgentRevision c = Ok m)
| from_RegisterPolicyRevision (c : RegisterPolicyRevisionCommand) (_ : CompileRegisterPolicyRevision c = Ok m)
| from_CreateSession (c : CreateSessionCommand) (_ : CompileCreateSession c = Ok m)
| from_AdmitInput (c : AdmitInputCommand) (_ : CompileAdmitInput c = Ok m)
| from_RegisterArtifact (c : RegisterArtifactCommand) (_ : CompileRegisterArtifact c = Ok m)
| from_AppendConversation (c : AppendConversationCommand) (_ : CompileAppendConversation c = Ok m)
| from_RecordToolIntent (c : RecordToolIntentCommand) (_ : CompileRecordToolIntent c = Ok m)
| from_AdmitToolApproval (c : AdmitToolApprovalCommand) (_ : CompileAdmitToolApproval c = Ok m)
| from_RequestApproval (c : RequestApprovalCommand) (_ : CompileRequestApproval c = Ok m)
| from_DecideApproval (c : DecideApprovalCommand) (_ : CompileDecideApproval c = Ok m)
| from_ConsumeCapabilityGrant (c : ConsumeCapabilityGrantCommand) (_ : CompileConsumeCapabilityGrant c = Ok m)
| from_RevokeCapabilityGrant (c : RevokeCapabilityGrantCommand) (_ : CompileRevokeCapabilityGrant c = Ok m)
| from_ExpireCapabilityGrant (c : ExpireCapabilityGrantCommand) (_ : CompileExpireCapabilityGrant c = Ok m)
| from_DenyToolAdmission (c : DenyToolAdmissionCommand) (_ : CompileDenyToolAdmission c = Ok m)
| from_BeginToolExecution (c : BeginToolExecutionCommand) (_ : CompileBeginToolExecution c = Ok m)
| from_RecordToolExecutionOutcome (c : RecordToolExecutionOutcomeCommand) (_ : CompileRecordToolExecutionOutcome c = Ok m)
| from_BeginInvocationAttempt (c : BeginInvocationAttemptCommand) (_ : CompileBeginInvocationAttempt c = Ok m)
| from_RecordInvocationOutcome (c : RecordInvocationOutcomeCommand) (_ : CompileRecordInvocationOutcome c = Ok m)
| from_SettleTurn (c : SettleTurnCommand) (_ : CompileSettleTurn c = Ok m)
| from_CancelTurn (c : CancelTurnCommand) (_ : CompileCancelTurn c = Ok m)
| from_CloseSession (c : CloseSessionCommand) (_ : CompileCloseSession c = Ok m)
| from_CancelSession (c : CancelSessionCommand) (_ : CompileCancelSession c = Ok m)
| from_FailSession (c : FailSessionCommand) (_ : CompileFailSession c = Ok m)
| from_ClaimOutbox (c : ClaimOutboxCommand) (_ : CompileClaimOutbox c = Ok m)
| from_RenewOutbox (c : RenewOutboxCommand) (_ : CompileRenewOutbox c = Ok m)
| from_AcknowledgeOutbox (c : AcknowledgeOutboxCommand) (_ : CompileAcknowledgeOutbox c = Ok m).

(** The authority each command kind is reserved for. *)
Definition required_authority (kind : CommandKind) : Authority :=
  match kind with
  | CommandRegisterAgentRevision | CommandRegisterPolicyRevision => AuthorityTenantAdministrator
  | CommandCreateSession | CommandAdmitInput | CommandDecideApproval | CommandRevokeCapabilityGrant
  | CommandCancelTurn | CommandCloseSession | CommandCancelSession => AuthoritySessionOwner
  | CommandRegisterArtifact | CommandAppendConversation | CommandAdmitToolApproval | CommandRecordToolIntent
  | CommandRequestApproval | CommandExpireCapabilityGrant | CommandDenyToolAdmission | CommandConsumeCapabilityGrant
  | CommandBeginToolExecution | CommandRecordToolOutcome | CommandBeginInvocation | CommandRecordOutcome
  | CommandSettleTurn | CommandFailSession => AuthorityRuntimeWorker
  | CommandClaimOutbox | CommandRenewOutbox | CommandAcknowledgeOutbox => AuthorityOutboxPublisher
  end.

(** The command kind of a compiled command value, and the scope it carries. *)
Definition command_kind (c : compiledCommand) : CommandKind :=
  match c with
  | compiledRegister _ _ => CommandRegisterAgentRevision | compiledPolicy _ => CommandRegisterPolicyRevision
  | compiledCreate _ => CommandCreateSession | compiledAdmit _ _ => CommandAdmitInput
  | compiledArtifact _ _ => CommandRegisterArtifact | compiledConversation _ _ => CommandAppendConversation
  | compiledToolIntent _ _ => CommandRecordToolIntent | compiledToolApproval _ _ => CommandAdmitToolApproval
  | compiledRequestApproval _ => CommandRequestApproval | compiledDecide _ => CommandDecideApproval
  | compiledConsume _ => CommandConsumeCapabilityGrant | compiledRevoke _ => CommandRevokeCapabilityGrant
  | compiledExpire _ => CommandExpireCapabilityGrant | compiledDeny _ => CommandDenyToolAdmission
  | compiledBeginTool _ => CommandBeginToolExecution | compiledToolOutcome _ => CommandRecordToolOutcome
  | compiledBeginInvocation _ => CommandBeginInvocation | compiledOutcome _ => CommandRecordOutcome
  | compiledSettle _ => CommandSettleTurn | compiledCancelTurn _ => CommandCancelTurn
  | compiledClose _ => CommandCloseSession | compiledCancelSession _ => CommandCancelSession
  | compiledFailSession _ => CommandFailSession | compiledClaim _ => CommandClaimOutbox
  | compiledRenew _ => CommandRenewOutbox | compiledAcknowledge _ => CommandAcknowledgeOutbox
  end.

(** The tenant whose content a command commits, where it commits content. *)
Definition committed_tenant (c : compiledCommand) : option TenantID :=
  match c with
  | compiledRegister _ k => Some (asc_Tenant k)
  | compiledAdmit _ k | compiledArtifact _ k | compiledConversation _ k => Some (cmt_Tenant k)
  | _ => None
  end.

Lemma compile_Ok kind scope key shape c m :
  compile kind scope key shape c = Ok m ->
  mut_kind m = kind /\ mut_command m = c /\ validOpaque key 256 = true /\
  exists text, canonical kind scope key shape = Some text /\
    mut_receipt m = mkBinding scope key kind ("sha256:" +:+ sha256_hex text).
Proof.
  unfold compile. destruct (validOpaque key 256); [|done]. destruct (canonical _ _ _ _) as [text|]; [|done].
  intros [= <-]. eauto 10.
Qed.

Lemma validateScope_authority scope a b : validateScope scope a b = true -> sco_Authority scope = a.
Proof. unfold validateScope. repeat case_match; intros; bools; try done. Qed.

Lemma validateWorker_authority scope sid tid op :
  validateWorkerCommand scope sid tid op = true -> sco_Authority scope = AuthorityRuntimeWorker.
Proof. unfold validateWorkerCommand. intros. bools. by eapply validateScope_authority. Qed.

(** A [uint32] field of the source. *)
Definition typed_uses (c : compiledCommand) : Prop :=
  match c with
  | compiledToolApproval c _ => 0 <= cta_MaximumUses c
  | compiledRequestApproval c => 0 <= cqa_MaximumUses c
  | _ => True
  end.

(** The facts the compiler's checks establish, for every command. *)
Record sealed (m : CompiledMutation) : Prop := mkSealed {
  sealed_kind : mut_kind m = command_kind (mut_command m);
  sealed_binding : bin_Command (mut_receipt m) = mut_kind m;
  sealed_authority : sco_Authority (bin_Scope (mut_receipt m)) = required_authority (mut_kind m);
  sealed_outcome : outcome_sealed (mut_command m);
  sealed_tenant : forall t, committed_tenant (mut_command m) = Some t -> t = sco_Tenant (bin_Scope (mut_receipt m));
  sealed_key : validOpaque (bin_IdempotencyKey (mut_receipt m)) 256 = true
}.

Lemma sealed_intro kind scope key shape c m :
  compile kind scope key shape c = Ok m -> kind = command_kind c -> sco_Authority scope = required_authority kind ->
  outcome_sealed c -> (forall t, committed_tenant c = Some t -> t = sco_Tenant scope) -> sealed m.
Proof.
  intros (Hk & Hc & Hkey & text & _ & Hr)%compile_Ok -> Ha Ho Ht.
  constructor; rewrite ?Hr, ?Hc, ?Hk; simpl; done.
Qed.

Ltac sealing :=
  match goal with
  | H : compile _ _ _ _ _ = Ok _ |- _ =>
      eapply sealed_intro; [exact H | reflexivity | | try exact I | try by intros ? [=]];
      [first [by eapply validateScope_authority | by eapply validateWorker_authority]|..]
  end.

(** One case per compiler function, opened. *)
Ltac by_compiler Hm :=
  destruct Hm as [c H|c H|c H|c H|c H|c H|c H|c H|c H|c H|c H|c H|c H|c H|c H|c H|c H|c H|c H|c H|c H|c H|c H|c H|c H|c H];
    unfold CompileRegisterAgentRevision, CompileRegisterPolicyRevision, CompileCreateSession,
      CompileAdmitInput, CompileRegisterArtifact, CompileAppendConversation,
      CompileRecordToolIntent, CompileAdmitToolApproval, CompileRequestApproval,
      CompileDecideApproval, CompileConsumeCapabilityGrant, CompileRevokeCapabilityGrant,
      CompileExpireCapabilityGrant, CompileDenyToolAdmission, CompileBeginToolExecution,
      CompileRecordToolExecutionOutcome, CompileBeginInvocationAttempt,
      CompileRecordInvocationOutcome, CompileSettleTurn, CompileCancelTurn, CompileCloseSession,
      CompileCancelSession, CompileFailSession, CompileClaimOutbox, CompileRenewOutbox,
      CompileAcknowledgeOutbox in H; cbv zeta in H.

Lemma validTerminal_terminal o : validTerminal o = true -> turn_terminal (tou_State o) = true.
Proof. unfold validTerminal. by destruct (tou_State o). Qed.

Lemma compiled_sealed m : compiled m -> sealed m.
Proof.
  intros Hm. by_compiler Hm.
  all: repeat (case_match; try discriminate H); bools.
  all: try sealing.
  all: try by intros ? [= <-].
  all: simpl; unfold validOutcome in *; repeat (match goal with
         | H : andb _ _ = false |- _ => apply andb_false_iff in H as [H|H]
         | H : orb _ _ = true |- _ => apply orb_true_iff in H as [H|H]
         end; bools).
  all: try (match goal with H : ?x = _ |- ?x ∈ _ => rewrite H end; set_solver).
  by apply validTerminal_terminal.
Qed.

Lemma compiled_uses m : compiled m -> typed_uses (mut_command m) -> bounded_uses (mut_command m).
Proof.
  intros Hm. by_compiler Hm.
  all: repeat (case_match; try discriminate H); apply compile_Ok in H as (_ & Hc & _); rewrite Hc; simpl; try done.
  all: bools; simpl in *; lia.
Qed.
End compiled.
