(* ===== verification/PlannerScenario.v ===== *)
(** * Planner: a concrete run

    One tenant, one owner and one worker drive the real definitions from the
    empty state: an Agent revision, a Session, two Inputs, a tool call that is
    approved and executed, and the settlement that promotes the second Turn.
    The states are evaluated here and used as the concrete instances of the
    general theorems. *)

From Stdlib Require Import Ascii String.
From S2P Require Import Prelude GoString Sha256 GoTime GoJson Sdk StateContract RuntimeContent StateCompiler.
From S2P Require Import StatePlanner PlannerFacts PlannerProgress CompilerFacts.

Open Scope Z_scope.

(** The content store with identity 7. *)
#[export] Instance scenario_content : ContentHandoffValidator := storeValidator 7.

Definition pad16 (n : nat) : string :=
  let d := decimal (Z.of_nat n) in
  String.substring 0 (16 - String.length d) "0000000000000000" +:+ d.

Definition identifier_prefix (kind : IdentifierKind) : string :=
  match kind with
  | IdentifierAgent => agentPrefix | IdentifierRevision => agentRevisionPrefix | IdentifierSession => sessionPrefix
  | IdentifierInput => inputPrefix | IdentifierArtifact => artifactPrefix | IdentifierTurn => turnPrefix
  | IdentifierEvent => eventPrefix | IdentifierCursor => cursorPrefix | IdentifierInvocation => "invocation_"
  | IdentifierAudit => "audit_" | IdentifierOutbox => "outbox_" | IdentifierGrant => "grant_"
  end.

(** 2026-01-01T00:00:00Z plus a number of seconds. *)
Definition at_second (n : Z) : Time := mkTime ((63902822400 + n) * 1000000000) UTC.

(** The planner of the [k]-th command: fresh identifiers, one second later. *)
Definition planner_at (k : nat) : Planner :=
  mkPlanner (fun n kind => Some (identifier_prefix kind +:+ pad16 (1000 * k + n))) (at_second (Z.of_nat k)) defaultRetention.

Definition run (k : nat) (st : RuntimeState) (m : res StateError CompiledMutation) : res StateError TransitionPlan :=
  match m with
  | Ok m => Plan false (planner_at k) st m
  | Err e => Err e
  end.

Definition plan_or (r : res StateError TransitionPlan) : TransitionPlan :=
  match r with Ok p => p | Err _ => mkPlan emptyState CommandCloseSession emptyState zeroEffects zeroResult end.

Definition after (r : res StateError TransitionPlan) : RuntimeState := plan_state (plan_or r).

Definition failed {A} (r : res StateError A) : option StateError :=
  match r with Ok _ => None | Err e => Some e end.

Definition sealed_or (m : res StateError CompiledMutation) : CompiledMutation :=
  match m with
  | Ok m => m
  | Err _ => mkMutation CommandCloseSession (mkBinding zeroScope "" CommandCloseSession "")
               (compiledClose (mkCloseSessionCommand zeroScope "" ""))
  end.

(** ** Scopes, content and commands *)

Definition admin : MutationScope := mkScope "tenant-a" "" AuthorityTenantAdministrator.
Definition owner : MutationScope := mkScope "tenant-a" "alice" AuthoritySessionOwner.
Definition worker : MutationScope := mkScope "tenant-a" "alice" AuthorityRuntimeWorker.
Definition publisher : MutationScope := mkScope "tenant-a" "" AuthorityOutboxPublisher.

Definition digest_of (s : string) : string := "sha256:" +:+ sha256_hex s.

Definition handoff (kind : contentKind) (media : string) (name profile : string) (body : string) : ContentHandoff :=
  mkContentHandoff 7 "tenant-a" (mkReference (digest_of body) media (len body)) kind name profile.

Definition revision1 : AgentRevisionID := "arev_0000000000001001".
Definition session1 : SessionID := "sess_0000000000002000".
Definition turn1 : TurnID := "turn_0000000000003001".
Definition turn2 : TurnID := "turn_0000000000004001".
Definition policy_digest : string := digest_of "policy".
Definition capability_digest : string := digest_of "capability".

Definition register_agent_command : RegisterAgentRevisionCommand :=
  mkRegisterAgentRevisionCommand admin "register-1" "" 0
    (handoff contentKindAgentSpecificationBody AgentSpecificationBodyMediaTypeV1 "writer" "default" "body").
Definition register_agent : res StateError CompiledMutation := Eval vm_compute in CompileRegisterAgentRevision register_agent_command.
Definition create_session_command : CreateSessionCommand :=
  mkCreateSessionCommand owner "create-1" revision1.
Definition create_session : res StateError CompiledMutation := Eval vm_compute in CompileCreateSession create_session_command.
Definition input_command (key body : string) : AdmitInputCommand :=
  mkAdmitInputCommand owner key session1 (handoff contentKindInputEnvelope InputEnvelopeMediaTypeV1 "" "" body).
Definition input1 : res StateError CompiledMutation := Eval vm_compute in CompileAdmitInput (input_command "input-1" "hello").
Definition input2 : res StateError CompiledMutation := Eval vm_compute in CompileAdmitInput (input_command "input-2" "world").
Definition tool_approval_command : AdmitToolApprovalCommand :=
  mkAdmitToolApprovalCommand worker "approval-1" session1 turn1 "call-1" "shell" "appr_0000000000000001"
    (digest_of "action") policy_digest capability_digest "execute" "sandbox-process"
    (handoff contentKindToolActionDescriptor ToolActionDescriptorMediaTypeV1 "" "" "descriptor") 2 (at_second 3600).
Definition ask_approval : res StateError CompiledMutation := Eval vm_compute in
  CompileAdmitToolApproval tool_approval_command.
Definition approve_command : DecideApprovalCommand :=
  mkDecideApprovalCommand owner "decide-1" "appr_0000000000000001" "approved".
Definition approve : res StateError CompiledMutation := Eval vm_compute in CompileDecideApproval approve_command.
Definition grant1 : string := "grant_0000000000006000".
Definition consume_command : ConsumeCapabilityGrantCommand :=
  mkConsumeCapabilityGrantCommand worker "consume-1" grant1 "call-1" policy_digest session1 turn1.
Definition consume : res StateError CompiledMutation := Eval vm_compute in CompileConsumeCapabilityGrant consume_command.
Definition begin_tool_command : BeginToolExecutionCommand :=
  mkBeginToolExecutionCommand worker "begin-1" "call-1" grant1 session1 turn1 "operation-1".
Definition begin_tool : res StateError CompiledMutation := Eval vm_compute in CompileBeginToolExecution begin_tool_command.
Definition tool_result_command : RecordToolExecutionOutcomeCommand :=
  mkRecordToolExecutionOutcomeCommand worker "outcome-1" session1 turn1 "call-1"
    "operation-1" ToolExecutionSucceeded (Some (mkReference (digest_of "result") "text/plain" 6)) None None.
Definition tool_result : res StateError CompiledMutation := Eval vm_compute in CompileRecordToolExecutionOutcome tool_result_command.
Definition settle_command (key : string) (turn : TurnID) (sv tv : Z) : SettleTurnCommand :=
  mkSettleTurnCommand worker key session1 turn sv tv (mkTerminalOutcome "" 0 0 TurnSucceeded None) None.
Definition settle1 : res StateError CompiledMutation := Eval vm_compute in CompileSettleTurn (settle_command "settle-1" turn1 3 3).
Definition close_session_command : CloseSessionCommand :=
  mkCloseSessionCommand owner "close-1" session1.
Definition close_session : res StateError CompiledMutation := Eval vm_compute in CompileCloseSession close_session_command.
(** ** The run *)

Definition plan1 : TransitionPlan := Eval vm_compute in plan_or (run 1 emptyState register_agent).
Definition st1 : RuntimeState := Eval vm_compute in plan_state plan1.
Definition plan2 : TransitionPlan := Eval vm_compute in plan_or (run 2 st1 create_session).
Definition st2 : RuntimeState := Eval vm_compute in plan_state plan2.
Definition plan3 : TransitionPlan := Eval vm_compute in plan_or (run 3 st2 input1).
Definition st3 : RuntimeState := Eval vm_compute in plan_state plan3.
Definition plan4 : TransitionPlan := Eval vm_compute in plan_or (run 4 st3 input2).
Definition st4 : RuntimeState := Eval vm_compute in plan_state plan4.
Definition plan5 : TransitionPlan := Eval vm_compute in plan_or (run 5 st4 ask_approval).
Definition st5 : RuntimeState := Eval vm_compute in plan_state plan5.
Definition plan6 : TransitionPlan := Eval vm_compute in plan_or (run 6 st5 approve).
Definition st6 : RuntimeState := Eval vm_compute in plan_state plan6.
Definition plan7 : TransitionPlan := Eval vm_compute in plan_or (run 7 st6 consume).
Definition st7 : RuntimeState := Eval vm_compute in plan_state plan7.
Definition plan8 : TransitionPlan := Eval vm_compute in plan_or (run 8 st7 begin_tool).
Definition st8 : RuntimeState := Eval vm_compute in plan_state plan8.
Definition plan9 : TransitionPlan := Eval vm_compute in plan_or (run 9 st8 tool_result).
Definition st9 : RuntimeState := Eval vm_compute in plan_state plan9.

Definition plan10 : TransitionPlan := Eval vm_compute in plan_or (run 10 st9 settle1).
Definition st10 : RuntimeState := Eval vm_compute in plan_state plan10.

Definition turn_summary (st : RuntimeState) : list (TurnID * TurnState * Z) :=
  (fun t => (tur_TurnID t, tur_State t, tur_Version t)) <$> Turns st.

Example scenario_states :
  turn_summary st9 = [(turn1, TurnRunning, 3); (turn2, TurnQueued, 1)] /\
  turn_summary st10 = [(turn1, TurnSucceeded, 4); (turn2, TurnRunning, 2)].
Proof. split; vm_compute; reflexivity. Qed.

(** A second Input while the first Turn waits for its Approval. *)
Definition wt4 : RuntimeState := Eval vm_compute in after (run 4 st3 ask_approval).
Definition wt5 : RuntimeState := Eval vm_compute in after (run 5 wt4 input2).
Definition wt6 : RuntimeState := Eval vm_compute in after (run 6 wt5 close_session).
Definition settle2 : res StateError CompiledMutation := Eval vm_compute in
  CompileSettleTurn (settle_command "settle-2" "turn_0000000000005001" 4 1).
Definition wt7 : RuntimeState := Eval vm_compute in after (run 7 wt6 settle2).

(** Two publishers claim the same route at the same version. *)
Definition claim_command (key claimer : string) : ClaimOutboxCommand :=
  mkClaimOutboxCommand publisher key "outbox_0000000000002003" 1 claimer (at_second 600).
Definition claim1 : res StateError CompiledMutation := Eval vm_compute in CompileClaimOutbox (claim_command "claim-1" "pub-a").
Definition claim2 : res StateError CompiledMutation := Eval vm_compute in CompileClaimOutbox (claim_command "claim-2" "pub-b").
Definition plan_claim : TransitionPlan := Eval vm_compute in plan_or (run 3 st2 claim1).

(** A tool-approval command that differs from [tool_approval_command] only in its
    use bound and expiry. *)
Definition wider_approval_command : AdmitToolApprovalCommand :=
  mkAdmitToolApprovalCommand worker "approval-1" session1 turn1 "call-1" "shell" "appr_0000000000000001"
    (digest_of "action") policy_digest capability_digest "execute" "sandbox-process"
    (handoff contentKindToolActionDescriptor ToolActionDescriptorMediaTypeV1 "" "" "descriptor") 32 (at_second 86400).
Definition wider_approval : res StateError CompiledMutation := Eval vm_compute in
  CompileAdmitToolApproval wider_approval_command.
