(* ===== verification/PlannerSafety.v ===== *)
(** * Planner: safety of committed plans

    Theorems about [Plan], the only producer of state replacements: the
    replacement is well formed and is lawful progress; replays are recognised;
    and the invariants that hold in every state a history of compiled commands
    reaches. *)

From Stdlib Require Import Ascii String.
From S2P Require Import Prelude GoString Sha256 GoTime GoJson Sdk StateContract RuntimeContent StateCompiler.
From S2P Require Import StatePlanner PlannerFacts PlannerProgress PlannerTenancy PlannerWf CompilerFacts PlannerScenario.

Open Scope Z_scope.

(** A mutation the compiler returned, whose [uint32] fields are in range. *)
Definition valid_mutation {content : ContentHandoffValidator} (m : CompiledMutation) : Prop :=
  compiled m /\ typed_uses (mut_command m).

Definition mutation_tenant (m : CompiledMutation) : TenantID := sco_Tenant (bin_Scope (mut_receipt m)).

(** ** The shape of [Plan] *)

Definition planned_now (planner : Planner) : Time := normalizeTime (pla_now planner).

(** The first commit of a mutation. *)
Definition fresh_plan (planner : Planner) (prior : RuntimeState) (m : CompiledMutation) (plan : TransitionPlan) : Prop :=
  findReceipt prior (mut_receipt m) = None /\
  exists result effs s,
    execute planner (mut_receipt m) (mut_command m) (planned_now planner) (mkPstate prior 0) = (Ok (result, effs), s) /\
    let result := res_set_Kind (mut_kind m) result in
    let r := receipt planner (mut_receipt m) result (planned_now planner) in
    plan = mkPlan prior (mut_kind m) (set_Receipts (Receipts (pst_state s) ++ [r]) (pst_state s)) effs
             (res_set_Receipt r result).

(** A mutation that was committed before. *)
Definition replayed_plan (planner : Planner) (prior : RuntimeState) (m : CompiledMutation) (plan : TransitionPlan) : Prop :=
  exists r, findReceipt prior (mut_receipt m) = Some r /\ receiptExpired r (planned_now planner) = false /\
    rec_Command r = CommandKind_text (mut_kind m) /\ rec_RequestDigest r = bin_RequestDigest (mut_receipt m) /\
    plan = replayPlan prior (mut_kind m) r.

Lemma Plan_Ok cancelled planner prior m plan :
  Plan cancelled planner prior m = Ok plan ->
  bin_Command (mut_receipt m) = mut_kind m /\ IsZero (planned_now planner) = false /\
  validateState prior = true /\ validateState (plan_state plan) = true /\
  (fresh_plan planner prior m plan \/ replayed_plan planner prior m plan).
Proof.
  unfold Plan, fresh_plan, replayed_plan, planned_now. destruct cancelled; [done|].
  destruct (bool_decide (bin_Command _ = _)) eqn:Hk; [|done]. simpl.
  destruct (IsZero _) eqn:Hz; [done|]. destruct (validateState prior) eqn:Hv; [|done]. simpl.
  destruct (findReceipt prior _) as [r|] eqn:Hf.
  - destruct (receiptExpired r _) eqn:He; [done|]. case_match eqn:Hm; [done|]. bools. intros [= <-].
    split_and!; [done..|]. right. eauto 10.
  - destruct (execute _ _ _ _ _) as [[[result effs]|e] s] eqn:Hx; [|done].
    destruct (validateState (set_Receipts _ _)) eqn:Hv'; [|done]. simpl. case_match; [done|]. intros [= <-].
    bools. split_and!; [done..|]. left. split; [done|]. exists result, effs, s. by split.
Qed.

Section safety.
Context {content : ContentHandoffValidator}.

Lemma plan_progress cancelled planner prior m plan :
  valid_mutation m -> Plan cancelled planner prior m = Ok plan -> advance prior (plan_state plan).
Proof.
  intros [Hc Ht] (_ & _ & _ & _ & [(_ & result & effs & s & Hx & ->)|(r & _ & _ & _ & _ & ->)])%Plan_Ok; simpl; [|done].
  pose proof (compiled_sealed _ Hc) as Hs. pose proof (compiled_uses _ Hc Ht) as Hu.
  pose proof (execute_progress planner (mut_receipt m) (planned_now planner) _ (sealed_outcome _ Hs) Hu
    (mkPstate prior 0) _ _ Hx) as Hp.
  unfold progressP in Hp. simpl in Hp. etransitivity; [exact (progress_advance _ _ Hp)|].
  apply advance_receipts. by apply prefix_app_r.
Qed.

(** A committed plan leaves the receipts of the prior state in front. *)
Lemma execute_receipts planner m result effs s prior :
  valid_mutation m ->
  execute planner (mut_receipt m) (mut_command m) (planned_now planner) (mkPstate prior 0) = (Ok (result, effs), s) ->
  Receipts (pst_state s) = Receipts prior.
Proof.
  intros [Hc Ht] Hx. pose proof (compiled_sealed _ Hc) as Hs. pose proof (compiled_uses _ Hc Ht) as Hu.
  pose proof (execute_progress planner (mut_receipt m) (planned_now planner) _ (sealed_outcome _ Hs) Hu
    (mkPstate prior 0) _ _ Hx) as []. done.
Qed.

(** ** Histories *)

(** The states of a tenant's partition that compiled commands of the tenant reach
    from the empty state. *)
Inductive history (T : TenantID) : RuntimeState -> Prop :=
| history_empty : history T emptyState
| history_plan cancelled planner prior m plan :
    history T prior -> valid_mutation m -> mutation_tenant m = T -> Plan cancelled planner prior m = Ok plan ->
    history T (plan_state plan).

(** A record with an identity is at its index, or was added. *)
Lemma evolves_all {A B} (step : A -> A -> Prop) (init P : A -> Prop) (ident : A -> B) l l' :
  evolves step init l l' -> (forall x y, rtc step x y -> ident y = ident x) ->
  (forall x y, ident x = ident y -> P x -> P y) -> (forall x, init x -> P x) ->
  (forall x, x ∈ l -> P x) -> forall y, y ∈ l' -> P y.
Proof.
  intros (l1 & l2 & -> & H & Hn) Hid Hp Hi Hl y [Hy|Hy]%elem_of_app.
  - apply list_elem_of_lookup in Hy as [i Hy]. eapply Forall2_lookup_r in Hy as (x & Hx & Hr); [|exact H].
    eapply Hp; [symmetry; by apply Hid|]. apply Hl. by eapply list_elem_of_lookup_2.
  - rewrite Forall_forall in Hn. destruct (Hn y Hy) as (x0 & Hx0 & Hr).
    eapply Hp; [symmetry; by apply Hid|]. auto.
Qed.

(** Every record is grounded in the record it refers to. *)
Record grounded (st : RuntimeState) : Prop := mkGrounded {
  grounded_Sessions : forall s, s ∈ Sessions st -> session_pinned st s;
  grounded_Turns : forall t, t ∈ Turns st -> turn_owned st t;
  grounded_Invocations : forall i, i ∈ Invocations st -> invocation_owned st i;
  grounded_Approvals : forall a, a ∈ Approvals st -> approval_owned st a;
  grounded_Grants : forall g, g ∈ Grants st -> grant_approved st g;
  grounded_Executions : forall x, x ∈ ToolExecutions st -> execution_granted st x
}.

Lemma advance_grounded st st' : advance st st' -> grounded st -> grounded st'.
Proof.
  intros Hp [Hs Ht Hi Ha Hg Hx]. pose proof Hp as []. constructor.
  - eapply evolves_all; [eassumption | apply session_identity_rtc | | by intros x (_ & _ & ?) |
      intros; eapply session_pinned_mono; eauto].
    unfold session_identity, session_pinned. intros x y He (r & Hr & Hr'). exists r. split; [done|]. simplify_eq. congruence.
  - eapply evolves_all; [eassumption | apply turn_identity_rtc | | by intros x (_ & _ & _ & ?) |
      intros; eapply turn_owned_mono; eauto].
    unfold turn_identity, turn_owned. intros x y He (r & Hr & Hr'). exists r. split; [done|]. simplify_eq. congruence.
  - eapply evolves_all; [eassumption | apply invocation_identity_rtc | | by intros x (_ & ?) |
      intros; eapply invocation_owned_mono; eauto].
    unfold invocation_identity, invocation_owned. intros x y He (r & Hr & Hr'). exists r. split; [done|].
    simplify_eq. congruence.
  - eapply evolves_all; [eassumption | apply approval_identity_rtc | | by intros x (_ & ?) |
      intros; eapply approval_owned_mono; eauto].
    unfold approval_identity, approval_owned. intros x y He (Hb & r & Hr & Hr'). simplify_eq. split; [congruence|].
    exists r. split; [done|]. congruence.
  - eapply evolves_all; [eassumption | apply grant_identity_rtc | | by intros x (_ & _ & ?) |
      intros; eapply grant_approved_mono; eauto].
    unfold grant_identity, grant_approved. intros x y He (r & Hr & Hs' & Hr'). exists r. split_and!; [done|done|].
    simplify_eq. congruence.
  - eapply evolves_all; [eassumption | apply execution_identity_rtc | | by intros x (_ & ?) |
      intros; eapply execution_granted_mono; eauto].
    unfold execution_identity, execution_granted. intros x y He (r & Hr & Hr'). exists r. split; [done|].
    simplify_eq. congruence.
Qed.

Lemma history_grounded T st : history T st -> grounded st.
Proof.
  induction 1 as [|c pl prior m plan _ IH Hm _ Hp].
  - constructor; intros x Hx%elem_of_nil; done.
  - eapply advance_grounded; [by eapply plan_progress | done].
Qed.

Lemma history_well_formed T st : history T st -> well_formed st.
Proof.
  induction 1 as [|c pl prior m plan _ _ _ _ (_ & _ & _ & Hv & _)%Plan_Ok]; [|by apply validateState_iff].
  apply validateState_iff. vm_compute. reflexivity.
Qed.

Lemma history_tenancy T st : history T st -> tenancy T st.
Proof.
  induction 1 as [|c pl prior m plan _ IH Hm HT Hp]; [by constructor|].
  apply Plan_Ok in Hp as (_ & _ & _ & _ & [(_ & result & effs & s & Hx & ->)|(r & _ & _ & _ & _ & ->)]); simpl; [|done].
  pose proof (execute_keeps pl (mut_receipt m) (planned_now pl) T HT _ (mkPstate prior 0) IH _ _ Hx) as Hs. by keep.
Qed.

(** ** Later states *)

(** One commit of a tenant, and any number of them. *)
Inductive commit (T : TenantID) (prior : RuntimeState) : RuntimeState -> Prop :=
| commit_plan cancelled planner m plan : valid_mutation m -> mutation_tenant m = T -> Plan cancelled planner prior m = Ok plan -> commit T prior (plan_state plan).

Definition extends (T : TenantID) : RuntimeState -> RuntimeState -> Prop := rtc (commit T).

Lemma extends_advance T st st' : extends T st st' -> evolution prefix st st'.
Proof. induction 1 as [|st _ st' [c pl m plan Hm _ Hp] _ IH]; [reflexivity|]. etrans; [by eapply plan_progress|exact IH]. Qed.

Lemma extends_history T st st' : extends T st st' -> history T st -> history T st'.
Proof. induction 1 as [|st _ st' [c pl m plan Hm Ht Hp] _ IH]; [done|]. intros H. apply IH. by eapply history_plan. Qed.

Lemma extends_valid T st st' : extends T st st' -> validateState st = true -> validateState st' = true.
Proof. induction 1 as [|st _ st' [c pl m plan _ _ Hp] _ IH]; [done|]. intros _. apply IH, (Plan_Ok _ _ _ _ _ Hp). Qed.

(** A receipt stays the one that its key finds. *)
Lemma extends_receipt T st st' b r : extends T st st' -> findReceipt st b = Some r -> findReceipt st' b = Some r.
Proof.
  intros [new E]%extends_advance%pg_Receipts H. unfold findReceipt in *. rewrite E, find_index_app. by destruct (find_index _ (Receipts st)).
Qed.

(** ** Event sequences *)

Definition sequences (sid : SessionID) (l : list ProductEventRecord) : list Z :=
  eve_Sequence <$> List.filter (of_session sid) l.

(** Every Session's events are numbered 1, 2, ..., n. *)
Definition contiguous (l : list ProductEventRecord) : Prop :=
  forall sid, sequences sid l = seqZ 1 (Z.of_nat (length (sequences sid l))).

Lemma sequences_snoc sid l e :
  sequences sid (l ++ [e]) = sequences sid l ++ (if of_session sid e then [eve_Sequence e] else []).
Proof. unfold sequences. rewrite List.filter_app, fmap_app. simpl. by destruct (of_session sid e). Qed.

Lemma sequences_length sid l : (length (sequences sid l) <= length l)%nat.
Proof. unfold sequences. rewrite length_fmap. apply List.filter_length_le. Qed.

Lemma next_after_snoc {A} (p : A -> bool) v (l : list A) x :
  next_after p v (l ++ [x]) =
  if p x && (next_after p v l <=? v x) then u64 (v x + 1) else next_after p v l.
Proof. unfold next_after. by rewrite foldl_app. Qed.

Lemma next_sequence_contiguous sid l :
  sequences sid l = seqZ 1 (Z.of_nat (length (sequences sid l))) -> Z.of_nat (length (sequences sid l)) < max_u64 ->
  next_sequence sid l = Z.of_nat (length (sequences sid l)) + 1.
Proof.
  induction l as [|e l IH] using rev_ind; [done|]. unfold next_sequence. rewrite next_after_snoc, sequences_snoc.
  destruct (of_session sid e) eqn:He; simpl; rewrite ?app_nil_r; [|exact IH].
  rewrite length_app. simpl. intros Hs Hb.
  rewrite Nat.add_1_r, seqZ_S in Hs. apply app_inj_tail in Hs as [Hs Hq]. simpl in Hq.
  unfold next_sequence in IH. rewrite IH by (done || lia). rewrite Hq.
  rewrite (proj2 (Z.leb_le _ _)) by lia. rewrite u64_small by (unfold max_u64 in *; lia). lia.
Qed.

Lemma events_grow_contiguous l l' :
  events_grow l l' -> Z.of_nat (length l') <= max_u64 -> contiguous l -> contiguous l'.
Proof.
  induction 1 as [|l l' e Hg IH Hseq]; [done|]. rewrite length_app. simpl. intros Hb Hc sid.
  assert (Hc' : contiguous l') by (apply IH; [lia | done]). rewrite sequences_snoc.
  destruct (of_session sid e) eqn:He; [|rewrite !app_nil_r; apply Hc'].
  unfold of_session in He. bools. subst sid. pose proof (sequences_length (eve_SessionID e) l').
  rewrite Hseq, next_sequence_contiguous by (done || lia). rewrite length_app. simpl.
  rewrite Nat.add_1_r, seqZ_S. rewrite <- (Hc' (eve_SessionID e)). do 2 f_equal. lia.
Qed.

Lemma advance_events_length st st' : advance st st' -> (length (Events st) <= length (Events st'))%nat.
Proof. intros Hp. destruct (events_grow_prefix _ _ (pg_Events _ _ _ Hp)) as [new ->]. rewrite length_app. lia. Qed.
End safety.
