(* ===== verification/PlannerRun.v ===== *)
(** * Planner: the concrete run is a history

    Every command of the scenario was sealed by the compiler, so the states of the
    run are reachable; so are those of a second run, in which an Input arrives and
    the Session is closed while a Turn waits for its Approval. *)

From Stdlib Require Import Ascii String.
From S2P Require Import Prelude GoString Sha256 GoTime GoJson Sdk StateContract RuntimeContent StateCompiler.
From S2P Require Import StatePlanner PlannerFacts PlannerProgress PlannerWf CompilerFacts PlannerScenario PlannerSafety.

Open Scope Z_scope.

(** One more command: its planner, its plan, the history so far and its validity. *)
Tactic Notation "extend" constr(planner) constr(plan) constr(H) constr(V) :=
  apply (history_plan "tenant-a" false planner _ _ plan H V); vm_compute; reflexivity.

Tactic Notation "valid_by" uconstr(c) := split; [simple refine (c _); vm_compute; reflexivity | vm_compute; first [exact I | discriminate]].

Lemma valid_register : valid_mutation (sealed_or register_agent).
Proof. valid_by (from_RegisterAgentRevision _ register_agent_command). Qed.
Lemma valid_create : valid_mutation (sealed_or create_session).
Proof. valid_by (from_CreateSession _ create_session_command). Qed.
Lemma valid_input1 : valid_mutation (sealed_or input1).
Proof. valid_by (from_AdmitInput _ (input_command "input-1" "hello")). Qed.
Lemma valid_input2 : valid_mutation (sealed_or input2).
Proof. valid_by (from_AdmitInput _ (input_command "input-2" "world")). Qed.
Lemma valid_ask : valid_mutation (sealed_or ask_approval).
Proof. valid_by (from_AdmitToolApproval _ tool_approval_command). Qed.
Lemma valid_approve : valid_mutation (sealed_or approve).
Proof. valid_by (from_DecideApproval _ approve_command). Qed.
Lemma valid_consume : valid_mutation (sealed_or consume).
Proof. valid_by (from_ConsumeCapabilityGrant _ consume_command). Qed.
Lemma valid_begin : valid_mutation (sealed_or begin_tool).
Proof. valid_by (from_BeginToolExecution _ begin_tool_command). Qed.
Lemma valid_result : valid_mutation (sealed_or tool_result).
Proof. valid_by (from_RecordToolExecutionOutcome _ tool_result_command). Qed.
Lemma valid_settle1 : valid_mutation (sealed_or settle1).
Proof. valid_by (from_SettleTurn _ (settle_command "settle-1" turn1 3 3)). Qed.
Lemma valid_close : valid_mutation (sealed_or close_session).
Proof. valid_by (from_CloseSession _ close_session_command). Qed.
Lemma valid_settle2 : valid_mutation (sealed_or settle2).
Proof. valid_by (from_SettleTurn _ (settle_command "settle-2" "turn_0000000000005001" 4 1)). Qed.

Lemma history_st1 : history "tenant-a" st1.
Proof. extend (planner_at 1) plan1 (history_empty "tenant-a") valid_register. Qed.
Lemma history_st2 : history "tenant-a" st2.
Proof. extend (planner_at 2) plan2 history_st1 valid_create. Qed.
Lemma history_st3 : history "tenant-a" st3.
Proof. extend (planner_at 3) plan3 history_st2 valid_input1. Qed.
Lemma history_st4 : history "tenant-a" st4.
Proof. extend (planner_at 4) plan4 history_st3 valid_input2. Qed.
Lemma history_st5 : history "tenant-a" st5.
Proof. extend (planner_at 5) plan5 history_st4 valid_ask. Qed.
Lemma history_st6 : history "tenant-a" st6.
Proof. extend (planner_at 6) plan6 history_st5 valid_approve. Qed.
Lemma history_st7 : history "tenant-a" st7.
Proof. extend (planner_at 7) plan7 history_st6 valid_consume. Qed.
Lemma history_st8 : history "tenant-a" st8.
Proof. extend (planner_at 8) plan8 history_st7 valid_begin. Qed.
Lemma history_st9 : history "tenant-a" st9.
Proof. extend (planner_at 9) plan9 history_st8 valid_result. Qed.
Lemma history_st10 : history "tenant-a" st10.
Proof. extend (planner_at 10) plan10 history_st9 valid_settle1. Qed.

(** Turns that wait for an Approval. *)
Lemma history_wt4 : history "tenant-a" wt4.
Proof. extend (planner_at 4) (plan_or (run 4 st3 ask_approval)) history_st3 valid_ask. Qed.
Lemma history_wt5 : history "tenant-a" wt5.
Proof. extend (planner_at 5) (plan_or (run 5 wt4 input2)) history_wt4 valid_input2. Qed.
Lemma history_wt6 : history "tenant-a" wt6.
Proof. extend (planner_at 6) (plan_or (run 6 wt5 close_session)) history_wt5 valid_close. Qed.
Lemma history_wt7 : history "tenant-a" wt7.
Proof. extend (planner_at 7) (plan_or (run 7 wt6 settle2)) history_wt6 valid_settle2. Qed.
