(* ===== verification/PlannerTheorems.v ===== *)
(** * Planner: the theorems

    The properties of the runtime-state authority that other parts of the
    runtime rely on, each with a concrete instance from the scenario. *)

From Stdlib Require Import Ascii String.
From S2P Require Import Prelude GoString Sha256 GoTime GoJson Sdk StateContract RuntimeContent StateCompiler.
From S2P Require Import StatePlanner PlannerFacts PlannerProgress PlannerWf CompilerFacts PlannerScenario PlannerSafety PlannerRun.

Open Scope Z_scope.

(** ** Well-formedness *)

(**  [validateState] accepts exactly the well-formed states: unique
    identifiers, keys and positions, policies that carry their own digest, grants
    within bounds, and at most one running Turn per Session. *)
Theorem validateState_decides (st : RuntimeState) : validateState st = true <-> well_formed st.
Proof. apply validateState_iff. Qed.

Section theorems.
Context {content : ContentHandoffValidator}.

(** A committed plan starts from a well-formed state and replaces it by a
    well-formed state, whatever the mutation, the clock and the identifier
    source; in particular no commit leaves two running Turns in a Session. *)
Theorem plan_well_formed cancelled planner prior m plan :
  Plan cancelled planner prior m = Ok plan -> well_formed prior /\ well_formed (plan_state plan).
Proof. intros (_ & _ & Hp & Hs & _)%Plan_Ok. split; by apply validateState_iff. Qed.

(** ** Life cycles *)

(** C3: a compiled command never removes, reorders or re-identifies a Turn, and a
    Turn that has reached a terminal state (succeeded, failed, cancelled) is never
    modified again; any other Turn moves only along the Turn life cycle. *)
Theorem turns_progress cancelled planner prior m plan i t :
  valid_mutation m -> Plan cancelled planner prior m = Ok plan -> Turns prior !! i = Some t ->
  exists t', Turns (plan_state plan) !! i = Some t' /\ turn_identity t' = turn_identity t /\
    (turn_terminal (tur_State t) = true -> t' = t) /\ rtc turn_step t t'.
Proof.
  intros Hm Hp Hi. destruct (evolves_lookup _ _ _ _ _ _ (pg_Turns _ _ _ (plan_progress _ _ _ _ _ Hm Hp)) Hi) as (t' & Hi' & Hr).
  exists t'. split_and!; [done | by apply turn_identity_rtc | | done]. intros Ht.
  destruct Hr as [|x y z (_ & _ & Hmove & _) _]; [done|]. by destruct (tur_State x).
Qed.

(** A compiled command never removes or re-identifies a Session, and a Session
    that is completed, cancelled or failed keeps that state. *)
Theorem sessions_progress cancelled planner prior m plan i s :
  valid_mutation m -> Plan cancelled planner prior m = Ok plan -> Sessions prior !! i = Some s ->
  exists s', Sessions (plan_state plan) !! i = Some s' /\ session_identity s' = session_identity s /\
    (session_terminal (ses_State s) = true -> ses_State s' = ses_State s).
Proof.
  intros Hm Hp Hi.
  destruct (evolves_lookup _ _ _ _ _ _ (pg_Sessions _ _ _ (plan_progress _ _ _ _ _ Hm Hp)) Hi) as (s' & Hi' & Hr).
  exists s'. split_and!; [done | by apply session_identity_rtc|].
  clear -Hr. induction Hr as [|x y z (_ & _ & Hmove) _ IH]; [done|]. intros Ht.
  assert (Hxy : ses_State y = ses_State x).
  { unfold session_move in Hmove. case_bool_decide; [done|]. by destruct (ses_State x), (ses_State y). }
  rewrite <- Hxy. apply IH. by rewrite Hxy.
Qed.

(** An Approval is decided at most once: one that is approved, denied, expired
    or cancelled is the same record after any further command, and a pending one
    keeps its scope, action, bound and expiry. *)
Theorem approvals_decided_once cancelled planner prior m plan i a :
  valid_mutation m -> Plan cancelled planner prior m = Ok plan -> Approvals prior !! i = Some a ->
  exists a', Approvals (plan_state plan) !! i = Some a' /\ approval_identity a' = approval_identity a /\
    (app_State a <> ApprovalPending -> a' = a).
Proof.
  intros Hm Hp Hi.
  destruct (evolves_lookup _ _ _ _ _ _ (pg_Approvals _ _ _ (plan_progress _ _ _ _ _ Hm Hp)) Hi) as (a' & Hi' & Hr).
  exists a'. split_and!; [done | by apply approval_identity_rtc|]. intros Ha. by apply approval_final.
Qed.

(** The recorded outcome of an invocation or of a tool execution is final, and
    a revoked grant never changes again. *)
Theorem outcomes_final cancelled planner prior m plan :
  valid_mutation m -> Plan cancelled planner prior m = Ok plan ->
  (forall i x, Invocations prior !! i = Some x -> inv_State x <> InvocationIntent ->
     Invocations (plan_state plan) !! i = Some x) /\
  (forall i x, ToolExecutions prior !! i = Some x -> exe_State x <> ToolExecutionIntent ->
     ToolExecutions (plan_state plan) !! i = Some x) /\
  (forall i g, Grants prior !! i = Some g -> gra_RevokedAt g <> None -> Grants (plan_state plan) !! i = Some g).
Proof.
  intros Hm Hp. pose proof (plan_progress _ _ _ _ _ Hm Hp) as []. split_and!; intros i x Hi Hx.
  - destruct (evolves_lookup _ _ _ _ _ _ pg_Invocations Hi) as (y & Hy & Hr).
    destruct Hr as [|? ? ? (_ & Hs & _)]; done.
  - destruct (evolves_lookup _ _ _ _ _ _ pg_ToolExecutions Hi) as (y & Hy & Hr).
    destruct Hr as [|? ? ? (_ & Hs & _)]; done.
  - destruct (evolves_lookup _ _ _ _ _ _ pg_Grants Hi) as (y & Hy & Hr).
    destruct Hr as [|? ? ? (_ & Hs & _)]; done.
Qed.

(** The catalogues and logs are append-only: no command alters or drops a
    revision, a policy, an Input, an Artifact, a conversation entry, a tool
    intent, a receipt, a product event or an audit fact. *)
Theorem logs_append_only cancelled planner prior m plan :
  valid_mutation m -> Plan cancelled planner prior m = Ok plan ->
  let st := plan_state plan in
  Revisions prior `prefix_of` Revisions st /\ Policies prior `prefix_of` Policies st /\
  Inputs prior `prefix_of` Inputs st /\ Artifacts prior `prefix_of` Artifacts st /\
  Conversations prior `prefix_of` Conversations st /\ ToolIntents prior `prefix_of` ToolIntents st /\
  Receipts prior `prefix_of` Receipts st /\ Audit prior `prefix_of` Audit st /\ Events prior `prefix_of` Events st.
Proof.
  intros Hm Hp. pose proof (plan_progress _ _ _ _ _ Hm Hp) as []. simpl. split_and!; try done.
  destruct (events_grow_prefix _ _ pg_Events) as [new ->]. by apply prefix_app_r.
Qed.

(** C10: in every reachable state (of at most 2^64-1 events) the product events of
    each Session carry the sequence numbers 1, 2, ..., n in order, without gap or
    repetition. *)
Theorem events_contiguous (T : TenantID) (st : RuntimeState) :
  history T st -> Z.of_nat (length (Events st)) <= max_u64 ->
  forall sid, sequences sid (Events st) = seqZ 1 (Z.of_nat (length (sequences sid (Events st)))).
Proof.
  induction 1 as [|c pl prior m plan _ IH Hm _ Hp]; [done|]. intros Hb.
  pose proof (plan_progress _ _ _ _ _ Hm Hp) as Hpr. apply advance_events_length in Hpr as Hl.
  eapply events_grow_contiguous; [exact (pg_Events _ _ _ Hpr) | done|]. intros sid. apply IH. lia.
Qed.

(** C1: in every reachable state each tool execution runs under a grant for the
    same owner, Session, Turn and tool call, and each such grant was created by an
    Approval the owner approved, with that Approval's capability, policy revision,
    expiry and use bound (between 1 and 32). *)
Theorem executions_authorized (T : TenantID) (st : RuntimeState) (x : ToolExecutionRecord) :
  history T st -> x ∈ ToolExecutions st ->
  exists g a, g ∈ Grants st /\ a ∈ Approvals st /\ gra_GrantID g = exe_GrantID x /\ app_State a = ApprovalApproved /\
    (app_Tenant a, app_Principal a, app_SessionID a, app_TurnID a, app_ToolCallID a) =
    (exe_Tenant x, exe_Principal x, exe_SessionID x, exe_TurnID x, exe_ToolCallID x) /\
    (gra_CapabilityDigest g, gra_PolicyRevisionDigest g, gra_ExpiresAt g, gra_MaximumUses g) =
    (app_CapabilityDigest a, app_PolicyRevisionDigest a, app_ExpiresAt a, app_MaximumUses a) /\
    0 < gra_MaximumUses g <= 32.
Proof.
  intros H Hx. pose proof (history_grounded _ _ H) as []. destruct (grounded_Executions x Hx) as (g & Hg & He).
  destruct (grounded_Grants g Hg) as (a & Ha & Hs & Hag). destruct (grounded_Approvals a Ha) as (Hb & _).
  exists g, a. simplify_eq. split_and!; congruence || lia.
Qed.

(** In every reachable state each Turn belongs to a Session of the same
    tenant and principal, each Session is pinned to a revision registered for its
    tenant, and each invocation and Approval belongs to a Turn of the same owner. *)
Theorem ownership_grounded (T : TenantID) (st : RuntimeState) :
  history T st ->
  (forall t, t ∈ Turns st -> turn_owned st t) /\ (forall s, s ∈ Sessions st -> session_pinned st s) /\
  (forall i, i ∈ Invocations st -> invocation_owned st i) /\ (forall a, a ∈ Approvals st -> approval_owned st a).
Proof. intros H. pose proof (history_grounded _ _ H) as []. auto. Qed.

(** ** Idempotency *)

(** The receipt a plan leaves in the state is the one a replay finds. *)
Lemma committed_receipt cancelled planner prior m plan :
  valid_mutation m -> Plan cancelled planner prior m = Ok plan ->
  findReceipt (plan_state plan) (mut_receipt m) = Some (res_Receipt (plan_result plan)) /\
  rec_Command (res_Receipt (plan_result plan)) = CommandKind_text (mut_kind m) /\
  rec_RequestDigest (res_Receipt (plan_result plan)) = bin_RequestDigest (mut_receipt m).
Proof.
  intros Hm (Hk & _ & _ & _ & [(Hf & result & effs & s & Hx & ->)|(r & Hf & _ & Hc & Hd & ->)])%Plan_Ok; simpl; [|done].
  rewrite Hk. split_and!; [|done|done].
  assert (Hr : Receipts (pst_state s) = Receipts prior) by (by eapply execute_receipts).
  unfold findReceipt in *. simpl. rewrite Hr, find_index_app.
  destruct (find_index _ (Receipts prior)) as [[i r]|]; [done|]. simpl.
  unfold receipt_matches. simpl. by rewrite !bool_decide_eq_true_2.
Qed.

(** C2: committing a mutation makes its idempotency key final.  A later mutation
    with the same scope and key, planned by any planner at any valid time, on the committed
    state or on any state that further commits of the tenant lead to, (1) is refused as
    expired once the receipt's retention has passed; (2) otherwise conflicts if its command
    kind or request digest differs; (3) otherwise replays: the state is unchanged, there are
    no effects, and the receipt is the committed one. *)
Theorem idempotency_key_final cancelled planner prior m plan st planner' m' :
  valid_mutation m -> Plan cancelled planner prior m = Ok plan -> extends (mutation_tenant m) (plan_state plan) st ->
  bin_Command (mut_receipt m') = mut_kind m' -> IsZero (planned_now planner') = false ->
  bin_Scope (mut_receipt m') = bin_Scope (mut_receipt m) ->
  bin_IdempotencyKey (mut_receipt m') = bin_IdempotencyKey (mut_receipt m) ->
  let r := res_Receipt (plan_result plan) in
  Plan false planner' st m' =
    if receiptExpired r (planned_now planner') then Err ErrReceiptExpired
    else if (CommandKind_text (mut_kind m) ≠? CommandKind_text (mut_kind m')) ||
            (bin_RequestDigest (mut_receipt m) ≠? bin_RequestDigest (mut_receipt m')) then Err ErrConflict
    else Ok (replayPlan st (mut_kind m') r).
Proof.
  intros Hm Hp He Hk' Hz Hs Hkey r. subst r. destruct (committed_receipt _ _ _ _ _ Hm Hp) as (Hf & Hc & Hd).
  apply (extends_receipt _ _ _ _ _ He) in Hf. apply Plan_Ok in Hp as (_ & _ & _ & Hv & _). apply (extends_valid _ _ _ He) in Hv.
  unfold Plan. fold (planned_now planner'). rewrite Hk', bool_decide_eq_true_2, Hz, Hv by done. simpl.
  replace (findReceipt st (mut_receipt m')) with (Some (res_Receipt (plan_result plan))).
  - by rewrite Hc, Hd.
  - rewrite <- Hf. unfold findReceipt, receipt_matches. by rewrite Hs, Hkey.
Qed.

(** ** Serial execution of Turns *)

Lemma promote_go_min sid l i best :
  match promote_go sid i best l with
  | None => best = None /\ forall t, t ∈ l -> tur_SessionID t = sid -> tur_State t <> TurnQueued
  | Some (j, z) =>
      (forall t, t ∈ l -> tur_SessionID t = sid -> tur_State t = TurnQueued -> z <= tur_Position t) /\
      (forall k y, best = Some (k, y) -> z <= y)
  end.
Proof.
  revert i best. induction l as [|t l IH]; intros i best; simpl.
  - destruct best as [[k y]|]; split; try done; try (intros t Ht%elem_of_nil; done). intros k' y' [= -> ->]. lia.
  - specialize (IH (S i) (if (tur_SessionID t ≟ sid) && (tur_State t ≟ TurnQueued) &&
       match best with None => true | Some (_, position) => tur_Position t <? position end
       then Some (i, tur_Position t) else best)).
    destruct (promote_go sid (S i) _ l) as [[j z]|].
    + destruct IH as [IH1 IH2]. case_match eqn:Hm.
      * bools. split.
        -- intros u [->|Hu]%elem_of_cons; eauto.
        -- intros k y ->. specialize (IH2 _ _ eq_refl). bools. lia.
      * split; [|done]. intros u [->|Hu]%elem_of_cons Hs Hq; [|eauto].
        rewrite !bool_decide_eq_true_2 in Hm by done. simpl in Hm. destruct best as [[k y]|]; [|done]. bools.
        specialize (IH2 _ _ eq_refl). lia.
    + destruct IH as [IH1 IH2]. case_match eqn:Hm; [done|]. subst best. split; [done|].
      intros u [->|Hu]%elem_of_cons Hs Hq; [|by eapply IH2].
      by rewrite !bool_decide_eq_true_2 in Hm.
Qed.

(**  [promote] starts the queued Turn of the Session with the lowest position
    and touches nothing else; it starts none exactly when the Session has no queued
    Turn. *)
Theorem promote_first_queued (sid : SessionID) (now : Time) (st : RuntimeState) (n : nat) :
  match promote sid now (mkPstate st n) with
  | (Ok (Some p), s) => exists i t, Turns st !! i = Some t /\ tur_SessionID t = sid /\ tur_State t = TurnQueued /\
      (forall u, u ∈ Turns st -> tur_SessionID u = sid -> tur_State u = TurnQueued -> tur_Position t <= tur_Position u) /\
      p = promoted now t /\ pst_state s = set_Turns (<[i := p]> (Turns st)) st
  | (Ok None, s) => pst_state s = st /\
      forall u, u ∈ Turns st -> tur_SessionID u = sid -> tur_State u <> TurnQueued
  | (Err _, _) => False
  end.
Proof.
  unfold promote, mbind, P_bind, M_bind, state. simpl. pose proof (promote_go_min sid (Turns st) 0 None) as Hmin.
  destruct (promote_go sid 0 None (Turns st)) as [[i z]|] eqn:Hgo; simpl; [|by destruct Hmin].
  destruct (promote_go_spec _ _ _ _ _ _ Hgo) as [[=]|(k & t & -> & Hk & Hs & Hq & Hz)]. simpl.
  rewrite Hk. simpl. exists k, t. subst z. by destruct Hmin.
Qed.

(** What a settlement does: the running Turn and Session the command addresses
    are replaced by the results, and a promoted Turn is the one queued Turn that
    changed. *)
Definition settled (st : RuntimeState) (binding : ReceiptBinding) (c : SettleTurnCommand) (now : Time)
    (result : PlanResult) (st' : RuntimeState) : Prop :=
  exists i t j x,
    findTurn st (bin_Scope binding) (cst_SessionID c) (cst_TurnID c) = Some (i, t) /\
    findSession st (bin_Scope binding) (cst_SessionID c) = Some (j, x) /\
    tur_State t = TurnRunning /\ tur_Version t = cst_ExpectedTurnVersion c /\
    ses_Version x = cst_ExpectedSessionVersion c /\
    outboxLeaseFenceCurrent st (sco_Tenant (bin_Scope binding)) (cst_LeaseFence c) now = true /\
    res_Turn result = tur_set_CompletedAt (Some now) (tur_set_Failure (tou_Failure (cst_Outcome c))
                        (moved (tou_State (cst_Outcome c)) t)) /\
    Sessions st' = <[j := res_Session result]> (Sessions st) /\
    match res_Promoted result with
    | Some p => ses_State (res_Session result) = ses_State x /\
        exists k q, <[i := res_Turn result]> (Turns st) !! k = Some q /\ tur_SessionID q = ses_SessionID x /\
          tur_State q = TurnQueued /\ p = promoted now q /\ Turns st' = <[k := p]> (<[i := res_Turn result]> (Turns st))
    | None => Turns st' = <[i := res_Turn result]> (Turns st) /\
        ses_State (res_Session result) = if ses_State x ≟ SessionClosing then SessionCompleted else ses_State x
    end.

Lemma quiet_collections st st' :
  quiet st st' -> Turns st' = Turns st /\ Sessions st' = Sessions st /\ Inputs st' = Inputs st.
Proof. by intros (evs & new & out & -> & _). Qed.

(** Settling commits exactly the outcome of the command: only a running Turn
    whose version, Session version and Outbox lease match is settled; it becomes
    terminal with the given state and failure; a queued Turn of the Session is
    started if there is one, and otherwise a closing Session completes; no other
    Turn or Session changes. *)
Theorem settle_commits planner binding c now s result effs s' :
  settle planner binding c now s = (Ok (result, effs), s') ->
  settled (pst_state s) binding c now result (pst_state s').
Proof.
  cut (wp (settle planner binding c now) s (fun re s' => settled (pst_state s) binding c now re.1 (pst_state s'))).
  { intros Hwp H. exact (Hwp _ _ H). }
  unfold settle. wp_run. bools. apply wp_inspect.
  { case_bool_decide; [by apply wpP_ret|]. case_match; [case_match|]; wp_run; done. }
  intros gap. wp_run. apply wp_promote; [|intros k q Hk Hsid Hqd _]; wp_walk; simpl in *;
    match goal with H : routed _ _ _ _ |- _ => apply routed_quiet, quiet_collections in H as (HT & HS & _) end;
    (eexists _, _, _, _; split_and!; [eassumption | eassumption | done | lia | lia | done | done | by rewrite HS | simpl]).
  - split; [by rewrite HT|]. repeat case_bool_decide; simpl in *; done.
  - split; [done|]. exists k, q. split_and!; [exact Hk | exact Hsid | exact Hqd | done | by rewrite HT].
Qed.

(** ** Outbox leases *)

(** The record and version a lease command is fenced to. *)
Definition lease_target (c : compiledCommand) : option (OutboxID * Z) :=
  match c with
  | compiledClaim c => Some (cco_OutboxID c, cco_ExpectedVersion c)
  | compiledRenew c => Some (cro_OutboxID c, cro_ExpectedVersion c)
  | compiledAcknowledge c => Some (cao_OutboxID c, cao_ExpectedVersion c)
  | _ => None
  end.

Definition out_key (tenant : TenantID) (id : OutboxID) (r : OutboxRecord) : bool :=
  (out_Tenant r ≟ tenant) && (out_OutboxID r ≟ id).

Lemma out_key_core tenant id r r' : out_core r' = out_core r -> out_key tenant id r' = out_key tenant id r.
Proof. unfold out_core, out_key. intros [= -> _ ->]. done. Qed.

Lemma find_index_put tenant id l i r r' :
  find_index (out_key tenant id) l = Some (i, r) -> out_core r' = out_core r ->
  find_index (out_key tenant id) (<[i := r']> l) = Some (i, r').
Proof.
  intros (Hi & Hk & Hlt)%find_index_Some Hc. apply find_index_intro.
  - apply list_lookup_insert_eq. by eapply lookup_lt_Some.
  - by rewrite (out_key_core _ _ r).
  - intros j y Hj. rewrite list_lookup_insert_ne by lia. eauto.
Qed.

Lemma find_index_grow tenant id l l' i r :
  outbox_grow l l' -> find_index (out_key tenant id) l = Some (i, r) ->
  exists r', find_index (out_key tenant id) l' = Some (i, r') /\ out_lease r' = out_lease r.
Proof.
  intros Hg (Hi & Hk & Hlt)%find_index_Some. destruct (evolves_lookup _ _ _ _ _ _ Hg Hi) as (r' & Hi' & Hr).
  assert (Hc : forall x y, rtc outbox_correlation x y -> out_core y = out_core x /\ out_lease y = out_lease x).
  { clear. induction 1 as [|x y z [Hxy Hl] _ [IH1 IH2]]; [done|]. by rewrite IH1, IH2. }
  destruct (Hc _ _ Hr) as [Hcore Hlease]. exists r'. split; [|done]. apply find_index_intro; [done | |].
  - by rewrite (out_key_core _ _ r).
  - intros j y Hj Hy. destruct (lookup_lt_is_Some_2 l j) as [z Hz].
    { apply lookup_lt_Some in Hi. lia. }
    destruct (evolves_lookup _ _ _ _ _ _ Hg Hz) as (y' & Hy' & Hrz). simplify_eq.
    rewrite (out_key_core _ _ z) by (by apply Hc). eauto.
Qed.

Lemma u64_succ_ne v : u64 (v + 1) <> v.
Proof.
  unfold u64. intros H. pose proof (Z.div_mod (v + 1) (2 ^ 64) ltac:(lia)) as Hd. rewrite H in Hd.
  assert (H1 : 2 ^ 64 * ((v + 1) / 2 ^ 64) = 1) by lia. destruct (Z.mul_eq_1 _ _ H1); lia.
Qed.

Lemma lease_written tenant id i r r' v st st' :
  findOutbox st tenant id = Some (i, r) -> (out_Version r =? v) = true ->
  quiet (set_Outbox (<[i := r']> (Outbox st)) st) st' ->
  out_core r' = out_core r -> out_Version r' = u64 (out_Version r + 1) ->
  exists j x, findOutbox st' tenant id = Some (j, x) /\ out_Version x <> v.
Proof.
  intros Hf Hv%Z.eqb_eq (evs & new & out & -> & _ & Hg) Hc Hr.
  destruct (find_index_grow tenant id _ _ i r' Hg) as (x & Hx & Hl); [by apply (find_index_put _ _ _ _ r)|].
  exists i, x. split; [exact Hx|]. unfold out_lease in Hl. injection Hl as _ _ _ ->. rewrite Hr, Hv. apply u64_succ_ne.
Qed.

(** A successful lease command advances the version of its record. *)
Lemma lease_advances planner binding c now id v s :
  lease_target c = Some (id, v) ->
  wp (execute planner binding c now) s (fun _ s' => exists i r,
    findOutbox (pst_state s') (sco_Tenant (bin_Scope binding)) id = Some (i, r) /\ out_Version r <> v).
Proof.
  intros Ht. destruct c; try done; simpl in *; simplify_eq; unfold claim, renew, acknowledge; wp_walk; bools;
    (eapply lease_written; [eassumption | eassumption | exact Hq | done | done]).
Qed.

Lemma lease_stale planner binding c now id v st n i r :
  lease_target c = Some (id, v) -> findOutbox st (sco_Tenant (bin_Scope binding)) id = Some (i, r) ->
  out_Version r <> v -> (execute planner binding c now (mkPstate st n)).1 = Err ErrConflict.
Proof.
  intros Ht Hf Hv. apply Z.eqb_neq in Hv.
  destruct c; try done; simpl in *; simplify_eq;
    unfold claim, renew, acknowledge, require, mbind, P_bind, M_bind, state; simpl; rewrite Hf; simpl;
    unfold mret, P_ret, M_ret; by rewrite Hv.
Qed.

(** An Outbox version is consumed by the first lease command that commits at
    it.  Once a claim, renewal or acknowledgement at expected version v has
    committed, any later claim, renewal or acknowledgement of that record at the
    same expected version conflicts, whoever issues it. *)
Theorem lease_version_consumed cancelled planner prior m plan planner' m' id v :
  valid_mutation m -> Plan cancelled planner prior m = Ok plan -> findReceipt prior (mut_receipt m) = None ->
  lease_target (mut_command m) = Some (id, v) -> lease_target (mut_command m') = Some (id, v) ->
  sco_Tenant (bin_Scope (mut_receipt m')) = sco_Tenant (bin_Scope (mut_receipt m)) ->
  bin_Command (mut_receipt m') = mut_kind m' -> IsZero (planned_now planner') = false ->
  findReceipt (plan_state plan) (mut_receipt m') = None ->
  Plan false planner' (plan_state plan) m' = Err ErrConflict.
Proof.
  intros Hm Hp Hf Ht Ht' Hs Hk' Hz Hf'. pose proof Hp as (_ & _ & _ & Hv & [(_ & result & effs & s & Hx & ->)|(r & Hr & _)])%Plan_Ok;
    [|congruence].
  destruct (lease_advances _ _ _ _ _ _ _ Ht _ _ Hx) as (i & r & Ho & Hver). simpl in *.
  unfold Plan. fold (planned_now planner'). rewrite Hk', bool_decide_eq_true_2, Hz, Hv, Hf' by done. simpl.
  match goal with |- context [execute ?p ?b ?c ?n ?st] =>
    pose proof (lease_stale p b c n id v (pst_state st) (pst_allocated st) i r Ht') as Hst;
    destruct (execute p b c n st) as [[[? ?]|e] s2] eqn:He end; simpl in Hst; rewrite He in Hst; simpl in Hst.
  - rewrite Hs in Hst. discriminate (Hst Ho Hver).
  - rewrite Hs in Hst. specialize (Hst Ho Hver). congruence.
Qed.

(** ** Admission and the end of a Session *)

Lemma foldl_next_above {A} (p : A -> bool) (v : A -> Z) (l : list A) n :
  (forall y, y ∈ l -> 0 <= v y < max_u64) ->
  let n' := foldl (fun n y => if p y && (n <=? v y) then u64 (v y + 1) else n) n l in
  n <= n' /\ forall y, y ∈ l -> p y = true -> v y < n'.
Proof.
  revert n. induction l as [|z l IH]; intros n Hv; simpl; [split; [lia | by intros y ?%elem_of_nil]|].
  destruct (IH (if p z && (n <=? v z) then u64 (v z + 1) else n) ltac:(intros; apply Hv; by right)) as [Hle Hlt].
  assert (Hz : n <= (if p z && (n <=? v z) then u64 (v z + 1) else n) /\
               (p z = true -> v z < if p z && (n <=? v z) then u64 (v z + 1) else n)).
  { specialize (Hv z ltac:(left)). unfold max_u64 in Hv.
    destruct (p z) eqn:Hpz; simpl; [|split; [lia | done]].
    destruct (Z.leb_spec n (v z)); [|split; [lia | intros _; lia]].
    unfold u64. rewrite Z.mod_small by lia. split; [lia | intros _; lia]. }
  split; [lia|]. intros y [->|Hy]%elem_of_cons Hpy; [destruct Hz as [_ Hz]; specialize (Hz Hpy); lia | by apply Hlt].
Qed.

Lemma next_after_above {A} (p : A -> bool) (v : A -> Z) (l : list A) x :
  (forall y, y ∈ l -> 0 <= v y < max_u64) -> x ∈ l -> p x = true -> v x < next_after p v l.
Proof. intros Hv. by apply foldl_next_above. Qed.

(** What an admission does to the Inputs and Turns. *)
Definition input_queued (st : RuntimeState) (binding : ReceiptBinding) (c : AdmitInputCommand) (k : ContentCommitment)
    (input : InputRecord) (t : TurnRecord) (st' : RuntimeState) : Prop :=
  (exists j x, findSession st (bin_Scope binding) (cai_SessionID c) = Some (j, x) /\ ses_State x = SessionOpen /\
     tur_SessionID t = ses_SessionID x) /\
  Inputs st' = Inputs st ++ [input] /\ inp_InputID input = tur_InputID t /\ inp_Content input = cmt_Reference k /\
  Turns st' = Turns st ++ [t] /\
  (forall u, u ∈ Turns st -> tur_SessionID u = tur_SessionID t -> tur_Position u < tur_Position t) /\
  tur_State t = (if existsb (running_in (tur_SessionID t)) (Turns st) then TurnQueued else TurnRunning).

(** An admitted Input is queued behind every Turn of its Session: it is
    accepted only by an open Session of the caller, adds exactly one Input, with
    the committed content, and one Turn for it, at a position above all the
    Session's Turns; the Turn starts at once exactly when no Turn of the Session is
    running. *)
Theorem input_queued_behind planner binding c k now s result effs s' :
  admit_input planner binding c k now s = (Ok (result, effs), s') ->
  (forall t, t ∈ Turns (pst_state s) -> 0 <= tur_Position t < max_u64) ->
  input_queued (pst_state s) binding c k (res_Input result) (res_Turn result) (pst_state s').
Proof.
  intros H Hb. revert H.
  cut (wp (admit_input planner binding c k now) s
         (fun re s' => input_queued (pst_state s) binding c k (res_Input re.1) (res_Turn re.1) (pst_state s'))).
  { intros Hwp H. exact (Hwp _ _ H). }
  unfold admit_input. wp_walk. bools. apply routed_quiet, quiet_collections in Hq as (HT & _ & HI). simpl in *.
  unfold input_queued. rewrite HT, HI. simpl. split_and!; try done; [by eexists _, _|].
  intros u Hu Hs. apply next_after_above; [done | done |]. by apply bool_decide_eq_true_2.
Qed.

(** What ending a Session does: the caller's own Session, with no queued, running
    or waiting Turn, takes the final state, and no other Session and no Turn
    changes. *)
Definition ended_as (final : SessionState) (from : list SessionState) (st : RuntimeState) (binding : ReceiptBinding)
    (sid : SessionID) (result : PlanResult) (st' : RuntimeState) : Prop :=
  exists j x, findSession st (bin_Scope binding) sid = Some (j, x) /\ ses_State x ∈ from /\
    (forall t, t ∈ Turns st -> tur_SessionID t = ses_SessionID x -> pending_state (tur_State t) = false) /\
    ses_State (res_Session result) = final /\ session_identity (res_Session result) = session_identity x /\
    Sessions st' = <[j := res_Session result]> (Sessions st) /\ Turns st' = Turns st.

Lemma hasPending_false st sid t :
  hasPending st sid = false -> t ∈ Turns st -> tur_SessionID t = sid -> pending_state (tur_State t) = false.
Proof.
  intros H Ht Hs. pose proof (existsb_false _ _ _ H Ht) as Hp. simpl in Hp.
  by rewrite bool_decide_eq_true_2 in Hp.
Qed.

(** A Session ends only when it has drained: cancelling or failing a Session
    succeeds only for an open or closing Session of the caller with no queued,
    running or waiting Turn, and closing one that still has unfinished Turns leaves it closing
    rather than completed. *)
Theorem session_ends_drained planner binding now s result effs s' :
  (forall c, cancelSession planner binding c now s = (Ok (result, effs), s') ->
     ended_as SessionCancelled [SessionOpen; SessionClosing] (pst_state s) binding (cca_SessionID c) result (pst_state s')) /\
  (forall c, failSession planner binding c now s = (Ok (result, effs), s') ->
     ended_as SessionFailed [SessionOpen; SessionClosing] (pst_state s) binding (cfs_SessionID c) result (pst_state s')) /\
  (forall c, close planner binding c now s = (Ok (result, effs), s') ->
     ses_State (res_Session result) = SessionClosing \/
     ended_as SessionCompleted [SessionOpen] (pst_state s) binding (ccl_SessionID c) result (pst_state s')).
Proof.
  assert (Hend : forall sid final kind, wp (endSession planner binding sid final kind now) s (fun re s' =>
    ended_as final [SessionOpen; SessionClosing] (pst_state s) binding sid re.1 (pst_state s'))).
  { intros sid final kind. unfold endSession. wp_walk. bools.
    apply routed_quiet, quiet_collections in Hq as (HT & HS & _). simpl in *.
    eexists _, _. split_and!; [eassumption | | | done | done | done | done].
    - destruct (ses_State s0); bools; set_solver.
    - intros t Ht Hs. by eapply hasPending_false. }
  split_and!; [intros c H; exact (Hend _ _ _ _ _ H) | intros c H; exact (Hend _ _ _ _ _ H) |].
  intros c. cut (wp (close planner binding c now) s (fun re s' => ses_State (res_Session re.1) = SessionClosing \/
    ended_as SessionCompleted [SessionOpen] (pst_state s) binding (ccl_SessionID c) re.1 (pst_state s'))).
  { intros Hwp H. exact (Hwp _ _ H). }
  unfold close. wp_walk. bools. apply routed_quiet, quiet_collections in Hq as (HT & HS & _). simpl in *.
  destruct (hasPending (pst_state s) (ses_SessionID s0)) eqn:Hp; [by left | right].
  eexists _, _. split_and!; [eassumption | | | done | done | done | done].
  - rewrite Hg. set_solver.
  - intros t Ht Hs. by eapply hasPending_false.
Qed.

(** ** The compiler *)


(** C40: the request digest of a tool-approval command covers only the scope, the
    key and the descriptor's content: two commands that agree on these receive the
    same receipt binding, even when they ask for different Sessions, Turns, tool
    calls, capabilities, use bounds or expiries, so the second is answered by
    replaying the first. *)
Theorem tool_approval_digest_collides c c' m m' :
  CompileAdmitToolApproval c = Ok m -> CompileAdmitToolApproval c' = Ok m' ->
  cta_Scope c = cta_Scope c' -> cta_IdempotencyKey c = cta_IdempotencyKey c' -> cta_Descriptor c = cta_Descriptor c' ->
  mut_receipt m = mut_receipt m' /\ mut_kind m = mut_kind m'.
Proof.
  unfold CompileAdmitToolApproval. simpl. intros H H' Hs Hk Hd. rewrite Hd in H.
  destruct (checkToolActionDescriptor _) as [k|]; [|done].
  case_match; [done|]. case_match; [done|]. apply compile_Ok in H as (-> & _ & _ & text & Ht & ->).
  apply compile_Ok in H' as (-> & _ & _ & text' & Ht' & ->). rewrite Hs, Hk in Ht. simplify_eq. by rewrite Hs, Hk.
Qed.
End theorems.

(** ** Turns that wait for an Approval *)

(** A Turn that waits for its Approval does not count as active.  There is a
    reachable state in which an Input admitted during the wait has started a second
    Turn of the Session, and there the owner's approval of the first Turn's request
    fails as an integrity error instead of resuming it. *)
Theorem waiting_turn_overtaken :
  exists st, history "tenant-a" st /\
    turn_summary st = [(turn1, TurnWaitingForApproval, 2); ("turn_0000000000005001", TurnRunning, 1)] /\
    Plan false (planner_at 6) st (sealed_or approve) = Err ErrIntegrity.
Proof. exists wt5. split_and!; [apply history_wt5 | vm_compute; reflexivity | vm_compute; reflexivity]. Qed.

(** Settling does not wait for Turns that wait for an Approval.  There is a
    reachable state with a completed Session that still has such a Turn, so a
    completed Session need not have drained. *)
Theorem completed_session_undrained :
  exists st, history "tenant-a" st /\ (ses_State <$> Sessions st) = [SessionCompleted] /\ hasPending st session1 = true.
Proof. exists wt7. split_and!; [apply history_wt7 | vm_compute; reflexivity | vm_compute; reflexivity]. Qed.

(** ** The theorems at work *)

Ltac by_run := vm_compute; reflexivity.

Lemma settle1_planned : Plan false (planner_at 10) st9 (sealed_or settle1) = Ok plan10.
Proof. by_run. Qed.

Lemma plan_well_formed_witness : well_formed st9 /\ well_formed (plan_state plan10).
Proof. apply (plan_well_formed false (planner_at 10) st9 (sealed_or settle1) plan10). by_run. Defined.

Lemma turns_progress_witness : exists t t', Turns st9 !! 0%nat = Some t /\ tur_State t = TurnRunning /\
  Turns (plan_state plan10) !! 0%nat = Some t' /\ tur_State t' = TurnSucceeded /\ turn_identity t' = turn_identity t.
Proof.
  destruct (turns_progress false (planner_at 10) st9 (sealed_or settle1) plan10 0 (nth 0 (Turns st9) zeroTurnRecord)
    valid_settle1 settle1_planned eq_refl) as (t' & Ht' & Hid & _).
  eexists _, t'. split_and!; [by_run | by_run | exact Ht' | | exact Hid].
  assert (Hs : tur_State <$> Turns (plan_state plan10) !! 0%nat = Some TurnSucceeded) by by_run.
  rewrite Ht' in Hs. by injection Hs.
Defined.

Lemma sessions_progress_witness : exists s s', Sessions st9 !! 0%nat = Some s /\
  Sessions (plan_state plan10) !! 0%nat = Some s' /\ session_identity s' = session_identity s.
Proof.
  destruct (sessions_progress false (planner_at 10) st9 (sealed_or settle1) plan10 0 (nth 0 (Sessions st9) zeroSessionRecord)
    valid_settle1 settle1_planned eq_refl) as (s' & Hs' & Hid & _).
  eexists _, s'. split_and!; [by_run | exact Hs' | exact Hid].
Defined.

Lemma approvals_decided_once_witness : exists a, Approvals st9 !! 0%nat = Some a /\ app_State a = ApprovalApproved /\
  Approvals (plan_state plan10) !! 0%nat = Some a.
Proof.
  destruct (approvals_decided_once false (planner_at 10) st9 (sealed_or settle1) plan10 0 (nth 0 (Approvals st9) zeroApprovalRecord)
    valid_settle1 settle1_planned eq_refl) as (a' & Ha' & _ & Hfinal).
  eexists _. split_and!; [by_run | by_run |]. rewrite Ha'. f_equal. apply Hfinal. vm_compute. discriminate.
Defined.

Lemma outcomes_final_witness : exists x, ToolExecutions st9 !! 0%nat = Some x /\ exe_State x = ToolExecutionSucceeded /\
  ToolExecutions (plan_state plan10) !! 0%nat = Some x.
Proof.
  destruct (outcomes_final false (planner_at 10) st9 (sealed_or settle1) plan10 valid_settle1 settle1_planned) as (_ & He & _).
  eexists _. split_and!; [by_run | by_run |]. apply He; [by_run | vm_compute; discriminate].
Defined.

Lemma logs_append_only_witness : Events st9 `prefix_of` Events st10 /\ length (Events st9) <> length (Events st10).
Proof.
  split; [|vm_compute; discriminate].
  apply (logs_append_only false (planner_at 10) st9 (sealed_or settle1) plan10 valid_settle1 settle1_planned).
Defined.

Lemma events_contiguous_witness :
  sequences session1 (Events st10) = seqZ 1 (Z.of_nat (length (sequences session1 (Events st10)))) /\
  sequences session1 (Events st10) <> [].
Proof.
  split; [|vm_compute; discriminate]. apply (events_contiguous "tenant-a"); [exact history_st10 | vm_compute; discriminate].
Defined.

Lemma executions_authorized_witness : exists x g a, x ∈ ToolExecutions st10 /\ g ∈ Grants st10 /\ a ∈ Approvals st10 /\
  gra_GrantID g = exe_GrantID x /\ app_State a = ApprovalApproved.
Proof.
  destruct (ToolExecutions st10) as [|x l] eqn:Hl; [vm_compute in Hl; discriminate Hl|].
  destruct (executions_authorized "tenant-a" st10 x history_st10) as (g & a & Hg & Ha & He & Hs & _).
  { rewrite Hl. left. }
  exists x, g, a. split_and!; try done. left.
Defined.

Lemma ownership_grounded_witness : length (Turns st10) = 2%nat /\ forall t, t ∈ Turns st10 -> turn_owned st10 t.
Proof. split; [by_run | apply (ownership_grounded "tenant-a" st10 history_st10)]. Defined.

(** The first Input is sent again after three further commits. *)
Lemma later_commits : extends "tenant-a" st3 st6.
Proof.
  apply (rtc_l _ _ st4); [refine (commit_plan "tenant-a" st3 false (planner_at 4) (sealed_or input2) plan4 valid_input2 _ _); by_run|].
  apply (rtc_l _ _ st5); [refine (commit_plan "tenant-a" st4 false (planner_at 5) (sealed_or ask_approval) plan5 valid_ask _ _); by_run|].
  apply rtc_once. refine (commit_plan "tenant-a" st5 false (planner_at 6) (sealed_or approve) plan6 valid_approve _ _); by_run.
Qed.

Lemma input1_planned : Plan false (planner_at 3) st2 (sealed_or input1) = Ok plan3.
Proof. by_run. Qed.

Lemma idempotency_key_final_witness :
  Plan false (planner_at 11) st6 (sealed_or input1) = Ok (replayPlan st6 CommandAdmitInput (res_Receipt (plan_result plan3))).
Proof.
  rewrite (idempotency_key_final false (planner_at 3) st2 (sealed_or input1) plan3 st6 (planner_at 11) (sealed_or input1)
    valid_input1 input1_planned later_commits) by by_run. by_run.
Defined.

Lemma settle_commits_witness : exists result effs s',
  settle (planner_at 10) (mut_receipt (sealed_or settle1)) (settle_command "settle-1" turn1 3 3) (at_second 10)
    (mkPstate st9 0) = (Ok (result, effs), s') /\
  settled st9 (mut_receipt (sealed_or settle1)) (settle_command "settle-1" turn1 3 3) (at_second 10) result (pst_state s').
Proof.
  destruct (settle (planner_at 10) (mut_receipt (sealed_or settle1)) (settle_command "settle-1" turn1 3 3) (at_second 10)
    (mkPstate st9 0)) as [[[result effs]|e] s'] eqn:He; [|vm_compute in He; discriminate He].
  exists result, effs, s'. split; [done|].
  exact (settle_commits (planner_at 10) _ _ _ (mkPstate st9 0) result effs s' He).
Defined.

Lemma input_queued_behind_witness : exists result effs s',
  admit_input (planner_at 4) (mut_receipt (sealed_or input2)) (input_command "input-2" "world")
    (mkContentCommitment "tenant-a" (mkReference (digest_of "world") InputEnvelopeMediaTypeV1 5)) (at_second 4) (mkPstate st3 0) =
    (Ok (result, effs), s') /\
  tur_State (res_Turn result) = TurnQueued /\ tur_Position (res_Turn result) = 2 /\
  input_queued st3 (mut_receipt (sealed_or input2)) (input_command "input-2" "world")
    (mkContentCommitment "tenant-a" (mkReference (digest_of "world") InputEnvelopeMediaTypeV1 5))
    (res_Input result) (res_Turn result) (pst_state s').
Proof.
  destruct (admit_input (planner_at 4) (mut_receipt (sealed_or input2)) (input_command "input-2" "world")
    (mkContentCommitment "tenant-a" (mkReference (digest_of "world") InputEnvelopeMediaTypeV1 5)) (at_second 4) (mkPstate st3 0))
    as [[[result effs]|e] s'] eqn:He; [|vm_compute in He; discriminate He].
  exists result, effs, s'. split_and!; [done | | |].
  - vm_compute in He. by injection He as <- _ _.
  - vm_compute in He. by injection He as <- _ _.
  - apply (input_queued_behind (planner_at 4) _ _ _ (at_second 4) (mkPstate st3 0) result effs s' He).
    intros t Ht. assert (Hall : forallb (fun t => (0 <=? tur_Position t) && (tur_Position t <? max_u64)) (Turns st3) = true) by by_run.
    rewrite forallb_forall in Hall. specialize (Hall t ltac:(by apply list_elem_of_In)). lia.
Defined.

Lemma valid_claim1 : valid_mutation (sealed_or claim1).
Proof. valid_by (from_ClaimOutbox _ (claim_command "claim-1" "pub-a")). Qed.

Lemma lease_version_consumed_witness :
  Plan false (planner_at 3) st2 (sealed_or claim1) = Ok plan_claim /\
  Plan false (planner_at 4) (plan_state plan_claim) (sealed_or claim2) = Err ErrConflict.
Proof.
  split; [by_run|].
  apply (lease_version_consumed false (planner_at 3) st2 (sealed_or claim1) plan_claim (planner_at 4) (sealed_or claim2)
    "outbox_0000000000002003" 1 valid_claim1); by_run.
Defined.


Lemma tool_approval_digest_collides_witness :
  mut_receipt (sealed_or ask_approval) = mut_receipt (sealed_or wider_approval) /\
  mut_command (sealed_or ask_approval) <> mut_command (sealed_or wider_approval).
Proof.
  split; [|vm_compute; discriminate].
  apply (tool_approval_digest_collides tool_approval_command wider_approval_command); by_run.
Defined.
