(* ===== verification/Approval.v ===== *)
(** * Human approvals

    The pure approval state machine of internal/approval/approval.go.  A method of
    the source that returns a value and an error is a function to a pair; with most
    errors the source returns the zero [Approval], with [ErrExpired] it returns the
    expired value. *)

From Stdlib Require Import Ascii String.
From S2P Require Import Prelude GoString Sha256 GoTime.

Open Scope Z_scope.

Definition maxIdentityBytes : Z := 128.
Definition maxScopeUses : Z := 32.
Definition maximumApprovalWindow : Z := 24 * Hour.

(** [ErrInvalid] stands for the errors without a name: an invalid proposal,
    command or time. *)
Inductive ApprovalError : Type :=
| ErrNotFoundOrDenied | ErrConflict | ErrExpired | ErrScopeBroadening | ErrInvalid.

Definition alphanumeric (c : Z) : bool := is_lower c || is_upper c || is_digit c.

Definition validID (value prefix : string) : bool :=
  let payload := TrimPrefix value prefix in
  if (len payload ≠? 16) || (prefix +:+ payload ≠? value) then false else all_runes alphanumeric payload.

(** The parsers return the identifier or an error. *)
Definition parse_with (prefix value : string) : option string := if validID value prefix then Some value else None.
Definition ParseID : string -> option string := parse_with "appr_".
Definition ParseToolCallID : string -> option string := parse_with "tcall_".
Definition ParseSessionID : string -> option string := parse_with "sess_".
Definition ParseTurnID : string -> option string := parse_with "turn_".
Definition ParseTenantID : string -> option string := parse_with "ten_".
Definition ParsePrincipalID : string -> option string := parse_with "prn_".

Record Actor : Type := mkActor {
  act_TenantID : string;
  act_PrincipalID : string;
  act_Admin : bool
}.
#[export] Instance Actor_eq_dec : EqDecision Actor.
Proof. solve_decision. Defined.

Definition actor_valid (actor : Actor) : bool := validID (act_TenantID actor) "ten_" && validID (act_PrincipalID actor) "prn_".

Record Scope : Type := mkScopeOf {
  scp_CapabilityDigest : string;
  scp_MaximumUses : Z;
  scp_ExpiresAt : Time
}.
#[export] Instance Scope_eq_dec : EqDecision Scope.
Proof. solve_decision. Defined.

Definition zeroScopeOf : Scope := mkScopeOf "" 0 zeroTime.

Definition validDigest (value : string) : bool :=
  if (len value ≠? 7 + 64) || negb (HasPrefix value "sha256:") || (value ≠? ToLower value) then false
  else all_runes is_lower_hex (TrimPrefix value "sha256:").

Definition validUTC (value : Time) : bool := negb (IsZero value) && isUTC value.

Definition scope_valid (scope : Scope) : bool :=
  validDigest (scp_CapabilityDigest scope) && (0 <? scp_MaximumUses scope) && (scp_MaximumUses scope <=? maxScopeUses) &&
  validUTC (scp_ExpiresAt scope).

Definition narrowerThan (scope proposed : Scope) : bool :=
  scope_valid scope && (scp_CapabilityDigest scope ≟ scp_CapabilityDigest proposed) &&
  (scp_MaximumUses scope <=? scp_MaximumUses proposed) && negb (After (scp_ExpiresAt scope) (scp_ExpiresAt proposed)).

Definition SummaryExecute : string := "execute".
Definition SummaryRestart : string := "restart".
Definition SummaryWrite : string := "write".
Definition SummaryDelete : string := "delete".
Definition SummaryWorkspaceService : string := "workspace-service".
Definition SummarySandboxProcess : string := "sandbox-process".
Definition SummaryArtifact : string := "artifact".
Definition SummaryNetworkRequest : string := "network-request".

Record Summary : Type := mkSummary {
  smy_Verb : string;
  smy_Target : string
}.

Definition summary_valid (summary : Summary) : bool :=
  ((smy_Verb summary ≟ SummaryExecute) || (smy_Verb summary ≟ SummaryRestart) || (smy_Verb summary ≟ SummaryWrite) ||
   (smy_Verb summary ≟ SummaryDelete)) &&
  ((smy_Target summary ≟ SummaryWorkspaceService) || (smy_Target summary ≟ SummarySandboxProcess) ||
   (smy_Target summary ≟ SummaryArtifact) || (smy_Target summary ≟ SummaryNetworkRequest)).

(** [Decision] is a string in the source; [OtherDecision] is any string but the
    two constants. *)
Inductive Decision : Type := DecisionApproved | DecisionDenied | OtherDecision (text : string).
#[export] Instance Decision_eq_dec : EqDecision Decision.
Proof. solve_decision. Defined.

Inductive State : Type :=
| StateNone_ | StatePending | StateApproved | StateDenied | StateExpired | StateCancelled | StateInvalidated.
#[export] Instance State_eq_dec : EqDecision State.
Proof. solve_decision. Defined.

Record Proposal : Type := mkProposal {
  pro_ID : string;
  pro_Owner : Actor;
  pro_SessionID : string;
  pro_TurnID : string;
  pro_ToolCallID : string;
  pro_ActionDigest : string;
  pro_PolicyRevisionDigest : string;
  pro_Summary : Summary;
  pro_ProposedScope : Scope;
  pro_CreatedAt : Time;
  pro_ExpiresAt : Time
}.

Definition zeroProposal : Proposal :=
  mkProposal "" (mkActor "" "" false) "" "" "" "" "" (mkSummary "" "") zeroScopeOf zeroTime zeroTime.

Record DecisionCommand : Type := mkDecisionCommand {
  dcm_IdempotencyKey : string;
  dcm_Decision : Decision;
  dcm_GrantedScope : Scope
}.

Record decisionRecord : Type := mkDecision {
  der_actor : Actor;
  der_idempotencyKeyDigest : string;
  der_decision : Decision;
  der_grantedScope : Scope;
  der_decidedAt : Time
}.

(** [decision] and [hasDecision] of the source are one option here. *)
Record Approval : Type := mkApprovalOf {
  apv_proposal : Proposal;
  apv_state : State;
  apv_decision : option decisionRecord;
  apv_terminalAt : Time
}.

Definition zeroApproval : Approval := mkApprovalOf zeroProposal StateNone_ None zeroTime.

(** A value and an error. *)
Definition outcome : Type := Approval * option ApprovalError.
Definition refuse (e : ApprovalError) : outcome := (zeroApproval, Some e).

Definition validateProposal (proposal : Proposal) : bool :=
  let scope := pro_ProposedScope proposal in
  validID (pro_ID proposal) "appr_" && actor_valid (pro_Owner proposal) && validID (pro_SessionID proposal) "sess_" &&
  validID (pro_TurnID proposal) "turn_" && validID (pro_ToolCallID proposal) "tcall_" &&
  validDigest (pro_ActionDigest proposal) && validDigest (pro_PolicyRevisionDigest proposal) &&
  summary_valid (pro_Summary proposal) && scope_valid scope && validUTC (pro_CreatedAt proposal) &&
  validUTC (pro_ExpiresAt proposal) && After (pro_ExpiresAt proposal) (pro_CreatedAt proposal) &&
  negb (After (pro_ExpiresAt proposal) (AddDuration (pro_CreatedAt proposal) maximumApprovalWindow)) &&
  After (scp_ExpiresAt scope) (pro_CreatedAt proposal) && negb (After (scp_ExpiresAt scope) (pro_ExpiresAt proposal)).

Definition New (proposal : Proposal) : outcome :=
  if negb (validateProposal proposal) then refuse ErrInvalid
  else (mkApprovalOf proposal StatePending None zeroTime, None).

Definition authorized (value : Approval) (actor : Actor) : bool :=
  actor_valid actor && (act_TenantID actor ≟ act_TenantID (pro_Owner (apv_proposal value))) &&
  ((act_PrincipalID actor ≟ act_PrincipalID (pro_Owner (apv_proposal value))) || act_Admin actor).

Definition validateNow (value : Approval) (now : Time) : bool :=
  validUTC now && negb (Before now (pro_CreatedAt (apv_proposal value))).

Definition expire (value : Approval) (now : Time) : Approval :=
  if apv_state value ≟ StatePending
  then mkApprovalOf (apv_proposal value) StateExpired (apv_decision value) now else value.

Definition Expire (value : Approval) (now : Time) : outcome :=
  if negb (validateNow value now) then refuse ErrInvalid else (expire value now, None).

Definition Inspect (value : Approval) (actor : Actor) (now : Time) : outcome :=
  if negb (authorized value actor) then refuse ErrNotFoundOrDenied else Expire value now.

Definition validIdempotencyKey (value : string) : bool :=
  (0 <? len value) && (len value <=? maxIdentityBytes) && ValidString value && negb (ContainsAny value (NUL +:+ CR +:+ LF)).

Definition validateDecisionCommand (command : DecisionCommand) : bool :=
  validIdempotencyKey (dcm_IdempotencyKey command) &&
  ((dcm_Decision command ≟ DecisionApproved) || (dcm_Decision command ≟ DecisionDenied)).

Definition idempotencyDigest (value : string) : string :=
  "sha256:" +:+ sha256_hex ("agent-runtime/approval-idempotency/v1" +:+ NUL +:+ value).

Definition matches (value : Approval) (actor : Actor) (command : DecisionCommand) : bool :=
  match apv_decision value with
  | None => false
  | Some d => (der_actor d ≟ actor) && (der_idempotencyKeyDigest d ≟ idempotencyDigest (dcm_IdempotencyKey command)) &&
              (der_decision d ≟ dcm_Decision command) && (der_grantedScope d ≟ dcm_GrantedScope command)
  end.

Definition Decide (value : Approval) (actor : Actor) (command : DecisionCommand) (now : Time) : outcome :=
  if negb (authorized value actor) then refuse ErrNotFoundOrDenied else
  if negb (validateDecisionCommand command) then refuse ErrInvalid else
  if negb (validateNow value now) then refuse ErrInvalid else
  if apv_state value ≠? StatePending then
    if matches value actor command then (value, None) else refuse ErrConflict
  else
  let proposal := apv_proposal value in
  if negb (Before now (pro_ExpiresAt proposal)) then (expire value now, Some ErrExpired) else
  let scope := dcm_GrantedScope command in
  let approving := dcm_Decision command ≟ DecisionApproved in
  if approving && (negb (narrowerThan scope (pro_ProposedScope proposal)) ||
                   After (scp_ExpiresAt scope) (pro_ExpiresAt proposal) || negb (After (scp_ExpiresAt scope) now))
  then refuse ErrScopeBroadening else
  if negb approving && (scope ≠? zeroScopeOf) then refuse ErrInvalid else
  (mkApprovalOf proposal (if approving then StateApproved else StateDenied)
     (Some (mkDecision actor (idempotencyDigest (dcm_IdempotencyKey command)) (dcm_Decision command) scope now)) now, None).

Definition endPending (value : Approval) (next : State) (now : Time) : outcome :=
  if negb (validateNow value now) then refuse ErrInvalid else
  if apv_state value ≠? StatePending then
    if apv_state value ≟ next then (value, None) else refuse ErrConflict
  else
  if negb (Before now (pro_ExpiresAt (apv_proposal value))) then (expire value now, Some ErrExpired) else
  (mkApprovalOf (apv_proposal value) next (apv_decision value) now, None).

Definition Cancel (value : Approval) (now : Time) : outcome := endPending value StateCancelled now.
Definition Invalidate (value : Approval) (now : Time) : outcome := endPending value StateInvalidated now.
