(* ===== verification/ToolPolicy.v ===== *)
(** * Tool policy

    internal/toolpolicy/toolpolicy.go: one normalized tool intent against one
    immutable policy projection.  The package has its own copies of several
    validators of the approval package; both are modelled. *)

From Stdlib Require Import Ascii String.
From S2P Require Import Prelude GoString Sha256 GoTime Approval.

Open Scope Z_scope.

Definition maximumIdentityBytes : Z := 128.
Definition maximumToolNameBytes : Z := 128.
Definition maximumScopeUses : Z := 32.
Definition maximumApprovalWindow : Z := 24 * Hour.

Inductive Outcome : Type := OutcomeDenied | OutcomeRequiresApproval.

Record Intent : Type := mkIntent {
  itt_Owner : Actor;
  itt_SessionID : string;
  itt_TurnID : string;
  itt_ToolCallID : string;
  itt_ToolName : string;
  itt_ActionDigest : string;
  itt_PolicyRevisionDigest : string
}.

Record Projection : Type := mkProjection {
  prj_TenantID : string;
  prj_ToolName : string;
  prj_ActionDigest : string;
  prj_PolicyRevisionDigest : string;
  prj_Summary : Summary;
  prj_ProposedScope : Scope;
  prj_ExpiresAt : Time
}.

Record Disposition : Type := mkDisposition {
  dsp_outcome : Outcome;
  dsp_approval : Approval.Approval
}.

Definition denied : Disposition := mkDisposition OutcomeDenied zeroApproval.

Definition validUTC (value : Time) : bool := negb (IsZero value) && isUTC value.
Definition validNow (now : Time) : bool := validUTC now.

Definition boundedIdentity (value : string) : bool :=
  (0 <? len value) && (len value <=? maximumIdentityBytes) && negb (ContainsAny value (NUL +:+ CR +:+ LF)).

Definition validDigest (value : string) : bool :=
  if (len value ≠? 7 + 64) || negb (HasPrefix value "sha256:") || (value ≠? ToLower value) then false
  else all_runes is_lower_hex (TrimPrefix value "sha256:").

Definition tool_name_rune (c : Z) : bool :=
  is_lower c || is_upper c || is_digit c || (c =? 45) || (c =? 95) || (c =? 46).
Definition validToolName (value : string) : bool :=
  if (len value =? 0) || (maximumToolNameBytes <? len value) then false else all_runes tool_name_rune value.

Definition validSummary (summary : Summary) : bool :=
  ((smy_Verb summary ≟ SummaryExecute) || (smy_Verb summary ≟ SummaryRestart) || (smy_Verb summary ≟ SummaryWrite) ||
   (smy_Verb summary ≟ SummaryDelete)) &&
  ((smy_Target summary ≟ SummaryWorkspaceService) || (smy_Target summary ≟ SummarySandboxProcess) ||
   (smy_Target summary ≟ SummaryArtifact) || (smy_Target summary ≟ SummaryNetworkRequest)).

Definition validScope (scope : Scope) : bool :=
  validDigest (scp_CapabilityDigest scope) && (0 <? scp_MaximumUses scope) && (scp_MaximumUses scope <=? maximumScopeUses) &&
  validUTC (scp_ExpiresAt scope).

Definition parses (parsed : option string) : bool := bool_decide (parsed <> None).

Definition validActor (actor : Actor) : bool :=
  parses (ParseTenantID (act_TenantID actor)) && parses (ParsePrincipalID (act_PrincipalID actor)).

Definition validApprovalID (value : string) : bool := parses (ParseID value).

Definition validIntent (intent : Intent) : bool :=
  validActor (itt_Owner intent) && validToolName (itt_ToolName intent) && validDigest (itt_ActionDigest intent) &&
  validDigest (itt_PolicyRevisionDigest intent) && parses (ParseSessionID (itt_SessionID intent)) &&
  parses (ParseTurnID (itt_TurnID intent)) && parses (ParseToolCallID (itt_ToolCallID intent)).

Definition validProjection (projection : Projection) (now : Time) : bool :=
  let scope := prj_ProposedScope projection in
  boundedIdentity (prj_TenantID projection) && validToolName (prj_ToolName projection) &&
  validDigest (prj_ActionDigest projection) && validDigest (prj_PolicyRevisionDigest projection) &&
  validSummary (prj_Summary projection) && validScope scope && validUTC (prj_ExpiresAt projection) &&
  After (prj_ExpiresAt projection) now && negb (After (prj_ExpiresAt projection) (AddDuration now maximumApprovalWindow)) &&
  After (scp_ExpiresAt scope) now && negb (After (scp_ExpiresAt scope) (prj_ExpiresAt projection)).

Definition matches (intent : Intent) (projection : Projection) : bool :=
  (act_TenantID (itt_Owner intent) ≟ prj_TenantID projection) && (itt_ToolName intent ≟ prj_ToolName projection) &&
  (itt_ActionDigest intent ≟ prj_ActionDigest projection) &&
  (itt_PolicyRevisionDigest intent ≟ prj_PolicyRevisionDigest projection).

(** The approval an accepted intent asks for. *)
Definition proposal_of (intent : Intent) (projection : Projection) (approvalID : string) (now : Time) : Proposal :=
  mkProposal approvalID (itt_Owner intent) (itt_SessionID intent) (itt_TurnID intent) (itt_ToolCallID intent)
    (itt_ActionDigest intent) (itt_PolicyRevisionDigest intent) (prj_Summary projection) (prj_ProposedScope projection)
    now (prj_ExpiresAt projection).

Definition Evaluate (intent : Intent) (projection : Projection) (approvalID : string) (now : Time) : Disposition :=
  if negb (validNow now) || negb (validIntent intent) || negb (validProjection projection now) ||
     negb (matches intent projection) || negb (validApprovalID approvalID)
  then denied
  else match New (proposal_of intent projection approvalID now) with
       | (_, Some _) => denied
       | (request, None) => mkDisposition OutcomeRequiresApproval request
       end.
