(* ===== verification/ApprovalTheorems.v ===== *)
(** * Approvals and tool policy: theorems

    Every approval that the state machine can reach grants no more than was
    proposed; it is decided once; and the policy seam hands out approvals exactly
    for the intents that match the projection. *)

From Stdlib Require Import Ascii String.
From S2P Require Import Prelude GoString Sha256 GoTime Approval ToolPolicy.

Open Scope Z_scope.

(** ** Reachable approvals *)

(** The values a holder of an approval obtains from the operations, including the
    expired value that accompanies [ErrExpired]. *)
Inductive approval_reached : Approval -> Prop :=
| reached_new proposal v : New proposal = (v, None) -> approval_reached v
| reached_decide v actor command now v' e :
    approval_reached v -> Decide v actor command now = (v', e) -> e = None \/ e = Some ErrExpired -> approval_reached v'
| reached_cancel v now v' e :
    approval_reached v -> Cancel v now = (v', e) -> e = None \/ e = Some ErrExpired -> approval_reached v'
| reached_invalidate v now v' e :
    approval_reached v -> Invalidate v now = (v', e) -> e = None \/ e = Some ErrExpired -> approval_reached v'
| reached_expire v now v' : approval_reached v -> Expire v now = (v', None) -> approval_reached v'
| reached_inspect v actor now v' : approval_reached v -> Inspect v actor now = (v', None) -> approval_reached v'.

(** A decision made by someone entitled to it, in time. *)
Definition decided (v : Approval) (d : decisionRecord) : Prop :=
  apv_decision v = Some d /\ authorized v (der_actor d) = true /\ validUTC (der_decidedAt d) = true /\
  instant (pro_CreatedAt (apv_proposal v)) <= instant (der_decidedAt d) < instant (pro_ExpiresAt (apv_proposal v)).

(** What an approval grants: the proposed capability, for no more uses and no
    longer than proposed, and still unexpired when it was granted. *)
Definition grants (v : Approval) (d : decisionRecord) : Prop :=
  der_decision d = DecisionApproved /\ narrowerThan (der_grantedScope d) (pro_ProposedScope (apv_proposal v)) = true /\
  instant (der_decidedAt d) < instant (scp_ExpiresAt (der_grantedScope d)) <= instant (pro_ExpiresAt (apv_proposal v)).

Definition approval_ok (v : Approval) : Prop :=
  validateProposal (apv_proposal v) = true /\
  match apv_state v with
  | StateNone_ => False
  | StateApproved => exists d, decided v d /\ grants v d
  | StateDenied => exists d, decided v d /\ der_decision d = DecisionDenied /\ der_grantedScope d = zeroScopeOf
  | StatePending | StateExpired | StateCancelled | StateInvalidated => apv_decision v = None
  end.

Lemma expire_ok v now : approval_ok v -> approval_ok (expire v now).
Proof. unfold approval_ok, expire. case_bool_decide as H; [|done]. rewrite H. simpl. by intros [? ?]. Qed.

Lemma endPending_ok v next now v' e :
  next = StateCancelled \/ next = StateInvalidated ->
  approval_ok v -> endPending v next now = (v', e) -> e = None \/ e = Some ErrExpired -> approval_ok v'.
Proof.
  unfold endPending. intros Hn Hv. case_match; [intros [= <- <-] [?|?]; done|]. case_match eqn:Hp.
  - case_match; intros [= <- <-]; [done | intros [?|?]; done].
  - bools. case_match; intros [= <- <-] _; [by apply expire_ok|]. destruct Hv as [Hv Hd]. rewrite Hp in Hd.
    destruct Hn as [-> | ->]; by split.
Qed.

Lemma Decide_ok v actor command now v' e :
  approval_ok v -> Decide v actor command now = (v', e) -> e = None \/ e = Some ErrExpired -> approval_ok v'.
Proof.
  unfold Decide. intros Hv. case_match eqn:Ha; [intros [= <- <-] [?|?]; done|].
  case_match eqn:Hc; [intros [= <- <-] [?|?]; done|]. case_match eqn:Hn; [intros [= <- <-] [?|?]; done|].
  case_match eqn:Hp; [case_match; intros [= <- <-]; [done | intros [?|?]; done]|].
  case_match eqn:Hb; [intros [= <- <-] _; by apply expire_ok|].
  case_match eqn:Hs; [intros [= <- <-] [?|?]; done|]. case_match eqn:Hz; [intros [= <- <-] [?|?]; done|].
  intros [= <- <-] _. bools. destruct Hv as [Hv _]. unfold approval_ok. simpl. split; [done|].
  assert (Hd : decided (mkApprovalOf (apv_proposal v) (if dcm_Decision command ≟ DecisionApproved then StateApproved else StateDenied)
    (Some (mkDecision actor (idempotencyDigest (dcm_IdempotencyKey command)) (dcm_Decision command) (dcm_GrantedScope command) now)) now)
    (mkDecision actor (idempotencyDigest (dcm_IdempotencyKey command)) (dcm_Decision command) (dcm_GrantedScope command) now)).
  { unfold validateNow, Before in *. bools. split_and!; [done | done | done | |]; simpl; lia. }
  unfold validateDecisionCommand in Hc. bools.
  case_bool_decide as Hap; simpl in *; eexists; (split; [exact Hd|]).
  - unfold grants, After in *. simpl. bools. split_and!; [done | done | lia | lia].
  - bools. split; [|done]. simpl. by destruct (dcm_Decision command).
Qed.

Lemma reached_ok v : approval_reached v -> approval_ok v.
Proof.
  induction 1 as [p v H | v actor c now v' e _ IH H He | v now v' e _ IH H He | v now v' e _ IH H He | v now v' _ IH H
                 | v actor now v' _ IH H].
  - unfold New in H. case_match eqn:Hp; [done|]. bools. simplify_eq. by split.
  - by eapply Decide_ok.
  - by eapply (endPending_ok v StateCancelled); [left | | exact H |].
  - by eapply (endPending_ok v StateInvalidated); [right | | exact H |].
  - unfold Expire in H. case_match; [done|]. simplify_eq. by apply expire_ok.
  - unfold Inspect, Expire in H. repeat (case_match; [done|]). simplify_eq. by apply expire_ok.
Qed.

(** An approval never grants more than was proposed.  Whenever the state
    machine reaches an approved value, the decision was made by the owner or by an
    administrator of the owner's tenant, between the proposal's creation and its
    expiry, and the granted scope has the proposed capability, between 1 and 32
    uses and no more than proposed, and an expiry after the decision, not after the
    proposed expiry, and at most 24 hours after the proposal. *)
Theorem approved_scope_narrow v :
  approval_reached v -> apv_state v = StateApproved ->
  exists d, decided v d /\ der_decision d = DecisionApproved /\
    let granted := der_grantedScope d in let proposed := pro_ProposedScope (apv_proposal v) in
    scp_CapabilityDigest granted = scp_CapabilityDigest proposed /\
    0 < scp_MaximumUses granted <= scp_MaximumUses proposed /\ scp_MaximumUses proposed <= 32 /\
    instant (der_decidedAt d) < instant (scp_ExpiresAt granted) <= instant (scp_ExpiresAt proposed) /\
    instant (scp_ExpiresAt proposed) <= instant (pro_CreatedAt (apv_proposal v)) + 24 * Hour.
Proof.
  intros [Hp Hs]%reached_ok Ha. rewrite Ha in Hs. destruct Hs as (d & Hd & (Hdec & Hn & Ht)). exists d.
  unfold narrowerThan, validateProposal, scope_valid, After, AddDuration, Approval.maximumApprovalWindow, maxScopeUses in *.
  bools. cbn [instant] in *. split_and!; [exact Hd | done | done | lia..].
Qed.

(** An approval is decided at most once.  After a successful decision every
    further decision attempt returns the decided value unchanged if it repeats the
    same actor, key, decision and scope (at any valid time), and is refused with a
    conflict otherwise; cancelling, invalidating and expiring leave it as it is or
    are refused. *)
Theorem decided_once v actor command now v' :
  apv_state v = StatePending -> Decide v actor command now = (v', None) ->
  (forall actor' command' now', authorized v' actor' = true -> validateDecisionCommand command' = true ->
     validateNow v' now' = true ->
     Decide v' actor' command' now' = if Approval.matches v' actor' command' then (v', None) else refuse ErrConflict) /\
  Approval.matches v' actor command = true /\ authorized v' actor = true /\
  (forall now', Cancel v' now' = refuse ErrConflict \/ Cancel v' now' = refuse ErrInvalid) /\
  (forall now', Invalidate v' now' = refuse ErrConflict \/ Invalidate v' now' = refuse ErrInvalid) /\
  (forall now', Expire v' now' = (v', None) \/ Expire v' now' = refuse ErrInvalid).
Proof.
  intros Hpend. unfold Decide. case_match eqn:Ha; [done|]. case_match; [done|]. case_match; [done|].
  rewrite Hpend. simpl. case_match; [done|]. case_match; [done|]. case_match; [done|]. intros [= <-]. bools.
  set (d := mkDecision _ _ _ _ _). split_and!.
  - intros actor' command' now' Ha' Hc' Hn'. rewrite Ha', Hc', Hn'. simpl. by case_match.
  - unfold Approval.matches, d. simpl. by rewrite !bool_decide_eq_true_2.
  - done.
  - intros now'. unfold Cancel, endPending. case_match; [by right | left]. simpl. by case_bool_decide.
  - intros now'. unfold Invalidate, endPending. case_match; [by right | left]. simpl. by case_bool_decide.
  - intros now'. unfold Expire, expire. case_match; [by right | left]. simpl. by case_bool_decide.
Qed.

(** Inspecting a pending approval reports it as expired at every valid time,
    also long before its deadline: neither [Inspect] nor [Expire] compares the
    clock with the expiry. *)
Theorem inspect_expires_early v actor now :
  apv_state v = StatePending -> authorized v actor = true -> validateNow v now = true ->
  instant now < instant (pro_ExpiresAt (apv_proposal v)) ->
  exists v', Inspect v actor now = (v', None) /\ apv_state v' = StateExpired /\ apv_terminalAt v' = now.
Proof.
  intros Hp Ha Hn _. unfold Inspect, Expire, expire. rewrite Ha, Hn, Hp. simpl. by eexists.
Qed.

(** ** Tool policy *)

Lemma parses_with prefix value : parses (parse_with prefix value) = validID value prefix.
Proof. unfold parses, parse_with. destruct (validID value prefix); [by apply bool_decide_eq_true_2 | by apply bool_decide_eq_false_2; intros []]. Qed.

(** The policy's own checks establish all that the approval package asks of a
    proposal. *)
Lemma accepted_proposal intent projection approvalID now :
  validNow now = true -> validIntent intent = true -> validProjection projection now = true ->
  validApprovalID approvalID = true -> validateProposal (proposal_of intent projection approvalID now) = true.
Proof.
  unfold validNow, validIntent, validProjection, validApprovalID, validActor, ParseID, ParseTenantID, ParsePrincipalID,
    ParseSessionID, ParseTurnID, ParseToolCallID. rewrite !parses_with. intros Hn Hi Hp Ha. bools.
  unfold validateProposal, proposal_of, actor_valid.
  cbn [pro_ID pro_Owner pro_SessionID pro_TurnID pro_ToolCallID pro_ActionDigest pro_PolicyRevisionDigest pro_Summary
       pro_ProposedScope pro_CreatedAt pro_ExpiresAt].
  repeat match goal with |- andb _ _ = true => apply andb_true_intro; split end; first [assumption | by apply negb_true_iff].
Qed.

(** Tool policy is exact and never grants.  An intent is answered with a
    pending approval, carrying the intent's owner, correlation and digests and the
    projection's summary, scope and expiry, precisely when the time, the intent,
    the projection and the identifier are valid and the projection is for the same
    tenant, tool, action and policy revision; every other intent is denied.  In
    particular building the approval never fails after the checks. *)
Theorem evaluate_exact intent projection approvalID now :
  Evaluate intent projection approvalID now =
  if validNow now && validIntent intent && validProjection projection now && matches intent projection &&
     validApprovalID approvalID
  then mkDisposition OutcomeRequiresApproval
         (mkApprovalOf (proposal_of intent projection approvalID now) StatePending None zeroTime)
  else denied.
Proof.
  unfold Evaluate. destruct (validNow now) eqn:Hn; [|done]. destruct (validIntent intent) eqn:Hi; [|done].
  destruct (validProjection projection now) eqn:Hp; [|done]. destruct (matches intent projection); [|done].
  destruct (validApprovalID approvalID) eqn:Ha; [|done]. cbn [negb orb andb]. unfold New.
  by rewrite accepted_proposal.
Qed.

(** ** The theorems at work *)

Definition approval_second (n : Z) : Time := mkTime ((63902822400 + n) * 1000000000) UTC.
Definition hash64 : string := sha256_hex "example".
Definition example_owner : Actor := mkActor "ten_AAAABBBBCCCCDDDD" "prn_1111222233334444" false.
Definition example_proposal : Proposal :=
  mkProposal "appr_1234567890ABCDEF" example_owner "sess_1234567890ABCDEF" "turn_1234567890ABCDEF" "tcall_1234567890ABCDEF"
    ("sha256:" +:+ hash64) ("sha256:" +:+ hash64) (mkSummary SummaryExecute SummarySandboxProcess)
    (mkScopeOf ("sha256:" +:+ hash64) 4 (approval_second 1800)) (approval_second 0) (approval_second 3600).
Definition example_pending : Approval := mkApprovalOf example_proposal StatePending None zeroTime.
Definition example_command : DecisionCommand :=
  mkDecisionCommand "approve-1" DecisionApproved (mkScopeOf ("sha256:" +:+ hash64) 1 (approval_second 900)).
Definition example_approved : Approval := (Decide example_pending example_owner example_command (approval_second 60)).1.

Lemma example_decided : Decide example_pending example_owner example_command (approval_second 60) = (example_approved, None).
Proof. vm_compute. reflexivity. Qed.

Lemma example_reached : approval_reached example_approved.
Proof.
  apply (reached_decide example_pending example_owner example_command (approval_second 60) _ None);
    [|exact example_decided | by left].
  apply (reached_new example_proposal). vm_compute. reflexivity.
Qed.

Lemma approved_scope_narrow_witness : exists d, apv_decision example_approved = Some d /\ scp_MaximumUses (der_grantedScope d) = 1 /\
  scp_MaximumUses (der_grantedScope d) <= scp_MaximumUses (pro_ProposedScope (apv_proposal example_approved)).
Proof.
  destruct (approved_scope_narrow example_approved example_reached) as (d & (Hd & _) & _ & _ & Hu & _); [vm_compute; reflexivity|].
  exists d. split_and!; [exact Hd | | lia]. vm_compute in Hd. injection Hd as <-. reflexivity.
Defined.

Lemma decided_once_witness :
  Decide example_approved example_owner example_command (approval_second 120) = (example_approved, None) /\
  Cancel example_approved (approval_second 120) = refuse ErrConflict.
Proof.
  destruct (decided_once example_pending example_owner example_command (approval_second 60) example_approved eq_refl example_decided)
    as (Hd & Hm & Ha & Hc & _).
  split; [rewrite Hd, Hm; [reflexivity | exact Ha | vm_compute; reflexivity | vm_compute; reflexivity]|].
  destruct (Hc (approval_second 120)) as [H|H]; [exact H | vm_compute in H; discriminate H].
Defined.

Lemma inspect_expires_early_witness : exists v, Inspect example_pending example_owner (approval_second 0) = (v, None) /\ apv_state v = StateExpired.
Proof.
  destruct (inspect_expires_early example_pending example_owner (approval_second 0)) as (v & Hv & Hs & _);
    [vm_compute; reflexivity.. | exists v; split; [exact Hv | exact Hs]].
Defined.
