(* ===== verification/HostProtocol.v ===== *)
(** * The private host protocol: data

    The messages of internal/sandboxhostprotocol/protocol.go that the ledger
    handles, and the enrollment and per-assignment records of
    internal/sandboxcontrol/host.go, with the attestation of attestation.go.  Byte
    slices are strings; the enumerated string types are strings. *)

From Stdlib Require Import Ascii String.
From S2P Require Import Prelude GoString Sha256 GoTime GoJson.

Open Scope Z_scope.

Definition Version : string := "sandbox.host-control/v1".

(** [Digest] *)
Definition Digest (value : string) : string := "sha256:" +:+ sha256_hex value.

(** ** Messages *)

Record Envelope : Type := mkEnvelope {
  evl_ProtocolVersion : string;
  evl_EnvelopeID : string;
  evl_DeliveryID : string;
  evl_Nonce : string;
  evl_IssuedAt : Time;
  evl_ExpiresAt : Time;
  evl_ControlKeyID : string;
  evl_ControlKeyVersion : Z;
  evl_ControlRevocationEpoch : Z;
  evl_HostID : string;
  evl_HostGeneration : Z;
  evl_AssignmentID : string;
  evl_LeaseEpoch : Z;
  evl_FencingToken : Z;
  evl_Tenant : string;
  evl_Principal : string;
  evl_SandboxID : string;
  evl_ProcessID : string;
  evl_VolumeID : string;
  evl_SnapshotID : string;
  evl_OperationID : string;
  evl_OperationKind : string;
  evl_EffectiveSpecDigest : string;
  evl_CapabilityDigest : string;
  evl_CanonicalRequestDigest : string;
  evl_SequenceContract : string;
  evl_PayloadDigest : string;
  evl_Payload : string;
  evl_Signature : string
}.

Record FailureObservation : Type := mkFailureObservation { fob_Code : string; fob_Retry : string }.

Record SandboxObservation : Type := mkSandboxObservation {
  sob_ID : string;
  sob_ActualState : string;
  sob_Failure : option FailureObservation
}.

Record ResourceUsage : Type := mkResourceUsage {
  rus_CPUTimeMillis : Z;
  rus_PeakMemoryBytes : Z;
  rus_ReadBytes : Z;
  rus_WrittenBytes : Z
}.

Record ProcessResult : Type := mkProcessResult {
  prs_StartedAt : Time;
  prs_FinishedAt : Time;
  prs_ExitCode : option Z;
  prs_Signal : string;
  prs_Reason : string;
  prs_Usage : ResourceUsage;
  prs_Cleanup : string
}.

Record OutputRetention : Type := mkOutputRetention {
  ore_EarliestCursor : string;
  ore_RetainedBytes : Z;
  ore_Truncated : bool
}.

Record ProcessObservation : Type := mkProcessObservation {
  pob_ID : string;
  pob_SandboxID : string;
  pob_State : string;
  pob_Result : option ProcessResult;
  pob_Stdout : OutputRetention;
  pob_Stderr : OutputRetention
}.

Record Observation : Type := mkObservation {
  obs_Sandbox : SandboxObservation;
  obs_Process : option ProcessObservation
}.

Record Result : Type := mkHostMessage {
  hms_ProtocolVersion : string;
  hms_ResultID : string;
  hms_HostID : string;
  hms_HostGeneration : Z;
  hms_AssignmentID : string;
  hms_LeaseEpoch : Z;
  hms_FencingToken : Z;
  hms_Principal : string;
  hms_OperationID : string;
  hms_EffectiveSpecDigest : string;
  hms_CapabilityDigest : string;
  hms_State : string;
  hms_ObservedAt : Time;
  hms_Observation : option Observation;
  hms_Signature : string
}.

Record Output : Type := mkOutput {
  oup_ProtocolVersion : string;
  oup_OutputID : string;
  oup_HostID : string;
  oup_HostGeneration : Z;
  oup_AssignmentID : string;
  oup_LeaseEpoch : Z;
  oup_FencingToken : Z;
  oup_Principal : string;
  oup_OperationID : string;
  oup_Stream : string;
  oup_Sequence : Z;
  oup_ChunkDigest : string;
  oup_SizeBytes : Z;
  oup_Bytes : option string;
  oup_Redacted : bool;
  oup_ObservedAt : Time;
  oup_Signature : string
}.

(** The chunk; nil ([None]) and empty are told apart in the encoding only. *)
Definition oup_Chunk (o : Output) : string := default "" (oup_Bytes o).

Record DataPlaneReceipt : Type := mkDataPlaneReceipt {
  dpr_ProtocolVersion : string;
  dpr_ReceiptID : string;
  dpr_HostID : string;
  dpr_HostGeneration : Z;
  dpr_AssignmentID : string;
  dpr_LeaseEpoch : Z;
  dpr_FencingToken : Z;
  dpr_OperationID : string;
  dpr_Kind : string;
  dpr_ReceiptDigest : string;
  dpr_Signature : string
}.

(** *** [json.Marshal] of a result: fields in order, [omitempty] fields left out *)

Definition omit_empty (name value : string) : list (string * jval) := if value ≟ "" then [] else [(name, JStr value)].
Definition omit_nil {A} (name : string) (f : A -> jval) (p : option A) : list (string * jval) :=
  match p with Some a => [(name, f a)] | None => [] end.

Definition json_FailureObservation (f : FailureObservation) : jval :=
  JObj [("code", JStr (fob_Code f)); ("retry", JStr (fob_Retry f))].
Definition json_SandboxObservation (s : SandboxObservation) : jval :=
  JObj ([("id", JStr (sob_ID s)); ("actual_state", JStr (sob_ActualState s))] ++
        omit_nil "failure" json_FailureObservation (sob_Failure s)).
Definition json_ResourceUsage (u : ResourceUsage) : jval :=
  JObj [("cpu_time_millis", JNum (rus_CPUTimeMillis u)); ("peak_memory_bytes", JNum (rus_PeakMemoryBytes u));
        ("read_bytes", JNum (rus_ReadBytes u)); ("written_bytes", JNum (rus_WrittenBytes u))].
Definition json_ProcessResult (r : ProcessResult) : jval :=
  JObj ([("started_at", json_time (prs_StartedAt r)); ("finished_at", json_time (prs_FinishedAt r))] ++
        omit_nil "exit_code" JNum (prs_ExitCode r) ++ omit_empty "signal" (prs_Signal r) ++
        [("reason", JStr (prs_Reason r)); ("usage", json_ResourceUsage (prs_Usage r)); ("cleanup", JStr (prs_Cleanup r))]).
Definition json_OutputRetention (o : OutputRetention) : jval :=
  JObj [("earliest_cursor", JStr (ore_EarliestCursor o)); ("retained_bytes", JNum (ore_RetainedBytes o));
        ("truncated", JBool (ore_Truncated o))].
Definition json_ProcessObservation (p : ProcessObservation) : jval :=
  JObj ([("id", JStr (pob_ID p)); ("sandbox_id", JStr (pob_SandboxID p)); ("state", JStr (pob_State p))] ++
        omit_nil "result" json_ProcessResult (pob_Result p) ++
        [("stdout", json_OutputRetention (pob_Stdout p)); ("stderr", json_OutputRetention (pob_Stderr p))]).
Definition json_Observation (o : Observation) : jval :=
  JObj ([("sandbox", json_SandboxObservation (obs_Sandbox o))] ++ omit_nil "process" json_ProcessObservation (obs_Process o)).
Definition json_Result (r : Result) : jval :=
  JObj ([("protocol_version", JStr (hms_ProtocolVersion r)); ("result_id", JStr (hms_ResultID r)); ("host_id", JStr (hms_HostID r));
         ("host_generation", JNum (hms_HostGeneration r)); ("assignment_id", JStr (hms_AssignmentID r));
         ("lease_epoch", JNum (hms_LeaseEpoch r)); ("fencing_token", JNum (hms_FencingToken r));
         ("principal", JStr (hms_Principal r)); ("operation_id", JStr (hms_OperationID r));
         ("effective_spec_digest", JStr (hms_EffectiveSpecDigest r)); ("capability_digest", JStr (hms_CapabilityDigest r));
         ("state", JStr (hms_State r)); ("observed_at", json_time (hms_ObservedAt r))] ++
        omit_nil "observation" json_Observation (hms_Observation r) ++ [("signature", JStr (hms_Signature r))]).

(** [authenticatedResultDigest]; [None] is its error. *)
Definition authenticatedResultDigest (r : Result) : option string :=
  match marshal (json_Result r) with
  | Some wire => if (len wire =? 0) || (2 ^ 20 <? len wire) then None else Some (Digest wire)
  | None => None
  end.

(** ** Enrollment *)

Definition HostActive : string := "active".
Definition HostRevoked : string := "revoked".
Definition HostQuarantined : string := "quarantined".
Definition HostAttestationFailed : string := "attestation-failed".

Record BootProbeProfile : Type := mkBootProbeProfile {
  bpp_VMID : string;
  bpp_FixtureVersion : string;
  bpp_PlanDigest : string;
  bpp_FixtureDigest : string;
  bpp_AuthorityDigest : string
}.
#[export] Instance BootProbeProfile_eq_dec : EqDecision BootProbeProfile.
Proof. solve_decision. Defined.

Definition AttestationProfileLocalMetadata : string := "local-metadata-v1".
Definition AttestationProfileVerified : string := "verified-v1".
Definition AttestationMetadataOnly : string := "metadata-only".
Definition AttestationVerified : string := "verified".
Definition AttestationFailed : string := "failed".
Definition maxAttestationEvidenceBytes : Z := 64 * 2 ^ 10.

Record HostEnrollment : Type := mkHost {
  hst_HostID : string;
  hst_Tenant : string;
  hst_Pool : string;
  hst_Generation : Z;
  hst_ProtocolVersion : string;
  hst_CertificateDigest : string;
  hst_SigningPublicKey : string;
  hst_ObservationPublicKey : string;
  hst_BootProbeProfile : BootProbeProfile;
  hst_CapabilityDigest : string;
  hst_AttestationDigest : string;
  hst_AttestationProfile : string;
  hst_AttestationState : string;
  hst_Status : string;
  hst_ExpiresAt : Time;
  hst_LastAuthenticatedAt : Time;
  hst_QuarantineReason : string
}.

(** The assignments the methods make to fields of an enrollment. *)
Definition hst_put (status reason : string) (expires authenticated : Time) (h : HostEnrollment) : HostEnrollment :=
  mkHost (hst_HostID h) (hst_Tenant h) (hst_Pool h) (hst_Generation h) (hst_ProtocolVersion h) (hst_CertificateDigest h)
    (hst_SigningPublicKey h) (hst_ObservationPublicKey h) (hst_BootProbeProfile h) (hst_CapabilityDigest h)
    (hst_AttestationDigest h) (hst_AttestationProfile h) (hst_AttestationState h) status expires authenticated reason.
Definition hst_set_Status (s : string) (h : HostEnrollment) : HostEnrollment :=
  hst_put s (hst_QuarantineReason h) (hst_ExpiresAt h) (hst_LastAuthenticatedAt h) h.
Definition hst_set_ExpiresAt (t : Time) (h : HostEnrollment) : HostEnrollment :=
  hst_put (hst_Status h) (hst_QuarantineReason h) t (hst_LastAuthenticatedAt h) h.
Definition hst_set_LastAuthenticatedAt (t : Time) (h : HostEnrollment) : HostEnrollment :=
  hst_put (hst_Status h) (hst_QuarantineReason h) (hst_ExpiresAt h) t h.
Definition hst_attested (digest profile state status : string) (h : HostEnrollment) : HostEnrollment :=
  mkHost (hst_HostID h) (hst_Tenant h) (hst_Pool h) (hst_Generation h) (hst_ProtocolVersion h) (hst_CertificateDigest h)
    (hst_SigningPublicKey h) (hst_ObservationPublicKey h) (hst_BootProbeProfile h) (hst_CapabilityDigest h)
    digest profile state status (hst_ExpiresAt h) (hst_LastAuthenticatedAt h) (hst_QuarantineReason h).

Record HostIdentity : Type := mkHostIdentity { hid_HostID : string; hid_Generation : Z; hid_CertificateDigest : string }.

Record DeliverySeed : Type := mkDeliverySeed {
  sed_AssignmentID : string;
  sed_EnvelopeID : string;
  sed_DeliveryID : string;
  sed_Nonce : string
}.

(** ** Per-assignment records *)

Record hostAssignmentFields : Type := mkDispatchFields {
  daf_AssignmentID : string;
  daf_HostGeneration : Z;
  daf_LeaseEpoch : Z;
  daf_EnvelopeID : string;
  daf_DeliveryID : string;
  daf_EnvelopeDigest : string;
  daf_EnvelopeBody : string;
  daf_ReceiptDigest : string;
  daf_DataReceiptID : string;
  daf_DataReceiptKind : string;
  daf_DataReceiptDigest : string;
  daf_ResultDigest : string;
  daf_AcknowledgedAt : Time
}.

(** The zero value, which a missing map entry yields. *)
Definition noDispatch : hostAssignmentFields := mkDispatchFields "" 0 0 "" "" "" "" "" "" "" "" "" zeroTime.

Definition daf_put (receipt id kind data result : string) (at_ : Time) (f : hostAssignmentFields) : hostAssignmentFields :=
  mkDispatchFields (daf_AssignmentID f) (daf_HostGeneration f) (daf_LeaseEpoch f) (daf_EnvelopeID f) (daf_DeliveryID f)
    (daf_EnvelopeDigest f) (daf_EnvelopeBody f) receipt id kind data result at_.
Definition daf_acknowledged (receipt : string) (at_ : Time) (f : hostAssignmentFields) : hostAssignmentFields :=
  daf_put receipt (daf_DataReceiptID f) (daf_DataReceiptKind f) (daf_DataReceiptDigest f) (daf_ResultDigest f) at_ f.
Definition daf_set_ResultDigest (d : string) (f : hostAssignmentFields) : hostAssignmentFields :=
  daf_put (daf_ReceiptDigest f) (daf_DataReceiptID f) (daf_DataReceiptKind f) (daf_DataReceiptDigest f) d (daf_AcknowledgedAt f) f.

Record hostOutputFields : Type := mkOutputFields {
  hof_OutputID : string;
  hof_AssignmentID : string;
  hof_Stream : string;
  hof_Sequence : Z;
  hof_ChunkDigest : string;
  hof_SizeBytes : Z;
  hof_Chunk : string;
  hof_Redacted : bool;
  hof_ObservedAt : Time
}.

Record hostDataPlaneReceiptFields : Type := mkReceiptFields {
  hdr_ReceiptID : string;
  hdr_AssignmentID : string;
  hdr_LeaseEpoch : Z;
  hdr_FencingToken : Z;
  hdr_OperationID : string;
  hdr_Kind : string;
  hdr_ReceiptDigest : string
}.
#[export] Instance hostDataPlaneReceiptFields_eq_dec : EqDecision hostDataPlaneReceiptFields.
Proof. solve_decision. Defined.

Definition daf_receipted (r : hostDataPlaneReceiptFields) (f : hostAssignmentFields) : hostAssignmentFields :=
  daf_put (daf_ReceiptDigest f) (hdr_ReceiptID r) (hdr_Kind r) (hdr_ReceiptDigest r) (daf_ResultDigest f) (daf_AcknowledgedAt f) f.
