(* ===== verification/SandboxLedger.v ===== *)
(** * The sandbox operation ledger

    [MemoryLedger] of internal/sandboxcontrol/ledger.go: durable acceptance of
    sandbox operations, optimistic transitions, fenced host assignments, recovery
    and cleanup sweeps, reaping, and the outbox written with every change.  The
    ledger's mutex makes each method one step.  The typed-JSON part of
    [validateDispatchBody] is an argument of [Accept].  The methods for enrolled
    hosts are in [SandboxHost]. *)

From Stdlib Require Import Ascii String.
From S2P Require Import Prelude GoString Sha256 GoTime HostProtocol.

Open Scope Z_scope.

(** [ErrOther] stands for the errors without a name (validation, cancelled
    context, exhausted fencing token); the last four are declared in host.go. *)
Inductive LedgerError : Type :=
| ErrConflict | ErrNotFoundOrDenied | ErrInvalidTransition | ErrStaleFence | ErrOperationIDExpired | ErrOther
| ErrHostDenied | ErrNoHostAssignment | ErrHostProtocolViolation | ErrHostAttestationFailed.

Definition maxLedgerPage : Z := 1000.
Definition maxPrincipalBytes : Z := 512.
Definition maxOperationIDBytes : Z := 128.
Definition maxDigestBytes : Z := 128.
Definition maxHostIDBytes : Z := 128.

(** [State] is a string; [StateOther] is any string that is not a constant. *)
Inductive State : Type :=
| StateAccepted | StateDispatched | StateStarted | StateSucceeded | StateFailed | StateCancelled | StateUncertain
| StateCleanupPending | StateCleanupConfirmed | StateExpired | StateTombstoned | StateOther (text : string).
#[export] Instance State_eq_dec : EqDecision State.
Proof. solve_decision. Defined.

Record Assignment : Type := mkAssignment {
  asg_HostID : string;
  asg_HostGeneration : Z;
  asg_AssignmentID : string;
  asg_LeaseEpoch : Z;
  asg_FencingToken : Z;
  asg_LeaseExpiresAt : Time
}.
#[export] Instance Assignment_eq_dec : EqDecision Assignment.
Proof. solve_decision. Defined.

(** [Assignment{FencingToken: token}] *)
Definition unassigned (token : Z) : Assignment := mkAssignment "" 0 "" 0 token zeroTime.

Definition ResourceProjectionSandbox : string := "sandbox".
Definition ResourceProjectionProcess : string := "process".
Definition ResourceProjectionVolume : string := "volume".
Definition ResourceProjectionSnapshot : string := "snapshot".
Definition ResourceProjectionReplaceSnapshot : string := "replace-complete-snapshot".

Record ResourceProjectionBinding : Type := mkProjectionBinding {
  rpb_Kind : string;
  rpb_ResourceID : string;
  rpb_AdmittedSnapshotDigest : string;
  rpb_Transition : string
}.
#[export] Instance ResourceProjectionBinding_eq_dec : EqDecision ResourceProjectionBinding.
Proof. solve_decision. Defined.

Record Operation : Type := mkOperation {
  ope_Principal : string;
  ope_Tenant : string;
  ope_ID : string;
  ope_Kind : string;
  ope_TargetKind : string;
  ope_TargetID : string;
  ope_InputDigest : string;
  ope_CanonicalDigest : string;
  ope_EffectiveSpecDigest : string;
  ope_CapabilityDigest : string;
  ope_DispatchBody : string;
  ope_State : State;
  ope_Version : Z;
  ope_AcceptedAt : Time;
  ope_RetentionExpiresAt : Time;
  ope_CleanupRequired : bool;
  ope_RetainedOutputBytes : Z;
  ope_ResourceProjectionBinding : option ResourceProjectionBinding;
  ope_Assignment : Assignment
}.
#[export] Instance Operation_eq_dec : EqDecision Operation.
Proof. solve_decision. Defined.

(** The four assignments the methods make. *)
Definition ope_put (state : State) (version : Z) (a : Assignment) (o : Operation) : Operation :=
  mkOperation (ope_Principal o) (ope_Tenant o) (ope_ID o) (ope_Kind o) (ope_TargetKind o) (ope_TargetID o) (ope_InputDigest o)
    (ope_CanonicalDigest o) (ope_EffectiveSpecDigest o) (ope_CapabilityDigest o) (ope_DispatchBody o) state version
    (ope_AcceptedAt o) (ope_RetentionExpiresAt o) (ope_CleanupRequired o) (ope_RetainedOutputBytes o)
    (ope_ResourceProjectionBinding o) a.

(** [operation.State = next; operation.Version++] *)
Definition advance_to (next : State) (o : Operation) : Operation :=
  ope_put next (u64 (ope_Version o + 1)) (ope_Assignment o) o.
Definition reassign (next : State) (a : Assignment) (o : Operation) : Operation := ope_put next (u64 (ope_Version o + 1)) a o.

Record HostResult : Type := mkHostResult {
  hre_HostID : string;
  hre_FencingToken : Z;
  hre_State : State;
  hre_ObservedAt : Time
}.

Inductive OutboxEvent : Type := OutboxAccepted | OutboxDispatched | OutboxStateChanged | OutboxLeaseExpired | OutboxTombstoned.

Record OutboxRecord : Type := mkOutboxRecord {
  obr_ID : Z;
  obr_Principal : string;
  obr_OperationID : string;
  obr_OperationVersion : Z;
  obr_Event : OutboxEvent;
  obr_State : State
}.

Record MemoryLedger : Type := mkLedger {
  operations : gmap string Operation;
  outbox : list OutboxRecord;
  hosts : gmap string HostEnrollment;
  dispatches : gmap string hostAssignmentFields;
  hostOutput : gmap string hostOutputFields;
  hostReceipts : gmap string hostDataPlaneReceiptFields
}.

Definition NewMemoryLedger : MemoryLedger := mkLedger ∅ [] ∅ ∅ ∅ ∅.

Definition put_operations (v : gmap string Operation) (l : MemoryLedger) : MemoryLedger :=
  mkLedger v (outbox l) (hosts l) (dispatches l) (hostOutput l) (hostReceipts l).
Definition put_outbox (v : list OutboxRecord) (l : MemoryLedger) : MemoryLedger :=
  mkLedger (operations l) v (hosts l) (dispatches l) (hostOutput l) (hostReceipts l).
Definition put_hosts (v : gmap string HostEnrollment) (l : MemoryLedger) : MemoryLedger :=
  mkLedger (operations l) (outbox l) v (dispatches l) (hostOutput l) (hostReceipts l).
Definition put_dispatches (v : gmap string hostAssignmentFields) (l : MemoryLedger) : MemoryLedger :=
  mkLedger (operations l) (outbox l) (hosts l) v (hostOutput l) (hostReceipts l).
Definition put_hostOutput (v : gmap string hostOutputFields) (l : MemoryLedger) : MemoryLedger :=
  mkLedger (operations l) (outbox l) (hosts l) (dispatches l) v (hostReceipts l).
Definition put_hostReceipts (v : gmap string hostDataPlaneReceiptFields) (l : MemoryLedger) : MemoryLedger :=
  mkLedger (operations l) (outbox l) (hosts l) (dispatches l) (hostOutput l) v.

Notation L := (M MemoryLedger LedgerError).

(** ** Helpers *)

Definition operationKey (principal id : string) : string := principal +:+ NUL +:+ id.

Definition validBounded (value : string) (maxBytes : Z) : bool :=
  (value ≠? "") && (len value <=? maxBytes) && negb (ContainsAny value NUL).

Definition validateLedgerPage (now : Time) (limit : Z) : bool :=
  negb (IsZero now || (limit <=? 0) || (maxLedgerPage <? limit)).

Definition operationInputDigest (o : Operation) : string :=
  if ope_InputDigest o ≠? "" then ope_InputDigest o else ope_CanonicalDigest o.

Definition sameResourceProjectionBinding (left right : option ResourceProjectionBinding) : bool := left ≟ right.

Definition normalizeOperationForPersistence (o : Operation) : Operation :=
  mkOperation (ope_Principal o) (if ope_Tenant o ≟ "" then before_sep (ascii_of_nat 58) (ope_Principal o) else ope_Tenant o)
    (ope_ID o) (ope_Kind o) (ope_TargetKind o) (ope_TargetID o) (ope_InputDigest o) (ope_CanonicalDigest o)
    (ope_EffectiveSpecDigest o) (ope_CapabilityDigest o) (if ope_DispatchBody o ≟ "" then "{}" else ope_DispatchBody o)
    (ope_State o) (ope_Version o) (ope_AcceptedAt o) (ope_RetentionExpiresAt o) (ope_CleanupRequired o)
    (ope_RetainedOutputBytes o) (ope_ResourceProjectionBinding o) (ope_Assignment o).

Definition is_hex (c : Z) : bool := is_digit c || between 97 c 102 || between 65 c 70.

Definition validProjectionSnapshotDigest (value : string) : bool :=
  if (len value ≠? 7 + 64) || negb (HasPrefix value "sha256:") then false
  else forallb is_hex (bytes (drop_bytes 7 value)).

Definition validResourceProjectionBinding (b : ResourceProjectionBinding) : bool :=
  if negb (validBounded (rpb_ResourceID b) maxOperationIDBytes) ||
     negb (validProjectionSnapshotDigest (rpb_AdmittedSnapshotDigest b)) ||
     (rpb_Transition b ≠? ResourceProjectionReplaceSnapshot) then false
  else (rpb_Kind b ≟ ResourceProjectionSandbox) || (rpb_Kind b ≟ ResourceProjectionProcess) ||
       (rpb_Kind b ≟ ResourceProjectionVolume) || (rpb_Kind b ≟ ResourceProjectionSnapshot).

Definition permits (current next : State) : bool :=
  match current with
  | StateAccepted => (next ≟ StateDispatched) || (next ≟ StateCancelled) || (next ≟ StateCleanupPending)
  | StateDispatched => (next ≟ StateStarted) || (next ≟ StateSucceeded) || (next ≟ StateFailed) || (next ≟ StateCancelled) ||
                       (next ≟ StateUncertain) || (next ≟ StateCleanupPending)
  | StateStarted => (next ≟ StateSucceeded) || (next ≟ StateFailed) || (next ≟ StateCancelled) || (next ≟ StateUncertain) ||
                    (next ≟ StateCleanupPending)
  | StateUncertain => (next ≟ StateDispatched) || (next ≟ StateSucceeded) || (next ≟ StateFailed) || (next ≟ StateCleanupPending)
  | StateCleanupPending => (next ≟ StateCleanupConfirmed) || (next ≟ StateTombstoned)
  | StateCleanupConfirmed | StateSucceeded | StateFailed | StateCancelled | StateExpired => next ≟ StateTombstoned
  | StateTombstoned | StateOther _ => false
  end.

(** [sort.Strings] of the keys. *)
Definition sortedOperationKeys (m : gmap string Operation) : list string := sort_strings (map_to_list m).*1.

(** [appendOutbox(operation, event)] *)
Definition appendOutbox (o : Operation) (event : OutboxEvent) : L unit :=
  modify (fun l => put_outbox (outbox l ++
    [mkOutboxRecord (u64 (Z.of_nat (length (outbox l)) + 1)) (ope_Principal o) (ope_ID o) (ope_Version o) event (ope_State o)]) l).

(** [ledger.operations[key] = operation; ledger.appendOutbox(operation, event)] *)
Definition commit (key : string) (o : Operation) (event : OutboxEvent) : L unit :=
  modify (fun l => put_operations (<[key := o]> (operations l)) l);; appendOutbox o event.

Definition lookup_operation (key : string) : L Operation :=
  l ← get; match operations l !! key with Some o => mret o | None => fail ErrNotFoundOrDenied end.

(** [if ctx.Err() != nil || invalid { return error }] *)
Definition live (cancelled : bool) : L unit := guard_or ErrOther (negb cancelled).

Section Accept.
(** Whether a dispatch body that is not one of the sentinels is a canonical typed
    control request with a public environment and no credential material. *)
Context (typed_dispatch_body : string -> bool).

Definition quoted (s : string) : string :=
  let q := String (ascii_of_nat 34) EmptyString in q +:+ s +:+ q.
Definition metadata_sentinel : string := "{" +:+ quoted "version" +:+ ":" +:+ quoted "sandbox.control/v1" +:+ "}".

Definition validateDispatchBody (body : string) : bool :=
  (body ≟ "") || (body ≟ "{}") || (body ≟ metadata_sentinel) || typed_dispatch_body body.

Definition validateOperation (o : Operation) : bool :=
  validBounded (ope_Principal o) maxPrincipalBytes && ((ope_Tenant o ≟ "") || validBounded (ope_Tenant o) 256) &&
  (len (ope_DispatchBody o) <=? 2 ^ 20) && validBounded (ope_ID o) maxOperationIDBytes &&
  validBounded (operationInputDigest o) maxDigestBytes && validBounded (ope_CanonicalDigest o) maxDigestBytes &&
  validBounded (ope_EffectiveSpecDigest o) maxDigestBytes && negb (IsZero (ope_AcceptedAt o)) &&
  negb (IsZero (ope_RetentionExpiresAt o)) && After (ope_RetentionExpiresAt o) (ope_AcceptedAt o) &&
  validateDispatchBody (ope_DispatchBody o) &&
  match ope_ResourceProjectionBinding o with
  | Some b => validResourceProjectionBinding b && (ope_TargetKind o ≟ rpb_Kind b) && (ope_TargetID o ≟ rpb_ResourceID b)
  | None => true
  end.

(** [operation.State, Version, AcceptedAt, RetentionExpiresAt = ...] *)
Definition accepted (o : Operation) : Operation :=
  mkOperation (ope_Principal o) (ope_Tenant o) (ope_ID o) (ope_Kind o) (ope_TargetKind o) (ope_TargetID o) (ope_InputDigest o)
    (ope_CanonicalDigest o) (ope_EffectiveSpecDigest o) (ope_CapabilityDigest o) (ope_DispatchBody o) StateAccepted 1
    (toUTC (ope_AcceptedAt o)) (toUTC (ope_RetentionExpiresAt o)) (ope_CleanupRequired o) (ope_RetainedOutputBytes o)
    (ope_ResourceProjectionBinding o) (ope_Assignment o).

Definition Accept (cancelled : bool) (operation : Operation) : L (Operation * bool) :=
  live cancelled;;
  let operation := normalizeOperationForPersistence operation in
  guard_or ErrOther (validateOperation operation);;
  let key := operationKey (ope_Principal operation) (ope_ID operation) in
  l ← get;
  match operations l !! key with
  | Some prior =>
    guard_or ErrOperationIDExpired (ope_State prior ≠? StateTombstoned);;
    guard_or ErrConflict ((operationInputDigest prior ≟ operationInputDigest operation) &&
      sameResourceProjectionBinding (ope_ResourceProjectionBinding prior) (ope_ResourceProjectionBinding operation));;
    mret (prior, true)
  | None =>
    guard_or ErrNotFoundOrDenied (negb (existsb (fun prior => ope_ID prior ≟ ope_ID operation) (map_to_list (operations l)).*2));;
    let operation := accepted operation in
    commit key operation OutboxAccepted;;
    mret (operation, false)
  end.
End Accept.

Definition Get (cancelled : bool) (principal id : string) : L Operation :=
  live cancelled;; lookup_operation (operationKey principal id).

Definition Transition (cancelled : bool) (principal id : string) (version : Z) (next : State) : L Operation :=
  live cancelled;;
  let key := operationKey principal id in
  operation ← lookup_operation key;
  guard_or ErrInvalidTransition ((ope_Version operation =? version) && permits (ope_State operation) next);;
  let operation := advance_to next operation in
  commit key operation OutboxStateChanged;;
  mret operation.

Definition assignable (s : State) : bool :=
  (s ≟ StateAccepted) || (s ≟ StateDispatched) || (s ≟ StateStarted) || (s ≟ StateUncertain) || (s ≟ StateCleanupPending).

Definition Assign (cancelled : bool) (principal id hostID : string) (leaseExpiresAt : Time) : L Operation :=
  live cancelled;;
  guard_or ErrOther (validBounded hostID maxHostIDBytes && negb (IsZero leaseExpiresAt));;
  let key := operationKey principal id in
  operation ← lookup_operation key;
  guard_or ErrInvalidTransition (assignable (ope_State operation));;
  let operation := reassign StateDispatched
    (mkAssignment hostID 0 "" 0 (u64 (asg_FencingToken (ope_Assignment operation) + 1)) (toUTC leaseExpiresAt)) operation in
  commit key operation OutboxDispatched;;
  mret operation.

Definition RecordHostResult (cancelled : bool) (principal id : string) (result : HostResult) : L Operation :=
  live cancelled;;
  let key := operationKey principal id in
  operation ← lookup_operation key;
  let a := ope_Assignment operation in
  guard_or ErrStaleFence (negb (IsZero (hre_ObservedAt result)) && validBounded (hre_HostID result) maxHostIDBytes &&
    (hre_HostID result ≟ asg_HostID a) && (hre_FencingToken result =? asg_FencingToken a) &&
    Before (hre_ObservedAt result) (asg_LeaseExpiresAt a));;
  guard_or ErrInvalidTransition (permits (ope_State operation) (hre_State result));;
  let operation := advance_to (hre_State result) operation in
  commit key operation OutboxStateChanged;;
  mret operation.

(** ** Sweeps

    The three sweeps visit the sorted keys until [limit] operations have changed.
    [visit] is the body of the loop for one operation: skip it, change it, or leave
    the sweep with an error. *)
Inductive visited : Type := Skip | Change (o : Operation) (event : OutboxEvent) | Abandon.

Fixpoint sweep (visit : Operation -> visited) (limit : Z) (changed : list Operation) (keys : list string) : L (list Operation) :=
  match keys with
  | [] => mret changed
  | key :: keys =>
    if Z.of_nat (length changed) =? limit then mret changed else
    l ← get;
    match operations l !! key with
    | None => sweep visit limit changed keys
    | Some operation =>
      match visit operation with
      | Skip => sweep visit limit changed keys
      | Abandon => fail ErrOther
      | Change operation event => commit key operation event;; sweep visit limit (changed ++ [operation]) keys
      end
    end
  end.

Definition sweep_all (visit : Operation -> visited) (cancelled : bool) (now : Time) (limit : Z) : L (list Operation) :=
  live cancelled;;
  guard_or ErrOther (validateLedgerPage now limit);;
  l ← get;
  sweep visit limit [] (sortedOperationKeys (operations l)).

Definition visit_cleanup (now : Time) (o : Operation) : visited :=
  if negb (ope_CleanupRequired o) || Before (toUTC now) (ope_RetentionExpiresAt o) || (ope_State o ≟ StateCleanupPending) ||
     (ope_State o ≟ StateCleanupConfirmed) || (ope_State o ≟ StateTombstoned) then Skip
  else Change (reassign StateCleanupPending (unassigned (u64 (asg_FencingToken (ope_Assignment o) + 1))) o) OutboxStateChanged.

Definition ClaimExpiredCleanup (cancelled : bool) (now : Time) (limit : Z) : L (list Operation) :=
  sweep_all (visit_cleanup now) cancelled now limit.

Definition visit_expired_lease (now : Time) (o : Operation) : visited :=
  let a := ope_Assignment o in
  if (asg_HostID a ≟ "") || Before (toUTC now) (asg_LeaseExpiresAt a) ||
     ((ope_State o ≠? StateDispatched) && (ope_State o ≠? StateStarted)) then Skip
  else if asg_FencingToken a =? max_u64 then Abandon
  else Change (reassign StateUncertain (unassigned (u64 (asg_FencingToken a + 1))) o) OutboxLeaseExpired.

Definition RecoverExpiredAssignments (cancelled : bool) (now : Time) (limit : Z) : L (list Operation) :=
  sweep_all (visit_expired_lease now) cancelled now limit.

Definition visit_reapable (now : Time) (o : Operation) : visited :=
  if (ope_State o ≟ StateTombstoned) || Before (toUTC now) (ope_RetentionExpiresAt o) ||
     (ope_CleanupRequired o && (ope_State o ≠? StateCleanupConfirmed)) then Skip
  else if (ope_State o ≠? StateSucceeded) && (ope_State o ≠? StateFailed) && (ope_State o ≠? StateCancelled) &&
          (ope_State o ≠? StateUncertain) && (ope_State o ≠? StateCleanupConfirmed) && (ope_State o ≠? StateExpired) then Skip
  else Change (reassign StateTombstoned (unassigned (asg_FencingToken (ope_Assignment o))) o) OutboxTombstoned.

Definition Reap (cancelled : bool) (now : Time) (limit : Z) : L (list Operation) :=
  sweep_all (visit_reapable now) cancelled now limit.

(** ** Outbox reads *)

(** [for ... { if !p(record) { continue }; append; if len == limit { break } }] *)
Fixpoint collect (p : OutboxRecord -> bool) (limit : Z) (records : list OutboxRecord) (l : list OutboxRecord)
  : list OutboxRecord :=
  match l with
  | [] => records
  | r :: l =>
    if negb (p r) then collect p limit records l else
    let records := records ++ [r] in
    if Z.of_nat (length records) =? limit then records else collect p limit records l
  end.

Definition ReadOutbox (cancelled : bool) (afterID limit : Z) : L (list OutboxRecord) :=
  live cancelled;;
  guard_or ErrOther (negb ((limit <=? 0) || (maxLedgerPage <? limit)));;
  l ← get;
  mret (collect (fun r => negb (obr_ID r <=? afterID)) limit [] (outbox l)).

Definition ReadOperationOutbox (cancelled : bool) (principal id : string) (afterVersion limit : Z) : L (list OutboxRecord) :=
  live cancelled;;
  guard_or ErrOther (validBounded principal maxPrincipalBytes && validBounded id maxOperationIDBytes &&
    negb ((limit <=? 0) || (maxLedgerPage <? limit)));;
  l ← get;
  _ ← lookup_operation (operationKey principal id);
  mret (collect (fun r => (obr_Principal r ≟ principal) && (obr_OperationID r ≟ id) && negb (obr_OperationVersion r <=? afterVersion))
          limit [] (outbox l)).
