(* ===== verification/SandboxHost.v ===== *)
(** * The host protocol on the ledger

    The [HostControlStore] methods of [MemoryLedger] (internal/sandboxcontrol/
    host.go), with attestation.go: enrollment and revocation of hosts, the pull of
    fenced assignments, their acknowledgement and renewal, and the output, data
    receipts and results of authenticated hosts.  The order in which Go ranges over
    a map is not specified; it is the argument [iteration]. *)

From Stdlib Require Import Ascii String.
From stdpp Require Import sorting.
From S2P Require Import Prelude GoString Sha256 GoTime GoJson HostProtocol SandboxLedger.

Open Scope Z_scope.

(** ** Attestation *)

Record AttestationInput : Type := mkAttestationInput { ain_Profile : string; ain_Evidence : string }.

Record AttestationEvidence : Type := mkAttestationEvidence {
  aev_HostID : string;
  aev_Generation : Z;
  aev_CertificateDigest : string;
  aev_CapabilityDigest : string;
  aev_AttestationDigest : string;
  aev_Evidence : string
}.

Record HostAttestation : Type := mkHostAttestation { hat_Profile : string; hat_State : string; hat_Digest : string }.

(** A verifier is nil or a predicate that returns an error or nil. *)
Definition AttestationVerifier : Type := option (AttestationEvidence -> bool).

Definition validAttestationEvidence (e : AttestationEvidence) : bool :=
  validBounded (aev_HostID e) maxHostIDBytes && (0 <? aev_Generation e) &&
  validBounded (aev_CertificateDigest e) maxDigestBytes && validBounded (aev_CapabilityDigest e) maxDigestBytes &&
  validBounded (aev_AttestationDigest e) maxDigestBytes && (0 <? len (aev_Evidence e)) &&
  (len (aev_Evidence e) <=? maxAttestationEvidenceBytes).

Definition VerifyHostAttestation (cancelled : bool) (input : AttestationInput) (host : HostEnrollment)
    (verifier : AttestationVerifier) : HostAttestation :=
  if (ain_Profile input ≟ AttestationProfileLocalMetadata) && (len (ain_Evidence input) =? 0)
  then mkHostAttestation (ain_Profile input) AttestationMetadataOnly ""
  else
    let digest := Digest (ain_Evidence input) in
    let evidence := mkAttestationEvidence (hst_HostID host) (hst_Generation host) (hst_CertificateDigest host)
                      (hst_CapabilityDigest host) digest (ain_Evidence input) in
    match verifier with
    | Some verify =>
      if (ain_Profile input ≠? AttestationProfileVerified) || cancelled || negb (validAttestationEvidence evidence)
      then mkHostAttestation (ain_Profile input) AttestationFailed digest
      else if verify evidence then mkHostAttestation (ain_Profile input) AttestationVerified digest
      else mkHostAttestation (ain_Profile input) AttestationFailed digest
    | None => mkHostAttestation (ain_Profile input) AttestationFailed digest
    end.

(** [None]: the caller supplied an outcome, or too much evidence. *)
Definition evaluateHostEnrollment (cancelled : bool) (host : HostEnrollment) (input : AttestationInput)
    (verifier : AttestationVerifier) : option HostEnrollment :=
  if (hst_Status host ≠? HostActive) || (hst_AttestationProfile host ≠? "") || (hst_AttestationState host ≠? "") ||
     (hst_AttestationDigest host ≠? "") then None
  else if maxAttestationEvidenceBytes <? len (ain_Evidence input) then None
  else
    let a := VerifyHostAttestation cancelled input host verifier in
    Some (hst_attested (hat_Digest a) (hat_Profile a) (hat_State a)
            (if hat_State a ≟ AttestationFailed then HostAttestationFailed else hst_Status host) host).

Definition validHostAttestation (host : HostEnrollment) : bool :=
  if hst_Status host ≟ HostActive then
    ((hst_AttestationProfile host ≟ AttestationProfileLocalMetadata) && (hst_AttestationState host ≟ AttestationMetadataOnly)) ||
    ((hst_AttestationProfile host ≟ AttestationProfileVerified) && (hst_AttestationState host ≟ AttestationVerified) &&
     validBounded (hst_AttestationDigest host) maxDigestBytes)
  else if hst_Status host ≟ HostAttestationFailed then
    (hst_AttestationProfile host ≟ AttestationProfileVerified) && (hst_AttestationState host ≟ AttestationFailed)
  else false.

(** ** Enrollment *)

Definition validBootProbeName (value : string) (rejectMutable : bool) : bool :=
  negb ((len value =? 0) || (63 <? len value) || (head (bytes value) ≟ Some 45) || (last (bytes value) ≟ Some 45) ||
        (rejectMutable && ((value ≟ "latest") || (value ≟ "main")))) &&
  all_runes (fun c => is_lower c || is_digit c || (c =? 45)) value.

Definition validBootProbeDigest (value : string) : bool :=
  (len value =? 71) && HasPrefix value "sha256:" && all_runes is_lower_hex (drop_bytes 7 value).

Definition present (p : BootProbeProfile) : bool :=
  (bpp_VMID p ≠? "") || (bpp_FixtureVersion p ≠? "") || (bpp_PlanDigest p ≠? "") || (bpp_FixtureDigest p ≠? "") ||
  (bpp_AuthorityDigest p ≠? "").

Definition profile_valid (p : BootProbeProfile) : bool :=
  validBootProbeName (bpp_VMID p) false && validBootProbeName (bpp_FixtureVersion p) true &&
  validBootProbeDigest (bpp_PlanDigest p) && validBootProbeDigest (bpp_FixtureDigest p) &&
  validBootProbeDigest (bpp_AuthorityDigest p).

(** [ed25519.PublicKeySize] *)
Definition PublicKeySize : Z := 32.

Definition validHostEnrollment (h : HostEnrollment) : bool :=
  validBounded (hst_HostID h) maxHostIDBytes && validBounded (hst_Tenant h) 256 && validBounded (hst_Pool h) 128 &&
  (0 <? hst_Generation h) && (hst_ProtocolVersion h ≟ Version) && validBounded (hst_CertificateDigest h) maxDigestBytes &&
  (len (hst_SigningPublicKey h) =? PublicKeySize) &&
  ((len (hst_ObservationPublicKey h) =? 0) || (len (hst_ObservationPublicKey h) =? PublicKeySize)) &&
  (negb (present (hst_BootProbeProfile h)) || profile_valid (hst_BootProbeProfile h)) &&
  validBounded (hst_CapabilityDigest h) maxDigestBytes &&
  ((hst_AttestationDigest h ≟ "") || validBounded (hst_AttestationDigest h) maxDigestBytes) && validHostAttestation h &&
  negb (IsZero (hst_ExpiresAt h)).

Definition sameEnrollment (l r : HostEnrollment) : bool :=
  (hst_HostID l ≟ hst_HostID r) && (hst_Tenant l ≟ hst_Tenant r) && (hst_Pool l ≟ hst_Pool r) &&
  (hst_Generation l =? hst_Generation r) && (hst_ProtocolVersion l ≟ hst_ProtocolVersion r) &&
  (hst_CertificateDigest l ≟ hst_CertificateDigest r) && (hst_SigningPublicKey l ≟ hst_SigningPublicKey r) &&
  (hst_ObservationPublicKey l ≟ hst_ObservationPublicKey r) && (hst_BootProbeProfile l ≟ hst_BootProbeProfile r) &&
  (hst_CapabilityDigest l ≟ hst_CapabilityDigest r) && (hst_AttestationDigest l ≟ hst_AttestationDigest r) &&
  (hst_AttestationProfile l ≟ hst_AttestationProfile r) && (hst_AttestationState l ≟ hst_AttestationState r) &&
  (hst_Status l ≟ hst_Status r) && (instant (hst_ExpiresAt l) =? instant (hst_ExpiresAt r)).

Definition hostEnrollmentKey (hostID : string) (generation : Z) : string := hostID +:+ NUL +:+ decimal generation.

Definition put_host (key : string) (h : HostEnrollment) : L unit := modify (fun l => put_hosts (<[key := h]> (hosts l)) l).

(** [cancelled'] is the context when the attestation is verified. *)
Definition ProvisionHost (cancelled cancelled' : bool) (enrollment : HostEnrollment) (input : AttestationInput)
    (verifier : AttestationVerifier) : L unit :=
  live cancelled;;
  match evaluateHostEnrollment cancelled' enrollment input verifier with
  | None => fail ErrOther
  | Some enrollment =>
    guard_or ErrOther (validHostEnrollment enrollment);;
    l ← get;
    guard_or ErrHostDenied (negb (existsb (fun current => (hst_HostID current ≟ hst_HostID enrollment) &&
      (hst_Generation enrollment <? hst_Generation current)) (map_to_list (hosts l)).*2));;
    let key := hostEnrollmentKey (hst_HostID enrollment) (hst_Generation enrollment) in
    match hosts l !! key with
    | Some current =>
      guard_or ErrConflict (sameEnrollment current enrollment);;
      guard_or ErrHostAttestationFailed (hst_Status enrollment ≠? HostAttestationFailed)
    | None =>
      put_host key (hst_set_ExpiresAt (toUTC (hst_ExpiresAt enrollment)) enrollment);;
      guard_or ErrHostAttestationFailed (hst_Status enrollment ≠? HostAttestationFailed)
    end
  end.

Definition authenticateHostLocked (identity : HostIdentity) (now : Time) : L HostEnrollment :=
  let key := hostEnrollmentKey (hid_HostID identity) (hid_Generation identity) in
  l ← get;
  match hosts l !! key with
  | Some host =>
    guard_or ErrHostDenied (validHostEnrollment host && (hst_Status host ≟ HostActive) &&
      (hst_Generation host =? hid_Generation identity) && (hst_CertificateDigest host ≟ hid_CertificateDigest identity) &&
      (hst_ProtocolVersion host ≟ Version) && negb (IsZero now) && Before now (hst_ExpiresAt host));;
    let host := hst_set_LastAuthenticatedAt (toUTC now) host in
    put_host key host;;
    mret host
  | None => fail ErrHostDenied
  end.

Definition AuthenticateHost (cancelled : bool) (identity : HostIdentity) (now : Time) : L HostEnrollment :=
  live cancelled;; authenticateHostLocked identity now.

(** ** Fencing a host *)

Definition isTerminalState (s : State) : bool :=
  match s with
  | StateSucceeded | StateFailed | StateCancelled | StateCleanupConfirmed | StateTombstoned => true
  | _ => false
  end.

Definition held_by (hostID : string) (generation : Z) (o : Operation) : bool :=
  (asg_HostID (ope_Assignment o) ≟ hostID) && (asg_HostGeneration (ope_Assignment o) =? generation).

Definition drop_dispatch (key : string) : L unit := modify (fun l => put_dispatches (delete key (dispatches l)) l).

Fixpoint fence_loop (hostID : string) (generation : Z) (next : State) (fenced : list Operation) (keys : list string)
  : L (list Operation) :=
  match keys with
  | [] => mret fenced
  | key :: keys =>
    l ← get;
    match operations l !! key with
    | Some operation =>
      if negb (held_by hostID generation operation) || isTerminalState (ope_State operation)
      then fence_loop hostID generation next fenced keys
      else
        let operation := reassign next (unassigned (u64 (asg_FencingToken (ope_Assignment operation) + 1))) operation in
        drop_dispatch key;;
        commit key operation OutboxStateChanged;;
        fence_loop hostID generation next (fenced ++ [operation]) keys
    | None => fence_loop hostID generation next fenced keys
    end
  end.

Definition fenceHostLocked (hostID : string) (generation : Z) (next : State) : L (list Operation) :=
  l ← get; fence_loop hostID generation next [] (sortedOperationKeys (operations l)).

Definition RevokeHost (cancelled : bool) (hostID : string) (generation : Z) (now : Time) : L unit :=
  live cancelled;;
  let key := hostEnrollmentKey hostID generation in
  l ← get;
  match hosts l !! key with
  | Some host =>
    guard_or ErrHostDenied (negb (IsZero now));;
    put_host key (hst_set_Status HostRevoked host);;
    fenceHostLocked hostID generation StateUncertain;;
    mret tt
  | None => fail ErrHostDenied
  end.

Definition QuarantineHost (cancelled : bool) (identity : HostIdentity) (reason : string) (now : Time) : L (list Operation) :=
  live cancelled;;
  host ← authenticateHostLocked identity now;
  guard_or ErrHostDenied (validBounded reason 256);;
  put_host (hostEnrollmentKey (hst_HostID host) (hst_Generation host))
    (hst_put HostQuarantined reason (hst_ExpiresAt host) (hst_LastAuthenticatedAt host) host);;
  fenceHostLocked (hst_HostID host) (hst_Generation host) StateUncertain.

(** ** Assignments *)

Record HostDispatch : Type := mkHostDispatch {
  hdi_Operation : Operation;
  hdi_Envelope : string;
  hdi_EnvelopeDigest : string;
  hdi_ReceiptDigest : string;
  hdi_AcknowledgedAt : Time
}.

Definition dispatchFrom (o : Operation) (f : hostAssignmentFields) : HostDispatch :=
  mkHostDispatch o (daf_EnvelopeBody f) (daf_EnvelopeDigest f) (daf_ReceiptDigest f) (daf_AcknowledgedAt f).

(** [ledger.dispatches[key]]: the zero value when there is no entry. *)
Definition dispatch_at (l : MemoryLedger) (key : string) : hostAssignmentFields := default noDispatch (dispatches l !! key).
Definition put_dispatch (key : string) (f : hostAssignmentFields) : L unit :=
  modify (fun l => put_dispatches (<[key := f]> (dispatches l)) l).

Definition validDeliverySeed (seed : DeliverySeed) (requireAssignment : bool) : bool :=
  (negb requireAssignment || validBounded (sed_AssignmentID seed) 128) &&
  validBounded (sed_EnvelopeID seed) 128 && validBounded (sed_DeliveryID seed) 128 && validBounded (sed_Nonce seed) 128.

Definition target (kind : string) (o : Operation) : string := if ope_TargetKind o ≟ kind then ope_TargetID o else "".

Definition envelopeFor (o : Operation) (issuedAt expiresAt : Time) (seed : DeliverySeed) : Envelope :=
  let a := ope_Assignment o in
  mkEnvelope Version (sed_EnvelopeID seed) (sed_DeliveryID seed) (sed_Nonce seed) (toUTC issuedAt) (toUTC expiresAt) "" 0 0
    (asg_HostID a) (asg_HostGeneration a) (asg_AssignmentID a) (asg_LeaseEpoch a) (asg_FencingToken a) (ope_Tenant o)
    (ope_Principal o) (target "sandbox" o) "" (target "volume" o) (target "snapshot" o) (ope_ID o) (ope_Kind o)
    (ope_EffectiveSpecDigest o) (ope_CapabilityDigest o) (ope_CanonicalDigest o) "host-proposed/control-owned-v1"
    (Digest (ope_DispatchBody o)) (ope_DispatchBody o) "".

(** A signer is nil or returns the wire bytes or an error. *)
Definition EnvelopeSigner : Type := option (Envelope -> option string).

(** [wire, err := signer(envelope)] and the bounds check after it. *)
Definition sign (signer : EnvelopeSigner) (envelope : Envelope) : option string :=
  match signer with
  | Some f => match f envelope with
              | Some wire => if (len wire =? 0) || (2 ^ 20 <? len wire) then None else Some wire
              | None => None
              end
  | None => None
  end.

(** [leaseExpiresAt.After(now) && leaseExpiresAt.Sub(now) <= time.Hour] *)
Definition lease_bounded (now leaseExpiresAt : Time) : bool :=
  After leaseExpiresAt now && (instant leaseExpiresAt - instant now <=? Hour).

Definition in_progress (s : State) : bool := (s ≟ StateDispatched) || (s ≟ StateStarted).

Definition eligible (host : HostEnrollment) (o : Operation) : bool :=
  (ope_State o ≟ StateAccepted) && (ope_Tenant o ≟ hst_Tenant host) && (ope_CapabilityDigest o ≟ hst_CapabilityDigest host).

(** The first entry that satisfies [p], with the keys in the given order. *)
Fixpoint first_entry (p : Operation -> bool) (m : gmap string Operation) (keys : list string) : option (string * Operation) :=
  match keys with
  | [] => None
  | key :: keys =>
    match m !! key with
    | Some o => if p o then Some (key, o) else first_entry p m keys
    | None => first_entry p m keys
    end
  end.

Section Iteration.
(** The order in which [for key, operation := range ledger.operations] visits the
    keys. *)
Context (iteration : gmap string Operation -> list string).

Definition current_for (host : HostEnrollment) (now : Time) (o : Operation) : bool :=
  held_by (hst_HostID host) (hst_Generation host) o && in_progress (ope_State o) &&
  Before now (asg_LeaseExpiresAt (ope_Assignment o)).

Definition PullHostAssignment (cancelled : bool) (identity : HostIdentity) (now leaseExpiresAt : Time) (seed : DeliverySeed)
    (signer : EnvelopeSigner) : L HostDispatch :=
  live cancelled;;
  host ← authenticateHostLocked identity now;
  l ← get;
  match first_entry (current_for host now) (operations l) (iteration (operations l)) with
  | Some (key, operation) => mret (dispatchFrom operation (dispatch_at l key))
  | None =>
    guard_or ErrHostProtocolViolation (validDeliverySeed seed true && bool_decide (is_Some signer) && lease_bounded now leaseExpiresAt);;
    match first_entry (eligible host) (operations l) (sortedOperationKeys (operations l)) with
    | None => fail ErrNoHostAssignment
    | Some (key, operation) =>
      guard_or ErrOther (negb (asg_FencingToken (ope_Assignment operation) =? max_u64));;
      let a := mkAssignment (hst_HostID host) (hst_Generation host) (sed_AssignmentID seed) 1
                 (u64 (asg_FencingToken (ope_Assignment operation) + 1)) (toUTC leaseExpiresAt) in
      let assigned := ope_put (ope_State operation) (ope_Version operation) a operation in
      match sign signer (envelopeFor assigned now leaseExpiresAt seed) with
      | None => fail ErrOther
      | Some wire =>
        let fields := mkDispatchFields (sed_AssignmentID seed) (hst_Generation host) 1 (sed_EnvelopeID seed)
                        (sed_DeliveryID seed) (Digest wire) wire "" "" "" "" "" zeroTime in
        let operation := reassign StateDispatched a operation in
        put_dispatch key fields;;
        commit key operation OutboxDispatched;;
        mret (dispatchFrom operation fields)
      end
    end
  end.

Definition assigned_to (identity : HostIdentity) (assignmentID : string) (fence : Z) (o : Operation) : bool :=
  held_by (hid_HostID identity) (hid_Generation identity) o && (asg_AssignmentID (ope_Assignment o) ≟ assignmentID) &&
  (asg_FencingToken (ope_Assignment o) =? fence).

Definition assignmentLocked (identity : HostIdentity) (assignmentID : string) (fence : Z) (l : MemoryLedger)
  : option (string * Operation) :=
  first_entry (assigned_to identity assignmentID fence) (operations l) (iteration (operations l)).

Definition AcknowledgeHostAssignment (cancelled : bool) (identity : HostIdentity) (assignmentID : string) (fence : Z)
    (receiptDigest : string) (now : Time) : L bool :=
  live cancelled;;
  _ ← authenticateHostLocked identity now;
  l ← get;
  match assignmentLocked identity assignmentID fence l with
  | None => fail ErrStaleFence
  | Some (key, operation) =>
    guard_or ErrStaleFence (validBounded receiptDigest maxDigestBytes && Before now (asg_LeaseExpiresAt (ope_Assignment operation)));;
    let fields := dispatch_at l key in
    if daf_ReceiptDigest fields ≠? "" then
      guard_or ErrHostProtocolViolation (daf_ReceiptDigest fields ≟ receiptDigest);; mret true
    else put_dispatch key (daf_acknowledged receiptDigest (toUTC now) fields);; mret false
  end.

Definition RenewHostAssignment (cancelled : bool) (identity : HostIdentity) (assignmentID : string) (fence : Z)
    (now leaseExpiresAt : Time) (seed : DeliverySeed) (signer : EnvelopeSigner) : L HostDispatch :=
  live cancelled;;
  _ ← authenticateHostLocked identity now;
  l ← get;
  match assignmentLocked identity assignmentID fence l with
  | None => fail ErrStaleFence
  | Some (key, operation) =>
    let a := ope_Assignment operation in
    guard_or ErrStaleFence (in_progress (ope_State operation) && Before now (asg_LeaseExpiresAt a) &&
      validDeliverySeed seed false && bool_decide (is_Some signer) && lease_bounded now leaseExpiresAt &&
      negb (asg_FencingToken a =? max_u64) && negb (asg_LeaseEpoch a =? max_u64));;
    let a := mkAssignment (asg_HostID a) (asg_HostGeneration a) (asg_AssignmentID a) (u64 (asg_LeaseEpoch a + 1))
               (u64 (asg_FencingToken a + 1)) (toUTC leaseExpiresAt) in
    let seed := mkDeliverySeed assignmentID (sed_EnvelopeID seed) (sed_DeliveryID seed) (sed_Nonce seed) in
    let renewed := ope_put (ope_State operation) (ope_Version operation) a operation in
    match sign signer (envelopeFor renewed now leaseExpiresAt seed) with
    | None => fail ErrOther
    | Some wire =>
      let fields := mkDispatchFields assignmentID (hid_Generation identity) (asg_LeaseEpoch a) (sed_EnvelopeID seed)
                      (sed_DeliveryID seed) (Digest wire) wire "" "" "" "" "" zeroTime in
      let operation := reassign (ope_State operation) a operation in
      put_dispatch key fields;;
      commit key operation OutboxDispatched;;
      mret (dispatchFrom operation fields)
    end
  end.

(** *** Output *)

Definition outputFields (o : Output) : hostOutputFields :=
  mkOutputFields (oup_OutputID o) (oup_AssignmentID o) (oup_Stream o) (oup_Sequence o) (oup_ChunkDigest o) (oup_SizeBytes o)
    (oup_Chunk o) (oup_Redacted o) (toUTC (oup_ObservedAt o)).

Definition sameHostOutputHeaderFields (l r : hostOutputFields) : bool :=
  (hof_OutputID l ≟ hof_OutputID r) && (hof_AssignmentID l ≟ hof_AssignmentID r) && (hof_Stream l ≟ hof_Stream r) &&
  (hof_Sequence l =? hof_Sequence r) && (hof_ChunkDigest l ≟ hof_ChunkDigest r) && (hof_SizeBytes l =? hof_SizeBytes r) &&
  (instant (hof_ObservedAt l) =? instant (hof_ObservedAt r)).

Definition sameHostOutputFields (l r : hostOutputFields) : bool :=
  sameHostOutputHeaderFields l r && bool_decide (hof_Redacted l = hof_Redacted r) && (hof_Chunk l ≟ hof_Chunk r).

Definition validHostOutputImmutableBinding (identity : HostIdentity) (operation : Operation) (o : Output) : bool :=
  let a := ope_Assignment operation in
  let chunkMatches := (len (oup_Chunk o) =? 0) ||
                      ((u32 (len (oup_Chunk o)) =? oup_SizeBytes o) && (Digest (oup_Chunk o) ≟ oup_ChunkDigest o)) in
  (oup_ProtocolVersion o ≟ Version) && (oup_HostID o ≟ hid_HostID identity) && (oup_HostGeneration o =? hid_Generation identity) &&
  (oup_AssignmentID o ≟ asg_AssignmentID a) && (oup_LeaseEpoch o =? asg_LeaseEpoch a) && (oup_FencingToken o =? asg_FencingToken a) &&
  (oup_Principal o ≟ ope_Principal operation) && (oup_OperationID o ≟ ope_ID operation) &&
  ((oup_Stream o ≟ "stdout") || (oup_Stream o ≟ "stderr")) && (0 <? oup_Sequence o) && validBounded (oup_OutputID o) 128 &&
  validBounded (oup_ChunkDigest o) maxDigestBytes && (0 <? oup_SizeBytes o) && (oup_SizeBytes o <=? 256 * 2 ^ 10) &&
  chunkMatches && negb (IsZero (oup_ObservedAt o)).

Definition validHostOutputLiveBinding (operation : Operation) (o : Output) (receivedAt : Time) : bool :=
  in_progress (ope_State operation) && Before receivedAt (asg_LeaseExpiresAt (ope_Assignment operation)) &&
  negb (After (oup_ObservedAt o) receivedAt).

Definition defaultRetainedOutputBytes : Z := 16 * 2 ^ 20.
Definition retainedOutputLimit (operation : Operation) : Z :=
  if ope_RetainedOutputBytes operation =? 0 then defaultRetainedOutputBytes else ope_RetainedOutputBytes operation.

Definition hostOutputKey (assignmentID stream : string) (sequence : Z) : string :=
  assignmentID +:+ NUL +:+ stream +:+ NUL +:+ decimal sequence.

Definition on_stream (assignmentID stream : string) (f : hostOutputFields) : bool :=
  (hof_AssignmentID f ≟ assignmentID) && (hof_Stream f ≟ stream).

Definition hof_drop_Chunk (f : hostOutputFields) : hostOutputFields :=
  mkOutputFields (hof_OutputID f) (hof_AssignmentID f) (hof_Stream f) (hof_Sequence f) (hof_ChunkDigest f) (hof_SizeBytes f) ""
    (hof_Redacted f) (hof_ObservedAt f).

Definition by_sequence (a b : string * hostOutputFields) : Prop := hof_Sequence a.2 <= hof_Sequence b.2.
#[export] Instance by_sequence_dec : RelDecision by_sequence.
Proof. intros a b. unfold by_sequence. apply _. Defined.

(** The retained chunks of a stream, oldest first. *)
Definition retained_entries (assignmentID stream : string) (m : gmap string hostOutputFields) : list (string * hostOutputFields) :=
  merge_sort by_sequence
    (List.filter (fun e => on_stream assignmentID stream e.2 && (0 <? len (hof_Chunk e.2))) (map_to_list m)).

Definition retained_total (l : list (string * hostOutputFields)) : Z := foldl (fun total e => u64 (total + len (hof_Chunk e.2))) 0 l.

Fixpoint trim_loop (incoming limit total : Z) (entries : list (string * hostOutputFields)) (m : gmap string hostOutputFields)
  : gmap string hostOutputFields :=
  match entries with
  | [] => m
  | (key, f) :: entries =>
    if limit <? u64 (total + incoming)
    then trim_loop incoming limit (u64 (total - len (hof_Chunk f))) entries (<[key := hof_drop_Chunk f]> m)
    else m
  end.

Definition trimOutputLocked (assignmentID stream : string) (incoming limit : Z) (m : gmap string hostOutputFields)
  : gmap string hostOutputFields :=
  let entries := retained_entries assignmentID stream m in trim_loop incoming limit (retained_total entries) entries m.

(** The loop that finds the last sequence number of the stream. *)
Definition last_sequence (assignmentID stream : string) (m : gmap string hostOutputFields) : Z :=
  foldl (fun last f => if on_stream assignmentID stream f && (last <? hof_Sequence f) then hof_Sequence f else last) 0
    (map_to_list m).*2.

Definition RecordAuthenticatedHostOutput (cancelled : bool) (identity : HostIdentity) (output : Output) (receivedAt : Time)
  : L bool :=
  live cancelled;;
  _ ← authenticateHostLocked identity receivedAt;
  l ← get;
  match assignmentLocked identity (oup_AssignmentID output) (oup_FencingToken output) l with
  | None => fail ErrStaleFence
  | Some (_, operation) =>
    guard_or ErrStaleFence (validHostOutputImmutableBinding identity operation output);;
    let fields := outputFields output in
    let key := hostOutputKey (oup_AssignmentID output) (oup_Stream output) (oup_Sequence output) in
    match hostOutput l !! key with
    | Some prior =>
      guard_or ErrHostProtocolViolation (sameHostOutputHeaderFields prior fields &&
        negb ((0 <? len (hof_Chunk prior)) && negb (sameHostOutputFields prior fields)));;
      mret true
    | None =>
      guard_or ErrStaleFence (validHostOutputLiveBinding operation output receivedAt);;
      guard_or ErrHostProtocolViolation
        (oup_Sequence output =? u64 (last_sequence (oup_AssignmentID output) (oup_Stream output) (hostOutput l) + 1));;
      guard_or ErrHostProtocolViolation (oup_SizeBytes output <=? retainedOutputLimit operation);;
      modify (fun l => put_hostOutput (<[key := fields]> (trimOutputLocked (oup_AssignmentID output) (oup_Stream output)
        (oup_SizeBytes output) (retainedOutputLimit operation) (hostOutput l))) l);;
      mret false
    end
  end.

(** *** Data-plane receipts *)

Definition validHostDataPlaneReceiptImmutableBinding (identity : HostIdentity) (operation : Operation) (r : DataPlaneReceipt) : bool :=
  let a := ope_Assignment operation in
  (dpr_ProtocolVersion r ≟ Version) && (dpr_HostID r ≟ hid_HostID identity) && (dpr_HostGeneration r =? hid_Generation identity) &&
  (dpr_AssignmentID r ≟ asg_AssignmentID a) && (dpr_LeaseEpoch r =? asg_LeaseEpoch a) && (dpr_FencingToken r =? asg_FencingToken a) &&
  (dpr_OperationID r ≟ ope_ID operation) && validBounded (dpr_ReceiptID r) 128 &&
  ((dpr_Kind r ≟ "transfer") || (dpr_Kind r ≟ "snapshot-restore") || (dpr_Kind r ≟ "mount")) &&
  validBounded (dpr_ReceiptDigest r) maxDigestBytes.

Definition validHostDataPlaneReceiptLiveBinding (operation : Operation) (receivedAt : Time) : bool :=
  (ope_State operation ≟ StateStarted) && Before receivedAt (asg_LeaseExpiresAt (ope_Assignment operation)).

Definition dataPlaneReceiptFields (r : DataPlaneReceipt) : hostDataPlaneReceiptFields :=
  mkReceiptFields (dpr_ReceiptID r) (dpr_AssignmentID r) (dpr_LeaseEpoch r) (dpr_FencingToken r) (dpr_OperationID r) (dpr_Kind r)
    (dpr_ReceiptDigest r).

Definition sameDataPlaneReceiptFields (left right : hostDataPlaneReceiptFields) : bool := left ≟ right.

Definition dataPlaneReceiptRequired (o : Operation) : bool :=
  (ope_Kind o ≟ "agent-runtime.guest-transfer/v1") || (ope_Kind o ≟ "agent-runtime.guest-snapshot-restore/v1") ||
  (ope_Kind o ≟ "agent-runtime.guest-mount/v1").

Definition dataPlaneReceiptKey (assignmentID : string) (leaseEpoch fencingToken : Z) : string :=
  assignmentID +:+ NUL +:+ decimal leaseEpoch +:+ NUL +:+ decimal fencingToken.

Definition RecordAuthenticatedDataPlaneReceipt (cancelled : bool) (identity : HostIdentity) (receipt : DataPlaneReceipt)
    (receivedAt : Time) : L bool :=
  live cancelled;;
  _ ← authenticateHostLocked identity receivedAt;
  l ← get;
  match assignmentLocked identity (dpr_AssignmentID receipt) (dpr_FencingToken receipt) l with
  | None => fail ErrStaleFence
  | Some (key, operation) =>
    guard_or ErrStaleFence (validHostDataPlaneReceiptImmutableBinding identity operation receipt);;
    let fields := dataPlaneReceiptFields receipt in
    let receiptKey := dataPlaneReceiptKey (dpr_AssignmentID receipt) (dpr_LeaseEpoch receipt) (dpr_FencingToken receipt) in
    match hostReceipts l !! receiptKey with
    | Some prior => guard_or ErrHostProtocolViolation (sameDataPlaneReceiptFields prior fields);; mret true
    | None =>
      guard_or ErrStaleFence (validHostDataPlaneReceiptLiveBinding operation receivedAt);;
      modify (fun l => put_hostReceipts (<[receiptKey := fields]> (hostReceipts l)) l);;
      put_dispatch key (daf_receipted fields (dispatch_at l key));;
      mret false
    end
  end.
End Iteration.

(** *** Results *)

Definition validHostResultImmutableBinding (identity : HostIdentity) (operation : Operation) (r : Result) : bool :=
  let a := ope_Assignment operation in
  (hms_HostID r ≟ hid_HostID identity) && (hms_HostGeneration r =? hid_Generation identity) &&
  (hms_AssignmentID r ≟ asg_AssignmentID a) && (hms_LeaseEpoch r =? asg_LeaseEpoch a) && (hms_FencingToken r =? asg_FencingToken a) &&
  (hms_Principal r ≟ ope_Principal operation) && (hms_OperationID r ≟ ope_ID operation) &&
  (hms_EffectiveSpecDigest r ≟ ope_EffectiveSpecDigest operation) && (hms_CapabilityDigest r ≟ ope_CapabilityDigest operation) &&
  negb (IsZero (hms_ObservedAt r)).

Definition validHostResultLiveBinding (operation : Operation) (r : Result) (receivedAt : Time) : bool :=
  Before receivedAt (asg_LeaseExpiresAt (ope_Assignment operation)) && negb (After (hms_ObservedAt r) receivedAt).

(** [State(text)] *)
Definition state_of (text : string) : State :=
  if text ≟ "accepted" then StateAccepted else if text ≟ "dispatched" then StateDispatched else
  if text ≟ "started" then StateStarted else if text ≟ "succeeded" then StateSucceeded else
  if text ≟ "failed" then StateFailed else if text ≟ "cancelled" then StateCancelled else
  if text ≟ "uncertain" then StateUncertain else if text ≟ "cleanup-pending" then StateCleanupPending else
  if text ≟ "cleanup-confirmed" then StateCleanupConfirmed else if text ≟ "expired" then StateExpired else
  if text ≟ "tombstoned" then StateTombstoned else StateOther text.

Definition RecordAuthenticatedHostResult (cancelled : bool) (identity : HostIdentity) (result : Result) (receivedAt : Time)
  : L Operation :=
  live cancelled;;
  _ ← authenticateHostLocked identity receivedAt;
  let key := operationKey (hms_Principal result) (hms_OperationID result) in
  l ← get;
  match operations l !! key with
  | None => fail ErrStaleFence
  | Some operation =>
    guard_or ErrStaleFence (validHostResultImmutableBinding identity operation result);;
    let fields := dispatch_at l key in
    guard_or ErrHostProtocolViolation (daf_ReceiptDigest fields ≠? "");;
    let next := state_of (hms_State result) in
    match authenticatedResultDigest result with
    | None => fail ErrHostProtocolViolation
    | Some resultDigest =>
      if ope_State operation ≟ next then
        guard_or ErrHostProtocolViolation (daf_ResultDigest fields ≟ resultDigest);; mret operation
      else
        guard_or ErrHostProtocolViolation
          (negb ((next ≟ StateSucceeded) && dataPlaneReceiptRequired operation && (daf_DataReceiptDigest fields ≟ "")));;
        guard_or ErrStaleFence (validHostResultLiveBinding operation result receivedAt);;
        guard_or ErrInvalidTransition (permits (ope_State operation) next);;
        let operation := advance_to next operation in
        put_dispatch key (daf_set_ResultDigest resultDigest fields);;
        commit key operation OutboxStateChanged;;
        mret operation
    end
  end.

Definition ConfirmHostCleanupAndRequeue (cancelled : bool) (principal operationID : string) (version : Z) (observedAt : Time)
  : L Operation :=
  live cancelled;;
  let key := operationKey principal operationID in
  operation ← lookup_operation key;
  guard_or ErrInvalidTransition ((ope_State operation ≟ StateUncertain) && (ope_Version operation =? version) &&
    ope_CleanupRequired operation && negb (IsZero observedAt));;
  let a := ope_Assignment operation in
  guard_or ErrInvalidTransition (negb ((asg_HostID a ≠? "") && (asg_FencingToken a =? max_u64)));;
  let operation := reassign StateAccepted
    (if asg_HostID a ≠? "" then unassigned (u64 (asg_FencingToken a + 1)) else a) operation in
  drop_dispatch key;;
  commit key operation OutboxStateChanged;;
  mret operation.

(** ** Output replay *)

(** [sandbox.OutputEvent] of a chunk. *)
Record ChunkEvent : Type := mkChunkEvent { che_Cursor : string; che_Stream : string; che_Bytes : string; che_Redacted : bool }.

Definition owned_output (principal processID : string) (l : MemoryLedger) (f : hostOutputFields) : bool :=
  existsb (fun o => (ope_Principal o ≟ principal) && (ope_TargetKind o ≟ "process") && (ope_TargetID o ≟ processID) &&
                    (asg_AssignmentID (ope_Assignment o) ≟ hof_AssignmentID f)) (map_to_list (operations l)).*2.

(** By time, then stream, then sequence; chunks that tie are in no specified
    order. *)
Definition replay_order (a b : hostOutputFields) : Prop :=
  instant (hof_ObservedAt a) < instant (hof_ObservedAt b) \/
  instant (hof_ObservedAt a) = instant (hof_ObservedAt b) /\
  (hof_Stream a <> hof_Stream b /\ string_le (hof_Stream a) (hof_Stream b) \/
   hof_Stream a = hof_Stream b /\ hof_Sequence a <= hof_Sequence b).
#[export] Instance replay_order_dec : RelDecision replay_order.
Proof. intros a b. unfold replay_order. apply _. Defined.

Definition output_cursor (f : hostOutputFields) : string :=
  "output:" +:+ hof_AssignmentID f +:+ ":" +:+ hof_Stream f +:+ ":" +:+ decimal (hof_Sequence f).
Definition chunk_event (f : hostOutputFields) : ChunkEvent :=
  mkChunkEvent (output_cursor f) (hof_Stream f) (hof_Chunk f) (hof_Redacted f).

Fixpoint after_cursor (cursor : string) (events : list ChunkEvent) : option (list ChunkEvent) :=
  match events with
  | [] => None
  | e :: events => if che_Cursor e ≟ cursor then Some events else after_cursor cursor events
  end.

Definition replayAfter (events : list ChunkEvent) (after : string) : option (list ChunkEvent) :=
  if (after ≟ "") || (after ≟ "0") then Some events else after_cursor after events.

Definition replay_items (principal processID : string) (l : MemoryLedger) : list hostOutputFields :=
  merge_sort replay_order
    (List.filter (fun f => (0 <? len (hof_Chunk f)) && owned_output principal processID l f) (map_to_list (hostOutput l)).*2).

Definition ReplayOutput (cancelled : bool) (principal processID after : string) : L (list ChunkEvent) :=
  live cancelled;;
  guard_or ErrNotFoundOrDenied (validBounded principal maxPrincipalBytes && validBounded processID maxOperationIDBytes);;
  l ← get;
  match replayAfter (chunk_event <$> replay_items principal processID l) after with
  | Some events => mret events
  | None => fail ErrOther
  end.
