(* ===== verification/LedgerSteps.v ===== *)
(** * The sandbox ledger: simulation by commits

    Every call on the ledger, of clients and of hosts, successful or not, is a
    sequence of atomic steps: a commit that adds or changes one operation and
    appends its outbox record, or a change of the host tables only. *)

From Stdlib Require Import Ascii String.
From S2P Require Import Prelude GoString Sha256 GoTime GoJson HostProtocol SandboxLedger SandboxHost.

Open Scope Z_scope.

(** ** Commits *)

(** The fields of an operation that acceptance fixes. *)
Definition op_identity (o : Operation) :=
  (ope_Principal o, ope_Tenant o, ope_ID o, ope_Kind o, (ope_TargetKind o, ope_TargetID o), ope_InputDigest o,
   ope_CanonicalDigest o, ope_EffectiveSpecDigest o, ope_CapabilityDigest o, ope_DispatchBody o,
   (ope_AcceptedAt o, ope_RetentionExpiresAt o, ope_CleanupRequired o, ope_RetainedOutputBytes o, ope_ResourceProjectionBinding o)).

Definition token (o : Operation) : Z := asg_FencingToken (ope_Assignment o).

(** [ConfirmHostCleanupAndRequeue] of an operation without a host. *)
Definition requeues (current next : State) : bool := (current ≟ StateUncertain) && (next ≟ StateAccepted).

(** The states from which [Reap] tombstones. *)
Definition reapable (o : Operation) : Prop :=
  ope_State o ∈ [StateSucceeded; StateFailed; StateCancelled; StateUncertain; StateCleanupConfirmed; StateExpired] /\
  (ope_CleanupRequired o = true -> ope_State o = StateCleanupConfirmed).

(** Every change the operations make to the state and the assignment of an operation, one
    constructor per kind.  All but the first and the last advance the fencing token. *)
Inductive op_change (o o' : Operation) : Prop :=
| op_moved (* a reported or requested transition, or a requeue without a host *)
    (_ : ope_Assignment o' = ope_Assignment o) (_ : permits (ope_State o) (ope_State o') || requeues (ope_State o) (ope_State o') = true)
| op_assigned (* Assign and PullHostAssignment *)
    (_ : assignable (ope_State o) = true) (_ : ope_State o' = StateDispatched) (_ : token o' = u64 (token o + 1))
| op_renewed (* RenewHostAssignment *)
    (_ : in_progress (ope_State o) = true) (_ : ope_State o' = ope_State o) (_ : token o' = u64 (token o + 1))
    (_ : asg_HostID (ope_Assignment o') = asg_HostID (ope_Assignment o)) (_ : asg_AssignmentID (ope_Assignment o') = asg_AssignmentID (ope_Assignment o))
| op_lost (* an expired lease, or a revoked or quarantined host *)
    (_ : isTerminalState (ope_State o) = false) (_ : ope_State o' = StateUncertain) (_ : ope_Assignment o' = unassigned (u64 (token o + 1)))
| op_claimed (* ClaimExpiredCleanup *)
    (_ : ope_CleanupRequired o = true) (_ : ope_State o ∉ [StateCleanupPending; StateCleanupConfirmed; StateTombstoned])
    (_ : ope_State o' = StateCleanupPending) (_ : ope_Assignment o' = unassigned (u64 (token o + 1)))
| op_requeued (* ConfirmHostCleanupAndRequeue of an operation with a host *)
    (_ : ope_State o = StateUncertain) (_ : ope_State o' = StateAccepted) (_ : ope_Assignment o' = unassigned (u64 (token o + 1)))
| op_reaped (* Reap *)
    (_ : reapable o) (_ : ope_State o' = StateTombstoned) (_ : ope_Assignment o' = unassigned (token o)).

(** One commit to an operation: what acceptance fixed stays, the version advances by one. *)
Inductive op_step (o o' : Operation) : Prop :=
| op_changed (_ : op_identity o' = op_identity o) (_ : ope_Version o' = u64 (ope_Version o + 1)) (_ : op_change o o').

Lemma op_change_live o o' : op_change o o' -> ope_State o <> StateTombstoned.
Proof.
  intros H E. destruct H as [_ H|H|H|H|_ H|H|[H _]]; rewrite ?E in H; try done; set_solver.
Qed.

Definition record_of (l : MemoryLedger) (o : Operation) (event : OutboxEvent) : OutboxRecord :=
  mkOutboxRecord (u64 (Z.of_nat (length (outbox l)) + 1)) (ope_Principal o) (ope_ID o) (ope_Version o) event (ope_State o).

(** The ledger after a commit, up to the dispatches. *)
Definition commits (l : MemoryLedger) (key : string) (o : Operation) (event : OutboxEvent) (l' : MemoryLedger) : Prop :=
  operations l' = <[key := o]> (operations l) /\ outbox l' = outbox l ++ [record_of l o event] /\
  hosts l' = hosts l /\ hostOutput l' = hostOutput l /\ hostReceipts l' = hostReceipts l.

(** What enrollment fixes of a host. *)
Definition host_identity (h : HostEnrollment) :=
  (hst_HostID h, hst_Tenant h, hst_Pool h, hst_Generation h, hst_ProtocolVersion h, hst_CertificateDigest h,
   (hst_SigningPublicKey h, hst_ObservationPublicKey h, hst_BootProbeProfile h, hst_CapabilityDigest h),
   (hst_AttestationDigest h, hst_AttestationProfile h, hst_AttestationState h, hst_ExpiresAt h)).

(** A change of an enrollment: once it is not active it never is again. *)
Definition host_step (h h' : HostEnrollment) : Prop :=
  host_identity h' = host_identity h /\
  (hst_Status h <> HostActive -> hst_Status h' = hst_Status h \/ hst_Status h' = HostRevoked).

Definition hosts_keyed (l : MemoryLedger) : Prop :=
  forall key h, hosts l !! key = Some h -> key = hostEnrollmentKey (hst_HostID h) (hst_Generation h) /\ 0 < hst_Generation h.

(** A write of an enrollment keeps this, and steps the enrollment it replaces. *)
Definition enrolls (l : MemoryLedger) (key : string) (h : HostEnrollment) : Prop :=
  hosts_keyed l -> (key = hostEnrollmentKey (hst_HostID h) (hst_Generation h) /\ 0 < hst_Generation h) /\
    forall h0, hosts l !! key = Some h0 -> host_step h0 h.

(** A recorded chunk is within bounds and, while its bytes are retained, they are
    the bytes its size and digest announce. *)
Definition sealed (f : hostOutputFields) : Prop :=
  (hof_Stream f = "stdout" \/ hof_Stream f = "stderr") /\ 0 < hof_SizeBytes f <= 256 * 2 ^ 10 /\
  (hof_Chunk f = "" \/ (u32 (len (hof_Chunk f)) = hof_SizeBytes f /\ Digest (hof_Chunk f) = hof_ChunkDigest f)).

(** The output table after a chunk was recorded within a limit. *)
Definition records (m : gmap string hostOutputFields) (limit : Z) (f : hostOutputFields) (m' : gmap string hostOutputFields) : Prop :=
  let key := hostOutputKey (hof_AssignmentID f) (hof_Stream f) (hof_Sequence f) in
  m !! key = None /\ sealed f /\ 0 < hof_Sequence f /\ hof_SizeBytes f <= limit /\
  hof_Sequence f = u64 (last_sequence (hof_AssignmentID f) (hof_Stream f) m + 1) /\
  m' = <[key := f]> (trimOutputLocked (hof_AssignmentID f) (hof_Stream f) (hof_SizeBytes f) limit m).

Inductive ledger_step (l l' : MemoryLedger) : Prop :=
| step_accepted key o event :
    operations l !! key = None -> key = operationKey (ope_Principal o) (ope_ID o) ->
    ContainsAny (ope_Principal o) NUL = false -> ContainsAny (ope_ID o) NUL = false ->
    ope_State o = StateAccepted -> ope_Version o = 1 -> commits l key o event l' -> ledger_step l l'
| step_changed key o o' event :
    operations l !! key = Some o -> op_step o o' -> commits l key o' event l' -> ledger_step l l'
| step_enrolled key h :
    enrolls l key h -> l' = put_hosts (<[key := h]> (hosts l)) l -> ledger_step l l'
| step_dispatched m : l' = put_dispatches m l -> ledger_step l l'
| step_output limit f m : records (hostOutput l) limit f m -> l' = put_hostOutput m l -> ledger_step l l'
| step_receipt key r : hostReceipts l !! key = None -> l' = put_hostReceipts (<[key := r]> (hostReceipts l)) l -> ledger_step l l'.

(** The requests of authenticated hosts. *)
Inductive HostRequest : Type :=
| HostAuthenticate (cancelled : bool) (identity : HostIdentity) (now : Time)
| HostPull (cancelled : bool) (identity : HostIdentity) (now leaseExpiresAt : Time) (seed : DeliverySeed) (signer : EnvelopeSigner)
| HostAcknowledge (cancelled : bool) (identity : HostIdentity) (assignmentID : string) (fence : Z) (receiptDigest : string) (now : Time)
| HostRenew (cancelled : bool) (identity : HostIdentity) (assignmentID : string) (fence : Z) (now leaseExpiresAt : Time)
    (seed : DeliverySeed) (signer : EnvelopeSigner)
| HostOutput (cancelled : bool) (identity : HostIdentity) (output : Output) (receivedAt : Time)
| HostReceipt (cancelled : bool) (identity : HostIdentity) (receipt : DataPlaneReceipt) (receivedAt : Time)
| HostReport (cancelled : bool) (identity : HostIdentity) (result : Result) (receivedAt : Time).

Definition request_cancelled (r : HostRequest) : bool :=
  match r with
  | HostAuthenticate c _ _ | HostPull c _ _ _ _ _ | HostAcknowledge c _ _ _ _ _ | HostRenew c _ _ _ _ _ _ _
  | HostOutput c _ _ _ | HostReceipt c _ _ _ | HostReport c _ _ _ => c
  end.
Definition request_identity (r : HostRequest) : HostIdentity :=
  match r with
  | HostAuthenticate _ i _ | HostPull _ i _ _ _ _ | HostAcknowledge _ i _ _ _ _ | HostRenew _ i _ _ _ _ _ _
  | HostOutput _ i _ _ | HostReceipt _ i _ _ | HostReport _ i _ _ => i
  end.
Definition request_time (r : HostRequest) : Time :=
  match r with
  | HostAuthenticate _ _ t | HostPull _ _ t _ _ _ | HostAcknowledge _ _ _ _ _ t | HostRenew _ _ _ _ t _ _ _
  | HostOutput _ _ _ t | HostReceipt _ _ _ t | HostReport _ _ _ t => t
  end.

(** What the methods return. *)
Inductive HostReply : Type :=
| HostAuthenticated (h : HostEnrollment) | HostAssigned (d : HostDispatch) | HostRecorded (duplicate : bool) | HostAdvanced (o : Operation).

Definition host_call (iteration : gmap string Operation -> list string) (r : HostRequest) : L HostReply :=
  match r with
  | HostAuthenticate c i now => h ← AuthenticateHost c i now; mret (HostAuthenticated h)
  | HostPull c i now until seed signer => d ← PullHostAssignment iteration c i now until seed signer; mret (HostAssigned d)
  | HostAcknowledge c i a f d now => b ← AcknowledgeHostAssignment iteration c i a f d now; mret (HostRecorded b)
  | HostRenew c i a f now until seed signer => d ← RenewHostAssignment iteration c i a f now until seed signer; mret (HostAssigned d)
  | HostOutput c i output at_ => b ← RecordAuthenticatedHostOutput iteration c i output at_; mret (HostRecorded b)
  | HostReceipt c i receipt at_ => b ← RecordAuthenticatedDataPlaneReceipt iteration c i receipt at_; mret (HostRecorded b)
  | HostReport c i result at_ => o ← RecordAuthenticatedHostResult c i result at_; mret (HostAdvanced o)
  end.

(** The calls of clients, operators and hosts, whatever they return. *)
Inductive ledger_call : MemoryLedger -> MemoryLedger -> Prop :=
| call_accept typed cancelled o l : ledger_call l (Accept typed cancelled o l).2
| call_transition cancelled principal id version next l : ledger_call l (Transition cancelled principal id version next l).2
| call_assign cancelled principal id host until l : ledger_call l (Assign cancelled principal id host until l).2
| call_result cancelled principal id result l : ledger_call l (RecordHostResult cancelled principal id result l).2
| call_recover cancelled now limit l : ledger_call l (RecoverExpiredAssignments cancelled now limit l).2
| call_claim cancelled now limit l : ledger_call l (ClaimExpiredCleanup cancelled now limit l).2
| call_reap cancelled now limit l : ledger_call l (Reap cancelled now limit l).2
| call_provision cancelled cancelled' enrollment input verifier l :
    ledger_call l (ProvisionHost cancelled cancelled' enrollment input verifier l).2
| call_revoke cancelled host generation now l : ledger_call l (RevokeHost cancelled host generation now l).2
| call_quarantine cancelled identity reason now l : ledger_call l (QuarantineHost cancelled identity reason now l).2
| call_requeue cancelled principal id version observed l :
    ledger_call l (ConfirmHostCleanupAndRequeue cancelled principal id version observed l).2
| call_host iteration request l : ledger_call l (host_call iteration request l).2.

(** ** Running methods *)

Lemma bind_run {A B} (m : L A) (k : A -> L B) l :
  (m ≫= k) l = match m l with (Ok a, l') => k a l' | (Err e, l') => (Err e, l') end.
Proof. done. Qed.

Lemma guard_run e b l : (guard_or e b : L unit) l = (if b then Ok tt else Err e, l).
Proof. by destruct b. Qed.

Lemma get_run l : (get : L MemoryLedger) l = (Ok l, l).
Proof. done. Qed.

Lemma lookup_run key l :
  lookup_operation key l = (match operations l !! key with Some o => Ok o | None => Err ErrNotFoundOrDenied end, l).
Proof. unfold lookup_operation. rewrite bind_run. simpl. by destruct (operations l !! key). Qed.

(** The enrollment that admits an identity at a time. *)
Definition admits (l : MemoryLedger) (identity : HostIdentity) (now : Time) (h : HostEnrollment) : Prop :=
  hosts l !! hostEnrollmentKey (hid_HostID identity) (hid_Generation identity) = Some h /\
  validHostEnrollment h = true /\ hst_Status h = HostActive /\ hst_Generation h = hid_Generation identity /\
  hst_CertificateDigest h = hid_CertificateDigest identity /\ hst_ProtocolVersion h = Version /\
  IsZero now = false /\ instant now < instant (hst_ExpiresAt h).

(** The ledger after the authentication. *)
Definition authenticated (l : MemoryLedger) (identity : HostIdentity) (h : HostEnrollment) : MemoryLedger :=
  put_hosts (<[hostEnrollmentKey (hid_HostID identity) (hid_Generation identity) := h]> (hosts l)) l.

Lemma authenticate_run identity now l :
  (exists h, admits l identity now h /\
    let h' := hst_set_LastAuthenticatedAt (toUTC now) h in
    authenticateHostLocked identity now l = (Ok h', authenticated l identity h')) \/
  (~ (exists h, admits l identity now h) /\ authenticateHostLocked identity now l = (Err ErrHostDenied, l)).
Proof.
  unfold authenticateHostLocked, admits. cbv zeta. rewrite bind_run, get_run.
  destruct (hosts l !! _) as [h|] eqn:Hh; [|right; split; [naive_solver | done]]. rewrite bind_run, guard_run.
  destruct (_ && _) eqn:Hb; [left | right].
  - exists h. bools. unfold Before in Hb. bools. split_and!; done || lia.
  - split; [|done]. intros (h' & [= <-] & Hv & Hs & Hg & Hc & Hp & Hz & Ht). apply not_true_iff_false in Hb. apply Hb.
    unfold Before. rewrite Hv, Hz, Hg, Z.eqb_refl, !bool_decide_eq_true_2 by done. simpl. by apply Z.ltb_lt.
Qed.

(** ** Preorders that methods keep

    [keeps R m]: whatever [m] returns, the ledger it leaves is [R]-related to the
    one it found. *)

Definition keeps {A} (R : MemoryLedger -> MemoryLedger -> Prop) (m : L A) : Prop := forall l, R l (m l).2.

Create HintDb ledger discriminated.

Section keeps.
Context (R : MemoryLedger -> MemoryLedger -> Prop) `{!PreOrder R}.

Lemma keeps_ret {A} (a : A) : keeps R (mret a).
Proof. intros l. reflexivity. Qed.
Lemma keeps_fail {A} e : keeps R (fail e : L A).
Proof. intros l. reflexivity. Qed.
Lemma keeps_guard e b : keeps R (guard_or e b : L unit).
Proof. intros l. destruct b; reflexivity. Qed.
Lemma keeps_live b : keeps R (live b).
Proof. apply keeps_guard. Qed.
Lemma keeps_get : keeps R (get : L MemoryLedger).
Proof. intros l. reflexivity. Qed.

Lemma keeps_bind {A B} (m : L A) (k : A -> L B) : keeps R m -> (forall a, keeps R (k a)) -> keeps R (m ≫= k).
Proof.
  intros Hm Hk l. unfold mbind, M_bind. specialize (Hm l). destruct (m l) as [[a|e] l']; [|exact Hm].
  etrans; [exact Hm | apply Hk].
Qed.

(** After reading the ledger, the continuation may use what it read. *)
Lemma keeps_read {A} (k : MemoryLedger -> L A) : (forall l, R l (k l l).2) -> keeps R (get ≫= k).
Proof. intros Hk l. apply Hk. Qed.

(** A method that looks up an operation and commits a change of it. *)
Lemma keeps_update {A} key (k : Operation -> L A) :
  (forall o l, operations l !! key = Some o -> R l (k o l).2) -> keeps R (lookup_operation key ≫= k).
Proof.
  intros Hk l. rewrite bind_run, lookup_run.
  destruct (operations l !! key) as [o|] eqn:Ho; [by apply Hk | reflexivity].
Qed.

Lemma kept_guard {A} e b (k : L A) l : (b = true -> R l (k l).2) -> R l ((guard_or e b ≫= fun _ => k) l).2.
Proof. intros Hk. destruct b; [by apply Hk | reflexivity]. Qed.

Lemma keeps_guarded {A} e b (k : L A) : (b = true -> keeps R k) -> keeps R (guard_or e b ≫= fun _ => k).
Proof. intros Hk l. apply kept_guard. intros Hb. by apply Hk. Qed.
End keeps.

(** Walk through a method: guards and returns keep every preorder. *)
Ltac keeps_step :=
  lazymatch goal with
  | |- keeps _ (guard_or _ _ ≫= _) => apply keeps_guarded; [apply _ | intros ?Hb]
  | |- keeps _ (live _ ≫= _) => apply keeps_bind; [apply _ | apply keeps_live; apply _ | intros _]
  | |- keeps _ (get ≫= _) => apply keeps_read; [apply _..|intros ?l]
  | |- keeps ?R (mret _) => apply keeps_ret; apply _
  | |- keeps ?R (fail _) => apply keeps_fail; apply _
  | |- keeps ?R (guard_or _ _) => apply keeps_guard; apply _
  | |- ?R ?l ((guard_or ?e ?b ≫= _) ?l).2 => apply (kept_guard R); intros ?Hb
  | |- ?R ?l ((fail _) ?l).2 => reflexivity
  | |- ?R ?l ((mret _) ?l).2 => reflexivity
  | |- ?R ?l ((guard_or _ ?b) ?l).2 => destruct b; reflexivity
  end.
Ltac keeps_walk := repeat keeps_step.

(** ** Every call is a sequence of steps *)

Notation steps := (keeps (rtc ledger_step)).

Lemma put_dispatch_steps key f : steps (put_dispatch key f).
Proof. intros l. apply rtc_once. by eapply step_dispatched. Qed.
#[export] Hint Resolve put_dispatch_steps : ledger.

Lemma put_host_step key h l : enrolls l key h -> rtc ledger_step l (put_host key h l).2.
Proof. intros Hh. by apply rtc_once, (step_enrolled _ _ key h). Qed.

(** A change of the status or the times of a stored enrollment. *)
Lemma enrolls_put l key h status reason expires authenticated :
  hosts l !! key = Some h -> expires = hst_ExpiresAt h ->
  (hst_Status h <> HostActive -> status = hst_Status h \/ status = HostRevoked) ->
  enrolls l key (hst_put status reason expires authenticated h).
Proof.
  intros Hh -> Hs Hk. split; [by apply (Hk key h)|]. rewrite Hh. intros h0 [= <-]. by split.
Qed.

Lemma commit_step {A} key o o' event (a : A) l :
  operations l !! key = Some o -> op_step o o' ->
  rtc ledger_step l ((commit key o' event ≫= fun _ => mret a : L A) l).2.
Proof. intros Ho Hs. apply rtc_once. by apply (step_changed _ _ key o o' event). Qed.

Lemma dispatch_commit_step {A} key f o o' event (a : A) l :
  operations l !! key = Some o -> op_step o o' ->
  rtc ledger_step l ((put_dispatch key f ≫= fun _ => commit key o' event ≫= fun _ => mret a : L A) l).2.
Proof. intros Ho Hs. apply rtc_once. by apply (step_changed _ _ key o o' event). Qed.

Lemma undispatch_commit_step key o o' event l :
  operations l !! key = Some o -> op_step o o' ->
  ledger_step l ((drop_dispatch key ≫= fun _ => commit key o' event : L unit) l).2.
Proof. intros Ho Hs. by apply (step_changed _ _ key o o' event). Qed.

Lemma advance_step next o : permits (ope_State o) next = true -> op_step o (advance_to next o).
Proof.
  intros Hp. constructor; [done | done|]. apply op_moved; [done|]. simpl. by rewrite Hp.
Qed.

Lemma reassign_step next a o : op_change o (reassign next a o) -> op_step o (reassign next a o).
Proof. by constructor. Qed.

Lemma steps_transition cancelled principal id version next : steps (Transition cancelled principal id version next).
Proof.
  unfold Transition. keeps_walk. apply keeps_update; [apply _|]. intros o l Ho. keeps_walk.
  apply (commit_step _ o); [done|]. apply advance_step. by bools.
Qed.

Lemma steps_assign cancelled principal id host until : steps (Assign cancelled principal id host until).
Proof.
  unfold Assign. keeps_walk. apply keeps_update; [apply _|]. intros o l Ho. keeps_walk.
  apply (commit_step _ o); [done|]. by apply reassign_step, op_assigned.
Qed.

Lemma steps_result cancelled principal id result : steps (RecordHostResult cancelled principal id result).
Proof.
  unfold RecordHostResult. keeps_walk. apply keeps_update; [apply _|]. intros o l Ho. cbv zeta. keeps_walk.
  apply (commit_step _ o); [done|]. by apply advance_step.
Qed.

Lemma steps_accept typed cancelled o : steps (Accept typed cancelled o).
Proof.
  unfold Accept. keeps_walk. cbv zeta. keeps_walk.
  destruct (operations l !! _) as [prior|] eqn:Hp; keeps_walk. apply rtc_once.
  apply (step_accepted _ _ _ (accepted (normalizeOperationForPersistence o)) OutboxAccepted Hp); try done;
    unfold validateOperation, validBounded in Hb; by bools.
Qed.

Definition visits_step (visit : Operation -> visited) : Prop :=
  forall o o' event, visit o = Change o' event -> op_step o o'.

Lemma steps_sweep visit limit keys changed : visits_step visit -> steps (sweep visit limit changed keys).
Proof.
  intros Hv. revert changed. induction keys as [|key keys IH]; intros changed l; cbn [sweep]; [apply rtc_refl|].
  case_match; [apply rtc_refl|]. rewrite bind_run, get_run. destruct (operations l !! key) as [o|] eqn:Ho; [|apply IH].
  destruct (visit o) as [|o' event|] eqn:Hc; [apply IH | | apply rtc_refl]. rewrite bind_run. eapply rtc_l; [|apply IH].
  apply (step_changed _ _ key o o' event); [done | by eapply Hv | done].
Qed.

Lemma steps_sweep_all visit cancelled now limit : visits_step visit -> steps (sweep_all visit cancelled now limit).
Proof. intros Hv. unfold sweep_all. keeps_walk. by apply steps_sweep. Qed.

Lemma visits_cleanup now : visits_step (visit_cleanup now).
Proof. intros o o' event. unfold visit_cleanup. case_match; [done|]. intros [= <- <-]. bools. apply reassign_step, op_claimed; [done | set_solver | done | done]. Qed.

Lemma visits_expired_lease now : visits_step (visit_expired_lease now).
Proof.
  intros o o' event. unfold visit_expired_lease. case_match eqn:Hs; [done|]. case_match; [done|]. intros [= <- <-]. bools.
  apply reassign_step, op_lost; [|done|done]. by destruct (ope_State o).
Qed.

Lemma visits_reapable now : visits_step (visit_reapable now).
Proof.
  intros o o' event. unfold visit_reapable. case_match; [done|]. case_match; [done|]. intros [= <- <-]. bools.
  apply reassign_step, op_reaped; [|done|done]. split.
  - destruct (ope_State o); try done; set_solver.
  - intros Hc. rewrite Hc in H. by apply negb_false_iff, bool_decide_eq_true_1 in H.
Qed.

(** ** Hosts *)

Lemma steps_authenticate identity now : steps (authenticateHostLocked identity now).
Proof.
  intros l. destruct (authenticate_run identity now l) as [(h & (Hh & _) & ->)|[_ ->]]; [|apply rtc_refl].
  apply put_host_step. apply enrolls_put; [done | done | by left].
Qed.
#[export] Hint Resolve steps_authenticate : ledger.

Lemma steps_provision cancelled cancelled' enrollment input verifier :
  steps (ProvisionHost cancelled cancelled' enrollment input verifier).
Proof.
  unfold ProvisionHost. keeps_walk. destruct (evaluateHostEnrollment _ _ _ _) as [h|]; keeps_walk.
  destruct (hosts l !! _) eqn:Hh; keeps_walk. rewrite bind_run. cbn [put_host modify]. rewrite guard_run. simpl snd.
  apply put_host_step. intros _. unfold validHostEnrollment in Hb. bools. split; [done | congruence].
Qed.

Lemma steps_fence_loop host generation fenced keys : steps (fence_loop host generation StateUncertain fenced keys).
Proof.
  revert fenced. induction keys as [|key keys IH]; intros fenced; cbn [fence_loop]; keeps_walk.
  destruct (operations l !! key) as [o|] eqn:Ho; [|apply IH]. destruct (_ || _) eqn:Hb; [apply IH|]. bools. cbv zeta.
  eapply rtc_l; [|apply IH]. eapply (undispatch_commit_step key o); [done|]. by apply reassign_step, op_lost.
Qed.

Lemma steps_fence host generation : steps (fenceHostLocked host generation StateUncertain).
Proof. unfold fenceHostLocked. keeps_walk. apply steps_fence_loop. Qed.

Lemma steps_revoke cancelled host generation now : steps (RevokeHost cancelled host generation now).
Proof.
  unfold RevokeHost. keeps_walk. cbv zeta. keeps_walk. destruct (hosts l !! _) as [h|] eqn:Hh; keeps_walk.
  rewrite bind_run. etrans; [apply (put_host_step (hostEnrollmentKey host generation) (hst_set_Status HostRevoked h)), enrolls_put; [done | done | by right]|].
  apply (keeps_bind (rtc ledger_step)); [by apply steps_fence | intros _; keeps_walk].
Qed.

Lemma steps_quarantine cancelled identity reason now : steps (QuarantineHost cancelled identity reason now).
Proof.
  unfold QuarantineHost. keeps_walk. intros l. rewrite bind_run.
  pose proof (steps_authenticate identity now l) as Ha.
  destruct (authenticate_run identity now l) as [(h & (Hh & _ & Hs & Hg & _) & He)|[_ ->]]; [|apply rtc_refl]. cbv zeta in He.
  rewrite He in *. simpl in Ha. etrans; [exact Ha|]. clear Ha He.
  assert (Hh' : hosts (authenticated l identity (hst_set_LastAuthenticatedAt (toUTC now) h)) !!
                hostEnrollmentKey (hid_HostID identity) (hid_Generation identity) = Some (hst_set_LastAuthenticatedAt (toUTC now) h))
    by apply lookup_insert_eq.
  revert Hh'. generalize (authenticated l identity (hst_set_LastAuthenticatedAt (toUTC now) h)). clear l Hh. intros l Hh. keeps_walk.
  rewrite bind_run. etrans; [eapply put_host_step | by apply steps_fence]. intros Hk. destruct (Hk _ _ Hh) as [He Hg']. split; [done|].
  rewrite <- He, Hh. intros h0 [= <-]. split; [done|]. intros Hn. by destruct Hn.
Qed.

Lemma steps_requeue cancelled principal id version observed :
  steps (ConfirmHostCleanupAndRequeue cancelled principal id version observed).
Proof.
  unfold ConfirmHostCleanupAndRequeue. keeps_walk. apply keeps_update; [apply _|]. intros o l Ho. cbv zeta. keeps_walk. bools.
  apply rtc_once. apply (undispatch_commit_step _ o); [done|].
  destruct (asg_HostID (ope_Assignment o) ≠? ""); [by apply reassign_step, op_requeued|].
  constructor; [done | done|]. apply op_moved; [done|]. simpl.
  match goal with H : ope_State o = StateUncertain |- _ => by rewrite H end.
Qed.

Section Iteration.
Context (iteration : gmap string Operation -> list string).

Lemma first_entry_Some p m keys key o : first_entry p m keys = Some (key, o) -> key ∈ keys /\ m !! key = Some o /\ p o = true.
Proof.
  induction keys as [|k keys IH]; simpl; [done|]. destruct (m !! k) as [x|] eqn:Hx; [destruct (p x) eqn:Hp|].
  - intros [= <- <-]. split_and!; [by left | done | done].
  - intros (? & ? & ?)%IH. split_and!; [by right | done | done].
  - intros (? & ? & ?)%IH. split_and!; [by right | done | done].
Qed.

Lemma steps_pull cancelled identity now until seed signer : steps (PullHostAssignment iteration cancelled identity now until seed signer).
Proof.
  unfold PullHostAssignment. keeps_walk. apply keeps_bind; [apply _ | auto with ledger | intros h]. keeps_walk.
  destruct (first_entry (current_for h now) _ _) as [[key o]|]; keeps_walk.
  destruct (first_entry (eligible h) _ _) as [[key o]|] eqn:Hf; keeps_walk. cbv zeta. case_match; keeps_walk.
  apply first_entry_Some in Hf as (_ & Ho & He). unfold eligible in He. bools.
  apply (dispatch_commit_step _ _ o); [done|]. apply reassign_step, op_assigned; [|done|done].
  match goal with H : ope_State o = StateAccepted |- _ => by rewrite H end.
Qed.

Lemma steps_acknowledge cancelled identity a f d now : steps (AcknowledgeHostAssignment iteration cancelled identity a f d now).
Proof.
  unfold AcknowledgeHostAssignment. keeps_walk. apply keeps_bind; [apply _ | auto with ledger | intros h]. keeps_walk.
  destruct (assignmentLocked _ _ _ _ _) as [[key o]|]; keeps_walk. cbv zeta. case_match; keeps_walk.
  rewrite bind_run. apply put_dispatch_steps.
Qed.

Lemma steps_renew cancelled identity a f now until seed signer :
  steps (RenewHostAssignment iteration cancelled identity a f now until seed signer).
Proof.
  unfold RenewHostAssignment. keeps_walk. apply keeps_bind; [apply _ | auto with ledger | intros h]. keeps_walk.
  destruct (assignmentLocked _ _ _ _ _) as [[key o]|] eqn:Hf; keeps_walk. cbv zeta. keeps_walk. case_match; keeps_walk.
  apply first_entry_Some in Hf as (_ & Ho & _). bools. apply (dispatch_commit_step _ _ o); [done|]. by apply reassign_step, op_renewed.
Qed.

Lemma binding_sealed identity o output : validHostOutputImmutableBinding identity o output = true ->
  sealed (outputFields output) /\ 0 < oup_Sequence output.
Proof.
  unfold validHostOutputImmutableBinding, sealed. cbn [outputFields hof_Stream hof_SizeBytes hof_Chunk hof_ChunkDigest].
  intros H. bools. rewrite !orb_true_iff, !andb_true_iff, !bool_decide_eq_true in *. split; [|done].
  split_and!; [done | done | done |].
  match goal with Hc : _ \/ _ = _ /\ _ |- _ => destruct Hc as [Hc|[Hu Hd]] end; [left | right; split; [lia | done]].
  destruct (oup_Chunk output); [done|]. unfold len in *. simpl in *. lia.
Qed.

Lemma steps_output cancelled identity output at_ : steps (RecordAuthenticatedHostOutput iteration cancelled identity output at_).
Proof.
  unfold RecordAuthenticatedHostOutput. keeps_walk. apply keeps_bind; [apply _ | auto with ledger | intros h]. keeps_walk.
  destruct (assignmentLocked _ _ _ _ _) as [[key o]|]; keeps_walk. cbv zeta. case_match eqn:Hp; keeps_walk.
  apply rtc_once. eapply (step_output _ _ (retainedOutputLimit o) (outputFields output)); [|done].
  apply binding_sealed in Hb as [Hs Hq]. apply Z.eqb_eq in Hb1. bools. unfold records. by split_and!.
Qed.

Lemma steps_receipt cancelled identity receipt at_ : steps (RecordAuthenticatedDataPlaneReceipt iteration cancelled identity receipt at_).
Proof.
  unfold RecordAuthenticatedDataPlaneReceipt. keeps_walk. apply keeps_bind; [apply _ | auto with ledger | intros h]. keeps_walk.
  destruct (assignmentLocked _ _ _ _ _) as [[key o]|]; keeps_walk. cbv zeta. case_match eqn:Hp; keeps_walk.
  eapply rtc_l; [by eapply step_receipt|]. apply rtc_once. by eapply step_dispatched.
Qed.

Lemma steps_report cancelled identity result at_ : steps (RecordAuthenticatedHostResult cancelled identity result at_).
Proof.
  unfold RecordAuthenticatedHostResult. keeps_walk. apply keeps_bind; [apply _ | auto with ledger | intros h]. cbv zeta. keeps_walk.
  destruct (operations l !! _) as [o|] eqn:Ho; keeps_walk. destruct (authenticatedResultDigest _); keeps_walk.
  case_match; keeps_walk. apply (dispatch_commit_step _ _ o); [done|]. by apply advance_step.
Qed.

Lemma steps_host r : steps (host_call iteration r).
Proof.
  destruct r; cbn [host_call]; (apply keeps_bind; [apply _ | | intros; keeps_walk]).
  - unfold AuthenticateHost. keeps_walk. apply steps_authenticate.
  - apply steps_pull.
  - apply steps_acknowledge.
  - apply steps_renew.
  - apply steps_output.
  - apply steps_receipt.
  - apply steps_report.
Qed.
End Iteration.

Lemma call_steps l l' : rtc ledger_call l l' -> rtc ledger_step l l'.
Proof.
  induction 1 as [l|l l1 l' Hc _ IH]; [apply rtc_refl|]. etrans; [|exact IH]. destruct Hc.
  - apply steps_accept.
  - apply steps_transition.
  - apply steps_assign.
  - apply steps_result.
  - apply steps_sweep_all, visits_expired_lease.
  - apply steps_sweep_all, visits_cleanup.
  - apply steps_sweep_all, visits_reapable.
  - apply steps_provision.
  - apply steps_revoke.
  - apply steps_quarantine.
  - apply steps_requeue.
  - apply steps_host.
Qed.
