(* ===== verification/LedgerTheorems.v ===== *)
(** * The sandbox ledger: theorems

    Consequences of the simulation of [LedgerSteps]: the life cycle of operations,
    complete outbox histories, isolation of principals, the fencing of superseded
    hosts, idempotent acceptance, and the sweeps. *)

From Stdlib Require Import Ascii String.
From stdpp Require Import sorting.
From S2P Require Import Prelude GoString Sha256 GoTime GoJson HostProtocol SandboxLedger SandboxHost LedgerSteps.

Open Scope Z_scope.

(** ** The life cycle of an operation *)

Lemma step_lookup l l' key o :
  ledger_step l l' -> operations l !! key = Some o ->
  exists o', operations l' !! key = Some o' /\ (o' = o \/ op_step o o' /\ length (outbox l') = S (length (outbox l))).
Proof.
  intros Hs Ho. destruct Hs as [k x event Hn _ _ _ _ _ (H1 & H2 & _)|k x x' event Hx Hs (H1 & H2 & _)|? ? ? ->|? ->|? ? ? ? ->|? ? ? ->];
    rewrite ?H1; eauto.
  - exists o. rewrite lookup_insert_ne by congruence. auto.
  - destruct (decide (k = key)) as [->|Hne].
    + exists x'. rewrite lookup_insert_eq. simplify_eq. rewrite H2, length_app. split; [done|]. right. split; [done | simpl; lia].
    + exists o. rewrite lookup_insert_ne by done. auto.
Qed.

Lemma steps_lookup l l' key o :
  rtc ledger_step l l' -> operations l !! key = Some o ->
  exists o', operations l' !! key = Some o' /\ rtc op_step o o'.
Proof.
  intros Hs. revert o. induction Hs as [l|l l1 l' H1 _ IH]; intros o Ho; [exists o; split; [done | apply rtc_refl]|].
  destruct (step_lookup _ _ _ _ H1 Ho) as (o1 & Ho1 & Hstep). destruct (IH _ Ho1) as (o' & Ho' & Hr).
  exists o'. split; [done|]. destruct Hstep as [->|[Hstep _]]; [done | by eapply rtc_l].
Qed.

Lemma op_steps_identity o o' : rtc op_step o o' -> op_identity o' = op_identity o.
Proof. induction 1 as [|o o1 o' [H1 _ _] _ IH]; congruence. Qed.

(** C30: an accepted operation is permanent and its admission data immutable: no
    sequence of calls, failing ones included, removes an operation, moves it to
    another key or alters its owner, target, digests, body, retention or resource
    binding.  Every change advances the version by one and is of a kind listed by
    [op_change]: a move that [permits] allows, or a requeue, under the same assignment; the
    assignment of an assignable operation, which is then dispatched; the renewal of one in
    progress by its host; the loss of the host of one that is not terminal, which is then
    uncertain (from cleanup-pending too, which [permits] does not allow); the claim for
    cleanup of one that needs it; the requeue of an uncertain one; reaping.  A tombstoned
    operation never changes again. *)
Theorem operations_permanent l l' key o :
  rtc ledger_call l l' -> operations l !! key = Some o ->
  exists o', operations l' !! key = Some o' /\ op_identity o' = op_identity o /\ rtc op_step o o' /\
    (ope_State o = StateTombstoned -> o' = o).
Proof.
  intros Hc Ho. destruct (steps_lookup _ _ _ _ (call_steps _ _ Hc) Ho) as (o' & Ho' & Hr). exists o'.
  split_and!; [done | by apply op_steps_identity | done |]. intros Ht. destruct Hr as [|o o1 o' [_ _ Hs]]; [done|]. by destruct (op_change_live _ _ Hs).
Qed.

(** ** Fencing *)

Lemma step_token o o' : op_step o o' -> 0 <= token o < max_u64 -> token o <= token o' <= token o + 1.
Proof.
  intros [_ _ H] Hb. assert (Hs : u64 (token o + 1) = token o + 1) by (apply u64_small; lia).
  destruct H as [Ha _|_ _ Ha|_ _ Ha _ _|_ _ Ha|_ _ _ Ha|_ _ Ha|_ _ Ha]; unfold token in *; rewrite Ha; cbn; lia.
Qed.

Lemma outbox_monotone l l' : rtc ledger_step l l' -> (length (outbox l) <= length (outbox l'))%nat.
Proof.
  induction 1 as [|a b c Hab _ IH]; [done|]. etrans; [|exact IH]. destruct Hab as [????????? (_ & -> & _)|?????? (_ & -> & _)|? ? ? ->|? ->|? ? ? ? ->|? ? ? ->]; rewrite ?length_app; simpl; lia.
Qed.

Lemma steps_token l l' key o :
  rtc ledger_step l l' -> operations l !! key = Some o -> 0 <= token o ->
  token o + Z.of_nat (length (outbox l')) - Z.of_nat (length (outbox l)) <= max_u64 ->
  exists o', operations l' !! key = Some o' /\
    token o <= token o' <= token o + Z.of_nat (length (outbox l')) - Z.of_nat (length (outbox l)).
Proof.
  intros Hs. revert o. induction Hs as [l|l l1 l' H1 Hs IH]; intros o Ho Hpos Hb; [exists o; split; [done | lia]|].
  destruct (step_lookup _ _ _ _ H1 Ho) as (o1 & Ho1 & Hstep).
  pose proof (outbox_monotone _ _ Hs) as Hmono.
  pose proof (outbox_monotone _ _ (rtc_once _ _ H1)) as Hmono1.
  destruct Hstep as [->|[Hstep Hlen]].
  - destruct (IH _ Ho1) as (o' & Ho' & Hr); [lia | lia |]. exists o'. split; [done | lia].
  - pose proof (step_token _ _ Hstep ltac:(lia)).
    destruct (IH _ Ho1) as (o' & Ho' & Hr); [lia | lia |]. exists o'. split; [done | lia].
Qed.

(** No token that is outdated in [l2] is current again later. *)
Lemma token_superseded l1 l2 l3 key o1 o2 :
  rtc ledger_call l1 l2 -> rtc ledger_call l2 l3 ->
  operations l1 !! key = Some o1 -> operations l2 !! key = Some o2 -> token o1 <> token o2 ->
  0 <= token o1 -> token o1 + Z.of_nat (length (outbox l3)) <= max_u64 ->
  exists o3, operations l3 !! key = Some o3 /\ token o1 < token o3.
Proof.
  intros H12%call_steps H23%call_steps H1 H2 Hne Hpos Hb.
  pose proof (outbox_monotone _ _ H12) as Hm12. pose proof (outbox_monotone _ _ H23) as Hm23.
  destruct (steps_token _ _ _ _ H12 H1) as (x2 & Hx2 & Ht2); [lia | lia |]. simplify_eq.
  destruct (steps_token _ _ _ _ H23 H2) as (o3 & H3 & Ht3); [lia | lia |]. exists o3. split; [done | lia].
Qed.

(** A superseded host is fenced for good.  Once an operation's fencing token
    has moved on from the one a host was assigned, every later result that carries
    the old token, directly or through the authenticated protocol, is refused and
    changes no operation, outbox record, dispatch, output or receipt, after any
    number of further calls (as long as the token has not run through all 64-bit
    values). *)
Theorem superseded_host_fenced l1 l2 l3 principal id o1 o2 :
  let key := operationKey principal id in
  rtc ledger_call l1 l2 -> rtc ledger_call l2 l3 ->
  operations l1 !! key = Some o1 -> operations l2 !! key = Some o2 -> token o1 <> token o2 ->
  0 <= token o1 -> token o1 + Z.of_nat (length (outbox l3)) <= max_u64 ->
  (forall result, hre_FencingToken result = token o1 ->
     RecordHostResult false principal id result l3 = (Err ErrStaleFence, l3)) /\
  (forall identity report now, hms_FencingToken report = token o1 -> hms_Principal report = principal -> hms_OperationID report = id ->
     exists e l4, RecordAuthenticatedHostResult false identity report now l3 = (Err e, l4) /\
       (e = ErrHostDenied \/ e = ErrStaleFence) /\ put_hosts (hosts l3) l4 = l3).
Proof.
  intros key H12 H23 H1 H2 Hne Hpos Hb. destruct (token_superseded _ _ _ _ _ _ H12 H23 H1 H2 Hne Hpos Hb) as (o3 & H3 & Ht).
  split.
  - intros result Hr. unfold RecordHostResult, live. rewrite bind_run, guard_run. simpl negb.
    rewrite bind_run, lookup_run. fold key. rewrite H3, bind_run, guard_run.
    replace (hre_FencingToken result =? asg_FencingToken (ope_Assignment o3)) with false
      by (symmetry; apply Z.eqb_neq; unfold token in *; lia).
    by rewrite andb_false_r, andb_false_l.
  - intros identity report now Hr Hp Hi. unfold RecordAuthenticatedHostResult, live. rewrite bind_run, guard_run. simpl negb.
    rewrite bind_run. destruct (authenticate_run identity now l3) as [(h & _ & ->)|(_ & ->)];
      [|eexists _, _; split_and!; [done | by left | by destruct l3]].
    rewrite bind_run, get_run, Hp, Hi. unfold authenticated at 1. cbn [operations put_hosts]. fold key. rewrite H3, bind_run, guard_run.
    assert (validHostResultImmutableBinding identity o3 report = false) as ->.
    { unfold validHostResultImmutableBinding. apply not_true_iff_false. intros Hv. bools. unfold token in *. lia. }
    eexists _, _. split_and!; [done | by right | by destruct l3].
Qed.

(** ** Keys *)

(** The principal is the part of a key before its first NUL. *)
Lemma key_split p i p' i' :
  ContainsAny p' NUL = false -> ContainsAny i' NUL = false -> operationKey p i = operationKey p' i' -> p = p' /\ i = i'.
Proof.
  unfold operationKey, ContainsAny. intros Hp Hi He. apply (f_equal bytes) in He. rewrite !bytes_app in He.
  cut (bytes p = bytes p' /\ bytes i = bytes i'); [intros [H1 H2]; by split; apply bytes_inj|].
  revert Hp Hi He. generalize (bytes p) (bytes p') (bytes i) (bytes i'). change (bytes NUL) with [0].
  intros l l' m m'. revert l'. induction l as [|x l IH]; intros [|y l'] Hl Hm; simpl in *; intros He; simplify_eq.
  - done.
  - exfalso. clear -Hm. induction l as [|x l IH]; simpl in Hm; [done|]. apply orb_false_iff in Hm as [_ Hm]. auto.
  - apply orb_false_iff in Hl as [_ Hl]. by destruct (IH l' Hl Hm ltac:(assumption)) as [-> ->].
Qed.

(** ** The outbox *)

Definition of_operation (principal id : string) (r : OutboxRecord) : bool :=
  (obr_Principal r ≟ principal) && (obr_OperationID r ≟ id).
Definition facts (o : Operation) (l : MemoryLedger) : list OutboxRecord :=
  List.filter (of_operation (ope_Principal o) (ope_ID o)) (outbox l).

(** Every operation is stored under its own key, and its outbox records are the
    versions 1, 2, ... up to the current one, ending in the current state; records
    are numbered consecutively and belong to stored operations. *)
Record ledger_ok (l : MemoryLedger) : Prop := mkLedgerOk {
  ok_keys : forall key o, operations l !! key = Some o ->
    key = operationKey (ope_Principal o) (ope_ID o) /\ ContainsAny (ope_Principal o) NUL = false /\
    ContainsAny (ope_ID o) NUL = false;
  ok_ids : obr_ID <$> outbox l = seqZ 1 (Z.of_nat (length (outbox l)));
  ok_facts : forall key o, operations l !! key = Some o ->
    obr_OperationVersion <$> facts o l = seqZ 1 (ope_Version o) /\ 0 < ope_Version o /\
    obr_State <$> last (facts o l) = Some (ope_State o);
  ok_owners : forall r, r ∈ outbox l -> is_Some (operations l !! operationKey (obr_Principal r) (obr_OperationID r))
}.

Lemma seqZ_snoc n : 0 <= n -> seqZ 1 n ++ [n + 1] = seqZ 1 (n + 1).
Proof. intros Hn. rewrite seqZ_app by lia. simpl. f_equal. rewrite seqZ_cons by lia. by rewrite seqZ_nil by lia; rewrite Z.add_comm. Qed.

Lemma facts_committed l key o event l' x :
  commits l key o event l' ->
  facts x l' = facts x l ++ if of_operation (ope_Principal x) (ope_ID x) (record_of l o event) then [record_of l o event] else [].
Proof. intros (_ & H & _). unfold facts. by rewrite H, List.filter_app. Qed.

Lemma facts_length o l : (length (facts o l) <= length (outbox l))%nat.
Proof. apply filter_length_le. Qed.

Lemma facts_version o l : obr_OperationVersion <$> facts o l = seqZ 1 (ope_Version o) -> 0 < ope_Version o ->
  ope_Version o <= Z.of_nat (length (outbox l)).
Proof.
  intros Hf Hp. apply (f_equal length) in Hf. rewrite length_fmap, length_seqZ in Hf. pose proof (facts_length o l). lia.
Qed.

(** A committed operation keeps or starts a complete history; the others keep
    theirs. *)
Lemma ok_committed l key o event l' :
  ledger_ok l -> commits l key o event l' -> Z.of_nat (length (outbox l')) <= max_u64 ->
  key = operationKey (ope_Principal o) (ope_ID o) -> ContainsAny (ope_Principal o) NUL = false ->
  ContainsAny (ope_ID o) NUL = false ->
  obr_OperationVersion <$> facts o l = seqZ 1 (ope_Version o - 1) -> 0 < ope_Version o ->
  ledger_ok l'.
Proof.
  intros [Hk Hi Hf Ho] Hc Hb -> Hp Hd Hv Hpos. destruct (Hc) as (H1 & H2 & _). rewrite H2, length_app in Hb. simpl in Hb. constructor.
  - intros k x. rewrite H1. destruct (decide (operationKey (ope_Principal o) (ope_ID o) = k)) as [<-|Hne];
      [rewrite lookup_insert_eq; by intros [= <-] | rewrite lookup_insert_ne by done; apply Hk].
  - rewrite H2, fmap_app, Hi, length_app. simpl. rewrite u64_small by lia.
    rewrite seqZ_snoc by lia. f_equal. lia.
  - intros k x Hx. rewrite (facts_committed _ _ _ _ _ _ Hc). rewrite H1 in Hx. unfold of_operation. simpl.
    destruct (decide (operationKey (ope_Principal o) (ope_ID o) = k)) as [<-|Hne].
    + rewrite lookup_insert_eq in Hx. simplify_eq. rewrite !bool_decide_eq_true_2 by done. simpl.
      rewrite fmap_app, Hv, last_snoc. simpl. split_and!; [|done|done].
      replace (ope_Version x) with (ope_Version x - 1 + 1) at 2 3 by lia. by apply seqZ_snoc; lia.
    + rewrite lookup_insert_ne in Hx by done. destruct (Hk _ _ Hx) as (-> & Hxp & Hxi).
      replace (_ && _) with false; [rewrite app_nil_r; by apply (Hf _ _ Hx)|]. symmetry. apply andb_false_iff.
      destruct (decide (ope_Principal o = ope_Principal x)); [|left; by apply bool_decide_eq_false_2].
      right. apply bool_decide_eq_false_2. congruence.
  - rewrite H1, H2. intros r [Hr| ->%list_elem_of_singleton]%elem_of_app; simpl.
    + destruct (Ho r Hr) as [x Hx]. destruct (decide (operationKey (ope_Principal o) (ope_ID o) = operationKey (obr_Principal r) (obr_OperationID r)))
        as [->|Hne]; [rewrite lookup_insert_eq; by eexists | rewrite lookup_insert_ne by done; by eexists].
    + rewrite lookup_insert_eq. by eexists.
Qed.

Lemma facts_absent l o :
  ledger_ok l -> operations l !! operationKey (ope_Principal o) (ope_ID o) = None -> facts o l = [].
Proof.
  intros Hok Hn. unfold facts. destruct (List.filter _ _) as [|r rs] eqn:Hf; [done|]. exfalso.
  assert (Hin : In r (List.filter (of_operation (ope_Principal o) (ope_ID o)) (outbox l))) by (rewrite Hf; by left).
  apply filter_In in Hin as [Hin%list_elem_of_In Hr]. unfold of_operation in Hr. bools.
  destruct (ok_owners _ Hok r Hin) as [x Hx]. congruence.
Qed.

Lemma step_ok l l' : ledger_ok l -> ledger_step l l' -> Z.of_nat (length (outbox l')) <= max_u64 -> ledger_ok l'.
Proof.
  intros Hok [key o event Hn -> Hp Hd _ Hv Hc | key o o' event Ho [Hid Hv _] Hc | ? ? ? -> | ? -> | ? ? ? ? -> | ? ? ? ->] Hb.
  - eapply ok_committed; [done.. | | lia]. rewrite (facts_absent _ _ Hok Hn), Hv. done.
  - destruct (ok_keys _ Hok _ _ Ho) as (-> & Hp & Hd). destruct (ok_facts _ Hok _ _ Ho) as (Hf & Hpos & _).
    pose proof (facts_version _ _ Hf Hpos) as Hle. unfold op_identity in Hid. injection Hid as Hip _ Hii _ _ _ _ _ _ _ _ _ _ _ _ _.
    assert (Hlen := Hb). rewrite (proj1 (proj2 Hc)), length_app in Hlen. simpl in Hlen. rewrite u64_small in Hv by lia.
    eapply ok_committed; [exact Hok | exact Hc | done | by rewrite Hip, Hii | by rewrite Hip | by rewrite Hii | | lia].
    replace (ope_Version o' - 1) with (ope_Version o) by lia. unfold facts. by rewrite Hip, Hii.
  - by destruct Hok.
  - by destruct Hok.
  - by destruct Hok.
  - by destruct Hok.
Qed.

Lemma steps_ok l l' : ledger_ok l -> rtc ledger_step l l' -> Z.of_nat (length (outbox l')) <= max_u64 -> ledger_ok l'.
Proof.
  intros Hok Hs. induction Hs as [|l l1 l' H1 Hs IH]; [done|]. intros Hb. apply IH; [|done].
  eapply step_ok; [done | done |]. pose proof (outbox_monotone _ _ Hs). lia.
Qed.

Lemma new_ok : ledger_ok NewMemoryLedger.
Proof.
  constructor; simpl.
  - intros key o H. by rewrite lookup_empty in H.
  - done.
  - intros key o H. by rewrite lookup_empty in H.
  - by intros r ?%elem_of_nil.
Qed.

(** C32: the outbox is complete.  In every ledger reached by calls (of at most
    2^64-1 changes) the outbox records are numbered 1, 2, ..., n; the records of
    each operation are exactly its versions 1, 2, ..., v in order, the last one
    carrying its current state; and no record belongs to an unknown operation.
    Every committed change is published exactly once and no change escapes. *)
Theorem outbox_complete l :
  rtc ledger_call NewMemoryLedger l -> Z.of_nat (length (outbox l)) <= max_u64 ->
  obr_ID <$> outbox l = seqZ 1 (Z.of_nat (length (outbox l))) /\
  (forall key o, operations l !! key = Some o ->
     obr_OperationVersion <$> facts o l = seqZ 1 (ope_Version o) /\
     obr_State <$> last (facts o l) = Some (ope_State o)) /\
  (forall r, r ∈ outbox l -> is_Some (operations l !! operationKey (obr_Principal r) (obr_OperationID r))).
Proof.
  intros Hs%call_steps Hb. destruct (steps_ok _ _ new_ok Hs Hb) as [_ Hi Hf Ho].
  split_and!; [done | | done]. intros key o Hk. by destruct (Hf key o Hk) as (? & _ & ?).
Qed.

(** Principals are isolated.  In every reachable ledger a caller that names a
    principal and an operation id, arbitrary strings included, reads the operation
    only if that principal owns it under that id; every other read is refused
    without revealing whether the id exists. *)
Theorem get_isolated l principal id :
  rtc ledger_call NewMemoryLedger l -> Z.of_nat (length (outbox l)) <= max_u64 ->
  match Get false principal id l with
  | (Ok o, l') => ope_Principal o = principal /\ ope_ID o = id /\ l' = l
  | (Err e, l') => e = ErrNotFoundOrDenied /\ l' = l /\
      forall key o, operations l !! key = Some o -> ope_Principal o <> principal \/ ope_ID o <> id
  end.
Proof.
  intros Hs%call_steps Hb. pose proof (ok_keys _ (steps_ok _ _ new_ok Hs Hb)) as Hk.
  unfold Get, live. rewrite bind_run, guard_run. simpl negb. rewrite lookup_run.
  destruct (operations l !! operationKey principal id) as [o|] eqn:Ho.
  - destruct (Hk _ _ Ho) as (He & Hp & Hi). apply key_split in He as [-> ->]; done.
  - split_and!; [done | done |]. intros key o Hko. destruct (Hk _ _ Hko) as (-> & _).
    destruct (decide (ope_Principal o = principal)); [right; congruence | by left].
Qed.

Lemma Accept_run typed cancelled o l :
  let n := normalizeOperationForPersistence o in
  let key := operationKey (ope_Principal n) (ope_ID n) in
  Accept typed cancelled o l =
  if cancelled then (Err ErrOther, l) else if validateOperation typed n then
    match operations l !! key with
    | Some prior =>
      if ope_State prior ≟ StateTombstoned then (Err ErrOperationIDExpired, l)
      else if (operationInputDigest prior ≟ operationInputDigest n) &&
              sameResourceProjectionBinding (ope_ResourceProjectionBinding prior) (ope_ResourceProjectionBinding n)
      then (Ok (prior, true), l) else (Err ErrConflict, l)
    | None =>
      if existsb (fun prior => ope_ID prior ≟ ope_ID n) (map_to_list (operations l)).*2 then (Err ErrNotFoundOrDenied, l)
      else (Ok (accepted n, false), put_outbox (outbox l ++ [record_of l (accepted n) OutboxAccepted])
                                      (put_operations (<[key := accepted n]> (operations l)) l))
    end
  else (Err ErrOther, l).
Proof.
  intros n key. unfold Accept, live. rewrite bind_run, guard_run. destruct cancelled; [done|]. simpl negb.
  rewrite bind_run, guard_run. fold n. destruct (validateOperation typed n); [|done]. rewrite bind_run, get_run. fold key.
  destruct (operations l !! key) as [prior|]; rewrite bind_run, guard_run.
  - destruct (bool_decide (ope_State prior = _)); [done|]. simpl negb. rewrite bind_run, guard_run. by destruct (_ && _).
  - by destruct (existsb _ _).
Qed.

(** C33: acceptance is idempotent and exclusive.  After an operation was accepted
    anew, accepting the same request again at any time before the operation is
    tombstoned changes nothing and returns the stored operation as a replay; a
    request with the same owner and id but another input digest or resource
    binding conflicts; and a request with that id from another principal is
    refused. *)
Theorem accept_once typed o l x l1 l2 o' typed' :
  Accept typed false o l = (Ok (x, false), l1) -> rtc ledger_call l1 l2 ->
  let n := normalizeOperationForPersistence o' in
  validateOperation typed' n = true ->
  let key := operationKey (ope_Principal x) (ope_ID x) in
  exists y, operations l2 !! key = Some y /\ op_identity y = op_identity x /\
    (ope_Principal n = ope_Principal x -> ope_ID n = ope_ID x ->
     Accept typed' false o' l2 =
       if ope_State y ≟ StateTombstoned then (Err ErrOperationIDExpired, l2)
       else if (operationInputDigest x ≟ operationInputDigest n) &&
               sameResourceProjectionBinding (ope_ResourceProjectionBinding x) (ope_ResourceProjectionBinding n)
       then (Ok (y, true), l2) else (Err ErrConflict, l2)) /\
    (operations l2 !! operationKey (ope_Principal n) (ope_ID n) = None -> ope_ID n = ope_ID x ->
     Accept typed' false o' l2 = (Err ErrNotFoundOrDenied, l2)).
Proof.
  intros Ha Hs n Hv key. rewrite Accept_run in Ha. cbv zeta in Ha. destruct (validateOperation typed _); [|done].
  destruct (operations l !! _) as [prior|] eqn:Hl; [repeat (case_match; try done)|]. case_match; [done|].
  injection Ha as <- <-.
  destruct (steps_lookup _ _ key (accepted (normalizeOperationForPersistence o)) (call_steps _ _ Hs)) as (y & Hy & Hr).
  { simpl. unfold key. simpl. by rewrite lookup_insert_eq. }
  apply op_steps_identity in Hr. exists y. split_and!; [done | done | |].
  - intros Hp Hi. rewrite Accept_run. cbv zeta. fold n. rewrite Hv, Hp, Hi. fold key. rewrite Hy.
    assert (operationInputDigest y = operationInputDigest (accepted (normalizeOperationForPersistence o)) /\
      ope_ResourceProjectionBinding y = ope_ResourceProjectionBinding (accepted (normalizeOperationForPersistence o))) as [-> ->]; [|done].
    unfold op_identity in Hr. injection Hr as _ _ _ _ _ _ Hin Hcan _ _ _ _ _ _ _ Hres. unfold operationInputDigest. by rewrite Hin, Hcan.
  - intros Hn Hi. rewrite Accept_run. cbv zeta. fold n. rewrite Hv, Hn.
    replace (existsb _ _) with true; [done|]. symmetry. apply existsb_exists. exists y. split.
    + apply list_elem_of_In, list_elem_of_fmap. exists (key, y). split; [done|]. by apply elem_of_map_to_list.
    + apply bool_decide_eq_true_2. rewrite Hi. unfold op_identity in Hr. by injection Hr.
Qed.

(** ** Sweeps *)

Lemma sweep_total visit limit keys changed l :
  (forall o, visit o <> Abandon) -> exists r l', sweep visit limit changed keys l = (Ok r, l').
Proof.
  intros Hv. revert changed l. induction keys as [|key keys IH]; intros changed l; cbn [sweep]; [by eexists _, _|].
  case_match; [by eexists _, _|]. rewrite bind_run, get_run. destruct (operations l !! key) as [o|]; [|apply IH].
  destruct (visit o) as [|o' event|] eqn:Ho; [apply IH | rewrite bind_run; apply IH | by apply Hv in Ho].
Qed.

(** What a finished sweep has done to the operations. *)
Definition swept (visit : Operation -> visited) (limit : Z) (keys : list string) (l : MemoryLedger) (r : list Operation)
    (l' : MemoryLedger) : Prop :=
  (forall key, key ∉ keys -> operations l' !! key = operations l !! key) /\
  (forall key, operations l' !! key = operations l !! key \/
     exists o o' event, operations l !! key = Some o /\ visit o = Change o' event /\ operations l' !! key = Some o') /\
  Z.of_nat (length r) <= limit /\
  (Z.of_nat (length r) < limit -> forall key o o' event, key ∈ keys -> operations l !! key = Some o ->
     visit o = Change o' event -> operations l' !! key = Some o').

Lemma sweep_exact visit limit keys changed l r l' :
  NoDup keys -> Z.of_nat (length changed) <= limit -> sweep visit limit changed keys l = (Ok r, l') ->
  swept visit limit keys l r l'.
Proof.
  revert changed l. induction keys as [|key keys IH]; intros changed l Hnd Hlim; cbn [sweep].
  { intros [= <- <-]. split_and!; [done | by left | done | by intros _ key o o' event ?%elem_of_nil]. }
  apply NoDup_cons in Hnd as [Hnot Hnd]. destruct (Z.eqb_spec (Z.of_nat (length changed)) limit) as [He|He].
  { intros [= <- <-]. split_and!; [done | by left | done | lia]. }
  rewrite bind_run, get_run. destruct (operations l !! key) as [o|] eqn:Ho; [destruct (visit o) as [|o1 ev|] eqn:Hv|].
  2: { rewrite bind_run. intros (H1 & H2 & H3 & H4)%IH; [|done | rewrite length_app; simpl; lia]. simpl in *. split_and!.
    - intros k Hk. apply not_elem_of_cons in Hk as [Hk1 Hk2]. rewrite H1 by done. by rewrite lookup_insert_ne.
    - intros k. destruct (decide (key = k)) as [<-|Hne].
      + right. exists o, o1, ev. rewrite H1, lookup_insert_eq by done. by split_and!.
      + specialize (H2 k). by rewrite lookup_insert_ne in H2.
    - done.
    - intros Hr k x x' ev' [->|Hk]%elem_of_cons Hx Hvx; [rewrite H1 by done; rewrite lookup_insert_eq; congruence|].
      eapply (H4 Hr k x); [done | by rewrite lookup_insert_ne by set_solver | done]. }
  2: done.
  all: intros (H1 & H2 & H3 & H4)%IH; [|done | done]; split_and!; [| done | done |].
  all: try (intros k Hk; apply H1; set_solver).
  all: intros Hr k x x' ev' [->|Hk]%elem_of_cons Hx Hvx; [congruence | eapply H4; eassumption].
Qed.

Lemma sorted_keys_spec (m : gmap string Operation) :
  NoDup (sortedOperationKeys m) /\ forall key, key ∈ sortedOperationKeys m <-> is_Some (m !! key).
Proof.
  unfold sortedOperationKeys, sort_strings. pose proof (merge_sort_Permutation string_le (map_to_list m).*1) as Hp. split.
  - rewrite Hp. apply NoDup_fst_map_to_list.
  - intros key. rewrite Hp, list_elem_of_fmap. split.
    + intros ([k o] & -> & Hk%elem_of_map_to_list). by exists o.
    + intros [o Ho]. exists (key, o). split; [done|]. by apply elem_of_map_to_list.
Qed.

Lemma sweep_all_exact visit now limit l :
  (forall o, visit o <> Abandon) -> validateLedgerPage now limit = true ->
  exists r l', sweep_all visit false now limit l = (Ok r, l') /\ swept visit limit (sortedOperationKeys (operations l)) l r l'.
Proof.
  intros Hv Hp. unfold sweep_all, live. rewrite bind_run, guard_run. simpl negb. rewrite bind_run, guard_run, Hp, bind_run, get_run.
  destruct (sweep_total visit limit (sortedOperationKeys (operations l)) [] l Hv) as (r & l' & Hs). exists r, l'. split; [done|].
  apply (sweep_exact visit limit _ [] l); [apply sorted_keys_spec | | done]. unfold validateLedgerPage in Hp. bools. simpl. lia.
Qed.

(** The operations that may be reaped: retention is over, cleanup is unnecessary
    or confirmed, and the operation is no longer in progress. *)
Definition reapable (now : Time) (o : Operation) : Prop :=
  instant (ope_RetentionExpiresAt o) <= instant now /\
  (ope_CleanupRequired o = true -> ope_State o = StateCleanupConfirmed) /\
  ope_State o ∈ [StateSucceeded; StateFailed; StateCancelled; StateUncertain; StateCleanupConfirmed; StateExpired].

Definition tombstone (o : Operation) : Operation := reassign StateTombstoned (unassigned (token o)) o.

Lemma visit_reapable_spec now o o' event :
  visit_reapable now o = Change o' event <-> reapable now o /\ o' = tombstone o /\ event = OutboxTombstoned.
Proof.
  unfold visit_reapable, reapable, Before. destruct (Z.ltb_spec (instant (toUTC now)) (instant (ope_RetentionExpiresAt o))) as [Hlt|Hge];
    simpl in *.
  { rewrite orb_true_r. simpl. split; [done|]. intros ((Hle & _) & _). lia. }
  rewrite orb_false_r. destruct (ope_CleanupRequired o), (ope_State o); simpl; split;
    try (intros [= <- <-]; split_and!; try done; set_solver); intros ((_ & Hc & Hs) & -> & ->); try done;
    try (specialize (Hc eq_refl); done); exfalso; clear -Hs; set_solver.
Qed.

(** Reaping is safe and complete.  A sweep with a valid page always succeeds;
    it tombstones only operations whose retention has ended, whose cleanup is
    unnecessary or confirmed, and which are not in progress, and leaves every other
    operation exactly as it was; it tombstones at most [limit], and all of them if
    it stays below [limit]. *)
Theorem reap_exact now limit l :
  validateLedgerPage now limit = true ->
  exists reaped l', Reap false now limit l = (Ok reaped, l') /\ Z.of_nat (length reaped) <= limit /\
    (forall key, operations l' !! key = operations l !! key \/
       exists o, operations l !! key = Some o /\ reapable now o /\ operations l' !! key = Some (tombstone o)) /\
    (Z.of_nat (length reaped) < limit -> forall key o, operations l !! key = Some o -> reapable now o ->
       operations l' !! key = Some (tombstone o)).
Proof.
  intros Hp. assert (Hv : forall o, visit_reapable now o <> Abandon).
  { intros o. unfold visit_reapable. by repeat case_match. }
  destruct (sweep_all_exact (visit_reapable now) now limit l Hv Hp) as (r & l' & Hs & _ & H2 & H3 & H4).
  exists r, l'. split_and!; [done | done | |].
  - intros key. destruct (H2 key) as [|(o & o' & ev & Ho & (Hr & -> & _)%visit_reapable_spec & Ho')]; [by left|].
    right. by exists o.
  - intros Hr key o Ho Hre. apply (H4 Hr key o (tombstone o) OutboxTombstoned); [|done | by apply visit_reapable_spec].
    apply sorted_keys_spec. by exists o.
Qed.

(** *** Draining *)

Definition changes (visit : Operation -> visited) (e : string * Operation) : Prop :=
  match visit e.2 with Change _ _ => True | _ => False end.
#[export] Instance changes_dec visit e : Decision (changes visit e).
Proof. unfold changes. destruct (visit e.2); apply _. Defined.

(** The number of operations a sweep would change. *)
Definition pending (visit : Operation -> visited) (l : MemoryLedger) : nat := size (filter (changes visit) (operations l)).

Lemma sweep_count visit limit keys changed l r l' :
  (forall o o' event k, visit o = Change o' event -> ~ changes visit (k, o')) ->
  sweep visit limit changed keys l = (Ok r, l') -> (pending visit l' + length r = pending visit l + length changed)%nat.
Proof.
  intros Hv. revert changed l. induction keys as [|key keys IH]; intros changed l; cbn [sweep]; [intros [= <- <-]; lia|].
  case_match; [intros [= <- <-]; lia|]. rewrite bind_run, get_run. destruct (operations l !! key) as [o|] eqn:Ho; [|apply IH].
  destruct (visit o) as [|o' event|] eqn:Hc; [apply IH | | done]. rewrite bind_run. intros Hn%IH. rewrite length_app in Hn. simpl in Hn.
  cut (S (pending visit (commit key o' event l).2) = pending visit l); [simpl in *; lia|]. unfold pending. simpl.
  assert (Hin : filter (changes visit) (operations l) !! key = Some o)
    by (apply map_lookup_filter_Some; split; [done | unfold changes; simpl; by rewrite Hc]).
  rewrite map_filter_insert_False by (by eapply Hv). rewrite map_filter_delete, map_size_delete_Some by (by exists o).
  apply Nat.succ_pred. intros He%map_size_empty_inv. by rewrite He, lookup_empty in Hin.
Qed.

#[export] Instance reapable_dec now o : Decision (reapable now o).
Proof. unfold reapable. apply _. Defined.

Definition reap (now : Time) (o : Operation) : Operation := if decide (reapable now o) then tombstone o else o.

Lemma changes_reapable now k o : changes (visit_reapable now) (k, o) <-> reapable now o.
Proof.
  unfold changes. simpl. destruct (visit_reapable now o) as [|o' event|] eqn:Hv.
  - split; [done|]. intros Hr. rewrite (proj2 (visit_reapable_spec now o (tombstone o) OutboxTombstoned)) in Hv; [done | by split_and!].
  - apply visit_reapable_spec in Hv as (Hr & _). done.
  - split; [done|]. intros Hr. rewrite (proj2 (visit_reapable_spec now o (tombstone o) OutboxTombstoned)) in Hv; [done | by split_and!].
Qed.

Lemma tombstone_final now o : ~ reapable now (tombstone o).
Proof. intros (_ & _ & Hs). simpl in Hs. set_solver. Qed.

Lemma reap_idem now o : reap now (reap now o) = reap now o.
Proof.
  unfold reap at 2 3. case_decide; unfold reap; rewrite decide_False; [done | apply tombstone_final | done | done].
Qed.

(** One sweep reaps [limit] operations, or all that are left. *)
Lemma reap_progress now limit l :
  validateLedgerPage now limit = true ->
  let l' := (Reap false now limit l).2 in
  (forall key, operations l' !! key = operations l !! key \/ operations l' !! key = reap now <$> operations l !! key) /\
  (pending (visit_reapable now) l' + Z.to_nat limit <= pending (visit_reapable now) l \/ pending (visit_reapable now) l' = 0)%nat.
Proof.
  intros Hp. assert (Hv : forall o, visit_reapable now o <> Abandon) by (intros o; unfold visit_reapable; by repeat case_match).
  destruct (sweep_all_exact (visit_reapable now) now limit l Hv Hp) as (r & l' & Hs & H1 & H2 & H3 & H4).
  unfold Reap. rewrite Hs. simpl. split.
  - intros key. destruct (H2 key) as [|(o & o' & ev & Ho & (Hr & -> & _)%visit_reapable_spec & Ho')]; [by left | right].
    rewrite Ho', Ho. unfold reap. simpl. by rewrite decide_True.
  - assert (Hcount : (pending (visit_reapable now) l' + length r = pending (visit_reapable now) l)%nat).
    { unfold sweep_all, live in Hs. rewrite bind_run, guard_run in Hs. simpl negb in Hs. rewrite bind_run, guard_run, Hp, bind_run, get_run in Hs.
      apply sweep_count in Hs; [simpl in Hs; lia|]. intros o o' ev k (_ & -> & _)%visit_reapable_spec. rewrite changes_reapable. apply tombstone_final. }
    destruct (decide (Z.of_nat (length r) < limit)) as [Hlt|]; [right | left; lia]. unfold pending. apply map_size_empty_iff.
    apply map_empty. intros key. apply map_lookup_filter_None. right. intros o Ho [Hr Hrest]%changes_reapable.
    destruct (H2 key) as [Hsame|(x & x' & ev & _ & (_ & -> & _)%visit_reapable_spec & Hx')].
    + rewrite Hsame in Ho. specialize (H4 Hlt key o (tombstone o) OutboxTombstoned). rewrite Hsame, Ho in H4.
      assert (Some o = Some (tombstone o)) as [= He].
      { apply H4; [apply sorted_keys_spec; by exists o | done | by apply visit_reapable_spec]. }
      apply (tombstone_final now o). rewrite <- He. by split.
    + apply (tombstone_final now x). rewrite Hx' in Ho. injection Ho as ->. by split.
Qed.

(** Reaping makes progress.  Sweeps at one time, repeated as often as the number
    of reapable operations divided by the page limit, tombstone every reapable
    operation and leave every other operation as it was: no operation is starved by
    the order of the keys. *)
Theorem reap_drains now limit n l :
  validateLedgerPage now limit = true -> Z.of_nat (pending (visit_reapable now) l) <= Z.of_nat n * limit ->
  forall key, operations (Nat.iter n (fun l => (Reap false now limit l).2) l) !! key = reap now <$> operations l !! key.
Proof.
  intros Hp. revert l. induction n as [|n IH]; intros l Hn key.
  - simpl. unfold pending in Hn. assert (He : size (filter (changes (visit_reapable now)) (operations l)) = 0%nat) by lia.
    apply map_size_empty_inv in He. destruct (operations l !! key) as [o|] eqn:Ho; [|done]. simpl. f_equal. unfold reap.
    rewrite decide_False; [done|]. intros Hr%(changes_reapable now key). apply (map_filter_empty_not_lookup _ _ key o He Hr). done.
  - rewrite Nat.iter_succ_r. destruct (reap_progress now limit l Hp) as [Hkeys Hcount]. cbv zeta in Hkeys, Hcount.
    unfold validateLedgerPage in Hp. bools. rewrite IH by (destruct Hcount; lia). destruct (Hkeys key) as [->| ->]; [done|].
    destruct (operations l !! key) as [o|]; [|done]. simpl. by rewrite reap_idem.
Qed.

(** ** Outbox pages *)

Lemma collect_spec p limit records l :
  Z.of_nat (length records) < limit ->
  collect p limit records l = records ++ take (Z.to_nat limit - length records) (List.filter p l).
Proof.
  revert records. induction l as [|r l IH]; intros records Hl; cbn [collect List.filter]; [by rewrite take_nil, app_nil_r|].
  destruct (p r); cbn [negb]; [|by apply IH].
  replace (Z.to_nat limit - length records)%nat with (S (Z.to_nat limit - length (records ++ [r])))
    by (rewrite length_app; simpl; lia). cbn [take].
  destruct (Z.eqb_spec (Z.of_nat (length (records ++ [r]))) limit) as [He|He].
  - replace (Z.to_nat limit - length (records ++ [r]))%nat with 0%nat by lia. done.
  - rewrite IH by (rewrite length_app in *; simpl in *; lia). by rewrite <- app_assoc.
Qed.

(** In a consecutively numbered log, the records after an id are a suffix. *)
Lemma filter_after (l : list OutboxRecord) a n :
  obr_ID <$> l = seqZ a n -> 0 <= n ->
  forall after, List.filter (fun r => negb (obr_ID r <=? after)) l = drop (Z.to_nat (after + 1 - a)) l.
Proof.
  revert a n. induction l as [|r l IH]; intros a n Hl Hn after; [by rewrite drop_nil|].
  assert (0 < n) by (apply (f_equal length) in Hl; rewrite length_fmap, length_seqZ in Hl; simpl in Hl; lia).
  rewrite seqZ_cons in Hl by lia. cbn in Hl. injection Hl as Hr Hl. cbn [List.filter]. rewrite Hr.
  rewrite (IH (Z.succ a) (Z.pred n) Hl ltac:(lia)). destruct (Z.leb_spec a after); cbn [negb].
  - replace (Z.to_nat (after + 1 - a)) with (S (Z.to_nat (after + 1 - Z.succ a))) by lia. done.
  - replace (Z.to_nat (after + 1 - a)) with 0%nat by lia. by replace (Z.to_nat (after + 1 - Z.succ a)) with 0%nat by lia.
Qed.

(** The ledger outbox is a log with positions.  In every reachable ledger
    reading after position [k] with a legal limit returns exactly the next records
    after the first [k], so a publisher that remembers the last id it has seen
    misses nothing and repeats nothing. *)
Theorem outbox_pages_exact l after limit :
  rtc ledger_call NewMemoryLedger l -> Z.of_nat (length (outbox l)) <= max_u64 -> 0 < limit <= 1000 -> 0 <= after ->
  ReadOutbox false after limit l = (Ok (take (Z.to_nat limit) (drop (Z.to_nat after) (outbox l))), l).
Proof.
  intros Hs%call_steps Hb Hl Ha. pose proof (ok_ids _ (steps_ok _ _ new_ok Hs Hb)) as Hi.
  unfold ReadOutbox, live, maxLedgerPage. rewrite bind_run, guard_run. simpl negb. rewrite bind_run, guard_run.
  replace (negb ((limit <=? 0) || (1000 <? limit))) with true by lia. rewrite bind_run, get_run.
  rewrite collect_spec by (simpl; lia). rewrite (filter_after _ _ _ Hi) by lia.
  replace (after + 1 - 1) with after by lia. by rewrite Nat.sub_0_r.
Qed.

(** ** The theorems at work *)

Definition ledger_second (n : Z) : Time := mkTime ((63902822400 + n) * 1000000000) UTC.
Definition no_typed_body (_ : string) : bool := false.
Definition request (principal digest : string) : Operation :=
  mkOperation principal "" "op-1" "exec" "process" "proc-1" digest "canonical" "spec" "" "" (StateOther "") 0 (ledger_second 0)
    (ledger_second 3600) false 0 None (unassigned 0).

Definition ledger1 : MemoryLedger := Eval vm_compute in (Accept no_typed_body false (request "acme:alice" "input") NewMemoryLedger).2.
Definition ledger2 : MemoryLedger := Eval vm_compute in (Assign false "acme:alice" "op-1" "host-a" (ledger_second 60) ledger1).2.
Definition ledger3 : MemoryLedger := Eval vm_compute in (Assign false "acme:alice" "op-1" "host-b" (ledger_second 120) ledger2).2.
Definition ledger4 : MemoryLedger := Eval vm_compute in
  (RecordHostResult false "acme:alice" "op-1" (mkHostResult "host-b" 2 StateSucceeded (ledger_second 90)) ledger3).2.

Definition op_at (l : MemoryLedger) : Operation :=
  default (request "" "") (operations l !! operationKey "acme:alice" "op-1").

Lemma calls1 : rtc ledger_call NewMemoryLedger ledger1.
Proof. apply rtc_once. exact (call_accept no_typed_body false (request "acme:alice" "input") NewMemoryLedger). Qed.
Lemma calls2 : rtc ledger_call ledger1 ledger2.
Proof. apply rtc_once. exact (call_assign false "acme:alice" "op-1" "host-a" (ledger_second 60) ledger1). Qed.
Lemma calls3 : rtc ledger_call ledger2 ledger3.
Proof. apply rtc_once. exact (call_assign false "acme:alice" "op-1" "host-b" (ledger_second 120) ledger2). Qed.
Lemma calls4 : rtc ledger_call ledger3 ledger4.
Proof.
  apply rtc_once. exact (call_result false "acme:alice" "op-1" (mkHostResult "host-b" 2 StateSucceeded (ledger_second 90)) ledger3).
Qed.
Lemma reached4 : rtc ledger_call NewMemoryLedger ledger4.
Proof. etrans; [apply calls1|]. etrans; [apply calls2|]. etrans; [apply calls3 | apply calls4]. Qed.

Lemma operations_permanent_witness : exists o, operations ledger4 !! operationKey "acme:alice" "op-1" = Some o /\
  op_identity o = op_identity (op_at ledger3) /\ ope_State o = StateSucceeded.
Proof.
  destruct (operations_permanent ledger3 ledger4 (operationKey "acme:alice" "op-1") (op_at ledger3) calls4) as (o & Ho & Hid & _);
    [vm_compute; reflexivity|].
  exists o. split_and!; [exact Ho | exact Hid |]. vm_compute in Ho. injection Ho as <-. reflexivity.
Defined.

Lemma superseded_host_fenced_witness :
  RecordHostResult false "acme:alice" "op-1" (mkHostResult "host-a" 1 StateFailed (ledger_second 50)) ledger3 =
  (Err ErrStaleFence, ledger3).
Proof.
  destruct (superseded_host_fenced ledger2 ledger3 ledger3 "acme:alice" "op-1" (op_at ledger2) (op_at ledger3)) as [H _].
  - exact calls3.
  - apply rtc_refl.
  - vm_compute. reflexivity.
  - vm_compute. reflexivity.
  - vm_compute. discriminate.
  - vm_compute. discriminate.
  - vm_compute. discriminate.
  - apply H. vm_compute. reflexivity.
Defined.

Lemma outbox_complete_witness : obr_ID <$> outbox ledger4 = [1; 2; 3; 4] /\
  obr_OperationVersion <$> facts (op_at ledger4) ledger4 = [1; 2; 3; 4].
Proof.
  destruct (outbox_complete ledger4 reached4) as (Hi & Hf & _); [vm_compute; discriminate|]. split; [exact Hi|].
  destruct (Hf (operationKey "acme:alice" "op-1") (op_at ledger4)) as [Hv _]; [vm_compute; reflexivity | exact Hv].
Defined.

Lemma get_isolated_witness :
  match Get false "acme:mallory" "op-1" ledger4 with (Err e, _) => e = ErrNotFoundOrDenied | (Ok _, _) => False end.
Proof.
  pose proof (get_isolated ledger4 "acme:mallory" "op-1" reached4 ltac:(vm_compute; discriminate)) as H.
  destruct (Get false "acme:mallory" "op-1" ledger4) as [[o|e] l'] eqn:He; [vm_compute in He; discriminate He|].
  destruct H as (H & _). exact H.
Defined.

Lemma accept_once_witness :
  Accept no_typed_body false (request "acme:alice" "other") ledger4 = (Err ErrConflict, ledger4) /\
  Accept no_typed_body false (request "acme:mallory" "input") ledger4 = (Err ErrNotFoundOrDenied, ledger4).
Proof.
  assert (Hs : rtc ledger_call ledger1 ledger4) by (etrans; [apply calls2|]; etrans; [apply calls3 | apply calls4]).
  assert (Ha : Accept no_typed_body false (request "acme:alice" "input") NewMemoryLedger = (Ok (op_at ledger1, false), ledger1))
    by (vm_compute; reflexivity).
  split.
  - destruct (accept_once no_typed_body _ _ (op_at ledger1) ledger1 ledger4 (request "acme:alice" "other") no_typed_body Ha Hs)
      as (y & Hy & _ & H & _); [vm_compute; reflexivity|].
    rewrite H by (vm_compute; reflexivity). vm_compute in Hy. injection Hy as <-. vm_compute. reflexivity.
  - destruct (accept_once no_typed_body _ _ (op_at ledger1) ledger1 ledger4 (request "acme:mallory" "input") no_typed_body Ha Hs)
      as (y & _ & _ & _ & H); [vm_compute; reflexivity|].
    apply H; vm_compute; reflexivity.
Defined.

Lemma reap_exact_witness : exists reaped l', Reap false (ledger_second 3600) 10 ledger4 = (Ok reaped, l') /\
  operations l' !! operationKey "acme:alice" "op-1" = Some (tombstone (op_at ledger4)).
Proof.
  destruct (reap_exact (ledger_second 3600) 10 ledger4) as (reaped & l' & Hr & _ & _ & Hall); [vm_compute; reflexivity|].
  exists reaped, l'. split; [exact Hr|]. apply (Hall ltac:(vm_compute in Hr; injection Hr as <- _; simpl; lia)).
  - vm_compute. reflexivity.
  - split_and!; [vm_compute; discriminate | vm_compute; discriminate | vm_compute; left].
Defined.

Lemma reap_drains_witness :
  operations (Nat.iter 1 (fun l => (Reap false (ledger_second 3600) 1 l).2) ledger4) !! operationKey "acme:alice" "op-1" =
  Some (tombstone (op_at ledger4)).
Proof.
  rewrite (reap_drains (ledger_second 3600) 1 1 ledger4); [vm_compute; reflexivity | vm_compute; reflexivity | vm_compute; discriminate].
Defined.

Lemma outbox_pages_exact_witness : exists r, ReadOutbox false 2 1 ledger4 = (Ok [r], ledger4) /\ obr_ID r = 3.
Proof.
  rewrite (outbox_pages_exact ledger4 2 1 reached4 ltac:(vm_compute; discriminate) ltac:(lia) ltac:(lia)). eexists. split; vm_compute; reflexivity.
Defined.
