(* ===== verification/HostTheorems.v ===== *)
(** * The host protocol: theorems

    Hosts that were revoked or quarantined stay out and lose their work; results
    are accepted only under the current binding; lost deliveries are repeated
    verbatim; recorded output is contiguous, sealed, bounded, and replayed
    completely. *)

From Stdlib Require Import Ascii String.
From stdpp Require Import sorting.
From S2P Require Import Prelude GoString Keys Sha256 GoTime GoJson HostProtocol SandboxLedger SandboxHost LedgerSteps LedgerTheorems.

Open Scope Z_scope.

(** ** Enrollments *)

#[export] Instance host_step_preorder : PreOrder host_step.
Proof.
  split; [by intros h; split; [|left]|]. intros a b c [H1 H2] [H3 H4]. split; [congruence|]. intros Hn.
  destruct (H2 Hn) as [Hb|Hb]; rewrite Hb in *; destruct (H4 ltac:(done)); auto.
Qed.

Lemma hosts_step l l' : ledger_step l l' -> hosts_keyed l ->
  hosts_keyed l' /\ forall key h, hosts l !! key = Some h -> exists h', hosts l' !! key = Some h' /\ host_step h h'.
Proof.
  unfold hosts_keyed. intros Hs Hk.
  destruct Hs as [????????? (_ & _ & -> & _)|?????? (_ & _ & -> & _)|key h He ->|? ->|? ? ? ? ->|? ? ? ->]; simpl;
    try (split; [done|]; intros k h Hh; exists h; split; [done | reflexivity]).
  destruct (He Hk) as [Hkey Hstep]. split.
  - intros k x. destruct (decide (key = k)) as [->|Hne]; [rewrite lookup_insert_eq; by intros [= <-]|].
    rewrite lookup_insert_ne by done. apply Hk.
  - intros k x Hx. destruct (decide (key = k)) as [->|Hne].
    + exists h. rewrite lookup_insert_eq. split; [done | by apply Hstep].
    + exists x. rewrite lookup_insert_ne by done. split; [done | reflexivity].
Qed.

Lemma hosts_steps l l' : rtc ledger_step l l' -> hosts_keyed l ->
  hosts_keyed l' /\ forall key h, hosts l !! key = Some h -> exists h', hosts l' !! key = Some h' /\ host_step h h'.
Proof.
  induction 1 as [l|l l1 l' H1 _ IH]; intros Hk; [split; [done|]; intros key h Hh; exists h; split; [done | reflexivity]|].
  destruct (hosts_step _ _ H1 Hk) as [Hk1 H]. destruct (IH Hk1) as [Hk' H']. split; [done|]. intros key h Hh.
  destruct (H _ _ Hh) as (h1 & Hh1 & Hs1). destruct (H' _ _ Hh1) as (h' & Hh' & Hs'). exists h'. split; [done | by transitivity h1].
Qed.

Lemma reachable_keyed l : rtc ledger_call NewMemoryLedger l -> hosts_keyed l.
Proof. intros Hc%call_steps. apply (hosts_steps _ _ Hc). intros key h Hh. simpl in Hh. by rewrite lookup_empty in Hh. Qed.

(** A key names one host and generation. *)
Lemma enrollment_key_inj host generation host' generation' :
  hostEnrollmentKey host generation = hostEnrollmentKey host' generation' -> 0 < generation' ->
  host = host' /\ generation = generation'.
Proof.
  unfold hostEnrollmentKey. intros He Hg. apply (last_separator (ascii_of_nat 0)) in He as [-> Hd%decimal_inj];
    [|by apply decimal_free..]. split; [done | lia].
Qed.

Lemma host_call_denied iteration r l :
  ~ (exists h, admits l (request_identity r) (request_time r) h) ->
  host_call iteration r l = (Err (if request_cancelled r then ErrOther else ErrHostDenied), l).
Proof.
  intros Hn. destruct (authenticate_run (request_identity r) (request_time r) l) as [(h & Hh & _)|[_ Ha]]; [destruct Hn; by exists h|].
  destruct r as [c ? ?|c ? ? ? ? ?|c ? ? ? ? ?|c ? ? ? ? ? ? ?|c ? ? ?|c ? ? ?|c ? ? ?]; simpl in Ha |- *; rewrite bind_run;
    unfold AuthenticateHost, PullHostAssignment, AcknowledgeHostAssignment, RenewHostAssignment, RecordAuthenticatedHostOutput,
      RecordAuthenticatedDataPlaneReceipt, RecordAuthenticatedHostResult, live; rewrite bind_run, guard_run; destruct c; try done;
    simpl negb; cbv iota; rewrite ?bind_run, Ha; done.
Qed.

(** ** Fencing *)

(** The operations of a host generation that are still in progress. *)
Definition fenceable (host : string) (generation : Z) (o : Operation) : bool :=
  held_by host generation o && negb (isTerminalState (ope_State o)).
Definition fenced (o : Operation) : Operation := reassign StateUncertain (unassigned (u64 (token o + 1))) o.

Definition fence (host : string) (generation : Z) (o : Operation) : Operation :=
  if fenceable host generation o then fenced o else o.

Lemma undispatch_run {A} key o event (k : L A) l :
  exists l', (drop_dispatch key ≫= fun _ => commit key o event ≫= fun _ => k) l = k l' /\
    operations l' = <[key := o]> (operations l) /\ hosts l' = hosts l.
Proof. eexists. split_and!; [reflexivity | done | done]. Qed.

Lemma fence_loop_run host generation done_ keys l :
  NoDup keys -> exists r l', fence_loop host generation StateUncertain done_ keys l = (Ok r, l') /\ hosts l' = hosts l /\
    forall key, operations l' !! key = if decide (key ∈ keys) then fence host generation <$> operations l !! key else operations l !! key.
Proof.
  revert done_ l. induction keys as [|k keys IH]; intros done_ l; [intros _; by eexists _, _|].
  intros [Hk Hnd]%NoDup_cons. cbn [fence_loop]. rewrite bind_run, get_run.
  assert (Hsplit : forall l', (forall key, operations l' !! key =
      if decide (key = k) then fence host generation <$> operations l !! key else operations l !! key) ->
    forall key, (if decide (key ∈ keys) then fence host generation <$> operations l' !! key else operations l' !! key) =
                (if decide (key ∈ k :: keys) then fence host generation <$> operations l !! key else operations l !! key)).
  { intros l' Hl' key. rewrite Hl'. destruct (decide (key = k)) as [->|Hne].
    - by rewrite (decide_False (P := k ∈ keys)), (decide_True (P := k ∈ k :: keys)) by set_solver.
    - by destruct (decide (key ∈ keys)), (decide (key ∈ k :: keys)); set_solver. }
  destruct (operations l !! k) as [o|] eqn:Ho; [destruct (negb _ || _) eqn:Hf|].
  - destruct (IH done_ l Hnd) as (r & l' & -> & Hh & Hop). exists r, l'. split_and!; [done | done |]. intros key.
    rewrite Hop. apply Hsplit. intros k'. destruct (decide (k' = k)) as [->|]; [|done]. rewrite Ho. simpl. f_equal.
    unfold fence, fenceable. rewrite <- (negb_involutive (held_by _ _ _)), <- negb_orb. by rewrite Hf.
  - cbv zeta. change (reassign _ _ o) with (fenced o). destruct (undispatch_run k (fenced o) OutboxStateChanged
      (fence_loop host generation StateUncertain (done_ ++ [fenced o]) keys) l) as (l1 & -> & Hop1 & Hh1).
    destruct (IH (done_ ++ [fenced o]) l1 Hnd) as (r & l' & -> & Hh & Hop). exists r, l'. split_and!; [done | by rewrite Hh |].
    intros key. rewrite Hop. apply Hsplit. rewrite Hop1.
    intros k'. destruct (decide (k' = k)) as [->|]; [|by rewrite lookup_insert_ne].
    rewrite lookup_insert_eq, Ho. simpl. f_equal.
    unfold fence, fenceable. rewrite <- (negb_involutive (held_by _ _ _)), <- negb_orb. by rewrite Hf.
  - destruct (IH done_ l Hnd) as (r & l' & -> & Hh & Hop). exists r, l'. split_and!; [done | done |]. intros key.
    rewrite Hop. apply Hsplit. intros k'. destruct (decide (k' = k)) as [->|]; [|done]. by rewrite Ho.
Qed.

Lemma fence_run host generation l :
  exists r l', fenceHostLocked host generation StateUncertain l = (Ok r, l') /\ hosts l' = hosts l /\
    forall key, operations l' !! key = fence host generation <$> operations l !! key.
Proof.
  unfold fenceHostLocked. rewrite bind_run, get_run.
  destruct (sorted_keys_spec (operations l)) as [Hnd Hkeys].
  destruct (fence_loop_run host generation [] _ l Hnd) as (r & l' & -> & Hh & Hop). exists r, l'. split_and!; [done | done |].
  intros key. rewrite Hop. destruct (decide _) as [|Hn]; [done|]. destruct (operations l !! key) eqn:Ho; [|done].
  destruct Hn. apply Hkeys. by rewrite Ho.
Qed.

(** An operator or the host itself takes a host generation out of service. *)
Inductive expels (host : string) (generation : Z) (l : MemoryLedger) : MemoryLedger -> Prop :=
| expelled_revoke now l' : RevokeHost false host generation now l = (Ok tt, l') -> expels host generation l l'
| expelled_quarantine identity reason now r l' :
    hid_HostID identity = host -> hid_Generation identity = generation ->
    QuarantineHost false identity reason now l = (Ok r, l') -> expels host generation l l'.

Lemma expels_call host generation l l' : expels host generation l l' -> ledger_call l l'.
Proof.
  intros [now x Hr|identity reason now r x _ _ Hr].
  - replace x with (RevokeHost false host generation now l).2 by (by rewrite Hr). constructor.
  - replace x with (QuarantineHost false identity reason now l).2 by (by rewrite Hr). constructor.
Qed.

Lemma expels_run host generation l l' :
  hosts_keyed l -> expels host generation l l' ->
  0 < generation /\ (exists h, hosts l' !! hostEnrollmentKey host generation = Some h /\ hst_Status h <> HostActive) /\
  forall key, operations l' !! key = fence host generation <$> operations l !! key.
Proof.
  intros Hk [now l1 Hr|identity reason now r l1 <- <- Hr].
  - unfold RevokeHost, live in Hr. rewrite bind_run, guard_run in Hr. simpl negb in Hr. cbv zeta iota in Hr.
    rewrite bind_run, get_run in Hr. destruct (hosts l !! _) as [h|] eqn:Hh; [|done]. rewrite bind_run, guard_run in Hr.
    destruct (negb _); [|done]. rewrite bind_run in Hr. cbn [put_host modify] in Hr. rewrite bind_run in Hr.
    destruct (fence_run host generation (put_hosts (<[hostEnrollmentKey host generation := hst_set_Status HostRevoked h]> (hosts l)) l))
      as (r & x & He & Hh' & Hop). rewrite He in Hr. injection Hr as <-.
    destruct (Hk _ _ Hh) as [Hkey Hg]. apply enrollment_key_inj in Hkey as [_ ->]; [|done]. split_and!; [done | | done].
    exists (hst_set_Status HostRevoked h). rewrite Hh'. simpl. by rewrite lookup_insert_eq.
  - unfold QuarantineHost, live in Hr. rewrite bind_run, guard_run in Hr. simpl negb in Hr. cbv zeta iota in Hr. rewrite bind_run in Hr.
    destruct (authenticate_run identity now l) as [(h & (Hh & _ & _ & Hg & _) & He)|[_ He]]; rewrite He in Hr; [|done]. clear He.
    rewrite bind_run, guard_run in Hr. destruct (validBounded _ _); [|done]. rewrite bind_run in Hr. cbn [put_host modify] in Hr.
    destruct (Hk _ _ Hh) as [Hkey Hpos]. apply enrollment_key_inj in Hkey as [Hid _]; [|done]. 
    match type of Hr with fenceHostLocked ?a ?b _ ?x = _ => destruct (fence_run a b x) as (r' & y & He & Hh' & Hop) end.
    rewrite He in Hr. injection Hr as _ <-. cbn in Hh', Hop. rewrite <- Hid, Hg in *. split_and!; [done | | done].
    eexists. rewrite Hh'. rewrite lookup_insert_eq. by split.
Qed.

(** C31: a host that was revoked or quarantined is out for good.  In every reachable
    ledger, expelling a host generation fences exactly its operations in progress
    (they become uncertain, lose the assignment and get a new token) and changes no
    other operation; and from then on, after any calls, every request of that
    generation is denied and changes nothing. *)
Theorem expelled_host_denied host generation l l1 :
  rtc ledger_call NewMemoryLedger l -> expels host generation l l1 ->
  (forall key, operations l1 !! key = fence host generation <$> operations l !! key) /\
  (forall key o, operations l1 !! key = Some o -> fenceable host generation o = false) /\
  forall l2 iteration r, rtc ledger_call l1 l2 ->
    hid_HostID (request_identity r) = host -> hid_Generation (request_identity r) = generation ->
    host_call iteration r l2 = (Err (if request_cancelled r then ErrOther else ErrHostDenied), l2).
Proof.
  intros Hl Hx. pose proof (reachable_keyed _ Hl) as Hk. destruct (expels_run _ _ _ _ Hk Hx) as (Hg & (h & Hh & Hs) & Hop).
  split_and!; [done | |].
  - intros key o. rewrite Hop. destruct (operations l !! key) as [x|]; [|done]. intros [= <-]. unfold fence.
    destruct (fenceable host generation x) eqn:Hf; [|done]. apply not_true_iff_false. unfold fenceable, held_by.
    intros Hn. bools. simpl in *. by destruct generation.
  - intros l2 iteration r Hc <- <-. apply host_call_denied. intros (h2 & Ha & _ & Hact & _).
    assert (Hk1 : hosts_keyed l1) by (eapply reachable_keyed, rtc_r; [exact Hl | by eapply expels_call]).
    destruct (hosts_steps _ _ (call_steps _ _ Hc) Hk1) as [_ Hhosts]. destruct (Hhosts _ _ Hh) as (h' & Hh' & _ & Hst).
    simplify_eq. destruct (Hst Hs) as [He|He]; [congruence | by rewrite Hact in He].
Qed.

(** ** Results *)

Lemma report_run identity result now l :
  let key := operationKey (hms_Principal result) (hms_OperationID result) in
  let next := state_of (hms_State result) in
  forall h o digest, admits l identity now h -> operations l !! key = Some o ->
    validHostResultImmutableBinding identity o result = true -> authenticatedResultDigest result = Some digest ->
    let f := dispatch_at l key in
    let l1 := authenticated l identity (hst_set_LastAuthenticatedAt (toUTC now) h) in
    daf_ReceiptDigest f <> "" ->
    RecordAuthenticatedHostResult false identity result now l =
    if ope_State o ≟ next then (if daf_ResultDigest f ≟ digest then Ok o else Err ErrHostProtocolViolation, l1)
    else if (next ≟ StateSucceeded) && dataPlaneReceiptRequired o && (daf_DataReceiptDigest f ≟ "") then (Err ErrHostProtocolViolation, l1)
    else if negb (validHostResultLiveBinding o result now) then (Err ErrStaleFence, l1)
    else if negb (permits (ope_State o) next) then (Err ErrInvalidTransition, l1)
    else (Ok (advance_to next o), (commit key (advance_to next o) OutboxStateChanged
            (put_dispatches (<[key := daf_set_ResultDigest digest f]> (dispatches l1)) l1)).2).
Proof.
  intros key next h o digest Hadm Ho Hb Hd f l1 Hf. unfold RecordAuthenticatedHostResult, live.
  rewrite bind_run, guard_run. simpl negb. cbv iota. rewrite bind_run.
  destruct (authenticate_run identity now l) as [(h' & (Hh' & _) & ->)|[Hn _]]; [|destruct Hn; by exists h].
  destruct Hadm as [Hh _]. simplify_eq. fold l1. cbv zeta. rewrite bind_run, get_run. fold key next.
  change (operations l1) with (operations l). rewrite Ho, bind_run, guard_run, Hb, bind_run, guard_run.
  change (dispatch_at l1 key) with f. rewrite bool_decide_eq_false_2 by done. simpl negb. cbv iota. rewrite Hd.
  destruct (bool_decide (ope_State o = next)); [rewrite bind_run, guard_run; by destruct (bool_decide _)|].
  rewrite bind_run, guard_run. destruct ((_ && _) && _); [done|]. simpl negb. cbv iota. rewrite bind_run, guard_run.
  destruct (validHostResultLiveBinding o result now); [|done]. rewrite bind_run, guard_run.
  by destruct (permits _ _).
Qed.

(** What a successful report has checked. *)
Definition report_checked (identity : HostIdentity) (result : Result) (now : Time) (l : MemoryLedger) (h : HostEnrollment) (o : Operation)
    (digest : string) : Prop :=
  let key := operationKey (hms_Principal result) (hms_OperationID result) in
  admits l identity now h /\ operations l !! key = Some o /\ validHostResultImmutableBinding identity o result = true /\
  authenticatedResultDigest result = Some digest /\ daf_ReceiptDigest (dispatch_at l key) <> "".

Lemma report_Ok identity result now l o' l' :
  RecordAuthenticatedHostResult false identity result now l = (Ok o', l') -> exists h o digest, report_checked identity result now l h o digest.
Proof.
  unfold RecordAuthenticatedHostResult, report_checked, live. rewrite bind_run, guard_run. simpl negb. cbv iota. rewrite bind_run.
  destruct (authenticate_run identity now l) as [(h & Hh & ->)|[_ ->]]; [|done]. cbv zeta. rewrite bind_run, get_run.
  cbn [authenticated put_hosts operations]. destruct (operations l !! _) as [o|] eqn:Ho; [|done]. rewrite bind_run, guard_run.
  destruct (validHostResultImmutableBinding _ _ _) eqn:Hb; [|done]. rewrite bind_run, guard_run.
  destruct (_ ≠? "") eqn:Hf; [|done]. destruct (authenticatedResultDigest result) as [digest|]; [|done]. intros _. bools.
  by exists h, o, digest.
Qed.

(** The ledger holds the result of a report. *)
Definition settled (identity : HostIdentity) (result : Result) (digest : string) (l : MemoryLedger) (o : Operation) : Prop :=
  let key := operationKey (hms_Principal result) (hms_OperationID result) in
  operations l !! key = Some o /\ ope_State o = state_of (hms_State result) /\
  validHostResultImmutableBinding identity o result = true /\
  daf_ReceiptDigest (dispatch_at l key) <> "" /\ daf_ResultDigest (dispatch_at l key) = digest.

Lemma report_effect identity result now l o' l' :
  RecordAuthenticatedHostResult false identity result now l = (Ok o', l') ->
  let key := operationKey (hms_Principal result) (hms_OperationID result) in
  let next := state_of (hms_State result) in
  exists h o digest, report_checked identity result now l h o digest /\ settled identity result digest l' o' /\
    (o' = o /\ ope_State o = next /\ operations l' = operations l /\ outbox l' = outbox l \/
     o' = advance_to next o /\ permits (ope_State o) next = true /\ validHostResultLiveBinding o result now = true /\
     (next = StateSucceeded -> dataPlaneReceiptRequired o = true -> daf_DataReceiptDigest (dispatch_at l key) <> "") /\
     outbox l' = outbox l ++ [record_of l o' OutboxStateChanged]).
Proof.
  intros Hr key next. destruct (report_Ok _ _ _ _ _ _ Hr) as (h & o & digest & Hc). exists h, o, digest. split; [done|].
  destruct Hc as (Hadm & Ho & Hb & Hd & Hf). pose proof (report_run identity result now l h o digest Hadm Ho Hb Hd Hf) as He.
  rewrite Hr in He. fold key next in He, Ho, Hf. unfold settled. fold key next.
  destruct (bool_decide_reflect (ope_State o = next)) as [Hs|Hs].
  - destruct (bool_decide_reflect (daf_ResultDigest (dispatch_at l key) = digest)); [|done]. injection He as -> ->.
    split; [by split_and! | by left].
  - destruct ((_ && _) && _) eqn:Hn; [done|]. destruct (validHostResultLiveBinding o result now) eqn:Hl; [|done]. simpl negb in He.
    cbv iota in He. destruct (permits (ope_State o) next) eqn:Hp; [|done]. simpl negb in He. cbv iota in He. injection He as -> ->.
    split; [|right].
    + split_and!; [apply lookup_insert_eq | done | done | |]; unfold dispatch_at; simpl; by rewrite lookup_insert_eq.
    + split_and!; [done | done | done | | done]. intros Hnext Hreq Hnone. rewrite Hreq, Hnone, Hnext in Hn. done.
Qed.

(** Results through the host protocol.  A report is accepted only from an
    admitted host, for the current assignment, epoch and fencing token of an
    acknowledged dispatch, with the admitted digests; it then either repeats the
    result already recorded or advances the operation once along [permits], before
    the lease ends and with a data-plane receipt if the kind requires one.
    Repeating an accepted report any number of times changes neither operation nor
    outbox, and a different report of the same state is never accepted. *)
Theorem host_result_once identity result now l o' l' :
  RecordAuthenticatedHostResult false identity result now l = (Ok o', l') ->
  let key := operationKey (hms_Principal result) (hms_OperationID result) in
  let next := state_of (hms_State result) in
  (exists h o, admits l identity now h /\ operations l !! key = Some o /\
     (asg_AssignmentID (ope_Assignment o), asg_LeaseEpoch (ope_Assignment o), token o) =
       (hms_AssignmentID result, hms_LeaseEpoch result, hms_FencingToken result) /\
     (ope_EffectiveSpecDigest o, ope_CapabilityDigest o) = (hms_EffectiveSpecDigest result, hms_CapabilityDigest result) /\
     daf_ReceiptDigest (dispatch_at l key) <> "" /\ operations l' !! key = Some o' /\
     (o' = o /\ ope_State o = next /\ operations l' = operations l /\ outbox l' = outbox l \/
      o' = advance_to next o /\ permits (ope_State o) next = true /\ instant now < instant (asg_LeaseExpiresAt (ope_Assignment o)) /\
      (next = StateSucceeded -> dataPlaneReceiptRequired o = true -> daf_DataReceiptDigest (dispatch_at l key) <> "") /\
      outbox l' = outbox l ++ [record_of l o' OutboxStateChanged])) /\
  (forall now' h', admits l' identity now' h' -> exists l2,
     RecordAuthenticatedHostResult false identity result now' l' = (Ok o', l2) /\ put_hosts (hosts l') l2 = l') /\
  (forall identity2 result2 now2 o2 l2, RecordAuthenticatedHostResult false identity2 result2 now2 l' = (Ok o2, l2) ->
     operationKey (hms_Principal result2) (hms_OperationID result2) = key -> state_of (hms_State result2) = next ->
     authenticatedResultDigest result2 = authenticatedResultDigest result).
Proof.
  intros Hr key next. destruct (report_effect _ _ _ _ _ _ Hr) as (h & o & digest & (Hadm & Ho & Hb & Hd & Hf) & (Ho' & Hs' & Hb' & Hf' & Hd') & Hcase).
  fold key next in Ho, Hf, Ho', Hs', Hf', Hd', Hcase. split_and!.
  - exists h, o. unfold validHostResultImmutableBinding in Hb. unfold token. bools.
    split_and!; [done | done | repeat f_equal; lia || done | repeat f_equal; done | done | done |].
    destruct Hcase as [?|(? & ? & Hl & ? & ?)]; [by left | right]. unfold validHostResultLiveBinding, Before in Hl. bools. by split_and!.
  - intros now' h' Hadm'. rewrite (report_run identity result now' l' h' o' digest Hadm' Ho' Hb' Hd Hf'). fold key next.
    rewrite Hs', Hd', !bool_decide_eq_true_2 by done. eexists. split; [done | by destruct l'].
  - intros identity2 result2 now2 o2 l2 Hr2 Hkey Hnext.
    destruct (report_Ok _ _ _ _ _ _ Hr2) as (h2 & x2 & digest2 & Hadm2 & Hx2 & Hb2 & Hd2 & Hf2).
    pose proof (report_run identity2 result2 now2 l' h2 x2 digest2 Hadm2 Hx2 Hb2 Hd2 Hf2) as He.
    rewrite Hkey in He, Hx2. assert (x2 = o') as -> by congruence.
    rewrite Hr2, Hnext, Hs', bool_decide_eq_true_2 in He by done.
    destruct (bool_decide_reflect (daf_ResultDigest (dispatch_at l' key) = digest2)); [congruence | done].
Qed.

(** ** Assignments *)

(** Ranging over a map visits every key once, in some order. *)
Definition covers (iteration : gmap string Operation -> list string) : Prop :=
  forall m key, key ∈ iteration m <-> is_Some (m !! key).

Lemma first_entry_None p m keys : first_entry p m keys = None -> forall key o, key ∈ keys -> m !! key = Some o -> p o = false.
Proof.
  induction keys as [|k keys IH]; simpl; [by intros _ key o ?%elem_of_nil|]. intros H key o [->|Hk]%elem_of_cons Ho.
  - rewrite Ho in H. by destruct (p o).
  - destruct (m !! k) as [x|]; [destruct (p x); [done|]|]; eauto.
Qed.

Lemma first_entry_unique p m keys key o :
  key ∈ keys -> m !! key = Some o -> p o = true -> (forall k x, m !! k = Some x -> p x = true -> k = key) ->
  first_entry p m keys = Some (key, o).
Proof.
  intros Hk Ho Hp Hu. destruct (first_entry p m keys) as [[k x]|] eqn:Hf.
  - apply first_entry_Some in Hf as (_ & Hx & Hpx). pose proof (Hu k x Hx Hpx). by simplify_eq.
  - pose proof (first_entry_None _ _ _ Hf _ _ Hk Ho). congruence.
Qed.

(** In a sorted list the first entry is the least. *)
Lemma first_entry_least p m keys key o :
  StronglySorted string_le keys -> first_entry p m keys = Some (key, o) ->
  forall k x, k ∈ keys -> m !! k = Some x -> p x = true -> string_le key k.
Proof.
  induction 1 as [|k0 keys Hs IH Hall]; simpl; [done|]. intros Hf k x [->|Hk]%elem_of_cons Hx Hp.
  - rewrite Hx, Hp in Hf. injection Hf as <- _. destruct (string_le_total k0 k0); done.
  - destruct (m !! k0) as [y|]; [destruct (p y)|]; [injection Hf as <- _ | by eapply IH..].
    by apply (proj1 (Forall_forall _ _) Hall).
Qed.

(** The host runs the operation under a live lease. *)
Definition runs (identity : HostIdentity) (now : Time) (o : Operation) : Prop :=
  held_by (hid_HostID identity) (hid_Generation identity) o = true /\ in_progress (ope_State o) = true /\
  instant now < instant (asg_LeaseExpiresAt (ope_Assignment o)).
Definition idle (identity : HostIdentity) (now : Time) (l : MemoryLedger) : Prop :=
  forall key o, operations l !! key = Some o -> ~ runs identity now o.

Lemma current_runs l identity now h o :
  hosts_keyed l -> admits l identity now h -> forall t t', current_for (hst_set_LastAuthenticatedAt t h) t' o = true <-> runs identity t' o.
Proof.
  intros Hk (Hh & _ & _ & Hg & _) t t'. destruct (Hk _ _ Hh) as [Hkey Hpos]. apply enrollment_key_inj in Hkey as [Hid _]; [|done].
  unfold current_for, runs, Before. simpl. rewrite <- Hid, Hg, !andb_true_iff, Z.ltb_lt. tauto.
Qed.

Section Pull.
Context (iteration : gmap string Operation -> list string) (Hiteration : covers iteration).

Lemma pull_run identity now until seed signer l d l' :
  hosts_keyed l -> PullHostAssignment iteration false identity now until seed signer l = (Ok d, l') ->
  exists h key, admits l identity now h /\
    let l1 := authenticated l identity (hst_set_LastAuthenticatedAt (toUTC now) h) in
    (exists o, operations l !! key = Some o /\ runs identity now o /\ d = dispatchFrom o (dispatch_at l key) /\ l' = l1) \/
    (idle identity now l /\ lease_bounded now until = true /\ exists o f wire,
       operations l !! key = Some o /\ eligible h o = true /\
       (forall k x, operations l !! k = Some x -> eligible h x = true -> string_le key k) /\
       token o <> max_u64 /\ signer = Some f /\
       let o' := reassign StateDispatched (mkAssignment (hid_HostID identity) (hid_Generation identity) (sed_AssignmentID seed) 1
                   (u64 (token o + 1)) (toUTC until)) o in
       f (envelopeFor o' now until seed) = Some wire /\
       d = mkHostDispatch o' wire (Digest wire) "" zeroTime /\ dispatchFrom o' (dispatch_at l' key) = d /\
       operations l' = <[key := o']> (operations l) /\ hosts l' = hosts l1).
Proof.
  intros Hk. unfold PullHostAssignment, live. rewrite bind_run, guard_run. simpl negb. cbv iota. rewrite bind_run.
  destruct (authenticate_run identity now l) as [(h & Hh & ->)|[_ ->]]; [|done]. cbv zeta. rewrite bind_run, get_run.
  pose proof (fun o => current_runs l identity now h o Hk Hh (toUTC now) now) as Hcur.
  set (h' := hst_set_LastAuthenticatedAt (toUTC now) h) in *. set (l1 := authenticated l identity h').
  change (operations l1) with (operations l).
  destruct (first_entry (current_for h' now) _ _) as [[key o]|] eqn:Hf.
  { intros [= <- <-]. apply first_entry_Some in Hf as (_ & Ho & Hc). exists h, key. split; [done|]. left. exists o.
    split_and!; [done | by apply Hcur | done | done]. }
  assert (Hidle : idle identity now l).
  { intros k x Hx Hr%Hcur. pose proof (first_entry_None _ _ _ Hf k x) as Hn. rewrite Hn in Hr; [done | by apply Hiteration | done]. }
  rewrite bind_run, guard_run. destruct ((_ && _) && _) eqn:Hv; [|done].
  destruct (first_entry (eligible h') _ _) as [[key o]|] eqn:He; [|done]. rewrite bind_run, guard_run.
  destruct (negb (_ =? _)) eqn:Ht; [|done]. destruct (sign _ _) as [wire|] eqn:Hsign; [|done]. intros [= <- <-]. bools.
  exists h, key. split; [done|]. right. split_and!; [done | done |].
  apply first_entry_Some in He as Hfirst. destruct Hfirst as (_ & Ho & Hel).
  unfold sign in Hsign. destruct signer as [f|]; [|done]. destruct (f _) as [w|] eqn:Hw; [|done].
  destruct (_ || _); [done|]. injection Hsign as ->.
  destruct Hh as (Hh & _ & _ & Hg & _). destruct (Hk _ _ Hh) as [Hkey Hpos]. apply enrollment_key_inj in Hkey as [Hid _]; [|done].
  exists o, f, wire. destruct (sorted_keys_spec (operations l)) as [_ Hkeys].
  change (hst_HostID h') with (hst_HostID h) in *. change (hst_Generation h') with (hst_Generation h) in *. rewrite <- Hid, Hg in *.
  split_and!; [done | done | | by apply Z.eqb_neq | done | by rewrite <- Hw | done | | done | done].
  - intros k x Hx Hex. eapply (first_entry_least _ _ _ _ _ (sort_strings_sorted _) He); [by apply Hkeys; exists x | exact Hx | exact Hex].
  - unfold dispatch_at. simpl. by rewrite lookup_insert_eq.
Qed.

Lemma pull_current identity now until seed signer l h key o :
  hosts_keyed l -> admits l identity now h -> operations l !! key = Some o -> runs identity now o ->
  (forall k x, operations l !! k = Some x -> runs identity now x -> k = key) ->
  PullHostAssignment iteration false identity now until seed signer l =
  (Ok (dispatchFrom o (dispatch_at l key)), authenticated l identity (hst_set_LastAuthenticatedAt (toUTC now) h)).
Proof.
  intros Hk Hh Ho Hr Hu. unfold PullHostAssignment, live. rewrite bind_run, guard_run. simpl negb. cbv iota. rewrite bind_run.
  destruct (authenticate_run identity now l) as [(h0 & (Hh0 & _) & ->)|[Hn _]]; [|destruct Hn; by exists h].
  assert (h0 = h) as -> by (destruct Hh; congruence). cbv zeta. rewrite bind_run, get_run.
  cbn [authenticated put_hosts operations].
  rewrite (first_entry_unique (current_for (hst_set_LastAuthenticatedAt (toUTC now) h) now) _ _ key o); [done | | done | |].
  - apply Hiteration. by exists o.
  - by apply (current_runs l identity now h o Hk Hh).
  - intros k x Hx Hc. apply (Hu k x Hx). by apply (current_runs l identity now h x Hk Hh) in Hc.
Qed.
End Pull.

(** Pulling work.  A pull answers with an operation the host then runs under a
    live lease, with the stored signed envelope.  If the host was idle, the work is
    the first eligible operation in key order, of the host's tenant and capability,
    under the next fencing token, and the envelope is the signature over exactly
    that assignment; and until the lease ends, a repeated pull, with any seed,
    signer or map order, delivers the same assignment and envelope verbatim. *)
Theorem pull_redelivers iteration identity now until seed signer l d l' :
  covers iteration -> rtc ledger_call NewMemoryLedger l ->
  PullHostAssignment iteration false identity now until seed signer l = (Ok d, l') ->
  exists h key, admits l identity now h /\ operations l' !! key = Some (hdi_Operation d) /\ runs identity now (hdi_Operation d) /\
    d = dispatchFrom (hdi_Operation d) (dispatch_at l' key) /\
    (idle identity now l ->
      (exists o f, operations l !! key = Some o /\ eligible h o = true /\
        (forall k x, operations l !! k = Some x -> eligible h x = true -> string_le key k) /\
        token (hdi_Operation d) = u64 (token o + 1) /\ token o <> max_u64 /\ signer = Some f /\
        f (envelopeFor (hdi_Operation d) now until seed) = Some (hdi_Envelope d) /\ hdi_EnvelopeDigest d = Digest (hdi_Envelope d)) /\
      forall iteration' now' until' seed' signer' h', covers iteration' -> admits l' identity now' h' ->
        instant now <= instant now' < instant (asg_LeaseExpiresAt (ope_Assignment (hdi_Operation d))) ->
        (PullHostAssignment iteration' false identity now' until' seed' signer' l').1 = Ok d).
Proof.
  intros Hi Hl Hp. pose proof (reachable_keyed _ Hl) as Hk.
  assert (Hk' : hosts_keyed l').
  { replace l' with (PullHostAssignment iteration false identity now until seed signer l).2 by (by rewrite Hp).
    by apply (hosts_steps _ _ (steps_pull iteration false identity now until seed signer l)). }
  destruct (pull_run iteration Hi _ _ _ _ _ _ _ _ Hk Hp) as (h & key & Hh & [(o & Ho & Hr & -> & ->)|
    (Hidle & Hlb & o & f & wire & Ho & He & Hleast & Ht & -> & Hf & -> & Hd & Hop & Hhosts)]); exists h, key; simpl.
  - split_and!; [done | done | done | done |]. intros Hidle. by destruct (Hidle _ _ Ho).
  - unfold lease_bounded, After in Hlb. bools. set (o' := reassign StateDispatched _ o) in *.
    assert (Hlease : instant (asg_LeaseExpiresAt (ope_Assignment o')) = instant until) by done.
    assert (Hheld : held_by (hid_HostID identity) (hid_Generation identity) o' = true)
      by (unfold held_by; simpl; by rewrite bool_decide_eq_true_2, Z.eqb_refl).
    split_and!; [done | by rewrite Hop, lookup_insert_eq | | done |]. 
    { split_and!; [done | done | lia]. }
    intros _. split; [by exists o, f; split_and!|]. intros iteration' now' until' seed' signer' h' Hi' Hh' Hnow.
    rewrite (pull_current iteration' Hi' identity now' until' seed' signer' l' h' key o' Hk' Hh'); [by rewrite Hd | | |].
    + by rewrite Hop, lookup_insert_eq.
    + split_and!; [done | done | lia].
    + intros k x. rewrite Hop. destruct (decide (key = k)) as [->|Hne]; [done|]. rewrite lookup_insert_ne by done.
      intros Hx (Hx1 & Hx2 & Hx3). destruct (Hidle k x Hx). split_and!; [done | done | lia].
Qed.

(** ** The theorems at work *)

Definition no_profile : BootProbeProfile := mkBootProbeProfile "" "" "" "" "".
Definition enrollment (host certificate : string) : HostEnrollment :=
  mkHost host "acme" "pool" 1 Version certificate "0123456789abcdef0123456789abcdef" "" no_profile "cap" "" "" "" HostActive
    (ledger_second 3600) zeroTime "".
Definition metadata_only : AttestationInput := mkAttestationInput AttestationProfileLocalMetadata "".
Definition host_request : Operation :=
  mkOperation "acme:alice" "" "op-1" "exec" "process" "proc-1" "input" "canonical" "spec" "cap" "" (StateOther "") 0 (ledger_second 0)
    (ledger_second 3600) true 8 None (unassigned 0).
Definition identity_a : HostIdentity := mkHostIdentity "host-a" 1 "cert-a".
Definition identity_b : HostIdentity := mkHostIdentity "host-b" 1 "cert-b".
Definition seed_1 : DeliverySeed := mkDeliverySeed "as-1" "env-1" "del-1" "nonce-1".
Definition signer_1 : EnvelopeSigner := Some (fun e => Some ("signed:" +:+ evl_OperationID e)).
(** One order of ranging over a map. *)
Definition in_order (m : gmap string Operation) : list string := (map_to_list m).*1.
Definition host_op_key : string := operationKey "acme:alice" "op-1".

Lemma in_order_covers : covers in_order.
Proof.
  intros m key. unfold in_order. rewrite list_elem_of_fmap. split.
  - intros ([k o] & -> & Hk%elem_of_map_to_list). by exists o.
  - intros [o Ho]. exists (key, o). split; [done|]. by apply elem_of_map_to_list.
Qed.

Definition hosts1 : MemoryLedger := Eval vm_compute in (ProvisionHost false false (enrollment "host-a" "cert-a") metadata_only None NewMemoryLedger).2.
Definition hosts2 : MemoryLedger := Eval vm_compute in (ProvisionHost false false (enrollment "host-b" "cert-b") metadata_only None hosts1).2.
Definition hosts3 : MemoryLedger := Eval vm_compute in (Accept no_typed_body false host_request hosts2).2.
Definition pull_1 : HostRequest := HostPull false identity_a (ledger_second 1) (ledger_second 60) seed_1 signer_1.
Definition hosts4 : MemoryLedger := Eval vm_compute in (host_call in_order pull_1 hosts3).2.
Definition acknowledge_1 : HostRequest := HostAcknowledge false identity_a "as-1" 1 "receipt" (ledger_second 2).
Definition hosts5 : MemoryLedger := Eval vm_compute in (host_call in_order acknowledge_1 hosts4).2.
Definition host_op (l : MemoryLedger) : Operation := default host_request (operations l !! host_op_key).

(** A result for the assignment of host-a, in the name of a host. *)
Definition report (host state : string) : Result :=
  mkHostMessage Version "result-1" host 1 "as-1" 1 1 "acme:alice" "op-1" "spec" "cap" state (ledger_second 3) None "signature".

Lemma hosts_reached3 : rtc ledger_call NewMemoryLedger hosts3.
Proof.
  eapply rtc_l; [exact (call_provision false false (enrollment "host-a" "cert-a") metadata_only None NewMemoryLedger)|].
  eapply rtc_l; [exact (call_provision false false (enrollment "host-b" "cert-b") metadata_only None hosts1)|].
  apply rtc_once. exact (call_accept no_typed_body false host_request hosts2).
Qed.
Lemma hosts_reached4 : rtc ledger_call NewMemoryLedger hosts4.
Proof. eapply rtc_r; [apply hosts_reached3 | exact (call_host in_order pull_1 hosts3)]. Qed.
Lemma hosts_reached5 : rtc ledger_call NewMemoryLedger hosts5.
Proof. eapply rtc_r; [apply hosts_reached4 | exact (call_host in_order acknowledge_1 hosts4)]. Qed.

Lemma hosts5_assigned : asg_HostID (ope_Assignment (host_op hosts5)) = "host-a" /\ ope_State (host_op hosts5) = StateDispatched.
Proof. split; vm_compute; reflexivity. Qed.

(** The memory ledger accepts the result of a host that does not hold the
    assignment.  In a reachable ledger an operation is assigned to one host, and
    another enrolled host that names the assignment's id, epoch and token reports
    the terminal result of that operation in its own name; the report is accepted
    and settles the operation. *)
Theorem foreign_result_accepted :
  exists l o l', rtc ledger_call NewMemoryLedger l /\ operations l !! host_op_key = Some o /\
    asg_HostID (ope_Assignment o) = "host-a" /\
    RecordAuthenticatedHostResult false identity_b (report "host-b" "failed") (ledger_second 4) l = (Ok (advance_to StateFailed o), l') /\
    operations l' !! host_op_key = Some (advance_to StateFailed o).
Proof.
  exists hosts5, (host_op hosts5). eexists. split_and!; [exact hosts_reached5 | vm_compute; reflexivity.. | vm_compute; reflexivity].
Qed.

Definition enrolled_a (l : MemoryLedger) : HostEnrollment := default (enrollment "" "") (hosts l !! hostEnrollmentKey "host-a" 1).
Definition revoked : MemoryLedger := Eval vm_compute in (RevokeHost false "host-a" 1 (ledger_second 5) hosts5).2.

Lemma expelled_host_denied_witness :
  operations revoked !! host_op_key = Some (fenced (host_op hosts5)) /\
  host_call in_order acknowledge_1 revoked = (Err ErrHostDenied, revoked).
Proof.
  destruct (expelled_host_denied "host-a" 1 hosts5 revoked hosts_reached5) as (Hop & _ & Hcalls).
  - apply (expelled_revoke _ _ _ (ledger_second 5)). vm_compute. reflexivity.
  - split; [rewrite Hop; vm_compute; reflexivity|]. apply (Hcalls revoked in_order acknowledge_1); [apply rtc_refl | reflexivity | reflexivity].
Defined.

Definition hosts6 : MemoryLedger := Eval vm_compute in
  (RecordAuthenticatedHostResult false identity_a (report "host-a" "succeeded") (ledger_second 4) hosts5).2.

Lemma host_result_once_witness : exists l2,
  RecordAuthenticatedHostResult false identity_a (report "host-a" "succeeded") (ledger_second 5) hosts6 =
  (Ok (advance_to StateSucceeded (host_op hosts5)), l2) /\ put_hosts (hosts hosts6) l2 = hosts6.
Proof.
  destruct (host_result_once identity_a (report "host-a" "succeeded") (ledger_second 4) hosts5 (advance_to StateSucceeded (host_op hosts5)) hosts6)
    as (_ & Hagain & _); [vm_compute; reflexivity|].
  apply (Hagain (ledger_second 5) (enrolled_a hosts6)). repeat apply conj; vm_compute; reflexivity.
Defined.

Definition delivered : HostDispatch := Eval vm_compute in
  match PullHostAssignment in_order false identity_a (ledger_second 1) (ledger_second 60) seed_1 signer_1 hosts3 with
  | (Ok d, _) => d
  | _ => mkHostDispatch host_request "" "" "" zeroTime
  end.

Lemma pull_redelivers_witness :
  hdi_Envelope delivered = "signed:op-1" /\
  (PullHostAssignment in_order false identity_a (ledger_second 30) (ledger_second 90) seed_1 None hosts4).1 = Ok delivered.
Proof.
  split; [vm_compute; reflexivity|].
  destruct (pull_redelivers in_order identity_a (ledger_second 1) (ledger_second 60) seed_1 signer_1 hosts3 delivered hosts4
    in_order_covers hosts_reached3) as (h & key & _ & _ & _ & _ & Hidle); [vm_compute; reflexivity|].
  destruct Hidle as [_ Hagain].
  - intros k o Ho (Hr & _). assert (Hone : operations hosts3 = {[host_op_key := host_op hosts3]}) by (vm_compute; reflexivity).
    rewrite Hone in Ho. apply lookup_singleton_Some in Ho as [_ <-]. vm_compute in Hr. discriminate Hr.
  - apply (Hagain in_order (ledger_second 30) (ledger_second 90) seed_1 None (enrolled_a hosts4)); [exact in_order_covers | | vm_compute; split; [discriminate | reflexivity]].
    repeat apply conj; vm_compute; reflexivity.
Defined.
