(* ===== verification/HostOutputTheorems.v ===== *)
(** * Host output: theorems

    The output table of the ledger: chunks of a stream are numbered without gaps,
    recorded headers never change, retained bytes are bounded with the oldest
    dropped first, and replay by cursor is complete and scoped to its owner. *)

From Stdlib Require Import Ascii String.
From stdpp Require Import sorting.
From S2P Require Import Prelude GoString Keys Sha256 GoTime GoJson HostProtocol SandboxLedger SandboxHost LedgerSteps LedgerTheorems HostTheorems.

Open Scope Z_scope.

(** ** Keys *)

Definition stream_name (s : string) : Prop := s = "stdout" \/ s = "stderr".

Lemma stream_free sep s : stream_name s -> is_lower (byte_val sep) = false -> free_of sep s.
Proof.
  intros Hs Hsep Hin. unfold is_lower, between in Hsep.
  assert (Forall (fun c => 97 <= c <= 122) (bytes s)) as Hall
    by (destruct Hs as [->| ->]; repeat (apply Forall_cons; split; [vm_compute; split; discriminate|]); apply Forall_nil_2).
  pose proof (proj1 (Forall_forall _ _) Hall _ Hin) as Hb. cbv beta in Hb. lia.
Qed.

Lemma output_key_inj a s n a' s' n' :
  stream_name s -> stream_name s' -> 0 <= n -> 0 <= n' -> hostOutputKey a s n = hostOutputKey a' s' n' -> a = a' /\ s = s' /\ n = n'.
Proof.
  intros Hs Hs' Hn Hn' He. unfold hostOutputKey in He.
  assert (Hassoc : forall x y z, x +:+ NUL +:+ y +:+ NUL +:+ z = (x +:+ NUL +:+ y) +:+ String (ascii_of_nat 0) z).
  { intros x y z. apply bytes_inj. rewrite !bytes_app. simpl. by rewrite <- !app_assoc. }
  rewrite !Hassoc in He. apply last_separator in He as [He Hd%decimal_inj]; [|by apply decimal_free..].
  apply (last_separator (ascii_of_nat 0)) in He as [-> ->]; [|by apply stream_free..]. split_and!; [done | done | lia].
Qed.

(** ** The last sequence number *)

Lemma last_sequence_spec a s m :
  let last := last_sequence a s m in
  0 <= last /\ (forall key f, m !! key = Some f -> on_stream a s f = true -> hof_Sequence f <= last) /\
  (0 < last -> exists key f, m !! key = Some f /\ on_stream a s f = true /\ hof_Sequence f = last).
Proof.
  unfold last_sequence. set (step := fun last f => _).
  assert (Hfold : forall fs acc, let r := foldl step acc fs in
    acc <= r /\ (forall f, f ∈ fs -> on_stream a s f = true -> hof_Sequence f <= r) /\
    (r = acc \/ exists f, f ∈ fs /\ on_stream a s f = true /\ hof_Sequence f = r)).
  { induction fs as [|f fs IH]; intros acc; simpl.
    - split_and!; [lia | by intros f ?%elem_of_nil | by left].
    - destruct (IH (step acc f)) as (H1 & H2 & H3). assert (acc <= step acc f) as Hacc
        by (unfold step; destruct (on_stream a s f); simpl; [destruct (Z.ltb_spec acc (hof_Sequence f)); lia | lia]).
      split_and!; [lia | |].
      + intros g [->|Hg]%elem_of_cons Hon; [|by apply H2]. assert (hof_Sequence f <= step acc f); [|lia].
        unfold step. rewrite Hon. simpl. destruct (Z.ltb_spec acc (hof_Sequence f)); lia.
      + destruct H3 as [H3|(g & Hg & Hon & Hs)]; [|right; exists g; split_and!; [by right | done | done]].
        assert (step acc f = acc \/ on_stream a s f = true /\ hof_Sequence f = step acc f) as [Hs|[Hon Hs]].
        { unfold step. destruct (on_stream a s f); simpl; [|by left]. destruct (Z.ltb_spec acc (hof_Sequence f)); auto. }
        * left. congruence.
        * right. exists f. split_and!; [by left | done | congruence]. }
  destruct (Hfold (map_to_list m).*2 0) as (H1 & H2 & H3). split_and!; [done | |].
  - intros key f Hf. apply H2. apply list_elem_of_fmap. exists (key, f). split; [done | by apply elem_of_map_to_list].
  - intros Hpos. destruct H3 as [H3|(f & Hin & Hon & Hs)]; [simpl in Hpos; lia|].
    apply list_elem_of_fmap in Hin as ([key g] & -> & Hg%elem_of_map_to_list). by exists key, g.
Qed.

(** ** Retained chunks *)

Notation entry := (string * hostOutputFields)%type.

Definition lens (es : list entry) : Z := foldr (fun e acc => len (hof_Chunk e.2) + acc) 0 es.

Lemma len_nonneg s : 0 <= len s.
Proof. unfold len. lia. Qed.
Lemma lens_nonneg es : 0 <= lens es.
Proof. induction es as [|e es IH]; simpl; [done|]. pose proof (len_nonneg (hof_Chunk e.2)). lia. Qed.
Lemma lens_app es es' : lens (es ++ es') = lens es + lens es'.
Proof. induction es as [|e es IH]; simpl; [done|]. lia. Qed.
#[export] Instance lens_Permutation : Proper (Permutation ==> eq) lens.
Proof. induction 1; simpl; lia. Qed.

Definition retained (a s : string) (m : gmap string hostOutputFields) (e : entry) : Prop :=
  m !! e.1 = Some e.2 /\ on_stream a s e.2 = true /\ 0 < len (hof_Chunk e.2).
Definition retained_bytes (a s : string) (m : gmap string hostOutputFields) : Z := lens (retained_entries a s m).

Lemma retained_entries_spec a s m : NoDup (retained_entries a s m).*1 /\ forall e, e ∈ retained_entries a s m <-> retained a s m e.
Proof.
  unfold retained_entries. pose proof (merge_sort_Permutation by_sequence
    (List.filter (fun e => on_stream a s e.2 && (0 <? len (hof_Chunk e.2))) (map_to_list m))) as Hp. split.
  - rewrite Hp. pose proof (NoDup_fst_map_to_list m) as Hnd. revert Hnd. generalize (map_to_list m). intros es.
    induction es as [|e es IH]; simpl; [done|]. intros [He Hnd]%NoDup_cons. destruct (_ && _); [|by apply IH].
    simpl. constructor; [|by apply IH]. intros (x & Hx & Hin)%list_elem_of_fmap. apply He. apply list_elem_of_fmap. exists x.
    split; [done|]. apply list_elem_of_In. apply list_elem_of_In in Hin. by apply filter_In in Hin as [? _].
  - intros [k f]. unfold retained. rewrite Hp, list_elem_of_In, filter_In, <- list_elem_of_In, elem_of_map_to_list. simpl.
    rewrite andb_true_iff, Z.ltb_lt. tauto.
Qed.

Lemma retained_bytes_eq a s m es :
  NoDup es.*1 -> (forall e, e ∈ es <-> retained a s m e) -> retained_bytes a s m = lens es.
Proof.
  intros Hnd Hes. unfold retained_bytes. destruct (retained_entries_spec a s m) as [Hnd' Hes'].
  apply lens_Permutation, NoDup_Permutation; [by eapply NoDup_fmap_1 | by eapply NoDup_fmap_1|].
  intros e. by rewrite Hes, Hes'.
Qed.

Lemma retained_total_lens es : lens es <= max_u64 -> retained_total es = lens es.
Proof.
  unfold retained_total. assert (H : forall acc, 0 <= acc -> acc + lens es <= max_u64 ->
    foldl (fun total (e : entry) => u64 (total + len (hof_Chunk e.2))) acc es = acc + lens es).
  { induction es as [|e es IH]; intros acc Ha Hb; simpl in *; [lia|]. pose proof (len_nonneg (hof_Chunk e.2)).
    pose proof (lens_nonneg es). rewrite u64_small by lia. rewrite IH by lia. lia. }
  intros Hb. rewrite H by lia. lia.
Qed.

(** ** Trimming *)

Definition drop_chunks (es : list entry) (m : gmap string hostOutputFields) : gmap string hostOutputFields :=
  foldl (fun m e => <[e.1 := hof_drop_Chunk e.2]> m) m es.

Lemma drop_chunks_lookup es m key :
  NoDup es.*1 ->
  (forall f, (key, f) ∈ es -> drop_chunks es m !! key = Some (hof_drop_Chunk f)) /\
  (key ∉ es.*1 -> drop_chunks es m !! key = m !! key).
Proof.
  revert m. induction es as [|[k g] es IH]; intros m; simpl; [split; [by intros f ?%elem_of_nil | done]|].
  intros [Hk Hnd]%NoDup_cons. destruct (IH (<[k := hof_drop_Chunk g]> m) Hnd) as [H1 H2]. split.
  - intros f [[= -> ->]|Hf]%elem_of_cons; [|by apply H1]. rewrite H2 by done. by rewrite lookup_insert_eq.
  - intros [Hne Hn]%not_elem_of_cons. rewrite H2 by done. by rewrite lookup_insert_ne.
Qed.

(** The loop drops the fewest oldest chunks that make room. *)
Lemma trim_loop_spec incoming limit es m :
  0 <= incoming -> incoming <= limit -> lens es + incoming <= max_u64 ->
  exists n, trim_loop incoming limit (lens es) es m = drop_chunks (take n es) m /\ lens (drop n es) + incoming <= limit /\
    (forall j, (j < n)%nat -> limit < lens (drop j es) + incoming).
Proof.
  intros Hi Hl. revert m. induction es as [|[k f] es IH]; intros m Hb; cbn [trim_loop].
  - exists 0%nat. simpl in *. split_and!; [done | lia | lia].
  - pose proof (len_nonneg (hof_Chunk f)). pose proof (lens_nonneg es). simpl in Hb. rewrite u64_small by (simpl; lia).
    destruct (Z.ltb_spec limit (lens ((k, f) :: es) + incoming)) as [Hlt|Hge].
    + simpl in Hlt |- *. rewrite u64_small by lia. replace (len (hof_Chunk f) + lens es - len (hof_Chunk f)) with (lens es) by lia.
      destruct (IH (<[k := hof_drop_Chunk f]> m) ltac:(lia)) as (n & -> & Hn & Hj). exists (S n). simpl. split_and!; [done | done |].
      intros [|j] Hjn; simpl; [lia | apply Hj; lia].
    + exists 0%nat. simpl in *. split_and!; [done | lia | lia].
Qed.

Lemma trim_loop_shape incoming limit total es m : exists n, trim_loop incoming limit total es m = drop_chunks (take n es) m.
Proof.
  revert total m. induction es as [|[k f] es IH]; intros total m; cbn [trim_loop]; [by exists 0%nat|].
  case_match; [|by exists 0%nat]. edestruct IH as [n ->]. by exists (S n).
Qed.

(** A chunk may lose its bytes; its header stays. *)
Definition trimmed (f f' : hostOutputFields) : Prop := f' = f \/ f' = hof_drop_Chunk f.

#[export] Instance trimmed_preorder : PreOrder trimmed.
Proof. split; [by left|]. intros a b c [->| ->] [->| ->]; [by left | by right | by right | by right]. Qed.

Lemma drop_chunks_trimmed es m key :
  NoDup es.*1 -> (forall e, e ∈ es -> m !! e.1 = Some e.2) ->
  match m !! key, drop_chunks es m !! key with
  | Some f, Some f' => trimmed f f'
  | None, None => True
  | _, _ => False
  end.
Proof.
  intros Hnd Hes. destruct (drop_chunks_lookup es m key Hnd) as [H1 H2].
  destruct (decide (key ∈ es.*1)) as [Hin|Hn]; [|rewrite H2 by done; destruct (m !! key); [by left | done]].
  apply list_elem_of_fmap in Hin as ([k f] & -> & Hf). rewrite (H1 f Hf), (Hes _ Hf). by right.
Qed.

Lemma take_entries {A B} (es : list (A * B)) n : NoDup es.*1 -> NoDup (take n es).*1.
Proof. intros H. rewrite fmap_take. by eapply sublist_NoDup, sublist_take. Qed.

Lemma trim_trimmed a s incoming limit m key :
  match m !! key, trimOutputLocked a s incoming limit m !! key with
  | Some f, Some f' => trimmed f f'
  | None, None => True
  | _, _ => False
  end.
Proof.
  unfold trimOutputLocked. destruct (retained_entries_spec a s m) as [Hnd Hes].
  destruct (trim_loop_shape incoming limit (retained_total (retained_entries a s m)) (retained_entries a s m) m) as [n ->].
  apply drop_chunks_trimmed; [by apply take_entries|]. intros e He. apply subseteq_take in He. by apply Hes.
Qed.

(** ** The output table *)

Definition own_key (f : hostOutputFields) : string := hostOutputKey (hof_AssignmentID f) (hof_Stream f) (hof_Sequence f).

(** Chunks are stored under their own keys, sealed, and every earlier chunk of the
    stream has been recorded. *)
Definition output_ok (m : gmap string hostOutputFields) : Prop :=
  forall key f, m !! key = Some f ->
    key = own_key f /\ sealed f /\ 0 < hof_Sequence f <= max_u64 /\
    forall n, 0 < n <= hof_Sequence f -> is_Some (m !! hostOutputKey (hof_AssignmentID f) (hof_Stream f) n).

Lemma trimmed_header f f' : trimmed f f' -> own_key f' = own_key f /\ (sealed f -> sealed f') /\
  hof_AssignmentID f' = hof_AssignmentID f /\ hof_Stream f' = hof_Stream f /\ hof_Sequence f' = hof_Sequence f.
Proof. intros [->| ->]; split_and!; try done. intros (H1 & H2 & _). split_and!; [exact H1 | apply H2 | apply H2 | by left]. Qed.

Lemma on_stream_iff a s f : on_stream a s f = true <-> hof_AssignmentID f = a /\ hof_Stream f = s.
Proof. unfold on_stream. by rewrite andb_true_iff, !bool_decide_eq_true. Qed.

(** The next chunk continues the numbering. *)
Lemma next_sequence a s m n :
  output_ok m -> 0 < n -> n = u64 (last_sequence a s m + 1) ->
  n = last_sequence a s m + 1 /\ n <= max_u64 /\ forall k, 0 < k < n -> is_Some (m !! hostOutputKey a s k).
Proof.
  intros Hok Hn He. destruct (last_sequence_spec a s m) as (H0 & _ & Hlast). cbv zeta in *. set (last := last_sequence a s m) in *.
  assert (Hle : last <= max_u64 /\ forall k, 0 < k <= last -> is_Some (m !! hostOutputKey a s k)).
  { destruct (decide (0 < last)) as [Hp|]; [|split; [unfold max_u64; lia | lia]].
    destruct (Hlast Hp) as (key & f & Hf & [<- <-]%on_stream_iff & <-). destruct (Hok _ _ Hf) as (_ & _ & Hr & Hall). by split; [lia|]. }
  destruct Hle as [Hle Hall]. assert (last <> max_u64) by (intros ->; subst n; by vm_compute in Hn).
  rewrite u64_small in He by (unfold max_u64 in *; lia). split_and!; [done | lia |]. intros k Hk. apply Hall. lia.
Qed.

Lemma records_ok m limit f m' : output_ok m -> records m limit f m' -> output_ok m'.
Proof.
  intros Hok (Hnone & Hs & Hpos & _ & Hseq & ->).
  destruct (next_sequence _ _ _ _ Hok Hpos Hseq) as (_ & Hmax & Hprev).
  set (m1 := trimOutputLocked _ _ _ _ m). fold (own_key f) in *.
  assert (Hsome : forall k, is_Some (m !! k) -> is_Some (<[own_key f := f]> m1 !! k)).
  { intros k [x Hx]. destruct (decide (own_key f = k)) as [<-|Hne]; [by rewrite lookup_insert_eq|].
    rewrite lookup_insert_ne by done. pose proof (trim_trimmed (hof_AssignmentID f) (hof_Stream f) (hof_SizeBytes f) limit m k) as Ht.
    rewrite Hx in Ht. fold m1 in Ht. by destruct (m1 !! k). }
  intros key g. destruct (decide (own_key f = key)) as [<-|Hne].
  - rewrite lookup_insert_eq. intros [= <-]. split_and!; [done | done | done | done |]. intros n Hn.
    destruct (decide (n = hof_Sequence f)) as [->|]; [fold (own_key f); by rewrite lookup_insert_eq | apply Hsome, Hprev; lia].
  - rewrite lookup_insert_ne by done. intros Hg.
    pose proof (trim_trimmed (hof_AssignmentID f) (hof_Stream f) (hof_SizeBytes f) limit m key) as Ht. fold m1 in Ht. rewrite Hg in Ht.
    destruct (m !! key) as [x|] eqn:Hx; [|done]. destruct (Hok _ _ Hx) as (Hkey & Hxs & Hr & Hall).
    destruct (trimmed_header _ _ Ht) as (E1 & E2 & E3 & E4 & E5). rewrite E1, E3, E4, E5. split_and!; [done | auto | lia | lia |].
    intros n Hn. apply Hsome. auto.
Qed.

Lemma records_kept m limit f m' key x : records m limit f m' -> m !! key = Some x -> exists y, m' !! key = Some y /\ trimmed x y.
Proof.
  intros (Hnone & _ & _ & _ & _ & ->) Hx. rewrite lookup_insert_ne by congruence.
  pose proof (trim_trimmed (hof_AssignmentID f) (hof_Stream f) (hof_SizeBytes f) limit m key) as Ht. rewrite Hx in Ht.
  destruct (trimOutputLocked _ _ _ _ _ !! key) as [y|]; [by exists y | done].
Qed.

Lemma output_step l l' : ledger_step l l' ->
  (output_ok (hostOutput l) -> output_ok (hostOutput l')) /\
  forall key x, hostOutput l !! key = Some x -> exists y, hostOutput l' !! key = Some y /\ trimmed x y.
Proof.
  intros Hs. destruct Hs as [????????? (_ & _ & _ & -> & _)|?????? (_ & _ & _ & -> & _)|? ? _ ->|? ->|limit f m Hr ->|? ? _ ->];
    try (split; [done | intros ? x Hx; exists x; split; [done | reflexivity]]).
  split; [intros Hok; exact (records_ok _ _ _ _ Hok Hr) | intros key x; exact (records_kept _ _ _ _ key x Hr)].
Qed.

Lemma output_steps l l' : rtc ledger_step l l' ->
  (output_ok (hostOutput l) -> output_ok (hostOutput l')) /\
  forall key x, hostOutput l !! key = Some x -> exists y, hostOutput l' !! key = Some y /\ trimmed x y.
Proof.
  induction 1 as [l|l l1 l' H1 _ [IH1 IH2]]; [split; [done | intros key x Hx; exists x; split; [done | reflexivity]]|].
  destruct (output_step _ _ H1) as [Hok Hkeep]. split; [auto|]. intros key x Hx. destruct (Hkeep _ _ Hx) as (y & Hy & Hxy).
  destruct (IH2 _ _ Hy) as (z & Hz & Hyz). exists z. split; [done | by transitivity y].
Qed.

Lemma reachable_output l : rtc ledger_call NewMemoryLedger l -> output_ok (hostOutput l).
Proof. intros Hc%call_steps. apply (output_steps _ _ Hc). intros key f Hf. simpl in Hf. by rewrite lookup_empty in Hf. Qed.

(** Recorded output has no gaps and does not change.  In every reachable ledger
    each chunk is stored under its own key, is within the size bound, has exactly
    the size and digest it announces while its bytes are retained, and every chunk
    with a smaller number of the same assignment and stream has been recorded;
    later calls may drop the bytes of a chunk but never alter or remove its
    header. *)
Theorem output_contiguous l l' key f :
  rtc ledger_call NewMemoryLedger l -> rtc ledger_call l l' -> hostOutput l !! key = Some f ->
  key = own_key f /\ sealed f /\
  (forall n, 0 < n <= hof_Sequence f -> exists g, hostOutput l !! hostOutputKey (hof_AssignmentID f) (hof_Stream f) n = Some g /\
     hof_AssignmentID g = hof_AssignmentID f /\ hof_Stream g = hof_Stream f /\ hof_Sequence g = n) /\
  exists f', hostOutput l' !! key = Some f' /\ trimmed f f'.
Proof.
  intros Hl Hc Hf. pose proof (reachable_output _ Hl) as Hok. destruct (Hok _ _ Hf) as (Hkey & Hs & Hr & Hall).
  split_and!; [done | done | | by apply (output_steps _ _ (call_steps _ _ Hc))]. intros n Hn. destruct (Hall n Hn) as [g Hg].
  exists g. destruct (Hok _ _ Hg) as (Hgk & Hgs & Hgr & _). destruct (output_key_inj _ _ n _ _ (hof_Sequence g) (proj1 Hs) (proj1 Hgs) ltac:(lia) ltac:(lia) Hgk)
    as (E1 & E2 & E3). by split_and!.
Qed.

(** ** Recording a chunk *)

Lemma output_new iteration identity output now l l' :
  RecordAuthenticatedHostOutput iteration false identity output now l = (Ok false, l') ->
  exists key o, operations l !! key = Some o /\ assigned_to identity (oup_AssignmentID output) (oup_FencingToken output) o = true /\
    validHostOutputImmutableBinding identity o output = true /\ operations l' = operations l /\
    records (hostOutput l) (retainedOutputLimit o) (outputFields output) (hostOutput l').
Proof.
  unfold RecordAuthenticatedHostOutput, live. rewrite bind_run, guard_run. simpl negb. cbv iota. rewrite bind_run.
  destruct (authenticate_run identity now l) as [(h & Hh & ->)|[_ ->]]; [|done]. cbv zeta. rewrite bind_run, get_run.
  unfold assignmentLocked. cbn [authenticated put_hosts operations hostOutput].
  destruct (first_entry _ _ _) as [[key o]|] eqn:Hf; [|done]. apply first_entry_Some in Hf as (_ & Ho & Ha). rewrite bind_run, guard_run.
  destruct (validHostOutputImmutableBinding _ _ _) eqn:Hb; [|done].
  destruct (hostOutput l !! _) eqn:Hp; [rewrite bind_run, guard_run; by destruct (_ && _)|].
  rewrite bind_run, guard_run. destruct (validHostOutputLiveBinding _ _ _); [|done]. rewrite bind_run, guard_run.
  destruct (_ =? _) eqn:Hq; [|done]. rewrite bind_run, guard_run. destruct (_ <=? _) eqn:Hs; [|done]. intros [= <-].
  exists key, o. split_and!; [done | done | done | done |]. apply binding_sealed in Hb as [Hsealed Hpos]. apply Z.eqb_eq in Hq. bools.
  unfold records. by split_and!.
Qed.

Definition new_entry (f : hostOutputFields) : list entry := if 0 <? len (hof_Chunk f) then [(own_key f, f)] else [].

(** The retained entries when those in [dropped] lose their bytes and [f] is
    added. *)
Lemma retained_after m f dropped kept :
  let a := hof_AssignmentID f in
  let s := hof_Stream f in
  m !! own_key f = None -> retained_entries a s m = dropped ++ kept ->
  retained_bytes a s (<[own_key f := f]> (drop_chunks dropped m)) = lens (kept ++ new_entry f).
Proof.
  intros a s Hnone Hsplit. destruct (retained_entries_spec a s m) as [Hnd Hes]. rewrite Hsplit in Hnd, Hes.
  rewrite fmap_app in Hnd. apply NoDup_app in Hnd as (Hnd1 & Hdisj & Hnd2).
  assert (Hown : forall e, e ∈ dropped ++ kept -> e.1 <> own_key f) by (intros e (He & _)%Hes Heq; congruence).
  assert (Hnew : forall k g, (k, g) ∈ new_entry f <-> k = own_key f /\ g = f /\ 0 < len (hof_Chunk f)).
  { intros k g. unfold new_entry. destruct (Z.ltb_spec 0 (len (hof_Chunk f))); [rewrite list_elem_of_singleton | rewrite elem_of_nil];
      split; [by intros [= -> ->] | by intros (-> & -> & _) | done | lia]. }
  apply retained_bytes_eq.
  - rewrite fmap_app. apply NoDup_app. split_and!; [done | |].
    + intros k (e & -> & He)%list_elem_of_fmap ([k' g] & Heq & (-> & _ & _)%Hnew)%list_elem_of_fmap.
      apply (Hown e); [set_solver | done].
    + unfold new_entry. destruct (0 <? _); simpl; [apply NoDup_singleton | constructor].
  - intros [k g]. unfold retained. simpl. rewrite elem_of_app, Hnew. destruct (decide (own_key f = k)) as [<-|Hne].
    + rewrite lookup_insert_eq. split.
      * intros [Hk|(_ & -> & Hlen)]; [by destruct (Hown _ (proj2 (elem_of_app _ _ _) (or_intror Hk)))|].
        split_and!; [done | by apply on_stream_iff | done].
      * intros ([= <-] & _ & Hlen). by right.
    + rewrite lookup_insert_ne by done. destruct (drop_chunks_lookup dropped m k Hnd1) as [H1 H2].
      destruct (decide (k ∈ dropped.*1)) as [Hk|Hk].
      * apply list_elem_of_fmap in Hk as ([k' x] & -> & Hx). simpl in *. rewrite (H1 x Hx). split.
        -- intros [Hg|(Hk & _)]; [|congruence]. destruct (Hdisj k'); apply list_elem_of_fmap; [by exists (k', x) | by exists (k', g)].
        -- intros ([= <-] & _ & Hlen). simpl in Hlen. unfold len in Hlen. simpl in Hlen. lia.
      * rewrite H2 by done. rewrite <- (Hes (k, g) : _ <-> m !! k = Some g /\ _ /\ _), elem_of_app. split.
        -- intros [Hg|(Hk' & _)]; [by right | congruence].
        -- intros [Hg|Hg]; [destruct Hk; apply list_elem_of_fmap; by exists (k, g) | by left].
Qed.

(** What the table retains of a stream after a chunk was recorded. *)
Lemma records_retained m limit f m' :
  records m limit f m' -> retained_bytes (hof_AssignmentID f) (hof_Stream f) m + hof_SizeBytes f <= max_u64 ->
  exists dropped kept, retained_entries (hof_AssignmentID f) (hof_Stream f) m = dropped ++ kept /\
    lens kept + hof_SizeBytes f <= limit /\
    (forall d g, last dropped = Some (d, g) -> limit < len (hof_Chunk g) + lens kept + hof_SizeBytes f) /\
    m' = <[own_key f := f]> (drop_chunks dropped m).
Proof.
  set (a := hof_AssignmentID f). set (s := hof_Stream f). intros (Hnone & (_ & Hsize & _) & _ & Hlim & _ & ->) Hfit.
  fold a s in Hnone |- *. unfold trimOutputLocked. unfold retained_bytes in Hfit. set (es := retained_entries a s m) in *.
  rewrite retained_total_lens by lia.
  destruct (trim_loop_spec (hof_SizeBytes f) limit es m ltac:(lia) Hlim Hfit) as (n & -> & Hroom & Hmin).
  exists (take n es), (drop n es). split_and!; [by rewrite take_drop | done | | done].
  intros d g Hlast. destruct n as [|n]; [done|]. specialize (Hmin n ltac:(lia)).
  destruct (es !! n) as [x|] eqn:Hx; [|rewrite drop_ge in Hmin by (by apply lookup_ge_None); simpl in Hmin; lia].
  rewrite (take_S_r _ _ _ Hx), last_snoc in Hlast. injection Hlast as ->. rewrite (drop_S _ _ _ Hx) in Hmin. simpl in *. lia.
Qed.

(** Retained output is bounded.  When a new chunk is recorded for an operation,
    the bytes then retained for its stream are within the operation's limit; the
    chunk is stored; of the earlier chunks the oldest lose their bytes, no more of
    them than needed to make room, and every other entry of the table is untouched.
    The chunk is assumed shorter than 4 GiB and the sum of retained and incoming
    bytes to fit 64 bits. *)
Theorem output_retention_bounded iteration identity output now l l' :
  rtc ledger_call NewMemoryLedger l ->
  RecordAuthenticatedHostOutput iteration false identity output now l = (Ok false, l') ->
  let a := oup_AssignmentID output in
  let s := oup_Stream output in
  len (oup_Chunk output) < 2 ^ 32 -> retained_bytes a s (hostOutput l) + oup_SizeBytes output <= max_u64 ->
  exists key o dropped kept, operations l !! key = Some o /\ assigned_to identity a (oup_FencingToken output) o = true /\
    retained_bytes a s (hostOutput l') <= retainedOutputLimit o /\
    hostOutput l' !! own_key (outputFields output) = Some (outputFields output) /\
    retained_entries a s (hostOutput l) = dropped ++ kept /\
    (forall k, k <> own_key (outputFields output) ->
       hostOutput l' !! k = if decide (k ∈ dropped.*1) then hof_drop_Chunk <$> hostOutput l !! k else hostOutput l !! k) /\
    (forall d f, last dropped = Some (d, f) -> retainedOutputLimit o < len (hof_Chunk f) + lens kept + oup_SizeBytes output).
Proof.
  intros Hl Hr a s Hlen Hfit. destruct (output_new _ _ _ _ _ _ Hr) as (key & o & Ho & Ha & _ & Hop & Hrec).
  destruct (records_retained _ _ _ _ Hrec Hfit) as (dropped & kept & Hsplit & Hroom & Hmin & Hm).
  change (hof_AssignmentID (outputFields output)) with a in Hsplit. change (hof_Stream (outputFields output)) with s in Hsplit.
  exists key, o, dropped, kept. set (f := outputFields output) in *. destruct Hrec as (Hnone & (_ & Hsize & Hchunk) & _).
  destruct (retained_entries_spec a s (hostOutput l)) as [Hnd Hes]. rewrite Hsplit, fmap_app in Hnd. apply NoDup_app in Hnd as (Hnd & _).
  split_and!; [done | done | | by rewrite Hm, lookup_insert_eq | done | | done].
  - rewrite Hm. change a with (hof_AssignmentID f). change s with (hof_Stream f).
    rewrite (retained_after (hostOutput l) f dropped kept Hnone Hsplit), lens_app.
    assert (lens (new_entry f) <= hof_SizeBytes f); [|lia]. unfold new_entry. destruct (Z.ltb_spec 0 (len (hof_Chunk f))) as [Hp|]; cbn [lens foldr snd].
    + destruct Hchunk as [Hc|[Hc _]]; [rewrite Hc in Hp; by vm_compute in Hp|]. rewrite u32_small in Hc by (split; [apply len_nonneg | exact Hlen]). lia.
    + lia.
  - intros k Hk. rewrite Hm, lookup_insert_ne by done. destruct (drop_chunks_lookup dropped (hostOutput l) k Hnd) as [H1 H2].
    destruct (decide (k ∈ dropped.*1)) as [Hin|Hin]; [|by apply H2]. apply list_elem_of_fmap in Hin as ([k' x] & -> & Hx). simpl in *.
    rewrite (H1 x Hx). assert (Hret : retained a s (hostOutput l) (k', x)) by (apply Hes; rewrite Hsplit; set_solver).
    destruct Hret as [Hret _]. simpl in Hret. by rewrite Hret.
Qed.

(** ** Replay *)

Lemma cursor_inj f g :
  sealed f -> sealed g -> 0 <= hof_Sequence f -> 0 <= hof_Sequence g -> output_cursor f = output_cursor g -> own_key f = own_key g.
Proof.
  intros (Hs & _) (Hs' & _) Hn Hn' He. unfold output_cursor in He. apply app_inj_l in He.
  assert (Hassoc : forall x y z, x +:+ ":" +:+ y +:+ ":" +:+ z = (x +:+ ":" +:+ y) +:+ String (ascii_of_nat 58) z).
  { intros x y z. apply bytes_inj. rewrite !bytes_app. simpl. by rewrite <- !app_assoc. }
  rewrite !Hassoc in He. apply last_separator in He as [He Hd%decimal_inj]; [|by apply decimal_free..].
  apply (last_separator (ascii_of_nat 58)) in He as [Ha Hst]; [|by apply stream_free..].
  unfold own_key. rewrite Ha, Hst. f_equal. lia.
Qed.

(** The retained chunks of the operations a principal owns on a process. *)
Definition replayable (principal processID : string) (l : MemoryLedger) (f : hostOutputFields) : Prop :=
  (exists key, hostOutput l !! key = Some f) /\ 0 < len (hof_Chunk f) /\
  exists key o, operations l !! key = Some o /\ ope_Principal o = principal /\ ope_TargetKind o = "process" /\
    ope_TargetID o = processID /\ asg_AssignmentID (ope_Assignment o) = hof_AssignmentID f.

Lemma owned_output_spec principal processID l f :
  owned_output principal processID l f = true <-> exists key o, operations l !! key = Some o /\ ope_Principal o = principal /\
    ope_TargetKind o = "process" /\ ope_TargetID o = processID /\ asg_AssignmentID (ope_Assignment o) = hof_AssignmentID f.
Proof.
  unfold owned_output. rewrite existsb_exists. split.
  - intros (o & Hin%list_elem_of_In & Hb). apply list_elem_of_fmap in Hin as ([key x] & -> & Hx%elem_of_map_to_list). simpl in Hb.
    bools. by exists key, x.
  - intros (key & o & Ho & Hp & Hk & Ht & Ha). exists o. split.
    + apply list_elem_of_In, list_elem_of_fmap. exists (key, o). split; [done | by apply elem_of_map_to_list].
    + by rewrite Hp, Hk, Ht, Ha, !bool_decide_eq_true_2.
Qed.

Lemma replay_items_spec principal processID l f : f ∈ replay_items principal processID l <-> replayable principal processID l f.
Proof.
  unfold replay_items, replayable. rewrite merge_sort_Permutation, list_elem_of_In, filter_In, andb_true_iff, Z.ltb_lt,
    owned_output_spec, <- list_elem_of_In, list_elem_of_fmap.
  assert ((exists y : entry, f = y.2 /\ y ∈ map_to_list (hostOutput l)) <-> exists key, hostOutput l !! key = Some f) as ->; [|tauto].
  split; [intros ([key g] & -> & Hg%elem_of_map_to_list); by exists key|].
  intros [key Hf]. exists (key, f). split; [done | by apply elem_of_map_to_list].
Qed.

#[export] Instance replay_order_total : Total replay_order.
Proof.
  intros a b. unfold replay_order. destruct (Z.lt_trichotomy (instant (hof_ObservedAt a)) (instant (hof_ObservedAt b))) as [?|[He|?]]; [auto| |auto].
  destruct (decide (hof_Stream a = hof_Stream b)) as [Hs|Hs].
  - destruct (Z.le_ge_cases (hof_Sequence a) (hof_Sequence b)); [left | right]; right; split; auto.
  - destruct (string_le_total (hof_Stream a) (hof_Stream b)); [left | right]; right; split; auto.
Qed.

Lemma filter_NoDup_fmap {A B} (g : A -> B) p (l : list A) : NoDup (g <$> l) -> NoDup (g <$> List.filter p l).
Proof.
  induction l as [|x l IH]; simpl; [done|]. intros [Hx Hnd]%NoDup_cons. destruct (p x); simpl; [|auto]. constructor; [|auto].
  intros (y & He & Hy%list_elem_of_In)%list_elem_of_fmap. apply Hx, list_elem_of_fmap. exists y. split; [done|].
  apply list_elem_of_In. by apply filter_In in Hy as [? _].
Qed.

(** Every chunk has its own cursor. *)
Lemma replay_cursors principal processID l :
  output_ok (hostOutput l) -> NoDup (che_Cursor <$> (chunk_event <$> replay_items principal processID l)).
Proof.
  intros Hok. rewrite <- list_fmap_compose. unfold replay_items. rewrite merge_sort_Permutation. apply filter_NoDup_fmap.
  rewrite <- list_fmap_compose. change (NoDup ((fun e : entry => output_cursor e.2) <$> map_to_list (hostOutput l))).
  apply NoDup_fmap_2_strong; [|apply NoDup_map_to_list].
  intros [k f] [k' g] Hf%elem_of_map_to_list Hg%elem_of_map_to_list He. simpl in He.
  destruct (Hok _ _ Hf) as (-> & Hs & Hr & _). destruct (Hok _ _ Hg) as (-> & Hs' & Hr' & _).
  pose proof (cursor_inj f g Hs Hs' ltac:(lia) ltac:(lia) He) as Hkey. rewrite Hkey in *. congruence.
Qed.

Lemma after_cursor_drop events i e :
  NoDup (che_Cursor <$> events) -> events !! i = Some e -> after_cursor (che_Cursor e) events = Some (drop (S i) events).
Proof.
  revert i. induction events as [|x events IH]; intros i; simpl; [done|]. intros [Hx Hnd]%NoDup_cons.
  destruct i as [|i]; simpl; [intros [= <-]; by rewrite bool_decide_eq_true_2|]. intros He.
  rewrite bool_decide_eq_false_2; [by apply IH|]. intros Heq. apply Hx. rewrite Heq. apply list_elem_of_fmap. exists e.
  split; [done | by eapply list_elem_of_lookup_2].
Qed.

Lemma replay_run principal processID after l :
  validBounded principal maxPrincipalBytes = true -> validBounded processID maxOperationIDBytes = true ->
  ReplayOutput false principal processID after l =
  (match replayAfter (chunk_event <$> replay_items principal processID l) after with Some es => Ok es | None => Err ErrOther end, l).
Proof.
  intros Hp Hi. unfold ReplayOutput, live. rewrite bind_run, guard_run. simpl negb. cbv iota. rewrite bind_run, guard_run, Hp, Hi.
  cbn [andb]. rewrite bind_run, get_run. by destruct (replayAfter _ _).
Qed.

(** Replay of process output is complete and scoped.  In every reachable ledger
    replay from the start returns the events of exactly the retained chunks of the
    operations the principal owns on the process, ordered by time, stream and
    number; and replay after the cursor of any returned event returns exactly the
    events after it, so a reader that follows cursors misses nothing and sees
    nothing twice. *)
Theorem output_replay_complete principal processID l :
  rtc ledger_call NewMemoryLedger l -> validBounded principal maxPrincipalBytes = true -> validBounded processID maxOperationIDBytes = true ->
  exists items, (forall f, f ∈ items <-> replayable principal processID l f) /\ Sorted replay_order items /\
    ReplayOutput false principal processID "" l = (Ok (chunk_event <$> items), l) /\
    forall i e, (chunk_event <$> items) !! i = Some e ->
      ReplayOutput false principal processID (che_Cursor e) l = (Ok (drop (S i) (chunk_event <$> items)), l).
Proof.
  intros Hl Hp Hi. exists (replay_items principal processID l).
  split_and!; [apply replay_items_spec | apply Sorted_merge_sort; apply _ | by rewrite replay_run |].
  intros i e He. rewrite replay_run by done. unfold replayAfter.
  apply list_lookup_fmap_Some in He as Hf. destruct Hf as (f & -> & _). rewrite !bool_decide_eq_false_2 by done. simpl orb.
  by rewrite (after_cursor_drop _ i _ (replay_cursors principal processID l (reachable_output _ Hl)) He).
Qed.

(** What a host reports is what the owner reads.  A chunk of bytes accepted from
    a host for an operation on a process is, right afterwards, among the events of
    the replay for the principal and process of that operation, with exactly the
    reported bytes, stream and redaction flag. *)
Theorem recorded_output_replayed iteration identity output now l l' :
  RecordAuthenticatedHostOutput iteration false identity output now l = (Ok false, l') -> oup_Chunk output <> "" ->
  exists key o, operations l !! key = Some o /\ ope_ID o = oup_OperationID output /\ ope_Principal o = oup_Principal output /\
    (ope_TargetKind o = "process" -> validBounded (ope_Principal o) maxPrincipalBytes = true ->
     validBounded (ope_TargetID o) maxOperationIDBytes = true ->
     exists events cursor, ReplayOutput false (oup_Principal output) (ope_TargetID o) "" l' = (Ok events, l') /\
       mkChunkEvent cursor (oup_Stream output) (oup_Chunk output) (oup_Redacted output) ∈ events).
Proof.
  intros Hr Hne. destruct (output_new _ _ _ _ _ _ Hr) as (key & o & Ho & Ha & Hb & Hop & Hrec). exists key, o.
  assert (Hs : hostOutput l' !! own_key (outputFields output) = Some (outputFields output)).
  { destruct Hrec as (_ & _ & _ & _ & _ & ->). apply lookup_insert_eq. }
  unfold validHostOutputImmutableBinding in Hb. bools. split_and!; [done | done | done |]. intros Hk Hvp Hvt.
  eexists _, _. split; [replace (oup_Principal output) with (ope_Principal o) by done; by rewrite replay_run|].
  apply list_elem_of_fmap. exists (outputFields output). split; [reflexivity|]. apply replay_items_spec. split_and!.
  - by exists (own_key (outputFields output)).
  - simpl. destruct (oup_Chunk output); [done|]. unfold len. simpl. lia.
  - exists key, o. rewrite Hop. by split_and!.
Qed.

(** ** The theorems at work *)

Definition chunk (sequence : Z) (text : string) : Output :=
  mkOutput Version "out" "host-a" 1 "as-1" 1 1 "acme:alice" "op-1" "stdout" sequence (Digest text) (len text) (Some text) false (ledger_second 3) "".

Definition output1 : MemoryLedger := Eval vm_compute in
  (host_call in_order (HostOutput false identity_a (chunk 1 "hello") (ledger_second 3)) hosts5).2.
Definition output2 : MemoryLedger := Eval vm_compute in
  (host_call in_order (HostOutput false identity_a (chunk 2 "world") (ledger_second 3)) output1).2.

Lemma output_reached1 : rtc ledger_call NewMemoryLedger output1.
Proof. eapply rtc_r; [apply hosts_reached5 | exact (call_host in_order (HostOutput false identity_a (chunk 1 "hello") (ledger_second 3)) hosts5)]. Qed.
Lemma output_calls2 : rtc ledger_call output1 output2.
Proof. apply rtc_once. exact (call_host in_order (HostOutput false identity_a (chunk 2 "world") (ledger_second 3)) output1). Qed.
Lemma output_reached2 : rtc ledger_call NewMemoryLedger output2.
Proof. etrans; [apply output_reached1 | apply output_calls2]. Qed.

(** The limit of the operation is eight bytes: the second chunk displaces the first. *)
Lemma output_contiguous_witness :
  exists f, hostOutput output2 !! own_key (outputFields (chunk 1 "hello")) = Some f /\ trimmed (outputFields (chunk 1 "hello")) f.
Proof.
  destruct (output_contiguous output1 output2 (own_key (outputFields (chunk 1 "hello"))) (outputFields (chunk 1 "hello"))
    output_reached1 output_calls2) as (_ & _ & _ & Hf); [vm_compute; reflexivity | exact Hf].
Defined.

Lemma output_retention_bounded_witness : exists o, ope_RetainedOutputBytes o = 8 /\
  retained_bytes "as-1" "stdout" (hostOutput output2) <= retainedOutputLimit o.
Proof.
  destruct (output_retention_bounded in_order identity_a (chunk 2 "world") (ledger_second 3) output1 output2 output_reached1)
    as (key & o & dropped & kept & Ho & _ & Hb & _); [vm_compute; reflexivity | vm_compute; reflexivity | vm_compute; discriminate|].
  exists o. split; [|exact Hb]. assert (Hone : operations output1 = {[host_op_key := host_op output1]}) by (vm_compute; reflexivity).
  rewrite Hone in Ho. apply lookup_singleton_Some in Ho as [_ <-]. vm_compute. reflexivity.
Defined.

Lemma output_replay_complete_witness : exists items,
  ReplayOutput false "acme:alice" "proc-1" "" output2 = (Ok (chunk_event <$> items), output2) /\ Sorted replay_order items.
Proof.
  destruct (output_replay_complete "acme:alice" "proc-1" output2 output_reached2) as (items & _ & Hs & Hr & _);
    [vm_compute; reflexivity | vm_compute; reflexivity|]. exists items. split; [exact Hr | exact Hs].
Defined.

Lemma recorded_output_replayed_witness : exists events cursor,
  ReplayOutput false "acme:alice" "proc-1" "" output2 = (Ok events, output2) /\ mkChunkEvent cursor "stdout" "world" false ∈ events.
Proof.
  destruct (recorded_output_replayed in_order identity_a (chunk 2 "world") (ledger_second 3) output1 output2)
    as (key & o & Ho & _ & _ & Hr); [vm_compute; reflexivity | discriminate|].
  assert (Hone : operations output1 = {[host_op_key := host_op output1]}) by (vm_compute; reflexivity).
  rewrite Hone in Ho. apply lookup_singleton_Some in Ho as [_ <-]. apply Hr; vm_compute; reflexivity.
Defined.
