(* ===== verification/OutputSpool.v ===== *)
(** * Process output: redaction and retention

    sandbox/output.go: the literal redactor, which removes secret byte strings from
    an output stream that arrives in chunks, and the spool, which bounds what a
    process may produce and keeps a tail of the redacted bytes of each stream.  Byte
    slices are lists of bytes.  Loops that are not structural carry fuel; running
    out of it is an error of its own ([OutOfFuel]), as is a Go panic ([Panic]). *)

From Stdlib Require Import Ascii String.
From S2P Require Import Prelude GoString GoTime.

Open Scope Z_scope.

Notation slice := (list Z).

(** ** Package bytes *)

Fixpoint has_prefix (p s : slice) : bool :=
  match p, s with
  | [], _ => true
  | b :: p, c :: s => (b =? c) && has_prefix p s
  | _ :: _, [] => false
  end.

(** [bytes.Index]; [None] is -1. *)
Fixpoint Index (s sep : slice) : option nat :=
  if has_prefix sep s then Some 0%nat
  else match s with [] => None | _ :: s => S <$> Index s sep end.

Definition Contains (s sep : slice) : bool := bool_decide (is_Some (Index s sep)).

(** [bytes.ReplaceAll] with a non-empty [old]: the leftmost occurrences that do not
    overlap; [skip] bytes belong to the occurrence just replaced. *)
Fixpoint replace_from (old new : slice) (skip : nat) (s : slice) : slice :=
  match s with
  | [] => []
  | c :: s' =>
    match skip with
    | S skip => replace_from old new skip s'
    | O => if has_prefix old s then new ++ replace_from old new (length old - 1) s' else c :: replace_from old new 0 s'
    end
  end.
Definition ReplaceAll (s old new : slice) : slice := replace_from old new 0 s.

(** ** Failures *)

Inductive FailureCode : Type := FailureInvalidArgument | FailureResourceLimitExceeded | FailureAlreadyTerminal.
Inductive SpoolError : Type := Failure (code : FailureCode) | Panic | OutOfFuel.

(** ** The redactor *)

Record literalRedactor : Type := mkRedactor { patterns : list slice; pending : slice }.

(** [sort.SliceStable] by decreasing length. *)
Fixpoint insert_pattern (p : slice) (l : list slice) : list slice :=
  match l with
  | [] => [p]
  | q :: l => if (length q <? length p)%nat then p :: q :: l else q :: insert_pattern p l
  end.
Definition sort_patterns (l : list slice) : list slice := foldl (fun acc p => insert_pattern p acc) [] l.

Definition add_pattern (st : Z * list slice) (pattern : slice) : res FailureCode (Z * list slice) :=
  match pattern with
  | [] => Err FailureInvalidArgument
  | _ =>
    let total := st.1 + Z.of_nat (length pattern) in
    if (64 * 1024 <? total) || (128 <=? length st.2)%nat then Err FailureResourceLimitExceeded
    else Ok (total, st.2 ++ [pattern])
  end.

Fixpoint add_patterns (st : Z * list slice) (l : list slice) : res FailureCode (Z * list slice) :=
  match l with
  | [] => Ok st
  | p :: l => match add_pattern st p with Ok st => add_patterns st l | Err e => Err e end
  end.

Definition newLiteralRedactor (ps : list slice) : res FailureCode literalRedactor :=
  match add_patterns (0, []) ps with
  | Ok st => Ok (mkRedactor (sort_patterns st.2) [])
  | Err e => Err e
  end.

Definition longestPattern (r : literalRedactor) : nat :=
  foldl (fun longest p => if (longest <? length p)%nat then length p else longest) 0%nat (patterns r).

Definition REDACTED : slice := bytes "[REDACTED]".

Definition replace (ps : list slice) (value : slice) : slice * bool :=
  foldl (fun st p => if Contains st.1 p then (ReplaceAll st.1 p REDACTED, true) else st) (value, false) ps.

(** One pass over the occurrences of a pattern: an occurrence across the limit moves
    the limit to its start. *)
Fixpoint scan_pattern (fuel : nat) (s p : slice) (offset : nat) (st : Z * bool) : option (Z * bool) :=
  match fuel with
  | O => None
  | S fuel =>
    match Index (drop offset s) p with
    | None => Some st
    | Some i =>
      let index := (i + offset)%nat in
      let st := if (Z.of_nat index <? st.1) && (st.1 <? Z.of_nat (index + length p)) then (Z.of_nat index, true) else st in
      let offset := S index in
      if (length s <=? offset)%nat then Some st else scan_pattern fuel s p offset st
    end
  end.

Fixpoint scan_patterns (s : slice) (ps : list slice) (st : Z * bool) : option (Z * bool) :=
  match ps with
  | [] => Some st
  | p :: ps => match scan_pattern (S (length s)) s p 0 st with Some st => scan_patterns s ps st | None => None end
  end.

(** The passes until the limit no longer moves. *)
Fixpoint settle_limit (fuel : nat) (s : slice) (ps : list slice) (limit : Z) : option Z :=
  match fuel with
  | O => None
  | S fuel =>
    match scan_patterns s ps (limit, false) with
    | None => None
    | Some (limit, changed) => if changed then settle_limit fuel s ps limit else Some limit
    end
  end.

(** The bytes released, whether they were redacted, and the redactor left; [None] is
    exhausted fuel. *)
Definition redactor_Write (r : literalRedactor) (chunk : slice) : option (slice * bool * literalRedactor) :=
  let s := pending r ++ chunk in
  match patterns r with
  | [] => Some (s, false, mkRedactor [] [])
  | ps =>
    let limit := Z.of_nat (length s) - (Z.of_nat (longestPattern r) - 1) in
    if limit <=? 0 then Some ([], false, mkRedactor ps s) else
    match settle_limit (S (length s)) s ps limit with
    | None => None
    | Some limit =>
      if limit <=? 0 then Some ([], false, mkRedactor ps s)
      else Some (replace ps (take (Z.to_nat limit) s), mkRedactor ps (drop (Z.to_nat limit) s))
    end
  end.

Definition Flush (r : literalRedactor) : slice * bool * literalRedactor := (replace (patterns r) (pending r), mkRedactor (patterns r) []).

(** ** The spool *)

Definition maximumOutputChunkBytes : Z := 256 * 2 ^ 10.
Definition OutputStdout : string := "stdout".
Definition OutputStderr : string := "stderr".

Inductive OutputEventKind : Type := OutputEventChunk | OutputEventGap | OutputEventFinal.
#[export] Instance OutputEventKind_eq_dec : EqDecision OutputEventKind.
Proof. solve_decision. Defined.

Record OutputChunk : Type := mkChunk { chk_Bytes : slice; chk_Redacted : bool }.
Record OutputGap : Type := mkGap { gap_EarliestRetained : string; gap_Reason : string }.
Record ResourceUsage : Type := mkUsage { use_CPUTime : Z; use_PeakMemoryBytes : Z; use_ReadBytes : Z; use_WrittenBytes : Z }.
Record ProcessResult : Type := mkProcessResult {
  res_StartedAt : Time;
  res_FinishedAt : Time;
  res_ExitCode : option Z;
  res_Signal : option string;
  res_Reason : string;
  res_Usage : ResourceUsage;
  res_Cleanup : string
}.
Record OutputFinal : Type := mkFinal { fin_Result : ProcessResult }.

Record OutputEvent : Type := mkOutputEvent {
  oev_Kind : OutputEventKind;
  oev_Cursor : string;
  oev_Stream : string;
  oev_Chunk : option OutputChunk;
  oev_Gap : option OutputGap;
  oev_Final : option OutputFinal
}.

Record OutputRetention : Type := mkRetention { rtn_EarliestCursor : string; rtn_RetainedBytes : Z; rtn_Truncated : bool }.
Definition noRetention : OutputRetention := mkRetention "" 0 false.

Record processOutputSpool : Type := mkSpool {
  producedLimit : Z;
  retainedLimit : Z;
  produced : Z;
  nextCursor : Z;
  closed : bool;
  events : list OutputEvent;
  redactors : gmap string literalRedactor;
  retentions : gmap string OutputRetention;
  streamCursors : gmap string (list string)
}.

Definition newProcessOutputSpool (producedLimit retainedLimit : Z) (ps : list slice) : res FailureCode processOutputSpool :=
  if (producedLimit =? 0) || (retainedLimit =? 0) || (u64 (producedLimit * 16) <? retainedLimit) then Err FailureInvalidArgument
  else match newLiteralRedactor ps, newLiteralRedactor ps with
       | Ok stdout, Ok stderr =>
         Ok (mkSpool producedLimit retainedLimit 0 0 false [] {[OutputStdout := stdout; OutputStderr := stderr]}
               {[OutputStdout := noRetention; OutputStderr := noRetention]} {[OutputStdout := []; OutputStderr := []]})
       | Err e, _ | _, Err e => Err e
       end.

(** *** Assignments to fields *)

Definition put_produced (v : Z) (s : processOutputSpool) : processOutputSpool :=
  mkSpool (producedLimit s) (retainedLimit s) v (nextCursor s) (closed s) (events s) (redactors s) (retentions s) (streamCursors s).
Definition put_closed (s : processOutputSpool) : processOutputSpool :=
  mkSpool (producedLimit s) (retainedLimit s) (produced s) (nextCursor s) true (events s) (redactors s) (retentions s) (streamCursors s).
Definition put_events (cursor : Z) (v : list OutputEvent) (s : processOutputSpool) : processOutputSpool :=
  mkSpool (producedLimit s) (retainedLimit s) (produced s) cursor (closed s) v (redactors s) (retentions s) (streamCursors s).
Definition put_redactor (stream : string) (r : literalRedactor) (s : processOutputSpool) : processOutputSpool :=
  mkSpool (producedLimit s) (retainedLimit s) (produced s) (nextCursor s) (closed s) (events s) (<[stream := r]> (redactors s))
    (retentions s) (streamCursors s).
Definition put_retention (stream : string) (r : OutputRetention) (s : processOutputSpool) : processOutputSpool :=
  mkSpool (producedLimit s) (retainedLimit s) (produced s) (nextCursor s) (closed s) (events s) (redactors s)
    (<[stream := r]> (retentions s)) (streamCursors s).
Definition put_cursors (stream : string) (l : list string) (s : processOutputSpool) : processOutputSpool :=
  mkSpool (producedLimit s) (retainedLimit s) (produced s) (nextCursor s) (closed s) (events s) (redactors s) (retentions s)
    (<[stream := l]> (streamCursors s)).

(** [spool.retentions[stream]] and [spool.streamCursors[stream]]: the zero value when
    there is no entry. *)
Definition retention_of (stream : string) (s : processOutputSpool) : OutputRetention := default noRetention (retentions s !! stream).
Definition cursors_of (stream : string) (s : processOutputSpool) : list string := default [] (streamCursors s !! stream).

Definition outputCursor (stream : string) (number : Z) : string := stream +:+ ":" +:+ decimal number.

Definition appendEvent (kind : OutputEventKind) (stream : string) (chunk : option OutputChunk) (gap : option OutputGap)
    (final : option OutputFinal) (s : processOutputSpool) : processOutputSpool :=
  let next := u64 (nextCursor s + 1) in
  put_events next (events s ++ [mkOutputEvent kind (outputCursor "output" next) stream chunk gap final]) s.

(** [event.Kind == OutputEventChunk && event.Stream == stream && event.Chunk != nil] *)
Definition is_chunk (stream : string) (e : OutputEvent) : bool :=
  (oev_Kind e ≟ OutputEventChunk) && (oev_Stream e ≟ stream) && bool_decide (is_Some (oev_Chunk e)).

Notation Sp := (M processOutputSpool SpoolError).

Definition evictOldestChunk (stream : string) : Sp bool :=
  s ← get;
  match find_index (is_chunk stream) (events s) with
  | None => mret false
  | Some (index, event) =>
    let stream := oev_Stream event in
    modify (fun s => put_events (nextCursor s) (take index (events s) ++ drop (S index) (events s)) s);;
    let retention := retention_of stream s in
    let bytes := u64 (rtn_RetainedBytes retention - Z.of_nat (length (default [] (chk_Bytes <$> oev_Chunk event)))) in
    match cursors_of stream s with
    | cursor :: cursors =>
      guard_or Panic (cursor ≟ oev_Cursor event);;
      modify (put_cursors stream cursors);;
      modify (put_retention stream (mkRetention (default "" (head cursors)) bytes true));;
      mret true
    | [] => fail Panic
    end
  end.

(** [for spool.retentions[stream].RetainedBytes+uint64(len(chunk)) > spool.retainedLimit] *)
Fixpoint evict_loop (fuel : nat) (stream : string) (size : Z) : Sp unit :=
  match fuel with
  | O => fail OutOfFuel
  | S fuel =>
    s ← get;
    if retainedLimit s <? u64 (rtn_RetainedBytes (retention_of stream s) + size) then
      evicted ← evictOldestChunk stream;
      if (evicted : bool) then evict_loop fuel stream size else mret tt
    else mret tt
  end.

Definition retain (stream : string) (chunk : slice) (redacted : bool) : Sp unit :=
  if (length chunk =? 0)%nat then mret tt else
  s ← get;
  let size := Z.of_nat (length chunk) in
  let oversized := retainedLimit s <? size in
  let chunk := if oversized then drop (Z.to_nat (size - retainedLimit s)) chunk else chunk in
  let size := Z.of_nat (length chunk) in
  modify (fun s => if oversized then
    let r := retention_of stream s in put_retention stream (mkRetention (rtn_EarliestCursor r) (rtn_RetainedBytes r) true) s else s);;
  evict_loop (S (length (events s))) stream size;;
  modify (appendEvent OutputEventChunk stream (Some (mkChunk chunk redacted)) None None);;
  s ← get;
  let cursor := default "" (oev_Cursor <$> last (events s)) in
  modify (put_cursors stream (cursors_of stream s ++ [cursor]));;
  let r := retention_of stream s in
  modify (put_retention stream (mkRetention (if rtn_EarliestCursor r ≟ "" then cursor else rtn_EarliestCursor r)
    (u64 (rtn_RetainedBytes r + size)) (rtn_Truncated r))).

Definition writeLocked (stream : string) (chunk : slice) : Sp unit :=
  s ← get;
  guard_or (Failure FailureAlreadyTerminal) (negb (closed s));;
  match redactors s !! stream with
  | None => fail (Failure FailureInvalidArgument)
  | Some redactor =>
    guard_or (Failure FailureResourceLimitExceeded) (Z.of_nat (length chunk) <=? maximumOutputChunkBytes);;
    guard_or (Failure FailureResourceLimitExceeded) (u64 (produced s + Z.of_nat (length chunk)) <=? producedLimit s);;
    modify (put_produced (u64 (produced s + Z.of_nat (length chunk))));;
    match redactor_Write redactor chunk with
    | None => fail OutOfFuel
    | Some (redacted, changed, redactor) =>
      modify (put_redactor stream redactor);;
      retain stream redacted changed
    end
  end.

Definition flush_stream (stream : string) : Sp unit :=
  s ← get;
  match redactors s !! stream with
  | None => fail Panic
  | Some redactor =>
    let '(redacted, changed, redactor) := Flush redactor in
    modify (put_redactor stream redactor);;
    retain stream redacted changed
  end.

Definition finish_stream (result : ProcessResult) (stream : string) : Sp unit :=
  s ← get;
  let retention := retention_of stream s in
  modify (fun s => if rtn_Truncated retention then appendEvent OutputEventGap stream None
    (Some (mkGap (rtn_EarliestCursor retention) "retained output limit exceeded")) None s else s);;
  modify (appendEvent OutputEventFinal stream None None (Some (mkFinal result))).

Definition spool_Close (result : ProcessResult) : Sp unit :=
  s ← get;
  if closed s then mret tt else
  flush_stream OutputStdout;;
  flush_stream OutputStderr;;
  finish_stream result OutputStdout;;
  finish_stream result OutputStderr;;
  modify put_closed.

Definition spool_Retention (stream : string) (s : processOutputSpool) : OutputRetention := retention_of stream s.
