(* ===== verification/RedactionTheorems.v ===== *)
(** * Redaction: theorems

    The literal redactor on a stream in chunks: its boundary search terminates, no
    secret is split over two released pieces, and the released bytes are those of a
    redaction of the whole stream at once, which contain no secret. *)

From Stdlib Require Import Ascii String.
From S2P Require Import Prelude GoString GoTime OutputSpool.

Open Scope Z_scope.

(** ** Occurrences *)

Lemma has_prefix_spec p s : has_prefix p s = true <-> p `prefix_of` s.
Proof.
  revert s. induction p as [|b p IH]; intros [|c s]; simpl.
  - split; [by exists [] | done].
  - split; [intros _; by exists (c :: s) | done].
  - split; [done|]. by intros [k ?].
  - rewrite andb_true_iff, Z.eqb_eq, IH. split; [intros [-> H]; by apply prefix_cons | intros H; split].
    + by apply prefix_cons_inv_1 in H.
    + by apply prefix_cons_inv_2 in H.
Qed.

(** [p] occurs in [s] at position [i]. *)
Definition occurs_at (p s : slice) (i : nat) : Prop := p `prefix_of` drop i s.

Lemma Index_Some s p i : Index s p = Some i -> occurs_at p s i /\ forall j, (j < i)%nat -> ~ occurs_at p s j.
Proof.
  revert i. induction s as [|c s IH]; intros i; simpl; destruct (has_prefix p _) eqn:Hp.
  1, 3: intros [= <-]; apply has_prefix_spec in Hp; split; [done | lia].
  - done.
  - destruct (Index s p) as [k|]; [|done]. intros [= <-]. destruct (IH k eq_refl) as [H1 H2]. split; [done|].
    intros [|j] Hj; [unfold occurs_at; simpl; rewrite <- has_prefix_spec; congruence | apply H2; lia].
Qed.

Lemma Index_None s p i : Index s p = None -> p <> [] -> ~ occurs_at p s i.
Proof.
  revert i. induction s as [|c s IH]; intros i; simpl; destruct (has_prefix p _) eqn:Hp; try done; intros H Hne.
  - unfold occurs_at. rewrite drop_nil. intros [k Hk]. destruct p; [done | discriminate Hk].
  - destruct (Index s p) eqn:Hi; [done|]. destruct i as [|i]; [|by apply (IH i)].
    unfold occurs_at. simpl. rewrite <- has_prefix_spec. congruence.
Qed.

Lemma occurs_in p s i : occurs_at p s i -> p <> [] -> (i + length p <= length s)%nat.
Proof.
  intros [k Hk] Hne. apply (f_equal length) in Hk. rewrite length_drop, length_app in Hk.
  destruct p; [done|]. simpl in *. lia.
Qed.

(** ** The boundary search *)

(** No occurrence of [p] from position [offset] on lies across [limit]. *)
Definition clear_of (p s : slice) (offset : nat) (limit : Z) : Prop :=
  forall i, (offset <= i)%nat -> occurs_at p s i -> ~ (Z.of_nat i < limit < Z.of_nat (i + length p)).

Lemma drop_occurs p s i j : occurs_at p (drop i s) j <-> occurs_at p s (i + j).
Proof. unfold occurs_at. by rewrite drop_drop. Qed.

(** What a pass reports: either the limit has moved towards the start, or nothing
    lies across it; it never moves past a clear limit. *)
Definition passed (clear : Z -> Prop) (limit : Z) (changed : bool) (limit' : Z) (changed' : bool) : Prop :=
  limit' <= limit /\ (0 <= limit -> 0 <= limit') /\ (forall l, l <= limit -> clear l -> l <= limit') /\
  (changed' = true /\ (changed = true \/ limit' < limit) \/ changed' = changed /\ limit' = limit /\ clear limit).

Lemma passed_trans (c1 c2 : Z -> Prop) l0 b0 l1 b1 l2 b2 :
  passed c1 l0 b0 l1 b1 -> passed c2 l1 b1 l2 b2 -> passed (fun l => c1 l /\ c2 l) l0 b0 l2 b2.
Proof.
  intros (H1 & P1 & G1 & C1) (H2 & P2 & G2 & C2). split_and!; [lia | lia | intros l Hl [? ?]; auto |].
  destruct C2 as [[-> C2]|(-> & -> & C2)]; [left; split; [done|] | destruct C1 as [[-> C1]|(-> & -> & C1)]; [by left | right; auto]].
  destruct C2 as [->|C2]; [|right; lia]. destruct C1 as [[_ [->|C1]]|(<- & -> & _)]; [by left | right; lia | by left].
Qed.

Lemma scan_pattern_spec fuel s p offset limit changed :
  p <> [] -> (offset <= length s)%nat -> (length s < fuel + offset)%nat ->
  exists limit' changed', scan_pattern fuel s p offset (limit, changed) = Some (limit', changed') /\
    passed (clear_of p s offset) limit changed limit' changed'.
Proof.
  intros Hp. revert offset limit changed. induction fuel as [|fuel IH]; intros offset limit changed Ho Hf; [lia|]. cbn [scan_pattern].
  destruct (Index (drop offset s) p) as [i|] eqn:Hi.
  2: { exists limit, changed. split; [done|]. split_and!; [lia | lia | auto |]. right. split_and!; [done | done |]. intros k Hk Hocc.
       destruct (Index_None _ _ (k - offset) Hi Hp). apply drop_occurs. by replace (offset + (k - offset))%nat with k by lia. }
  apply Index_Some in Hi as [Hocc Hfirst]. rewrite drop_occurs in Hocc. pose proof (occurs_in _ _ _ Hocc Hp) as Hin.
  rewrite (Nat.add_comm i offset). set (index := (offset + i)%nat) in *. cbn [fst].
  set (st := if _ && _ then _ else _). assert (Hst : passed (fun l => ~ (Z.of_nat index < l < Z.of_nat (index + length p))) limit changed st.1 st.2).
  { unfold st. destruct (_ && _) eqn:Hb; simpl.
    - bools. split_and!; [lia | lia | intros l Hl Hc; lia |]. left. split; [done | right; lia].
    - split_and!; [lia | lia | auto |]. right. split_and!; [done | done |]. intros Hc. apply andb_false_iff in Hb as [Hb|Hb]; bools; lia. }
  assert (Hrest : forall l0, clear_of p s offset l0 <-> ~ (Z.of_nat index < l0 < Z.of_nat (index + length p)) /\ clear_of p s (S index) l0).
  { intros l0. split; [intros Hc; split; [by apply Hc; [lia|] | intros k Hk; apply Hc; lia]|]. intros [Hn Hc] k Hk Hok. destruct (decide (k = index)) as [->|Hne]; [done|]. apply Hc; [|done].
    destruct (decide (k < index)%nat) as [Hlt|]; [|lia]. exfalso. apply (Hfirst (k - offset)%nat); [lia|].
    apply drop_occurs. by replace (offset + (k - offset))%nat with k by lia. }
  destruct st as [l1 b1]. cbn [fst snd] in Hst. destruct (Nat.leb_spec (length s) (S index)) as [Hle|Hlt].
  - exists l1, b1. split; [done|]. destruct Hst as (H1 & H2 & HG & H3). split_and!; [done | done | intros l Hl [? _]%Hrest; auto |].
    destruct H3 as [H3|(-> & -> & H3)]; [by left | right]. split_and!; [done | done |]. apply Hrest. split; [done|].
    intros k Hk Hok. pose proof (occurs_in _ _ _ Hok Hp). destruct p; [done|]. simpl in *. lia.
  - destruct (IH (S index) l1 b1) as (l2 & b2 & -> & H2); [lia | lia |]. exists l2, b2. split; [done|].
    destruct (passed_trans _ _ _ _ _ _ _ _ Hst H2) as (H3 & H4 & HG & H5). split_and!; [done | done | intros l Hl Hc%Hrest; auto |].
    destruct H5 as [H5|(-> & -> & H5 & H6)]; [by left | right]. split_and!; [done | done |]. apply Hrest. auto.
Qed.

Lemma scan_patterns_spec s ps limit changed :
  (forall p, p ∈ ps -> p <> []) ->
  exists limit' changed', scan_patterns s ps (limit, changed) = Some (limit', changed') /\
    passed (fun l => forall p, p ∈ ps -> clear_of p s 0 l) limit changed limit' changed'.
Proof.
  revert limit changed. induction ps as [|p ps IH]; intros limit changed Hne; cbn [scan_patterns].
  - exists limit, changed. split; [done|]. split_and!; [lia | lia | auto |]. right. split_and!; [done | done |]. by intros p ?%elem_of_nil.
  - destruct (scan_pattern_spec (S (length s)) s p 0 limit changed) as (l1 & b1 & -> & H1); [apply Hne; by left | lia | lia |].
    destruct (IH l1 b1) as (l2 & b2 & -> & H2); [intros q Hq; apply Hne; by right|]. exists l2, b2. split; [done|].
    destruct (passed_trans _ _ _ _ _ _ _ _ H1 H2) as (H3 & H4 & HG & H5).
    split_and!; [done | done | intros l Hl Hc; apply HG; [done | split; [apply Hc; by left | intros q Hq; apply Hc; by right]] |].
    destruct H5 as [H5|(-> & -> & H5 & H6)]; [by left | right]. split_and!; [done | done |].
    intros q [->|Hq]%elem_of_cons; auto.
Qed.

(** The search ends within as many passes as the limit allows, at the greatest limit
    that no occurrence lies across; more fuel does not change it. *)
Lemma settle_limit_spec fuel s ps limit :
  (forall p, p ∈ ps -> p <> []) -> 0 <= limit < Z.of_nat fuel ->
  exists limit', (forall fuel', (fuel <= fuel')%nat -> settle_limit fuel' s ps limit = Some limit') /\ 0 <= limit' <= limit /\
    (forall p, p ∈ ps -> clear_of p s 0 limit') /\
    forall l, l <= limit -> (forall p, p ∈ ps -> clear_of p s 0 l) -> l <= limit'.
Proof.
  intros Hne. revert limit. induction fuel as [|fuel IH]; intros limit Hf; [lia|].
  destruct (scan_patterns_spec s ps limit false Hne) as (l1 & b1 & Hscan & H1 & H2 & HG & H3).
  destruct H3 as [(-> & [|H3])|(-> & -> & H3)]; [done | |].
  - destruct (IH l1) as (l2 & Hl2 & H4 & H5 & HG2); [lia|]. exists l2. split_and!; [ | lia | lia | done | auto].
    intros [|fuel'] Hfuel; [lia|]. cbn [settle_limit]. rewrite Hscan. apply Hl2. lia.
  - exists limit. split_and!; [ | lia | lia | done | auto]. intros [|fuel'] Hfuel; [lia|]. cbn [settle_limit]. by rewrite Hscan.
Qed.

(** ** Replacement *)

(** The redaction of a text at once. *)
Definition redact (ps : list slice) (s : slice) : slice := foldl (fun s p => ReplaceAll s p REDACTED) s ps.

Lemma replace_from_skip old new n s : replace_from old new n s = replace_from old new 0 (drop n s).
Proof.
  revert n. induction s as [|c s IH]; intros [|n]; try done. cbn [replace_from drop]. apply IH.
Qed.

Section ReplaceAll.
Context (p new : slice) (Hp : p <> []).

Lemma ReplaceAll_hit s : ReplaceAll (p ++ s) p new = new ++ ReplaceAll s p new.
Proof.
  unfold ReplaceAll. destruct p as [|b q]; [done|]. cbn [app]. cbn [replace_from].
  rewrite (proj2 (has_prefix_spec (b :: q) (b :: q ++ s))) by (by exists s). f_equal.
  rewrite replace_from_skip. f_equal. cbn [length].
  replace (S (length q) - 1)%nat with (length q) by lia. by rewrite drop_app_length.
Qed.

Lemma ReplaceAll_miss c s : ~ p `prefix_of` (c :: s) -> ReplaceAll (c :: s) p new = c :: ReplaceAll s p new.
Proof.
  intros Hn. unfold ReplaceAll. cbn [replace_from]. destruct (has_prefix p (c :: s)) eqn:Hh; [|done].
  by apply has_prefix_spec in Hh.
Qed.

(** A text is empty, starts with an occurrence, or starts with another byte. *)
Lemma replace_ind (P : slice -> Prop) :
  P [] -> (forall s, P s -> P (p ++ s)) -> (forall c s, ~ p `prefix_of` (c :: s) -> P s -> P (c :: s)) -> forall s, P s.
Proof.
  intros H0 Hhit Hmiss s. induction s as [s IH] using (induction_ltof1 _ length). unfold ltof in IH.
  destruct (has_prefix p s) eqn:Hh.
  - apply has_prefix_spec in Hh as [k ->]. apply Hhit, IH. rewrite length_app. destruct p; [done|]. simpl. lia.
  - destruct s as [|c s]; [done|]. apply Hmiss; [rewrite <- has_prefix_spec; congruence | apply IH; simpl; lia].
Qed.

(** No occurrence of [p] in [x ++ y] lies across the boundary. *)
Definition cut (p x y : slice) : Prop := forall a u v b, x = a ++ u -> y = v ++ b -> p = u ++ v -> u = [] \/ v = [].

Lemma ReplaceAll_app x y : cut p x y -> ReplaceAll (x ++ y) p new = ReplaceAll x p new ++ ReplaceAll y p new.
Proof.
  revert x. refine (replace_ind _ _ _ _).
  - done.
  - intros x IH Hc. rewrite <- app_assoc, !ReplaceAll_hit, IH, app_assoc; [done|].
    intros a u v b -> Hy Hpu. apply (Hc (p ++ a) u v b); [by rewrite app_assoc | done | done].
  - intros c x Hn IH Hc. cbn [app]. rewrite !ReplaceAll_miss; [|done|].
    + cbn [app]. rewrite IH; [done|]. intros a u v b -> Hy Hpu. by apply (Hc (c :: a) u v b).
    + intros [k Hk]. change (c :: x ++ y) with ((c :: x) ++ y) in Hk.
      destruct (app_eq_inv _ _ _ _ Hk) as [(l & H1 & H2)|(l & H1 & H2)].
      * apply Hn. by exists l.
      * destruct (Hc [] (c :: x) l k) as [|Hl]; [done | done | done | done |]. subst l. rewrite app_nil_r in H1.
        apply Hn. by rewrite H1.
Qed.
End ReplaceAll.

(** *** Texts without brackets *)

Definition plain (s : slice) : Prop := 91 ∉ s /\ 93 ∉ s.

Lemma REDACTED_brackets : exists m, REDACTED = 91 :: m ++ [93].
Proof. by exists (bytes "REDACTED"). Qed.

Lemma plain_nil_r r t : REDACTED = r ++ t -> plain t -> t = [].
Proof.
  intros He [_ Ht]. destruct REDACTED_brackets as [m Hm]. rewrite Hm in He. destruct t as [|x t' _] using rev_ind; [done|].
  rewrite app_comm_cons, app_assoc in He. apply app_inj_tail in He as [_ <-]. set_solver.
Qed.

Lemma plain_nil_l r t : REDACTED = r ++ t -> plain r -> r = [].
Proof.
  intros He [Hr _]. destruct REDACTED_brackets as [m Hm]. rewrite Hm in He. destruct r as [|x r]; [done|].
  injection He as <- _. set_solver.
Qed.

Lemma plain_app a b : plain (a ++ b) <-> plain a /\ plain b.
Proof. unfold plain. rewrite !not_elem_of_app. tauto. Qed.
Lemma plain_cons c s : plain (c :: s) <-> plain [c] /\ plain s.
Proof. apply (plain_app [c] s). Qed.

(** A piece of a text that ends in [REDACTED] and continues in [t] is in [t] or in
    [REDACTED] if it has no brackets. *)
Lemma infix_redacted q a b t : a ++ q ++ b = REDACTED ++ t -> plain q -> (exists a', a' ++ q ++ b = t) \/ exists r r', REDACTED = r ++ q ++ r'.
Proof.
  intros He Hq. destruct (app_eq_inv _ _ _ _ He) as [(k & -> & Ht)|(k & Hr & Ht)]; [left; by exists k|].
  destruct (app_eq_inv _ _ _ _ Ht) as [(m & -> & Hb)|(m & Hk & Hb)].
  - apply plain_app in Hq as [Hk _]. left. exists []. rewrite (plain_nil_r _ _ Hr Hk), app_nil_l in *. by rewrite <- app_assoc, <- Hb.
  - right. exists a, m. by rewrite Hr, Hk.
Qed.

Section Plain.
Context (p : slice) (Hp : p <> []).

Notation RA s := (ReplaceAll s p REDACTED).

Lemma prefix_back v s : v `prefix_of` RA s -> plain v -> v `prefix_of` s.
Proof.
  revert s v. refine (replace_ind p Hp _ _ _ _).
  - done.
  - intros s IH v. rewrite ReplaceAll_hit by done. intros [k Hk] Hv. destruct (app_eq_inv _ _ _ _ Hk) as [(m & Hr & _)|(m & -> & _)].
    + rewrite (plain_nil_l _ _ Hr Hv). apply prefix_nil.
    + apply plain_app in Hv as [[Hv _] _]. exfalso. apply Hv. destruct REDACTED_brackets as [x ->]. by left.
  - intros c s Hn IH v. rewrite ReplaceAll_miss by done. intros [k Hk] Hv. destruct v as [|b v]; [apply prefix_nil|].
    injection Hk as <- Hk. apply plain_cons in Hv as [_ Hv]. apply prefix_cons. apply IH; [by exists k | done].
Qed.

Lemma plain_unchanged s : plain (RA s) -> RA s = s.
Proof.
  revert s. refine (replace_ind p Hp _ _ _ _).
  - done.
  - intros s IH. rewrite ReplaceAll_hit by done. intros [[Hr _] _]%plain_app. exfalso. apply Hr.
    destruct REDACTED_brackets as [x ->]. by left.
  - intros c s Hn IH. rewrite ReplaceAll_miss by done. intros [_ Hs]%plain_cons. by rewrite IH.
Qed.

Lemma suffix_back u s : u `suffix_of` RA s -> plain u -> u `suffix_of` s.
Proof.
  revert s u. refine (replace_ind p Hp _ _ _ _).
  - done.
  - intros s IH u. rewrite ReplaceAll_hit by done. intros [k Hk] Hu. destruct (app_eq_inv _ _ _ _ Hk) as [(m & Hr & ->)|(m & -> & Hm)].
    + apply plain_app in Hu as [Hm Hu]. rewrite (plain_nil_r _ _ Hr Hm), app_nil_l. apply suffix_app_r. by apply IH.
    + apply suffix_app_r. apply IH; [by exists m | done].
  - intros c s Hn IH u. rewrite ReplaceAll_miss by done. intros [[|x k] Hk] Hu.
    + cbn [app] in Hk. subst u. apply plain_cons in Hu as [_ Hu]. by rewrite plain_unchanged.
    + injection Hk as <- Hk. apply suffix_cons_r. apply IH; [by exists k | done].
Qed.

(** A secret without brackets that is no part of [REDACTED] is not brought in. *)
Lemma infix_back q s a b : a ++ q ++ b = RA s -> plain q -> (forall r r', REDACTED <> r ++ q ++ r') -> exists a' b', s = a' ++ q ++ b'.
Proof.
  intros He Hq Hnr. revert s a He. refine (replace_ind p Hp _ _ _ _).
  - intros a He. exists a, b. by rewrite He.
  - intros s IH a. rewrite ReplaceAll_hit by done. intros He. destruct (infix_redacted _ _ _ _ He Hq) as [[a' Ha']|(r & r' & Hr)].
    + destruct (IH a' Ha') as (x & y & ->). exists (p ++ x), y. by rewrite <- !app_assoc.
    + by destruct (Hnr r r').
  - intros c s Hn IH [|x a]; rewrite ReplaceAll_miss by done; intros He.
    + assert (q `prefix_of` c :: s) as [k Hk]; [|by exists [], k]. destruct q as [|y q]; [apply prefix_nil|].
      injection He as -> He. apply prefix_cons. apply plain_cons in Hq as [_ Hq]. apply prefix_back; [by exists b | done].
    + injection He as -> He. destruct (IH a He) as (a' & b' & ->). by exists (c :: a'), b'.
Qed.

(** Nor does the replaced secret itself remain. *)
Lemma replaced_gone s a b : plain p -> (forall r r', REDACTED <> r ++ p ++ r') -> a ++ p ++ b <> RA s.
Proof.
  intros Hpl Hnr. revert s a. refine (replace_ind p Hp _ _ _ _).
  - intros a He. apply Hp. by destruct a, p.
  - intros s IH a. rewrite ReplaceAll_hit by done. intros He. destruct (infix_redacted _ _ _ _ He Hpl) as [[a' Ha']|(r & r' & Hr)].
    + by destruct (IH a').
    + by destruct (Hnr r r').
  - intros c s Hn IH [|x a]; rewrite ReplaceAll_miss by done; intros He; [|injection He as -> He; by destruct (IH a)].
    assert (exists y q, p = y :: q) as (y & q & Hyq) by (destruct p as [|y q]; [done | by exists y, q]).
    assert (He' : (y :: q) ++ b = c :: RA s) by (by rewrite <- Hyq). injection He' as -> He'.
    apply Hn. rewrite Hyq in Hpl |- * at 1. apply plain_cons in Hpl as [_ Hpl].
    apply prefix_cons. apply prefix_back; [by exists b | done].
Qed.

(** Replacing one secret does not move another one across a boundary. *)
Lemma cut_replaced q x y : plain q -> cut q x y -> cut q (RA x) (RA y).
Proof.
  intros Hq Hc a u v b Hx Hy ->. apply plain_app in Hq as [Hu Hv].
  destruct (suffix_back u x) as [a' ->]; [by exists a | done |]. destruct (prefix_back v y) as [b' ->]; [by exists b | done |].
  by apply (Hc a' u v b').
Qed.
End Plain.

(** Redacting a text piece by piece, when no secret lies across the boundaries. *)
Lemma redact_app ps x y :
  (forall p, p ∈ ps -> p <> [] /\ plain p /\ cut p x y) -> redact ps (x ++ y) = redact ps x ++ redact ps y.
Proof.
  revert x y. induction ps as [|p ps IH]; intros x y Hps; [done|]. unfold redact. cbn [foldl].
  destruct (Hps p) as (Hp & Hpl & Hcut); [by left|]. rewrite ReplaceAll_app by done. apply IH.
  intros q Hq. destruct (Hps q) as (Hq0 & Hql & Hqc); [by right|]. split_and!; [done | done |]. by apply cut_replaced.
Qed.

Lemma ReplaceAll_absent s p : p <> [] -> Contains s p = false -> ReplaceAll s p REDACTED = s.
Proof.
  intros Hp Hc. unfold Contains in Hc. bools. destruct (Index s p) eqn:Hi; [by destruct Hc|]. clear Hc.
  assert (Hno : forall i, ~ occurs_at p s i) by (intros i; by apply Index_None). clear Hi.
  revert s Hno. refine (replace_ind p Hp _ _ _ _).
  - done.
  - intros s _ Hno. destruct (Hno 0%nat). by exists s.
  - intros c s Hn IH Hno. rewrite ReplaceAll_miss by done. rewrite IH; [done|]. intros i. apply (Hno (S i)).
Qed.

Lemma replace_redact ps s : (forall p, p ∈ ps -> p <> []) -> (replace ps s).1 = redact ps s.
Proof.
  unfold replace, redact. generalize false. revert s. induction ps as [|p ps IH]; intros s c Hne; [done|]. cbn [foldl fst].
  destruct (Contains s p) eqn:Hc.
  - apply IH. intros q Hq. apply Hne. by right.
  - rewrite ReplaceAll_absent by (done || (apply Hne; by left)). apply IH. intros q Hq. apply Hne. by right.
Qed.

(** The redacted text contains no secret. *)
Lemma redact_clean ps s q a b :
  (forall p, p ∈ ps -> p <> [] /\ plain p /\ forall r r', REDACTED <> r ++ p ++ r') -> q ∈ ps -> redact ps s <> a ++ q ++ b.
Proof.
  intros Hps Hq. revert s a b. induction ps as [|p ps IH] using rev_ind; [by apply elem_of_nil in Hq|]. intros s a b.
  unfold redact. rewrite foldl_app. cbn [foldl]. fold (redact ps s). intros He. symmetry in He.
  destruct (Hps p) as (Hp & Hpl & Hpr); [set_solver|]. apply elem_of_app in Hq as [Hq| ->%list_elem_of_singleton].
  - destruct (Hps q) as (_ & Hql & Hqr); [set_solver|]. destruct (infix_back p Hp q _ a b He Hql Hqr) as (a' & b' & He').
    apply (IH ltac:(set_solver) Hq s a' b' He').
  - by apply (replaced_gone p Hp (redact ps s) a b) in He.
Qed.

(** ** Chunks *)

Definition nonempty (ps : list slice) : Prop := forall p, p ∈ ps -> p <> [].

Lemma longest_bound r p : p ∈ patterns r -> (length p <= longestPattern r)%nat.
Proof.
  unfold longestPattern. set (f := fun longest p => _).
  assert (Hf : forall l acc, (acc <= foldl f acc l)%nat /\ forall p, p ∈ l -> (length p <= foldl f acc l)%nat).
  { induction l as [|q l IH]; intros acc; cbn [foldl]; [split; [done | by intros q ?%elem_of_nil]|].
    destruct (IH (f acc q)) as [H1 H2]. assert (acc <= f acc q /\ length q <= f acc q)%nat
      by (unfold f; destruct (Nat.ltb_spec acc (length q)); lia).
    split; [lia|]. intros x [->|Hx]%elem_of_cons; [lia | by apply H2]. }
  intros Hp. by apply Hf.
Qed.

(** At a settled limit the text can be cut, whatever follows. *)
Lemma settled_cut p s limit longest future :
  clear_of p s 0 (Z.of_nat limit) -> (length p <= longest)%nat -> (limit + longest <= S (length s))%nat ->
  cut p (take limit s) (drop limit s ++ future).
Proof.
  intros Hc Hl Hs a u v b Hx Hy ->. destruct u as [|u0 u]; [by left|]. destruct v as [|v0 v]; [by right|]. exfalso.
  rewrite length_app in Hl. cbn [length] in Hl. assert (Hlen : (length a + S (length u) = limit)%nat).
  { apply (f_equal length) in Hx. rewrite length_take, length_app in Hx. cbn [length] in Hx. lia. }
  assert (Hv : (v0 :: v) `prefix_of` drop limit s).
  { destruct (app_eq_inv _ _ _ _ Hy) as [(k & -> & _)|(k & Hk & _)]; [by exists k|].
    apply (f_equal length) in Hk as Hk'. rewrite length_app, length_drop in Hk'. cbn [length] in Hk'.
    assert (length k = 0)%nat as ->%nil_length_inv by lia. rewrite app_nil_r in Hk. by rewrite Hk. }
  assert (Hocc : occurs_at ((u0 :: u) ++ v0 :: v) s (length a)).
  { unfold occurs_at. destruct Hv as [k Hk]. exists k. rewrite <- (take_drop limit s), Hx, Hk at 1.
    rewrite <- app_assoc, drop_app_length. by rewrite <- app_assoc. }
  apply (Hc (length a) ltac:(lia) Hocc). rewrite length_app. cbn [length]. lia.
Qed.

Lemma cut_app p x y z : cut p x (y ++ z) -> cut p y z -> cut p (x ++ y) z.
Proof.
  intros H1 H2 a u v b Hxy Hz Hp. destruct (app_eq_inv _ _ _ _ Hxy) as [(k & -> & ->)|(k & -> & Hy)].
  - destruct (H1 a k (y ++ v) b) as [->|He]; [done | by rewrite Hz, app_assoc | by rewrite Hp, app_assoc | |].
    + by apply (H2 [] y v b).
    + right. by apply app_eq_nil in He as [_ ?].
  - by apply (H2 k u v b).
Qed.

Lemma replace_nil ps : nonempty ps -> replace ps [] = ([], false).
Proof.
  unfold replace. induction ps as [|p ps IH]; intros Hne; [done|]. cbn [foldl fst].
  assert (p <> []) as Hp by (apply Hne; by left). destruct p; [done|]. apply IH. intros q Hq. apply Hne. by right.
Qed.

Lemma write_spec r chunk :
  nonempty (patterns r) ->
  exists piece rest, pending r ++ chunk = piece ++ rest /\
    redactor_Write r chunk = Some (replace (patterns r) piece, mkRedactor (patterns r) rest) /\
    forall p future, p ∈ patterns r -> cut p piece (rest ++ future).
Proof.
  intros Hne. unfold redactor_Write. cbv zeta. set (s := pending r ++ chunk). set (longest := longestPattern r).
  destruct (patterns r) as [|p0 ps] eqn:Hps.
  { exists s, []. rewrite app_nil_r. split_and!; [done | done |]. by intros p future ?%elem_of_nil. }
  rewrite <- Hps in *. assert (Hlong : (1 <= longest)%nat).
  { assert (Hp0 : p0 ∈ patterns r) by (rewrite Hps; by left). pose proof (longest_bound r p0 Hp0). pose proof (Hne p0 Hp0).
    destruct p0; [done|]. simpl in *. unfold longest. lia. }
  clear Hps ps p0.
  assert (Hnone : exists piece rest, s = piece ++ rest /\
    Some ([], false, mkRedactor (patterns r) s) = Some (replace (patterns r) piece, mkRedactor (patterns r) rest) /\
    forall p future, p ∈ patterns r -> cut p piece (rest ++ future)).
  { exists [], s. split_and!; [done | by rewrite replace_nil | intros p future _ [|] u v b Hx; [destruct u; [by left | done] | done]]. }
  destruct (Z.leb_spec (Z.of_nat (length s) - (Z.of_nat longest - 1)) 0) as [|Hpos]; [done|].
  destruct (settle_limit_spec (S (length s)) s (patterns r) (Z.of_nat (length s) - (Z.of_nat longest - 1)) Hne) as (limit & Hsettle & Hl & Hc & _); [lia|].
  rewrite Hsettle by done.
  destruct (Z.leb_spec limit 0) as [|Hlpos]; [done|].
  exists (take (Z.to_nat limit) s), (drop (Z.to_nat limit) s). split_and!; [by rewrite take_drop | done |].
  intros p future Hp. apply (settled_cut p s _ longest); [rewrite Z2Nat.id by lia; by apply Hc | by apply longest_bound | lia].
Qed.

(** ** Streams *)

(** What a redactor releases for each chunk and at the end, with the mark whether
    something was redacted. *)
Fixpoint outputs (r : literalRedactor) (chunks : list slice) : option (list (slice * bool)) :=
  match chunks with
  | [] => Some [(Flush r).1]
  | c :: chunks =>
    match redactor_Write r c with
    | Some (out, r) => cons out <$> outputs r chunks
    | None => None
    end
  end.

Lemma outputs_spec r chunks :
  nonempty (patterns r) ->
  exists pieces, outputs r chunks = Some (replace (patterns r) <$> pieces) /\ length pieces = S (length chunks) /\
    concat pieces = pending r ++ concat chunks /\
    forall i p, p ∈ patterns r -> cut p (concat (take i pieces)) (concat (drop i pieces)).
Proof.
  revert r. induction chunks as [|c chunks IH]; intros r Hne; cbn [outputs].
  - exists [pending r]. split_and!; [done | done | done |].
    intros [|i] p _; cbn [take drop concat]; [intros a u v b Hx; destruct a, u; auto; done|].
    rewrite take_nil, drop_nil. intros a u v b _ Hy. destruct v; [by right | done].
  - destruct (write_spec r c Hne) as (piece & rest & Hs & -> & Hcut).
    destruct (IH (mkRedactor (patterns r) rest) Hne) as (pieces & -> & Hlen & Hcat & Hcuts). cbn [patterns pending] in *.
    exists (piece :: pieces). split_and!; [done | cbn [length]; lia | |].
    + cbn [concat]. by rewrite Hcat, !app_assoc, Hs.
    + intros [|i] p Hp; cbn [take drop concat]; [intros a u v b Hx; destruct a, u; auto; done|].
      apply cut_app; [|by apply Hcuts]. rewrite <- concat_app, take_drop, Hcat. by apply Hcut.
Qed.

(** ** Redactors *)

Lemma insert_pattern_perm p l : insert_pattern p l ≡ₚ p :: l.
Proof. induction l as [|q l IH]; simpl; [done|]. case_match; [done|]. rewrite IH. apply Permutation_swap. Qed.

Lemma sort_patterns_perm l : sort_patterns l ≡ₚ l.
Proof.
  unfold sort_patterns. assert (H : forall acc, foldl (fun acc p => insert_pattern p acc) acc l ≡ₚ acc ++ l).
  { induction l as [|p l IH]; intros acc; simpl; [by rewrite app_nil_r|]. rewrite IH, insert_pattern_perm. by rewrite <- Permutation_middle. }
  apply H.
Qed.

Lemma add_patterns_Ok st l st' : add_patterns st l = Ok st' -> st'.2 = st.2 ++ l /\ nonempty l.
Proof.
  revert st. induction l as [|p l IH]; intros st; cbn [add_patterns].
  - intros [= <-]. rewrite app_nil_r. split; [done|]. by intros p ?%elem_of_nil.
  - unfold add_pattern. destruct p as [|b p]; [done|]. cbv zeta. destruct (_ || _); [done|]. intros H. apply IH in H as [-> Hne]. simpl.
    rewrite <- app_assoc. split; [done|]. intros q [->|Hq]%elem_of_cons; [done | by apply Hne].
Qed.

Lemma new_redactor ps r : newLiteralRedactor ps = Ok r ->
  pending r = [] /\ (forall p, p ∈ patterns r <-> p ∈ ps) /\ nonempty (patterns r) /\ patterns r = sort_patterns ps.
Proof.
  unfold newLiteralRedactor. destruct (add_patterns (0, []) ps) as [st|] eqn:Ha; [|done]. intros [= <-].
  apply add_patterns_Ok in Ha as [Hst Hne]. destruct st as [t l]. simpl in *. subst l. assert (Hin : forall p, p ∈ sort_patterns ps <-> p ∈ ps)
    by (intros p; by rewrite sort_patterns_perm). split_and!; [done | apply Hin | | done].
  intros p Hp. by apply Hne, Hin.
Qed.

(** Secrets are never split.  A redactor accepts any chunks without getting
    stuck; it releases for every chunk, and at the end, one redacted piece of the
    stream, the pieces are the stream in order and complete, and no secret lies
    across the boundary of two pieces, however the stream is cut into chunks. *)
Theorem secrets_never_split ps r chunks :
  newLiteralRedactor ps = Ok r ->
  exists pieces, outputs r chunks = Some (replace (patterns r) <$> pieces) /\ length pieces = S (length chunks) /\
    concat pieces = concat chunks /\
    forall i p a u v b, p ∈ ps -> p = u ++ v -> concat (take i pieces) = a ++ u -> concat (drop i pieces) = v ++ b -> u = [] \/ v = [].
Proof.
  intros (Hpend & Hin & Hne & _)%new_redactor. destruct (outputs_spec r chunks Hne) as (pieces & Ho & Hlen & Hcat & Hcuts).
  exists pieces. rewrite Hpend in Hcat. split_and!; [done | done | done |]. intros i p a u v b Hp Hpu Ha Hb.
  by apply (Hcuts i p (proj2 (Hin p) Hp) a u v b).
Qed.

Definition released (r : literalRedactor) (chunks : list slice) : option slice := (fun l => concat l.*1) <$> outputs r chunks.

Lemma released_redact r chunks :
  nonempty (patterns r) -> (forall p, p ∈ patterns r -> plain p) ->
  released r chunks = Some (redact (patterns r) (pending r ++ concat chunks)).
Proof.
  intros Hne Hpl. destruct (outputs_spec r chunks Hne) as (pieces & Ho & _ & Hcat & Hcuts). unfold released. rewrite Ho, <- Hcat. simpl. f_equal.
  rewrite <- list_fmap_compose. clear Ho Hcat. induction pieces as [|x pieces IH]; simpl.
  - unfold redact. clear -Hne. induction (patterns r) as [|p ps IH]; [done|]. apply IH. intros q Hq. apply Hne. by right.
  - rewrite redact_app; [rewrite replace_redact by done; f_equal; apply IH|].
    + intros i p Hp a u v b Ha Hb Hpu. apply (Hcuts (S i) p Hp (x ++ a) u v b); [simpl; by rewrite Ha, app_assoc | done | done].
    + intros p Hp. split_and!; [by apply Hne | by apply Hpl |]. specialize (Hcuts 1%nat p Hp). simpl in Hcuts.
      by rewrite app_nil_r in Hcuts.
Qed.

(** C34: streaming redaction is redaction.  Whatever the secrets and the chunks, the bytes a
    redactor releases are the redactions of pieces of the stream, which together are the
    stream in order and complete, and no secret lies across two pieces.  When moreover no
    secret contains a square bracket ([plain]), they are exactly the redaction of the whole
    stream at once, so they do not depend on how the stream was cut.  With a bracket in a
    secret they can depend on it ([redactor_contract_gaps]). *)
Theorem streaming_redaction ps r chunks :
  newLiteralRedactor ps = Ok r ->
  (exists pieces : list slice, released r chunks = Some (concat (redact (sort_patterns ps) <$> pieces)) /\ concat pieces = concat chunks /\
     forall i p a u v b, p ∈ ps -> p = u ++ v -> concat (take i pieces) = a ++ u -> concat (drop i pieces) = v ++ b -> u = [] \/ v = []) /\
  ((forall p, p ∈ ps -> plain p) -> released r chunks = Some (redact (sort_patterns ps) (concat chunks))).
Proof.
  intros (Hpend & Hin & Hne & Hps)%new_redactor. split.
  - destruct (outputs_spec r chunks Hne) as (pieces & Ho & _ & Hcat & Hcuts). exists pieces. rewrite Hpend in Hcat. split_and!; [|done|].
    + unfold released. rewrite Ho, <- Hps. simpl. do 2 f_equal. rewrite <- list_fmap_compose. apply list_fmap_ext. intros i x _. apply replace_redact, Hne.
    + intros i p a u v b Hp Hpu Ha Hb. by apply (Hcuts i p (proj2 (Hin p) Hp) a u v b).
  - intros Hpl. rewrite released_redact, Hpend, Hps; [done | done |]. intros p Hp. apply Hpl. by apply Hin.
Qed.

(** C35: redacted output contains no secret.  When no secret contains a square bracket
    ([plain]) or is itself a part of the replacement text [REDACTED], no secret occurs
    anywhere in the bytes released for a stream, within one piece or across pieces,
    however the stream was cut. *)
Theorem redacted_stream_clean ps r chunks :
  newLiteralRedactor ps = Ok r -> (forall p, p ∈ ps -> plain p /\ forall x y, REDACTED <> x ++ p ++ y) ->
  exists out, released r chunks = Some out /\ forall p a b, p ∈ ps -> out <> a ++ p ++ b.
Proof.
  intros (Hpend & Hin & Hne & Hps)%new_redactor Hpl. rewrite released_redact; [|done|intros p Hp; by apply Hpl, Hin].
  eexists. split; [done|]. intros p a b Hp. apply redact_clean; [|by apply Hin]. intros q Hq.
  destruct (Hpl q) as [H1 H2]; [by apply Hin|]. split_and!; [by apply Hne | done | done].
Qed.

(** C36: The boundary search terminates with the best answer.  With as much fuel as
    the initial limit it returns a limit, more fuel changes nothing, no secret lies
    across that limit, and it is the greatest such limit: as much as possible is
    released. *)
Theorem boundary_search_terminates ps r s limit :
  newLiteralRedactor ps = Ok r -> 0 <= limit <= Z.of_nat (length s) ->
  exists limit', (forall fuel, (length s < fuel)%nat -> settle_limit fuel s (patterns r) limit = Some limit') /\ 0 <= limit' <= limit /\
    (forall p, p ∈ ps -> clear_of p s 0 limit') /\
    forall l, limit' < l <= limit -> ~ (forall p, p ∈ ps -> clear_of p s 0 l).
Proof.
  intros (_ & Hin & Hne & _)%new_redactor Hl.
  destruct (settle_limit_spec (S (length s)) s (patterns r) limit Hne) as (limit' & Hs & Hb & Hc & Hg); [lia|].
  exists limit'. split_and!; [intros fuel Hf; apply Hs; lia | lia | lia | intros p Hp; by apply Hc, Hin |].
  intros l Hll Hclear. assert (l <= limit'); [|lia]. apply Hg; [lia|]. intros p Hp. by apply Hclear, Hin.
Qed.

(** ** Limits of the redactor *)

(** An all-[x] text of length [n] has no clear limit for the secret [xx] inside. *)
Lemma run_not_clear x n l : 0 < l < Z.of_nat n -> ~ clear_of [x; x] (replicate n x) 0 l.
Proof.
  intros Hl Hc. apply (Hc (Z.to_nat l - 1)%nat); [lia | | simpl; lia]. unfold occurs_at. rewrite drop_replicate.
  replace (n - (Z.to_nat l - 1))%nat with (S (S (n - Z.to_nat l - 1))) by lia. simpl. by exists (replicate (n - Z.to_nat l - 1) x).
Qed.

Definition doubled : literalRedactor := mkRedactor [[97; 97]] [].

(** What a redactor holds back and has released after some chunks. *)
Fixpoint feed (r : literalRedactor) (chunks : list slice) : option (slice * literalRedactor) :=
  match chunks with
  | [] => Some ([], r)
  | c :: chunks =>
    match redactor_Write r c with
    | Some (out, _, r) => prod_map (app out) id <$> feed r chunks
    | None => None
    end
  end.

Lemma doubled_write n : redactor_Write (mkRedactor [[97; 97]] (replicate n 97)) [97] = Some ([], false, mkRedactor [[97; 97]] (replicate (S n) 97)).
Proof.
  unfold redactor_Write. cbn [patterns pending]. cbv zeta. assert (Hs : replicate n 97 ++ [97] = replicate (S n) 97)
    by (by rewrite replicate_S_end). rewrite Hs, length_replicate.
  change (longestPattern _) with 2%nat. destruct (Z.leb_spec (Z.of_nat (S n) - (Z.of_nat 2 - 1)) 0) as [|Hpos]; [done|].
  destruct (settle_limit_spec (S (S n)) (replicate (S n) 97) [[97; 97]] (Z.of_nat (S n) - (Z.of_nat 2 - 1))) as (limit & Hs' & Hb & Hc & _).
  - by intros p ->%list_elem_of_singleton.
  - lia.
  - rewrite Hs' by done. destruct (Z.leb_spec limit 0) as [|Hl]; [done|]. exfalso.
    apply (run_not_clear 97 (S n) limit); [lia | apply Hc; by left].
Qed.

(** Two promises of the specification the redactor does not keep.  With the secret
    [aa] it holds back a stream of [a]s completely, of any length, although it is
    said to buffer at most the longest secret minus one byte; and when a secret
    contains the bracket of the replacement text, the redacted stream depends on
    how it was cut into chunks. *)
Theorem redactor_contract_gaps :
  (forall n, feed doubled (replicate n [97]) = Some ([], mkRedactor [[97; 97]] (replicate n 97))) /\
  exists ps r chunks chunks', newLiteralRedactor ps = Ok r /\ concat chunks = concat chunks' /\ released r chunks <> released r chunks'.
Proof.
  split.
  - cut (forall n k, feed (mkRedactor [[97; 97]] (replicate k 97)) (replicate n [97]) =
      Some ([], mkRedactor [[97; 97]] (replicate (n + k) 97))); [intros H n; rewrite <- (Nat.add_0_r n) at 2; exact (H n 0%nat)|].
    induction n as [|n IH]; intros k; [done|]. cbn [replicate feed]. rewrite doubled_write, IH. cbn. by rewrite Nat.add_succ_r.
  - exists [bytes "secret"; bytes "a["]. eexists. exists [bytes "asecret0123456789"], [bytes "asecret"; bytes "0123456789"].
    split_and!; [vm_compute; reflexivity | vm_compute; reflexivity | vm_compute; discriminate].
Qed.

(** ** The theorems at work *)

Definition secrets : list slice := [bytes "token"; bytes "token-value"].
Definition redactor_1 : literalRedactor := mkRedactor [bytes "token-value"; bytes "token"] [].
Definition split_chunks : list slice := [bytes "a tok"; bytes "en-val"; bytes "ue z"].

Lemma secrets_plain p : p ∈ secrets -> plain p /\ forall x y, REDACTED <> x ++ p ++ y.
Proof.
  intros Hp. assert (Hinf : forall q : slice, (forall i, (i <= 10)%nat -> ~ occurs_at q REDACTED i) -> forall x y, REDACTED <> x ++ q ++ y).
  { intros q Hq x y He. apply (Hq (length x)).
    - apply (f_equal length) in He. rewrite length_app in He. change (length REDACTED) with 10%nat in He. lia.
    - unfold occurs_at. rewrite He, drop_app_length. by exists y. }
  assert (Hno : forall q, Index REDACTED q = None -> q <> [] -> forall x y, REDACTED <> x ++ q ++ y)
    by (intros q Hi Hq; apply Hinf; intros i _; by apply Index_None).
  unfold secrets in Hp. apply elem_of_cons in Hp as [->|[->|[]%elem_of_nil]%elem_of_cons].
  all: split; [split; vm_compute; intros H; repeat (apply elem_of_cons in H as [H|H]; [discriminate H|]); by apply elem_of_nil in H|].
  all: apply Hno; [vm_compute; reflexivity | done].
Qed.

Lemma secrets_never_split_witness : exists pieces, outputs redactor_1 split_chunks = Some (replace (patterns redactor_1) <$> pieces) /\
  concat pieces = bytes "a token-value z".
Proof.
  destruct (secrets_never_split secrets redactor_1 split_chunks) as (pieces & Ho & _ & Hc & _); [vm_compute; reflexivity|].
  exists pieces. split; [exact Ho|]. rewrite Hc. vm_compute. reflexivity.
Defined.

Lemma streaming_redaction_witness : released redactor_1 split_chunks = Some (bytes "a [REDACTED] z").
Proof.
  rewrite (proj2 (streaming_redaction secrets redactor_1 split_chunks eq_refl)); [vm_compute; reflexivity|].
  intros p Hp. exact (proj1 (secrets_plain p Hp)).
Defined.

Lemma redacted_stream_clean_witness : exists out, released redactor_1 split_chunks = Some out /\ forall a b, out <> a ++ bytes "token" ++ b.
Proof.
  destruct (redacted_stream_clean secrets redactor_1 split_chunks) as (out & Ho & Hc); [vm_compute; reflexivity | exact secrets_plain|].
  exists out. split; [exact Ho|]. intros a b. apply Hc. left.
Defined.

Lemma boundary_search_terminates_witness : exists limit,
  settle_limit 17 (bytes "a token-value z") (patterns redactor_1) 5 = Some limit /\ 0 <= limit <= 5.
Proof.
  destruct (boundary_search_terminates secrets redactor_1 (bytes "a token-value z") 5) as (limit & Hs & Hb & _);
    [vm_compute; reflexivity | vm_compute; split; discriminate|].
  exists limit. split; [apply Hs; vm_compute; lia | exact Hb].
Defined.
