(* ===== verification/SpoolTheorems.v ===== *)
(** * Output spools: theorems

    A spool never panics or gets stuck, keeps within its limits, and retains of each
    stream a tail of the redaction of everything written to it. *)

From Stdlib Require Import Ascii String.
From S2P Require Import Prelude GoString GoTime OutputSpool RedactionTheorems.

Open Scope Z_scope.

(** ** Running *)

Lemma spool_bind {A B} (m : Sp A) (k : A -> Sp B) s :
  (m ≫= k) s = match m s with (Ok a, s') => k a s' | (Err e, s') => (Err e, s') end.
Proof. done. Qed.
Lemma spool_guard e b s : (guard_or e b : Sp unit) s = (if b then Ok tt else Err e, s).
Proof. by destruct b. Qed.
Lemma spool_get s : (get : Sp processOutputSpool) s = (Ok s, s).
Proof. done. Qed.

(** ** The chunks of a stream *)

Definition chunks (stream : string) (s : processOutputSpool) : list OutputEvent := List.filter (is_chunk stream) (events s).
Definition chunk_bytes (e : OutputEvent) : slice := default [] (chk_Bytes <$> oev_Chunk e).
Definition tail_of (stream : string) (s : processOutputSpool) : slice := concat (chunk_bytes <$> chunks stream s).

Definition streams : list string := [OutputStdout; OutputStderr].

(** The bookkeeping of a stream agrees with its chunk events, within the limit, and
    the retained bytes are a tail of the [released] ones, all of them unless the
    stream is marked as truncated. *)
Record holds (stream : string) (released : slice) (s : processOutputSpool) : Prop := mkHolds {
  holds_cursors : cursors_of stream s = oev_Cursor <$> chunks stream s;
  holds_earliest : rtn_EarliestCursor (retention_of stream s) = default "" (head (cursors_of stream s));
  holds_bytes : rtn_RetainedBytes (retention_of stream s) = Z.of_nat (length (tail_of stream s));
  holds_limit : Z.of_nat (length (tail_of stream s)) <= retainedLimit s;
  holds_small : 0 < retainedLimit s < 2 ^ 63;
  holds_named : Forall (fun e => oev_Cursor e <> "") (events s);
  holds_tail : exists dropped, released = dropped ++ tail_of stream s /\ (rtn_Truncated (retention_of stream s) = false -> dropped = [])
}.

Lemma is_chunk_stream st e : is_chunk st e = true -> oev_Stream e = st.
Proof. unfold is_chunk. intros H. by bools. Qed.

Lemma chunks_nil_of_None st s : find_index (is_chunk st) (events s) = None -> chunks st s = [].
Proof.
  unfold chunks. generalize (events s). induction l as [|e l IH]; simpl; [done|]. destruct (is_chunk st e); [done|].
  destruct (find_index _ l) as [[]|]; [done | auto].
Qed.

Lemma filter_find p i (e : OutputEvent) l : find_index p l = Some (i, e) -> List.filter p l = e :: List.filter p (drop (S i) l) /\
  (forall q, q e = false -> List.filter q (take i l ++ drop (S i) l) = List.filter q l) /\
  List.filter p (take i l ++ drop (S i) l) = List.filter p (drop (S i) l).
Proof.
  revert i. induction l as [|x l IH]; intros i; simpl; [done|]. destruct (p x) eqn:Hx.
  - intros [= <- <-]. simpl. rewrite drop_0. split_and!; [done | | done]. intros q Hq. by rewrite Hq.
  - destruct (find_index p l) as [[j y]|] eqn:Hf; [|done]. intros [= <- <-]. simpl. destruct (IH j eq_refl) as (H1 & H2 & H3).
    split_and!; [done | | by rewrite Hx]. intros q Hq. by rewrite H2.
Qed.

(** ** Eviction *)

(** What spool operations on one stream leave of the other and of the rest. *)
Definition elsewhere (st : string) (s s' : processOutputSpool) : Prop :=
  producedLimit s' = producedLimit s /\ retainedLimit s' = retainedLimit s /\ produced s' = produced s /\ closed s' = closed s /\
  redactors s' = redactors s /\
  forall st', st' <> st -> chunks st' s' = chunks st' s /\ retention_of st' s' = retention_of st' s /\ cursors_of st' s' = cursors_of st' s.

Lemma evict_spec st released s e es :
  holds st released s -> chunks st s = e :: es ->
  exists s', evictOldestChunk st s = (Ok true, s') /\ chunks st s' = es /\ holds st released s' /\ elsewhere st s s' /\
    (length (events s') < length (events s))%nat /\ rtn_Truncated (retention_of st s') = true.
Proof.
  intros [Hc He Hb Hl Hsm Hn (dropped & Hrel & Htr)] Hes. unfold evictOldestChunk. rewrite spool_bind, spool_get.
  destruct (find_index (is_chunk st) (events s)) as [[i x]|] eqn:Hf; [|apply chunks_nil_of_None in Hf; congruence].
  destruct (filter_find _ _ _ _ Hf) as (H1 & H2 & H3). unfold chunks in Hes. rewrite Hes in H1. injection H1 as <- H1.
  pose proof (find_index_holds _ _ _ _ Hf) as Hx. rewrite (is_chunk_stream _ _ Hx). fold (chunks st s) in Hes.
  rewrite spool_bind. cbn [modify]. rewrite Hc, Hes. cbn [fmap list_fmap].
  set (cursors := oev_Cursor <$> es). rewrite spool_bind, spool_guard, bool_decide_eq_true_2 by done.
  eexists. split; [reflexivity|]. cbv zeta.
  match goal with |- chunks st ?s' = es /\ _ => set (s1 := s') end.
  assert (Hch : chunks st s1 = es) by (unfold chunks; cbn; by rewrite H3, H1).
  assert (Htail : tail_of st s = chunk_bytes e ++ tail_of st s1) by (unfold tail_of; by rewrite Hes, Hch).
  assert (Hr1 : retention_of st s1 = mkRetention (default "" (head cursors)) (Z.of_nat (length (tail_of st s1))) true).
  { unfold retention_of at 1. unfold s1 at 1. cbn [retentions put_retention]. rewrite lookup_insert_eq. cbn [from_option].
    unfold id. f_equal. change (from_option (fun x : slice => x) [] (chk_Bytes <$> oev_Chunk e)) with (chunk_bytes e).
    assert (Hlen : (length (tail_of st s) = length (chunk_bytes e) + length (tail_of st s1))%nat) by (rewrite Htail; apply length_app).
    rewrite Hb, u64_small; unfold max_u64; lia. }
  assert (Hc1 : cursors_of st s1 = cursors) by (unfold cursors_of; cbn; by rewrite lookup_insert_eq).
  split_and!; [done | | | | by rewrite Hr1].
  - constructor.
    + by rewrite Hc1, Hch.
    + by rewrite Hr1, Hc1.
    + by rewrite Hr1.
    + rewrite Htail, length_app in Hl. change (retainedLimit s1) with (retainedLimit s). lia.
    + done.
    + cbn. apply Forall_app. split; [by apply Forall_take | by apply Forall_drop].
    + exists (dropped ++ chunk_bytes e). split; [by rewrite Hrel, Htail, app_assoc | by rewrite Hr1].
  - unfold elsewhere. split_and!; try done. intros st' Hne. split_and!.
    + unfold chunks. cbn. apply H2. apply not_true_iff_false. intros Hq%is_chunk_stream. pose proof (is_chunk_stream _ _ Hx). congruence.
    + unfold retention_of. cbn. by rewrite lookup_insert_ne.
    + unfold cursors_of. cbn. by rewrite lookup_insert_ne.
  - cbn. pose proof (find_index_lookup _ _ _ _ Hf) as Hlk%lookup_lt_Some. rewrite length_app, length_take, length_drop. lia.
Qed.

#[export] Instance elsewhere_preorder st : PreOrder (elsewhere st).
Proof.
  split; [by intros s; unfold elsewhere; split_and!|]. intros a b c (A1 & A2 & A3 & A4 & A5 & A6) (B1 & B2 & B3 & B4 & B5 & B6).
  unfold elsewhere. split_and!; try congruence. intros st' Hne. destruct (A6 st' Hne) as (E1 & E2 & E3). destruct (B6 st' Hne) as (F1 & F2 & F3).
  split_and!; congruence.
Qed.

Lemma holds_elsewhere st st' released s s' :
  holds st' released s -> st' <> st -> elsewhere st s s' -> Forall (fun e => oev_Cursor e <> "") (events s') -> holds st' released s'.
Proof.
  intros [Hc He Hb Hl Hsm Hn Ht] Hne (E1 & E2 & E3 & E4 & E5 & E6) Hn'. destruct (E6 st' Hne) as (F1 & F2 & F3).
  unfold tail_of in *. constructor; unfold tail_of; rewrite ?F1, ?F2, ?F3, ?E2; done.
Qed.

Lemma evict_loop_spec fuel st released size s :
  holds st released s -> 0 <= size <= retainedLimit s -> (length (events s) < fuel)%nat ->
  exists s', evict_loop fuel st size s = (Ok tt, s') /\ holds st released s' /\ elsewhere st s s' /\
    Z.of_nat (length (tail_of st s')) + size <= retainedLimit s /\
    (rtn_Truncated (retention_of st s) = true -> rtn_Truncated (retention_of st s') = true).
Proof.
  revert s. induction fuel as [|fuel IH]; intros s Hh Hs Hf; [lia|]. cbn [evict_loop]. rewrite spool_bind, spool_get.
  destruct Hh as [Hc He Hb Hl Hsm Hn Ht] eqn:Heq. clear Heq. rewrite Hb, u64_small by (unfold max_u64; lia).
  destruct (Z.ltb_spec (retainedLimit s) (Z.of_nat (length (tail_of st s)) + size)) as [Hlt|Hge].
  - destruct (chunks st s) as [|e es] eqn:Hes; [unfold tail_of in Hlt; rewrite Hes in Hlt; simpl in Hlt; lia|].
    destruct (evict_spec st released s e es) as (s1 & Hev & _ & Hh1 & He1 & Hlen & Htr1); [by constructor; rewrite ?Hes | done |].
    rewrite spool_bind, Hev. destruct He1 as (E1 & E2 & E3) eqn:Heq. clear Heq.
    destruct (IH s1 Hh1) as (s2 & Hl2 & Hh2 & He2 & Hr2 & Htr2); [rewrite E2; lia | lia |]. exists s2. rewrite E2 in Hr2.
    split_and!; [done | done | by transitivity s1 | done | auto].
  - exists s. split_and!; [done | by constructor | reflexivity | lia | done].
Qed.

(** Marking a stream as truncated. *)
Lemma truncate_spec st released s :
  holds st released s ->
  let r := retention_of st s in
  let s' := put_retention st (mkRetention (rtn_EarliestCursor r) (rtn_RetainedBytes r) true) s in
  holds st released s' /\ elsewhere st s s' /\ events s' = events s /\ rtn_Truncated (retention_of st s') = true.
Proof.
  intros [Hc He Hb Hl Hsm Hn (d & Hd & _)] r s'.
  assert (Hr : retention_of st s' = mkRetention (rtn_EarliestCursor r) (rtn_RetainedBytes r) true)
    by (unfold retention_of; cbn; by rewrite lookup_insert_eq).
  split_and!; [|unfold elsewhere; split_and!; try done | done | by rewrite Hr].
  - constructor; try done; [by rewrite Hr | by rewrite Hr |]. exists d. split; [done | by rewrite Hr].
  - intros st' Hne. split_and!; [done | unfold retention_of; cbn; by rewrite lookup_insert_ne | done].
Qed.

Lemma chunks_append st kind st' chunk gap final s :
  let s' := appendEvent kind st' chunk gap final s in
  let e := mkOutputEvent kind (outputCursor "output" (u64 (nextCursor s + 1))) st' chunk gap final in
  chunks st s' = chunks st s ++ if is_chunk st e then [e] else [].
Proof. unfold chunks. cbn. rewrite List.filter_app. cbn. by case_match. Qed.

(** Appending a chunk that fits. *)
Definition push (st : string) (c : slice) (redacted : bool) : Sp unit :=
  modify (appendEvent OutputEventChunk st (Some (mkChunk c redacted)) None None);;
  s ← get;
  let cursor := default "" (oev_Cursor <$> last (events s)) in
  modify (put_cursors st (cursors_of st s ++ [cursor]));;
  let r := retention_of st s in
  modify (put_retention st (mkRetention (if rtn_EarliestCursor r ≟ "" then cursor else rtn_EarliestCursor r)
    (u64 (rtn_RetainedBytes r + Z.of_nat (length c))) (rtn_Truncated r))).

(** The spool it leaves. *)
Definition pushed (st : string) (c : slice) (redacted : bool) (s : processOutputSpool) : processOutputSpool :=
  let s1 := appendEvent OutputEventChunk st (Some (mkChunk c redacted)) None None s in
  let cursor := default "" (oev_Cursor <$> last (events s1)) in
  let r := retention_of st s1 in
  put_retention st (mkRetention (if rtn_EarliestCursor r ≟ "" then cursor else rtn_EarliestCursor r)
    (u64 (rtn_RetainedBytes r + Z.of_nat (length c))) (rtn_Truncated r)) (put_cursors st (cursors_of st s1 ++ [cursor]) s1).

Lemma push_run st c redacted s : push st c redacted s = (Ok tt, pushed st c redacted s).
Proof. done. Qed.

Lemma push_spec st released c redacted s :
  holds st released s -> Z.of_nat (length (tail_of st s)) + Z.of_nat (length c) <= retainedLimit s ->
  let s' := pushed st c redacted s in
  tail_of st s' = tail_of st s ++ c /\ holds st (released ++ c) s' /\ elsewhere st s s' /\
  rtn_Truncated (retention_of st s') = rtn_Truncated (retention_of st s).
Proof.
  intros [Hc He Hb Hl Hsm Hn (d & Hd & Hdn)] Hroom s'. unfold pushed in s'.
  set (e := mkOutputEvent OutputEventChunk (outputCursor "output" (u64 (nextCursor s + 1))) st (Some (mkChunk c redacted)) None None).
  set (s1 := appendEvent _ _ _ _ _ s) in s'. cbv zeta in s'.
  assert (Hlast : default "" (oev_Cursor <$> last (events s1)) = oev_Cursor e) by (cbn; by rewrite last_snoc).
  assert (Hnamed : oev_Cursor e <> "") by (cbn; unfold outputCursor; done).
  assert (His : is_chunk st e = true) by (unfold is_chunk; cbn; by rewrite !bool_decide_eq_true_2 by done).
  assert (Hch : chunks st s' = chunks st s ++ [e]).
  { change (chunks st s') with (chunks st s1). unfold s1. rewrite chunks_append. fold e. by rewrite His. }
  assert (Htail : tail_of st s' = tail_of st s ++ c).
  { unfold tail_of. rewrite Hch, fmap_app, concat_app. cbn. by rewrite app_nil_r. }
  assert (Hcur : cursors_of st s' = cursors_of st s ++ [oev_Cursor e]).
  { unfold cursors_of at 1. unfold s'. cbn [streamCursors put_retention put_cursors]. rewrite lookup_insert_eq, Hlast. done. }
  assert (Hret : retention_of st s' = mkRetention (default "" (head (cursors_of st s'))) (Z.of_nat (length (tail_of st s')))
    (rtn_Truncated (retention_of st s))).
  { unfold retention_of at 1. unfold s' at 1. cbn [retentions put_retention]. rewrite lookup_insert_eq, Hlast. cbn [from_option]. unfold id.
    change (retention_of st s1) with (retention_of st s). rewrite Hb, Hcur, He, Htail, length_app, u64_small by (unfold max_u64; lia).
    f_equal; [|lia]. destruct (cursors_of st s) as [|x xs] eqn:Hx; [done|]. cbn [head app default from_option]. unfold id.
    rewrite bool_decide_eq_false_2; [done|]. assert (Hin : x ∈ oev_Cursor <$> chunks st s) by (rewrite <- Hc; by left).
    apply list_elem_of_fmap in Hin as (y & -> & [Hy _]%list_elem_of_In%filter_In). by apply (proj1 (Forall_forall _ _) Hn), list_elem_of_In. }
  split_and!; [done | | | by rewrite Hret].
  - constructor.
    + by rewrite Hcur, Hch, fmap_app, Hc.
    + by rewrite Hret.
    + by rewrite Hret.
    + rewrite Htail, length_app. change (retainedLimit s') with (retainedLimit s). lia.
    + done.
    + change (events s') with (events s ++ [e]). apply Forall_app. by split; [|repeat constructor].
    + exists d. split; [by rewrite Hd, Htail, app_assoc | by rewrite Hret].
  - unfold elsewhere. split_and!; try done. intros st' Hne. split_and!.
    + change (chunks st' s') with (chunks st' s1). unfold s1. rewrite chunks_append. fold e.
      replace (is_chunk st' e) with false; [by rewrite app_nil_r|]. symmetry. apply not_true_iff_false. by intros Hq%is_chunk_stream.
    + unfold retention_of. cbn. by rewrite lookup_insert_ne.
    + unfold cursors_of. cbn. by rewrite lookup_insert_ne.
Qed.

Lemma retain_spec st released c redacted s :
  holds st released s ->
  exists s', retain st c redacted s = (Ok tt, s') /\ holds st (released ++ c) s' /\ elsewhere st s s'.
Proof.
  intros Hh. unfold retain. destruct (Nat.eqb_spec (length c) 0) as [Hz|Hz].
  { apply nil_length_inv in Hz as ->. rewrite app_nil_r. exists s. split_and!; [done | done | reflexivity]. }
  pose proof (holds_small _ _ _ Hh) as Hsm. rewrite spool_bind, spool_get. cbv zeta. set (over := retainedLimit s <? Z.of_nat (length c)).
  set (c' := if over then _ else c). rewrite spool_bind. cbn [modify]. set (s1 := if over then _ else s).
  assert (Hc' : Z.of_nat (length c') <= retainedLimit s /\ exists d, c = d ++ c' /\ (over = false -> d = []) /\
    (over = true -> Z.of_nat (length c') = retainedLimit s)).
  { unfold c', over. destruct (Z.ltb_spec (retainedLimit s) (Z.of_nat (length c))) as [Ho|Ho].
    - rewrite length_drop. split; [lia|]. eexists. split_and!; [by rewrite take_drop | done | lia].
    - split; [lia|]. by exists []. }
  destruct Hc' as (Hcl & d & Hd & Hdn & Hfull).
  assert (Hs1 : holds st released s1 /\ elsewhere st s s1 /\ events s1 = events s /\ (over = true -> rtn_Truncated (retention_of st s1) = true)).
  { unfold s1. destruct over; [|split_and!; [done | reflexivity | done | done]].
    destruct (truncate_spec st released s Hh) as (H1 & H2 & H3 & H4). by split_and!. }
  destruct Hs1 as (Hh1 & He1 & Hev1 & Htr1). destruct He1 as (E1 & E2 & E3) eqn:Heq. clear Heq.
  destruct (evict_loop_spec (S (length (events s))) st released (Z.of_nat (length c')) s1 Hh1) as (s2 & Hev & Hh2 & He2 & Hroom & Htr2).
  { rewrite E2. lia. }
  { rewrite Hev1. lia. }
  rewrite E2 in Hroom. rewrite spool_bind, Hev. fold (push st c' redacted). rewrite push_run.
  destruct He2 as (F1 & F2 & F3) eqn:Heq. clear Heq.
  destruct (push_spec st released c' redacted s2 Hh2) as (Htail & Hh3 & He3 & Htr3); [rewrite F2, E2; lia|].
  eexists. split_and!; [reflexivity | | etrans; [exact He1 | etrans; [exact He2 | exact He3]]].
  destruct Hh3 as [Hc3 Hea3 Hb3 Hl3 Hsm3 Hn3 (dr & Hdr & Hdrn)]. constructor; try done.
  destruct over.
  - exists (released ++ d). rewrite Htail. assert (tail_of st s2 = []) as ->.
    { apply nil_length_inv. rewrite (Hfull eq_refl) in Hroom. lia. }
    split; [rewrite app_nil_l, <- app_assoc; by f_equal | rewrite Htr3, Htr2; [done | by apply Htr1]].
  - rewrite (Hdn eq_refl) in Hd. exists dr. split; [|done]. transitivity (released ++ c'); [by f_equal | done].
Qed.

(** ** Spools with their input *)

Section Spool.
Context (ps : list slice) (P R : Z).
Context (Hplain : forall p, p ∈ ps -> plain p) (HP : 0 < P < 2 ^ 63) (HR : 0 < R < 2 ^ 63).

Notation whole := (redact (sort_patterns ps)).

(** The input of each stream after one more chunk. *)
Definition written (input : string -> slice) (st : string) (c : slice) (x : string) : slice := if x ≟ st then input x ++ c else input x.

(** The spools reached by accepted writes, with what was written to each stream. *)
Inductive spooled : (string -> slice) -> processOutputSpool -> Prop :=
| spooled_new s : newProcessOutputSpool P R ps = Ok s -> spooled (fun _ => []) s
| spooled_write input s st c s' : spooled input s -> writeLocked st c s = (Ok tt, s') ->
    spooled (written input st c) s'.

(** The redactor of a stream has released what it must and holds back the rest. *)
Definition stream_ok (input : slice) (st : string) (s : processOutputSpool) : Prop :=
  exists r released, redactors s !! st = Some r /\ patterns r = sort_patterns ps /\ holds st released s /\
    forall future, whole (input ++ future) = released ++ whole (pending r ++ future).

Record spool_ok (input : string -> slice) (s : processOutputSpool) : Prop := mkSpoolOk {
  ok_limits : producedLimit s = P /\ retainedLimit s = R;
  ok_produced : produced s = Z.of_nat (length (input OutputStdout) + length (input OutputStderr)) /\ produced s <= P;
  ok_open : closed s = false;
  ok_names : forall st, is_Some (redactors s !! st) -> st ∈ streams;
  ok_streams : forall st, st ∈ streams -> stream_ok (input st) st s
}.

Context (Hne : nonempty (sort_patterns ps)).

Lemma sorted_plain p : p ∈ sort_patterns ps -> plain p.
Proof. rewrite sort_patterns_perm. apply Hplain. Qed.

Lemma whole_nil : whole [] = [].
Proof.
  unfold redact. clear -Hne. induction (sort_patterns ps) as [|p l IH]; [done|]. apply IH. intros q Hq. apply Hne. by right.
Qed.

(** Storing the redactor and retaining what it released. *)
Lemma release_step st s r' released chunk redacted :
  holds st released s ->
  exists s', (modify (put_redactor st r') ≫= fun _ => retain st chunk redacted) s = (Ok tt, s') /\
    redactors s' = <[st := r']> (redactors s) /\ holds st (released ++ chunk) s' /\
    (forall released' st', st' <> st -> holds st' released' s -> holds st' released' s') /\
    producedLimit s' = producedLimit s /\ retainedLimit s' = retainedLimit s /\ produced s' = produced s /\ closed s' = closed s.
Proof.
  intros Hh. rewrite spool_bind. cbn [modify]. set (s1 := put_redactor _ _ s). assert (Hh1 : holds st released s1) by (by destruct Hh).
  destruct (retain_spec st released chunk redacted s1 Hh1) as (s2 & -> & Hh2 & He).
  destruct He as (E1 & E2 & E3 & E4 & E5 & E6) eqn:Heq. clear Heq. exists s2.
  split_and!; [done | by rewrite E5 | done | | by rewrite E1 | by rewrite E2 | by rewrite E3 | by rewrite E4].
  intros rel' st' Hst Hh'. apply (holds_elsewhere st st' rel' s1 s2); [by destruct Hh' | done | done | by destruct Hh2].
Qed.

(** Releasing a piece that can be cut off, whatever follows. *)
Lemma release_piece input st r released piece rest c s s' :
  (forall future, whole (input ++ future) = released ++ whole (pending r ++ future)) -> pending r ++ c = piece ++ rest ->
  (forall p future, p ∈ sort_patterns ps -> cut p piece (rest ++ future)) ->
  redactors s' = <[st := mkRedactor (sort_patterns ps) rest]> (redactors s) ->
  holds st (released ++ (replace (sort_patterns ps) piece).1) s' -> stream_ok (input ++ c) st s'.
Proof.
  intros Hrel Hsplit Hcut Hred Hh. exists (mkRedactor (sort_patterns ps) rest), (released ++ (replace (sort_patterns ps) piece).1).
  split_and!; [rewrite Hred; apply lookup_insert_eq | done | done |]. intros future. cbn [pending].
  rewrite <- app_assoc, Hrel, app_assoc, Hsplit, <- app_assoc, redact_app; [rewrite replace_redact by done; by rewrite app_assoc|].
  intros p Hp. split_and!; [by apply Hne | by apply sorted_plain | by apply Hcut].
Qed.

Lemma new_spool s : newProcessOutputSpool P R ps = Ok s -> spool_ok (fun _ => []) s.
Proof.
  unfold newProcessOutputSpool. case_match; [done|]. destruct (newLiteralRedactor ps) as [r|] eqn:Hr; [|done]. intros [= <-].
  apply new_redactor in Hr as (Hpend & _ & _ & Hps). constructor; try done.
  - simpl. lia.
  - intros st [x Hx]. simpl in Hx. apply lookup_insert_Some in Hx as [[<- _]|[_ Hx]]; [by left|].
    apply lookup_singleton_Some in Hx as [<- _]. by right; left.
  - intros st Hst. assert (Hh : forall st, st ∈ streams -> holds st [] (mkSpool P R 0 0 false [] {[OutputStdout := r; OutputStderr := r]}
      {[OutputStdout := noRetention; OutputStderr := noRetention]} {[OutputStdout := []; OutputStderr := []]})).
    { intros st' Hst'. apply elem_of_cons in Hst' as [->|[->|[]%elem_of_nil]%elem_of_cons]; constructor; try done; try (simpl; lia); by exists []. }
    exists r, []. split_and!; [|done|by apply Hh|intros future; by rewrite Hpend].
    apply elem_of_cons in Hst as [->|[->|[]%elem_of_nil]%elem_of_cons]; done.
Qed.

Lemma write_accepted input s st c :
  spool_ok input s -> st ∈ streams -> Z.of_nat (length c) <= maximumOutputChunkBytes -> produced s + Z.of_nat (length c) <= P ->
  exists s', writeLocked st c s = (Ok tt, s') /\ spool_ok (written input st c) s'.
Proof.
  intros [[Hpl Hrl] [Hpr Hle] Hop Hnames Hst] Hin Hlen Hfit. destruct (Hst st Hin) as (r & released & Hr & Hps & Hh & Hrel).
  unfold writeLocked. rewrite spool_bind, spool_get, spool_bind, spool_guard, Hop. simpl negb. cbv iota. rewrite Hr.
  rewrite spool_bind, spool_guard, (proj2 (Z.leb_le _ _) Hlen), spool_bind, spool_guard, Hpl.
  rewrite u64_small by (unfold max_u64; lia). rewrite (proj2 (Z.leb_le _ _) Hfit), spool_bind. cbn [modify].
  set (s1 := put_produced _ s). assert (Hne' : nonempty (patterns r)) by (by rewrite Hps).
  destruct (write_spec r c Hne') as (piece & rest & Hsplit & -> & Hcut). rewrite Hps in Hcut |- *. destruct (replace (sort_patterns ps) piece) as [out changed] eqn:Hout.
  destruct (release_step st s1 (mkRedactor (sort_patterns ps) rest) released out changed) as (s2 & Hrun & Hred & Hh2 & Hoth & E1 & E2 & E3 & E4);
    [by destruct Hh|].
  exists s2. split; [exact Hrun|]. assert (Hs2 : stream_ok (input st ++ c) st s2).
  { eapply (release_piece (input st) st r released piece rest c s1 s2); [done | done | done | done | by rewrite Hout]. }
  constructor.
  - by rewrite E1, E2.
  - rewrite E3. change (produced s1) with (produced s + Z.of_nat (length c)). split; [|lia]. rewrite Hpr. unfold written.
    apply elem_of_cons in Hin as [->|[->|[]%elem_of_nil]%elem_of_cons]; simpl; rewrite length_app; lia.
  - by rewrite E4.
  - intros st'. rewrite Hred. destruct (decide (st' = st)) as [->|Hx]; [done | rewrite lookup_insert_ne by done; apply Hnames].
  - intros st' Hst'. unfold written. destruct (bool_decide_reflect (st' = st)) as [->|Hx]; [done|].
    destruct (Hst st' Hst') as (r' & rel' & Hr' & Hps' & Hh' & Hrel'). exists r', rel'.
    split_and!; [rewrite Hred; by rewrite lookup_insert_ne | done | apply Hoth; [done | by destruct Hh'] | done].
Qed.

Lemma spooled_ok input s : spooled input s -> spool_ok input s.
Proof.
  induction 1 as [s Hs|input s st c s' _ IH Hw]; [by apply new_spool|]. destruct (IH) as [[Hpl Hrl] [Hpr Hle] Hop Hnames Hst].
  assert (Hw' := Hw). unfold writeLocked in Hw'. rewrite spool_bind, spool_get, spool_bind, spool_guard, Hop in Hw'. simpl negb in Hw'. cbv iota in Hw'.
  destruct (redactors s !! st) as [r|] eqn:Hr; [|done]. rewrite spool_bind, spool_guard in Hw'. destruct (_ <=? _) eqn:H1; [|done].
  rewrite spool_bind, spool_guard, Hpl in Hw'. destruct (u64 _ <=? P) eqn:H2; [|done]. clear Hw'. bools.
  unfold maximumOutputChunkBytes in H1. rewrite u64_small in H2 by (unfold max_u64; lia).
  destruct (write_accepted input s st c IH) as (s2 & Hs2 & Hok); [by apply Hnames | done | done |].
  rewrite Hw in Hs2. by injection Hs2 as ->.
Qed.

(** ** Closing *)

Lemma flush_spec st s r released :
  redactors s !! st = Some r -> patterns r = sort_patterns ps -> holds st released s ->
  exists s', flush_stream st s = (Ok tt, s') /\ holds st (released ++ whole (pending r)) s' /\
    redactors s' = <[st := mkRedactor (sort_patterns ps) []]> (redactors s) /\
    (forall released' st', st' <> st -> holds st' released' s -> holds st' released' s') /\ closed s' = closed s /\
    retainedLimit s' = retainedLimit s.
Proof.
  intros Hr Hps Hh. unfold flush_stream. rewrite spool_bind, spool_get, Hr. unfold Flush. rewrite Hps.
  destruct (replace (sort_patterns ps) (pending r)) as [out changed] eqn:Hout.
  destruct (release_step st s (mkRedactor (sort_patterns ps) []) released out changed Hh) as (s' & Hrun & Hred & Hh' & Hoth & _ & E2 & _ & E4).
  exists s'. split_and!; [exact Hrun | | done | done | done | done]. by rewrite <- replace_redact, Hout.
Qed.

(** The kinds and streams of events. *)
Definition views (l : list OutputEvent) : list (OutputEventKind * string) := (fun e => (oev_Kind e, oev_Stream e)) <$> l.
Definition ending (st : string) (s : processOutputSpool) : list (OutputEventKind * string) :=
  (if rtn_Truncated (retention_of st s) then [(OutputEventGap, st)] else []) ++ [(OutputEventFinal, st)].

Lemma holds_append kind st' chunk gap final st released s :
  kind <> OutputEventChunk -> holds st released s -> holds st released (appendEvent kind st' chunk gap final s).
Proof.
  intros Hk [Hc He Hb Hl Hsm Hn Ht]. set (s' := appendEvent _ _ _ _ _ s). assert (Hch : chunks st s' = chunks st s).
  { unfold s'. rewrite chunks_append. unfold is_chunk. cbn. rewrite bool_decide_eq_false_2 by done. by rewrite app_nil_r. }
  unfold tail_of in *. constructor; unfold tail_of; rewrite ?Hch; try done. unfold s'. cbn. apply Forall_app. split; [done|].
  repeat constructor. done.
Qed.

Lemma finish_spec result st s :
  exists s', finish_stream result st s = (Ok tt, s') /\ (forall st' released, holds st' released s -> holds st' released s') /\
    (forall st', retention_of st' s' = retention_of st' s) /\ retainedLimit s' = retainedLimit s /\
    views (events s') = views (events s) ++ ending st s.
Proof.
  unfold finish_stream. rewrite spool_bind, spool_get. cbv zeta. rewrite spool_bind. cbn [modify]. unfold ending, views.
  eexists. split; [reflexivity|]. destruct (rtn_Truncated (retention_of st s)); split_and!; try done.
  - intros st' rel Hh. apply holds_append; [done|]. by apply holds_append.
  - cbn. by rewrite !fmap_app, <- app_assoc.
  - intros st' rel Hh. by apply holds_append.
  - cbn. by rewrite fmap_app.
Qed.

Lemma close_spec input s result :
  spool_ok input s ->
  exists s' before, spool_Close result s = (Ok tt, s') /\ closed s' = true /\ retainedLimit s' = R /\
    (forall st, st ∈ streams -> holds st (whole (input st)) s') /\
    views (events s') = views before ++ ending OutputStdout s' ++ ending OutputStderr s'.
Proof.
  intros [[_ Hrl] _ Hop _ Hst]. destruct (Hst OutputStdout) as (r1 & rel1 & Hr1 & Hps1 & Hh1 & Hrel1); [by left|].
  destruct (Hst OutputStderr) as (r2 & rel2 & Hr2 & Hps2 & Hh2 & Hrel2); [by right; left|].
  assert (Hfinal : forall st rel r, (forall future, whole (input st ++ future) = rel ++ whole (pending r ++ future)) -> rel ++ whole (pending r) = whole (input st)).
  { intros st rel r Hrel. specialize (Hrel []). by rewrite !app_nil_r in Hrel. }
  unfold spool_Close. rewrite spool_bind, spool_get, Hop.
  destruct (flush_spec OutputStdout s r1 rel1 Hr1 Hps1 Hh1) as (s1 & F1 & A1 & A2 & A3 & A4 & A5). rewrite spool_bind, F1.
  destruct (flush_spec OutputStderr s1 r2 rel2) as (s2 & F2 & B1 & B2 & B3 & B4 & B5);
    [rewrite A2; by rewrite lookup_insert_ne | done | by apply A3 |]. rewrite spool_bind, F2.
  destruct (finish_spec result OutputStdout s2) as (s3 & F3 & C1 & C2 & C3 & C4). rewrite spool_bind, F3.
  destruct (finish_spec result OutputStderr s3) as (s4 & F4 & D1 & D2 & D3 & D4). rewrite spool_bind, F4.
  exists (put_closed s4), (events s2). split_and!; [done | done | cbn; congruence | |].
  - assert (Hclose : forall st rel, holds st rel s4 -> holds st rel (put_closed s4)) by (by intros st rel []).
    intros st Hin. apply Hclose, D1, C1. apply elem_of_cons in Hin as [->|[->|[]%elem_of_nil]%elem_of_cons].
    + apply B3; [done|]. by rewrite <- (Hfinal _ _ _ Hrel1).
    + by rewrite <- (Hfinal _ _ _ Hrel2).
  - change (events (put_closed s4)) with (events s4). rewrite D4, C4, <- app_assoc.
    assert (He : forall st, ending st (put_closed s4) = ending st s2).
    { intros st. unfold ending. change (retention_of st (put_closed s4)) with (retention_of st s4). by rewrite D2, C2. }
    rewrite !He. unfold ending at 2. by rewrite C2.
Qed.
End Spool.

Lemma spooled_nonempty ps P R input s : spooled ps P R input s -> nonempty (sort_patterns ps).
Proof.
  induction 1 as [s Hs|]; [|done]. unfold newProcessOutputSpool in Hs. case_match; [done|].
  destruct (newLiteralRedactor ps) as [r|] eqn:Hr; [|done]. apply new_redactor in Hr as (_ & _ & Hne & Hps). by rewrite <- Hps.
Qed.

(** C37: a spool keeps a tail of the redacted output, for limits that are positive 64-bit
    numbers and secrets without square brackets ([plain]; with a bracket in a secret the
    redaction can depend on the chunks).  Closing a spool always succeeds
    and leaves, for each of the two streams, retained bytes that are a tail of the
    redaction of everything written to it, complete unless the stream is marked as
    truncated, no longer than the limit, with the byte count and the earliest cursor
    of the record exact; the events end, for each stream, with a gap if it was
    truncated and its final result. *)
Theorem spool_retains_tail ps P R input s result :
  (forall p, p ∈ ps -> plain p) -> 0 < P < 2 ^ 63 -> 0 < R < 2 ^ 63 -> spooled ps P R input s ->
  exists s' before, spool_Close result s = (Ok tt, s') /\ closed s' = true /\
    (forall st, st ∈ streams -> exists dropped,
       redact (sort_patterns ps) (input st) = dropped ++ tail_of st s' /\
       (rtn_Truncated (retention_of st s') = false -> dropped = []) /\ Z.of_nat (length (tail_of st s')) <= R /\
       rtn_RetainedBytes (retention_of st s') = Z.of_nat (length (tail_of st s')) /\
       rtn_EarliestCursor (retention_of st s') = default "" (oev_Cursor <$> head (chunks st s'))) /\
    views (events s') = views before ++ ending OutputStdout s' ++ ending OutputStderr s'.
Proof.
  intros Hpl HP HR Hs. pose proof (spooled_nonempty _ _ _ _ _ Hs) as Hne.
  pose proof (spooled_ok ps P R Hpl HP HR Hne input s Hs) as Hok.
  destruct (close_spec ps P R Hne input s result Hok) as (s' & before & Hc & Hcl & HR' & Hh & Hv).
  exists s', before. split_and!; [done | done | | done]. intros st Hin. destruct (Hh st Hin) as [Hcur He Hb Hl _ _ (d & Hd & Hdn)].
  exists d. split_and!; [done | done | lia | done |]. rewrite He, Hcur. by destruct (chunks st s').
Qed.

(** Writing to a spool.  A write to an open spool is refused, without any change,
    exactly when the stream is unknown, the chunk is too large or the produced limit
    would be exceeded; every other write succeeds and is counted.  In no case does
    the spool panic or fail to return. *)
Theorem spool_write_total ps P R input s st c :
  (forall p, p ∈ ps -> plain p) -> 0 < P < 2 ^ 63 -> 0 < R < 2 ^ 63 -> spooled ps P R input s ->
  if bool_decide (st ∈ streams) then
    if (Z.of_nat (length c) <=? maximumOutputChunkBytes) && (produced s + Z.of_nat (length c) <=? P)
    then exists s', writeLocked st c s = (Ok tt, s') /\ produced s' = produced s + Z.of_nat (length c)
    else writeLocked st c s = (Err (Failure FailureResourceLimitExceeded), s)
  else writeLocked st c s = (Err (Failure FailureInvalidArgument), s).
Proof.
  intros Hpl HP HR Hs. pose proof (spooled_nonempty _ _ _ _ _ Hs) as Hne.
  pose proof (spooled_ok ps P R Hpl HP HR Hne input s Hs) as Hok. destruct (Hok) as [[Hlim _] [Hpr Hle] Hop Hnames Hst].
  destruct (bool_decide_reflect (st ∈ streams)) as [Hin|Hin].
  - destruct (_ && _) eqn:Hb.
    + bools. destruct (write_accepted ps P R Hpl HP Hne input s st c Hok Hin) as (s' & Hw & [_ [Hpr' _] _ _ _]); [done | done |].
      exists s'. split; [done|]. rewrite Hpr', Hpr. unfold written.
      apply elem_of_cons in Hin as [->|[->|[]%elem_of_nil]%elem_of_cons]; simpl; rewrite length_app; lia.
    + destruct (Hst st Hin) as (r & rel & Hr & _). unfold writeLocked. rewrite spool_bind, spool_get, spool_bind, spool_guard, Hop.
      simpl negb. cbv iota. rewrite Hr, spool_bind, spool_guard. destruct (_ <=? maximumOutputChunkBytes) eqn:H1; [|done].
      rewrite spool_bind, spool_guard, Hlim. unfold maximumOutputChunkBytes in *. bools.
      rewrite u64_small by (unfold max_u64; lia). simpl in Hb. by rewrite Hb.
  - unfold writeLocked. rewrite spool_bind, spool_get, spool_bind, spool_guard, Hop. simpl negb. cbv iota.
    destruct (redactors s !! st) as [r|] eqn:Hr; [|done]. destruct Hin. apply Hnames. by rewrite Hr.
Qed.

(** ** The theorems at work *)

Definition no_result : ProcessResult := mkProcessResult zeroTime zeroTime (Some 0) None "exited" (mkUsage 0 0 0 0) "".
Definition spool_new : processOutputSpool := Eval vm_compute in
  match newProcessOutputSpool 64 16 secrets with Ok s => s | Err _ => mkSpool 0 0 0 0 true [] ∅ ∅ ∅ end.
Definition spool_1 : processOutputSpool := Eval vm_compute in (writeLocked OutputStdout (bytes "a tok") spool_new).2.
Definition spool_2 : processOutputSpool := Eval vm_compute in (writeLocked OutputStdout (bytes "en-value and more") spool_1).2.
Definition spool_input : string -> slice :=
  written (written (fun _ => []) OutputStdout (bytes "a tok")) OutputStdout (bytes "en-value and more").

Lemma spool_reached : spooled secrets 64 16 spool_input spool_2.
Proof.
  apply (spooled_write secrets 64 16 _ spool_1); [|vm_compute; reflexivity].
  apply (spooled_write secrets 64 16 _ spool_new); [|vm_compute; reflexivity].
  apply spooled_new. vm_compute. reflexivity.
Qed.

Lemma spool_retains_tail_witness : exists s' before, spool_Close no_result spool_2 = (Ok tt, s') /\
  (exists dropped, bytes "a [REDACTED] and more" = dropped ++ tail_of OutputStdout s') /\
  views (events s') = views before ++ ending OutputStdout s' ++ ending OutputStderr s'.
Proof.
  destruct (spool_retains_tail secrets 64 16 spool_input spool_2 no_result) as (s' & before & Hc & _ & Ht & Hv);
    [intros p Hp; exact (proj1 (secrets_plain p Hp)) | lia | lia | exact spool_reached|].
  exists s', before. split_and!; [exact Hc | | exact Hv]. destruct (Ht OutputStdout) as (dropped & Hd & _); [left|].
  exists dropped. rewrite <- Hd. vm_compute. reflexivity.
Defined.

Lemma spool_write_total_witness :
  writeLocked "stdin" (bytes "x") spool_2 = (Err (Failure FailureInvalidArgument), spool_2) /\
  writeLocked OutputStderr (replicate 43 120) spool_2 = (Err (Failure FailureResourceLimitExceeded), spool_2).
Proof.
  assert (Hp : forall p, p ∈ secrets -> plain p) by (intros p Hp; exact (proj1 (secrets_plain p Hp))).
  assert (H64 : 0 < 64 < 2 ^ 63) by lia. assert (H16 : 0 < 16 < 2 ^ 63) by lia. split.
  - pose proof (spool_write_total secrets 64 16 spool_input spool_2 "stdin" (bytes "x") Hp H64 H16 spool_reached) as H.
    rewrite bool_decide_eq_false_2 in H; [exact H|]. intros Hin. repeat (apply elem_of_cons in Hin as [Hin|Hin]; [discriminate Hin|]).
    by apply elem_of_nil in Hin.
  - pose proof (spool_write_total secrets 64 16 spool_input spool_2 OutputStderr (replicate 43 120) Hp H64 H16 spool_reached) as H.
    rewrite bool_decide_eq_true_2 in H by (by right; left).
    replace (_ && _) with false in H by (vm_compute; reflexivity). exact H.
Defined.
