(* ===== verification/DigestFacts.v ===== *)
(** * Digests

    What a SHA-256 digest looks like: 32 bytes, written as 64 hexadecimal digits. *)

From Stdlib Require Import Ascii String.
From S2P Require Import Prelude GoString Sha256 GoTime GoJson GoJsonText JsonFacts JsonStrings JsonValues GoDecode DecodeFacts HostProtocol.

Open Scope Z_scope.

Definition word32 (w : Z) : Prop := 0 <= w < 2 ^ 32.

Definition words32 (h : hash_state) : Prop :=
  let '(a, b, c, d, e, f, g, i) := h in Forall word32 [a; b; c; d; e; f; g; i].

Lemma w32_range z : word32 (w32 z).
Proof. unfold w32. change 0xffffffff with (Z.ones 32). rewrite Z.land_ones by lia. by apply Z.mod_pos_bound. Qed.

Lemma add_state_range x y : words32 (add_state x y).
Proof. destruct x as [[[[[[[a b] c] d] e] f] g] h], y as [[[[[[[a' b'] c'] d'] e'] f'] g'] h']. repeat constructor; apply w32_range. Qed.

Lemma blocks_range fuel h ws : words32 h -> words32 (blocks fuel h ws).
Proof.
  revert h ws. induction fuel as [|fuel IH]; intros h ws Hh; [done|]. destruct ws as [|w ws]; [done|]. cbn [blocks]. apply IH. apply add_state_range.
Qed.

Lemma word_bytes_range w : word32 w -> Forall (fun b => 0 <= b < 256) (word_bytes w).
Proof.
  intros Hw. unfold word_bytes. change 255 with (Z.ones 8). rewrite !Z.land_ones, !Z.shiftr_div_pow2 by lia.
  unfold word32 in Hw. repeat constructor; try (apply Z.mod_pos_bound; lia); [apply Z.div_pos; lia|apply Z.div_lt_upper_bound; lia].
Qed.

Lemma Sum256_bytes l : Forall (fun b => 0 <= b < 256) (Sum256 l) /\ length (Sum256 l) = 32%nat.
Proof.
  unfold Sum256. assert (Hi : words32 initial_hash) by (repeat (constructor; [split; vm_compute; congruence|]); constructor).
  pose proof (blocks_range (length (words (pad l))) _ (words (pad l)) Hi) as H.
  destruct (blocks _ _ _) as [[[[[[[a b] c] d] e] f] g] h]. split; [|done]. cbn in H. cbn [flat_map].
  repeat (apply Forall_cons in H as [? H]; apply Forall_app; split; [by apply word_bytes_range|]). constructor.
Qed.

(** ** Hexadecimal *)

Definition hex_char (c : Z) : Prop := 48 <= c <= 57 \/ 97 <= c <= 102.

Lemma hex_digit_char z : 0 <= z < 16 -> hex_char (byte_val (hex_digit z)).
Proof.
  intros Hz. unfold hex_digit, hex_char, byte_val, byte_chr. destruct (z <? 10) eqn:E; bools; rewrite N_ascii_embedding by lia; lia.
Qed.

Lemma hex_encode_chars l : Forall (fun b => 0 <= b < 256) l -> Forall hex_char (bytes (hex_encode l)).
Proof.
  induction 1 as [|b l Hb _ IH]; [constructor|]. cbn [hex_encode bytes]. apply Forall_cons; split; [|apply Forall_cons; split; [|done]]; apply hex_digit_char.
  - split; [apply Z.div_pos; lia|apply Z.div_lt_upper_bound; lia].
  - by apply Z.mod_pos_bound.
Qed.

Lemma hex_encode_len l : String.length (hex_encode l) = (2 * length l)%nat.
Proof. induction l as [|b l IH]; [done|]. cbn [hex_encode String.length length]. rewrite IH. lia. Qed.

Lemma sha256_hex_chars s : Forall hex_char (bytes (sha256_hex s)).
Proof. apply hex_encode_chars, Sum256_bytes. Qed.

Lemma sha256_hex_len s : String.length (sha256_hex s) = 64%nat.
Proof. unfold sha256_hex. rewrite hex_encode_len. by rewrite (proj2 (Sum256_bytes _)). Qed.

(** ** Digests *)

Lemma Digest_not_empty s : Digest s <> "".
Proof. done. Qed.

Lemma Digest_utf8 s : utf8 (bytes (Digest s)).
Proof.
  apply utf8_ascii. unfold Digest. rewrite bytes_app. apply Forall_app. split.
  { apply (bool_decide_eq_true_1 _). by vm_compute. }
  eapply Forall_impl; [apply sha256_hex_chars|]. unfold hex_char. intros c Hc. lia.
Qed.
