(* ===== verification/ContentKeys.v ===== *)
(** * Keys of content

    The object keys of the content store: the bucket adapter accepts all of them, and a
    key determines its tenant and its digest. *)

From Stdlib Require Import Ascii String.
From S2P Require Import Prelude GoString Keys Sha256 GoTime GoJson Sdk StateContract RuntimeContent ContentEnvelope DigestFacts ContentStore.

Open Scope Z_scope.

(** The characters of a segment, and of a key. *)
Definition segment_char (c : Z) : bool := is_lower c || is_digit c || (c =? 45) || (c =? 95).
Definition key_char (c : Z) : bool := segment_char c || (c =? 47).

Lemma segment_char_ascii : ascii_pred segment_char.
Proof. intros c. unfold segment_char, is_lower, is_digit, between. lia. Qed.

Lemma segment_key s : forallb segment_char (bytes s) = true -> forallb key_char (bytes s) = true.
Proof. rewrite !forallb_forall. intros H c Hc. unfold key_char. by rewrite (H c Hc). Qed.

Lemma validSegment_bytes s maximum : validSegment s maximum = true -> forallb segment_char (bytes s) = true /\ 0 < len s <= maximum.
Proof.
  unfold validSegment. destruct (_ || _) eqn:E; [done|]. bools. intros H'. split.
  - apply all_runes_bytes; [exact segment_char_ascii|]. unfold all_runes. destruct (runes s) as [|c cs]; [done|]. apply andb_true_iff in H' as [Hc Hcs]. cbn. apply andb_true_iff. split.
    + unfold segment_rune, segment_char, is_lower, is_digit, between in *. lia.
    + rewrite forallb_forall in Hcs |- *. intros x Hx. specialize (Hcs x Hx). unfold segment_rune, segment_char, is_lower, is_digit, between in *. lia.
  - destruct s; [done|]. unfold len in *. cbn. cbn in *. lia.
Qed.

Lemma split_chars s sep p : forallb (fun segment => forallb p (bytes segment)) (Split s sep) = true -> forallb (fun c => p c || (c =? byte_val sep)) (bytes s) = true.
Proof.
  induction s as [|c s IH]; [done|]. cbn [Split bytes forallb]. destruct (Ascii.eqb_spec c sep) as [->|].
  - cbn. intros H. rewrite Z.eqb_refl, orb_true_r. by apply IH.
  - destruct (Split s sep) as [|segment rest] eqn:Es; [by destruct s; cbn in Es; repeat case_match|]. cbn [forallb bytes]. cbn in IH.
    rewrite !andb_true_iff in *. intros [[-> H1] H2]. split; [done|]. by apply IH.
Qed.

Lemma validContentRoot_bytes root : validContentRoot root = true -> forallb key_char (bytes root) = true /\ len root <= maximumContentRootBytes.
Proof.
  unfold validContentRoot. destruct (_ || _) eqn:E; [done|]. bools. intros Hs. split; [|lia].
  assert (H' : forallb (fun c => segment_char c || (c =? byte_val slash)) (bytes root) = true); [|exact H'].
  apply split_chars. rewrite forallb_forall in Hs |- *. intros segment Hin. specialize (Hs _ Hin). bools. by apply (validSegment_bytes segment maximumContentRootBytes).
Qed.

(** ** Digests *)

Lemma validDigest_split d : validDigest d = true -> exists h, d = "sha256:" +:+ h /\ len h = 64 /\ forallb segment_char (bytes h) = true.
Proof.
  unfold validDigest. intros [[Hl%Z.eqb_eq Hp]%andb_true_iff Ht]%andb_true_iff. apply HasPrefix_split in Hp as [h ->]. rewrite (drop_bytes_app "sha256:") in Ht.
  exists h. split; [done|]. split.
  - unfold len in *. rewrite <- length_bytes, bytes_app, length_app, !length_bytes in Hl. cbn in Hl. lia.
  - unfold trims_to_empty in Ht. rewrite forallb_forall in Ht |- *. intros c Hc. specialize (Ht c Hc). apply existsb_exists in Ht as (x & Hx & ->%Z.eqb_eq).
    clear Hc. revert x Hx. apply (proj1 (forallb_forall _ _)). by vm_compute.
Qed.

Lemma referenceFor_digest e mediaType : validDigest (ref_Digest (referenceForMediaType e mediaType)) = true.
Proof.
  unfold validDigest. cbn [ref_Digest referenceForMediaType]. rewrite HasPrefix_app, (drop_bytes_app "sha256:"), andb_true_r. apply andb_true_iff. split.
  - apply Z.eqb_eq. unfold len. rewrite <- length_bytes, bytes_app, length_app, !length_bytes, sha256_hex_len. done.
  - unfold trims_to_empty. apply forallb_forall. intros c Hc. pose proof (sha256_hex_chars e) as H. rewrite Forall_forall in H. specialize (H c (proj2 (list_elem_of_In _ _) Hc)).
    unfold hex_char in H. assert (Hz : c ∈ seqZ 48 10 ++ seqZ 97 6) by (rewrite elem_of_app, !elem_of_seqZ; lia). rewrite list_elem_of_In in Hz. clear Hc H. revert c Hz. apply forallb_forall. by vm_compute.
Qed.

(** ** The adapter accepts the keys *)

Lemma contains_split s sub : Contains s sub = true -> exists a b, s = a +:+ sub +:+ b.
Proof.
  induction s as [|c s IH]; cbn [Contains]; intros [H|H]%orb_true_iff.
  - apply HasPrefix_split in H as [b ->]. by exists "", b.
  - done.
  - apply HasPrefix_split in H as [b E]. exists "", b. by rewrite append_nil.
  - destruct (IH H) as (a & b & ->). exists (String c a), b. by rewrite append_cons.
Qed.

Lemma contains_free s sub x : forallb key_char (bytes s) = true -> x ∈ bytes sub -> key_char x = false -> Contains s sub = false.
Proof.
  intros Hs Hx Hk. apply not_true_iff_false. intros (a & b & ->)%contains_split. rewrite !bytes_app in Hs. rewrite forallb_forall in Hs.
  specialize (Hs x). rewrite Hs in Hk; [done|]. apply list_elem_of_In. rewrite !elem_of_app. auto.
Qed.

Section root.
Context (root : string) (Hroot : validContentRoot root = true).

Lemma content_key_bytes tenant d : bytes (key root tenant d) = bytes tenant ++ [47] ++ bytes root ++ bytes "/v1/sha256/" ++ bytes (TrimPrefix d "sha256:").
Proof. unfold key. by rewrite !bytes_app. Qed.

Lemma key_chars tenant d : validTenantID tenant = true -> validDigest d = true -> forallb key_char (bytes (key root tenant d)) = true.
Proof.
  intros [Ht _]%validSegment_bytes (h & -> & _ & Hh)%validDigest_split. rewrite content_key_bytes, TrimPrefix_app, !forallb_app. rewrite (segment_key _ Ht), (segment_key _ Hh).
  destruct (validContentRoot_bytes _ Hroot) as [-> _]. done.
Qed.

Lemma key_valid tenant d : validTenantID tenant = true -> validDigest d = true -> validObjectKey (key root tenant d) = true.
Proof.
  intros Ht Hd. pose proof (key_chars tenant d Ht Hd) as Hk. unfold validObjectKey. rewrite (contains_free _ _ 46 Hk), (contains_free _ _ 92 Hk) by (done || (cbn; set_solver)).
  destruct (validSegment_bytes _ _ Ht) as [Hc Hl]. destruct (validDigest_split d Hd) as (h & -> & Hh & _). destruct (validContentRoot_bytes _ Hroot) as [_ Hr].
  destruct tenant as [|c tenant]; [done|]. rewrite !andb_true_iff. split_and!; [|..|done|done].
  - by rewrite bool_decide_false.
  - apply Z.leb_le. unfold len in *. rewrite <- length_bytes, content_key_bytes, TrimPrefix_app, !length_app, !length_bytes. unfold maximumTenantIDBytes, maximumContentRootBytes in *. cbn [length String.length] in *. lia.
  - unfold key. rewrite append_cons. cbn [HasPrefix]. apply negb_true_iff, andb_false_iff. left. apply Ascii.eqb_neq. intros <-. done.
Qed.

Lemma first_separator (x : Z) l m l' m' : x ∉ l -> x ∉ l' -> l ++ x :: m = l' ++ x :: m' -> l = l' /\ m = m'.
Proof.
  revert l'. induction l as [|y l IH]; intros [|z l'] Hl Hl' E; cbn in E.
  - by injection E.
  - injection E as -> ->. set_solver.
  - injection E as <- <-. set_solver.
  - injection E as -> E. destruct (IH l') as [-> ->]; [set_solver..|done|done].
Qed.

Lemma key_inj tenant tenant' d d' : validTenantID tenant = true -> validTenantID tenant' = true -> validDigest d = true -> validDigest d' = true ->
  key root tenant d = key root tenant' d' -> tenant = tenant' /\ d = d'.
Proof.
  intros Ht Ht' (h & -> & _)%validDigest_split (h' & -> & _)%validDigest_split E. apply (f_equal bytes) in E. rewrite !content_key_bytes, !TrimPrefix_app in E.
  assert (Hf : forall t, validTenantID t = true -> 47 ∉ bytes t).
  { intros t [Hc _]%validSegment_bytes Hin. rewrite forallb_forall in Hc. by specialize (Hc 47 (proj1 (list_elem_of_In _ _) Hin)). }
  apply first_separator in E as [E1 E2]; [|by apply Hf..]. apply app_inv_head, app_inv_head in E2. apply bytes_inj in E1 as ->. by apply bytes_inj in E2 as ->.
Qed.
End root.
