(* ===== verification/ContentTheorems.v ===== *)
(** * What the content store guarantees

    With any object store, content that is read under a reference is the content that was
    staged under it, or the two encodings are a SHA-256 collision ([content_authentic]).
    Over a bucket that keeps what it accepted, what was staged is read back
    ([content_delivered]), and erasure removes exactly what its receipt lists
    ([erasure_exact]). *)

From Stdlib Require Import Ascii String.
From S2P Require Import Prelude GoString Sha256 GoTime GoJson GoJsonText JsonFacts TimeText Cbor ToolSchema ToolSchemaTheorems Sdk SdkTypes StateContract RuntimeContent ContentEnvelope ContentFacts DigestFacts ContentStore ContentKeys.

Open Scope Z_scope.

(** Two different byte strings with one digest. *)
Definition digests_collide (x y : string) : Prop := x <> y /\ sha256_hex x = sha256_hex y.

Lemma matches_reference raw e mediaType : matches raw (referenceForMediaType e mediaType) = true -> raw = e \/ digests_collide e raw.
Proof.
  unfold matches. cbn [ref_Digest ref_SizeBytes ref_MediaType referenceForMediaType]. intros [_ H%bool_decide_eq_true]%andb_true_iff.
  assert (E : sha256_hex raw = sha256_hex e) by (by apply (inj (String.append "sha256:")) in H). destruct (decide (raw = e)); [by left|]. by right.
Qed.

Lemma reference_matches e mediaType : matches e (referenceForMediaType e mediaType) = true.
Proof. unfold matches. cbn. by rewrite Z.eqb_refl, bool_decide_true. Qed.

Section outcomes.
Context {W : Type}.

Lemma lift_Ok {A} e (o : option A) (a : A) (w w' : W) : lift e o w = (Ok a, w') <-> o = Some a /\ w = w'.
Proof. unfold lift. destruct o; [rewrite ret_Ok|rewrite fail_Ok]; naive_solver. Qed.

Lemma classified_Ok {A} fallback (m : C W A) a w w' : classified fallback m w = (Ok a, w') <-> m w = (Ok a, w').
Proof. unfold classified. destruct (m w) as [[] ?]; naive_solver. Qed.
End outcomes.

(** The next step of an operation that succeeded. *)
Ltac step_Ok H :=
  lazymatch type of H with
  | (guard_or _ _ ≫= _) _ = (Ok _, _) => apply bind_Ok in H as ([] & ?w & [?Hg ->]%guard_Ok & H)
  | (lift _ _ ≫= _) _ = (Ok _, _) => apply bind_Ok in H as (?x & ?w & [?Ho ->]%lift_Ok & H)
  | (classified _ _ ≫= _) _ = (Ok _, _) => apply bind_Ok in H as (?x & ?w & ?Hm%classified_Ok & H)
  | (_ ≫= _) _ = (Ok _, _) => apply bind_Ok in H as (?x & ?w & ?Hm & H)
  end.

Section any_store.
Context {W : Type} (compile : any -> option (any -> bool)) (objects : ImmutableObjectStore W) (done : W -> bool * W) (id : nat) (root : string).

Lemma fetch_Ok tenant reference raw w w' : fetch objects done root tenant reference w = (Ok raw, w') -> matches raw reference = true.
Proof. intros H. unfold fetch in H. do 4 step_Ok H. by apply ret_Ok in H as [<- _]. Qed.

(** What each staging operation hands over. *)
Lemma StageInputEnvelope_Ok tenant parts w h w' : StageInputEnvelope objects done id root tenant parts w = (Ok h, w') ->
  exists e, validTenantID tenant = true /\ encodeInputEnvelope parts = Some e /\
  h = mkContentHandoff id tenant (referenceForMediaType e InputEnvelopeMediaTypeV1) contentKindInputEnvelope "" "".
Proof. intros H. unfold StageInputEnvelope in H. do 4 step_Ok H. apply ret_Ok in H as [<- _]. eauto. Qed.

Lemma StageAgentSpecificationBody_Ok tenant body w h w' : StageAgentSpecificationBody compile objects done id root tenant body w = (Ok h, w') ->
  exists e, validTenantID tenant = true /\ encodeAgentSpecificationBody compile body = Some e /\
  h = mkContentHandoff id tenant (referenceForMediaType e AgentSpecificationBodyMediaTypeV1) contentKindAgentSpecificationBody (bod_Name body) (bod_ModelProfile body).
Proof. intros H. unfold StageAgentSpecificationBody in H. do 4 step_Ok H. apply ret_Ok in H as [<- _]. eauto. Qed.

Lemma StageArtifact_Ok tenant mediaType data w h w' : StageArtifact objects done id root tenant mediaType data w = (Ok h, w') ->
  validTenantID tenant = true /\ h = mkContentHandoff id tenant (referenceForMediaType data mediaType) contentKindArtifact "" "".
Proof. intros H. unfold StageArtifact in H. do 3 step_Ok H. apply ret_Ok in H as [<- _]. bools. done. Qed.

Lemma StageToolActionDescriptor_Ok tenant body w h w' : StageToolActionDescriptor objects done id root tenant body w = (Ok h, w') ->
  validTenantID tenant = true /\ h = mkContentHandoff id tenant (referenceForMediaType body ToolActionDescriptorMediaTypeV1) contentKindToolActionDescriptor "" "".
Proof. intros H. unfold StageToolActionDescriptor in H. do 2 step_Ok H. apply ret_Ok in H as [<- _]. bools. done. Qed.

Lemma authorized_Ok {R} (authorize : C W R) exact w r w' : authorized done authorize exact w = (Ok r, w') -> exact r = true /\ exists v v', authorize v = (Ok r, v').
Proof. intros H. unfold authorized in H. do 4 step_Ok H. apply ret_Ok in H as [<- _]. eauto. Qed.
End any_store.

Section readers.
Context {W : Type} (compile : any -> option (any -> bool)) (objects : ImmutableObjectStore W) (done : W -> bool * W) (root : string).

(** A read decodes bytes that match the reference of the record it was authorized with. *)
Lemma ReadInputEnvelope_Ok authorize tenant principal session input w parts w' :
  ReadInputEnvelope objects done root authorize tenant principal session input w = (Ok parts, w') ->
  exists r v v' raw, authorize v = (Ok r, v') /\ matches raw (ier_Reference r) = true /\ decodeInputEnvelope raw = Some parts.
Proof.
  intros H. unfold ReadInputEnvelope in H. do 2 step_Ok H. apply authorized_Ok in Hm as (_ & v & v' & Ha). unfold getInputEnvelope in H. do 2 step_Ok H.
  apply lift_Ok in H as [Hd _]. apply fetch_Ok in Hm. by eexists _, v, v', _.
Qed.

Lemma ReadAgentSpecificationBody_Ok authorize tenant agent revision w s w' :
  ReadAgentSpecificationBody compile objects done root authorize tenant agent revision w = (Ok s, w') ->
  exists r v v' raw, authorize v = (Ok r, v') /\ matches raw (abr_Reference r) = true /\
    decodeAgentSpecificationBody compile raw = Some (mkBody (spc_Name s) (spc_ModelProfile s) (spc_Instructions s) (spc_Tools s)) /\
    spc_ID s = agent /\ spc_RevisionID s = revision /\ spc_Revision s = abr_Revision r /\ spc_CreatedAt s = abr_CreatedAt r.
Proof.
  intros H. unfold ReadAgentSpecificationBody in H. do 2 step_Ok H. apply authorized_Ok in Hm as (Hx & v & v' & Ha). unfold getAgentSpecificationBody in H. do 4 step_Ok H.
  apply ret_Ok in H as [<- _]. apply fetch_Ok in Hm. bools. eexists _, v, v', _. cbn. split_and!; try done. subst. rewrite Ho. by destruct x1; cbn in *; subst.
Qed.

Lemma ReadArtifact_Ok authorize tenant principal artifact w raw w' : ReadArtifact objects done root authorize tenant principal artifact w = (Ok raw, w') ->
  exists r v v', authorize v = (Ok r, v') /\ matches raw (arr_Reference r) = true.
Proof.
  intros H. unfold ReadArtifact in H. do 2 step_Ok H. apply authorized_Ok in Hm as (_ & v & v' & Ha). unfold getArtifact in H. step_Ok H. apply fetch_Ok in H. eauto.
Qed.

Lemma ReadToolActionDescriptor_Ok authorize tenant principal session turn call w raw w' :
  ReadToolActionDescriptor objects done root authorize tenant principal session turn call w = (Ok raw, w') ->
  exists r v v', authorize v = (Ok r, v') /\ matches raw (cmt_Reference r) = true.
Proof.
  intros H. unfold ReadToolActionDescriptor in H. do 2 step_Ok H. apply authorized_Ok in Hm as (_ & v & v' & Ha). unfold getToolActionDescriptor in H. step_Ok H. apply fetch_Ok in H. eauto.
Qed.
End readers.

(** C26: for Inputs whose sizes are 64-bit numbers, the decoder accepts exactly the encodings
    of valid Inputs; that of Agent specification bodies accepts only encodings, so a digest
    names one content.  A body that is encoded is read back with its schemas in canonical
    form, if its tools are [readable_tool]: their schemas in canonical form are UTF-8.  So is
    a specification, if in addition its revision is a 64-bit number and its time can be
    written in RFC 3339 ([time_ok]).  A body that violates the condition is encoded but not
    decoded ([staged_body_unreadable]). *)
Theorem envelopes_canonical compile :
  (forall parts raw, Forall part_int64 parts -> decodeInputEnvelope raw = Some parts <-> encodeInputEnvelope parts = Some raw) /\
  (forall b raw, decodeAgentSpecificationBody compile raw = Some b -> encodeAgentSpecificationBody compile b = Some raw) /\
  (forall b raw, encodeAgentSpecificationBody compile b = Some raw -> Forall (readable_tool compile) (bod_Tools b) ->
     decodeAgentSpecificationBody compile raw = Some (canonical_body compile b)) /\
  (forall s raw, encode compile s = Some raw -> 0 <= spc_Revision s <= max_u64 -> time_ok (spc_CreatedAt s) -> Forall (readable_tool compile) (spc_Tools s) ->
     decode compile raw = Some (canonical_specification compile s)).
Proof.
  split_and!.
  - intros parts raw Hi. split; [apply input_written|by apply input_read].
  - intros b raw. apply body_written.
  - intros b raw. apply body_read.
  - intros s raw. apply specification_read.
Qed.

(** The reference of every record that a repository returns. *)
Definition always {W R} (reference : R -> Reference) (authorize : C W R) (expected : Reference) : Prop :=
  forall w r w', authorize w = (Ok r, w') -> reference r = expected.

(** C23: whatever the object store does, and whatever it was between writing and reading,
    an Input, an Agent specification body, an Artifact or a tool descriptor that a reader
    returns for the reference of a staged handoff is the content that was staged (tool
    schemas in canonical form), unless the two encodings are different strings with the
    same SHA-256. *)
Theorem content_authentic {W V} compile (objects : ImmutableObjectStore W) done id root (objects' : ImmutableObjectStore V) done' root' tenant owner w w1 v v1 h :
  (forall parts authorize principal session input parts', Forall part_int64 parts -> StageInputEnvelope objects done id root tenant parts w = (Ok h, w1) ->
     always ier_Reference authorize (han_reference h) -> ReadInputEnvelope objects' done' root' authorize owner principal session input v = (Ok parts', v1) ->
     parts' = parts \/ exists e e', encodeInputEnvelope parts = Some e /\ encodeInputEnvelope parts' = Some e' /\ digests_collide e e') /\
  (forall body authorize agent revision s, Forall (readable_tool compile) (bod_Tools body) -> StageAgentSpecificationBody compile objects done id root tenant body w = (Ok h, w1) ->
     always abr_Reference authorize (han_reference h) -> ReadAgentSpecificationBody compile objects' done' root' authorize owner agent revision v = (Ok s, v1) ->
     let body' := mkBody (spc_Name s) (spc_ModelProfile s) (spc_Instructions s) (spc_Tools s) in
     body' = canonical_body compile body \/
     exists e e', encodeAgentSpecificationBody compile body = Some e /\ encodeAgentSpecificationBody compile body' = Some e' /\ digests_collide e e') /\
  (forall mediaType data authorize principal artifact data', StageArtifact objects done id root tenant mediaType data w = (Ok h, w1) ->
     always arr_Reference authorize (han_reference h) -> ReadArtifact objects' done' root' authorize owner principal artifact v = (Ok data', v1) ->
     data' = data \/ digests_collide data data') /\
  (forall body authorize principal session turn call body', StageToolActionDescriptor objects done id root tenant body w = (Ok h, w1) ->
     always cmt_Reference authorize (han_reference h) -> ReadToolActionDescriptor objects' done' root' authorize owner principal session turn call v = (Ok body', v1) ->
     body' = body \/ digests_collide body body').
Proof.
  split_and!.
  - intros parts authorize principal session input parts' Hi (e & _ & He & ->)%StageInputEnvelope_Ok Ha (r & u & u' & raw & Hu & Hm & Hd)%ReadInputEnvelope_Ok.
    rewrite (Ha _ _ _ Hu) in Hm. destruct (matches_reference _ _ _ Hm) as [->|Hc]; [left|right; exists e, raw; split_and!; [done|by apply input_written|done..]]. rewrite (input_read _ _ Hi He) in Hd. congruence.
  - intros body authorize agent revision s Hr (e & _ & He & ->)%StageAgentSpecificationBody_Ok Ha (r & u & u' & raw & Hu & Hm & Hd & _)%ReadAgentSpecificationBody_Ok. cbv zeta.
    rewrite (Ha _ _ _ Hu) in Hm. destruct (matches_reference _ _ _ Hm) as [->|Hc]; [left|right; exists e, raw; split_and!; [done|by apply body_written|done..]]. rewrite (body_read _ _ _ He Hr) in Hd. congruence.
  - intros mediaType data authorize principal artifact data' [_ ->]%StageArtifact_Ok Ha (r & u & u' & Hu & Hm)%ReadArtifact_Ok. rewrite (Ha _ _ _ Hu) in Hm. by eapply matches_reference.
  - intros body authorize principal session turn call body' [_ ->]%StageToolActionDescriptor_Ok Ha (r & u & u' & Hu & Hm)%ReadToolActionDescriptor_Ok. rewrite (Ha _ _ _ Hu) in Hm. by eapply matches_reference.
Qed.

Lemma decoded_input_size raw parts : decodeInputEnvelope raw = Some parts -> 0 < len raw <= maximumInputEnvelopeBytes.
Proof. unfold decodeInputEnvelope. destruct (_ || _) eqn:E; [done|]. bools. intros _. apply Z.eqb_neq in H. unfold len in *. lia. Qed.

Lemma encoded_body_size compile body e : encodeAgentSpecificationBody compile body = Some e -> 0 < len e <= maximumSpecificationBytes /\ validName (bod_Name body) = true /\ validName (bod_ModelProfile body) = true.
Proof.
  intros (Hv & Hb & Hl)%encode_body_iff. unfold validateAgentSpecificationBody in Hv. bools. pose proof (nonempty_len e _ Hb) as Hn. specialize (Hn ltac:(done)). apply Z.eqb_neq in Hn. split_and!; [unfold len in *; lia|done..].
Qed.

(** ** A bucket that keeps its objects

    What the content store relies on: the bucket holds at most one object under a key,
    [PutIfAbsent] never replaces it, [Get] returns it and nothing else, and deletion
    removes it alone.  While the service is [up], calls succeed and the context lives. *)

Record KeepsObjects {W} (client : S3Client W) (done : W -> bool * W) (bucket : string) (held : W -> gmap string string) (up : W -> Prop) : Prop := mkKeeps {
  kee_context w : held (done w).2 = held w /\ (up w -> (done w).1 = false /\ up (done w).2);
  kee_put k v w : let '(r, w') := s3_PutIfAbsent client bucket k v w in
    (held w' = held w \/ held w !! k = None /\ held w' = <[k := v]> (held w)) /\
    (is_Some r -> is_Some (held w' !! k)) /\ (up w -> up w' /\ is_Some r);
  kee_get k n w : let '(r, w') := s3_Get client bucket k n w in
    held w' = held w /\ (forall x, r = Some x -> held w !! k = Some x) /\
    (up w -> up w' /\ forall x, held w !! k = Some x -> len x <= n -> r = Some x);
  kee_delete delete_ k w : s3_DeleteExact client = Some delete_ -> let '(r, w') := delete_ bucket k w in
    (held w' = held w \/ held w' = delete k (held w)) /\ (is_Some r -> held w' = delete k (held w))
}.

Section bucket.
Context {W : Type} (client : S3Client W) (done : W -> bool * W) (bucket : string) (held : W -> gmap string string) (up : W -> Prop).
Context (K : KeepsObjects client done bucket held up).
Notation objects := (S3ImmutableObjects client done bucket).

(** Whatever the outcome, no object is changed or removed. *)
Definition keeps {A} (m : C W A) : Prop := forall w, held w ⊆ held (m w).2.

Lemma keep_bind {A B} (m : C W A) (k : A -> C W B) : keeps m -> (forall a, keeps (k a)) -> keeps (m ≫= k).
Proof. intros Hm Hk w. unfold mbind, M_bind. specialize (Hm w). destruct (m w) as [[a|e] v]; [|done]. etrans; [exact Hm|apply Hk]. Qed.

Lemma keep_guard e b : keeps (guard_or e b).
Proof. intros w. by destruct b. Qed.

Lemma keeps_lift {A} e (o : option A) : keeps (lift e o).
Proof. intros w. by destruct o. Qed.

Lemma keep_ret {A} (a : A) : keeps (mret a).
Proof. by intros w. Qed.

Lemma keeps_classified {A} fallback (m : C W A) : keeps m -> keeps (classified fallback m).
Proof. intros Hm w. specialize (Hm w). unfold classified. by destruct (m w) as [[a|e] v]. Qed.

Lemma keeps_alive : keeps (alive done).
Proof. intros w. destruct (kee_context _ _ _ _ _ K w) as [E _]. unfold alive. destruct (done w) as [d v]. cbn in *. by rewrite E. Qed.

Lemma keeps_put k v : keeps (PutIfAbsent objects k v).
Proof.
  apply keep_bind; [apply keeps_alive|intros _]. apply keep_bind; [apply keep_guard|intros _]. intros w. unfold calling. pose proof (kee_put _ _ _ _ _ K k v w) as H.
  destruct (s3_PutIfAbsent client bucket k v w) as [o u]. destruct H as ([E|[E E']] & _ & _); destruct o; cbn; rewrite ?E, ?E'; try done; by apply insert_subseteq.
Qed.

Lemma keep_get k n : keeps (Get objects k n).
Proof.
  apply keep_bind; [apply keeps_alive|intros _]. apply keep_bind; [apply keep_guard|intros _]. apply keep_bind; [|intros x; apply keep_bind; [apply keep_guard|intros _; apply keep_ret]].
  intros w. unfold calling. pose proof (kee_get _ _ _ _ _ K k n w) as H. destruct (s3_Get client bucket k n w) as [o u]. destruct H as (E & _ & _). destruct o; cbn; by rewrite E.
Qed.

(** Discharges [keeps] for an operation of the store. *)
Ltac keeping := repeat first
  [ apply keeps_put | apply keep_get | apply keeps_alive | apply keep_guard | apply keeps_lift | apply keep_ret | apply keeps_classified | assumption
  | apply keep_bind; [|intros ?] ].

(** What a successful write has verified. *)
Lemma alive_Ok u w w' : alive done w = (Ok u, w') -> held w' = held w.
Proof.
  unfold alive. destruct (kee_context _ _ _ _ _ K w) as [E _]. destruct (done w) as [d v]. cbn in E. intros H. by assert (v = w') as <- by (destruct d; by injection H).
Qed.

Lemma get_Ok k n x w w' : Get objects k n w = (Ok x, w') -> held w !! k = Some x /\ held w' = held w.
Proof.
  intros H. cbn in H. unfold S3Get in H. apply bind_Ok in H as (u & w1 & Ha%alive_Ok & H). step_Ok H. apply bind_Ok in H as (y & w2 & Hc & H). step_Ok H. apply ret_Ok in H as [-> ->].
  unfold calling in Hc. pose proof (kee_get _ _ _ _ _ K k n w0) as Hk. destruct (s3_Get client bucket k n w0) as [[z|] v]; [|done]. injection Hc as <- <-. destruct Hk as (E & Hx & _).
  rewrite E, <- Ha. split; [by apply Hx|done].
Qed.

Lemma putVerified_Ok root tenant reference encoded u w w' : putVerified objects done root tenant reference encoded w = (Ok u, w') ->
  held w' !! key root tenant (ref_Digest reference) = Some encoded.
Proof.
  intros H. unfold putVerified in H. step_Ok H. apply bind_Ok in H as (u1 & w1 & _ & H). apply bind_Ok in H as (x1 & w2 & [Hx Hh]%classified_Ok%get_Ok & H).
  apply bind_Ok in H as (u2 & w3 & Ha%alive_Ok & H). apply guard_Ok in H as [[_ ->%bool_decide_eq_true]%andb_true_iff <-]. by rewrite Ha, Hh.
Qed.

(** While the service is up. *)
Definition runs {A} (m : C W A) (w : W) (a : A) (after : gmap string string) : Prop := exists w', m w = (Ok a, w') /\ up w' /\ held w' = after.

Lemma runs_bind {A B} (m : C W A) (k : A -> C W B) w a b during after : runs m w a during -> (forall w', up w' -> held w' = during -> runs (k a) w' b after) ->
  runs (m ≫= k) w b after.
Proof. intros (w1 & H1 & Hu & Hh) Hk. destruct (Hk w1 Hu Hh) as (w2 & H2 & H3). exists w2. split; [|done]. apply bind_Ok. eauto. Qed.

Lemma runs_alive w : up w -> runs (alive done) w tt (held w).
Proof.
  intros Hu. destruct (kee_context _ _ _ _ _ K w) as [E H]. destruct (H Hu) as [Hd Hu']. exists (done w).2. split; [|done]. unfold alive. destruct (done w). cbn in *. by rewrite Hd.
Qed.

Lemma runs_guard e b w : up w -> b = true -> runs (guard_or e b) w tt (held w).
Proof. intros Hu ->. by exists w. Qed.

Lemma runs_lift {A} e (o : option A) a w : up w -> o = Some a -> runs (lift e o) w a (held w).
Proof. intros Hu ->. by exists w. Qed.

Lemma runs_ret {A} (a : A) w : up w -> runs (mret a) w a (held w).
Proof. intros Hu. by exists w. Qed.

Lemma runs_classified {A} fallback (m : C W A) w a after : runs m w a after -> runs (classified fallback m) w a after.
Proof. intros (w' & H & Hu). exists w'. by rewrite classified_Ok. Qed.

Lemma runs_put k v w : up w -> validObjectKey k = true -> held w !! k = None \/ held w !! k = Some v -> exists created, runs (PutIfAbsent objects k v) w created (<[k := v]> (held w)).
Proof.
  intros Hu Hk Hh. destruct (runs_alive w Hu) as (w1 & E1 & Hu1 & Hh1). pose proof (kee_put _ _ _ _ _ K k v w1) as Hp. destruct (s3_PutIfAbsent client bucket k v w1) as [o w2] eqn:Ep.
  destruct Hp as (Hc & Hs & Hup). destruct (Hup Hu1) as [Hu2 [created ->]]. exists created, w2. split_and!; [|done|].
  - cbn. unfold S3PutIfAbsent. apply bind_Ok. exists tt, w1. split; [done|]. apply bind_Ok. exists tt, w1. rewrite guard_Ok. split; [done|]. unfold calling. by rewrite Ep.
  - rewrite Hh1 in Hc. destruct Hc as [E|[_ E]]; [|done]. rewrite E. destruct (Hs (mk_is_Some _ _ eq_refl)) as [x Hx]. rewrite E in Hx. rewrite insert_id; [done|]. destruct Hh; congruence.
Qed.

Lemma runs_get k w x : up w -> validObjectKey k = true -> held w !! k = Some x -> 0 < len x -> runs (Get objects k (len x)) w x (held w).
Proof.
  intros Hu Hk Hx Hl. eapply runs_bind; [by apply runs_alive|]. intros w1 Hu1 Hh1. eapply runs_bind; [apply runs_guard; [done|apply andb_true_iff; split; [done|lia]]|]. intros w2 Hu2 Hh2.
  eapply (runs_bind _ _ _ x); [|intros w3 Hu3 Hh3; eapply runs_bind; [apply runs_guard; [done|lia]|intros w4 Hu4 Hh4; rewrite <- Hh3, <- Hh4; by apply runs_ret]].
  pose proof (kee_get _ _ _ _ _ K k (len x) w2) as Hg. unfold runs, calling. destruct (s3_Get client bucket k (len x) w2) as [o w3]. destruct Hg as (E & _ & Hup). destruct (Hup Hu2) as [Hu3 Hget].
  rewrite (Hget x) by (congruence || lia). exists w3. split_and!; [done|done|congruence].
Qed.

Section root.
Context (root : string) (Hroot : validContentRoot root = true).

Lemma runs_putVerified tenant e mediaType w : up w -> validTenantID tenant = true -> 0 < len e -> let reference := referenceForMediaType e mediaType in let k := key root tenant (ref_Digest reference) in
  held w !! k = None \/ held w !! k = Some e -> runs (putVerified objects done root tenant reference e) w tt (<[k := e]> (held w)).
Proof.
  intros Hu Ht Hl reference k Hh. assert (Hk : validObjectKey k = true) by (apply key_valid; [done..|apply referenceFor_digest]). destruct (runs_put k e w Hu Hk Hh) as [created Hp].
  eapply runs_bind; [apply runs_classified, Hp|]. intros w1 Hu1 Hh1. eapply runs_bind; [by apply runs_alive|]. intros w2 Hu2 Hh2.
  eapply runs_bind; [apply runs_classified, (runs_get k _ e); [done|done| |done]; rewrite Hh2, Hh1; apply lookup_insert_eq|]. intros w3 Hu3 Hh3.
  eapply runs_bind; [by apply runs_alive|]. intros w4 Hu4 Hh4. rewrite <- Hh1, <- Hh2, <- Hh3, <- Hh4. apply runs_guard; [done|]. unfold reference. by rewrite reference_matches, bool_decide_true.
Qed.

Lemma runs_fetch tenant e mediaType w : up w -> validTenantID tenant = true -> 0 < len e -> let reference := referenceForMediaType e mediaType in
  held w !! key root tenant (ref_Digest reference) = Some e -> runs (fetch objects done root tenant reference) w e (held w).
Proof.
  intros Hu Ht Hl reference Hh. eapply runs_bind; [by apply runs_alive|]. intros w1 Hu1 Hh1.
  eapply runs_bind; [apply runs_classified, (runs_get _ _ e); [done|apply key_valid; [done..|apply referenceFor_digest]|by rewrite Hh1|done]|]. intros w2 Hu2 Hh2.
  eapply runs_bind; [by apply runs_alive|]. intros w3 Hu3 Hh3. eapply runs_bind; [apply runs_guard; [done|apply reference_matches]|]. intros w4 Hu4 Hh4.
  rewrite <- Hh1, <- Hh2, <- Hh3, <- Hh4. by apply runs_ret.
Qed.

(** A repository that authorizes every read with one record. *)
Definition grants {R} (authorize : C W R) (r : R) : Prop := forall w, up w -> runs authorize w r (held w).

Lemma runs_authorized {R} (authorize : C W R) exact r w : up w -> grants authorize r -> exact r = true -> runs (authorized done authorize exact) w r (held w).
Proof.
  intros Hu Hg Hx. eapply runs_bind; [by apply runs_alive|]. intros w1 Hu1 Hh1. eapply runs_bind; [by apply runs_classified, Hg|]. intros w2 Hu2 Hh2.
  eapply runs_bind; [by apply runs_alive|]. intros w3 Hu3 Hh3. eapply runs_bind; [by apply runs_guard|]. intros w4 Hu4 Hh4. rewrite <- Hh1, <- Hh2, <- Hh3, <- Hh4. by apply runs_ret.
Qed.

Lemma keeps_stage_input id tenant parts : keeps (StageInputEnvelope objects done id root tenant parts).
Proof. unfold StageInputEnvelope. keeping. Qed.

Lemma keeps_stage_body compile id tenant body : keeps (StageAgentSpecificationBody compile objects done id root tenant body).
Proof. unfold StageAgentSpecificationBody. keeping. Qed.

(** Staging content that has an encoding, where no other content has the key. *)
Lemma runs_staged tenant (encoding : option string) mediaType (handoff : Reference -> ContentHandoff) e w : up w -> validTenantID tenant = true -> encoding = Some e -> 0 < len e ->
  let reference := referenceForMediaType e mediaType in let k := key root tenant (ref_Digest reference) in held w !! k = None \/ held w !! k = Some e ->
  runs (guard_or ContentOther (validTenantID tenant);;
        alive done;;
        encoded ← lift ContentOther encoding;
        putVerified objects done root tenant (referenceForMediaType encoded mediaType) encoded;;
        mret (handoff (referenceForMediaType encoded mediaType))) w (handoff reference) (<[k := e]> (held w)).
Proof.
  intros Hu Ht He Hl reference k Hh. eapply runs_bind; [by apply runs_guard|]. intros w1 Hu1 Hh1. eapply runs_bind; [by apply runs_alive|]. intros w2 Hu2 Hh2.
  eapply runs_bind; [by apply runs_lift|]. intros w3 Hu3 Hh3. assert (E : held w3 = held w) by congruence. rewrite <- E in *.
  eapply runs_bind; [by apply runs_putVerified|]. intros w4 Hu4 Hh4. change (held w4 = <[k := e]> (held w3)) in Hh4. rewrite <- Hh4. by apply runs_ret.
Qed.

Lemma runs_stage_input id tenant parts e w : up w -> validTenantID tenant = true -> encodeInputEnvelope parts = Some e -> 0 < len e ->
  let reference := referenceForMediaType e InputEnvelopeMediaTypeV1 in let k := key root tenant (ref_Digest reference) in held w !! k = None \/ held w !! k = Some e ->
  runs (StageInputEnvelope objects done id root tenant parts) w (mkContentHandoff id tenant reference contentKindInputEnvelope "" "") (<[k := e]> (held w)).
Proof. intros Hu Ht He Hl. exact (runs_staged tenant _ _ (fun reference => mkContentHandoff id tenant reference contentKindInputEnvelope "" "") e w Hu Ht He Hl). Qed.

Lemma runs_stage_body compile id tenant body e w : up w -> validTenantID tenant = true -> encodeAgentSpecificationBody compile body = Some e -> 0 < len e ->
  let reference := referenceForMediaType e AgentSpecificationBodyMediaTypeV1 in let k := key root tenant (ref_Digest reference) in held w !! k = None \/ held w !! k = Some e ->
  runs (StageAgentSpecificationBody compile objects done id root tenant body) w
    (mkContentHandoff id tenant reference contentKindAgentSpecificationBody (bod_Name body) (bod_ModelProfile body)) (<[k := e]> (held w)).
Proof.
  intros Hu Ht He Hl.
  exact (runs_staged tenant _ _ (fun reference => mkContentHandoff id tenant reference contentKindAgentSpecificationBody (bod_Name body) (bod_ModelProfile body)) e w Hu Ht He Hl).
Qed.

Lemma staged_input_held id tenant parts w h w' : StageInputEnvelope objects done id root tenant parts w = (Ok h, w') ->
  exists e, validTenantID tenant = true /\ encodeInputEnvelope parts = Some e /\ han_reference h = referenceForMediaType e InputEnvelopeMediaTypeV1 /\
  held w' !! key root tenant (ref_Digest (han_reference h)) = Some e.
Proof.
  intros H. unfold StageInputEnvelope in H. do 3 step_Ok H. apply bind_Ok in H as (u & w2 & Hp%putVerified_Ok & [<- <-]%ret_Ok). eauto.
Qed.

Lemma staged_body_held compile id tenant body w h w' : StageAgentSpecificationBody compile objects done id root tenant body w = (Ok h, w') ->
  exists e, validTenantID tenant = true /\ encodeAgentSpecificationBody compile body = Some e /\ han_reference h = referenceForMediaType e AgentSpecificationBodyMediaTypeV1 /\
  held w' !! key root tenant (ref_Digest (han_reference h)) = Some e.
Proof.
  intros H. unfold StageAgentSpecificationBody in H. do 3 step_Ok H. apply bind_Ok in H as (u & w2 & Hp%putVerified_Ok & [<- <-]%ret_Ok). eauto.
Qed.
Lemma runs_read_input tenant e parts w principal session input authorize : up w -> validTenantID tenant = true -> validPrincipalID principal = true ->
  is_Some (ParseSessionID session) -> is_Some (ParseInputID input) -> decodeInputEnvelope e = Some parts -> let reference := referenceForMediaType e InputEnvelopeMediaTypeV1 in
  held w !! key root tenant (ref_Digest reference) = Some e -> grants authorize (mkEnvelopeRecord tenant principal session input reference) ->
  runs (ReadInputEnvelope objects done root authorize tenant principal session input) w parts (held w).
Proof.
  intros Hu Ht Hp Hs Hin Hd reference Hh Hg. pose proof (decoded_input_size _ _ Hd) as Hl.
  assert (Hv : validInputEnvelopeRecord (mkEnvelopeRecord tenant principal session input reference) = true).
  { unfold validInputEnvelopeRecord, validInputEnvelopeReference, reference. cbn [ier_Tenant ier_Principal ier_Reference ier_SessionID ier_InputID]. rewrite referenceFor_digest, Ht, Hp. cbn.
    rewrite !bool_decide_true, !andb_true_r, andb_true_iff by done. lia. }
  unfold ReadInputEnvelope, getInputEnvelope. eapply runs_bind; [apply runs_guard; [done|by rewrite Ht, Hp, !bool_decide_true]|]. intros w1 Hu1 Hh1. eapply runs_bind; [eapply runs_authorized; [done|exact Hg|]|].
  { cbn [ier_Tenant ier_Principal ier_SessionID ier_InputID]. by rewrite Hv, !bool_decide_true. }
  intros w2 Hu2 Hh2. eapply runs_bind; [by apply runs_guard|]. intros w3 Hu3 Hh3. cbn [ier_Tenant ier_Reference]. eapply runs_bind; [eapply runs_fetch; [done|done|lia|by rewrite Hh3, Hh2, Hh1]|].
  intros w4 Hu4 Hh4. rewrite <- Hh1, <- Hh2, <- Hh3, <- Hh4. by apply runs_lift.
Qed.

Lemma runs_read_body compile tenant e body w agent revision n created authorize : up w -> validTenantID tenant = true -> validAgentRevision agent revision n = true ->
  IsZero created = false -> isUTC created = true -> encodeAgentSpecificationBody compile body = Some e -> Forall (readable_tool compile) (bod_Tools body) ->
  let reference := referenceForMediaType e AgentSpecificationBodyMediaTypeV1 in held w !! key root tenant (ref_Digest reference) = Some e ->
  grants authorize (mkBodyRecord tenant agent revision n (bod_Name body) (bod_ModelProfile body) reference created) ->
  runs (ReadAgentSpecificationBody compile objects done root authorize tenant agent revision) w
    (mkSpecification agent revision n (bod_Name body) (bod_ModelProfile body) (bod_Instructions body) (canonical_tools compile (bod_Tools body)) created) (held w).
Proof.
  intros Hu Ht Ha Hz Hutc He Hr reference Hh Hg. destruct (encoded_body_size _ _ _ He) as (Hl & Hn & Hm). pose proof (body_read _ _ _ He Hr) as Hd.
  assert (Hv : validBodyRecord (mkBodyRecord tenant agent revision n (bod_Name body) (bod_ModelProfile body) reference created) = true).
  { unfold validBodyRecord, validAgentSpecificationBodyReference, reference. cbn [abr_AgentID abr_RevisionID abr_Revision abr_Name abr_ModelProfile abr_Reference abr_CreatedAt]. rewrite referenceFor_digest, Ha, Hn, Hm, Hz, Hutc. cbn.
    rewrite bool_decide_true, !andb_true_r, andb_true_iff by done. cbn [andb]. lia. }
  assert (Hids : bool_decide (is_Some (ParseAgentID agent)) && bool_decide (is_Some (ParseAgentRevisionID revision)) = true) by (unfold validAgentRevision in Ha; rewrite <- andb_assoc in Ha; by apply andb_true_iff in Ha as [_ ->]).
  unfold ReadAgentSpecificationBody, getAgentSpecificationBody. eapply runs_bind; [apply runs_guard; [done|by rewrite Ht, <- andb_assoc, Hids]|]. intros w1 Hu1 Hh1. eapply runs_bind; [eapply runs_authorized; [done|exact Hg|]|].
  { cbn [abr_Tenant abr_AgentID abr_RevisionID]. by rewrite Hv, !bool_decide_true. }
  intros w2 Hu2 Hh2. eapply runs_bind; [apply runs_guard; [done|by rewrite Hv, andb_true_r]|]. intros w3 Hu3 Hh3. cbn [abr_Tenant abr_Reference]. eapply runs_bind; [eapply runs_fetch; [done|done|lia|by rewrite Hh3, Hh2, Hh1]|].
  intros w4 Hu4 Hh4. eapply runs_bind; [by apply runs_lift|]. intros w5 Hu5 Hh5. eapply runs_bind; [apply runs_guard; [done|cbn; by rewrite !bool_decide_true]|]. intros w6 Hu6 Hh6.
  rewrite <- Hh1, <- Hh2, <- Hh3, <- Hh4, <- Hh5, <- Hh6. by apply runs_ret.
Qed.
End root.
End bucket.

(** C24: over a bucket that keeps its objects ([KeepsObjects]), staging an Input or an Agent
    specification body never changes or removes an object, whatever its outcome.  Staging
    content that can be encoded succeeds while the service is up, if the bucket holds no
    other content under the key of its digest.  After a successful staging, as long as the
    objects are kept, the service is up and the repository authorizes the read with the
    staged reference, the owner reads back exactly the parts of the Input, whose sizes are
    64-bit numbers; and the Agent specification body with its schemas in canonical form, if
    its tools are [readable_tool]: their schemas in canonical form are UTF-8. *)
Theorem content_delivered {W} client done bucket (held : W -> gmap string string) up root tenant :
  KeepsObjects client done bucket held up -> validContentRoot root = true -> validTenantID tenant = true ->
  let objects := S3ImmutableObjects client done bucket in
  (forall compile id parts body w, held w ⊆ held (StageInputEnvelope objects done id root tenant parts w).2 /\
                                   held w ⊆ held (StageAgentSpecificationBody compile objects done id root tenant body w).2) /\
  (forall id parts e w, Forall part_int64 parts -> encodeInputEnvelope parts = Some e -> up w ->
     held w !! key root tenant ("sha256:" +:+ sha256_hex e) ∈ [None; Some e] -> exists h w1, StageInputEnvelope objects done id root tenant parts w = (Ok h, w1) /\ up w1) /\
  (forall compile id body e w, encodeAgentSpecificationBody compile body = Some e -> up w ->
     held w !! key root tenant ("sha256:" +:+ sha256_hex e) ∈ [None; Some e] -> exists h w1, StageAgentSpecificationBody compile objects done id root tenant body w = (Ok h, w1) /\ up w1) /\
  (forall id parts w h w1 w2 principal session input authorize, Forall part_int64 parts -> StageInputEnvelope objects done id root tenant parts w = (Ok h, w1) ->
     held w1 ⊆ held w2 -> up w2 -> validPrincipalID principal = true -> is_Some (ParseSessionID session) -> is_Some (ParseInputID input) ->
     grants held up authorize (mkEnvelopeRecord tenant principal session input (han_reference h)) ->
     exists w3, ReadInputEnvelope objects done root authorize tenant principal session input w2 = (Ok parts, w3)) /\
  (forall compile id body w h w1 w2 agent revision n created authorize, Forall (readable_tool compile) (bod_Tools body) ->
     StageAgentSpecificationBody compile objects done id root tenant body w = (Ok h, w1) ->
     held w1 ⊆ held w2 -> up w2 -> validAgentRevision agent revision n = true -> IsZero created = false -> isUTC created = true ->
     grants held up authorize (mkBodyRecord tenant agent revision n (bod_Name body) (bod_ModelProfile body) (han_reference h) created) ->
     exists w3, ReadAgentSpecificationBody compile objects done root authorize tenant agent revision w2 =
       (Ok (mkSpecification agent revision n (bod_Name body) (bod_ModelProfile body) (bod_Instructions body) (canonical_tools compile (bod_Tools body)) created), w3)).
Proof.
  intros K Hroot Ht objects. split_and!.
  - intros. split; [by eapply keeps_stage_input|by eapply keeps_stage_body].
  - intros id parts e w Hi He Hu Hk. destruct (decoded_input_size _ _ (input_read _ _ Hi He)) as [Hl _].
    destruct (runs_stage_input _ _ _ _ _ K root Hroot id tenant parts e w Hu Ht He Hl) as (w1 & H & Hu1 & _); [|by eauto]. rewrite !elem_of_cons in Hk. set_solver.
  - intros compile id body e w He Hu Hk. destruct (encoded_body_size _ _ _ He) as ([Hl _] & _).
    destruct (runs_stage_body _ _ _ _ _ K root Hroot compile id tenant body e w Hu Ht He Hl) as (w1 & H & Hu1 & _); [|by eauto]. rewrite !elem_of_cons in Hk. set_solver.
  - intros id parts w h w1 w2 principal session input authorize Hi Hs Hsub Hu Hp Hsess Hin Hg. destruct (staged_input_held _ _ _ _ _ K _ _ _ _ _ _ _ Hs) as (e & _ & He & Er & Hh). rewrite Er in *.
    destruct (runs_read_input _ _ _ _ _ K root Hroot tenant e parts w2 principal session input authorize) as (w3 & H & _); [done..|by apply input_read|by eapply lookup_weaken|done|by eauto].
  - intros compile id body w h w1 w2 agent revision n created authorize Hr Hs Hsub Hu Ha Hz Hutc Hg. destruct (staged_body_held _ _ _ _ _ K _ _ _ _ _ _ _ _ Hs) as (e & _ & He & Er & Hh). rewrite Er in *.
    destruct (runs_read_body _ _ _ _ _ K root Hroot compile tenant e body w2 agent revision n created authorize) as (w3 & H & _); [done..|by eapply lookup_weaken|done|by eauto].
Qed.

(** ** Erasure *)

Section erasing.
Context {W : Type} (client : S3Client W) (done : W -> bool * W) (bucket : string) (held : W -> gmap string string) (up : W -> Prop).
Context (K : KeepsObjects client done bucket held up).
Notation remove := (S3DeleteExact client done bucket).

Lemma alive_held r w w' : alive done w = (r, w') -> held w' = held w.
Proof. unfold alive. destruct (kee_context _ _ _ _ _ K w) as [E _]. destruct (done w) as [[|] v]; by intros [= _ <-]. Qed.

Lemma delete_held k r w w' : remove k w = (r, w') -> (held w' = held w \/ held w' = delete k (held w)) /\ (forall u, r = Ok u -> held w' = delete k (held w)).
Proof.
  intros H. unfold S3DeleteExact in H. cbn in H. unfold mbind, M_bind in H. destruct (alive done w) as [[u|e] w1] eqn:Ha; apply alive_held in Ha; [|injection H as <- <-; naive_solver].
  rewrite <- Ha. clear Ha. destruct (validObjectKey k); cbn in H; [|injection H as <- <-; naive_solver]. unfold lift in H. destruct (s3_DeleteExact client) as [delete_|] eqn:Ed; cbn in H; [|injection H as <- <-; naive_solver].
  pose proof (kee_delete _ _ _ _ _ K delete_ k w1 Ed) as Hk. unfold calling in H. destruct (delete_ bucket k w1) as [[[]|] w2]; injection H as <- <-; naive_solver.
Qed.

(** What the loop has done: it deleted a prefix of its list, and may have deleted the
    reference it stopped at. *)
Definition erased_only (root : string) (tenant : TenantID) (l : list Reference) (before after : gmap string string) : Prop :=
  after ⊆ before /\ forall k, is_Some (before !! k) -> after !! k = None -> exists r, r ∈ l /\ k = key root tenant (ref_Digest r).

Lemma erased_step root tenant r l before during after : (during = before \/ during = delete (key root tenant (ref_Digest r)) before) -> erased_only root tenant l during after ->
  erased_only root tenant (r :: l) before after.
Proof.
  intros Hd [Hs Ho]. split; [etrans; [exact Hs|]; destruct Hd as [->| ->]; [done|apply delete_subseteq]|]. intros k Hk Hn. destruct (during !! k) eqn:E.
  - destruct (Ho k) as (x & Hx & ->); [by eexists|done|]. exists x. split; [by right|done].
  - exists r. split; [by left|]. destruct Hd as [->| ->]; [by rewrite E in Hk; destruct Hk|]. apply lookup_delete_None in E as [<-|E]; [done|]. by rewrite E in Hk; destruct Hk.
Qed.

Lemma erased_none root tenant l m : erased_only root tenant l m m.
Proof. split; [done|]. intros k [x Hx] Hn. congruence. Qed.

Lemma erase_loop_spec root tenant deleted l w receipt err w' : erase_loop done root remove tenant deleted l w = (receipt, err, w') ->
  exists more rest, l = more ++ rest /\ ert_Deleted receipt = deleted ++ more /\ ert_Failed receipt = List.hd_error rest /\ (err = None <-> rest = []) /\
    erased_only root tenant (more ++ option_list (List.hd_error rest)) (held w) (held w') /\ forall r, r ∈ more -> held w' !! key root tenant (ref_Digest r) = None.
Proof.
  revert deleted w. induction l as [|r l IH]; intros deleted w; cbn [erase_loop].
  - intros [= <- <- <-]. exists [], []. cbn. rewrite app_nil_r. split_and!; try done; [apply erased_none|]. by intros r ?%not_elem_of_nil.
  - destruct (alive done w) as [[u|e] w1] eqn:Ha; apply alive_held in Ha.
    2: { intros [= <- <- <-]. exists [], (r :: l). cbn. rewrite app_nil_r, Ha. split_and!; try done; [apply erased_none|]. by intros x ?%not_elem_of_nil. }
    destruct (remove _ w1) as [[u2|e] w2] eqn:Ed; apply delete_held in Ed as [Hd Hok]; rewrite Ha in *.
    2: { intros [= <- <- <-]. exists [], (r :: l). cbn. rewrite app_nil_r. split_and!; try done; [|by intros x ?%not_elem_of_nil]. eapply erased_step; [exact Hd|apply erased_none]. }
    intros (more & rest & -> & H1 & H2 & H3 & H4 & H5)%IH. exists (r :: more), rest. split_and!; [done|by rewrite H1, <- app_assoc|done|done| |].
    + by eapply erased_step.
    + intros x [->|Hx]%elem_of_cons; [|by apply H5]. destruct H4 as [Hs _]. rewrite (Hok u2 eq_refl) in Hs. destruct (held w' !! _) eqn:E; [|done]. apply (lookup_weaken _ _ _ _ E) in Hs. by rewrite lookup_delete_eq in Hs.
Qed.
End erasing.

Lemma erasable_digest seen l r : valid_references seen l = true -> r ∈ l -> validDigest (ref_Digest r) = true.
Proof.
  revert seen. induction l as [|x l IH]; intros seen; [by intros _ ?%not_elem_of_nil|]. cbn [valid_references]. intros H [->|Hr]%elem_of_cons; bools; [|by eapply IH].
  unfold validLifecycleReference in *. rewrite !orb_true_iff in *.
  unfold validReference, validAgentSpecificationBodyReference, validInputEnvelopeReference, validArtifactReference, validConversationEntryReference in *. naive_solver (bools; done).
Qed.

(** C25: an erasure over a bucket that keeps its objects, with an authorization that leaves
    the bucket alone, deletes a prefix of the requested references, which is all of them when it reports no error and otherwise ends before the
    reference it reports as failed.  The objects of the deleted references are gone.  The
    object of the failed reference may be gone or there, since a deletion that failed may
    have taken effect.  No object is added or changed, no other object disappears, and no
    object of another tenant. *)
Theorem erasure_exact {W} client done bucket (held : W -> gmap string string) up root authorize request w receipt err w' :
  KeepsObjects client done bucket held up -> validContentRoot root = true -> (forall v, held (authorize request v).2 = held v) ->
  Erase done root authorize (S3DeleteExact client done bucket) request w = (receipt, err, w') ->
  (exists rest, era_References request = ert_Deleted receipt ++ rest /\ (err = None -> rest = []) /\ forall r, ert_Failed receipt = Some r -> List.hd_error rest = Some r) /\
  (forall r, r ∈ ert_Deleted receipt -> held w' !! key root (era_Tenant request) (ref_Digest r) = None) /\
  held w' ⊆ held w /\
  (forall k, is_Some (held w !! k) -> held w' !! k = None -> exists r, r ∈ ert_Deleted receipt ++ option_list (ert_Failed receipt) /\ k = key root (era_Tenant request) (ref_Digest r)) /\
  (forall other d, validTenantID other = true -> validDigest d = true -> other <> era_Tenant request -> held w' !! key root other d = held w !! key root other d).
Proof.
  intros K Hroot Ha H. assert (Hnone : forall e v, held v = held w -> (noReceipt, Some e, v) = (receipt, err, w') -> ert_Deleted receipt = [] /\ ert_Failed receipt = None /\ held w' = held w /\ err <> None)
    by (by intros e v Hv [= <- <- <-]).
  assert (Hstill : ert_Deleted receipt = [] /\ ert_Failed receipt = None /\ held w' = held w /\ err <> None \/
    validErasureRequest request = true /\ exists v, held v = held w /\ erase_loop done root (S3DeleteExact client done bucket) (era_Tenant request) [] (era_References request) v = (receipt, err, w')).
  { unfold Erase in H. destruct (alive done w) as [[u|e] w1] eqn:E1; apply (alive_held _ _ _ _ _ K) in E1; [|left; by eapply Hnone; [|exact H]]. destruct (validErasureRequest request) eqn:Ev; cbn [negb] in H; [|left; by eapply Hnone; [|exact H]].
    specialize (Ha w1). destruct (authorize request w1) as [[u2|e] w2]; cbn in Ha; rewrite E1 in Ha; [right; eauto|left; by eapply Hnone; [|exact H]]. }
  destruct Hstill as [(Ed & Ef & -> & Herr)|(Hv & v & <- & Hl)].
  - rewrite Ed, Ef. split; [exists (era_References request); split_and!; [done|by intros ?|done]|]. split; [by intros r ?%not_elem_of_nil|]. split; [done|]. split; [|done]. intros k [x Hx] Hn. congruence.
  - apply (erase_loop_spec _ _ _ _ _ K) in Hl as (more & rest & Hrefs & Ed & Ef & He & [Hs Ho] & Hgone). cbn in Ed. rewrite Ed, Ef. split_and!; [|done..|].
    + exists rest. split_and!; [done|by intros ->%He|done].
    + intros other d Hot Hd Hne. destruct (held v !! key root other d) as [x|] eqn:Ex; [|by eapply lookup_weaken_None]. destruct (held w' !! key root other d) as [y|] eqn:Ey; [rewrite <- Ex; symmetry; by eapply lookup_weaken|].
      destruct (Ho (key root other d)) as (r & Hr & Ek); [by eexists|done|]. exfalso. assert (Hin : r ∈ era_References request) by (rewrite Hrefs; destruct rest; set_solver).
      unfold validErasureRequest in Hv. destruct (_ || _) eqn:Eg; [done|]. bools. destruct (key_inj root Hroot other (era_Tenant request) d (ref_Digest r)); try done. by eapply erasable_digest.
Qed.

(** ** A concrete bucket: its objects in a list *)

Definition demo_world : Type := list (string * string).

Fixpoint look (k : string) (w : demo_world) : option string := match w with [] => None | (k', x) :: w => if k ≟ k' then Some x else look k w end.

Definition demo_client : S3Client demo_world := mkClient _
  (fun _ k v w => match look k w with None => (Some true, (k, v) :: w) | Some _ => (Some false, w) end)
  (fun _ k n w => (match look k w with Some x => if len x <=? n then Some x else None | None => None end, w))
  None
  (Some (fun _ k w => (Some tt, List.filter (fun kx => kx.1 ≠? k) w))).
Definition demo_done (w : demo_world) : bool * demo_world := (false, w).
Definition demo_objects : ImmutableObjectStore demo_world := S3ImmutableObjects demo_client demo_done "content".
Definition demo_root : string := "runtime-content/prod".
Definition no_compiler : any -> option (any -> bool) := fun _ => None.
Definition demo_held (w : demo_world) : gmap string string := list_to_map w.

Lemma look_held k w : look k w = demo_held w !! k.
Proof.
  induction w as [|[k' x] w IH]; [done|]. cbn. destruct (bool_decide_reflect (k = k')) as [->|Hn]; [by rewrite lookup_insert_eq|]. by rewrite lookup_insert_ne.
Qed.

Lemma filter_held k w : demo_held (List.filter (fun kx => kx.1 ≠? k) w) = delete k (demo_held w).
Proof.
  induction w as [|[k' x] w IH]; cbn; [by rewrite delete_empty|]. destruct (bool_decide_reflect (k' = k)) as [->|Hn]; cbn.
  - etransitivity; [exact IH|]. symmetry. apply delete_insert_eq.
  - rewrite delete_insert_ne by done. f_equal. exact IH.
Qed.

Lemma demo_keeps : KeepsObjects demo_client demo_done "content" demo_held (fun _ => True).
Proof.
  split.
  - done.
  - intros k v w. cbn. rewrite look_held. destruct (demo_held w !! k) as [x|] eqn:E; cbn; [by split_and!; [left|rewrite E|]|]. split_and!; [by right|by rewrite lookup_insert_eq|eauto].
  - intros k n w. cbn. rewrite look_held. destruct (demo_held w !! k) as [x|] eqn:E; [|by split_and!]. destruct (Z.leb_spec (len x) n); (split; [done|]); (split; [by intros y [= <-]|]); intros _; (split; [done|]); intros y [= <-] ?; [done|lia].
  - intros delete_ k w [= <-]. rewrite filter_held. split; [by right|done].
Qed.

Definition demo_parts : list ContentPart :=
  [mkPart ContentText "Compare the two drafts." None;
   mkPart ContentArtifact "" (Some (mkArtifactReference "art_0123456789ABCDEF" "text/plain" 11 (sha256_hex "first draft")))].
Definition demo_body : AgentSpecificationBody :=
  mkBody "reviewer" "default" "Review carefully." [mkTool "read_file" "Reads a file." "" ""; mkTool "diff" "Compares files." VersionV1 (of_bytes (bytes "{ " ++ quoted (bytes "type") ++ bytes " : " ++ quoted (bytes "object") ++ bytes "}"))].

Definition handed {W} (r : res ContentError ContentHandoff * W) : ContentHandoff := match r.1 with Ok h => h | Err _ => mkContentHandoff 0 "" zeroReference contentKindNone_ "" "" end.
Definition stage_input (w : demo_world) := StageInputEnvelope demo_objects demo_done 7 demo_root "acme" demo_parts w.
Definition stage_body (w : demo_world) := StageAgentSpecificationBody no_compiler demo_objects demo_done 7 demo_root "acme" demo_body w.
Definition world1 : demo_world := Eval vm_compute in (stage_input []).2.
Definition world2 : demo_world := Eval vm_compute in (stage_body world1).2.
Definition handoff1 : ContentHandoff := Eval vm_compute in handed (stage_input []).
Definition handoff2 : ContentHandoff := Eval vm_compute in handed (stage_body world1).

Lemma stage_input_run : stage_input [] = (Ok handoff1, world1).
Proof. vm_compute. reflexivity. Qed.
Lemma stage_body_run : stage_body world1 = (Ok handoff2, world2).
Proof. vm_compute. reflexivity. Qed.

Definition granting {W R} (r : R) : C W R := fun w => (Ok r, w).
Definition input_record : InputEnvelopeRecord := mkEnvelopeRecord "acme" "alice" "sess_0123456789ABCDEF" "inpt_0123456789ABCDEF" (han_reference handoff1).
Definition demo_created : Time := mkTime (20000 * 24 * Hour) UTC.
Definition body_record : AgentSpecificationBodyRecord :=
  mkBodyRecord "acme" "agent_0123456789ABCDEF" "arev_0123456789ABCDEF" 1 "reviewer" "default" (han_reference handoff2) demo_created.

Lemma demo_int64 : Forall part_int64 demo_parts.
Proof. repeat constructor; intros a [= <-]. done. Qed.

Lemma demo_readable : Forall (readable_tool no_compiler) (bod_Tools demo_body).
Proof. repeat constructor; vm_compute; reflexivity. Qed.

Lemma world_grows : demo_held world1 ⊆ demo_held world2.
Proof. pose proof (keeps_stage_body _ _ _ _ _ demo_keeps demo_root no_compiler 7 "acme" demo_body world1) as H. change (demo_held world1 ⊆ demo_held (stage_body world1).2) in H. by rewrite stage_body_run in H. Qed.

Lemma content_authentic_witness : exists parts v, ReadInputEnvelope demo_objects demo_done demo_root (granting input_record) "acme" "alice" "sess_0123456789ABCDEF" "inpt_0123456789ABCDEF" world2 = (Ok parts, v) /\
  (parts = demo_parts \/ exists e e', encodeInputEnvelope demo_parts = Some e /\ encodeInputEnvelope parts = Some e' /\ digests_collide e e').
Proof.
  eexists demo_parts, world2. assert (E : ReadInputEnvelope demo_objects demo_done demo_root (granting input_record) "acme" "alice" "sess_0123456789ABCDEF" "inpt_0123456789ABCDEF" world2 = (Ok demo_parts, world2)) by (vm_compute; reflexivity).
  split; [exact E|]. refine (proj1 (content_authentic no_compiler demo_objects demo_done 7 demo_root demo_objects demo_done demo_root "acme" "acme" [] world1 world2 world2 handoff1) demo_parts (granting input_record) "alice" "sess_0123456789ABCDEF" "inpt_0123456789ABCDEF" demo_parts demo_int64 stage_input_run _ E).
  intros w r w' [= <- _]. reflexivity.
Defined.

Lemma content_delivered_witness :
  (exists w3, ReadInputEnvelope demo_objects demo_done demo_root (granting input_record) "acme" "alice" "sess_0123456789ABCDEF" "inpt_0123456789ABCDEF" world2 = (Ok demo_parts, w3)) /\
  (exists w3, ReadAgentSpecificationBody no_compiler demo_objects demo_done demo_root (granting body_record) "acme" "agent_0123456789ABCDEF" "arev_0123456789ABCDEF" world2 =
    (Ok (mkSpecification "agent_0123456789ABCDEF" "arev_0123456789ABCDEF" 1 "reviewer" "default" "Review carefully." (canonical_tools no_compiler (bod_Tools demo_body)) demo_created), w3)).
Proof.
  assert (Hr : validContentRoot demo_root = true) by (vm_compute; reflexivity). assert (Ht : validTenantID "acme" = true) by (vm_compute; reflexivity).
  pose proof (content_delivered demo_client demo_done "content" demo_held (fun _ => True) demo_root "acme" demo_keeps Hr Ht) as (_ & _ & _ & H3 & H4). split.
  - refine (H3 7%nat demo_parts [] handoff1 world1 world2 "alice" "sess_0123456789ABCDEF" "inpt_0123456789ABCDEF" (granting input_record) demo_int64 stage_input_run world_grows I eq_refl _ _ _); [by eexists|by eexists|].
    intros w _. by exists w.
  - refine (H4 no_compiler 7%nat demo_body world1 handoff2 world2 world2 "agent_0123456789ABCDEF" "arev_0123456789ABCDEF" 1 demo_created (granting body_record) demo_readable stage_body_run _ I eq_refl eq_refl eq_refl _); [done|].
    intros w _. by exists w.
Defined.

Lemma envelopes_canonical_witness : exists raw, encodeInputEnvelope demo_parts = Some raw /\ decodeInputEnvelope raw = Some demo_parts.
Proof.
  destruct (encodeInputEnvelope demo_parts) as [raw|] eqn:E; [|exfalso; vm_compute in E; discriminate]. exists raw. split; [reflexivity|].
  apply (proj1 (envelopes_canonical no_compiler) demo_parts raw demo_int64). exact E.
Defined.

Definition demo_request : ErasureRequest := mkErasureRequest "acme" "operator-approval-17" [han_reference handoff1].
Definition erased := Erase demo_done demo_root (fun _ w => (Ok tt, w)) (S3DeleteExact demo_client demo_done "content") demo_request world2.

(** The other object of the bucket stays. *)
Lemma erasure_exact_witness : exists w', erased = (mkErasureReceipt "acme" [han_reference handoff1] None, None, w') /\ length w' = 1%nat /\ demo_held w' ⊆ demo_held world2.
Proof.
  assert (E : erased = (mkErasureReceipt "acme" [han_reference handoff1] None, None, take 1 world2)) by (vm_compute; reflexivity). exists (take 1 world2). split; [exact E|]. split; [reflexivity|].
  refine (proj1 (proj2 (proj2 (erasure_exact demo_client demo_done "content" demo_held (fun _ => True) demo_root (fun _ w => (Ok tt, w)) demo_request world2 _ None _ demo_keeps _ _ E)))); [vm_compute; reflexivity|reflexivity].
Defined.

(** ** What modelling showed *)

(** A schema of the first profile keeps the bytes of its string literals.  One with a byte
    that is not UTF-8 is accepted and staged, and the staged body cannot be read. *)
Definition byte_tool : ToolDefinition :=
  mkTool "pick" "Picks a value." VersionV1
    (of_bytes (bytes "{" ++ quoted (bytes "type") ++ bytes ":" ++ quoted (bytes "object") ++ bytes "," ++ quoted (bytes "properties") ++ bytes ":{" ++ quoted (bytes "v") ++ bytes ":{" ++
               quoted (bytes "type") ++ bytes ":" ++ quoted (bytes "string") ++ bytes "," ++ quoted (bytes "enum") ++ bytes ":[" ++ quoted [255] ++ bytes "]}}}")).
Definition byte_body : AgentSpecificationBody := mkBody "picker" "default" "Pick one." [byte_tool].

Definition stage_bytes := StageAgentSpecificationBody no_compiler demo_objects demo_done 7 demo_root "acme" byte_body [].
Definition read_bytes :=
  let h := handed stage_bytes in
  ReadAgentSpecificationBody no_compiler demo_objects demo_done demo_root
    (granting (mkBodyRecord "acme" "agent_0123456789ABCDEF" "arev_0123456789ABCDEF" 1 "picker" "default" (han_reference h) demo_created)) "acme" "agent_0123456789ABCDEF" "arev_0123456789ABCDEF" stage_bytes.2.

Example staged_body_unreadable :
  ValidateAgentSpecificationBodyHandoff 7 (handed stage_bytes) = Some (mkAgentSpecificationBodyCommitment "acme" (han_reference (handed stage_bytes)) "picker" "default") /\
  read_bytes.1 = Err ContentIntegrity.
Proof. vm_compute. split; reflexivity. Qed.

(** Objects are shared by content: erasing one reference erases the same bytes under
    another media type. *)
Definition twice : demo_world :=
  (StageArtifact demo_objects demo_done 7 demo_root "acme" "text/csv" "a,b" (StageArtifact demo_objects demo_done 7 demo_root "acme" "text/plain" "a,b" []).2).2.
Definition erase_plain :=
  Erase demo_done demo_root (fun _ w => (Ok tt, w)) (S3DeleteExact demo_client demo_done "content")
    (mkErasureRequest "acme" "operator-approval-18" [referenceForMediaType "a,b" "text/plain"]) twice.

Example erasure_shared :
  erase_plain.1 = (mkErasureReceipt "acme" [referenceForMediaType "a,b" "text/plain"] None, None) /\
  (ReadArtifact demo_objects demo_done demo_root (granting (mkStoredArtifact "acme" "alice" "art_0123456789ABCDEF" (referenceForMediaType "a,b" "text/csv"))) "acme" "alice" "art_0123456789ABCDEF" twice).1 = Ok "a,b" /\
  (ReadArtifact demo_objects demo_done demo_root (granting (mkStoredArtifact "acme" "alice" "art_0123456789ABCDEF" (referenceForMediaType "a,b" "text/csv"))) "acme" "alice" "art_0123456789ABCDEF" erase_plain.2).1 = Err ContentDenied.
Proof. vm_compute. split_and!; reflexivity. Qed.

(** A specification created after the year 9999 is stored and cannot be read. *)
Definition late_specification (t : Time) : AgentSpecification :=
  mkSpecification "agent_0123456789ABCDEF" "arev_0123456789ABCDEF" 1 "reviewer" "default" "Review carefully." [] t.
Definition far_future : Time := mkTime (4000000 * 24 * Hour) UTC.

Example late_specification_unreadable :
  match PutAgentSpecification no_compiler demo_objects demo_done demo_root "acme" (late_specification far_future) [] with
  | (Ok r, w) => (ReadAgentSpecification no_compiler demo_objects demo_done demo_root (granting (mkSpecificationRecord "acme" "agent_0123456789ABCDEF" "arev_0123456789ABCDEF" 1 r))
                    "acme" "agent_0123456789ABCDEF" "arev_0123456789ABCDEF" w).1 = Err ContentIntegrity
  | _ => False
  end.
Proof. vm_compute. reflexivity. Qed.
