(* ===== verification/DurableFiles.v ===== *)
(** * Files that are replaced

    How the runtime replaces a file: it writes a temporary file, syncs it, renames it over
    the path and syncs the directory.  A reader sees the old content or the new one; after a
    loss of power either may be there until the directory has been synced. *)

From S2P Require Import Prelude.

(** The end of a write: nothing replaced, replaced but not synced, or done. *)
Inductive Outcome : Type := Unwritten | Unsynced | Written.

(** A file under a path: what a reader sees ([None]: no file), and the contents of which
    one is there after a loss of power. *)
Record Slot : Type := mkSlot { slot_now : option string; slot_may : list (option string) }.

Definition no_file : Slot := mkSlot None [None].

(** A rename over the path, or a removal ([None]), without a sync. *)
Definition put_slot (content : option string) (s : Slot) : Slot := mkSlot content (content :: slot_may s).

(** The directory is synced. *)
Definition sync_slot (s : Slot) : Slot := mkSlot (slot_now s) [slot_now s].

Definition replace_slot (io : Outcome) (content : string) (s : Slot) : Slot :=
  match io with
  | Unwritten => s
  | Unsynced => put_slot (Some content) s
  | Written => sync_slot (put_slot (Some content) s)
  end.
