(* ===== verification/HostFields.v ===== *)
(** * Assignments to the fields of the host messages

    [message.Field = value] for the structs of internal/sandboxhostprotocol, which the
    JSON decoder fills field by field. *)

From S2P Require Import Prelude GoTime HostProtocol.

(** [Envelope] *)
Definition set_evl_ProtocolVersion (v : string) (r : Envelope) : Envelope := let '(mkEnvelope _ x1 x2 x3 x4 x5 x6 x7 x8 x9 x10 x11 x12 x13 x14 x15 x16 x17 x18 x19 x20 x21 x22 x23 x24 x25 x26 x27 x28) := r in mkEnvelope v x1 x2 x3 x4 x5 x6 x7 x8 x9 x10 x11 x12 x13 x14 x15 x16 x17 x18 x19 x20 x21 x22 x23 x24 x25 x26 x27 x28.
Definition set_evl_EnvelopeID (v : string) (r : Envelope) : Envelope := let '(mkEnvelope x0 _ x2 x3 x4 x5 x6 x7 x8 x9 x10 x11 x12 x13 x14 x15 x16 x17 x18 x19 x20 x21 x22 x23 x24 x25 x26 x27 x28) := r in mkEnvelope x0 v x2 x3 x4 x5 x6 x7 x8 x9 x10 x11 x12 x13 x14 x15 x16 x17 x18 x19 x20 x21 x22 x23 x24 x25 x26 x27 x28.
Definition set_evl_DeliveryID (v : string) (r : Envelope) : Envelope := let '(mkEnvelope x0 x1 _ x3 x4 x5 x6 x7 x8 x9 x10 x11 x12 x13 x14 x15 x16 x17 x18 x19 x20 x21 x22 x23 x24 x25 x26 x27 x28) := r in mkEnvelope x0 x1 v x3 x4 x5 x6 x7 x8 x9 x10 x11 x12 x13 x14 x15 x16 x17 x18 x19 x20 x21 x22 x23 x24 x25 x26 x27 x28.
Definition set_evl_Nonce (v : string) (r : Envelope) : Envelope := let '(mkEnvelope x0 x1 x2 _ x4 x5 x6 x7 x8 x9 x10 x11 x12 x13 x14 x15 x16 x17 x18 x19 x20 x21 x22 x23 x24 x25 x26 x27 x28) := r in mkEnvelope x0 x1 x2 v x4 x5 x6 x7 x8 x9 x10 x11 x12 x13 x14 x15 x16 x17 x18 x19 x20 x21 x22 x23 x24 x25 x26 x27 x28.
Definition set_evl_IssuedAt (v : Time) (r : Envelope) : Envelope := let '(mkEnvelope x0 x1 x2 x3 _ x5 x6 x7 x8 x9 x10 x11 x12 x13 x14 x15 x16 x17 x18 x19 x20 x21 x22 x23 x24 x25 x26 x27 x28) := r in mkEnvelope x0 x1 x2 x3 v x5 x6 x7 x8 x9 x10 x11 x12 x13 x14 x15 x16 x17 x18 x19 x20 x21 x22 x23 x24 x25 x26 x27 x28.
Definition set_evl_ExpiresAt (v : Time) (r : Envelope) : Envelope := let '(mkEnvelope x0 x1 x2 x3 x4 _ x6 x7 x8 x9 x10 x11 x12 x13 x14 x15 x16 x17 x18 x19 x20 x21 x22 x23 x24 x25 x26 x27 x28) := r in mkEnvelope x0 x1 x2 x3 x4 v x6 x7 x8 x9 x10 x11 x12 x13 x14 x15 x16 x17 x18 x19 x20 x21 x22 x23 x24 x25 x26 x27 x28.
Definition set_evl_ControlKeyID (v : string) (r : Envelope) : Envelope := let '(mkEnvelope x0 x1 x2 x3 x4 x5 _ x7 x8 x9 x10 x11 x12 x13 x14 x15 x16 x17 x18 x19 x20 x21 x22 x23 x24 x25 x26 x27 x28) := r in mkEnvelope x0 x1 x2 x3 x4 x5 v x7 x8 x9 x10 x11 x12 x13 x14 x15 x16 x17 x18 x19 x20 x21 x22 x23 x24 x25 x26 x27 x28.
Definition set_evl_ControlKeyVersion (v : Z) (r : Envelope) : Envelope := let '(mkEnvelope x0 x1 x2 x3 x4 x5 x6 _ x8 x9 x10 x11 x12 x13 x14 x15 x16 x17 x18 x19 x20 x21 x22 x23 x24 x25 x26 x27 x28) := r in mkEnvelope x0 x1 x2 x3 x4 x5 x6 v x8 x9 x10 x11 x12 x13 x14 x15 x16 x17 x18 x19 x20 x21 x22 x23 x24 x25 x26 x27 x28.
Definition set_evl_ControlRevocationEpoch (v : Z) (r : Envelope) : Envelope := let '(mkEnvelope x0 x1 x2 x3 x4 x5 x6 x7 _ x9 x10 x11 x12 x13 x14 x15 x16 x17 x18 x19 x20 x21 x22 x23 x24 x25 x26 x27 x28) := r in mkEnvelope x0 x1 x2 x3 x4 x5 x6 x7 v x9 x10 x11 x12 x13 x14 x15 x16 x17 x18 x19 x20 x21 x22 x23 x24 x25 x26 x27 x28.
Definition set_evl_HostID (v : string) (r : Envelope) : Envelope := let '(mkEnvelope x0 x1 x2 x3 x4 x5 x6 x7 x8 _ x10 x11 x12 x13 x14 x15 x16 x17 x18 x19 x20 x21 x22 x23 x24 x25 x26 x27 x28) := r in mkEnvelope x0 x1 x2 x3 x4 x5 x6 x7 x8 v x10 x11 x12 x13 x14 x15 x16 x17 x18 x19 x20 x21 x22 x23 x24 x25 x26 x27 x28.
Definition set_evl_HostGeneration (v : Z) (r : Envelope) : Envelope := let '(mkEnvelope x0 x1 x2 x3 x4 x5 x6 x7 x8 x9 _ x11 x12 x13 x14 x15 x16 x17 x18 x19 x20 x21 x22 x23 x24 x25 x26 x27 x28) := r in mkEnvelope x0 x1 x2 x3 x4 x5 x6 x7 x8 x9 v x11 x12 x13 x14 x15 x16 x17 x18 x19 x20 x21 x22 x23 x24 x25 x26 x27 x28.
Definition set_evl_AssignmentID (v : string) (r : Envelope) : Envelope := let '(mkEnvelope x0 x1 x2 x3 x4 x5 x6 x7 x8 x9 x10 _ x12 x13 x14 x15 x16 x17 x18 x19 x20 x21 x22 x23 x24 x25 x26 x27 x28) := r in mkEnvelope x0 x1 x2 x3 x4 x5 x6 x7 x8 x9 x10 v x12 x13 x14 x15 x16 x17 x18 x19 x20 x21 x22 x23 x24 x25 x26 x27 x28.
Definition set_evl_LeaseEpoch (v : Z) (r : Envelope) : Envelope := let '(mkEnvelope x0 x1 x2 x3 x4 x5 x6 x7 x8 x9 x10 x11 _ x13 x14 x15 x16 x17 x18 x19 x20 x21 x22 x23 x24 x25 x26 x27 x28) := r in mkEnvelope x0 x1 x2 x3 x4 x5 x6 x7 x8 x9 x10 x11 v x13 x14 x15 x16 x17 x18 x19 x20 x21 x22 x23 x24 x25 x26 x27 x28.
Definition set_evl_FencingToken (v : Z) (r : Envelope) : Envelope := let '(mkEnvelope x0 x1 x2 x3 x4 x5 x6 x7 x8 x9 x10 x11 x12 _ x14 x15 x16 x17 x18 x19 x20 x21 x22 x23 x24 x25 x26 x27 x28) := r in mkEnvelope x0 x1 x2 x3 x4 x5 x6 x7 x8 x9 x10 x11 x12 v x14 x15 x16 x17 x18 x19 x20 x21 x22 x23 x24 x25 x26 x27 x28.
Definition set_evl_Tenant (v : string) (r : Envelope) : Envelope := let '(mkEnvelope x0 x1 x2 x3 x4 x5 x6 x7 x8 x9 x10 x11 x12 x13 _ x15 x16 x17 x18 x19 x20 x21 x22 x23 x24 x25 x26 x27 x28) := r in mkEnvelope x0 x1 x2 x3 x4 x5 x6 x7 x8 x9 x10 x11 x12 x13 v x15 x16 x17 x18 x19 x20 x21 x22 x23 x24 x25 x26 x27 x28.
Definition set_evl_Principal (v : string) (r : Envelope) : Envelope := let '(mkEnvelope x0 x1 x2 x3 x4 x5 x6 x7 x8 x9 x10 x11 x12 x13 x14 _ x16 x17 x18 x19 x20 x21 x22 x23 x24 x25 x26 x27 x28) := r in mkEnvelope x0 x1 x2 x3 x4 x5 x6 x7 x8 x9 x10 x11 x12 x13 x14 v x16 x17 x18 x19 x20 x21 x22 x23 x24 x25 x26 x27 x28.
Definition set_evl_SandboxID (v : string) (r : Envelope) : Envelope := let '(mkEnvelope x0 x1 x2 x3 x4 x5 x6 x7 x8 x9 x10 x11 x12 x13 x14 x15 _ x17 x18 x19 x20 x21 x22 x23 x24 x25 x26 x27 x28) := r in mkEnvelope x0 x1 x2 x3 x4 x5 x6 x7 x8 x9 x10 x11 x12 x13 x14 x15 v x17 x18 x19 x20 x21 x22 x23 x24 x25 x26 x27 x28.
Definition set_evl_ProcessID (v : string) (r : Envelope) : Envelope := let '(mkEnvelope x0 x1 x2 x3 x4 x5 x6 x7 x8 x9 x10 x11 x12 x13 x14 x15 x16 _ x18 x19 x20 x21 x22 x23 x24 x25 x26 x27 x28) := r in mkEnvelope x0 x1 x2 x3 x4 x5 x6 x7 x8 x9 x10 x11 x12 x13 x14 x15 x16 v x18 x19 x20 x21 x22 x23 x24 x25 x26 x27 x28.
Definition set_evl_VolumeID (v : string) (r : Envelope) : Envelope := let '(mkEnvelope x0 x1 x2 x3 x4 x5 x6 x7 x8 x9 x10 x11 x12 x13 x14 x15 x16 x17 _ x19 x20 x21 x22 x23 x24 x25 x26 x27 x28) := r in mkEnvelope x0 x1 x2 x3 x4 x5 x6 x7 x8 x9 x10 x11 x12 x13 x14 x15 x16 x17 v x19 x20 x21 x22 x23 x24 x25 x26 x27 x28.
Definition set_evl_SnapshotID (v : string) (r : Envelope) : Envelope := let '(mkEnvelope x0 x1 x2 x3 x4 x5 x6 x7 x8 x9 x10 x11 x12 x13 x14 x15 x16 x17 x18 _ x20 x21 x22 x23 x24 x25 x26 x27 x28) := r in mkEnvelope x0 x1 x2 x3 x4 x5 x6 x7 x8 x9 x10 x11 x12 x13 x14 x15 x16 x17 x18 v x20 x21 x22 x23 x24 x25 x26 x27 x28.
Definition set_evl_OperationID (v : string) (r : Envelope) : Envelope := let '(mkEnvelope x0 x1 x2 x3 x4 x5 x6 x7 x8 x9 x10 x11 x12 x13 x14 x15 x16 x17 x18 x19 _ x21 x22 x23 x24 x25 x26 x27 x28) := r in mkEnvelope x0 x1 x2 x3 x4 x5 x6 x7 x8 x9 x10 x11 x12 x13 x14 x15 x16 x17 x18 x19 v x21 x22 x23 x24 x25 x26 x27 x28.
Definition set_evl_OperationKind (v : string) (r : Envelope) : Envelope := let '(mkEnvelope x0 x1 x2 x3 x4 x5 x6 x7 x8 x9 x10 x11 x12 x13 x14 x15 x16 x17 x18 x19 x20 _ x22 x23 x24 x25 x26 x27 x28) := r in mkEnvelope x0 x1 x2 x3 x4 x5 x6 x7 x8 x9 x10 x11 x12 x13 x14 x15 x16 x17 x18 x19 x20 v x22 x23 x24 x25 x26 x27 x28.
Definition set_evl_EffectiveSpecDigest (v : string) (r : Envelope) : Envelope := let '(mkEnvelope x0 x1 x2 x3 x4 x5 x6 x7 x8 x9 x10 x11 x12 x13 x14 x15 x16 x17 x18 x19 x20 x21 _ x23 x24 x25 x26 x27 x28) := r in mkEnvelope x0 x1 x2 x3 x4 x5 x6 x7 x8 x9 x10 x11 x12 x13 x14 x15 x16 x17 x18 x19 x20 x21 v x23 x24 x25 x26 x27 x28.
Definition set_evl_CapabilityDigest (v : string) (r : Envelope) : Envelope := let '(mkEnvelope x0 x1 x2 x3 x4 x5 x6 x7 x8 x9 x10 x11 x12 x13 x14 x15 x16 x17 x18 x19 x20 x21 x22 _ x24 x25 x26 x27 x28) := r in mkEnvelope x0 x1 x2 x3 x4 x5 x6 x7 x8 x9 x10 x11 x12 x13 x14 x15 x16 x17 x18 x19 x20 x21 x22 v x24 x25 x26 x27 x28.
Definition set_evl_CanonicalRequestDigest (v : string) (r : Envelope) : Envelope := let '(mkEnvelope x0 x1 x2 x3 x4 x5 x6 x7 x8 x9 x10 x11 x12 x13 x14 x15 x16 x17 x18 x19 x20 x21 x22 x23 _ x25 x26 x27 x28) := r in mkEnvelope x0 x1 x2 x3 x4 x5 x6 x7 x8 x9 x10 x11 x12 x13 x14 x15 x16 x17 x18 x19 x20 x21 x22 x23 v x25 x26 x27 x28.
Definition set_evl_SequenceContract (v : string) (r : Envelope) : Envelope := let '(mkEnvelope x0 x1 x2 x3 x4 x5 x6 x7 x8 x9 x10 x11 x12 x13 x14 x15 x16 x17 x18 x19 x20 x21 x22 x23 x24 _ x26 x27 x28) := r in mkEnvelope x0 x1 x2 x3 x4 x5 x6 x7 x8 x9 x10 x11 x12 x13 x14 x15 x16 x17 x18 x19 x20 x21 x22 x23 x24 v x26 x27 x28.
Definition set_evl_PayloadDigest (v : string) (r : Envelope) : Envelope := let '(mkEnvelope x0 x1 x2 x3 x4 x5 x6 x7 x8 x9 x10 x11 x12 x13 x14 x15 x16 x17 x18 x19 x20 x21 x22 x23 x24 x25 _ x27 x28) := r in mkEnvelope x0 x1 x2 x3 x4 x5 x6 x7 x8 x9 x10 x11 x12 x13 x14 x15 x16 x17 x18 x19 x20 x21 x22 x23 x24 x25 v x27 x28.
Definition set_evl_Payload (v : string) (r : Envelope) : Envelope := let '(mkEnvelope x0 x1 x2 x3 x4 x5 x6 x7 x8 x9 x10 x11 x12 x13 x14 x15 x16 x17 x18 x19 x20 x21 x22 x23 x24 x25 x26 _ x28) := r in mkEnvelope x0 x1 x2 x3 x4 x5 x6 x7 x8 x9 x10 x11 x12 x13 x14 x15 x16 x17 x18 x19 x20 x21 x22 x23 x24 x25 x26 v x28.
Definition set_evl_Signature (v : string) (r : Envelope) : Envelope := let '(mkEnvelope x0 x1 x2 x3 x4 x5 x6 x7 x8 x9 x10 x11 x12 x13 x14 x15 x16 x17 x18 x19 x20 x21 x22 x23 x24 x25 x26 x27 _) := r in mkEnvelope x0 x1 x2 x3 x4 x5 x6 x7 x8 x9 x10 x11 x12 x13 x14 x15 x16 x17 x18 x19 x20 x21 x22 x23 x24 x25 x26 x27 v.

(** [FailureObservation] *)
Definition set_fob_Code (v : string) (r : FailureObservation) : FailureObservation := let '(mkFailureObservation _ x1) := r in mkFailureObservation v x1.
Definition set_fob_Retry (v : string) (r : FailureObservation) : FailureObservation := let '(mkFailureObservation x0 _) := r in mkFailureObservation x0 v.

(** [SandboxObservation] *)
Definition set_sob_ID (v : string) (r : SandboxObservation) : SandboxObservation := let '(mkSandboxObservation _ x1 x2) := r in mkSandboxObservation v x1 x2.
Definition set_sob_ActualState (v : string) (r : SandboxObservation) : SandboxObservation := let '(mkSandboxObservation x0 _ x2) := r in mkSandboxObservation x0 v x2.
Definition set_sob_Failure (v : option FailureObservation) (r : SandboxObservation) : SandboxObservation := let '(mkSandboxObservation x0 x1 _) := r in mkSandboxObservation x0 x1 v.

(** [ResourceUsage] *)
Definition set_rus_CPUTimeMillis (v : Z) (r : ResourceUsage) : ResourceUsage := let '(mkResourceUsage _ x1 x2 x3) := r in mkResourceUsage v x1 x2 x3.
Definition set_rus_PeakMemoryBytes (v : Z) (r : ResourceUsage) : ResourceUsage := let '(mkResourceUsage x0 _ x2 x3) := r in mkResourceUsage x0 v x2 x3.
Definition set_rus_ReadBytes (v : Z) (r : ResourceUsage) : ResourceUsage := let '(mkResourceUsage x0 x1 _ x3) := r in mkResourceUsage x0 x1 v x3.
Definition set_rus_WrittenBytes (v : Z) (r : ResourceUsage) : ResourceUsage := let '(mkResourceUsage x0 x1 x2 _) := r in mkResourceUsage x0 x1 x2 v.

(** [ProcessResult] *)
Definition set_prs_StartedAt (v : Time) (r : ProcessResult) : ProcessResult := let '(mkProcessResult _ x1 x2 x3 x4 x5 x6) := r in mkProcessResult v x1 x2 x3 x4 x5 x6.
Definition set_prs_FinishedAt (v : Time) (r : ProcessResult) : ProcessResult := let '(mkProcessResult x0 _ x2 x3 x4 x5 x6) := r in mkProcessResult x0 v x2 x3 x4 x5 x6.
Definition set_prs_ExitCode (v : option Z) (r : ProcessResult) : ProcessResult := let '(mkProcessResult x0 x1 _ x3 x4 x5 x6) := r in mkProcessResult x0 x1 v x3 x4 x5 x6.
Definition set_prs_Signal (v : string) (r : ProcessResult) : ProcessResult := let '(mkProcessResult x0 x1 x2 _ x4 x5 x6) := r in mkProcessResult x0 x1 x2 v x4 x5 x6.
Definition set_prs_Reason (v : string) (r : ProcessResult) : ProcessResult := let '(mkProcessResult x0 x1 x2 x3 _ x5 x6) := r in mkProcessResult x0 x1 x2 x3 v x5 x6.
Definition set_prs_Usage (v : ResourceUsage) (r : ProcessResult) : ProcessResult := let '(mkProcessResult x0 x1 x2 x3 x4 _ x6) := r in mkProcessResult x0 x1 x2 x3 x4 v x6.
Definition set_prs_Cleanup (v : string) (r : ProcessResult) : ProcessResult := let '(mkProcessResult x0 x1 x2 x3 x4 x5 _) := r in mkProcessResult x0 x1 x2 x3 x4 x5 v.

(** [OutputRetention] *)
Definition set_ore_EarliestCursor (v : string) (r : OutputRetention) : OutputRetention := let '(mkOutputRetention _ x1 x2) := r in mkOutputRetention v x1 x2.
Definition set_ore_RetainedBytes (v : Z) (r : OutputRetention) : OutputRetention := let '(mkOutputRetention x0 _ x2) := r in mkOutputRetention x0 v x2.
Definition set_ore_Truncated (v : bool) (r : OutputRetention) : OutputRetention := let '(mkOutputRetention x0 x1 _) := r in mkOutputRetention x0 x1 v.

(** [ProcessObservation] *)
Definition set_pob_ID (v : string) (r : ProcessObservation) : ProcessObservation := let '(mkProcessObservation _ x1 x2 x3 x4 x5) := r in mkProcessObservation v x1 x2 x3 x4 x5.
Definition set_pob_SandboxID (v : string) (r : ProcessObservation) : ProcessObservation := let '(mkProcessObservation x0 _ x2 x3 x4 x5) := r in mkProcessObservation x0 v x2 x3 x4 x5.
Definition set_pob_State (v : string) (r : ProcessObservation) : ProcessObservation := let '(mkProcessObservation x0 x1 _ x3 x4 x5) := r in mkProcessObservation x0 x1 v x3 x4 x5.
Definition set_pob_Result (v : option ProcessResult) (r : ProcessObservation) : ProcessObservation := let '(mkProcessObservation x0 x1 x2 _ x4 x5) := r in mkProcessObservation x0 x1 x2 v x4 x5.
Definition set_pob_Stdout (v : OutputRetention) (r : ProcessObservation) : ProcessObservation := let '(mkProcessObservation x0 x1 x2 x3 _ x5) := r in mkProcessObservation x0 x1 x2 x3 v x5.
Definition set_pob_Stderr (v : OutputRetention) (r : ProcessObservation) : ProcessObservation := let '(mkProcessObservation x0 x1 x2 x3 x4 _) := r in mkProcessObservation x0 x1 x2 x3 x4 v.

(** [Observation] *)
Definition set_obs_Sandbox (v : SandboxObservation) (r : Observation) : Observation := let '(mkObservation _ x1) := r in mkObservation v x1.
Definition set_obs_Process (v : option ProcessObservation) (r : Observation) : Observation := let '(mkObservation x0 _) := r in mkObservation x0 v.

(** [Result] *)
Definition set_hms_ProtocolVersion (v : string) (r : Result) : Result := let '(mkHostMessage _ x1 x2 x3 x4 x5 x6 x7 x8 x9 x10 x11 x12 x13 x14) := r in mkHostMessage v x1 x2 x3 x4 x5 x6 x7 x8 x9 x10 x11 x12 x13 x14.
Definition set_hms_ResultID (v : string) (r : Result) : Result := let '(mkHostMessage x0 _ x2 x3 x4 x5 x6 x7 x8 x9 x10 x11 x12 x13 x14) := r in mkHostMessage x0 v x2 x3 x4 x5 x6 x7 x8 x9 x10 x11 x12 x13 x14.
Definition set_hms_HostID (v : string) (r : Result) : Result := let '(mkHostMessage x0 x1 _ x3 x4 x5 x6 x7 x8 x9 x10 x11 x12 x13 x14) := r in mkHostMessage x0 x1 v x3 x4 x5 x6 x7 x8 x9 x10 x11 x12 x13 x14.
Definition set_hms_HostGeneration (v : Z) (r : Result) : Result := let '(mkHostMessage x0 x1 x2 _ x4 x5 x6 x7 x8 x9 x10 x11 x12 x13 x14) := r in mkHostMessage x0 x1 x2 v x4 x5 x6 x7 x8 x9 x10 x11 x12 x13 x14.
Definition set_hms_AssignmentID (v : string) (r : Result) : Result := let '(mkHostMessage x0 x1 x2 x3 _ x5 x6 x7 x8 x9 x10 x11 x12 x13 x14) := r in mkHostMessage x0 x1 x2 x3 v x5 x6 x7 x8 x9 x10 x11 x12 x13 x14.
Definition set_hms_LeaseEpoch (v : Z) (r : Result) : Result := let '(mkHostMessage x0 x1 x2 x3 x4 _ x6 x7 x8 x9 x10 x11 x12 x13 x14) := r in mkHostMessage x0 x1 x2 x3 x4 v x6 x7 x8 x9 x10 x11 x12 x13 x14.
Definition set_hms_FencingToken (v : Z) (r : Result) : Result := let '(mkHostMessage x0 x1 x2 x3 x4 x5 _ x7 x8 x9 x10 x11 x12 x13 x14) := r in mkHostMessage x0 x1 x2 x3 x4 x5 v x7 x8 x9 x10 x11 x12 x13 x14.
Definition set_hms_Principal (v : string) (r : Result) : Result := let '(mkHostMessage x0 x1 x2 x3 x4 x5 x6 _ x8 x9 x10 x11 x12 x13 x14) := r in mkHostMessage x0 x1 x2 x3 x4 x5 x6 v x8 x9 x10 x11 x12 x13 x14.
Definition set_hms_OperationID (v : string) (r : Result) : Result := let '(mkHostMessage x0 x1 x2 x3 x4 x5 x6 x7 _ x9 x10 x11 x12 x13 x14) := r in mkHostMessage x0 x1 x2 x3 x4 x5 x6 x7 v x9 x10 x11 x12 x13 x14.
Definition set_hms_EffectiveSpecDigest (v : string) (r : Result) : Result := let '(mkHostMessage x0 x1 x2 x3 x4 x5 x6 x7 x8 _ x10 x11 x12 x13 x14) := r in mkHostMessage x0 x1 x2 x3 x4 x5 x6 x7 x8 v x10 x11 x12 x13 x14.
Definition set_hms_CapabilityDigest (v : string) (r : Result) : Result := let '(mkHostMessage x0 x1 x2 x3 x4 x5 x6 x7 x8 x9 _ x11 x12 x13 x14) := r in mkHostMessage x0 x1 x2 x3 x4 x5 x6 x7 x8 x9 v x11 x12 x13 x14.
Definition set_hms_State (v : string) (r : Result) : Result := let '(mkHostMessage x0 x1 x2 x3 x4 x5 x6 x7 x8 x9 x10 _ x12 x13 x14) := r in mkHostMessage x0 x1 x2 x3 x4 x5 x6 x7 x8 x9 x10 v x12 x13 x14.
Definition set_hms_ObservedAt (v : Time) (r : Result) : Result := let '(mkHostMessage x0 x1 x2 x3 x4 x5 x6 x7 x8 x9 x10 x11 _ x13 x14) := r in mkHostMessage x0 x1 x2 x3 x4 x5 x6 x7 x8 x9 x10 x11 v x13 x14.
Definition set_hms_Observation (v : option Observation) (r : Result) : Result := let '(mkHostMessage x0 x1 x2 x3 x4 x5 x6 x7 x8 x9 x10 x11 x12 _ x14) := r in mkHostMessage x0 x1 x2 x3 x4 x5 x6 x7 x8 x9 x10 x11 x12 v x14.
Definition set_hms_Signature (v : string) (r : Result) : Result := let '(mkHostMessage x0 x1 x2 x3 x4 x5 x6 x7 x8 x9 x10 x11 x12 x13 _) := r in mkHostMessage x0 x1 x2 x3 x4 x5 x6 x7 x8 x9 x10 x11 x12 x13 v.

(** [Output] *)
Definition set_oup_ProtocolVersion (v : string) (r : Output) : Output := let '(mkOutput _ x1 x2 x3 x4 x5 x6 x7 x8 x9 x10 x11 x12 x13 x14 x15 x16) := r in mkOutput v x1 x2 x3 x4 x5 x6 x7 x8 x9 x10 x11 x12 x13 x14 x15 x16.
Definition set_oup_OutputID (v : string) (r : Output) : Output := let '(mkOutput x0 _ x2 x3 x4 x5 x6 x7 x8 x9 x10 x11 x12 x13 x14 x15 x16) := r in mkOutput x0 v x2 x3 x4 x5 x6 x7 x8 x9 x10 x11 x12 x13 x14 x15 x16.
Definition set_oup_HostID (v : string) (r : Output) : Output := let '(mkOutput x0 x1 _ x3 x4 x5 x6 x7 x8 x9 x10 x11 x12 x13 x14 x15 x16) := r in mkOutput x0 x1 v x3 x4 x5 x6 x7 x8 x9 x10 x11 x12 x13 x14 x15 x16.
Definition set_oup_HostGeneration (v : Z) (r : Output) : Output := let '(mkOutput x0 x1 x2 _ x4 x5 x6 x7 x8 x9 x10 x11 x12 x13 x14 x15 x16) := r in mkOutput x0 x1 x2 v x4 x5 x6 x7 x8 x9 x10 x11 x12 x13 x14 x15 x16.
Definition set_oup_AssignmentID (v : string) (r : Output) : Output := let '(mkOutput x0 x1 x2 x3 _ x5 x6 x7 x8 x9 x10 x11 x12 x13 x14 x15 x16) := r in mkOutput x0 x1 x2 x3 v x5 x6 x7 x8 x9 x10 x11 x12 x13 x14 x15 x16.
Definition set_oup_LeaseEpoch (v : Z) (r : Output) : Output := let '(mkOutput x0 x1 x2 x3 x4 _ x6 x7 x8 x9 x10 x11 x12 x13 x14 x15 x16) := r in mkOutput x0 x1 x2 x3 x4 v x6 x7 x8 x9 x10 x11 x12 x13 x14 x15 x16.
Definition set_oup_FencingToken (v : Z) (r : Output) : Output := let '(mkOutput x0 x1 x2 x3 x4 x5 _ x7 x8 x9 x10 x11 x12 x13 x14 x15 x16) := r in mkOutput x0 x1 x2 x3 x4 x5 v x7 x8 x9 x10 x11 x12 x13 x14 x15 x16.
Definition set_oup_Principal (v : string) (r : Output) : Output := let '(mkOutput x0 x1 x2 x3 x4 x5 x6 _ x8 x9 x10 x11 x12 x13 x14 x15 x16) := r in mkOutput x0 x1 x2 x3 x4 x5 x6 v x8 x9 x10 x11 x12 x13 x14 x15 x16.
Definition set_oup_OperationID (v : string) (r : Output) : Output := let '(mkOutput x0 x1 x2 x3 x4 x5 x6 x7 _ x9 x10 x11 x12 x13 x14 x15 x16) := r in mkOutput x0 x1 x2 x3 x4 x5 x6 x7 v x9 x10 x11 x12 x13 x14 x15 x16.
Definition set_oup_Stream (v : string) (r : Output) : Output := let '(mkOutput x0 x1 x2 x3 x4 x5 x6 x7 x8 _ x10 x11 x12 x13 x14 x15 x16) := r in mkOutput x0 x1 x2 x3 x4 x5 x6 x7 x8 v x10 x11 x12 x13 x14 x15 x16.
Definition set_oup_Sequence (v : Z) (r : Output) : Output := let '(mkOutput x0 x1 x2 x3 x4 x5 x6 x7 x8 x9 _ x11 x12 x13 x14 x15 x16) := r in mkOutput x0 x1 x2 x3 x4 x5 x6 x7 x8 x9 v x11 x12 x13 x14 x15 x16.
Definition set_oup_ChunkDigest (v : string) (r : Output) : Output := let '(mkOutput x0 x1 x2 x3 x4 x5 x6 x7 x8 x9 x10 _ x12 x13 x14 x15 x16) := r in mkOutput x0 x1 x2 x3 x4 x5 x6 x7 x8 x9 x10 v x12 x13 x14 x15 x16.
Definition set_oup_SizeBytes (v : Z) (r : Output) : Output := let '(mkOutput x0 x1 x2 x3 x4 x5 x6 x7 x8 x9 x10 x11 _ x13 x14 x15 x16) := r in mkOutput x0 x1 x2 x3 x4 x5 x6 x7 x8 x9 x10 x11 v x13 x14 x15 x16.
Definition set_oup_Bytes (v : option string) (r : Output) : Output := let '(mkOutput x0 x1 x2 x3 x4 x5 x6 x7 x8 x9 x10 x11 x12 _ x14 x15 x16) := r in mkOutput x0 x1 x2 x3 x4 x5 x6 x7 x8 x9 x10 x11 x12 v x14 x15 x16.
Definition set_oup_Redacted (v : bool) (r : Output) : Output := let '(mkOutput x0 x1 x2 x3 x4 x5 x6 x7 x8 x9 x10 x11 x12 x13 _ x15 x16) := r in mkOutput x0 x1 x2 x3 x4 x5 x6 x7 x8 x9 x10 x11 x12 x13 v x15 x16.
Definition set_oup_ObservedAt (v : Time) (r : Output) : Output := let '(mkOutput x0 x1 x2 x3 x4 x5 x6 x7 x8 x9 x10 x11 x12 x13 x14 _ x16) := r in mkOutput x0 x1 x2 x3 x4 x5 x6 x7 x8 x9 x10 x11 x12 x13 x14 v x16.
Definition set_oup_Signature (v : string) (r : Output) : Output := let '(mkOutput x0 x1 x2 x3 x4 x5 x6 x7 x8 x9 x10 x11 x12 x13 x14 x15 _) := r in mkOutput x0 x1 x2 x3 x4 x5 x6 x7 x8 x9 x10 x11 x12 x13 x14 x15 v.

(** [DataPlaneReceipt] *)
Definition set_dpr_ProtocolVersion (v : string) (r : DataPlaneReceipt) : DataPlaneReceipt := let '(mkDataPlaneReceipt _ x1 x2 x3 x4 x5 x6 x7 x8 x9 x10) := r in mkDataPlaneReceipt v x1 x2 x3 x4 x5 x6 x7 x8 x9 x10.
Definition set_dpr_ReceiptID (v : string) (r : DataPlaneReceipt) : DataPlaneReceipt := let '(mkDataPlaneReceipt x0 _ x2 x3 x4 x5 x6 x7 x8 x9 x10) := r in mkDataPlaneReceipt x0 v x2 x3 x4 x5 x6 x7 x8 x9 x10.
Definition set_dpr_HostID (v : string) (r : DataPlaneReceipt) : DataPlaneReceipt := let '(mkDataPlaneReceipt x0 x1 _ x3 x4 x5 x6 x7 x8 x9 x10) := r in mkDataPlaneReceipt x0 x1 v x3 x4 x5 x6 x7 x8 x9 x10.
Definition set_dpr_HostGeneration (v : Z) (r : DataPlaneReceipt) : DataPlaneReceipt := let '(mkDataPlaneReceipt x0 x1 x2 _ x4 x5 x6 x7 x8 x9 x10) := r in mkDataPlaneReceipt x0 x1 x2 v x4 x5 x6 x7 x8 x9 x10.
Definition set_dpr_AssignmentID (v : string) (r : DataPlaneReceipt) : DataPlaneReceipt := let '(mkDataPlaneReceipt x0 x1 x2 x3 _ x5 x6 x7 x8 x9 x10) := r in mkDataPlaneReceipt x0 x1 x2 x3 v x5 x6 x7 x8 x9 x10.
Definition set_dpr_LeaseEpoch (v : Z) (r : DataPlaneReceipt) : DataPlaneReceipt := let '(mkDataPlaneReceipt x0 x1 x2 x3 x4 _ x6 x7 x8 x9 x10) := r in mkDataPlaneReceipt x0 x1 x2 x3 x4 v x6 x7 x8 x9 x10.
Definition set_dpr_FencingToken (v : Z) (r : DataPlaneReceipt) : DataPlaneReceipt := let '(mkDataPlaneReceipt x0 x1 x2 x3 x4 x5 _ x7 x8 x9 x10) := r in mkDataPlaneReceipt x0 x1 x2 x3 x4 x5 v x7 x8 x9 x10.
Definition set_dpr_OperationID (v : string) (r : DataPlaneReceipt) : DataPlaneReceipt := let '(mkDataPlaneReceipt x0 x1 x2 x3 x4 x5 x6 _ x8 x9 x10) := r in mkDataPlaneReceipt x0 x1 x2 x3 x4 x5 x6 v x8 x9 x10.
Definition set_dpr_Kind (v : string) (r : DataPlaneReceipt) : DataPlaneReceipt := let '(mkDataPlaneReceipt x0 x1 x2 x3 x4 x5 x6 x7 _ x9 x10) := r in mkDataPlaneReceipt x0 x1 x2 x3 x4 x5 x6 x7 v x9 x10.
Definition set_dpr_ReceiptDigest (v : string) (r : DataPlaneReceipt) : DataPlaneReceipt := let '(mkDataPlaneReceipt x0 x1 x2 x3 x4 x5 x6 x7 x8 _ x10) := r in mkDataPlaneReceipt x0 x1 x2 x3 x4 x5 x6 x7 x8 v x10.
Definition set_dpr_Signature (v : string) (r : DataPlaneReceipt) : DataPlaneReceipt := let '(mkDataPlaneReceipt x0 x1 x2 x3 x4 x5 x6 x7 x8 x9 _) := r in mkDataPlaneReceipt x0 x1 x2 x3 x4 x5 x6 x7 x8 x9 v.
