(* ===== verification/HostWire.v ===== *)
(** * Host messages on the wire

    internal/sandboxhostprotocol/protocol.go: how envelopes, results, outputs and
    data-plane receipts are validated, encoded, signed and verified.  The four kinds of
    message share one discipline ([WireMessage]); Ed25519 is a parameter ([Ed25519]). *)

From Stdlib Require Import Ascii String.
From S2P Require Import Prelude GoString Sha256 GoTime GoJson GoJsonText GoDecode TimeText HostProtocol HostFields.

Open Scope Z_scope.

Definition maxWireBytes : Z := 2 ^ 20.
Definition maxPayloadLen : Z := 768 * 2 ^ 10.

(** ** crypto/ed25519 *)

Class Ed25519 : Type := {
  public_of : string -> string;
  ed25519_sign : string -> string -> string;
  ed25519_verify : string -> string -> string -> bool
}.

Definition PublicKeySize : Z := 32.
Definition PrivateKeySize : Z := 64.
Definition SignatureSize : Z := 64.

(** A private key is a seed and the public key: [privateKey.Public()]. *)
Definition Public (privateKey : string) : string := drop_bytes 32 privateKey.

(** ** base64.RawURLEncoding *)

Definition url_alphabet : list Z := bytes "ABCDEFGHIJKLMNOPQRSTUVWXYZabcdefghijklmnopqrstuvwxyz0123456789-_".
Definition url_digit (n : Z) : Z := nth (Z.to_nat n) url_alphabet 0.

Fixpoint url_encode (l : list Z) : list Z :=
  match l with
  | [] => []
  | [a] => [url_digit (a / 4); url_digit (a mod 4 * 16)]
  | [a; b] => [url_digit (a / 4); url_digit (a mod 4 * 16 + b / 16); url_digit (b mod 16 * 4)]
  | a :: b :: c :: l =>
    url_digit (a / 4) :: url_digit (a mod 4 * 16 + b / 16) :: url_digit (b mod 16 * 4 + c / 64) :: url_digit (c mod 64) :: url_encode l
  end.

Definition url_value (c : Z) : option Z :=
  if is_upper c then Some (c - 65)
  else if is_lower c then Some (c - 71)
  else if is_digit c then Some (c + 4)
  else if c =? 45 then Some 62
  else if c =? 95 then Some 63
  else None.

(** An encoding without padding; bits beyond the last byte are ignored. *)
Definition raw_groups (value : Z -> option Z) : list Z -> option (list Z) :=
  fix go l :=
    match l with
    | [] => Some []
    | [a; b] => x ← value a; y ← value b; Some [x * 4 + y / 16]
    | [a; b; c] => x ← value a; y ← value b; z ← value c; Some [x * 4 + y / 16; y mod 16 * 16 + z / 4]
    | a :: b :: c :: d :: rest =>
      x ← value a;
      y ← value b;
      z ← value c;
      t ← value d;
      tail ← go rest;
      Some (x * 4 + y / 16 :: y mod 16 * 16 + z / 4 :: z mod 4 * 64 + t :: tail)
    | _ => None
    end.

Definition line_end (c : Z) : bool := (c =? 10) || (c =? 13).
Definition url_decode (l : list Z) : option (list Z) := raw_groups url_value (List.filter (fun c => negb (line_end c)) l).

Definition EncodeToString (s : string) : string := of_bytes (url_encode (bytes s)).
Definition DecodeString (s : string) : option string := of_bytes <$> url_decode (bytes s).

(** ** Encoding *)

Definition json_Envelope (r : Envelope) : jval :=
  JObj [("protocol_version", JStr (evl_ProtocolVersion r)); ("envelope_id", JStr (evl_EnvelopeID r)); ("delivery_id", JStr (evl_DeliveryID r));
        ("nonce", JStr (evl_Nonce r)); ("issued_at", json_time (evl_IssuedAt r)); ("expires_at", json_time (evl_ExpiresAt r));
        ("control_key_id", JStr (evl_ControlKeyID r)); ("control_key_version", JNum (evl_ControlKeyVersion r));
        ("control_revocation_epoch", JNum (evl_ControlRevocationEpoch r)); ("host_id", JStr (evl_HostID r));
        ("host_generation", JNum (evl_HostGeneration r)); ("assignment_id", JStr (evl_AssignmentID r)); ("lease_epoch", JNum (evl_LeaseEpoch r));
        ("fencing_token", JNum (evl_FencingToken r)); ("tenant", JStr (evl_Tenant r)); ("principal", JStr (evl_Principal r));
        ("sandbox_id", JStr (evl_SandboxID r)); ("process_id", JStr (evl_ProcessID r)); ("volume_id", JStr (evl_VolumeID r));
        ("snapshot_id", JStr (evl_SnapshotID r)); ("operation_id", JStr (evl_OperationID r)); ("operation_kind", JStr (evl_OperationKind r));
        ("effective_spec_digest", JStr (evl_EffectiveSpecDigest r)); ("capability_digest", JStr (evl_CapabilityDigest r));
        ("canonical_request_digest", JStr (evl_CanonicalRequestDigest r)); ("sequence_contract", JStr (evl_SequenceContract r));
        ("payload_digest", JStr (evl_PayloadDigest r)); ("payload", json_bytes (Some (evl_Payload r))); ("signature", JStr (evl_Signature r))].

Definition json_Output (r : Output) : jval :=
  JObj [("protocol_version", JStr (oup_ProtocolVersion r)); ("output_id", JStr (oup_OutputID r)); ("host_id", JStr (oup_HostID r));
        ("host_generation", JNum (oup_HostGeneration r)); ("assignment_id", JStr (oup_AssignmentID r)); ("lease_epoch", JNum (oup_LeaseEpoch r));
        ("fencing_token", JNum (oup_FencingToken r)); ("principal", JStr (oup_Principal r)); ("operation_id", JStr (oup_OperationID r));
        ("stream", JStr (oup_Stream r)); ("sequence", JNum (oup_Sequence r)); ("chunk_digest", JStr (oup_ChunkDigest r));
        ("size_bytes", JNum (oup_SizeBytes r)); ("chunk", json_bytes (oup_Bytes r)); ("redacted", JBool (oup_Redacted r));
        ("observed_at", json_time (oup_ObservedAt r)); ("signature", JStr (oup_Signature r))].

Definition json_DataPlaneReceipt (r : DataPlaneReceipt) : jval :=
  JObj [("protocol_version", JStr (dpr_ProtocolVersion r)); ("receipt_id", JStr (dpr_ReceiptID r)); ("host_id", JStr (dpr_HostID r));
        ("host_generation", JNum (dpr_HostGeneration r)); ("assignment_id", JStr (dpr_AssignmentID r)); ("lease_epoch", JNum (dpr_LeaseEpoch r));
        ("fencing_token", JNum (dpr_FencingToken r)); ("operation_id", JStr (dpr_OperationID r)); ("kind", JStr (dpr_Kind r));
        ("receipt_digest", JStr (dpr_ReceiptDigest r)); ("signature", JStr (dpr_Signature r))].

(** ** Decoding *)

(** The payload of a valid envelope is not empty, so nil need not be told apart. *)
Definition dec_payload : decoder string := fun old d => default "" <$> dec_bytes (Some old) d.

Definition dec_uint32 : decoder Z := fun old d =>
  match d with DNull => Some old | DNum text => n ← ParseUint64 text; if n <=? 2 ^ 32 - 1 then Some n else None | _ => None end.

(** [strconv.ParseInt(s, 10, 64)] and the range of int32. *)
Definition dec_int32 : decoder Z := fun old d =>
  match d with
  | DNull => Some old
  | DNum (45 :: text) => n ← ParseUint64 text; if n <=? 2 ^ 31 then Some (- n) else None
  | DNum text => n ← ParseUint64 text; if n <=? 2 ^ 31 - 1 then Some n else None
  | _ => None
  end.

Definition zeroFailure : FailureObservation := mkFailureObservation "" "".
Definition zeroSandbox : SandboxObservation := mkSandboxObservation "" "" None.
Definition zeroUsage : ResourceUsage := mkResourceUsage 0 0 0 0.
Definition zeroProcessResult : ProcessResult := mkProcessResult zeroTime zeroTime None "" "" zeroUsage "".
Definition zeroRetention : OutputRetention := mkOutputRetention "" 0 false.
Definition zeroProcess : ProcessObservation := mkProcessObservation "" "" "" None zeroRetention zeroRetention.
Definition zeroObservation : Observation := mkObservation zeroSandbox None.
Definition zeroEnvelope : Envelope :=
  mkEnvelope "" "" "" "" zeroTime zeroTime "" 0 0 "" 0 "" 0 0 "" "" "" "" "" "" "" "" "" "" "" "" "" "" "".
Definition zeroResult : Result := mkHostMessage "" "" "" 0 "" 0 0 "" "" "" "" "" zeroTime None "".
Definition zeroOutput : Output := mkOutput "" "" "" 0 "" 0 0 "" "" "" 0 "" 0 None false zeroTime "".
Definition zeroReceipt : DataPlaneReceipt := mkDataPlaneReceipt "" "" "" 0 "" 0 0 "" "" "" "".

Definition envelope_fields : list (field Envelope) :=
  [field_of "protocol_version" dec_string evl_ProtocolVersion set_evl_ProtocolVersion;
   field_of "envelope_id" dec_string evl_EnvelopeID set_evl_EnvelopeID; field_of "delivery_id" dec_string evl_DeliveryID set_evl_DeliveryID;
   field_of "nonce" dec_string evl_Nonce set_evl_Nonce; field_of "issued_at" dec_time evl_IssuedAt set_evl_IssuedAt;
   field_of "expires_at" dec_time evl_ExpiresAt set_evl_ExpiresAt; field_of "control_key_id" dec_string evl_ControlKeyID set_evl_ControlKeyID;
   field_of "control_key_version" dec_uint64 evl_ControlKeyVersion set_evl_ControlKeyVersion;
   field_of "control_revocation_epoch" dec_uint64 evl_ControlRevocationEpoch set_evl_ControlRevocationEpoch;
   field_of "host_id" dec_string evl_HostID set_evl_HostID; field_of "host_generation" dec_uint64 evl_HostGeneration set_evl_HostGeneration;
   field_of "assignment_id" dec_string evl_AssignmentID set_evl_AssignmentID; field_of "lease_epoch" dec_uint64 evl_LeaseEpoch set_evl_LeaseEpoch;
   field_of "fencing_token" dec_uint64 evl_FencingToken set_evl_FencingToken; field_of "tenant" dec_string evl_Tenant set_evl_Tenant;
   field_of "principal" dec_string evl_Principal set_evl_Principal; field_of "sandbox_id" dec_string evl_SandboxID set_evl_SandboxID;
   field_of "process_id" dec_string evl_ProcessID set_evl_ProcessID; field_of "volume_id" dec_string evl_VolumeID set_evl_VolumeID;
   field_of "snapshot_id" dec_string evl_SnapshotID set_evl_SnapshotID; field_of "operation_id" dec_string evl_OperationID set_evl_OperationID;
   field_of "operation_kind" dec_string evl_OperationKind set_evl_OperationKind;
   field_of "effective_spec_digest" dec_string evl_EffectiveSpecDigest set_evl_EffectiveSpecDigest;
   field_of "capability_digest" dec_string evl_CapabilityDigest set_evl_CapabilityDigest;
   field_of "canonical_request_digest" dec_string evl_CanonicalRequestDigest set_evl_CanonicalRequestDigest;
   field_of "sequence_contract" dec_string evl_SequenceContract set_evl_SequenceContract;
   field_of "payload_digest" dec_string evl_PayloadDigest set_evl_PayloadDigest; field_of "payload" dec_payload evl_Payload set_evl_Payload;
   field_of "signature" dec_string evl_Signature set_evl_Signature].

Definition failure_fields : list (field FailureObservation) :=
  [field_of "code" dec_string fob_Code set_fob_Code; field_of "retry" dec_string fob_Retry set_fob_Retry].

Definition sandbox_fields : list (field SandboxObservation) :=
  [field_of "id" dec_string sob_ID set_sob_ID; field_of "actual_state" dec_string sob_ActualState set_sob_ActualState;
   field_of "failure" (dec_ptr zeroFailure (dec_struct false failure_fields)) sob_Failure set_sob_Failure].

Definition usage_fields : list (field ResourceUsage) :=
  [field_of "cpu_time_millis" dec_uint64 rus_CPUTimeMillis set_rus_CPUTimeMillis;
   field_of "peak_memory_bytes" dec_uint64 rus_PeakMemoryBytes set_rus_PeakMemoryBytes;
   field_of "read_bytes" dec_uint64 rus_ReadBytes set_rus_ReadBytes; field_of "written_bytes" dec_uint64 rus_WrittenBytes set_rus_WrittenBytes].

Definition process_result_fields : list (field ProcessResult) :=
  [field_of "started_at" dec_time prs_StartedAt set_prs_StartedAt; field_of "finished_at" dec_time prs_FinishedAt set_prs_FinishedAt;
   field_of "exit_code" (dec_ptr 0 dec_int32) prs_ExitCode set_prs_ExitCode; field_of "signal" dec_string prs_Signal set_prs_Signal;
   field_of "reason" dec_string prs_Reason set_prs_Reason; field_of "usage" (dec_struct false usage_fields) prs_Usage set_prs_Usage;
   field_of "cleanup" dec_string prs_Cleanup set_prs_Cleanup].

Definition retention_fields : list (field OutputRetention) :=
  [field_of "earliest_cursor" dec_string ore_EarliestCursor set_ore_EarliestCursor;
   field_of "retained_bytes" dec_uint64 ore_RetainedBytes set_ore_RetainedBytes; field_of "truncated" dec_bool ore_Truncated set_ore_Truncated].

Definition process_fields : list (field ProcessObservation) :=
  [field_of "id" dec_string pob_ID set_pob_ID; field_of "sandbox_id" dec_string pob_SandboxID set_pob_SandboxID;
   field_of "state" dec_string pob_State set_pob_State;
   field_of "result" (dec_ptr zeroProcessResult (dec_struct false process_result_fields)) pob_Result set_pob_Result;
   field_of "stdout" (dec_struct false retention_fields) pob_Stdout set_pob_Stdout;
   field_of "stderr" (dec_struct false retention_fields) pob_Stderr set_pob_Stderr].

Definition observation_fields : list (field Observation) :=
  [field_of "sandbox" (dec_struct false sandbox_fields) obs_Sandbox set_obs_Sandbox;
   field_of "process" (dec_ptr zeroProcess (dec_struct false process_fields)) obs_Process set_obs_Process].

Definition result_fields : list (field Result) :=
  [field_of "protocol_version" dec_string hms_ProtocolVersion set_hms_ProtocolVersion; field_of "result_id" dec_string hms_ResultID set_hms_ResultID;
   field_of "host_id" dec_string hms_HostID set_hms_HostID; field_of "host_generation" dec_uint64 hms_HostGeneration set_hms_HostGeneration;
   field_of "assignment_id" dec_string hms_AssignmentID set_hms_AssignmentID; field_of "lease_epoch" dec_uint64 hms_LeaseEpoch set_hms_LeaseEpoch;
   field_of "fencing_token" dec_uint64 hms_FencingToken set_hms_FencingToken; field_of "principal" dec_string hms_Principal set_hms_Principal;
   field_of "operation_id" dec_string hms_OperationID set_hms_OperationID;
   field_of "effective_spec_digest" dec_string hms_EffectiveSpecDigest set_hms_EffectiveSpecDigest;
   field_of "capability_digest" dec_string hms_CapabilityDigest set_hms_CapabilityDigest; field_of "state" dec_string hms_State set_hms_State;
   field_of "observed_at" dec_time hms_ObservedAt set_hms_ObservedAt;
   field_of "observation" (dec_ptr zeroObservation (dec_struct false observation_fields)) hms_Observation set_hms_Observation;
   field_of "signature" dec_string hms_Signature set_hms_Signature].

Definition output_wire_fields : list (field Output) :=
  [field_of "protocol_version" dec_string oup_ProtocolVersion set_oup_ProtocolVersion; field_of "output_id" dec_string oup_OutputID set_oup_OutputID;
   field_of "host_id" dec_string oup_HostID set_oup_HostID; field_of "host_generation" dec_uint64 oup_HostGeneration set_oup_HostGeneration;
   field_of "assignment_id" dec_string oup_AssignmentID set_oup_AssignmentID; field_of "lease_epoch" dec_uint64 oup_LeaseEpoch set_oup_LeaseEpoch;
   field_of "fencing_token" dec_uint64 oup_FencingToken set_oup_FencingToken; field_of "principal" dec_string oup_Principal set_oup_Principal;
   field_of "operation_id" dec_string oup_OperationID set_oup_OperationID; field_of "stream" dec_string oup_Stream set_oup_Stream;
   field_of "sequence" dec_uint64 oup_Sequence set_oup_Sequence; field_of "chunk_digest" dec_string oup_ChunkDigest set_oup_ChunkDigest;
   field_of "size_bytes" dec_uint32 oup_SizeBytes set_oup_SizeBytes; field_of "chunk" dec_bytes oup_Bytes set_oup_Bytes;
   field_of "redacted" dec_bool oup_Redacted set_oup_Redacted; field_of "observed_at" dec_time oup_ObservedAt set_oup_ObservedAt;
   field_of "signature" dec_string oup_Signature set_oup_Signature].

Definition receipt_fields : list (field DataPlaneReceipt) :=
  [field_of "protocol_version" dec_string dpr_ProtocolVersion set_dpr_ProtocolVersion;
   field_of "receipt_id" dec_string dpr_ReceiptID set_dpr_ReceiptID; field_of "host_id" dec_string dpr_HostID set_dpr_HostID;
   field_of "host_generation" dec_uint64 dpr_HostGeneration set_dpr_HostGeneration;
   field_of "assignment_id" dec_string dpr_AssignmentID set_dpr_AssignmentID; field_of "lease_epoch" dec_uint64 dpr_LeaseEpoch set_dpr_LeaseEpoch;
   field_of "fencing_token" dec_uint64 dpr_FencingToken set_dpr_FencingToken; field_of "operation_id" dec_string dpr_OperationID set_dpr_OperationID;
   field_of "kind" dec_string dpr_Kind set_dpr_Kind; field_of "receipt_digest" dec_string dpr_ReceiptDigest set_dpr_ReceiptDigest;
   field_of "signature" dec_string dpr_Signature set_dpr_Signature].

(** ** Validation *)

Definition boundedID (value : string) (maximum : Z) : bool :=
  (value ≠? "") && (len value <=? maximum) && negb (existsb (fun b => b =? 0) (bytes value)).
Definition optionalBoundedID (value : string) (maximum : Z) : bool := (value ≟ "") || boundedID value maximum.

Definition validDigest (value : string) : bool :=
  if negb (len value =? 71) || negb (HasPrefix value "sha256:") then false
  else all_runes (fun c => negb (((c <? 48) || (57 <? c)) && ((c <? 97) || (102 <? c)))) (drop_bytes 7 value).

Definition validControlKeyBinding (v : Envelope) : bool :=
  if negb (boundedID (evl_ControlKeyID v) 128) then false
  else ((evl_ControlKeyVersion v =? 0) && (evl_ControlRevocationEpoch v =? 0)) ||
       ((0 <? evl_ControlKeyVersion v) && (0 <? evl_ControlRevocationEpoch v)).

Definition bounded_signature (signature : string) : bool := (signature ≟ "") || (len signature <=? 128).

Definition validEnvelope (v : Envelope) : bool :=
  (evl_ProtocolVersion v ≟ Version) && boundedID (evl_EnvelopeID v) 128 && boundedID (evl_DeliveryID v) 128 && boundedID (evl_Nonce v) 128 &&
  negb (IsZero (evl_IssuedAt v)) && isUTC (evl_IssuedAt v) && isUTC (evl_ExpiresAt v) && After (evl_ExpiresAt v) (evl_IssuedAt v) &&
  (instant (evl_ExpiresAt v) - instant (evl_IssuedAt v) <=? Hour) && validControlKeyBinding v && boundedID (evl_HostID v) 128 &&
  (0 <? evl_HostGeneration v) && boundedID (evl_AssignmentID v) 128 && (0 <? evl_LeaseEpoch v) && (0 <? evl_FencingToken v) &&
  boundedID (evl_Tenant v) 256 && boundedID (evl_Principal v) 512 && HasPrefix (evl_Principal v) (evl_Tenant v +:+ ":") &&
  optionalBoundedID (evl_SandboxID v) 128 && optionalBoundedID (evl_ProcessID v) 128 && optionalBoundedID (evl_VolumeID v) 128 &&
  optionalBoundedID (evl_SnapshotID v) 128 && boundedID (evl_OperationID v) 128 && boundedID (evl_OperationKind v) 64 &&
  validDigest (evl_EffectiveSpecDigest v) && validDigest (evl_CapabilityDigest v) && validDigest (evl_CanonicalRequestDigest v) &&
  (evl_SequenceContract v ≟ "host-proposed/control-owned-v1") && validDigest (evl_PayloadDigest v) && (0 <? len (evl_Payload v)) &&
  (len (evl_Payload v) <=? maxPayloadLen) && (Digest (evl_Payload v) ≟ evl_PayloadDigest v) && bounded_signature (evl_Signature v).

Definition validSandboxActualState (state : string) : bool :=
  bool_decide (state ∈ ["pending"; "provisioning"; "ready"; "quiescing"; "cleaning"; "failed"; "unreachable"; "lost"; "deleted"]).

Definition validFailureObservation (actualState : string) (failure : option FailureObservation) : bool :=
  match failure with
  | None => true
  | Some f =>
    bool_decide (actualState ∈ ["failed"; "unreachable"; "lost"]) &&
    bool_decide (fob_Code f ∈ ["unavailable"; "deadline-exceeded"; "outcome-uncertain"; "resource-limit-exceeded"; "infrastructure-failed"]) &&
    bool_decide (fob_Retry f ∈ ["never"; "after-reconcile"; "caller-controlled"])
  end.

Definition validSignal (signal : string) : bool := bool_decide (signal ∈ ["interrupt"; "terminate"; "kill"; "hangup"]).
Definition validTreeCleanupState (state : string) : bool := bool_decide (state ∈ ["confirmed"; "pending"; "not-required"; "unknown"]).
Definition validOutputRetention (r : OutputRetention) : bool := (ore_EarliestCursor r ≟ "") || boundedID (ore_EarliestCursor r) 128.
Definition validProcessState (state : string) : bool := bool_decide (state ∈ ["accepted"; "starting"; "running"; "terminating"; "terminal"]).

Definition validProcessResult (r : ProcessResult) : bool :=
  if IsZero (prs_StartedAt r) || IsZero (prs_FinishedAt r) || negb (isUTC (prs_StartedAt r)) || negb (isUTC (prs_FinishedAt r)) ||
     Before (prs_FinishedAt r) (prs_StartedAt r) || negb (validTreeCleanupState (prs_Cleanup r)) then false
  else if prs_Reason r ≟ "exited" then negb (bool_decide (prs_ExitCode r = None)) && (prs_Signal r ≟ "")
  else if prs_Reason r ≟ "signaled" then bool_decide (prs_ExitCode r = None) && validSignal (prs_Signal r)
  else if bool_decide (prs_Reason r ∈ ["timed-out"; "oom-killed"; "output-limit"; "cancelled"; "killed-by-caller"; "sandbox-closed"; "sandbox-lost";
                                        "startup-failed"; "infrastructure-failed"; "outcome-uncertain"])
       then bool_decide (prs_ExitCode r = None) && (prs_Signal r ≟ "")
  else false.

Definition validProcessObservation (sandboxID : string) (p : ProcessObservation) : bool :=
  if negb (boundedID (pob_ID p) 128) || (pob_SandboxID p ≠? sandboxID) || negb (validProcessState (pob_State p)) ||
     negb (validOutputRetention (pob_Stdout p)) || negb (validOutputRetention (pob_Stderr p)) then false
  else match pob_Result p with
       | Some r => (pob_State p ≟ "terminal") && validProcessResult r
       | None => pob_State p ≠? "terminal"
       end.

Definition validObservation (o : option Observation) : bool :=
  match o with
  | None => true
  | Some o =>
    if negb (boundedID (sob_ID (obs_Sandbox o)) 128) || negb (validSandboxActualState (sob_ActualState (obs_Sandbox o))) ||
       negb (validFailureObservation (sob_ActualState (obs_Sandbox o)) (sob_Failure (obs_Sandbox o))) then false
    else match obs_Process o with None => true | Some p => validProcessObservation (sob_ID (obs_Sandbox o)) p end
  end.

Definition validResult (r : Result) : bool :=
  bool_decide (hms_State r ∈ ["started"; "succeeded"; "failed"; "uncertain"]) &&
  (hms_ProtocolVersion r ≟ Version) && boundedID (hms_ResultID r) 128 && boundedID (hms_HostID r) 128 && (0 <? hms_HostGeneration r) &&
  boundedID (hms_AssignmentID r) 128 && (0 <? hms_LeaseEpoch r) && (0 <? hms_FencingToken r) && boundedID (hms_Principal r) 512 &&
  boundedID (hms_OperationID r) 128 && validDigest (hms_EffectiveSpecDigest r) && validDigest (hms_CapabilityDigest r) &&
  negb (IsZero (hms_ObservedAt r)) && isUTC (hms_ObservedAt r) && validObservation (hms_Observation r) && bounded_signature (hms_Signature r).

Definition validOutput (o : Output) : bool :=
  let legacyHeaderOnly := len (oup_Chunk o) =? 0 in
  let chunkMatches := (u32 (len (oup_Chunk o)) =? oup_SizeBytes o) && (Digest (oup_Chunk o) ≟ oup_ChunkDigest o) in
  (oup_ProtocolVersion o ≟ Version) && boundedID (oup_OutputID o) 128 && boundedID (oup_HostID o) 128 && (0 <? oup_HostGeneration o) &&
  boundedID (oup_AssignmentID o) 128 && (0 <? oup_LeaseEpoch o) && (0 <? oup_FencingToken o) && boundedID (oup_Principal o) 512 &&
  boundedID (oup_OperationID o) 128 && ((oup_Stream o ≟ "stdout") || (oup_Stream o ≟ "stderr")) && (0 <? oup_Sequence o) &&
  validDigest (oup_ChunkDigest o) && (0 <? oup_SizeBytes o) && (oup_SizeBytes o <=? 256 * 2 ^ 10) && (legacyHeaderOnly || chunkMatches) &&
  negb (IsZero (oup_ObservedAt o)) && isUTC (oup_ObservedAt o) && bounded_signature (oup_Signature o).

Definition validDataPlaneReceipt (r : DataPlaneReceipt) : bool :=
  (dpr_ProtocolVersion r ≟ Version) && boundedID (dpr_ReceiptID r) 128 && boundedID (dpr_HostID r) 128 && (0 <? dpr_HostGeneration r) &&
  boundedID (dpr_AssignmentID r) 128 && (0 <? dpr_LeaseEpoch r) && (0 <? dpr_FencingToken r) && boundedID (dpr_OperationID r) 128 &&
  ((dpr_Kind r ≟ "transfer") || (dpr_Kind r ≟ "snapshot-restore") || (dpr_Kind r ≟ "mount")) && validDigest (dpr_ReceiptDigest r) &&
  bounded_signature (dpr_Signature r).

(** ** Signing and verifying *)

(** What the four kinds of message have in common. *)
Class WireMessage (A : Type) : Type := {
  wire_json : A -> jval;
  wire_fields : list (field A);
  wire_zero : A;
  wire_valid : A -> bool;
  wire_signature : A -> string;
  set_signature : string -> A -> A
}.

#[export] Instance envelope_message : WireMessage Envelope :=
  { wire_json := json_Envelope; wire_fields := envelope_fields; wire_zero := zeroEnvelope; wire_valid := validEnvelope;
    wire_signature := evl_Signature; set_signature := set_evl_Signature }.
#[export] Instance result_message : WireMessage Result :=
  { wire_json := json_Result; wire_fields := result_fields; wire_zero := zeroResult; wire_valid := validResult;
    wire_signature := hms_Signature; set_signature := set_hms_Signature }.
#[export] Instance output_message : WireMessage Output :=
  { wire_json := json_Output; wire_fields := output_wire_fields; wire_zero := zeroOutput; wire_valid := validOutput;
    wire_signature := oup_Signature; set_signature := set_oup_Signature }.
#[export] Instance receipt_message : WireMessage DataPlaneReceipt :=
  { wire_json := json_DataPlaneReceipt; wire_fields := receipt_fields; wire_zero := zeroReceipt; wire_valid := validDataPlaneReceipt;
    wire_signature := dpr_Signature; set_signature := set_dpr_Signature }.

(** encodeSignedEnvelope, encodeSignedResult, encodeSignedOutput, encodeSignedDataPlaneReceipt *)
Definition encodeSigned {A} `{WireMessage A} (m : A) : option string :=
  encoded ← marshal (wire_json m);
  if maxWireBytes <? len encoded then None else Some encoded.

Definition decode_message {A} `{WireMessage A} (wire : string) : option A :=
  match read_value start (bytes wire) with
  | Some (d, rest) =>
    m ← dec_struct false wire_fields wire_zero d;
    if forallb space rest then Some m else None
  | None => None
  end.

Section signing.
Context `{Ed25519}.

Definition sign_message {A} `{WireMessage A} (m : A) (privateKey : string) : option string :=
  let m := set_signature "" m in
  if negb (wire_valid m) || negb (len privateKey =? PrivateKeySize) then None
  else
    unsigned ← marshal (wire_json m);
    encodeSigned (set_signature (EncodeToString (ed25519_sign privateKey unsigned)) m).

(** [accepts]: the checks of the one kind of message; [key]: the key to verify with. *)
Definition verify_message {A} `{WireMessage A} (wire : string) (accepts : A -> bool) (key : A -> string) : option A :=
  if (len wire =? 0) || (maxWireBytes <? len wire) then None
  else
    m ← decode_message wire;
    if (encodeSigned m ≠? Some wire) || negb (wire_valid m) || negb (accepts m) then None
    else
      signature ← DecodeString (wire_signature m);
      if negb (len (key m) =? PublicKeySize) || negb (len signature =? SignatureSize) then None
      else
        unsigned ← marshal (wire_json (set_signature "" m));
        if ed25519_verify (key m) unsigned signature then Some m else None.

Definition SignEnvelope (v : Envelope) (keyID privateKey : string) : option string :=
  if negb (boundedID keyID 128) then None else sign_message (set_evl_ControlKeyID keyID v) privateKey.

Definition VerifyEnvelope (wire hostID : string) (generation : Z) (now : Time) (keys : gmap string string) : option Envelope :=
  if IsZero now then None
  else verify_message wire
         (fun v => (evl_HostID v ≟ hostID) && (evl_HostGeneration v =? generation) && negb (Before now (evl_IssuedAt v)) && Before now (evl_ExpiresAt v))
         (fun v => default "" (keys !! evl_ControlKeyID v)).

Definition ValidateAuthenticatedEnvelopeWire (wire : string) (expected : Envelope) : bool :=
  if (len wire =? 0) || (maxWireBytes <? len wire) || negb (validEnvelope expected) then false
  else match decode_message (A := Envelope) wire with
       | Some observed => (encodeSigned observed ≟ Some wire) && (encodeSigned expected ≟ Some wire)
       | None => false
       end.

Definition SignResult (r : Result) (privateKey : string) : option string := sign_message r privateKey.
Definition VerifyResult (wire : string) (now : Time) (publicKey : string) : option Result :=
  if IsZero now then None else verify_message wire (fun r => negb (After (hms_ObservedAt r) now)) (fun _ => publicKey).

Definition SignOutput (o : Output) (privateKey : string) : option string := sign_message o privateKey.
Definition VerifyOutput (wire : string) (now : Time) (publicKey : string) : option Output :=
  if IsZero now then None else verify_message wire (fun o => negb (After (oup_ObservedAt o) now)) (fun _ => publicKey).

Definition SignDataPlaneReceipt (r : DataPlaneReceipt) (privateKey : string) : option string := sign_message r privateKey.
Definition VerifyDataPlaneReceipt (wire publicKey : string) : option DataPlaneReceipt := verify_message wire (fun _ => true) (fun _ => publicKey).
End signing.
