(* ===== verification/HostWireFacts.v ===== *)
(** * Host messages: facts

    The four kinds of message survive their encoding ([WireLaws]), so that what is
    signed verifies, once for all of them. *)

From Stdlib Require Import Ascii String.
From S2P Require Import Prelude GoString Keys Sha256 GoTime GoJson GoJsonText JsonFacts JsonStrings JsonValues GoDecode DecodeFacts TimeText HostProtocol DigestFacts HostFields HostWire.

Open Scope Z_scope.

(** ** base64.RawURLEncoding *)

Definition url_digits_checked : bool :=
  forallb (fun n => bool_decide (url_value (url_digit n) = Some n) && (32 <=? url_digit n) && (url_digit n <? 128)) (seqZ 0 64).

Lemma url_digit_ok n : 0 <= n < 64 -> url_value (url_digit n) = Some n /\ 32 <= url_digit n < 128.
Proof.
  intros H. assert (Hc : url_digits_checked = true) by (vm_compute; reflexivity). unfold url_digits_checked in Hc. rewrite forallb_forall in Hc.
  specialize (Hc n). rewrite <- list_elem_of_In, elem_of_seqZ in Hc. specialize (Hc ltac:(lia)).
  apply andb_true_iff in Hc as [[H1 H2]%andb_true_iff H3]. apply bool_decide_eq_true in H1. rewrite Z.leb_le in H2. rewrite Z.ltb_lt in H3. by split.
Qed.

Lemma url_value_digit n : 0 <= n < 64 -> url_value (url_digit n) = Some n.
Proof. apply url_digit_ok. Qed.

Lemma url_groups_encode l : forallb is_byte l = true -> raw_groups url_value (url_encode l) = Some l.
Proof.
  remember (length l) as n eqn:Hn. revert l Hn. induction (lt_wf n) as [n _ IH]; intros l -> Hl.
  destruct l as [|a [|b [|c l]]]; [done|..]; simpl in Hl; unfold is_byte, between in Hl; bools; cbn [url_encode raw_groups];
    rewrite !url_value_digit by euclid; cbn [mbind option_bind].
  - f_equal. f_equal. euclid.
  - f_equal. f_equal; [euclid|]. f_equal. euclid.
  - rewrite (IH (length l)) by (simpl; done || lia). cbn [mbind option_bind]. f_equal. f_equal; [euclid|]. f_equal; [euclid|]. f_equal. euclid.
Qed.

Lemma url_encode_plain l : forallb is_byte l = true -> Forall plain64 (url_encode l).
Proof.
  remember (length l) as n eqn:Hn. revert l Hn. induction (lt_wf n) as [n _ IH]; intros l -> Hl. unfold plain64.
  destruct l as [|a [|b [|c l]]]; simpl in Hl; unfold is_byte, between in Hl; bools; cbn [url_encode];
    repeat (apply Forall_cons; split; [apply url_digit_ok; euclid|]); [by apply Forall_nil..|].
  apply (IH (length l)); [simpl; lia|done..].
Qed.

Lemma plain_no_lines l : Forall plain64 l -> List.filter (fun c => negb (line_end c)) l = l.
Proof.
  induction 1 as [|c l Hc _ IH]; [done|]. unfold plain64 in Hc. simpl. unfold line_end at 1.
  rewrite (proj2 (Z.eqb_neq c 10)), (proj2 (Z.eqb_neq c 13)) by lia. simpl. by rewrite IH.
Qed.

Lemma EncodeToString_bytes s : bytes (EncodeToString s) = url_encode (bytes s).
Proof.
  apply bytes_of_bytes, forallb_forall. intros c Hc%list_elem_of_In. pose proof (url_encode_plain _ (bytes_are_bytes s)) as Hp.
  rewrite Forall_forall in Hp. apply Hp in Hc. unfold plain64, is_byte, between in *. apply andb_true_iff. rewrite !Z.leb_le. lia.
Qed.

Lemma DecodeString_EncodeToString s : DecodeString (EncodeToString s) = Some s.
Proof.
  unfold DecodeString, url_decode. rewrite EncodeToString_bytes, plain_no_lines by apply url_encode_plain, bytes_are_bytes.
  rewrite url_groups_encode by apply bytes_are_bytes. cbn. by rewrite of_bytes_bytes.
Qed.

(** A line end in the text is ignored. *)
Lemma DecodeString_line s : DecodeString (s +:+ of_bytes [10]) = DecodeString s.
Proof. unfold DecodeString, url_decode. rewrite bytes_app, bytes_of_bytes, List.filter_app by done. cbn. by rewrite app_nil_r. Qed.

Lemma EncodeToString_utf8 s : utf8 (bytes (EncodeToString s)).
Proof.
  rewrite EncodeToString_bytes. apply utf8_ascii. eapply Forall_impl; [apply url_encode_plain, bytes_are_bytes|]. unfold plain64. intros c Hc. lia.
Qed.

Lemma url_encode_length l : Z.of_nat (length (url_encode l)) = (4 * Z.of_nat (length l) + 2) / 3.
Proof.
  remember (length l) as n eqn:Hn. revert l Hn. induction (lt_wf n) as [n _ IH]; intros l ->.
  destruct l as [|a [|b [|c l]]]; [done..|]. cbn [url_encode length]. rewrite !Nat2Z.inj_succ, (IH (length l)) by (simpl; done || lia).
  Z.to_euclidean_division_equations. lia.
Qed.

Lemma EncodeToString_len s : len s = SignatureSize -> len (EncodeToString s) = 86.
Proof.
  unfold len, SignatureSize. intros H. rewrite <- length_bytes, EncodeToString_bytes, url_encode_length, length_bytes, H. done.
Qed.

(** ** Values that survive *)

Lemma carries_payload k s : carries (fun s => json_bytes (Some s)) dec_payload "" k s.
Proof.
  destruct (carries_bytes k (Some s)) as (d & H1 & H2 & H3). exists d. split_and!; [done..|]. unfold dec_payload.
  replace (dec_bytes (Some "") d) with (dec_bytes None d) by done. by rewrite H3.
Qed.

Lemma carries_uint32 k n : 0 <= n < 2 ^ 32 -> carries JNum dec_uint32 0 k n.
Proof.
  intros Hn. assert (Hm : 0 <= n <= max_u64) by (unfold max_u64; lia). destruct (carries_uint64 k n Hm) as (d & H1 & H2 & H3).
  exists d. split_and!; [done..|]. destruct d; try done. cbn [dec_uint64 dec_uint32] in *.
  rewrite H3. cbn [mbind option_bind]. by rewrite (proj2 (Z.leb_le _ _)) by lia.
Qed.

Lemma carries_int32 k n : - 2 ^ 31 <= n < 2 ^ 31 -> carries JNum dec_int32 0 k n.
Proof.
  intros Hn. destruct (Z_lt_le_dec n 0) as [Hneg|Hpos].
  - exists (DNum (45 :: bytes (decimal (- n)))). pose proof (decimal_ParseUint64 (- n)) as Hp. split_and!.
    + unfold prints. cbn [marshal print]. unfold json_int. rewrite (proj2 (Z.ltb_lt n 0)) by lia. f_equal. apply bytes_inj.
      rewrite bytes_app, bytes_of_bytes; [done|]. simpl. by rewrite bytes_are_bytes.
    + intros m _. pose proof (decimal_number (- n) ltac:(lia)) as Hd. cbn [doc_ok] in *. unfold isValidNumber in *.
      destruct (bytes (decimal (- n))) as [|c l] eqn:E; [done|]. pose proof (decimal_digits (- n)) as Hdig. rewrite E in Hdig.
      apply Forall_cons in Hdig as [Hc _]. cbn. revert Hd. unfold number_start. unfold is_digit, between in *. apply andb_true_iff in Hc. rewrite !Z.leb_le in Hc.
      rewrite (proj2 (Z.eqb_neq c 45)) by lia. cbn. destruct (c =? 48); [done|]. by destruct ((49 <=? c) && (c <=? 57)).
    + cbn [dec_int32]. rewrite Hp by (unfold max_u64; lia). cbn [mbind option_bind]. rewrite (proj2 (Z.leb_le _ _)) by lia. f_equal. lia.
  - assert (Hm : 0 <= n <= max_u64) by (unfold max_u64; lia). exists (DNum (bytes (decimal n))). split_and!.
    + unfold prints. cbn [marshal print]. unfold json_int. rewrite (proj2 (Z.ltb_ge n 0)) by lia. by rewrite of_bytes_bytes.
    + intros m _. apply decimal_number. lia.
    + assert (E : dec_int32 0 (DNum (bytes (decimal n))) = (x ← ParseUint64 (bytes (decimal n)); if x <=? 2 ^ 31 - 1 then Some x else None)).
      { cbn [dec_int32]. pose proof (decimal_digits n) as Hd. destruct (bytes (decimal n)) as [|c l]; [done|]. apply Forall_cons in Hd as [Hc _].
        apply digit_range in Hc. destruct c as [|p|p]; [lia| |lia]. do 6 (destruct p as [p|p|]; try done). lia. }
      rewrite E, decimal_ParseUint64 by done. cbn [mbind option_bind]. by rewrite (proj2 (Z.leb_le _ _)) by lia.
Qed.

(** A pointer that is left out when nil. *)
Lemma fills_omit_nil {A B} lenient (fields : list (field A)) k name enc (dec : decoder B) zero get set p l a a' :
  ValidString name = true -> find_field name fields = Some (field_of name (dec_ptr zero dec) get set) ->
  (forall b, p = Some b -> exists d, prints (enc b) d /\ (forall n, (n + k <= maxNestingDepth)%nat -> doc_ok n d = true) /\ d <> DNull /\ dec zero d = Some b) ->
  get a = None -> set None a = a ->
  fills lenient fields k l (set p a) a' -> fills lenient fields k (omit_nil name enc p ++ l) a a'.
Proof.
  intros Hu%valid_utf8 Hf Hp Hg Hs Hl. destruct p as [b|]; cbn [omit_nil app]; [|by rewrite Hs in Hl].
  destruct (Hp b eq_refl) as (d & H1 & H2 & H3 & H4), Hl as (ds & G1 & G2 & G3). exists ((escape_body (bytes name), d) :: ds). split_and!.
  - by constructor.
  - intros n Hn. simpl. by rewrite escape_body_ok, H2, G2.
  - simpl. rewrite unquote_key, Hf by done. cbn [field_of fld_set]. rewrite Hg. replace (dec_ptr zero dec None d) with (Some <$> dec zero d) by (by destruct d).
    rewrite H4. exact G3.
Qed.

Lemma object_pointer {A} (enc : A -> jval) dec zero k b : carries_object enc dec zero k b ->
  exists d, prints (enc b) d /\ (forall n, (n + k <= maxNestingDepth)%nat -> doc_ok n d = true) /\ d <> DNull /\ dec zero d = Some b.
Proof. intros (l & H1 & H2 & H3). by exists (DObj l). Qed.

(** ** The messages *)

Definition envelope_encodable (v : Envelope) : Prop :=
  texts [evl_ProtocolVersion v; evl_EnvelopeID v; evl_DeliveryID v; evl_Nonce v; evl_ControlKeyID v; evl_HostID v; evl_AssignmentID v;
         evl_Tenant v; evl_Principal v; evl_SandboxID v; evl_ProcessID v; evl_VolumeID v; evl_SnapshotID v; evl_OperationID v;
         evl_OperationKind v; evl_EffectiveSpecDigest v; evl_CapabilityDigest v; evl_CanonicalRequestDigest v; evl_SequenceContract v;
         evl_PayloadDigest v; evl_Signature v] /\
  numbers [evl_ControlKeyVersion v; evl_ControlRevocationEpoch v; evl_HostGeneration v; evl_LeaseEpoch v; evl_FencingToken v] /\
  time_ok (evl_IssuedAt v) /\ time_ok (evl_ExpiresAt v).

Definition usage_encodable (u : ResourceUsage) : Prop :=
  numbers [rus_CPUTimeMillis u; rus_PeakMemoryBytes u; rus_ReadBytes u; rus_WrittenBytes u].
Definition process_result_encodable (r : ProcessResult) : Prop :=
  texts [prs_Signal r; prs_Reason r; prs_Cleanup r] /\ time_ok (prs_StartedAt r) /\ time_ok (prs_FinishedAt r) /\
  usage_encodable (prs_Usage r) /\ (forall n, prs_ExitCode r = Some n -> - 2 ^ 31 <= n < 2 ^ 31).
Definition retention_encodable (r : OutputRetention) : Prop := texts [ore_EarliestCursor r] /\ numbers [ore_RetainedBytes r].
Definition process_encodable (p : ProcessObservation) : Prop :=
  texts [pob_ID p; pob_SandboxID p; pob_State p] /\ retention_encodable (pob_Stdout p) /\ retention_encodable (pob_Stderr p) /\
  (forall r, pob_Result p = Some r -> process_result_encodable r).
Definition sandbox_encodable (s : SandboxObservation) : Prop :=
  texts [sob_ID s; sob_ActualState s] /\ (forall f, sob_Failure s = Some f -> texts [fob_Code f; fob_Retry f]).
Definition observation_encodable (o : Observation) : Prop :=
  sandbox_encodable (obs_Sandbox o) /\ (forall p, obs_Process o = Some p -> process_encodable p).

Definition result_encodable (r : Result) : Prop :=
  texts [hms_ProtocolVersion r; hms_ResultID r; hms_HostID r; hms_AssignmentID r; hms_Principal r; hms_OperationID r; hms_EffectiveSpecDigest r;
         hms_CapabilityDigest r; hms_State r; hms_Signature r] /\
  numbers [hms_HostGeneration r; hms_LeaseEpoch r; hms_FencingToken r] /\ time_ok (hms_ObservedAt r) /\
  (forall o, hms_Observation r = Some o -> observation_encodable o).

Definition output_encodable (o : Output) : Prop :=
  texts [oup_ProtocolVersion o; oup_OutputID o; oup_HostID o; oup_AssignmentID o; oup_Principal o; oup_OperationID o; oup_Stream o;
         oup_ChunkDigest o; oup_Signature o] /\
  numbers [oup_HostGeneration o; oup_LeaseEpoch o; oup_FencingToken o; oup_Sequence o] /\ 0 <= oup_SizeBytes o < 2 ^ 32 /\ time_ok (oup_ObservedAt o).

Definition receipt_encodable (r : DataPlaneReceipt) : Prop :=
  texts [dpr_ProtocolVersion r; dpr_ReceiptID r; dpr_HostID r; dpr_AssignmentID r; dpr_OperationID r; dpr_Kind r; dpr_ReceiptDigest r; dpr_Signature r] /\
  numbers [dpr_HostGeneration r; dpr_LeaseEpoch r; dpr_FencingToken r].

(** The hypotheses of a list, one by one. *)
Ltac each_text := unfold texts, numbers in *; rewrite ?Forall_cons in *; destruct_and?.
Ltac leaf := first [by apply carries_string|by apply carries_uint64|by apply carries_time|apply carries_bool|apply carries_bytes|apply carries_payload
                   |by apply carries_uint32].
Ltac fill_all := repeat (fill; [leaf|]).

Lemma carries_receipt r : receipt_encodable r -> carries_object json_DataPlaneReceipt (dec_struct false receipt_fields) zeroReceipt 1 r.
Proof. intros (Ht & Hn). destruct r. simpl in *. each_text. eapply fills_struct; [reflexivity|]. fill_all. apply fills_nil. Qed.

Lemma carries_output_message o : output_encodable o -> carries_object json_Output (dec_struct false output_wire_fields) zeroOutput 1 o.
Proof. intros (Ht & Hn & Hs & Ho). destruct o. simpl in *. each_text. eapply fills_struct; [reflexivity|]. fill_all. apply fills_nil. Qed.

Lemma carries_envelope v : envelope_encodable v -> carries_object json_Envelope (dec_struct false envelope_fields) zeroEnvelope 1 v.
Proof.
  intros (Ht & Hn & Hi & He). destruct v. simpl in *. each_text. eapply fills_struct; [reflexivity|]. fill_all.
  eapply (fills_cons _ _ _ _ (fun s => json_bytes (Some s))); [reflexivity|reflexivity|apply carries_payload|]. fill_all. apply fills_nil.
Qed.

Lemma carries_failure f : texts [fob_Code f; fob_Retry f] -> carries_object json_FailureObservation (dec_struct false failure_fields) zeroFailure 1 f.
Proof. intros Ht. destruct f. simpl in *. each_text. eapply fills_struct; [reflexivity|]. fill_all. apply fills_nil. Qed.

Lemma carries_usage u : usage_encodable u -> carries_object json_ResourceUsage (dec_struct false usage_fields) zeroUsage 1 u.
Proof. intros Ht. unfold usage_encodable in Ht. destruct u. simpl in *. each_text. eapply fills_struct; [reflexivity|]. fill_all. apply fills_nil. Qed.

Lemma carries_retention r : retention_encodable r -> carries_object json_OutputRetention (dec_struct false retention_fields) zeroRetention 1 r.
Proof. intros [Ht Hn]. destruct r. simpl in *. each_text. eapply fills_struct; [reflexivity|]. fill_all. apply fills_nil. Qed.

(** A pointer to a struct, left out when nil. *)
Ltac fill_pointer := eapply fills_omit_nil; [reflexivity|reflexivity| |reflexivity|reflexivity|].

Lemma carries_sandbox s : sandbox_encodable s -> carries_object json_SandboxObservation (dec_struct false sandbox_fields) zeroSandbox 2 s.
Proof.
  intros [Ht Hf]. destruct s. simpl in *. each_text. eapply fills_struct; [reflexivity|]. cbn [app]. fill_all. rewrite <- (app_nil_r (omit_nil _ _ _)).
  fill_pointer; [|apply fills_nil]. intros f E. by apply object_pointer, carries_failure, Hf.
Qed.

Lemma exit_code_pointer (p : option Z) k : (forall n, p = Some n -> - 2 ^ 31 <= n < 2 ^ 31) ->
  forall n, p = Some n -> exists d, prints (JNum n) d /\ (forall m, (m + k <= maxNestingDepth)%nat -> doc_ok m d = true) /\ d <> DNull /\ dec_int32 0 d = Some n.
Proof.
  intros H n E. destruct (carries_int32 k n (H n E)) as (d & H1 & H2 & H3). exists d. split_and!; [done..| |done].
  intros ->. unfold prints in H1. cbn in H1. injection H1. unfold json_int. intros Ht. apply (f_equal bytes) in Ht.
  pose proof (decimal_digits (- n)) as D1. pose proof (decimal_digits n) as D2.
  destruct (n <? 0); [rewrite bytes_app in Ht; done|]. rewrite Ht in D2. apply Forall_cons in D2 as [D2 _]. done.
Qed.

Lemma omit_empty_omit name s : omit_empty name s = omit (s ≟ "") name (JStr s).
Proof. done. Qed.

Lemma carries_process_result r : process_result_encodable r ->
  carries_object json_ProcessResult (dec_struct false process_result_fields) zeroProcessResult 2 r.
Proof.
  intros (Ht & Hs & Hf & Hu & Hc). destruct r. simpl in *. each_text. eapply fills_struct; [reflexivity|]. cbn [app]. fill_all.
  fill_pointer; [by apply exit_code_pointer|].
  rewrite omit_empty_omit. fill_omit; [by intros _; apply carries_string|by intros ->%bool_decide_eq_true|]. fill_all.
  fill; [by apply carries_object_carries, carries_usage|]. fill_all. apply fills_nil.
Qed.

Lemma carries_process p : process_encodable p -> carries_object json_ProcessObservation (dec_struct false process_fields) zeroProcess 3 p.
Proof.
  intros (Ht & Ho & He & Hr). destruct p. simpl in *. each_text. eapply fills_struct; [reflexivity|]. cbn [app]. fill_all.
  fill_pointer; [intros r E; by apply object_pointer, carries_process_result, Hr|].
  fill; [apply (carries_mono _ _ _ 1); [lia|]; by apply carries_object_carries, carries_retention|].
  fill; [apply (carries_mono _ _ _ 1); [lia|]; by apply carries_object_carries, carries_retention|]. apply fills_nil.
Qed.

Lemma carries_observation o : observation_encodable o -> carries_object json_Observation (dec_struct false observation_fields) zeroObservation 4 o.
Proof.
  intros [Hs Hp]. destruct o. simpl in *. eapply fills_struct; [reflexivity|]. cbn [app].
  fill; [apply (carries_mono _ _ _ 2); [lia|]; by apply carries_object_carries, carries_sandbox|].
  rewrite <- (app_nil_r (omit_nil _ _ _)). fill_pointer; [intros p E; by apply object_pointer, carries_process, Hp|]. apply fills_nil.
Qed.

Lemma carries_result r : result_encodable r -> carries_object json_Result (dec_struct false result_fields) zeroResult 5 r.
Proof.
  intros (Ht & Hn & Ho & Hob). destruct r. simpl in *. each_text. eapply fills_struct; [reflexivity|]. cbn [app]. fill_all.
  fill_pointer; [intros o E; by apply object_pointer, carries_observation, Hob|]. fill_all. apply fills_nil.
Qed.

(** ** Signing *)

(** What is used of Ed25519: keys and signatures have their sizes, and a signature
    verifies under the public key of its seed. *)
Class Ed25519Laws `{Ed25519} : Prop := {
  public_size seed : len seed = 32 -> len (public_of seed) = PublicKeySize;
  signature_size key m : len key = PrivateKeySize -> len (ed25519_sign key m) = SignatureSize;
  signature_verifies seed m : len seed = 32 -> ed25519_verify (public_of seed) m (ed25519_sign (seed +:+ public_of seed) m) = true
}.

Class WireLaws (A : Type) `{WireMessage A} : Type := {
  wire_encodable : A -> Prop;
  wire_carries a : wire_encodable a -> carries_object wire_json (dec_struct false wire_fields) wire_zero 5 a;
  signature_set s a : wire_signature (set_signature s a) = s;
  set_signature_twice s t a : set_signature s (set_signature t a) = set_signature s a;
  set_signature_same a : set_signature (wire_signature a) a = a;
  encodable_set a s : wire_encodable a -> utf8 (bytes s) -> wire_encodable (set_signature s a);
  valid_set a s t : wire_valid (set_signature t a) = true -> bounded_signature s = true -> wire_valid (set_signature s a) = true
}.

Lemma object_within {A} (enc : A -> jval) dec zero k k' a : (k <= k')%nat -> carries_object enc dec zero k a -> carries_object enc dec zero k' a.
Proof. intros Hk (l & H1 & H2 & H3). exists l. split_and!; [done| |done]. intros n Hn. apply H2. lia. Qed.

(** The signature is the last field, and the last one that is validated. *)
Ltac valid_but_signature := intros a s t Hv Hs; destruct a; simpl in *; apply andb_true_iff in Hv as [Hv _]; apply andb_true_iff; by split.
Ltac encodable_but_signature := intros a s [Ht Hr] Hs; destruct a; split; [|done]; simpl in *; each_text; split_and!; first [done|by apply Forall_nil].
Ltac wire_law := first [by intros ? []|by intros ? ? []|by intros []|encodable_but_signature|valid_but_signature].

#[export] Instance envelope_laws : WireLaws Envelope.
Proof. refine {| wire_encodable := envelope_encodable |}; [|wire_law..]. intros a Ha. apply (object_within _ _ _ 1); [lia|]. by apply carries_envelope. Defined.

#[export] Instance result_laws : WireLaws Result.
Proof. refine {| wire_encodable := result_encodable |}; [|wire_law..]. apply carries_result. Defined.

#[export] Instance output_laws : WireLaws Output.
Proof. refine {| wire_encodable := output_encodable |}; [|wire_law..]. intros a Ha. apply (object_within _ _ _ 1); [lia|]. by apply carries_output_message. Defined.

#[export] Instance receipt_laws : WireLaws DataPlaneReceipt.
Proof. refine {| wire_encodable := receipt_encodable |}; [|wire_law..]. intros a Ha. apply (object_within _ _ _ 1); [lia|]. by apply carries_receipt. Defined.

Section messages.
Context {A : Type} `{WireLaws A}.

Lemma encode_decode_message m wire : wire_encodable m -> encodeSigned m = Some wire -> decode_message wire = Some m /\ 0 < len wire <= maxWireBytes.
Proof.
  intros Hm Hw. destruct (carries_parse _ _ _ _ _ (carries_object_carries _ _ _ _ _ (wire_carries m Hm))) as (text & d & H1 & H2 & H3);
    [apply Nat.leb_le; by vm_compute|].
  unfold encodeSigned in Hw. rewrite H1 in Hw. cbn [mbind option_bind] in Hw. destruct (maxWireBytes <? len text) eqn:El; [done|].
  assert (text = wire) as -> by congruence. destruct (read_value_spaces wire d H2) as (rest & Hr & Hs).
  assert (Hd : decode_message wire = Some m) by (unfold decode_message; by rewrite Hr, H3, Hs). split; [done|]. apply Z.ltb_ge in El.
  split; [|done]. destruct wire; [by rewrite (eq_refl : decode_message "" = None) in Hd|]. unfold len. simpl. lia.
Qed.

Context `{Ed25519Laws}.

(** What a signed message is made of. *)
Lemma sign_message_inv m key wire : sign_message m key = Some wire ->
  exists unsigned, marshal (wire_json (set_signature "" m)) = Some unsigned /\ wire_valid (set_signature "" m) = true /\ len key = PrivateKeySize /\
    encodeSigned (set_signature (EncodeToString (ed25519_sign key unsigned)) m) = Some wire.
Proof.
  unfold sign_message. destruct (_ || _) eqn:Eg; [done|]. apply orb_false_iff in Eg as [E1 E2]. rewrite negb_false_iff in E1, E2. apply Z.eqb_eq in E2.
  destruct (marshal _) as [unsigned|] eqn:Em; [|done]. cbn [mbind option_bind]. rewrite set_signature_twice. intros Hw. by exists unsigned.
Qed.

(** The message that is on the wire: the one given, with its signature. *)
Definition signed (m : A) (key : string) : A :=
  set_signature (EncodeToString (ed25519_sign key (default "" (marshal (wire_json (set_signature "" m)))))) m.

Lemma verify_encoded m wire sig accepts key unsigned :
  wire_encodable m -> encodeSigned m = Some wire -> wire_valid m = true -> accepts m = true -> len (key m) = PublicKeySize ->
  DecodeString (wire_signature m) = Some sig -> len sig = SignatureSize -> marshal (wire_json (set_signature "" m)) = Some unsigned ->
  ed25519_verify (key m) unsigned sig = true -> verify_message wire accepts key = Some m.
Proof.
  intros Hm Hw Hv Ha Hk Hs Hl Hu Hver. destruct (encode_decode_message m wire Hm Hw) as [Hd [Hl1 Hl2]]. unfold verify_message.
  rewrite (proj2 (Z.eqb_neq _ _)), (proj2 (Z.ltb_ge _ _)), Hd by lia. cbn [orb mbind option_bind]. rewrite Hw, bool_decide_eq_true_2, Hv, Ha by done.
  cbn [negb orb]. rewrite Hs. cbn [mbind option_bind]. rewrite Hk, Hl, !Z.eqb_refl. cbn [negb orb]. rewrite Hu. cbn [mbind option_bind]. by rewrite Hver.
Qed.

Lemma sign_verify_message m seed wire accepts key : len seed = 32 -> wire_encodable m -> sign_message m (seed +:+ public_of seed) = Some wire ->
  let s := signed m (seed +:+ public_of seed) in accepts s = true -> key s = public_of seed -> verify_message wire accepts key = Some s.
Proof.
  intros Hseed Hm Hs s Ha Hk. destruct (sign_message_inv m _ wire Hs) as (unsigned & Hu & Hv & Hlen & Hw).
  assert (Es : s = set_signature (EncodeToString (ed25519_sign (seed +:+ public_of seed) unsigned)) m) by (unfold s, signed; by rewrite Hu).
  apply (verify_encoded _ _ (ed25519_sign (seed +:+ public_of seed) unsigned) _ _ unsigned); rewrite ?Hk; try done; rewrite ?Es.
  - by apply encodable_set, EncodeToString_utf8.
  - done.
  - apply (valid_set _ _ ""); [done|]. unfold bounded_signature. rewrite EncodeToString_len by (by apply signature_size). by rewrite orb_true_r.
  - by apply public_size.
  - by rewrite signature_set, DecodeString_EncodeToString.
  - by apply signature_size.
  - by rewrite set_signature_twice.
  - by apply signature_verifies.
Qed.

(** A line end at the end of the signature changes the wire and not the verdict. *)
Lemma verify_malleable m seed wire wire' accepts key : len seed = 32 -> wire_encodable m -> sign_message m (seed +:+ public_of seed) = Some wire ->
  let s := signed m (seed +:+ public_of seed) in let s' := set_signature (wire_signature s +:+ of_bytes [10]) s in
  accepts s' = true -> key s' = public_of seed -> encodeSigned s' = Some wire' -> verify_message wire' accepts key = Some s' /\ wire' <> wire.
Proof.
  intros Hseed Hm Hs s s' Ha Hk Hw'. destruct (sign_message_inv m _ wire Hs) as (unsigned & Hu & Hv & Hlen & Hw).
  set (sig := EncodeToString (ed25519_sign (seed +:+ public_of seed) unsigned)) in *.
  assert (Es : s = set_signature sig m) by (unfold s, signed; by rewrite Hu).
  assert (Es' : s' = set_signature (sig +:+ of_bytes [10]) m) by (unfold s'; by rewrite Es, signature_set, set_signature_twice).
  assert (Hutf : utf8 (bytes (sig +:+ of_bytes [10]))).
  { rewrite bytes_app. apply utf8_concat; [apply EncodeToString_utf8|]. by apply valid_utf8. }
  assert (He' : wire_encodable s') by (rewrite Es'; by apply encodable_set).
  split.
  - apply (verify_encoded _ _ (ed25519_sign (seed +:+ public_of seed) unsigned) _ _ unsigned); rewrite ?Hk; try done; rewrite ?Es'.
    + apply (valid_set _ _ ""); [done|]. unfold bounded_signature, len. rewrite <- length_bytes, bytes_app, length_app, length_bytes.
      pose proof (EncodeToString_len (ed25519_sign (seed +:+ public_of seed) unsigned) (signature_size _ _ Hlen)) as Hl. unfold len in Hl. fold sig in Hl.
      rewrite orb_true_iff, Z.leb_le. right. change (length (bytes (of_bytes [10]))) with 1%nat. lia.
    + by apply public_size.
    + rewrite signature_set, DecodeString_line. apply DecodeString_EncodeToString.
    + by apply signature_size.
    + by rewrite set_signature_twice.
    + by apply signature_verifies.
  - intros ->. assert (He : wire_encodable s) by (rewrite Es; apply encodable_set; [done|apply EncodeToString_utf8]).
    destruct (encode_decode_message s wire He) as [D1 _]; [by rewrite Es|]. destruct (encode_decode_message s' wire He' Hw') as [D2 _].
    rewrite D1 in D2. injection D2 as E. apply (f_equal wire_signature) in E. rewrite Es, Es', !signature_set in E.
    apply (f_equal bytes) in E. rewrite bytes_app in E. apply (f_equal length) in E. rewrite length_app in E. simpl in E. lia.
Qed.
End messages.
