(* ===== verification/ControlTrust.v ===== *)
(** * Control trust

    internal/sandboxhostprotocol/trust.go: the versioned current and next control
    keys that a host trusts, their replacement, and signing and verifying deliveries
    with them. *)

From Stdlib Require Import Ascii String.
From S2P Require Import Prelude GoString Sha256 GoTime GoJson GoJsonText GoDecode TimeText HostProtocol HostFields HostWire.

Open Scope Z_scope.

Record SigningKey : Type := mkSigningKey {
  skey_ID : string;
  skey_Version : Z;
  skey_PublicKey : string;
  skey_NotBefore : Time;
  skey_NotAfter : Time
}.

Record TrustBundle : Type := mkTrustBundle {
  tbu_Version : Z;
  tbu_RevocationEpoch : Z;
  tbu_Current : SigningKey;
  tbu_Next : option SigningKey
}.

Record AtomicTrust : Type := mkAtomicTrust {
  atr_bundle : TrustBundle;
  atr_knownKeys : gmap string SigningKey;
  atr_retiredKeyIDs : gset string;
  atr_maximumKeyVersion : Z
}.

Definition trustKeys (b : TrustBundle) : list SigningKey := tbu_Current b :: match tbu_Next b with Some k => [k] | None => [] end.

Definition maximumTrustKeyVersion (b : TrustBundle) : Z :=
  match tbu_Next b with
  | Some next => if skey_Version (tbu_Current b) <? skey_Version next then skey_Version next else skey_Version (tbu_Current b)
  | None => skey_Version (tbu_Current b)
  end.

Definition containsTrustKey (b : TrustBundle) (id : string) : bool :=
  (skey_ID (tbu_Current b) ≟ id) || match tbu_Next b with Some next => skey_ID next ≟ id | None => false end.

Definition sameSigningKey (l r : SigningKey) : bool :=
  (skey_ID l ≟ skey_ID r) && (skey_Version l =? skey_Version r) && (skey_PublicKey l ≟ skey_PublicKey r) &&
  (instant (skey_NotBefore l) =? instant (skey_NotBefore r)) && (instant (skey_NotAfter l) =? instant (skey_NotAfter r)).

Definition validSigningKey (k : SigningKey) : bool :=
  boundedID (skey_ID k) 128 && (0 <? skey_Version k) && (len (skey_PublicKey k) =? PublicKeySize) && negb (IsZero (skey_NotBefore k)) &&
  negb (IsZero (skey_NotAfter k)) && isUTC (skey_NotBefore k) && isUTC (skey_NotAfter k) && After (skey_NotAfter k) (skey_NotBefore k).

Definition validTrustBundle (b : TrustBundle) : bool :=
  if (tbu_Version b =? 0) || (tbu_RevocationEpoch b =? 0) || negb (validSigningKey (tbu_Current b)) then false
  else match tbu_Next b with
       | None => true
       | Some next =>
         validSigningKey next && (skey_ID (tbu_Current b) ≠? skey_ID next) && (skey_Version (tbu_Current b) <? skey_Version next) &&
         (skey_PublicKey (tbu_Current b) ≠? skey_PublicKey next)
       end.

Definition keyCoversEnvelope (k : SigningKey) (v : Envelope) : bool :=
  negb (Before (evl_IssuedAt v) (skey_NotBefore k)) && negb (After (evl_ExpiresAt v) (skey_NotAfter k)).

Definition trustedKey (b : TrustBundle) (id : string) (version : Z) : option SigningKey :=
  if (skey_ID (tbu_Current b) ≟ id) && (skey_Version (tbu_Current b) =? version) then Some (tbu_Current b)
  else match tbu_Next b with
       | Some next => if (skey_ID next ≟ id) && (skey_Version next =? version) then Some next else None
       | None => None
       end.

(** ** The trust of a process *)

Definition known_by_id (keys : list SigningKey) (known : gmap string SigningKey) : gmap string SigningKey :=
  foldl (fun known k => <[skey_ID k := k]> known) known keys.

Definition NewAtomicTrust (b : TrustBundle) : option AtomicTrust :=
  if negb (validTrustBundle b) then None
  else Some (mkAtomicTrust b (known_by_id (trustKeys b) ∅) ∅ (maximumTrustKeyVersion b)).

Definition Snapshot (t : AtomicTrust) : TrustBundle := atr_bundle t.

Inductive TrustError : Type :=
| InvalidBundle
| Regressed
| RetiredKey
| KeyMutation
| KeyVersionRegressed
| KeyMaterialReused.

(** The checks of one key of the new bundle. *)
Definition key_refused (t : AtomicTrust) (k : SigningKey) : option TrustError :=
  if bool_decide (skey_ID k ∈ atr_retiredKeyIDs t) then Some RetiredKey
  else match atr_knownKeys t !! skey_ID k with
       | Some known => if sameSigningKey known k then None else Some KeyMutation
       | None =>
         if skey_Version k <=? atr_maximumKeyVersion t then Some KeyVersionRegressed
         else if existsb (fun ik => negb (bool_decide (ik.1 = skey_ID k)) && (skey_PublicKey ik.2 ≟ skey_PublicKey k)) (map_to_list (atr_knownKeys t))
         then Some KeyMaterialReused
         else None
       end.

Fixpoint keys_refused (t : AtomicTrust) (keys : list SigningKey) : option TrustError :=
  match keys with
  | [] => None
  | k :: keys => match key_refused t k with Some e => Some e | None => keys_refused t keys end
  end.

Definition Update (b : TrustBundle) (t : AtomicTrust) : res TrustError unit * AtomicTrust :=
  if negb (validTrustBundle b) then (Err InvalidBundle, t)
  else if (tbu_Version b <=? tbu_Version (atr_bundle t)) || (tbu_RevocationEpoch b <? tbu_RevocationEpoch (atr_bundle t)) then (Err Regressed, t)
  else match keys_refused t (trustKeys b) with
       | Some e => (Err e, t)
       | None =>
         let retired := foldl (fun r k => if containsTrustKey b (skey_ID k) then r else {[skey_ID k]} ∪ r) (atr_retiredKeyIDs t) (trustKeys (atr_bundle t)) in
         let known := foldl (fun m k => if bool_decide (m !! skey_ID k = None) then <[skey_ID k := k]> m else m) (atr_knownKeys t) (trustKeys b) in
         let maximum := foldl (fun m k => if m <? skey_Version k then skey_Version k else m) (atr_maximumKeyVersion t) (trustKeys b) in
         (Ok tt, mkAtomicTrust b known retired maximum)
       end.

(** ** Deliveries *)

Section deliveries.
Context `{Ed25519}.

(** The delivery with the key version and revocation epoch of the bundle. *)
Definition bind_trust (b : TrustBundle) (v : Envelope) : Envelope :=
  set_evl_ControlRevocationEpoch (tbu_RevocationEpoch b) (set_evl_ControlKeyVersion (skey_Version (tbu_Current b)) (set_evl_ControlKeyID (skey_ID (tbu_Current b)) v)).

Definition SignEnvelopeWithTrust (v : Envelope) (b : TrustBundle) (privateKey : string) : option string :=
  if negb (validTrustBundle b) || negb (len privateKey =? PrivateKeySize) || (Public privateKey ≠? skey_PublicKey (tbu_Current b)) ||
     negb (keyCoversEnvelope (tbu_Current b) v) then None
  else SignEnvelope (bind_trust b v) (skey_ID (tbu_Current b)) privateKey.

Definition trust_keys_map (b : TrustBundle) : gmap string string :=
  let keys := {[skey_ID (tbu_Current b) := skey_PublicKey (tbu_Current b)]} in
  match tbu_Next b with Some next => <[skey_ID next := skey_PublicKey next]> keys | None => keys end.

Definition VerifyEnvelopeWithTrust (wire hostID : string) (generation : Z) (now : Time) (b : TrustBundle) : option Envelope :=
  if negb (validTrustBundle b) then None
  else
    v ← VerifyEnvelope wire hostID generation now (trust_keys_map b);
    if (evl_ControlKeyVersion v =? 0) || negb (evl_ControlRevocationEpoch v =? tbu_RevocationEpoch b) then None
    else
      k ← trustedKey b (evl_ControlKeyID v) (evl_ControlKeyVersion v);
      if keyCoversEnvelope k v then Some v else None.
End deliveries.
