(* ===== verification/TrustTheorems.v ===== *)
(** * Control trust: theorems

    The lineage of the trusted keys under any sequence of updates ([trust_lineage]),
    exactly which deliveries a host accepts after them ([delivery_accepted]), and that
    a signed delivery has more than one wire ([delivery_malleable]). *)

From Stdlib Require Import Ascii String.
From S2P Require Import Prelude GoString Keys Sha256 GoTime GoJson GoJsonText JsonFacts JsonStrings JsonValues GoDecode DecodeFacts TimeText HostProtocol DigestFacts HostFields HostWire HostWireFacts ControlTrust.

Open Scope Z_scope.

(** ** Lineage *)

Inductive trust_step (t : AtomicTrust) : AtomicTrust -> Prop :=
| trust_update b : trust_step t (Update b t).2.

Record trust_wf (t : AtomicTrust) : Prop := mkTrustWf {
  twf_bundle : validTrustBundle (atr_bundle t) = true;
  twf_keys k : k ∈ trustKeys (atr_bundle t) -> atr_knownKeys t !! skey_ID k = Some k;
  twf_ids i k : atr_knownKeys t !! i = Some k -> skey_ID k = i /\ validSigningKey k = true /\ skey_Version k <= atr_maximumKeyVersion t;
  twf_material i j k l : atr_knownKeys t !! i = Some k -> atr_knownKeys t !! j = Some l -> skey_PublicKey k = skey_PublicKey l -> i = j;
  twf_accounted i : is_Some (atr_knownKeys t !! i) -> containsTrustKey (atr_bundle t) i = true \/ i ∈ atr_retiredKeyIDs t;
  twf_retired i : i ∈ atr_retiredKeyIDs t -> containsTrustKey (atr_bundle t) i = false
}.

Record trust_le (t t' : AtomicTrust) : Prop := mkTrustLe {
  tle_known : atr_knownKeys t ⊆ atr_knownKeys t';
  tle_retired : atr_retiredKeyIDs t ⊆ atr_retiredKeyIDs t';
  tle_version : tbu_Version (atr_bundle t) <= tbu_Version (atr_bundle t');
  tle_epoch : tbu_RevocationEpoch (atr_bundle t) <= tbu_RevocationEpoch (atr_bundle t');
  tle_same : tbu_Version (atr_bundle t) = tbu_Version (atr_bundle t') -> atr_bundle t = atr_bundle t'
}.

Lemma contains_key b id : containsTrustKey b id = true <-> exists k, k ∈ trustKeys b /\ skey_ID k = id.
Proof.
  unfold containsTrustKey, trustKeys. rewrite orb_true_iff, bool_decide_eq_true. destruct (tbu_Next b) as [next|].
  - rewrite bool_decide_eq_true. split; [intros [H|H]; eexists; (split; [|exact H]); set_solver|intros (k & Hk & <-); set_solver].
  - split; [intros [H|]; [|done]; eexists; (split; [|exact H]); set_solver|intros (k & Hk & <-); set_solver].
Qed.

Lemma bundle_keys b : validTrustBundle b = true ->
  (forall k, k ∈ trustKeys b -> validSigningKey k = true) /\
  (forall k l, k ∈ trustKeys b -> l ∈ trustKeys b -> skey_ID k = skey_ID l \/ skey_PublicKey k = skey_PublicKey l -> k = l) /\
  NoDup (skey_ID <$> trustKeys b).
Proof.
  unfold validTrustBundle, trustKeys. destruct (_ || _) eqn:Eg; [done|]. rewrite !orb_false_iff, negb_false_iff in Eg. destruct Eg as [_ Hc].
  destruct (tbu_Next b) as [next|]; intros Hv.
  - rewrite !andb_true_iff, !negb_true_iff, !bool_decide_eq_false in Hv. destruct Hv as [[[Hn Hid] _] Hp]. split_and!.
    + intros k. rewrite !elem_of_cons, elem_of_nil. naive_solver.
    + intros k l. rewrite !elem_of_cons, !elem_of_nil. naive_solver.
    + simpl. rewrite !NoDup_cons, elem_of_cons, elem_of_nil. split_and!; [naive_solver|set_solver|constructor].
  - split_and!; [set_solver|set_solver|]. simpl. rewrite !NoDup_cons. split_and!; [set_solver|constructor].
Qed.

Lemma same_key k l : validSigningKey k = true -> validSigningKey l = true -> sameSigningKey k l = true -> k = l.
Proof.
  destruct k as [i v p [nb lb] [na la]], l as [i' v' p' [nb' lb'] [na' la']]. unfold validSigningKey, sameSigningKey, isUTC. cbn.
  rewrite !andb_true_iff, !bool_decide_eq_true, !Z.eqb_eq. naive_solver.
Qed.

(** The fold that makes new keys known. *)
Definition learn (m : gmap string SigningKey) (k : SigningKey) : gmap string SigningKey :=
  if bool_decide (m !! skey_ID k = None) then <[skey_ID k := k]> m else m.

Lemma learn_all keys m : NoDup (skey_ID <$> keys) ->
  m ⊆ foldl learn m keys /\
  (forall k, k ∈ keys -> m !! skey_ID k = None -> foldl learn m keys !! skey_ID k = Some k) /\
  (forall i k, foldl learn m keys !! i = Some k -> m !! i = Some k \/ m !! i = None /\ k ∈ keys /\ skey_ID k = i).
Proof.
  revert m. induction keys as [|k keys IH]; intros m Hn; [split_and!; [done|set_solver|auto]|]. cbn [foldl fmap list_fmap] in *.
  apply NoDup_cons in Hn as [Hk Hn]. destruct (IH (learn m k) Hn) as (H1 & H2 & H3).
  assert (Hsub : m ⊆ learn m k) by (unfold learn; case_bool_decide; [by apply insert_subseteq|done]).
  split_and!.
  - exact (transitivity Hsub H1).
  - intros l [->|Hl]%elem_of_cons Hm.
    + eapply lookup_weaken; [|exact H1].
      unfold learn. rewrite bool_decide_eq_true_2 by done. apply lookup_insert_eq.
    + apply H2; [done|]. unfold learn. case_bool_decide; [|done]. rewrite lookup_insert_ne; [done|].
      intros E. destruct Hk. rewrite E. by apply list_elem_of_fmap_2.
  - intros i l [Hl|(Hl & Hin & Hid)]%H3.
    + unfold learn in Hl. case_bool_decide as Hb; [|auto]. apply lookup_insert_Some in Hl as [[<- <-]|[_ Hl]]; [|auto]. right. set_solver.
    + right. split_and!; [|set_solver|done]. unfold learn in Hl. case_bool_decide; [|done]. by apply lookup_insert_None in Hl as [? _].
Qed.

Lemma maximum_fold keys m : m <= foldl (fun m k => if m <? skey_Version k then skey_Version k else m) m keys /\
  forall k, k ∈ keys -> skey_Version k <= foldl (fun m k => if m <? skey_Version k then skey_Version k else m) m keys.
Proof.
  revert m. induction keys as [|k keys IH]; intros m; [split; [done|set_solver]|]. cbn [foldl]. destruct (IH (if m <? skey_Version k then skey_Version k else m)) as [H1 H2].
  assert (m <= (if m <? skey_Version k then skey_Version k else m) /\ skey_Version k <= (if m <? skey_Version k then skey_Version k else m)) as [H3 H4]
    by (destruct (m <? skey_Version k) eqn:E; bools; lia).
  split; [lia|]. intros l [->|Hl]%elem_of_cons; [lia|auto].
Qed.

Lemma retired_fold b keys (r : gset string) (i : string) :
  i ∈ foldl (fun r k => if containsTrustKey b (skey_ID k) then r else {[skey_ID k]} ∪ r) r keys <->
  i ∈ r \/ exists k, k ∈ keys /\ skey_ID k = i /\ containsTrustKey b i = false.
Proof.
  revert r. induction keys as [|k keys IH]; intros r; [cbn; set_solver|]. cbn [foldl]. rewrite IH.
  destruct (containsTrustKey b (skey_ID k)) eqn:E.
  - split; [set_solver|]. intros [H|(l & [->|Hl]%elem_of_cons & Hid & Hc)]; [auto|congruence|eauto].
  - rewrite elem_of_union, elem_of_singleton. split.
    + intros [[->|H]|(l & Hl & H)]; [right; exists k; set_solver|auto|right; exists l; set_solver].
    + intros [H|(l & [->|Hl]%elem_of_cons & Hid & Hc)]; [auto|auto|eauto].
Qed.

Lemma keys_accepted t keys : keys_refused t keys = None -> forall k, k ∈ keys -> key_refused t k = None.
Proof.
  induction keys as [|k keys IH]; intros H l Hl; [set_solver|]. cbn [keys_refused] in H. destruct (key_refused t k) eqn:E; [done|].
  apply elem_of_cons in Hl as [->|Hl]; auto.
Qed.

Lemma key_accepted t k : key_refused t k = None -> skey_ID k ∉ atr_retiredKeyIDs t /\
  (exists known, atr_knownKeys t !! skey_ID k = Some known /\ sameSigningKey known k = true \/
   atr_knownKeys t !! skey_ID k = None /\ atr_maximumKeyVersion t < skey_Version k /\
     forall i l, atr_knownKeys t !! i = Some l -> skey_PublicKey l <> skey_PublicKey k).
Proof.
  unfold key_refused. case_bool_decide as Hr; [done|]. intros H. split; [done|]. destruct (atr_knownKeys t !! skey_ID k) as [known|] eqn:Ek.
  - exists known. left. by destruct (sameSigningKey known k).
  - exists k. right. destruct (skey_Version k <=? _) eqn:Ev; [done|]. apply Z.leb_gt in Ev. destruct (existsb _ _) eqn:Ee; [done|].
    split_and!; [done..|]. intros i l Hl Hp. assert (Hx : existsb (fun ik => negb (bool_decide (ik.1 = skey_ID k)) && (skey_PublicKey ik.2 ≟ skey_PublicKey k)) (map_to_list (atr_knownKeys t)) = true); [|congruence].
    apply existsb_exists. exists (i, l). split; [by apply list_elem_of_In, elem_of_map_to_list|]. cbn.
    rewrite bool_decide_eq_false_2, bool_decide_eq_true_2; [done|done|congruence].
Qed.

Lemma new_trust_wf b t : NewAtomicTrust b = Some t -> trust_wf t.
Proof.
  unfold NewAtomicTrust. destruct (validTrustBundle b) eqn:Hv; [|done]. intros [= <-]. destruct (bundle_keys b Hv) as (Hk & Hd & _).
  assert (Hknown : forall i k, known_by_id (trustKeys b) ∅ !! i = Some k <-> k ∈ trustKeys b /\ skey_ID k = i).
  { intros i k. unfold known_by_id. unfold trustKeys in *. destruct (tbu_Next b) as [next|]; cbn [foldl].
    - rewrite !lookup_insert_Some, lookup_empty, !elem_of_cons, elem_of_nil.
      assert (Heq : skey_ID (tbu_Current b) = skey_ID next -> tbu_Current b = next) by (intros E; apply Hd; set_solver). split.
      + intros [[<- <-]|[_ [[<- <-]|[_ [=]]]]]; auto.
      + intros [[->|[->|[]]] <-]; [|by left]. destruct (decide (skey_ID next = skey_ID (tbu_Current b))) as [E|]; [left|right; auto].
        split; [done|]. symmetry. by apply Heq.
    - rewrite lookup_insert_Some, lookup_empty, elem_of_cons, elem_of_nil. split; [intros [[<- <-]|[_ [=]]]; auto|intros [[->|[]] <-]; auto]. }
  split; cbn [atr_bundle atr_knownKeys atr_retiredKeyIDs atr_maximumKeyVersion].
  - done.
  - intros k Hin. by apply Hknown.
  - intros i k [Hin Hid]%Hknown. split_and!; [done|auto|]. unfold maximumTrustKeyVersion, trustKeys in *.
    destruct (tbu_Next b) as [next|]; [destruct (_ <? _) eqn:E; bools|]; rewrite ?elem_of_cons, ?elem_of_nil in Hin; naive_solver lia.
  - intros i j k l [H1 <-]%Hknown [H2 <-]%Hknown Hp. f_equal. auto.
  - intros i [k [Hin Hid]%Hknown]. left. apply contains_key. eauto.
  - set_solver.
Qed.

Lemma update_wf b t : trust_wf t -> trust_wf (Update b t).2 /\ trust_le t (Update b t).2.
Proof.
  intros Ht. assert (Hrefl : trust_le t t) by (by split). unfold Update. destruct (validTrustBundle b) eqn:Hv; [|done]. cbn [negb].
  destruct (_ || _) eqn:Eg; [done|]. apply orb_false_iff in Eg as [Ever Eep]. apply Z.leb_gt in Ever. apply Z.ltb_ge in Eep.
  destruct (keys_refused t (trustKeys b)) as [e|] eqn:Er; [done|]. pose proof (keys_accepted t _ Er) as Hacc. cbn [snd].
  destruct (bundle_keys b Hv) as (Hvalid & Hdist & Hnodup). destruct (learn_all (trustKeys b) (atr_knownKeys t) Hnodup) as (L1 & L2 & L3).
  destruct (maximum_fold (trustKeys b) (atr_maximumKeyVersion t)) as [M1 M2]. pose proof (retired_fold b (trustKeys (atr_bundle t)) (atr_retiredKeyIDs t)) as R.
  change (fun m k => if bool_decide (m !! skey_ID k = None) then <[skey_ID k := k]> m else m) with learn in *.
  set (known := foldl learn (atr_knownKeys t) (trustKeys b)) in *. set (retired := foldl _ (atr_retiredKeyIDs t) _) in *.
  set (maximum := foldl _ (atr_maximumKeyVersion t) _) in *.
  assert (Hkeys : forall k, k ∈ trustKeys b -> known !! skey_ID k = Some k).
  { intros k Hk. destruct (key_accepted t k (Hacc k Hk)) as [_ (l & [[Hl Hs]|[Hn _]])]; [|by apply L2].
    destruct (twf_ids t Ht _ _ Hl) as (_ & Hlv & _). rewrite <- (same_key l k Hlv (Hvalid k Hk) Hs) at 2. by eapply lookup_weaken. }
  split; [|split; cbn; [done|intros i Hi; apply R; auto|lia|done|lia]].
  split; cbn [atr_bundle atr_knownKeys atr_retiredKeyIDs atr_maximumKeyVersion].
  - done.
  - done.
  - intros i k [Hk|(_ & Hk & Hid)]%L3; [destruct (twf_ids t Ht _ _ Hk) as (? & ? & ?); split_and!; [done..|lia]|]. split_and!; auto.
  - intros i j k l Hk Hl Hp. destruct (L3 _ _ Hk) as [Hk'|(Nk & Ik & <-)], (L3 _ _ Hl) as [Hl'|(Nl & Il & <-)].
    + by eapply (twf_material t Ht).
    + destruct (key_accepted t l (Hacc l Il)) as [_ (x & [[Hx _]|(_ & _ & Hm)])]; [congruence|]. by destruct (Hm i k Hk').
    + destruct (key_accepted t k (Hacc k Ik)) as [_ (x & [[Hx _]|(_ & _ & Hm)])]; [congruence|]. by destruct (Hm j l Hl').
    + f_equal. auto.
  - intros i [k Hk]. destruct (containsTrustKey b i) eqn:Ec; [by left|right]. apply R. destruct (L3 _ _ Hk) as [Hk'|(_ & Ik & Hid)].
    + destruct (twf_accounted t Ht i) as [Hc|Hr]; [by exists k| |by left]. apply contains_key in Hc as (l & Hl & Hid). right. by exists l.
    + assert (containsTrustKey b i = true) by (apply contains_key; eauto). congruence.
  - intros i [Hi|(k & _ & _ & Hc)]%R; [|done]. destruct (containsTrustKey b i) eqn:Ec; [|done]. apply contains_key in Ec as (k & Hk & <-).
    by destruct (key_accepted t k (Hacc k Hk)).
Qed.

#[export] Instance trust_le_preorder : PreOrder trust_le.
Proof.
  split; [by split|]. intros a b c [A1 A2 A3 A4 A5] [B1 B2 B3 B4 B5].
  split; [exact (transitivity A1 B1)|set_solver|lia|lia|]. intros E. rewrite A5, B5 by lia. done.
Qed.

Lemma run_wf t t' : trust_wf t -> rtc trust_step t t' -> trust_wf t' /\ trust_le t t'.
Proof.
  intros Ht Hr. revert Ht. induction Hr as [t|t t1 t2 [b] _ IH]; intros Ht; [done|]. destruct (update_wf b t Ht) as [H1 H2], (IH H1) as [H3 H4].
  split; [done|]. by etrans.
Qed.

(** C27: The lineage of the control keys.  Whatever bundles a host is given, valid or
    not, from any moment [t] to any later moment [t']: the version and the revocation
    epoch of its trust do not fall, and the bundle only changes with the version; a key ID
    never denotes another key, and no public key appears under two IDs; and an ID that
    has left the bundle is in no later bundle ([t'']). *)
Theorem trust_lineage b0 t0 t t' t'' :
  NewAtomicTrust b0 = Some t0 -> rtc trust_step t0 t -> rtc trust_step t t' -> rtc trust_step t' t'' ->
  let b := Snapshot t in let b' := Snapshot t' in
  tbu_Version b <= tbu_Version b' /\ tbu_RevocationEpoch b <= tbu_RevocationEpoch b' /\ (tbu_Version b = tbu_Version b' -> b = b') /\
  (forall k k', k ∈ trustKeys b -> k' ∈ trustKeys b' -> skey_ID k = skey_ID k' \/ skey_PublicKey k = skey_PublicKey k' -> k = k') /\
  (forall id, containsTrustKey b id = true -> containsTrustKey b' id = false -> containsTrustKey (Snapshot t'') id = false).
Proof.
  intros H0%new_trust_wf H1 H2 H3 b b'. destruct (run_wf t0 t H0 H1) as [W1 _], (run_wf t t' W1 H2) as [W2 L2], (run_wf t' t'' W2 H3) as [W3 L3].
  unfold b, b', Snapshot. clear b b'. split_and!; [apply L2..| |].
  - intros k k' Hk Hk' He. pose proof (lookup_weaken _ _ _ _ (twf_keys t W1 k Hk) (tle_known _ _ L2)) as K. pose proof (twf_keys t' W2 k' Hk') as K'.
    assert (skey_ID k = skey_ID k') as E by (destruct He as [E|E]; [done|by apply (twf_material t' W2 _ _ k k')]). rewrite E in K. congruence.
  - intros id (k & Hk & <-)%contains_key Hc. apply (twf_retired t'' W3), (tle_retired _ _ L3).
    destruct (twf_accounted t' W2 (skey_ID k)) as [E|]; [|congruence|done]. exists k. exact (lookup_weaken _ _ _ _ (twf_keys t W1 k Hk) (tle_known _ _ L2)).
Qed.

(** ** Deliveries *)

Section deliveries.
Context `{Ed25519Laws}.

(** A delivery as it is on the wire. *)
Definition delivered (b : TrustBundle) (v : Envelope) (key : string) : Envelope := signed (bind_trust b v) key.

Lemma SignEnvelopeWithTrust_inv v b key wire : SignEnvelopeWithTrust v b key = Some wire ->
  validTrustBundle b = true /\ Public key = skey_PublicKey (tbu_Current b) /\ keyCoversEnvelope (tbu_Current b) v = true /\
  sign_message (bind_trust b v) key = Some wire.
Proof.
  unfold SignEnvelopeWithTrust. destruct (_ || _) eqn:Eg; [done|]. rewrite !orb_false_iff, !negb_false_iff, bool_decide_eq_true in Eg. destruct Eg as [[[E1 E2] E3] E4].
  unfold SignEnvelope. destruct (boundedID _ _); [|done]. cbn [negb]. intros Hs. split_and!; [done..|]. rewrite <- Hs. by destruct v.
Qed.

Lemma Public_pair seed p : len seed = 32 -> Public (seed +:+ p) = p.
Proof. unfold len, Public. intros Hl. replace 32%nat with (String.length seed) by lia. clear Hl. induction seed as [|c seed IH]; [by destruct p|exact IH]. Qed.

Lemma verify_declined {A} `{WireLaws A} (m : A) wire accepts key : decode_message wire = Some m -> accepts m = false \/ key m = "" ->
  verify_message wire accepts key = None.
Proof.
  intros Hd Hc. unfold verify_message. destruct (_ || _); [done|]. rewrite Hd. cbn [mbind option_bind].
  destruct (_ ≠? _); [done|]. destruct (wire_valid m); [|done]. cbn [negb orb]. destruct Hc as [->| ->]; [done|].
  destruct (accepts m); [|done]. cbn [negb]. by destruct (DecodeString _).
Qed.

Lemma trust_key_current b' k : validTrustBundle b' = true -> k ∈ trustKeys b' ->
  trust_keys_map b' !! skey_ID k = Some (skey_PublicKey k) /\ trustedKey b' (skey_ID k) (skey_Version k) = Some k.
Proof.
  intros Hv Hk. destruct (bundle_keys b' Hv) as (_ & Hd & _). unfold trust_keys_map, trustedKey, trustKeys in *. destruct (tbu_Next b') as [next|].
  - assert (Hcn : skey_ID (tbu_Current b') = skey_ID next -> tbu_Current b' = next) by (intros E; apply Hd; set_solver).
    rewrite !elem_of_cons, elem_of_nil in Hk. destruct Hk as [->|[->|[]]].
    + destruct (decide (skey_ID next = skey_ID (tbu_Current b'))) as [E|E].
      * rewrite <- (Hcn (eq_sym E)). rewrite lookup_insert_eq, bool_decide_eq_true_2, Z.eqb_refl by done. done.
      * rewrite lookup_insert_ne, lookup_singleton_eq, bool_decide_eq_true_2, Z.eqb_refl by done. done.
    + rewrite lookup_insert_eq, (bool_decide_eq_true_2 (skey_ID next = skey_ID next)), Z.eqb_refl by done. split; [done|].
      case_bool_decide as E; [|done]. rewrite (Hcn E), Z.eqb_refl. done.
  - apply list_elem_of_singleton in Hk as ->. rewrite lookup_singleton_eq, bool_decide_eq_true_2, Z.eqb_refl by done. done.
Qed.

Lemma trust_key_absent b' id : containsTrustKey b' id = false -> trust_keys_map b' !! id = None.
Proof.
  unfold containsTrustKey, trust_keys_map. rewrite orb_false_iff, bool_decide_eq_false. destruct (tbu_Next b') as [next|].
  - rewrite bool_decide_eq_false. intros [H1 H2]. by rewrite lookup_insert_ne, lookup_singleton_ne.
  - intros [H1 _]. by rewrite lookup_singleton_ne.
Qed.

Lemma current_version b : validTrustBundle b = true -> skey_Version (tbu_Current b) =? 0 = false.
Proof.
  intros Hb. destruct (bundle_keys b Hb) as [Hvalid _]. pose proof (Hvalid _ (list_elem_of_here _ _)) as Hv. unfold validSigningKey in Hv.
  rewrite !andb_true_iff, Z.ltb_lt in Hv. apply Z.eqb_neq. lia.
Qed.

(** Whether a host with the given trust takes the delivery. *)
Definition takes (b b' : TrustBundle) (v : Envelope) (hostID : string) (generation : Z) (now : Time) : bool :=
  negb (IsZero now) && (evl_HostID v ≟ hostID) && (evl_HostGeneration v =? generation) && negb (Before now (evl_IssuedAt v)) && Before now (evl_ExpiresAt v) &&
  (tbu_RevocationEpoch b =? tbu_RevocationEpoch b') && containsTrustKey b' (skey_ID (tbu_Current b)).
End deliveries.

Lemma delivered_fields `{Scheme : Ed25519, Laws : !Ed25519Laws} b v key : let d := delivered b v key in
  evl_HostID d = evl_HostID v /\ evl_HostGeneration d = evl_HostGeneration v /\ evl_IssuedAt d = evl_IssuedAt v /\ evl_ExpiresAt d = evl_ExpiresAt v /\
  evl_ControlKeyID d = skey_ID (tbu_Current b) /\ evl_ControlKeyVersion d = skey_Version (tbu_Current b) /\
  evl_ControlRevocationEpoch d = tbu_RevocationEpoch b.
Proof. unfold delivered, signed. generalize (EncodeToString (ed25519_sign key (default "" (marshal (wire_json (set_signature "" (bind_trust b v))))))). by destruct v. Qed.

Lemma delivered_decodes `{Scheme : Ed25519, Laws : !Ed25519Laws} b v key wire : envelope_encodable (bind_trust b v) -> sign_message (bind_trust b v) key = Some wire ->
  decode_message wire = Some (delivered b v key).
Proof.
  intros He Hs. destruct (sign_message_inv _ _ _ Hs) as (unsigned & Hu & _ & _ & Hw).
  assert (E : delivered b v key = set_signature (EncodeToString (ed25519_sign key unsigned)) (bind_trust b v)) by (unfold delivered, signed; by rewrite Hu).
  rewrite <- E in Hw. apply (encode_decode_message (delivered b v key) wire); [|done]. rewrite E. apply (encodable_set (A := Envelope)); [done|apply EncodeToString_utf8].
Qed.

(** C28: Which deliveries a host takes.  Control signs a delivery under the trust of one
    moment ([t]), with the private key of its current key; a host with a later trust ([t'])
    verifies the wire.  It takes the delivery, as it was signed, exactly when it is
    addressed to this host and generation, the time is within its validity, the
    revocation epoch has not been raised, and the signing key has not left the bundle.
    Otherwise it refuses. *)
Theorem delivery_accepted `{Scheme : Ed25519, Laws : !Ed25519Laws} b0 t0 t t' v seed wire hostID generation now :
  NewAtomicTrust b0 = Some t0 -> rtc trust_step t0 t -> rtc trust_step t t' ->
  len seed = 32 -> envelope_encodable (bind_trust (Snapshot t) v) ->
  SignEnvelopeWithTrust v (Snapshot t) (seed +:+ public_of seed) = Some wire ->
  VerifyEnvelopeWithTrust wire hostID generation now (Snapshot t') =
  if takes (Snapshot t) (Snapshot t') v hostID generation now then Some (delivered (Snapshot t) v (seed +:+ public_of seed)) else None.
Proof.
  intros H0%new_trust_wf H1 H2 Hseed He Hs. destruct (run_wf t0 t H0 H1) as [W1 _], (run_wf t t' W1 H2) as [W2 L2]. unfold Snapshot in *.
  set (b := atr_bundle t) in *. set (b' := atr_bundle t') in *. set (key := seed +:+ public_of seed) in *.
  destruct (SignEnvelopeWithTrust_inv _ _ _ _ Hs) as (Hb & Hpub & Hcov & Hsm). pose proof (delivered_decodes b v key wire He Hsm) as Hdec.
  unfold key in Hpub. rewrite Public_pair in Hpub by done. fold key in Hpub.
  pose proof (delivered_fields b v key) as Hf. cbn zeta in Hf. set (d := delivered b v key) in *. destruct Hf as (F1 & F2 & F3 & F4 & F5 & F6 & F7).
  unfold VerifyEnvelopeWithTrust, VerifyEnvelope, takes. rewrite (twf_bundle t' W2 : validTrustBundle b' = true). cbn [negb]. destruct (IsZero now); [done|]. cbn [negb andb].
  set (accepts := fun v => (evl_HostID v ≟ hostID) && _ && _ && _). set (keys := fun v => default "" _).
  assert (Ea : accepts d = (evl_HostID v ≟ hostID) && (evl_HostGeneration v =? generation) && negb (Before now (evl_IssuedAt v)) && Before now (evl_ExpiresAt v))
    by (unfold accepts; by rewrite F1, F2, F3, F4).
  rewrite <- Ea. destruct (accepts d) eqn:Eacc; [|by rewrite (verify_declined d) by auto]. cbn [andb].
  destruct (containsTrustKey b' (skey_ID (tbu_Current b))) eqn:Ec.
  2: { rewrite (verify_declined d), andb_false_r; [done|done|]. right. unfold keys. by rewrite F5, trust_key_absent. }
  apply contains_key in Ec as (k & Hk & Hid).
  assert (k = tbu_Current b) as ->.
  { pose proof (twf_keys t W1 (tbu_Current b) (list_elem_of_here _ _)) as K. pose proof (lookup_weaken _ _ _ _ K (tle_known _ _ L2)) as K'.
    pose proof (twf_keys t' W2 k Hk) as K''. rewrite Hid in K''. congruence. }
  destruct (trust_key_current b' _ (twf_bundle t' W2) Hk) as [Hm Ht].
  assert (He' : wire_encodable (bind_trust b v)) by exact He.
  unfold key in Hsm. rewrite (sign_verify_message (bind_trust b v) seed wire accepts keys Hseed He' Hsm Eacc).
  2: { change (keys d = public_of seed). unfold keys. by rewrite F5, Hm, Hpub. }
  change (signed (bind_trust b v) (seed +:+ public_of seed)) with d. cbn [mbind option_bind]. rewrite F5, F6, F7, Ht, andb_true_r.
  rewrite (current_version b Hb). destruct (tbu_RevocationEpoch b =? tbu_RevocationEpoch b'); [|done]. cbn [negb orb mbind option_bind].
  unfold keyCoversEnvelope in *. by rewrite F3, F4, Hcov.
Qed.

(** The wire of a delivery is not unique.  A signed delivery with a line end appended
    to its signature is another wire, and the host takes it as well, although the
    signer has not written it: the text of a signature is decoded leniently, and the
    comparison with the canonical encoding keeps it as it is. *)
Theorem delivery_malleable `{Scheme : Ed25519, Laws : !Ed25519Laws} v b seed wire wire' hostID generation now :
  len seed = 32 -> validTrustBundle b = true -> envelope_encodable (bind_trust b v) ->
  SignEnvelopeWithTrust v b (seed +:+ public_of seed) = Some wire -> takes b b v hostID generation now = true ->
  let d := delivered b v (seed +:+ public_of seed) in let d' := set_evl_Signature (evl_Signature d +:+ of_bytes [10]) d in
  encodeSigned d' = Some wire' ->
  wire' <> wire /\ VerifyEnvelopeWithTrust wire' hostID generation now b = Some d'.
Proof.
  intros Hseed Hb He Hs Ht d d' Hw'. destruct (SignEnvelopeWithTrust_inv _ _ _ _ Hs) as (_ & Hpub & Hcov & Hsm). rewrite Public_pair in Hpub by done.
  pose proof (delivered_fields b v (seed +:+ public_of seed)) as Hf. cbn zeta in Hf. fold d in Hf.
  assert (Hf' : evl_HostID d' = evl_HostID v /\ evl_HostGeneration d' = evl_HostGeneration v /\ evl_IssuedAt d' = evl_IssuedAt v /\ evl_ExpiresAt d' = evl_ExpiresAt v /\
    evl_ControlKeyID d' = skey_ID (tbu_Current b) /\ evl_ControlKeyVersion d' = skey_Version (tbu_Current b) /\ evl_ControlRevocationEpoch d' = tbu_RevocationEpoch b)
    by (rewrite <- (proj1 Hf), <- (proj1 (proj2 Hf)); unfold d'; destruct d; simpl in *; tauto).
  clear Hf. destruct Hf' as (F1 & F2 & F3 & F4 & F5 & F6 & F7). destruct (trust_key_current b (tbu_Current b) Hb (list_elem_of_here _ _)) as [Hm Htk].
  unfold takes in Ht. rewrite !andb_true_iff, negb_true_iff in Ht. destruct Ht as [[[[[[Hz T1] T2] T3] T4] _] _].
  set (accepts := fun v => (evl_HostID v ≟ hostID) && (evl_HostGeneration v =? generation) && negb (Before now (evl_IssuedAt v)) && Before now (evl_ExpiresAt v)).
  set (keys := fun v => default "" (trust_keys_map b !! evl_ControlKeyID v)).
  assert (He' : wire_encodable (bind_trust b v)) by exact He.
  destruct (verify_malleable (bind_trust b v) seed wire wire' accepts keys Hseed He' Hsm) as [V1 V2].
  - change (accepts d' = true). unfold accepts. by rewrite F1, F2, F3, F4, T1, T2, T3, T4.
  - change (keys d' = public_of seed). unfold keys. by rewrite F5, Hm, Hpub.
  - exact Hw'.
  - split; [done|]. unfold VerifyEnvelopeWithTrust, VerifyEnvelope. rewrite Hb, Hz. cbn [negb]. fold accepts keys. rewrite V1. cbn [mbind option_bind].
    fold (delivered b v (seed +:+ public_of seed)) d. change (set_signature (wire_signature d +:+ of_bytes [10]) d) with d'. rewrite F5, F6, F7, Htk, Z.eqb_refl.
    rewrite (current_version b Hb). cbn [negb orb mbind option_bind]. unfold keyCoversEnvelope in *. by rewrite F3, F4, Hcov.
Qed.

(** ** The theorems at work *)

(** A scheme with the laws: a signature is the digest of the public key and the message. *)
#[local] Instance keyed_digest : Ed25519 :=
  { public_of seed := seed; ed25519_sign key m := sha256_hex (Public key +:+ m); ed25519_verify public m sig := sig ≟ sha256_hex (public +:+ m) }.

#[local] Instance keyed_digest_laws : Ed25519Laws.
Proof.
  split.
  - done.
  - intros key m _. unfold len. cbn. by rewrite sha256_hex_len.
  - intros seed m Hs. change (bool_decide (sha256_hex (Public (seed +:+ seed) +:+ m) = sha256_hex (seed +:+ m)) = true).
    rewrite Public_pair by done. by apply bool_decide_eq_true_2.
Qed.

Definition demo_day (n : Z) : Time := mkTime ((62135596800 + 1709210096 + 86400 * n) * 1000000000) UTC.
Definition demo_hour : Time := AddDuration (demo_day 1) 1800000000000.
Definition demo_seed : string := "0123456789abcdef0123456789abcdef".
Definition demo_key1 : SigningKey := mkSigningKey "k1" 1 demo_seed (demo_day 0) (demo_day 9).
Definition demo_key2 : SigningKey := mkSigningKey "k2" 2 "fedcba9876543210fedcba9876543210" (demo_day 0) (demo_day 9).
Definition demo_bundle (version : Z) (current : SigningKey) (next : option SigningKey) : TrustBundle := mkTrustBundle version 5 current next.
Definition demo_trust0 : AtomicTrust :=
  mkAtomicTrust (demo_bundle 1 demo_key1 None) (known_by_id (trustKeys (demo_bundle 1 demo_key1 None)) ∅) ∅ 1.
Definition demo_trust1 : AtomicTrust := (Update (demo_bundle 2 demo_key1 (Some demo_key2)) demo_trust0).2.
Definition demo_trust2 : AtomicTrust := (Update (demo_bundle 3 demo_key2 None) demo_trust1).2.

Definition demo_delivery : Envelope :=
  mkEnvelope Version "env-1" "del-1" "nonce" (demo_day 1) (AddDuration (demo_day 1) Hour) "" 0 0 "host-1" 3 "asg-1" 2 7 "acme" "acme:alice" "sbx" "" "" "" "op-1" "exec"
    (Digest "spec") (Digest "caps") (Digest "request") "host-proposed/control-owned-v1" (Digest "payload") "payload" "".
Definition demo_wire : string := default "" (SignEnvelopeWithTrust demo_delivery (Snapshot demo_trust0) (demo_seed +:+ public_of demo_seed)).

Lemma demo_new : NewAtomicTrust (demo_bundle 1 demo_key1 None) = Some demo_trust0.
Proof. vm_compute. reflexivity. Qed.
Lemma demo_step1 : rtc trust_step demo_trust0 demo_trust1.
Proof. eapply rtc_l; [exact (trust_update demo_trust0 (demo_bundle 2 demo_key1 (Some demo_key2)))|]. apply rtc_refl. Qed.
Lemma demo_step2 : rtc trust_step demo_trust1 demo_trust2.
Proof. eapply rtc_l; [exact (trust_update demo_trust1 (demo_bundle 3 demo_key2 None))|]. apply rtc_refl. Qed.

Lemma demo_times_ok n : rfc3339 n <> None -> isUTC n = true -> time_ok n.
Proof. intros H Hu. split; [done|]. by destruct (rfc3339 n). Qed.

Lemma demo_encodable : envelope_encodable (bind_trust (Snapshot demo_trust0) demo_delivery).
Proof.
  assert (Ht : forall l, forallb ValidString l = true -> texts l).
  { intros l Hl. apply Forall_forall. intros s Hs. rewrite forallb_forall in Hl. by apply valid_utf8, Hl, list_elem_of_In. }
  split; [apply Ht; vm_compute; reflexivity|]. split; [repeat (constructor; [by split; vm_compute|]); constructor|].
  split; apply demo_times_ok; vm_compute; congruence || reflexivity.
Qed.

Lemma demo_signed : SignEnvelopeWithTrust demo_delivery (Snapshot demo_trust0) (demo_seed +:+ public_of demo_seed) = Some demo_wire.
Proof. vm_compute. reflexivity. Qed.

Lemma trust_lineage_witness :
  containsTrustKey (Snapshot demo_trust1) "k1" = true /\ containsTrustKey (Snapshot demo_trust2) "k1" = false /\
  tbu_Version (Snapshot demo_trust1) <= tbu_Version (Snapshot demo_trust2).
Proof.
  split; [vm_compute; reflexivity|]. split; [vm_compute; reflexivity|].
  apply (trust_lineage _ demo_trust0 demo_trust1 demo_trust2 demo_trust2 demo_new demo_step1 demo_step2 (rtc_refl _ _)).
Defined.

Lemma delivery_accepted_witness :
  VerifyEnvelopeWithTrust demo_wire "host-1" 3 demo_hour (Snapshot demo_trust1) =
    (if takes (Snapshot demo_trust0) (Snapshot demo_trust1) demo_delivery "host-1" 3 demo_hour
     then Some (delivered (Snapshot demo_trust0) demo_delivery (demo_seed +:+ public_of demo_seed)) else None) /\
  takes (Snapshot demo_trust0) (Snapshot demo_trust1) demo_delivery "host-1" 3 demo_hour = true /\
  takes (Snapshot demo_trust0) (Snapshot demo_trust2) demo_delivery "host-1" 3 demo_hour = false.
Proof.
  split; [|split; vm_compute; reflexivity].
  apply (delivery_accepted _ demo_trust0 demo_trust0 demo_trust1 demo_delivery demo_seed demo_wire "host-1" 3 demo_hour demo_new (rtc_refl _ _) demo_step1).
  - reflexivity.
  - exact demo_encodable.
  - exact demo_signed.
Defined.

Definition demo_delivered : Envelope := delivered (Snapshot demo_trust0) demo_delivery (demo_seed +:+ public_of demo_seed).
Definition demo_altered : Envelope := set_evl_Signature (evl_Signature demo_delivered +:+ of_bytes [10]) demo_delivered.
Definition demo_wire' : string := default "" (encodeSigned demo_altered).

Lemma delivery_malleable_witness :
  demo_wire' <> demo_wire /\ VerifyEnvelopeWithTrust demo_wire' "host-1" 3 demo_hour (Snapshot demo_trust0) = Some demo_altered.
Proof.
  apply (delivery_malleable demo_delivery (Snapshot demo_trust0) demo_seed demo_wire demo_wire' "host-1" 3 demo_hour).
  - reflexivity.
  - vm_compute. reflexivity.
  - exact demo_encodable.
  - exact demo_signed.
  - vm_compute. reflexivity.
  - vm_compute. reflexivity.
Defined.
