(* ===== verification/HostJournal.v ===== *)
(** * The host journal

    internal/sandboxhostjournal: the receipt journal of a sandbox host, written to a
    file before any effect.  A process holds the entries in memory and replaces the
    file by a synced temporary file and a rename; the file system is what is visible
    under the path now, and what may be there after a loss of power.  How the system
    calls of one write end is an argument of each operation ([Outcome]).  The file
    holds the bytes that [encoding/json] writes, and [Open] reads them back. *)

From stdpp Require Import gmap sorting.
From Stdlib Require Import Ascii String.
From S2P Require Import Prelude DurableFiles GoString Sha256 GoTime GoJson GoJsonText GoDecode HostProtocol.

Open Scope Z_scope.

Inductive JournalError : Type :=
| ErrLocked
| Refusal (message : string)
| Failure_ (message : string).

(** ** Entries *)

(** One signed observation: its bytes ([None] is nil), digest and acknowledgement.
    The started and the result observation and the transfer receipt of an entry,
    three fields each in the source, are of this shape too. *)
Record Output : Type := mkOutput { out_Wire : option string; out_Digest : string; out_Acknowledged : bool }.

Definition noOutput : Output := mkOutput None "" false.

Record Entry : Type := mkEntry {
  jen_ReceiptKey : string;
  jen_EnvelopeDigest : string;
  jen_ReceiptDigest : string;
  jen_ExecutionCount : Z;
  jen_LeaseEpoch : Z;
  jen_FencingToken : Z;
  jen_HostGeneration : Z;
  jen_Started : Output;
  jen_Result : Output;
  jen_Outputs : list Output;
  jen_TransferReceipt : Output;
  jen_TransferReceiptKind : string
}.

Definition jen_set_ReceiptKey (v : string) (e : Entry) : Entry := let '(mkEntry _ ed rd ec le ft hg st rs os tr tk) := e in mkEntry v ed rd ec le ft hg st rs os tr tk.
Definition jen_set_EnvelopeDigest (v : string) (e : Entry) : Entry := let '(mkEntry rk _ rd ec le ft hg st rs os tr tk) := e in mkEntry rk v rd ec le ft hg st rs os tr tk.
Definition jen_set_ReceiptDigest (v : string) (e : Entry) : Entry := let '(mkEntry rk ed _ ec le ft hg st rs os tr tk) := e in mkEntry rk ed v ec le ft hg st rs os tr tk.
Definition jen_set_ExecutionCount (v : Z) (e : Entry) : Entry := let '(mkEntry rk ed rd _ le ft hg st rs os tr tk) := e in mkEntry rk ed rd v le ft hg st rs os tr tk.
Definition jen_set_LeaseEpoch (v : Z) (e : Entry) : Entry := let '(mkEntry rk ed rd ec _ ft hg st rs os tr tk) := e in mkEntry rk ed rd ec v ft hg st rs os tr tk.
Definition jen_set_FencingToken (v : Z) (e : Entry) : Entry := let '(mkEntry rk ed rd ec le _ hg st rs os tr tk) := e in mkEntry rk ed rd ec le v hg st rs os tr tk.
Definition jen_set_HostGeneration (v : Z) (e : Entry) : Entry := let '(mkEntry rk ed rd ec le ft _ st rs os tr tk) := e in mkEntry rk ed rd ec le ft v st rs os tr tk.
Definition jen_set_Started (v : Output) (e : Entry) : Entry := let '(mkEntry rk ed rd ec le ft hg _ rs os tr tk) := e in mkEntry rk ed rd ec le ft hg v rs os tr tk.
Definition jen_set_Result (v : Output) (e : Entry) : Entry := let '(mkEntry rk ed rd ec le ft hg st _ os tr tk) := e in mkEntry rk ed rd ec le ft hg st v os tr tk.
Definition jen_set_Outputs (v : list Output) (e : Entry) : Entry := let '(mkEntry rk ed rd ec le ft hg st rs _ tr tk) := e in mkEntry rk ed rd ec le ft hg st rs v tr tk.
Definition jen_set_TransferReceipt (v : Output) (e : Entry) : Entry := let '(mkEntry rk ed rd ec le ft hg st rs os _ tk) := e in mkEntry rk ed rd ec le ft hg st rs os v tk.
Definition jen_set_TransferReceiptKind (v : string) (e : Entry) : Entry := let '(mkEntry rk ed rd ec le ft hg st rs os tr _) := e in mkEntry rk ed rd ec le ft hg st rs os tr v.

Definition noEntry : Entry := mkEntry "" "" "" 0 0 0 0 noOutput noOutput [] noOutput "".

Definition wire_len (o : Output) : Z := len (default "" (out_Wire o)).

Record PendingResult : Type := mkPendingResult { pnr_ReceiptKey : string; pnr_Wire : string }.
Record PendingTransferReceipt : Type := mkPendingTransfer { pnt_ReceiptKey : string; pnt_Kind : string; pnt_Wire : string }.

Record document : Type := mkDocument { dcm_Version : string; dcm_Entries : option (list Entry) }.

Definition journalVersion : string := "sandbox.host-journal/v1".
Definition maximumDocumentBytes : Z := 16777216.
Definition maximumWireBytes : Z := 1048576.

(** ** The document *)

Definition json_output (o : Output) : jval :=
  JObj [("wire", json_bytes (out_Wire o)); ("digest", JStr (out_Digest o)); ("acknowledged", JBool (out_Acknowledged o))].

Definition json_entry (e : Entry) : jval :=
  JObj ([("receipt_key", JStr (jen_ReceiptKey e)); ("envelope_digest", JStr (jen_EnvelopeDigest e)); ("receipt_digest", JStr (jen_ReceiptDigest e));
         ("execution_count", JNum (jen_ExecutionCount e)); ("lease_epoch", JNum (jen_LeaseEpoch e)); ("fencing_token", JNum (jen_FencingToken e))] ++
        omit (jen_HostGeneration e =? 0) "host_generation" (JNum (jen_HostGeneration e)) ++
        [("started_wire", json_bytes (out_Wire (jen_Started e))); ("started_digest", JStr (out_Digest (jen_Started e)));
         ("started_acknowledged", JBool (out_Acknowledged (jen_Started e)));
         ("result_wire", json_bytes (out_Wire (jen_Result e))); ("result_digest", JStr (out_Digest (jen_Result e)));
         ("result_acknowledged", JBool (out_Acknowledged (jen_Result e)))] ++
        omit (bool_decide (jen_Outputs e = [])) "outputs" (JArr (json_output <$> jen_Outputs e)) ++
        omit (wire_len (jen_TransferReceipt e) =? 0) "transfer_receipt_wire" (json_bytes (out_Wire (jen_TransferReceipt e))) ++
        omit (out_Digest (jen_TransferReceipt e) ≟ "") "transfer_receipt_digest" (JStr (out_Digest (jen_TransferReceipt e))) ++
        omit (negb (out_Acknowledged (jen_TransferReceipt e))) "transfer_receipt_acknowledged" (JBool (out_Acknowledged (jen_TransferReceipt e))) ++
        omit (jen_TransferReceiptKind e ≟ "") "transfer_receipt_kind" (JStr (jen_TransferReceiptKind e))).

Definition json_document (d : document) : jval :=
  JObj [("version", JStr (dcm_Version d)); ("entries", match dcm_Entries d with Some l => JArr (json_entry <$> l) | None => JNull end)].

Definition set_Wire (w : option string) (o : Output) : Output := mkOutput w (out_Digest o) (out_Acknowledged o).
Definition set_Digest (s : string) (o : Output) : Output := mkOutput (out_Wire o) s (out_Acknowledged o).
Definition set_Acknowledged (b : bool) (o : Output) : Output := mkOutput (out_Wire o) (out_Digest o) b.

Definition output_fields : list (field Output) :=
  [field_of "wire" dec_bytes out_Wire set_Wire; field_of "digest" dec_string out_Digest set_Digest;
   field_of "acknowledged" dec_bool out_Acknowledged set_Acknowledged].

(** The fields of one observation inside an entry. *)
Definition wire_field (name : string) (get : Entry -> Output) (set : Output -> Entry -> Entry) : field Entry :=
  field_of name dec_bytes (fun e => out_Wire (get e)) (fun w e => set (set_Wire w (get e)) e).
Definition digest_field (name : string) (get : Entry -> Output) (set : Output -> Entry -> Entry) : field Entry :=
  field_of name dec_string (fun e => out_Digest (get e)) (fun s e => set (set_Digest s (get e)) e).
Definition acknowledged_field (name : string) (get : Entry -> Output) (set : Output -> Entry -> Entry) : field Entry :=
  field_of name dec_bool (fun e => out_Acknowledged (get e)) (fun b e => set (set_Acknowledged b (get e)) e).

(** A slice for which nil and empty are the same to the program. *)
Definition dec_list {A} (zero : A) (dec : decoder A) : decoder (list A) := fun old d =>
  default [] <$> dec_slice zero dec (Some old) d.

Definition entry_fields : list (field Entry) :=
  [field_of "receipt_key" dec_string jen_ReceiptKey jen_set_ReceiptKey; field_of "envelope_digest" dec_string jen_EnvelopeDigest jen_set_EnvelopeDigest;
   field_of "receipt_digest" dec_string jen_ReceiptDigest jen_set_ReceiptDigest; field_of "execution_count" dec_uint64 jen_ExecutionCount jen_set_ExecutionCount;
   field_of "lease_epoch" dec_uint64 jen_LeaseEpoch jen_set_LeaseEpoch; field_of "fencing_token" dec_uint64 jen_FencingToken jen_set_FencingToken;
   field_of "host_generation" dec_uint64 jen_HostGeneration jen_set_HostGeneration;
   wire_field "started_wire" jen_Started jen_set_Started; digest_field "started_digest" jen_Started jen_set_Started;
   acknowledged_field "started_acknowledged" jen_Started jen_set_Started;
   wire_field "result_wire" jen_Result jen_set_Result; digest_field "result_digest" jen_Result jen_set_Result;
   acknowledged_field "result_acknowledged" jen_Result jen_set_Result;
   field_of "outputs" (dec_list noOutput (dec_struct false output_fields)) jen_Outputs jen_set_Outputs;
   wire_field "transfer_receipt_wire" jen_TransferReceipt jen_set_TransferReceipt;
   digest_field "transfer_receipt_digest" jen_TransferReceipt jen_set_TransferReceipt;
   acknowledged_field "transfer_receipt_acknowledged" jen_TransferReceipt jen_set_TransferReceipt;
   field_of "transfer_receipt_kind" dec_string jen_TransferReceiptKind jen_set_TransferReceiptKind].

Definition set_Version (s : string) (d : document) : document := mkDocument s (dcm_Entries d).
Definition set_Entries (l : option (list Entry)) (d : document) : document := mkDocument (dcm_Version d) l.

Definition document_fields : list (field document) :=
  [field_of "version" dec_string dcm_Version set_Version;
   field_of "entries" (dec_slice noEntry (dec_struct false entry_fields)) dcm_Entries set_Entries].

(** [Decoder.Decode] with DisallowUnknownFields, and nothing after the value. *)
Definition decode_document (wire : string) : option document :=
  match read_value start (bytes wire) with
  | Some (d, rest) =>
    decoded ← dec_struct false document_fields (mkDocument "" None) d;
    if forallb space rest then Some decoded else None
  | None => None
  end.

(** ** The file system *)

(** The file under the path ([None]: no file), and the contents of which one is there
    after a loss of power. *)
Record Disk : Type := mkDisk { visible : option string; survivors : list (option string); lock_held : bool }.

Definition write_file (io : Outcome) (text : string) (d : Disk) : Disk :=
  match io with
  | Unwritten => d
  | Unsynced => mkDisk (Some text) (Some text :: survivors d) (lock_held d)
  | Written => mkDisk (Some text) [Some text] (lock_held d)
  end.

Record Journal : Type := mkJournal { jrn_maximum : Z; jrn_entries : gmap string Entry }.

Record World : Type := mkWorld { disk : Disk; journal : Journal }.

Notation J := (M World JournalError).

Definition entries (w : World) : gmap string Entry := jrn_entries (journal w).

Definition set_entries (f : gmap string Entry -> gmap string Entry) : J unit := fun w =>
  (Ok tt, mkWorld (disk w) (mkJournal (jrn_maximum (journal w)) (f (entries w)))).

(** ** Writing *)

Definition key_le (a b : Entry) : Prop := string_le (jen_ReceiptKey a) (jen_ReceiptKey b).
#[export] Instance key_le_dec : RelDecision key_le.
Proof. unfold RelDecision, key_le. intros a b. apply _. Defined.

Definition sorted_entries (m : gmap string Entry) : list Entry := merge_sort key_le (map_to_list m).*2.

Definition wire_of (m : gmap string Entry) : option string := marshal (json_document (mkDocument journalVersion (Some (sorted_entries m)))).

Definition persistLocked (io : Outcome) : J unit := fun w =>
  match wire_of (entries w) with
  | None => (Err (Failure_ "encode sandbox host journal"), w)
  | Some wire =>
    if maximumDocumentBytes <? len wire then (Err (Failure_ "encode sandbox host journal: finite document limit reached"), w)
    else (match io with Written => Ok tt | _ => Err (Failure_ "write sandbox host journal") end, mkWorld (write_file io wire (disk w)) (journal w))
  end.

(** Put an entry and write; put back another one if the write fails. *)
Definition commit (io : Outcome) (key : string) (entry restored : Entry) : J unit := fun w =>
  match (set_entries (<[key := entry]>);; persistLocked io) w with
  | (Ok tt, w) => (Ok tt, w)
  | (Err e, w) => (set_entries (<[key := restored]>);; fail e) w
  end.

(** Put a new entry and write; take it out again if the write fails. *)
Definition commit_new (io : Outcome) (key : string) (entry : Entry) : J unit := fun w =>
  match (set_entries (<[key := entry]>);; persistLocked io) w with
  | (Ok tt, w) => (Ok tt, w)
  | (Err e, w) => (set_entries (delete key);; fail e) w
  end.

(** ** Operations *)

Definition receiptKey (v : Envelope) : string :=
  if (evl_HostID v ≟ "") || (evl_HostGeneration v =? 0) || (evl_AssignmentID v ≟ "") || (evl_LeaseEpoch v =? 0) || (evl_FencingToken v =? 0) ||
     (evl_OperationID v ≟ "") || (evl_CanonicalRequestDigest v ≟ "") then ""
  else evl_HostID v +:+ NUL +:+ evl_AssignmentID v +:+ NUL +:+ evl_OperationID v +:+ NUL +:+ evl_CanonicalRequestDigest v.

Definition lookup_entry (key message : string) (p : Entry -> bool) : J Entry := fun w =>
  match entries w !! key with
  | Some e => if p e then (Ok e, w) else (Err (Refusal message), w)
  | None => (Err (Refusal message), w)
  end.

Definition bounded_wire (wire : string) : bool := negb ((len wire =? 0) || (maximumWireBytes <? len wire)).

(** Whether the observation is already staged with exactly these bytes. *)
Definition same_wire (o : Output) (wire : string) : bool := (out_Digest o ≟ Digest wire) && (default "" (out_Wire o) ≟ wire).

(** The observation with new bytes, and as it is put back. *)
Definition staged (wire : string) (o : Output) : Output := mkOutput (Some wire) (Digest wire) (out_Acknowledged o).
Definition unstaged (o : Output) : Output := mkOutput None "" (out_Acknowledged o).

Definition StageStarted (io : Outcome) (envelope : Envelope) (wire : string) : J unit :=
  guard_or (Refusal "stage sandbox host started result: bounded result is required") (bounded_wire wire);;
  let key := receiptKey envelope in
  entry ← lookup_entry key "stage sandbox host started result: durable receipt without terminal result is required" (fun e => out_Digest (jen_Result e) ≟ "");
  if out_Digest (jen_Started entry) ≠? "" then
    guard_or (Refusal "stage sandbox host started result: altered execution intent refused") (same_wire (jen_Started entry) wire)
  else
    let entry := jen_set_Started (staged wire (jen_Started entry)) entry in
    commit io key entry (jen_set_Started (unstaged (jen_Started entry)) entry).

(** The common part of the acknowledgements of one observation. *)
Definition acknowledge (io : Outcome) (message : string) (get : Entry -> Output) (set : Output -> Entry -> Entry) (key digest : string) : J unit :=
  entry ← lookup_entry key message (fun e => out_Digest (get e) ≟ digest);
  if out_Acknowledged (get entry) then mret tt
  else commit io key (set (set_Acknowledged true (get entry)) entry) (set (set_Acknowledged false (get entry)) entry).

Definition AcknowledgeStarted (io : Outcome) (key digest : string) : J unit :=
  guard_or (Refusal "acknowledge sandbox host started result: receipt and result are required") (negb ((key ≟ "") || (digest ≟ "")));;
  acknowledge io "acknowledge sandbox host started result: altered or absent result refused" jen_Started jen_set_Started key digest.

Definition ExecutionStarted (envelope : Envelope) (w : World) : bool :=
  match entries w !! receiptKey envelope with Some e => out_Digest (jen_Started e) ≠? "" | None => false end.

(** Entry: the record without its aliasing, and whether it exists. *)
Definition Entry_ (envelope : Envelope) (w : World) : option Entry := entries w !! receiptKey envelope.

Definition EntryByReceiptKey (key : string) (w : World) : option Entry := if key ≟ "" then None else entries w !! key.

Definition receipt_kind (kind : string) : bool := (kind ≟ "transfer") || (kind ≟ "snapshot-restore") || (kind ≟ "mount").

Definition StageTypedTransferReceipt (io : Outcome) (envelope : Envelope) (kind wire : string) : J unit :=
  guard_or (Refusal "stage sandbox host transfer receipt: bounded receipt is required") (bounded_wire wire);;
  guard_or (Refusal "stage sandbox host transfer receipt: invalid receipt kind") (receipt_kind kind);;
  let key := receiptKey envelope in
  entry ← lookup_entry key "stage sandbox host transfer receipt: durable started receipt without terminal result is required"
    (fun e => (out_Digest (jen_Started e) ≠? "") && (out_Digest (jen_Result e) ≟ ""));
  if out_Digest (jen_TransferReceipt entry) ≠? "" then
    guard_or (Refusal "stage sandbox host transfer receipt: altered receipt refused")
      (negb ((jen_TransferReceiptKind entry ≠? kind) && ((jen_TransferReceiptKind entry ≠? "") || (kind ≠? "transfer"))) &&
       same_wire (jen_TransferReceipt entry) wire)
  else
    let entry := jen_set_TransferReceiptKind kind (jen_set_TransferReceipt (staged wire (jen_TransferReceipt entry)) entry) in
    commit io key entry (jen_set_TransferReceiptKind "" (jen_set_TransferReceipt (unstaged (jen_TransferReceipt entry)) entry)).

Definition StageTransferReceipt (io : Outcome) (envelope : Envelope) (wire : string) : J unit :=
  StageTypedTransferReceipt io envelope "transfer" wire.

Definition AcknowledgeTransferReceipt (io : Outcome) (key digest : string) : J unit :=
  guard_or (Refusal "acknowledge sandbox host transfer receipt: receipt and digest are required") (negb ((key ≟ "") || (digest ≟ "")));;
  acknowledge io "acknowledge sandbox host transfer receipt: altered or absent receipt refused" jen_TransferReceipt jen_set_TransferReceipt key digest.

Definition stageResult (io : Outcome) (key wire : string) : J unit :=
  entry ← lookup_entry key "stage sandbox host result: durable started receipt is required" (fun e => out_Digest (jen_Started e) ≠? "");
  guard_or (Refusal "stage sandbox host result: every durable output must be acknowledged first") (forallb out_Acknowledged (jen_Outputs entry));;
  guard_or (Refusal "stage sandbox host result: durable transfer receipt must be acknowledged first")
    (negb ((out_Digest (jen_TransferReceipt entry) ≠? "") && negb (out_Acknowledged (jen_TransferReceipt entry))));;
  if out_Digest (jen_Result entry) ≠? "" then
    guard_or (Refusal "stage sandbox host result: altered result refused") (same_wire (jen_Result entry) wire)
  else
    let entry := jen_set_Result (staged wire (jen_Result entry)) entry in
    commit io key entry (jen_set_Result (unstaged (jen_Result entry)) entry).

Definition StageResult (io : Outcome) (envelope : Envelope) (wire : string) : J unit :=
  guard_or (Refusal "stage sandbox host result: bounded result is required") (bounded_wire wire);;
  stageResult io (receiptKey envelope) wire.

Definition StageRecoveryResult (io : Outcome) (key wire : string) : J unit :=
  guard_or (Refusal "stage sandbox host recovery result: durable receipt and bounded result are required") ((key ≠? "") && bounded_wire wire);;
  stageResult io key wire.

Definition StageOutput (io : Outcome) (envelope : Envelope) (wire : string) : J unit :=
  guard_or (Refusal "stage sandbox host output: bounded output is required") (bounded_wire wire);;
  let key := receiptKey envelope in
  entry ← lookup_entry key "stage sandbox host output: durable started receipt without terminal result is required"
    (fun e => (out_Digest (jen_Started e) ≠? "") && (out_Digest (jen_Result e) ≟ ""));
  if existsb (fun o => same_wire o wire) (jen_Outputs entry) then mret tt
  else commit io key (jen_set_Outputs (jen_Outputs entry ++ [mkOutput (Some wire) (Digest wire) false]) entry) entry.

Definition AcknowledgeOutput (io : Outcome) (key digest : string) : J unit :=
  guard_or (Refusal "acknowledge sandbox host output: receipt and output are required") (negb ((key ≟ "") || (digest ≟ "")));;
  entry ← lookup_entry key "acknowledge sandbox host output: absent output" (fun _ => true);
  match find_index (fun o => out_Digest o ≟ digest) (jen_Outputs entry) with
  | None => fail (Refusal "acknowledge sandbox host output: altered or absent output")
  | Some (index, o) =>
    if out_Acknowledged o then mret tt
    else commit io key (jen_set_Outputs (<[index := set_Acknowledged true o]> (jen_Outputs entry)) entry)
                       (jen_set_Outputs (<[index := set_Acknowledged false o]> (jen_Outputs entry)) entry)
  end.

Definition AcknowledgeResult (io : Outcome) (key digest : string) : J unit :=
  guard_or (Refusal "acknowledge sandbox host result: receipt and result are required") (negb ((key ≟ "") || (digest ≟ "")));;
  acknowledge io "acknowledge sandbox host result: altered or absent result refused" jen_Result jen_set_Result key digest.

Definition first_receipt (key envelopeDigest : string) (v : Envelope) : Entry :=
  mkEntry key envelopeDigest (Digest key) 1 (evl_LeaseEpoch v) (evl_FencingToken v) (evl_HostGeneration v) noOutput noOutput [] noOutput "".

(** The entry, and whether it was there before. *)
Definition Accept (io : Outcome) (envelope : Envelope) (envelopeDigest : string) : J (Entry * bool) :=
  guard_or (Refusal "accept sandbox host receipt: journal and envelope digest are required") (envelopeDigest ≠? "");;
  let key := receiptKey envelope in
  guard_or (Refusal "accept sandbox host receipt: invalid envelope binding") (key ≠? "");;
  w ← get;
  match entries w !! key with
  | Some prior =>
    if (jen_EnvelopeDigest prior ≟ envelopeDigest) && (jen_LeaseEpoch prior =? evl_LeaseEpoch envelope) && (jen_FencingToken prior =? evl_FencingToken envelope)
    then mret (prior, true)
    else
      guard_or (Refusal "accept sandbox host receipt: altered delivery refused")
        (negb ((evl_LeaseEpoch envelope <=? jen_LeaseEpoch prior) || (evl_FencingToken envelope <=? jen_FencingToken prior) ||
               (out_Digest (jen_Started prior) ≠? "") || (out_Digest (jen_Result prior) ≠? "")));;
      let next := jen_set_FencingToken (evl_FencingToken envelope) (jen_set_LeaseEpoch (evl_LeaseEpoch envelope) (jen_set_EnvelopeDigest envelopeDigest prior)) in
      commit io key next prior;;
      mret (next, true)
  | None =>
    guard_or (Refusal "accept sandbox host receipt: finite journal limit reached") (negb (jrn_maximum (journal w) <=? Z.of_nat (size (entries w))));;
    let entry := first_receipt key envelopeDigest envelope in
    commit_new io key entry;;
    mret (entry, false)
  end.

(** ** Queries *)

Definition pending_of (p : Entry -> bool) (get : Entry -> Output) (w : World) : list PendingResult :=
  (fun e => mkPendingResult (jen_ReceiptKey e) (default "" (out_Wire (get e)))) <$> List.filter p (sorted_entries (entries w)).

Definition PendingStarts : World -> list PendingResult :=
  pending_of (fun e => (out_Digest (jen_Started e) ≠? "") && negb (out_Acknowledged (jen_Started e))) jen_Started.
Definition PendingExecutions : World -> list PendingResult :=
  pending_of (fun e => (out_Digest (jen_Started e) ≠? "") && (out_Digest (jen_Result e) ≟ "")) jen_Started.
Definition PendingResults : World -> list PendingResult :=
  pending_of (fun e => (out_Digest (jen_Result e) ≠? "") && negb (out_Acknowledged (jen_Result e))) jen_Result.

Definition PendingTransferReceipts (w : World) : list PendingTransferReceipt :=
  (fun e => mkPendingTransfer (jen_ReceiptKey e) (if jen_TransferReceiptKind e ≟ "" then "transfer" else jen_TransferReceiptKind e)
                              (default "" (out_Wire (jen_TransferReceipt e)))) <$>
  List.filter (fun e => (out_Digest (jen_TransferReceipt e) ≠? "") && negb (out_Acknowledged (jen_TransferReceipt e))) (sorted_entries (entries w)).

Definition pending_le (a b : PendingResult) : Prop :=
  pnr_ReceiptKey a <> pnr_ReceiptKey b /\ string_le (pnr_ReceiptKey a) (pnr_ReceiptKey b) \/
  pnr_ReceiptKey a = pnr_ReceiptKey b /\ string_le (pnr_Wire a) (pnr_Wire b).
#[export] Instance pending_le_dec : RelDecision pending_le.
Proof. unfold RelDecision, pending_le. intros a b. apply _. Defined.

Definition PendingOutputs (w : World) : list PendingResult :=
  merge_sort pending_le
    (flat_map (fun ke => (fun o => mkPendingResult ke.1 (default "" (out_Wire o))) <$> List.filter (fun o => negb (out_Acknowledged o)) (jen_Outputs ke.2))
              (map_to_list (entries w))).

(** ** Opening *)

Definition valid_observation (o : Output) : bool :=
  (0 <? wire_len o) && (wire_len o <=? maximumWireBytes) && (Digest (default "" (out_Wire o)) ≟ out_Digest o).

Definition absent_observation (o : Output) : bool := (wire_len o =? 0) && negb (out_Acknowledged o).

Definition validExecutionState (e : Entry) : bool :=
  if out_Digest (jen_Started e) ≟ "" then absent_observation (jen_Started e) else valid_observation (jen_Started e).

Definition validResultState (e : Entry) : bool :=
  if out_Digest (jen_Result e) ≟ "" then absent_observation (jen_Result e) else valid_observation (jen_Result e).

Definition validOutputState (e : Entry) : bool :=
  forallb (fun o => negb ((wire_len o =? 0) || (maximumWireBytes <? wire_len o) || (out_Digest o ≠? Digest (default "" (out_Wire o))))) (jen_Outputs e).

Definition validTransferReceiptState (e : Entry) : bool :=
  let o := jen_TransferReceipt e in
  if out_Digest o ≟ "" then absent_observation o && (jen_TransferReceiptKind e ≟ "")
  else ((jen_TransferReceiptKind e ≟ "") || receipt_kind (jen_TransferReceiptKind e)) && valid_observation o.

Definition valid_entry (prior : string) (e : Entry) : bool :=
  negb ((jen_ReceiptKey e ≟ "") || String.leb (jen_ReceiptKey e) prior || (jen_EnvelopeDigest e ≟ "") || (jen_ReceiptDigest e ≟ "") ||
        negb (jen_ExecutionCount e =? 1) || (jen_LeaseEpoch e =? 0) || (jen_FencingToken e =? 0) || negb (validExecutionState e) ||
        negb (validResultState e) || negb (validOutputState e) || negb (validTransferReceiptState e)).

(** The loop of Open over the entries. *)
Fixpoint load_entries (prior : string) (l : list Entry) (m : gmap string Entry) : option (gmap string Entry) :=
  match l with
  | [] => Some m
  | e :: l => if valid_entry prior e then load_entries (jen_ReceiptKey e) l (<[jen_ReceiptKey e := e]> m) else None
  end.

(** What Open makes of the bytes of an existing file. *)
Definition load (maximum : Z) (wire : string) : option (gmap string Entry) :=
  if (len wire =? 0) || (maximumDocumentBytes <? len wire) then None
  else match decode_document wire with
       | None => None
       | Some decoded =>
         let l := default [] (dcm_Entries decoded) in
         if (dcm_Version decoded ≠? journalVersion) || (maximum <? Z.of_nat (length l)) then None
         else if marshal (json_document decoded) ≠? Some wire then None
         else load_entries "" l ∅
       end.

Definition Open (lockable readable : bool) (path : string) (maximum : Z) (d : Disk) : res JournalError Journal * Disk :=
  if negb (HasPrefix path "/") || (maximum <=? 0) || (100000 <? maximum) then (Err (Refusal "open sandbox host journal: absolute path and finite maximum are required"), d)
  else if negb lockable then (Err (Failure_ "open sandbox host journal lock"), d)
  else if lock_held d then (Err ErrLocked, d)
  else
    let locked := mkDisk (visible d) (survivors d) true in
    match visible d with
    | None => (Ok (mkJournal maximum ∅), locked)
    | Some wire =>
      if negb readable then (Err (Failure_ "read sandbox host journal"), d)
      else match load maximum wire with
           | Some m => (Ok (mkJournal maximum m), locked)
           | None => (Err (Refusal "open sandbox host journal: invalid document"), d)
           end
    end.

Definition Close (d : Disk) : Disk := mkDisk (visible d) (survivors d) false.
