(* ===== verification/JournalFacts.v ===== *)
(** * The host journal: facts

    The file that a journal writes is read back as the journal ([load_wire]); entries
    only move forward in their life cycle ([entry_le]); and every operation, whatever
    the end of its system calls, keeps the entries well formed and ordered so. *)

From stdpp Require Import gmap sorting.
From Stdlib Require Import Ascii String.
From S2P Require Import Prelude DurableFiles GoString Keys Sha256 GoTime GoJson GoJsonText JsonFacts JsonStrings JsonValues GoDecode DecodeFacts HostProtocol DigestFacts HostJournal.

Open Scope Z_scope.

(** ** Well-formed entries *)

(** What the encoding keeps: valid UTF-8, 64-bit numbers, and no empty transfer
    receipt that is not nil. *)
Record encodable (e : Entry) : Prop := mkEncodable {
  enc_key : utf8 (bytes (jen_ReceiptKey e));
  enc_envelope : utf8 (bytes (jen_EnvelopeDigest e));
  enc_receipt : utf8 (bytes (jen_ReceiptDigest e));
  enc_count : u64_range (jen_ExecutionCount e);
  enc_epoch : u64_range (jen_LeaseEpoch e);
  enc_token : u64_range (jen_FencingToken e);
  enc_generation : u64_range (jen_HostGeneration e);
  enc_started : utf8 (bytes (out_Digest (jen_Started e)));
  enc_result : utf8 (bytes (out_Digest (jen_Result e)));
  enc_outputs : Forall (fun o => utf8 (bytes (out_Digest o))) (jen_Outputs e);
  enc_transfer : utf8 (bytes (out_Digest (jen_TransferReceipt e)));
  enc_transfer_wire : out_Wire (jen_TransferReceipt e) <> Some "";
  enc_kind : utf8 (bytes (jen_TransferReceiptKind e))
}.

Lemma carries_output o : utf8 (bytes (out_Digest o)) -> carries_object json_output (dec_struct false output_fields) noOutput 1 o.
Proof.
  intros Hd. eapply fills_struct; [reflexivity|].
  eapply fills_cons; [reflexivity|reflexivity|apply carries_bytes|].
  eapply fills_cons; [reflexivity|reflexivity|by apply carries_string|].
  eapply fills_cons; [reflexivity|reflexivity|apply carries_bool|]. destruct o. apply fills_nil.
Qed.

Lemma carries_output_list l : Forall (fun o => utf8 (bytes (out_Digest o))) l ->
  carries (fun l => JArr (json_output <$> l)) (dec_list noOutput (dec_struct false output_fields)) [] 2 l.
Proof.
  intros H. destruct (carries_all json_output (dec_struct false output_fields) noOutput 1 l) as (ds & H1 & H2 & H3).
  { eapply Forall_impl; [exact H|]. intros o Ho. by apply carries_object_carries, carries_output. }
  exists (DArr ds). split_and!; [by apply prints_arr| |].
  - intros n Hn. simpl. rewrite (proj2 (Nat.ltb_lt n maxNestingDepth)) by lia. apply H2. lia.
  - unfold dec_list. cbn [dec_slice]. by rewrite H3.
Qed.

Lemma carries_entry e : encodable e -> carries_object json_entry (dec_struct false entry_fields) noEntry 3 e.
Proof.
  intros He. eapply fills_struct; [reflexivity|]. destruct e as [key env rcp cnt epoch token gen [sw sd sa] [rw rd ra] os [tw td ta] kind], He; simpl in *.
  fill; [by apply carries_string|]. fill; [by apply carries_string|]. fill; [by apply carries_string|].
  fill; [by apply carries_uint64|]. fill; [by apply carries_uint64|]. fill; [by apply carries_uint64|].
  fill_omit; [by intros _; apply carries_uint64|simpl; intros ->%Z.eqb_eq; done|].
  fill; [apply carries_bytes|]. fill; [by apply carries_string|]. fill; [apply carries_bool|].
  fill; [apply carries_bytes|]. fill; [by apply carries_string|]. fill; [apply carries_bool|].
  eapply (fills_omit _ _ _ _ _ (fun l => JArr (json_output <$> l))); [reflexivity|reflexivity|by intros _; apply carries_output_list|by intros ->%bool_decide_eq_true|].
  fill_omit; [intros _; apply carries_bytes|simpl; intros E|].
  { by destruct tw as [[|]|]. }
  fill_omit; [by intros _; apply carries_string|by simpl; intros ->%bool_decide_eq_true|].
  fill_omit; [by intros _; apply carries_bool|by simpl; intros ->%negb_true_iff|].
  rewrite <- (app_nil_r (omit _ _ _)). fill_omit; [by intros _; apply carries_string|by simpl; intros ->%bool_decide_eq_true|]. apply fills_nil.
Qed.

(** An observation is absent or complete. *)
Definition observation_ok (o : Output) : Prop :=
  o = noOutput \/ exists wire, out_Wire o = Some wire /\ 0 < len wire <= maximumWireBytes /\ out_Digest o = Digest wire.

Definition present (o : Output) : Prop := out_Digest o <> "".

(** The life cycle of an entry: nothing is observed before the start, and a result only
    when every output and the transfer receipt are acknowledged. *)
Record entry_ok (e : Entry) : Prop := mkEntryOk {
  eok_encodable : encodable e;
  eok_key : jen_ReceiptKey e <> "";
  eok_envelope : jen_EnvelopeDigest e <> "";
  eok_receipt : jen_ReceiptDigest e <> "";
  eok_count : jen_ExecutionCount e = 1;
  eok_epoch : jen_LeaseEpoch e <> 0;
  eok_token : jen_FencingToken e <> 0;
  eok_started : observation_ok (jen_Started e);
  eok_result : observation_ok (jen_Result e);
  eok_outputs : Forall (fun o => observation_ok o /\ present o) (jen_Outputs e);
  eok_transfer : observation_ok (jen_TransferReceipt e);
  eok_kind : (present (jen_TransferReceipt e) -> receipt_kind (jen_TransferReceiptKind e) = true) /\
             (~ present (jen_TransferReceipt e) -> jen_TransferReceiptKind e = "");
  eok_start_first : present (jen_Result e) \/ jen_Outputs e <> [] \/ present (jen_TransferReceipt e) -> present (jen_Started e);
  eok_result_last : present (jen_Result e) ->
    Forall (fun o => out_Acknowledged o = true) (jen_Outputs e) /\
    (present (jen_TransferReceipt e) -> out_Acknowledged (jen_TransferReceipt e) = true)
}.

Definition entries_ok (m : gmap string Entry) : Prop := map_Forall (fun k e => jen_ReceiptKey e = k /\ entry_ok e) m.

(** ** Reading back *)

Lemma not_present o : observation_ok o -> ~ present o -> o = noOutput.
Proof. intros [->|(wire & _ & _ & E)] H; [done|]. destruct H. unfold present. rewrite E. apply Digest_not_empty. Qed.

Lemma observation_valid o : observation_ok o -> present o -> valid_observation o = true.
Proof.
  intros [->|(wire & Hw & Hl & E)] H; [done|]. unfold valid_observation, wire_len. rewrite Hw, E. change (default "" (Some wire)) with wire.
  rewrite (proj2 (Z.ltb_lt _ _)), (proj2 (Z.leb_le _ _)) by lia. by rewrite bool_decide_eq_true_2.
Qed.

Lemma observation_state o : observation_ok o -> (if out_Digest o ≟ "" then absent_observation o else valid_observation o) = true.
Proof.
  intros H. case_bool_decide as E; [|by apply observation_valid]. rewrite (not_present o) by (done || unfold present; congruence). done.
Qed.

Lemma outputs_valid e : Forall (fun o => observation_ok o /\ present o) (jen_Outputs e) -> validOutputState e = true.
Proof.
  intros H. apply forallb_forall. intros o Ho%list_elem_of_In. rewrite Forall_forall in H. destruct (H o Ho) as [H1 H2].
  pose proof (observation_valid o H1 H2) as Hv. unfold valid_observation in Hv. bools.
  rewrite (proj2 (Z.eqb_neq _ _)), (proj2 (Z.ltb_ge _ _)) by lia. by rewrite bool_decide_eq_true_2.
Qed.

Lemma transfer_valid e : entry_ok e -> validTransferReceiptState e = true.
Proof.
  intros He. unfold validTransferReceiptState. destruct (eok_kind e He) as [H1 H2]. case_bool_decide as E.
  - rewrite (not_present (jen_TransferReceipt e)) by (apply He || unfold present; congruence). rewrite H2 by (unfold present; congruence). done.
  - rewrite H1, orb_true_r by done. by apply observation_valid; [apply He|].
Qed.

Lemma key_after a b : string_le a b -> a <> b -> String.leb b a = false.
Proof. intros H Hne. destruct (String.leb b a) eqn:E; [|done]. destruct Hne. by apply (anti_symm string_le). Qed.

Lemma entry_valid prior e : entry_ok e -> string_le prior (jen_ReceiptKey e) -> prior <> jen_ReceiptKey e -> valid_entry prior e = true.
Proof.
  intros He H1 H2. unfold valid_entry. rewrite (key_after _ _ H1 H2).
  rewrite outputs_valid, transfer_valid by (done || apply He).
  unfold validExecutionState, validResultState. rewrite !observation_state by apply He.
  rewrite !bool_decide_eq_false_2 by apply He. rewrite (eok_count e He).
  rewrite (proj2 (Z.eqb_neq (jen_LeaseEpoch e) _)), (proj2 (Z.eqb_neq (jen_FencingToken e) _)) by apply He. done.
Qed.

Lemma load_sorted l prior m :
  Forall entry_ok l -> StronglySorted key_le l -> NoDup (jen_ReceiptKey <$> l) ->
  Forall (fun e => string_le prior (jen_ReceiptKey e) /\ prior <> jen_ReceiptKey e) l ->
  load_entries prior l m = Some (foldl (fun m e => <[jen_ReceiptKey e := e]> m) m l).
Proof.
  revert prior m. induction l as [|e l IH]; intros prior m Hok Hs Hn Hp; [done|]. cbn [load_entries foldl].
  apply Forall_cons in Hok as [He Hok], Hp as [[Hp1 Hp2] Hp]. apply StronglySorted_inv in Hs as [Hs Hle].
  cbn [fmap list_fmap] in Hn. apply NoDup_cons in Hn as [Hni Hn]. rewrite entry_valid by done. apply IH; [done..|].
  rewrite Forall_forall in Hle |- *. intros e' He'. split; [by apply Hle|]. intros E. destruct Hni. rewrite E. by apply list_elem_of_fmap_2.
Qed.

#[export] Instance key_le_trans : Transitive key_le.
Proof. intros a b c. unfold key_le. apply transitivity. Qed.
#[export] Instance key_le_total : Total key_le.
Proof. intros a b. unfold key_le. apply total, _. Qed.

Lemma sorted_entries_perm m : sorted_entries m ≡ₚ (map_to_list m).*2.
Proof. apply merge_sort_Permutation. Qed.

Lemma elem_of_sorted m e : entries_ok m -> e ∈ sorted_entries m <-> m !! jen_ReceiptKey e = Some e.
Proof.
  intros Hm. rewrite sorted_entries_perm, list_elem_of_fmap. split.
  - intros ([k e'] & -> & Hk%elem_of_map_to_list). cbn. by destruct (Hm k e' Hk) as [-> _].
  - intros H. exists (jen_ReceiptKey e, e). by rewrite elem_of_map_to_list.
Qed.

Lemma sorted_keys m : entries_ok m -> jen_ReceiptKey <$> sorted_entries m ≡ₚ (map_to_list m).*1.
Proof.
  intros Hm. rewrite sorted_entries_perm. rewrite <- list_fmap_compose. apply Permutation_refl'. apply list_fmap_ext.
  intros i [k e] Hi. cbn. assert (Hk : m !! k = Some e) by (apply elem_of_map_to_list; by eapply list_elem_of_lookup_2). by destruct (Hm k e Hk).
Qed.

Lemma foldl_entries (l : list Entry) (m : gmap string Entry) :
  foldl (fun m e => <[jen_ReceiptKey e := e]> m) m l = list_to_map (reverse ((fun e => (jen_ReceiptKey e, e)) <$> l)) ∪ m.
Proof.
  revert m. induction l as [|e l IH]; intros m; [symmetry; apply (left_id_L ∅ (∪))|]. cbn [foldl fmap list_fmap]. rewrite IH, reverse_cons, list_to_map_app.
  rewrite <- (assoc_L (∪)). f_equal. change (list_to_map [(jen_ReceiptKey e, e)]) with ({[jen_ReceiptKey e := e]} : gmap string Entry). apply insert_union_singleton_l.
Qed.

Lemma load_sorted_entries m : entries_ok m -> load_entries "" (sorted_entries m) ∅ = Some m.
Proof.
  intros Hm. assert (Hok : Forall entry_ok (sorted_entries m)).
  { apply Forall_forall. intros e He%elem_of_sorted; [|done]. by apply (Hm _ _ He). }
  rewrite load_sorted; [|done|apply (StronglySorted_merge_sort key_le)| |].
  - f_equal. rewrite foldl_entries, (right_id_L ∅ (∪)).
    assert (Hp : (fun e => (jen_ReceiptKey e, e)) <$> sorted_entries m ≡ₚ map_to_list m).
    { rewrite sorted_entries_perm, <- list_fmap_compose. rewrite <- (list_fmap_id (map_to_list m)) at 2. apply Permutation_refl', list_fmap_ext.
      intros i [k e] Hi. cbn. assert (Hk : m !! k = Some e) by (apply elem_of_map_to_list; by eapply list_elem_of_lookup_2). by destruct (Hm k e Hk) as [-> _]. }
    rewrite <- (list_to_map_to_list m) at 2. apply list_to_map_proper; [|by rewrite reverse_Permutation].
    rewrite reverse_Permutation, Hp. apply NoDup_fst_map_to_list.
  - rewrite sorted_keys by done. apply NoDup_fst_map_to_list.
  - eapply Forall_impl; [exact Hok|]. intros e He. split; [by destruct (jen_ReceiptKey e)|]. intros E. by destruct (eok_key e He).
Qed.

Lemma carries_document m : entries_ok m ->
  carries json_document (dec_struct false document_fields) (mkDocument "" None) 5 (mkDocument journalVersion (Some (sorted_entries m))).
Proof.
  intros Hm. apply carries_object_carries. eapply fills_struct; [reflexivity|].
  fill; [by apply carries_string, valid_utf8|].
  eapply (fills_cons _ _ _ _ (json_slice json_entry)); [reflexivity|reflexivity|apply carries_slice|apply fills_nil].
  intros l [= <-]. apply Forall_forall. intros e He%elem_of_sorted; [|done]. apply carries_object_carries, carries_entry, (Hm _ _ He).
Qed.

(** A journal is written, and reading what was written gives the entries back. *)
Lemma wire_document m : entries_ok m ->
  exists text, wire_of m = Some text /\ decode_document text = Some (mkDocument journalVersion (Some (sorted_entries m))).
Proof.
  intros Hm. destruct (carries_parse _ _ _ _ _ (carries_document m Hm)) as (text & d & H1 & H2 & H3); [apply Nat.leb_le; by vm_compute|].
  exists text. split; [done|]. destruct (read_value_spaces text d H2) as (rest & Hr & Hs). unfold decode_document. by rewrite Hr, H3, Hs.
Qed.

Lemma load_wire maximum m text : entries_ok m -> wire_of m = Some text -> len text <= maximumDocumentBytes -> Z.of_nat (size m) <= maximum ->
  load maximum text = Some m.
Proof.
  intros Hm Hw Hl Hs. destruct (wire_document m Hm) as (text' & Hw' & Hd). assert (text' = text) as -> by congruence.
  assert (Hz : len text <> 0) by (intros E; destruct text; [|unfold len in E; simpl in E; lia]; by rewrite (eq_refl : decode_document "" = None) in Hd).
  unfold load. rewrite (proj2 (Z.eqb_neq _ _) Hz), (proj2 (Z.ltb_ge _ _) Hl), Hd. cbn [orb dcm_Version dcm_Entries].
  change (default [] (Some (sorted_entries m))) with (sorted_entries m).
  rewrite (bool_decide_eq_true_2 _ (eq_refl journalVersion)), (sorted_entries_perm m), length_fmap, length_map_to_list.
  rewrite (proj2 (Z.ltb_ge _ _) Hs). cbn [negb orb]. unfold wire_of in Hw. rewrite Hw, bool_decide_eq_true_2 by done. by apply load_sorted_entries.
Qed.

(** ** The life cycle as an order *)

(** What was observed stays; an acknowledgement is not taken back. *)
Definition observation_le (a b : Output) : Prop :=
  present a -> out_Wire a = out_Wire b /\ out_Digest a = out_Digest b /\ (out_Acknowledged a = true -> out_Acknowledged b = true).

Record entry_le (a b : Entry) : Prop := mkEntryLe {
  ele_key : jen_ReceiptKey a = jen_ReceiptKey b;
  ele_receipt : jen_ReceiptDigest a = jen_ReceiptDigest b;
  ele_generation : jen_HostGeneration a = jen_HostGeneration b;
  ele_epoch : jen_LeaseEpoch a <= jen_LeaseEpoch b;
  ele_token : jen_FencingToken a <= jen_FencingToken b;
  ele_lease : jen_LeaseEpoch a = jen_LeaseEpoch b \/ jen_FencingToken a = jen_FencingToken b \/ present (jen_Started a) ->
    jen_LeaseEpoch a = jen_LeaseEpoch b /\ jen_FencingToken a = jen_FencingToken b /\ jen_EnvelopeDigest a = jen_EnvelopeDigest b;
  ele_started : observation_le (jen_Started a) (jen_Started b);
  ele_result : observation_le (jen_Result a) (jen_Result b);
  ele_outputs : forall i o, jen_Outputs a !! i = Some o -> exists o', jen_Outputs b !! i = Some o' /\ observation_le o o';
  ele_transfer : observation_le (jen_TransferReceipt a) (jen_TransferReceipt b);
  ele_kind : present (jen_TransferReceipt a) -> jen_TransferReceiptKind a = jen_TransferReceiptKind b;
  ele_closed : present (jen_Result a) -> length (jen_Outputs a) = length (jen_Outputs b) /\
    (present (jen_TransferReceipt b) -> present (jen_TransferReceipt a))
}.

Lemma observation_le_present a b : observation_le a b -> present a -> present b.
Proof. unfold present. intros H Ha. destruct (H Ha) as (_ & E & _). congruence. Qed.

#[export] Instance observation_le_preorder : PreOrder observation_le.
Proof.
  split; [by intros a _|]. intros a b c H1 H2 Ha. pose proof (observation_le_present a b H1 Ha) as Hb.
  destruct (H1 Ha) as (-> & -> & H1'), (H2 Hb) as (-> & -> & H2'). auto.
Qed.

#[export] Instance entry_le_preorder : PreOrder entry_le.
Proof.
  split.
  - intros a. split; try done. intros i o Ho. by exists o.
  - intros a b c [A1 A2 A3 A4 A5 A6 A7 A8 A9 A10 A11 A12] [B1 B2 B3 B4 B5 B6 B7 B8 B9 B10 B11 B12].
    split; try congruence; try lia; try (by etrans); auto.
    + intros H. assert (Ha : jen_LeaseEpoch a = jen_LeaseEpoch b \/ jen_FencingToken a = jen_FencingToken b \/ present (jen_Started a)) by lia || (destruct H as [H|[H|H]]; [left; lia|right; left; lia|auto]).
      assert (Hb : jen_LeaseEpoch b = jen_LeaseEpoch c \/ jen_FencingToken b = jen_FencingToken c \/ present (jen_Started b))
        by (destruct H as [H|[H|H]]; [left; lia|right; left; lia|right; right; eauto using observation_le_present]).
      destruct (A6 Ha) as (-> & -> & ->). auto.
    + intros i o (o1 & H1 & L1)%A9. destruct (B9 i o1 H1) as (o2 & H2 & L2). exists o2. split; [done|]. by etrans.
    + intros H. rewrite (A11 H). apply B11. eauto using observation_le_present.
    + intros H. destruct (A12 H) as [-> H1], (B12 (observation_le_present _ _ A8 H)) as [-> H2]. auto.
Qed.

Definition entries_le (m m' : gmap string Entry) : Prop := forall key a, m !! key = Some a -> exists b, m' !! key = Some b /\ entry_le a b.

#[export] Instance entries_le_preorder : PreOrder entries_le.
Proof.
  split.
  - intros m key a H. by exists a.
  - intros m1 m2 m3 H1 H2 key a (b & Hb & Lb)%H1. destruct (H2 key b Hb) as (c & Hc & Lc). exists c. split; [done|]. by etrans.
Qed.

Lemma entries_le_insert m key e e' : m !! key = Some e -> entry_le e e' -> entries_le m (<[key := e']> m).
Proof.
  intros He Hle k a Ha. destruct (decide (key = k)) as [->|Hne]; [|exists a; by rewrite lookup_insert_ne].
  exists e'. rewrite lookup_insert_eq. assert (a = e) as -> by congruence. done.
Qed.

Lemma entries_le_new m key e : m !! key = None -> entries_le m (<[key := e]> m).
Proof. intros He k a Ha. assert (key <> k) by congruence. exists a. by rewrite lookup_insert_ne. Qed.

(** ** What an operation does *)

Record world_ok (w : World) : Prop := mkWorldOk { wok_entries : entries_ok (entries w); wok_size : Z.of_nat (size (entries w)) <= jrn_maximum (journal w) }.

(** The entries [m] were to be written, with the given end: either they are on the
    disk and in memory, or the memory is as before. *)
Definition wrote (io : Outcome) (m : gmap string Entry) (w : World) (ok : bool) (w' : World) : Prop :=
  exists text, wire_of m = Some text /\
    (len text <= maximumDocumentBytes /\ w' = mkWorld (write_file Written text (disk w)) (mkJournal (jrn_maximum (journal w)) m) /\ io = Written /\ ok = true \/
     len text <= maximumDocumentBytes /\ w' = mkWorld (write_file io text (disk w)) (journal w) /\ io <> Written /\ ok = false \/
     w' = w /\ ok = false).

Definition is_ok {E A} (r : res E A) : bool := match r with Ok _ => true | Err _ => false end.

(** An operation changes nothing, or writes entries that are further on. *)
Definition effect (io : Outcome) {A} (op : J A) (w : World) : Prop :=
  forall r w', op w = (r, w') -> w' = w \/
    exists m, entries_ok m /\ entries_le (entries w) m /\ Z.of_nat (size m) <= jrn_maximum (journal w) /\ wrote io m w (is_ok r) w'.

Lemma effect_ret io {A} (a : A) w : effect io (mret a) w.
Proof. intros r w' [= <- <-]. by left. Qed.
Lemma effect_fail io {A} e w : effect io (fail e : J A) w.
Proof. intros r w' [= <- <-]. by left. Qed.
Lemma effect_guard io {A} e b (k : unit -> J A) w : (b = true -> effect io (k tt) w) -> effect io (guard_or e b ≫= k) w.
Proof. intros H r w' E. destruct b; [by apply H|]. revert E. apply effect_fail. Qed.
Lemma effect_guard_last io e b w : effect io (guard_or e b) w.
Proof. destruct b; [apply effect_ret|apply effect_fail]. Qed.
Lemma effect_get io {A} (k : World -> J A) w : effect io (k w) w -> effect io (get ≫= k) w.
Proof. done. Qed.
Lemma effect_lookup io {A} key message p (k : Entry -> J A) w :
  (forall e, entries w !! key = Some e -> p e = true -> effect io (k e) w) -> effect io (lookup_entry key message p ≫= k) w.
Proof.
  intros H r w'. unfold mbind, M_bind, lookup_entry. destruct (entries w !! key) as [e|] eqn:E; [|intros [= <- <-]; by left].
  destruct (p e) eqn:P; [by apply H|]. intros [= <- <-]. by left.
Qed.

Lemma effect_then io {A B} (op : J A) (f : A -> B) w : effect io op w -> effect io (a ← op; mret (f a)) w.
Proof.
  intros H r w'. unfold mbind, M_bind. destruct (op w) as [[a|e] w1] eqn:E; intros [= <- <-]; apply (H _ _ E).
Qed.

(** A write of [m] that is undone by going back to the entries before. *)
Lemma write_effect io (change undo : gmap string Entry -> gmap string Entry) w :
  let op : J unit := fun w =>
    match (set_entries change;; persistLocked io) w with
    | (Ok tt, w) => (Ok tt, w)
    | (Err e, w) => (set_entries undo;; fail e) w
    end in
  undo (change (entries w)) = entries w -> entries_ok (change (entries w)) -> entries_le (entries w) (change (entries w)) ->
  Z.of_nat (size (change (entries w))) <= jrn_maximum (journal w) -> effect io op w.
Proof.
  intros op Hu Hok Hle Hs r w' E. right. exists (change (entries w)). split_and!; [done..|]. destruct (wire_document _ Hok) as (text & Hw & _).
  exists text. split; [done|]. revert E. unfold op, set_entries, persistLocked, fail, mbind, M_bind. unfold entries in *. cbn [journal jrn_entries disk jrn_maximum].
  rewrite Hw.
  assert (Hj : mkJournal (jrn_maximum (journal w)) (jrn_entries (journal w)) = journal w) by (by destruct (journal w)).
  assert (Hwo : mkWorld (disk w) (journal w) = w) by (by destruct w).
  destruct (maximumDocumentBytes <? len text) eqn:El; bools; [|destruct io]; intros [= <- <-]; cbn [is_ok journal jrn_entries disk jrn_maximum];
    rewrite ?Hu, ?Hj, ?Hwo; [by right; right|by right; left|by right; left|by left].
Qed.

Lemma entries_ok_insert m key e : entries_ok m -> jen_ReceiptKey e = key -> entry_ok e -> entries_ok (<[key := e]> m).
Proof. intros Hm Hk He. by apply map_Forall_insert_2. Qed.

Lemma commit_effect io key e e' restored w : world_ok w -> entries w !! key = Some e -> restored = e -> entry_ok e' -> entry_le e e' ->
  effect io (commit io key e' restored) w.
Proof.
  intros [Hm Hs] He -> Hok Hle. apply write_effect.
  - by rewrite insert_insert_eq, insert_id.
  - apply entries_ok_insert; [done| |done]. rewrite <- (ele_key _ _ Hle). by apply (Hm _ _ He).
  - by eapply entries_le_insert.
  - by rewrite map_size_insert_Some.
Qed.

Lemma commit_new_effect io key e w : world_ok w -> entries w !! key = None -> jen_ReceiptKey e = key -> entry_ok e ->
  Z.of_nat (size (entries w)) < jrn_maximum (journal w) -> effect io (commit_new io key e) w.
Proof.
  intros [Hm _] Hn Hk He Hs. apply write_effect.
  - by apply delete_insert_id.
  - by apply entries_ok_insert.
  - by apply entries_le_new.
  - rewrite map_size_insert_None by done. lia.
Qed.

(** ** The operations *)

Definition observed (wire : string) (acknowledged : bool) : Output := mkOutput (Some wire) (Digest wire) acknowledged.

Lemma bounded_len wire : bounded_wire wire = true -> 0 < len wire <= maximumWireBytes.
Proof. unfold bounded_wire. intros H. bools. unfold len in *. lia. Qed.

Lemma observed_ok wire b : bounded_wire wire = true -> observation_ok (observed wire b) /\ present (observed wire b).
Proof. intros H%bounded_len. split; [right; by exists wire|apply Digest_not_empty]. Qed.

Lemma absent_le a b : ~ present a -> observation_le a b.
Proof. intros H Ha. done. Qed.

Lemma digest_absent o : out_Digest o = "" -> ~ present o.
Proof. unfold present. congruence. Qed.

Lemma absent_staged o wire : observation_ok o -> ~ present o -> staged wire o = observed wire false /\ unstaged (staged wire o) = o.
Proof. intros Ho Hp. by rewrite (not_present o Ho Hp). Qed.

Lemma acknowledged_ok o : observation_ok o -> present o -> observation_ok (set_Acknowledged true o) /\ present (set_Acknowledged true o).
Proof. intros [->|(wire & H)] Hp; [done|]. split; [right; by exists wire|done]. Qed.

Lemma acknowledged_le o : observation_le o (set_Acknowledged true o).
Proof. intros _. done. Qed.

Lemma unacknowledged o : out_Acknowledged o = false -> set_Acknowledged false o = o.
Proof. destruct o. simpl. by intros ->. Qed.

(** A change of an entry that is a step of its life cycle. *)
Definition advances (e e' : Entry) : Prop := entry_ok e' /\ entry_le e e'.

Ltac by_fields := split; [split; [split|..]|split]; simpl; try done; try (intros i o Ho; by exists o); try (by intros _; split).

Section advances.
Context (e : Entry) (wire : string).
Hypothesis (He : entry_ok e) (Hw : bounded_wire wire = true).

Let Hok : forall b, observation_ok (observed wire b) := fun b => proj1 (observed_ok wire b Hw).
Let Hp : forall b, present (observed wire b) := fun b => proj2 (observed_ok wire b Hw).
Let Hu : utf8 (bytes (Digest wire)) := Digest_utf8 wire.

Lemma advance_started : ~ present (jen_Started e) -> advances e (jen_set_Started (observed wire false) e).
Proof. intros Hn. clear -He Hn Hok Hp Hu. destruct He as [[] ? ? ? ? ? ? ? ? ? ? ? ? ?], e. simpl in *. by_fields. Qed.

Lemma advance_result : present (jen_Started e) -> ~ present (jen_Result e) -> forallb out_Acknowledged (jen_Outputs e) = true ->
  (present (jen_TransferReceipt e) -> out_Acknowledged (jen_TransferReceipt e) = true) -> advances e (jen_set_Result (observed wire false) e).
Proof.
  intros Hs Hn Ho Ht. assert (Ha : Forall (fun o => out_Acknowledged o = true) (jen_Outputs e)).
  { apply Forall_forall. intros o Hi. rewrite forallb_forall in Ho. by apply Ho, list_elem_of_In. }
  clear -He Hs Hn Ht Ha Hok Hp Hu. destruct He as [[] ? ? ? ? ? ? ? ? ? ? ? ? ?], e. simpl in *. by_fields.
Qed.

Lemma advance_transfer kind : present (jen_Started e) -> ~ present (jen_Result e) -> ~ present (jen_TransferReceipt e) -> receipt_kind kind = true ->
  advances e (jen_set_TransferReceiptKind kind (jen_set_TransferReceipt (observed wire false) e)).
Proof.
  intros Hs Hn Ht Hk. assert (Hku : utf8 (bytes kind)).
  { unfold receipt_kind in Hk. rewrite !orb_true_iff, !bool_decide_eq_true in Hk. by destruct Hk as [[->| ->]| ->]; apply valid_utf8. }
  assert (Hne : Some wire <> Some "") by (intros [= ->]; done).
  clear -He Hs Hn Ht Hk Hku Hne Hok Hp Hu. destruct He as [[] ? ? ? ? ? ? ? ? ? ? ? ? ?], e. simpl in *. by_fields.
  split; [done|]. intros Hx. by destruct Hx.
Qed.

Lemma advance_output : present (jen_Started e) -> ~ present (jen_Result e) -> advances e (jen_set_Outputs (jen_Outputs e ++ [observed wire false]) e).
Proof.
  intros Hs Hn. clear -He Hs Hn Hok Hp Hu. destruct He as [[] ? ? ? ? ? ? ? ? ? ? ? ? ?], e. simpl in *. by_fields.
  - apply Forall_app. split; [done|]. by apply Forall_singleton.
  - apply Forall_app. split; [done|]. by apply Forall_singleton.
  - intros i o Ho. exists o. split; [by apply lookup_app_l_Some|done].
Qed.

Lemma advance_lease digest epoch token : ~ present (jen_Started e) -> digest <> "" -> utf8 (bytes digest) -> u64_range epoch -> u64_range token ->
  jen_LeaseEpoch e < epoch -> jen_FencingToken e < token -> advances e (jen_set_FencingToken token (jen_set_LeaseEpoch epoch (jen_set_EnvelopeDigest digest e))).
Proof.
  intros Hn Hd Hdu Hre Hrt Hle Hlt. clear -He Hn Hd Hdu Hre Hrt Hle Hlt. destruct He as [[] ? ? ? ? ? ? ? ? ? ? ? ? ?], e.
  unfold u64_range in *. simpl in *. by_fields; lia || (intros [?|[?|?]]; [lia|lia|done]).
Qed.

Lemma advance_ack_started : present (jen_Started e) -> advances e (jen_set_Started (set_Acknowledged true (jen_Started e)) e).
Proof.
  intros H. destruct (acknowledged_ok _ (eok_started e He) H). clear -He H H0 H1. destruct He as [[] ? ? ? ? ? ? ? ? ? ? ? ? ?], e. simpl in *. by_fields.
Qed.

Lemma advance_ack_result : present (jen_Result e) -> advances e (jen_set_Result (set_Acknowledged true (jen_Result e)) e).
Proof.
  intros H. destruct (acknowledged_ok _ (eok_result e He) H). clear -He H H0 H1. destruct He as [[] ? ? ? ? ? ? ? ? ? ? ? ? ?], e. simpl in *. by_fields.
Qed.

Lemma advance_ack_transfer : present (jen_TransferReceipt e) -> advances e (jen_set_TransferReceipt (set_Acknowledged true (jen_TransferReceipt e)) e).
Proof.
  intros H. destruct (acknowledged_ok _ (eok_transfer e He) H). clear -He H H0 H1. destruct He as [[] ? ? ? ? ? ? ? ? ? ? ? ? ?], e. simpl in *. by_fields.
  intros Hr. split; [by apply eok_result_last0|done].
Qed.

Lemma advance_ack_output index o : jen_Outputs e !! index = Some o ->
  advances e (jen_set_Outputs (<[index := set_Acknowledged true o]> (jen_Outputs e)) e).
Proof.
  intros Ho. pose proof (Forall_lookup_1 _ _ _ _ (eok_outputs e He) Ho) as [Ho1 Ho2]. destruct (acknowledged_ok o Ho1 Ho2) as [Ha1 Ha2].
  pose proof (Forall_lookup_1 _ _ _ _ (enc_outputs e (eok_encodable e He)) Ho) as Hou.
  assert (Hne : jen_Outputs e <> []) by (by intros E; rewrite E in Ho).
  clear -He Ho Ho1 Ho2 Ha1 Ha2 Hou Hne. destruct He as [[] ? ? ? ? ? ? ? ? ? ? ? ? ?], e. simpl in *. by_fields.
  - by apply Forall_insert.
  - by apply Forall_insert.
  - auto.
  - intros H. destruct (eok_result_last0 H) as [H1 H2]. split; [by apply Forall_insert|done].
  - intros i x Hx. destruct (decide (index = i)) as [->|Hi].
    + exists (set_Acknowledged true o). assert (x = o) as -> by congruence. split; [|done]. apply list_lookup_insert_eq. by eapply lookup_lt_Some.
    + exists x. by rewrite list_lookup_insert_ne.
  - intros _. by rewrite length_insert.
Qed.
End advances.

(** What is asked of an envelope that the host accepts: the protocol gives it to
    messages it has decoded. *)
Record envelope_ok (v : Envelope) : Prop := mkEnvelopeOk {
  vok_host : utf8 (bytes (evl_HostID v));
  vok_assignment : utf8 (bytes (evl_AssignmentID v));
  vok_operation : utf8 (bytes (evl_OperationID v));
  vok_request : utf8 (bytes (evl_CanonicalRequestDigest v));
  vok_generation : u64_range (evl_HostGeneration v);
  vok_epoch : u64_range (evl_LeaseEpoch v);
  vok_token : u64_range (evl_FencingToken v)
}.

(** The case in which an observation is not there yet. *)
Ltac absent_case o H := destruct (decide (out_Digest o = "")) as [H|H];
  [rewrite (bool_decide_eq_true_2 (out_Digest o = "") H)|rewrite (bool_decide_eq_false_2 (out_Digest o = "") H); apply effect_guard_last]; cbn [negb].

Section operations.
Context (io : Outcome) (w : World).
Hypothesis (Hw : world_ok w).

Lemma lookup_ok key e : entries w !! key = Some e -> entry_ok e.
Proof. intros H. by apply (wok_entries w Hw key e H). Qed.

Lemma commit_advance key e e' restored : entries w !! key = Some e -> restored = e -> advances e e' -> effect io (commit io key e' restored) w.
Proof. intros H1 H2 [H3 H4]. by eapply commit_effect. Qed.

Lemma StageStarted_effect envelope wire : effect io (StageStarted io envelope wire) w.
Proof.
  apply effect_guard. intros Hb. apply effect_lookup. intros e He Hr. pose proof (lookup_ok _ _ He) as Hok.
  absent_case (jen_Started e) Hs.
  destruct (absent_staged _ wire (eok_started e Hok) (digest_absent _ Hs)) as [E1 E2].
  eapply commit_advance; [done|by destruct e; simpl in *; rewrite E2|]. rewrite E1. apply advance_started; auto using digest_absent.
Qed.

Lemma StageTypedTransferReceipt_effect envelope kind wire : effect io (StageTypedTransferReceipt io envelope kind wire) w.
Proof.
  apply effect_guard. intros Hb. apply effect_guard. intros Hk. apply effect_lookup. intros e He Hr. pose proof (lookup_ok _ _ He) as Hok.
  absent_case (jen_TransferReceipt e) Ht.
  destruct (absent_staged _ wire (eok_transfer e Hok) (digest_absent _ Ht)) as [E1 E2].
  eapply commit_advance; [done| |].
  - pose proof (proj2 (eok_kind e Hok) (digest_absent _ Ht)) as Ekind. destruct e; simpl in *. by rewrite E2, Ekind.
  - rewrite E1. bools. apply advance_transfer; auto using digest_absent.
Qed.

Lemma stageResult_effect key wire : bounded_wire wire = true -> effect io (stageResult io key wire) w.
Proof.
  intros Hb. apply effect_lookup. intros e He Hs. pose proof (lookup_ok _ _ He) as Hok. apply effect_guard. intros Ho. apply effect_guard. intros Ht.
  absent_case (jen_Result e) Hr.
  destruct (absent_staged _ wire (eok_result e Hok) (digest_absent _ Hr)) as [E1 E2].
  eapply commit_advance; [done|by destruct e; simpl in *; rewrite E2|]. rewrite E1. bools. apply advance_result; auto using digest_absent.
  intros Hp. unfold present in Hp. rewrite bool_decide_eq_false_2 in Ht by done. simpl in Ht. by destruct (out_Acknowledged _).
Qed.

Lemma StageOutput_effect envelope wire : effect io (StageOutput io envelope wire) w.
Proof.
  apply effect_guard. intros Hb. apply effect_lookup. intros e He Hr. pose proof (lookup_ok _ _ He) as Hok.
  destruct (existsb _ _); [apply effect_ret|]. eapply commit_advance; [done|done|]. bools. apply advance_output; auto using digest_absent.
Qed.

Lemma acknowledge_effect message get set key digest : digest <> "" ->
  (forall e, entry_ok e -> present (get e) -> advances e (set (set_Acknowledged true (get e)) e)) ->
  (forall e, set (get e) e = e) -> effect io (acknowledge io message get set key digest) w.
Proof.
  intros Hd Hadv Hid. apply effect_lookup. intros e He Hg. apply bool_decide_eq_true in Hg. destruct (out_Acknowledged (get e)) eqn:Ha; [apply effect_ret|].
  eapply commit_advance; [done|by rewrite unacknowledged|]. apply Hadv; [by eapply lookup_ok|]. unfold present. congruence.
Qed.

Lemma AcknowledgeStarted_effect key digest : effect io (AcknowledgeStarted io key digest) w.
Proof. apply effect_guard. intros Hb. bools. apply acknowledge_effect; [done|apply advance_ack_started|by intros []]. Qed.
Lemma AcknowledgeResult_effect key digest : effect io (AcknowledgeResult io key digest) w.
Proof. apply effect_guard. intros Hb. bools. apply acknowledge_effect; [done|apply advance_ack_result|by intros []]. Qed.
Lemma AcknowledgeTransferReceipt_effect key digest : effect io (AcknowledgeTransferReceipt io key digest) w.
Proof. apply effect_guard. intros Hb. bools. apply acknowledge_effect; [done|apply advance_ack_transfer|by intros []]. Qed.

Lemma AcknowledgeOutput_effect key digest : effect io (AcknowledgeOutput io key digest) w.
Proof.
  apply effect_guard. intros Hb. apply effect_lookup. intros e He _. pose proof (lookup_ok _ _ He) as Hok.
  destruct (find_index _ _) as [[index o]|] eqn:Ef; [|apply effect_fail]. destruct (out_Acknowledged o) eqn:Ha; [apply effect_ret|].
  apply find_index_Some in Ef as (Hl & _). eapply commit_advance; [done| |by apply advance_ack_output].
  rewrite unacknowledged by done. destruct e; simpl in *. by rewrite list_insert_id.
Qed.

Lemma receiptKey_utf8 v : envelope_ok v -> utf8 (bytes (receiptKey v)).
Proof.
  intros []. unfold receiptKey. destruct (_ || _); [constructor|]. rewrite !bytes_app.
  assert (Hn : utf8 (bytes NUL)) by (by apply valid_utf8). auto 10 using utf8_concat.
Qed.

Lemma first_receipt_ok v digest : envelope_ok v -> receiptKey v <> "" -> digest <> "" -> utf8 (bytes digest) ->
  entry_ok (first_receipt (receiptKey v) digest v).
Proof.
  intros Hv Hk Hd Hu. pose proof (receiptKey_utf8 v Hv). pose proof (Digest_utf8 (receiptKey v)) as Hr.
  assert (evl_LeaseEpoch v <> 0 /\ evl_FencingToken v <> 0) as [He Hf].
  { unfold receiptKey in Hk. split; intros E; rewrite E in Hk; simpl in Hk; by rewrite ?orb_true_r in Hk. }
  destruct Hv. assert (Hn : observation_ok noOutput) by (by left). assert (utf8 []) by constructor.
  split; [split|..]; simpl; try done. intros [[]|[[]|[]]]; done.
Qed.

Lemma Accept_effect v digest : envelope_ok v -> utf8 (bytes digest) -> effect io (Accept io v digest) w.
Proof.
  intros Hv Hu. apply effect_guard. intros Hd. apply effect_guard. intros Hk. apply effect_get.
  destruct (entries w !! receiptKey v) as [e|] eqn:He.
  - destruct (_ && _); [apply effect_ret|]. apply effect_guard. intros Hg. apply effect_then. bools.
    eapply commit_advance; [done|done|]. destruct Hv. apply advance_lease; [by eapply lookup_ok|by apply digest_absent|done..].
  - apply effect_guard. intros Hg. apply effect_then. bools. apply commit_new_effect; [done..|by apply first_receipt_ok|lia].
Qed.
End operations.
