(* ===== verification/JournalTheorems.v ===== *)
(** * The host journal: theorems

    Any sequence of journal operations, with any end of their writes, interrupted by
    deaths of the process and losses of power.  What an operation has stored is never
    lost or rewritten ([receipts_durable]), the journal always opens again
    ([journal_recovers]), and every entry is in a legal state of its life cycle
    ([lifecycle_order]). *)

From stdpp Require Import gmap sorting.
From Stdlib Require Import Ascii String.
From S2P Require Import Prelude DurableFiles GoString Keys Sha256 GoTime GoJson GoJsonText JsonFacts JsonStrings JsonValues GoDecode DecodeFacts HostProtocol DigestFacts HostJournal JournalFacts.

Open Scope Z_scope.

(** ** Runs *)

Inductive jcall : Type :=
| CallAccept (envelope : Envelope) (digest : string)
| CallStageStarted (envelope : Envelope) (wire : string)
| CallStageTransfer (envelope : Envelope) (kind wire : string)
| CallStageOutput (envelope : Envelope) (wire : string)
| CallStageResult (envelope : Envelope) (wire : string)
| CallStageRecoveryResult (key wire : string)
| CallAcknowledgeStarted (key digest : string)
| CallAcknowledgeTransfer (key digest : string)
| CallAcknowledgeOutput (key digest : string)
| CallAcknowledgeResult (key digest : string).

(** One call with the end of its write: whether it returned without an error. *)
Definition call (io : Outcome) (c : jcall) (w : World) : bool * World :=
  let done (r : res JournalError unit * World) := (is_ok r.1, r.2) in
  match c with
  | CallAccept v d => let r := Accept io v d w in (is_ok r.1, r.2)
  | CallStageStarted v x => done (StageStarted io v x w)
  | CallStageTransfer v k x => done (StageTypedTransferReceipt io v k x w)
  | CallStageOutput v x => done (StageOutput io v x w)
  | CallStageResult v x => done (StageResult io v x w)
  | CallStageRecoveryResult k x => done (StageRecoveryResult io k x w)
  | CallAcknowledgeStarted k d => done (AcknowledgeStarted io k d w)
  | CallAcknowledgeTransfer k d => done (AcknowledgeTransferReceipt io k d w)
  | CallAcknowledgeOutput k d => done (AcknowledgeOutput io k d w)
  | CallAcknowledgeResult k d => done (AcknowledgeResult io k d w)
  end.

Definition call_ok (c : jcall) : Prop :=
  match c with CallAccept v d => envelope_ok v /\ utf8 (bytes d) | _ => True end.

(** The disk that a new process finds when the old one has died ([content] is what is
    under the path), or after a loss of power ([content] is one of the survivors). *)
Definition after_death (d : Disk) : Disk := Close d.
Definition after_power_loss (content : option string) : Disk := mkDisk content [content] false.

Section runs.
Context (path : string) (maximum : Z).

Inductive jstep (w : World) : World -> Prop :=
| step_call io c : call_ok c -> jstep w (call io c w).2
| step_restart journal d : Open true true path maximum (after_death (disk w)) = (Ok journal, d) -> jstep w (mkWorld d journal)
| step_power content journal d : content ∈ survivors (disk w) -> Open true true path maximum (after_power_loss content) = (Ok journal, d) ->
    jstep w (mkWorld d journal).

(** The journal opened for the first time. *)
Definition fresh : World := mkWorld (mkDisk None [None] true) (mkJournal maximum ∅).

Definition reachable (w : World) : Prop := rtc jstep fresh w.

(** ** The invariant *)

(** A content of the file that has everything [m] has. *)
Definition keeps (m : gmap string Entry) (content : option string) : Prop :=
  match content with
  | None => m = ∅
  | Some text => exists m', wire_of m' = Some text /\ entries_ok m' /\ len text <= maximumDocumentBytes /\ Z.of_nat (size m') <= maximum /\ entries_le m m'
  end.

Record above (m : gmap string Entry) (w : World) : Prop := mkAbove {
  abv_world : world_ok w;
  abv_maximum : jrn_maximum (journal w) = maximum;
  abv_memory : entries_le m (entries w);
  abv_visible : visible (disk w) ∈ survivors (disk w);
  abv_disk : Forall (keeps m) (survivors (disk w))
}.

Context (Hpath : HasPrefix path "/" = true) (Hmax : 0 < maximum <= 100000).

Lemma keeps_mono m m' content : entries_le m m' -> keeps m' content -> keeps m content.
Proof.
  intros H. destruct content as [text|]; simpl.
  - intros (m1 & H1 & H2 & H3 & H4 & H5). exists m1. split_and!; [done..|]. by etrans.
  - intros ->. apply map_empty. intros k. destruct (m !! k) as [a|] eqn:E; [|done]. destruct (H k a E) as (b & Hb & _). by rewrite lookup_empty in Hb.
Qed.

Lemma fresh_above : above ∅ fresh.
Proof.
  split; simpl; [|done|done|by apply list_elem_of_singleton|by apply Forall_singleton]. split; [apply map_Forall_empty|]. change (0 <= maximum). lia.
Qed.

(** A disk that keeps [m] opens, and the entries read are as far as [m]. *)
Lemma open_keeps m d : keeps m (visible d) -> lock_held d = false ->
  exists m', Open true true path maximum d = (Ok (mkJournal maximum m'), mkDisk (visible d) (survivors d) true) /\
    entries_ok m' /\ Z.of_nat (size m') <= maximum /\ entries_le m m'.
Proof.
  intros Hk Hl. unfold Open. rewrite Hpath, (proj2 (Z.leb_gt _ _)), (proj2 (Z.ltb_ge _ _)), Hl by lia. cbn [negb orb].
  destruct (visible d) as [text|]; simpl in Hk.
  - destruct Hk as (m' & H1 & H2 & H3 & H4 & H5). exists m'. by erewrite load_wire.
  - subst m. exists ∅. split_and!; [done|apply map_Forall_empty|change (0 <= maximum); lia|done].
Qed.

Lemma open_above m d journal d' : keeps m (visible d) -> Forall (keeps m) (survivors d) -> visible d ∈ survivors d -> lock_held d = false ->
  Open true true path maximum d = (Ok journal, d') -> above m (mkWorld d' journal).
Proof.
  intros Hk Hs Hv Hl Ho. destruct (open_keeps m d Hk Hl) as (m' & E & H1 & H2 & H3). rewrite Ho in E. injection E as -> ->. by split.
Qed.

Lemma wrote_above io m m' w ok w' : above m w -> entries_ok m' -> entries_le (entries w) m' -> Z.of_nat (size m') <= jrn_maximum (journal w) ->
  wrote io m' w ok w' -> above m w' /\ (ok = true -> above m' w').
Proof.
  intros [Hw Hm Hmem Hv Hd] Hok Hle Hs (text & Ht & H). rewrite Hm in Hs.
  assert (Hk : forall m0, entries_le m0 m' -> keeps m0 (Some text) \/ maximumDocumentBytes < len text).
  { intros m0 H0. destruct (Z_lt_le_dec maximumDocumentBytes (len text)); [by right|left]. by exists m'. }
  destruct H as [(Hl & -> & -> & ->)|[(Hl & -> & Hio & ->)|[-> ->]]].
  - assert (Hall : forall m0, entries_le m0 m' -> above m0 (mkWorld (write_file Written text (disk w)) (mkJournal (jrn_maximum (journal w)) m'))).
    { intros m0 H0. split; simpl; [split; simpl; [done|by rewrite Hm]|done|done|by apply list_elem_of_singleton|apply Forall_singleton]. by destruct (Hk m0 H0); [|lia]. }
    split; [apply Hall; by etrans|]. intros _. by apply Hall.
  - split; [|done]. split; [by destruct w as [d j]; destruct Hw; split|done|done|..].
    + destruct io; simpl; [done| |done]. by apply list_elem_of_here.
    + destruct io; simpl; [done| |done]. constructor; [|done]. destruct (Hk m); [by etrans|done|lia].
  - done.
Qed.

Lemma call_effect io c w : world_ok w -> call_ok c ->
  (call io c w).2 = w \/ exists m, entries_ok m /\ entries_le (entries w) m /\ Z.of_nat (size m) <= jrn_maximum (journal w) /\ wrote io m w (call io c w).1 (call io c w).2.
Proof.
  intros Hw Hc. assert (Hgen : forall A (op : J A), effect io op w -> let r := op w in r.2 = w \/
    exists m, entries_ok m /\ entries_le (entries w) m /\ Z.of_nat (size m) <= jrn_maximum (journal w) /\ wrote io m w (is_ok r.1) r.2).
  { intros A op H. cbn zeta. destruct (op w) as [r w'] eqn:E. exact (H r w' E). }
  destruct c; cbn [call fst snd]; apply Hgen.
  - by destruct Hc; apply Accept_effect.
  - by apply StageStarted_effect.
  - by apply StageTypedTransferReceipt_effect.
  - by apply StageOutput_effect.
  - apply effect_guard. intros Hb. by apply stageResult_effect.
  - apply effect_guard. intros Hb. bools. by apply stageResult_effect.
  - by apply AcknowledgeStarted_effect.
  - by apply AcknowledgeTransferReceipt_effect.
  - by apply AcknowledgeOutput_effect.
  - by apply AcknowledgeResult_effect.
Qed.

Lemma call_above io c m w : above m w -> call_ok c ->
  above m (call io c w).2 /\ ((call io c w).1 = true -> entries (call io c w).2 <> entries w -> above (entries (call io c w).2) (call io c w).2).
Proof.
  intros Ha Hc. destruct (call_effect io c w (abv_world m w Ha) Hc) as [E|(m' & H1 & H2 & H3 & Hwr)].
  - rewrite E. split; [done|]. by intros _ [].
  - destruct (wrote_above io m m' w _ _ Ha H1 H2 H3 Hwr) as [Hm Hm']. split; [done|]. intros Hok Hne.
    destruct Hwr as (text & _ & [(_ & E & _)|[(_ & _ & _ & E)|[E _]]]); [|congruence..]. specialize (Hm' Hok). rewrite E in *. exact Hm'.
Qed.

Lemma step_above m w w' : above m w -> jstep w w' -> above m w'.
Proof.
  intros Ha Hs. destruct Hs as [io c Hc|journal d Ho|content journal d Hin Ho].
  - by apply call_above.
  - destruct Ha. eapply (open_above m (after_death (disk w))); [|done..]. simpl. by eapply Forall_forall.
  - destruct Ha. rewrite Forall_forall in abv_disk0.
    eapply (open_above m (after_power_loss content)); [by apply abv_disk0| |by apply list_elem_of_singleton|done..]. by apply Forall_singleton, abv_disk0.
Qed.

Lemma run_above m w w' : above m w -> rtc jstep w w' -> above m w'.
Proof. intros Ha Hr. revert Ha. induction Hr as [|w w1 w2 Hs _ IH]; [done|]. eauto using step_above. Qed.

Lemma reachable_above w : reachable w -> above ∅ w.
Proof. apply run_above, fresh_above. Qed.
End runs.

(** ** Theorems *)

(** C17: What a journal operation has stored stays stored.  Take any state reached from a
    fresh journal by operations (with any end of their writes), deaths of the process
    and losses of power.  If a call then returns without an error and has changed the
    entries, every entry of that moment is still there in all later states, however
    the run goes on: with the same receipt, lease and observations, which at most gained
    an acknowledgement, later outputs, or, before the start, a newer lease. *)
Theorem receipts_durable path maximum io c w w' later :
  HasPrefix path "/" = true -> 0 < maximum <= 100000 -> reachable path maximum w -> call_ok c ->
  call io c w = (true, w') -> entries w' <> entries w -> rtc (jstep path maximum) w' later ->
  entries_le (entries w') (entries later).
Proof.
  intros Hp Hm Hr%reachable_above Hc Hcall Hne Hrun; [|done..].
  destruct (call_above maximum io c ∅ w Hr Hc) as [_ H]. rewrite Hcall in H. simpl in H.
  exact (abv_memory _ _ _ (run_above path maximum Hp Hm _ _ _ (H eq_refl Hne) Hrun)).
Qed.

(** C18: The journal always opens again.  In every reachable state, the file that a new
    process finds after the death of the old one, and every content that a loss of
    power can leave, is read back without an error, as well-formed entries whose
    encoding is that content. *)
Theorem journal_recovers path maximum w d :
  HasPrefix path "/" = true -> 0 < maximum <= 100000 -> reachable path maximum w ->
  d = after_death (disk w) \/ (exists content, content ∈ survivors (disk w) /\ d = after_power_loss content) ->
  exists m, Open true true path maximum d = (Ok (mkJournal maximum m), mkDisk (visible d) (survivors d) true) /\ entries_ok m /\
    Z.of_nat (size m) <= maximum /\ (visible d = None /\ m = ∅ \/ visible d = wire_of m).
Proof.
  intros Hp Hm Hr%reachable_above Hd; [|done..]. destruct Hr as [_ _ _ Hv Hs]. rewrite Forall_forall in Hs.
  assert (Hk : keeps maximum ∅ (visible d) /\ lock_held d = false) by (by destruct Hd as [->|(content & Hin & ->)]; split; [apply Hs| |apply Hs|]).
  destruct Hk as [Hk Hl]. unfold Open. rewrite Hp, (proj2 (Z.leb_gt _ _)), (proj2 (Z.ltb_ge _ _)), Hl by lia. cbn [negb orb].
  destruct (visible d) as [text|].
  - destruct Hk as (m & Hw & Hok & Hlen & Hsize & _). exists m. erewrite load_wire by done. auto.
  - exists ∅. split_and!; [done|apply map_Forall_empty|change (0 <= maximum); lia|auto].
Qed.

(** The life cycle of a receipt.  In every reachable state, an entry is stored under
    its own key; outputs, a transfer receipt or a result only exist once the start is
    recorded; a result only exists once every output and the transfer receipt are
    acknowledged; and each stored observation carries the digest of its bytes. *)
Theorem lifecycle_order path maximum w key e :
  HasPrefix path "/" = true -> 0 < maximum <= 100000 -> reachable path maximum w -> entries w !! key = Some e ->
  jen_ReceiptKey e = key /\
  (present (jen_Result e) \/ jen_Outputs e <> [] \/ present (jen_TransferReceipt e) -> present (jen_Started e)) /\
  (present (jen_Result e) -> Forall (fun o => out_Acknowledged o = true) (jen_Outputs e) /\
     (present (jen_TransferReceipt e) -> out_Acknowledged (jen_TransferReceipt e) = true)) /\
  Forall (fun o => observation_ok o) (jen_Started e :: jen_Result e :: jen_TransferReceipt e :: jen_Outputs e).
Proof.
  intros Hp Hm Hr%reachable_above He; [|done..]. destruct (wok_entries _ (abv_world _ _ _ Hr) _ _ He) as [Hk Hok].
  split; [done|]. split; [apply Hok|]. split; [apply Hok|]. do 3 (constructor; [apply Hok|]).
  eapply Forall_impl; [apply (eok_outputs e Hok)|]. by intros o [].
Qed.

(** ** A run *)

Definition demo_envelope : Envelope :=
  mkEnvelope Version "env-1" "del-1" "nonce" zeroTime zeroTime "key" 1 1 "host-1" 3 "asg-1" 2 7 "acme" "acme:alice" "sbx" "" "" "" "op-1" "exec"
    (Digest "spec") (Digest "caps") (Digest "request") "host-proposed/control-owned-v1" (Digest "payload") "payload" "".

Lemma demo_envelope_ok : envelope_ok demo_envelope.
Proof.
  assert (H : forall s, ValidString s = true -> utf8 (bytes s)) by exact valid_utf8.
  split; [apply H; reflexivity|apply H; reflexivity|apply H; reflexivity|apply Digest_utf8|..]; split; vm_compute; congruence.
Qed.

Definition demo_fresh : World := fresh 4.
Definition demo_accepted : World := (call Written (CallAccept demo_envelope (Digest "wire")) demo_fresh).2.
Definition demo_started : World := (call Written (CallStageStarted demo_envelope "started") demo_accepted).2.

(** The process dies after a write that was not synced. *)
Definition reopened (d : Disk) : World :=
  match Open true true "/journal" 4 d with (Ok j, d) => mkWorld d j | (Err _, _) => demo_fresh end.
Definition demo_unsynced : World := (call Unsynced (CallStageStarted demo_envelope "started") demo_accepted).2.
Definition demo_restarted : World := reopened (after_death (disk demo_unsynced)).
Definition demo_repeated : World := (call Written (CallStageStarted demo_envelope "started") demo_restarted).2.
(** Power is lost: the last synced content is back. *)
Definition demo_lost : World := reopened (after_power_loss (List.last (survivors (disk demo_repeated)) None)).

Lemma reopened_ok d : (match Open true true "/journal" 4 d with (Ok _, _) => true | _ => false end) = true ->
  Open true true "/journal" 4 d = (Ok (journal (reopened d)), disk (reopened d)).
Proof. unfold reopened. by destruct (Open _ _ _ _ _) as [[j|] d']. Qed.

Lemma reopened_eta d : mkWorld (disk (reopened d)) (journal (reopened d)) = reopened d.
Proof. by destruct (reopened d). Qed.

Lemma demo_restarts : jstep "/journal" 4 demo_unsynced demo_restarted.
Proof. unfold demo_restarted. rewrite <- reopened_eta. apply step_restart, reopened_ok. vm_compute. reflexivity. Qed.

Lemma demo_loses_power : jstep "/journal" 4 demo_repeated demo_lost.
Proof.
  unfold demo_lost. rewrite <- reopened_eta. eapply step_power; [|apply reopened_ok].
  - apply (bool_decide_eq_true_1 _). vm_compute. reflexivity.
  - vm_compute. reflexivity.
Qed.

Lemma demo_accept_ok : call_ok (CallAccept demo_envelope (Digest "wire")).
Proof. split; [apply demo_envelope_ok|apply Digest_utf8]. Qed.

Lemma demo_runs : rtc (jstep "/journal" 4) demo_accepted demo_restarted.
Proof.
  eapply rtc_l; [exact (step_call _ _ _ Unsynced (CallStageStarted demo_envelope "started") I)|].
  eapply rtc_l; [exact demo_restarts|]. apply rtc_refl.
Qed.

Lemma demo_journal_reachable : reachable "/journal" 4 demo_accepted.
Proof. eapply rtc_l; [exact (step_call _ _ _ Written _ demo_accept_ok)|]. apply rtc_refl. Qed.

Lemma receipts_durable_witness : entries_le (entries demo_accepted) (entries demo_restarted) /\ ExecutionStarted demo_envelope demo_restarted = true.
Proof.
  split; [|vm_compute; reflexivity].
  apply (receipts_durable "/journal" 4 Written (CallAccept demo_envelope (Digest "wire")) demo_fresh).
  - reflexivity.
  - lia.
  - apply rtc_refl.
  - exact demo_accept_ok.
  - vm_compute. reflexivity.
  - apply (bool_decide_eq_true_1 (_ <> _)). vm_compute. reflexivity.
  - exact demo_runs.
Defined.

Lemma journal_recovers_witness :
  exists m, let d := after_death (disk demo_accepted) in
    Open true true "/journal" 4 d = (Ok (mkJournal 4 m), mkDisk (visible d) (survivors d) true) /\ entries_ok m.
Proof.
  destruct (journal_recovers "/journal" 4 demo_accepted (after_death (disk demo_accepted))) as (m & H1 & H2 & _).
  - reflexivity.
  - lia.
  - exact demo_journal_reachable.
  - by left.
  - exists m. split; [exact H1|exact H2].
Defined.

(** A start that is returned without an error and yet lost.  The write of the first
    call is not synced, and the call fails; the process dies, and the next one reads the
    file; the same call now returns without an error, since the entry is there, and
    does not write.  After a loss of power the start is gone, although the second call
    reported it as stored. *)
Example unsynced_start_lost :
  (call Unsynced (CallStageStarted demo_envelope "started") demo_accepted).1 = false /\
  (call Written (CallStageStarted demo_envelope "started") demo_restarted).1 = true /\
  ExecutionStarted demo_envelope demo_repeated = true /\
  ExecutionStarted demo_envelope demo_lost = false /\
  rtc (jstep "/journal" 4) demo_accepted demo_lost.
Proof.
  do 4 (split; [vm_compute; reflexivity|]). etrans; [exact demo_runs|].
  eapply rtc_l; [exact (step_call _ _ _ Written (CallStageStarted demo_envelope "started") I)|].
  eapply rtc_l; [exact demo_loses_power|]. apply rtc_refl.
Qed.
