(* ===== verification/HostProcess.v ===== *)
(** * The host process

    internal/sandboxhostprocess: one poll of the reference host (run.go), the execution of
    a delivery around the durable effect boundary (execution.go), and the poll loop
    (loop.go).  The process may die at every call it makes to the disk, the network or
    the executor; what the calls return is given by an environment, numbered call by
    call ([Env]).  Beside the disk the state keeps what an observer sees: the receipts whose
    executor has been called, and the messages sent. *)

From stdpp Require Import gmap.
From Stdlib Require Import Ascii String.
From S2P Require Import Prelude DurableFiles GoString Sha256 GoTime GoJson GoJsonText GoDecode TimeText HostProtocol HostFields HostWire ControlTrust HostJournal.

Open Scope Z_scope.

Inductive HostError : Type :=
| Died
| ErrNoWork
| ErrRetryable
| ErrInjectedJournalFault
| ErrInjectedReceiptFault
| ErrInjectedResultAcknowledgementFault
| ErrExecutionLeaseExpired
| Cancelled
| JournalFailed (e : JournalError)
| HostRefused (message : string).

(** ** Executors *)

Record GuestOutput : Type := mkGuestOutput { gou_Stream : string; gou_Sequence : Z; gou_Data : string }.

(** What one call of an executor does: it may stage receipts of its own in the journal,
    and give values to the emitter of the call, and go on with whether that succeeded. *)
Inductive behaviour (E : Type) : Type :=
| Finished (ok : bool)
| StagesReceipt (kind wire : string) (next : bool -> behaviour E)
| Emits (value : E) (next : bool -> behaviour E).
Arguments Finished {E} _.
Arguments StagesReceipt {E} _ _ _.
Arguments Emits {E} _ _.

(** The methods of an executor; an interface that it does not have is [None]. *)
Record Executor : Type := mkExecutor {
  exe_Execute : Envelope -> behaviour Empty_set;
  exe_ExecuteAuthenticated : option (Envelope -> string -> behaviour Empty_set);
  exe_ExecuteWithOutput : option (Envelope -> behaviour GuestOutput);
  exe_ExecuteAuthenticatedWithOutput : option (Envelope -> string -> behaviour GuestOutput);
  exe_ExecuteWithDataPlaneReceipt : option (Envelope -> behaviour (string * string));
  exe_ExecuteAuthenticatedWithDataPlaneReceipt : option (Envelope -> string -> behaviour (string * string));
  exe_Reap : bool;
  exe_TerminalObservation : option (Envelope -> string -> Time -> option (option Observation))
}.

(** A call that emits nothing, where an emitter is offered. *)
Fixpoint silent {E} (b : behaviour Empty_set) : behaviour E :=
  match b with
  | Finished ok => Finished ok
  | StagesReceipt kind wire next => StagesReceipt kind wire (fun ok => silent (next ok))
  | Emits value _ => match value with end
  end.

(** authenticatedEnvelopeExecutor: the methods of the wrapper. *)
Definition bound_Execute (e : Executor) (wire : string) (v : Envelope) : behaviour Empty_set :=
  match exe_ExecuteAuthenticated e with Some f => f v wire | None => exe_Execute e v end.

Definition bound_ExecuteWithOutput (e : Executor) (wire : string) (v : Envelope) : behaviour GuestOutput :=
  match exe_ExecuteAuthenticated e, exe_ExecuteWithOutput e, exe_ExecuteAuthenticatedWithOutput e with
  | Some _, Some _, Some f => f v wire
  | _, Some f, _ => f v
  | _, None, _ => silent (bound_Execute e wire v)
  end.

Definition bound_ExecuteWithDataPlaneReceipt (e : Executor) (wire : string) (v : Envelope) : behaviour (string * string) :=
  match exe_ExecuteAuthenticated e, exe_ExecuteWithDataPlaneReceipt e, exe_ExecuteAuthenticatedWithDataPlaneReceipt e with
  | Some _, Some _, Some f => f v wire
  | _, Some f, _ => f v
  | _, None, _ => silent (bound_Execute e wire v)
  end.

(** The wrapper has these methods and no others. *)
Definition bindAuthenticatedEnvelope (e : Executor) (wire : string) : Executor :=
  match exe_ExecuteAuthenticated e with
  | None => e
  | Some _ =>
    if len wire =? 0 then e
    else mkExecutor (bound_Execute e wire) None (Some (bound_ExecuteWithOutput e wire)) None (Some (bound_ExecuteWithDataPlaneReceipt e wire)) None true None
  end.

(** ** The environment of a poll *)

Inductive Reply : Type :=
| Response (status : Z) (body : string)
| TransportUnavailable
| TransportRefused
| TransportCancelled
| InvalidResponse.

Record Env : Type := mkEnv {
  env_io : nat -> Outcome;
  env_dies : nat -> bool;
  env_reply : nat -> Reply;
  env_cancelled : nat -> bool;
  env_now : nat -> Time;
  env_lockable : bool;
  env_readable : bool
}.

Record HostState : Type := mkHostState {
  hst_world : World;
  hst_calls : nat;
  hst_executed : list string;
  hst_sent : list (string * string)
}.

Notation H := (M HostState HostError).

Definition set_world (w : World) (s : HostState) : HostState := mkHostState w (hst_calls s) (hst_executed s) (hst_sent s).

(** The number of the next call. *)
Definition next_call : H nat := fun s => (Ok (hst_calls s), mkHostState (hst_world s) (S (hst_calls s)) (hst_executed s) (hst_sent s)).

Record Config : Type := mkConfig {
  cfg_hostID : string;
  cfg_hostGeneration : Z;
  cfg_journalFile : string;
  cfg_maximumReceipts : Z;
  cfg_testFaultAfterJournal : bool;
  cfg_testFaultAfterReceipt : bool;
  cfg_testFaultAfterResultSend : bool
}.

Definition pullPath : string := "/sandbox.host-control/v1/pull".
Definition receiptPath : string := "/sandbox.host-control/v1/receipt".
Definition resultPath : string := "/sandbox.host-control/v1/result".
Definition dataReceiptPath : string := "/sandbox.host-control/v1/data-receipt".
Definition outputPath : string := "/sandbox.host-control/v1/output".

Definition json_PullRequest (hostID : string) (generation : Z) : jval :=
  JObj [("protocol_version", JStr Version); ("kind", JStr "pull"); ("host_id", JStr hostID); ("host_generation", JNum generation)].
Definition json_ReceiptRequest (assignmentID : string) (fencingToken : Z) (receiptDigest : string) : jval :=
  JObj [("protocol_version", JStr Version); ("kind", JStr "receipt"); ("assignment_id", JStr assignmentID); ("fencing_token", JNum fencingToken);
        ("receipt_digest", JStr receiptDigest)].

Section process.
Context `{Ed25519} (env : Env).

(** ** Calls *)

Definition alive (n : nat) : H unit := guard_or Died (negb (env_dies env n)).

Definition journal_op {A} (op : Outcome -> J A) : H A :=
  n ← next_call;
  ((fun s =>
    let '(r, w) := op (env_io env n) (hst_world s) in
    (alive n;; match r with Ok a => mret a | Err e => fail (JournalFailed e) end) (set_world w s)) : H A).

Definition read_journal {A} (f : World -> A) : H A := fun s => (Ok (f (hst_world s)), s).

Definition now : H Time := n ← next_call; mret (toUTC (env_now env n)).
Definition cancelled : H bool := n ← next_call; mret (env_cancelled env n).

(** do *)
Definition do_ (path body : string) : H (Z * string) :=
  n ← next_call;
  modify (fun s => mkHostState (hst_world s) (hst_calls s) (hst_executed s) (hst_sent s ++ [(path, body)]));;
  alive n;;
  match env_reply env n with
  | Response status body => mret (status, body)
  | TransportUnavailable => fail ErrRetryable
  | TransportRefused => fail (HostRefused "transport refused")
  | TransportCancelled => fail Cancelled
  | InvalidResponse => fail (HostRefused "invalid bounded response")
  end.

Definition requireControlStatus (status : Z) (refusal : string) : H unit :=
  if 500 <=? status then fail ErrRetryable else guard_or (HostRefused refusal) (status =? 200).

Definition post (path refusal wire : string) : H unit :=
  response ← do_ path wire;
  requireControlStatus response.1 refusal.

Definition sendResult : string -> H unit := post resultPath "result was not accepted".
Definition sendOutput : string -> H unit := post outputPath "output was not accepted".
Definition sendDataReceipt : string -> H unit := post dataReceiptPath "data receipt was not accepted".

(** ** Signing *)

Definition shorten (digest : string) : string := of_bytes (take 32 (drop 7 (bytes digest))).

Definition executionResultID (state seed : string) : string := state +:+ "_" +:+ shorten (Digest (state +:+ NUL +:+ seed)).

Definition signExecutionResultWithObservation (v : Envelope) (state : string) (observedAt : Time) (o : option Observation) (key : string) : option string :=
  SignResult (mkHostMessage Version (executionResultID state (evl_DeliveryID v)) (evl_HostID v) (evl_HostGeneration v) (evl_AssignmentID v) (evl_LeaseEpoch v)
                (evl_FencingToken v) (evl_Principal v) (evl_OperationID v) (evl_EffectiveSpecDigest v) (evl_CapabilityDigest v) state (toUTC observedAt) o "") key.

Definition signExecutionResult (v : Envelope) (state : string) (observedAt : Time) (key : string) : option string :=
  signExecutionResultWithObservation v state observedAt None key.

Definition signRecoveredUncertain (r : Result) (observedAt : Time) (key : string) : option string :=
  SignResult (mkHostMessage Version (executionResultID "uncertain" (hms_ResultID r)) (hms_HostID r) (hms_HostGeneration r) (hms_AssignmentID r) (hms_LeaseEpoch r)
                (hms_FencingToken r) (hms_Principal r) (hms_OperationID r) (hms_EffectiveSpecDigest r) (hms_CapabilityDigest r) "uncertain" (toUTC observedAt) None "") key.

Definition bounded_receipt (kind receipt : string) : bool := receipt_kind kind && negb (len receipt =? 0) && (len receipt <=? 768 * 2 ^ 10).

Definition receipt_id (assignmentID : string) (leaseEpoch fencingToken : Z) (kind receipt : string) : string :=
  "receipt_" +:+ shorten (Digest (assignmentID +:+ NUL +:+ decimal leaseEpoch +:+ NUL +:+ decimal fencingToken +:+ NUL +:+ kind +:+ NUL +:+ receipt)).

Definition signDataPlaneReceipt (v : Envelope) (kind receipt key : string) : option string :=
  if negb (bounded_receipt kind receipt) then None
  else SignDataPlaneReceipt
         (mkDataPlaneReceipt Version (receipt_id (evl_AssignmentID v) (evl_LeaseEpoch v) (evl_FencingToken v) kind receipt) (evl_HostID v) (evl_HostGeneration v)
            (evl_AssignmentID v) (evl_LeaseEpoch v) (evl_FencingToken v) (evl_OperationID v) kind (Digest receipt) "") key.

Definition signExecutionOutput (v : Envelope) (o : GuestOutput) (observedAt : Time) (key : string) : option string :=
  if ((gou_Stream o ≠? "stdout") && (gou_Stream o ≠? "stderr")) || (gou_Sequence o =? max_u64) || (len (gou_Data o) =? 0) || (256 * 2 ^ 10 <? len (gou_Data o)) then None
  else SignOutput
         (HostProtocol.mkOutput Version ("output_" +:+ shorten (Digest (evl_DeliveryID v +:+ NUL +:+ gou_Stream o +:+ NUL +:+ gou_Data o))) (evl_HostID v) (evl_HostGeneration v)
            (evl_AssignmentID v) (evl_LeaseEpoch v) (evl_FencingToken v) (evl_Principal v) (evl_OperationID v) (gou_Stream o) (gou_Sequence o + 1)
            (Digest (gou_Data o)) (u32 (len (gou_Data o))) (Some (gou_Data o)) false (toUTC observedAt) "") key.

(** [parts := strings.Split(entry.ReceiptKey, NUL)] *)
Fixpoint split_nul (l : list Z) : list (list Z) :=
  match l with
  | [] => [[]]
  | c :: l =>
    match split_nul l with
    | part :: parts => if c =? 0 then [] :: part :: parts else (c :: part) :: parts
    | [] => [[]]
    end
  end.

Definition signPendingDataPlaneReceipt (e : Entry) (kind receipt key : string) : option string :=
  match of_bytes <$> split_nul (bytes (jen_ReceiptKey e)) with
  | [hostID; assignmentID; operationID; _] =>
    if (hostID ≟ "") || (assignmentID ≟ "") || (operationID ≟ "") || (jen_HostGeneration e =? 0) || (jen_LeaseEpoch e =? 0) || (jen_FencingToken e =? 0) then None
    else if negb (bounded_receipt kind receipt) then None
    else SignDataPlaneReceipt
           (mkDataPlaneReceipt Version (receipt_id assignmentID (jen_LeaseEpoch e) (jen_FencingToken e) kind receipt) hostID (jen_HostGeneration e) assignmentID
              (jen_LeaseEpoch e) (jen_FencingToken e) operationID kind (Digest receipt) "") key
  | _ => None
  end.

(** [wire, err := sign(...); if err != nil { return err }] *)
Definition signed_or (message : string) (wire : option string) : H string :=
  match wire with Some wire => mret wire | None => fail (HostRefused message) end.

(** ** Executing a delivery *)

Definition stageAndSendTerminal (v : Envelope) (observedAt : Time) (key state : string) (o : option Observation) (faultAfterSend : bool) : H unit :=
  terminal ← signed_or "sign host result" (signExecutionResultWithObservation v state observedAt o key);
  journal_op (fun io => StageResult io v terminal);;
  sendResult terminal;;
  guard_or ErrInjectedResultAcknowledgementFault (negb faultAfterSend);;
  entry ← read_journal (Entry_ v);
  match entry with
  | None => fail (HostRefused "acknowledge sandbox host terminal result: durable receipt is absent")
  | Some entry => journal_op (fun io => AcknowledgeResult io (jen_ReceiptKey entry) (Digest terminal))
  end.

(** Whether a step succeeded; a dead process does not go on. *)
Definition attempt (op : H unit) : H bool := fun s =>
  match op s with
  | (Ok _, s) => (Ok true, s)
  | (Err Died, s) => (Err Died, s)
  | (Err _, s) => (Ok false, s)
  end.

(** One call of the executor, with its emitter. *)
Fixpoint perform {E} (v : Envelope) (emit : E -> H unit) (b : behaviour E) : H bool :=
  match b with
  | Finished ok => n ← next_call; alive n;; mret ok
  | StagesReceipt kind wire next => ok ← attempt (journal_op (fun io => StageTypedTransferReceipt io v kind wire)); perform v emit (next ok)
  | Emits value next => ok ← attempt (emit value); perform v emit (next ok)
  end.

(** The emitters of executeEnvelope. *)
Definition emit_receipt (v : Envelope) (key : string) (kr : string * string) : H unit :=
  wire ← signed_or "sign sandbox host data-plane receipt" (signDataPlaneReceipt v kr.1 kr.2 key);
  sendDataReceipt wire;;
  entry ← read_journal (Entry_ v);
  match entry with
  | None => fail (HostRefused "acknowledge sandbox host data-plane receipt: durable receipt is absent")
  | Some entry => journal_op (fun io => AcknowledgeTransferReceipt io (jen_ReceiptKey entry) (Digest kr.2))
  end.

Definition emit_output (v : Envelope) (observedAt : Time) (key : string) (o : GuestOutput) : H unit :=
  wire ← signed_or "sign sandbox host output" (signExecutionOutput v o observedAt key);
  journal_op (fun io => StageOutput io v wire);;
  sendOutput wire;;
  entry ← read_journal (Entry_ v);
  match entry with
  | None => fail (HostRefused "acknowledge sandbox host output: durable receipt is absent")
  | Some entry => journal_op (fun io => AcknowledgeOutput io (jen_ReceiptKey entry) (Digest wire))
  end.

(** The call of the executor: recorded as executed, then performed. *)
Definition record_execution (v : Envelope) : H unit :=
  modify (fun s => mkHostState (hst_world s) (hst_calls s) (hst_executed s ++ [receiptKey v]) (hst_sent s)).

Definition call_executor (v : Envelope) (at_ : Time) (key : string) (executor : Executor) : H bool :=
  record_execution v;;
  match exe_ExecuteWithDataPlaneReceipt executor, exe_ExecuteWithOutput executor with
  | Some f, _ => perform v (emit_receipt v key) (f v)
  | None, Some f => perform v (emit_output v at_ key) (f v)
  | None, None => perform v (fun value : Empty_set => match value with end) (exe_Execute executor v)
  end.

(** The call of the reaper, whose result is not looked at. *)
Definition reap : H unit := n ← next_call; alive n.

(** executeEnvelopeWithOutputAfterTerminalSend, with every sender given. *)
Definition executeEnvelope (v : Envelope) (at_ : Time) (key : string) (executor : Executor) (faultAfterSend : bool) : H unit :=
  guard_or ErrExecutionLeaseExpired ((len key =? PrivateKeySize) && negb (IsZero at_) && Before at_ (evl_ExpiresAt v));;
  stopped ← cancelled;
  guard_or Cancelled (negb stopped);;
  begun ← read_journal (ExecutionStarted v);
  if (begun : bool) then stageAndSendTerminal v at_ key "uncertain" None faultAfterSend
  else
    started ← signed_or "sign host result" (signExecutionResult v "started" at_ key);
    journal_op (fun io => StageStarted io v started);;
    sendResult started;;
    entry ← read_journal (Entry_ v);
    match entry with
    | None => fail (HostRefused "acknowledge sandbox host started result: durable receipt is absent")
    | Some entry =>
      journal_op (fun io => AcknowledgeStarted io (jen_ReceiptKey entry) (Digest started));;
      ok ← call_executor v at_ key executor;
      expired ← cancelled;
      let uncertain := negb ok || expired || negb (Before at_ (evl_ExpiresAt v)) in
      let state := if uncertain then "uncertain" else "succeeded" in
      (if uncertain && exe_Reap executor then reap else mret tt);;
      match exe_TerminalObservation executor with
      | None => stageAndSendTerminal v at_ key state None faultAfterSend
      | Some report =>
        match report v state (toUTC at_) with
        | Some o => stageAndSendTerminal v at_ key state o faultAfterSend
        | None => stageAndSendTerminal v at_ key "uncertain" None faultAfterSend
        end
      end
    end.

(** ** Recovery *)

Definition recoverIncompleteExecutions (at_ : Time) (key : string) : H unit :=
  guard_or (HostRefused "recover sandbox host execution: explicit bounded dependencies are required") ((len key =? PrivateKeySize) && negb (IsZero at_));;
  stopped ← cancelled;
  guard_or Cancelled (negb stopped);;
  pending ← read_journal PendingExecutions;
  for_each (fun (_ : unit) (p : PendingResult) =>
    match VerifyResult (pnr_Wire p) at_ (Public key) with
    | None => fail (HostRefused "recover sandbox host execution: durable started observation is invalid") : H unit
    | Some started =>
      guard_or (HostRefused "recover sandbox host execution: durable started observation is invalid") (hms_State started ≟ "started");;
      terminal ← signed_or "sign host result" (signRecoveredUncertain started at_ key);
      journal_op (fun io => StageRecoveryResult io (pnr_ReceiptKey p) terminal);;
      sendResult terminal;;
      journal_op (fun io => AcknowledgeResult io (pnr_ReceiptKey p) (Digest terminal))
    end) tt pending.

Definition replayStarts : H unit :=
  pending ← read_journal PendingStarts;
  for_each (fun (_ : unit) (p : PendingResult) => sendResult (pnr_Wire p);; journal_op (fun io => AcknowledgeStarted io (pnr_ReceiptKey p) (Digest (pnr_Wire p)))) tt pending.

Definition replayOutputs : H unit :=
  pending ← read_journal PendingOutputs;
  for_each (fun (_ : unit) (p : PendingResult) => sendOutput (pnr_Wire p);; journal_op (fun io => AcknowledgeOutput io (pnr_ReceiptKey p) (Digest (pnr_Wire p)))) tt pending.

Definition replayTransferReceipts (key : string) : H unit :=
  pending ← read_journal PendingTransferReceipts;
  for_each (fun (_ : unit) (p : PendingTransferReceipt) =>
    entry ← read_journal (EntryByReceiptKey (pnt_ReceiptKey p));
    match entry with
    | None => fail (HostRefused "replay sandbox host data-plane receipt: durable receipt is absent")
    | Some entry =>
      wire ← signed_or "replay sandbox host data-plane receipt" (signPendingDataPlaneReceipt entry (pnt_Kind p) (pnt_Wire p) key);
      sendDataReceipt wire;;
      journal_op (fun io => AcknowledgeTransferReceipt io (pnt_ReceiptKey p) (Digest (pnt_Wire p)))
    end) tt pending.

Definition replayResults : H unit :=
  pending ← read_journal PendingResults;
  for_each (fun (_ : unit) (p : PendingResult) => sendResult (pnr_Wire p);; journal_op (fun io => AcknowledgeResult io (pnr_ReceiptKey p) (Digest (pnr_Wire p)))) tt pending.

(** ** One poll *)

(** The poll with the journal open. *)
Definition poll (config : Config) (key : string) (executor : Executor) (trust : AtomicTrust) : H unit :=
  replayStarts;;
  replayOutputs;;
  replayTransferReceipts key;;
  at_ ← now;
  recoverIncompleteExecutions at_ key;;
  replayResults;;
  response ← do_ pullPath (default "" (marshal (json_PullRequest (cfg_hostID config) (cfg_hostGeneration config))));
  guard_or ErrNoWork (negb (response.1 =? 204));;
  requireControlStatus response.1 "pull denied or unavailable";;
  at_ ← now;
  match VerifyEnvelopeWithTrust response.2 (cfg_hostID config) (cfg_hostGeneration config) at_ (Snapshot trust) with
  | None => fail (HostRefused "run sandbox reference host: assignment refused")
  | Some v =>
    accepted ← journal_op (fun io => Accept io v (Digest response.2));
    guard_or ErrInjectedJournalFault (negb (cfg_testFaultAfterJournal config));;
    receipt ← do_ receiptPath (default "" (marshal (json_ReceiptRequest (evl_AssignmentID v) (evl_FencingToken v) (jen_ReceiptDigest accepted.1))));
    requireControlStatus receipt.1 "receipt was not accepted";;
    guard_or ErrInjectedReceiptFault (negb (cfg_testFaultAfterReceipt config));;
    at_ ← now;
    executeEnvelope v at_ key (bindAuthenticatedEnvelope executor response.2) (cfg_testFaultAfterResultSend config)
  end.

(** runOnceWithExecutor, once the client and the signing key are there: the journal is
    opened, and released at the end, by Close or by the death of the process. *)
Definition runOnce (config : Config) (key : string) (executor : Executor) (trust : AtomicTrust) (s : HostState) : res HostError unit * HostState :=
  if negb (len key =? PrivateKeySize) then (Err (HostRefused "run sandbox reference host: host signing key is invalid"), s)
  else
    let '(opened, d) := Open (env_lockable env) (env_readable env) (cfg_journalFile config) (cfg_maximumReceipts config) (disk (hst_world s)) in
    match opened with
    | Err e => (Err (JournalFailed e), set_world (mkWorld d (journal (hst_world s))) s)
    | Ok j =>
      let '(r, s) := poll config key executor trust (set_world (mkWorld d j) s) in
      (r, set_world (mkWorld (Close (disk (hst_world s))) (journal (hst_world s))) s)
    end.
End process.
