(* ===== verification/HostProcessFacts.v ===== *)
(** * The host process: facts

    What every step of a poll keeps ([stable]): the journal stays above what it has
    stored, and nothing is executed but by the executor call. *)

From stdpp Require Import gmap.
From Stdlib Require Import Ascii String.
From S2P Require Import Prelude DurableFiles GoString Keys Sha256 GoTime GoJson GoJsonText JsonFacts JsonStrings JsonValues GoDecode DecodeFacts TimeText HostProtocol DigestFacts HostFields HostWire ControlTrust HostJournal JournalFacts JournalTheorems HostProcess.

Open Scope Z_scope.

(** ** Decoded envelopes *)

Lemma dec_members_inv {A} (P : A -> Prop) (fields : list (field A)) n l a a' :
  (forall f b d b', f ∈ fields -> doc_ok n d = true -> P b -> fld_set f b d = Some b' -> P b') ->
  forallb (fun kd => body_ok kd.1 && doc_ok n kd.2) l = true -> P a -> dec_members false fields l a = Some a' -> P a'.
Proof.
  intros Hf. revert a. induction l as [|[k d] l IH]; intros a Hl Ha; simpl; [by intros [= <-]|]. simpl in Hl.
  apply andb_true_iff in Hl as [[_ Hd]%andb_true_iff Hl]. destruct (find_field (unquote k) fields) as [f|] eqn:Ef; [|done].
  destruct (fld_set f a d) as [b|] eqn:Eb; [|done]. apply IH; [done|]. eapply Hf; [|done..].
  unfold find_field in Ef. destruct (find_index _ fields) as [[i g]|] eqn:Ei.
  - injection Ef as <-. eapply list_elem_of_lookup_2, find_index_lookup, Ei.
  - destruct (find_index (fun f => fold_name _ ≟ _) fields) as [[i g]|] eqn:Ej; [|done]. injection Ef as <-. eapply list_elem_of_lookup_2, find_index_lookup, Ej.
Qed.

Lemma dec_string_utf8 n old d s : doc_ok n d = true -> utf8 (bytes old) -> dec_string old d = Some s -> utf8 (bytes s).
Proof.
  intros Hd Ho. destruct d; cbn; try done; [by intros [= <-]|]. intros [= <-]. cbn in Hd. pose proof (unquote_utf8 _ Hd) as Hu.
  unfold unquote. by rewrite bytes_of_bytes by (by apply utf8_bytes).
Qed.

Lemma dec_uint64_range old d n : u64_range old -> dec_uint64 old d = Some n -> u64_range n.
Proof.
  intros Ho. destruct d; cbn; try done; [by intros [= <-]|]. unfold ParseUint64. destruct (forallb is_digit _) eqn:Ed; [|done]. cbn [andb].
  destruct (negb _); [|done]. destruct (_ <=? max_u64) eqn:El; [|done]. intros [= <-]. apply Z.leb_le in El. split; [|done].
  apply number_value_range. apply Forall_forall. intros c Hc%list_elem_of_In. rewrite forallb_forall in Ed. auto.
Qed.

(** A field of the struct that is not looked at, or a text or a number of it. *)
Ltac envelope_field :=
  match goal with
  | H : fld_set (field_of _ _ _ _) ?a _ = Some _ |- _ =>
    cbn [fld_set field_of] in H; destruct a; cbn in H;
    match type of H with (_ <$> ?x = _) => destruct x eqn:?; cbn in H; [injection H as <-|done] end
  end.

Lemma zero_envelope_ok : envelope_ok zeroEnvelope.
Proof. split; cbn; try constructor; unfold max_u64; lia. Qed.

Lemma decode_envelope_ok wire v : decode_message wire = Some v -> envelope_ok v.
Proof.
  unfold decode_message. destruct (read_value start (bytes wire)) as [[d rest]|] eqn:Er; [|done]. pose proof (read_value_ok _ _ _ _ Er (conj I I) (bytes_are_bytes wire)) as Hok.
  destruct d as [| | | | |l]; cbn [dec_struct]; try done.
  { cbn. destruct (forallb space rest); [|done]. intros [= <-]. apply zero_envelope_ok. }
  destruct (dec_members _ _ l _) as [m|] eqn:Em; [|done]. cbn. destruct (forallb space rest); [|done]. intros [= <-].
  cbn [doc_ok] in Hok. apply andb_true_iff in Hok as [_ Hok]. eapply (dec_members_inv envelope_ok); [|exact Hok|apply zero_envelope_ok|exact Em].
  intros f b d b' Hf Hd [] Hset. change (f ∈ envelope_fields) in Hf. unfold envelope_fields in Hf. rewrite !elem_of_cons, elem_of_nil in Hf.
  destruct_or! Hf; try done; subst f; envelope_field; split; cbn in *; try done; eauto using dec_string_utf8, dec_uint64_range.
Qed.

Lemma verified_envelope_ok `{Ed25519} wire hostID generation at_ b v :
  VerifyEnvelopeWithTrust wire hostID generation at_ b = Some v -> envelope_ok v.
Proof.
  unfold VerifyEnvelopeWithTrust, VerifyEnvelope, verify_message. destruct (negb (validTrustBundle b)); [done|]. destruct (IsZero at_); [done|].
  destruct (_ || _); [done|]. destruct (decode_message wire) as [m|] eqn:Ed; [|done]. cbn [mbind option_bind]. destruct (_ || _ || _); [done|].
  destruct (DecodeString _); [|done]. cbn [mbind option_bind]. destruct (_ || _); [done|]. destruct (marshal _); [|done]. cbn [mbind option_bind].
  destruct (ed25519_verify _ _ _); [|done]. cbn [mbind option_bind]. destruct (_ || _); [done|]. destruct (trustedKey _ _ _); [|done].
  cbn [mbind option_bind]. destruct (keyCoversEnvelope _ _); [|done]. intros [= <-]. by eapply decode_envelope_ok.
Qed.

(** ** Stable steps *)

Section stable.
Context `{Ed25519} (env : Env) (maximum : Z).

Definition stable {A} (op : H A) : Prop := forall m s, above maximum m (hst_world s) ->
  above maximum m (hst_world (op s).2) /\ hst_executed (op s).2 = hst_executed s.

Lemma stable_ret {A} (a : A) : stable (mret a).
Proof. by intros m s Hs. Qed.
Lemma stable_fail {A} e : stable (fail e : H A).
Proof. by intros m s Hs. Qed.
Lemma stable_guard e b : stable (guard_or e b).
Proof. by destruct b; intros m s Hs. Qed.
Lemma stable_bind {A B} (op : H A) (k : A -> H B) : stable op -> (forall a, stable (k a)) -> stable (op ≫= k).
Proof.
  intros Hop Hk m s Hs. destruct (Hop m s Hs) as [H1 H2]. unfold mbind, M_bind. destruct (op s) as [[a|e] s1]; cbn [snd] in *; [|done].
  destruct (Hk a m s1 H1) as [H3 H4]. split; [done|congruence].
Qed.
Lemma stable_for_each {A B} (f : B -> A -> H B) acc l : (forall acc x, stable (f acc x)) -> stable (for_each f acc l).
Proof. intros Hf. revert acc. induction l as [|x l IH]; intros acc; cbn [for_each]; [apply stable_ret|]. by apply stable_bind. Qed.
Lemma stable_next : stable next_call.
Proof. by intros m s Hs. Qed.
Lemma stable_read {A} (f : World -> A) : stable (read_journal f).
Proof. by intros m s Hs. Qed.
Lemma stable_alive n : stable (alive env n).
Proof. apply stable_guard. Qed.
Lemma stable_signed_or message wire : stable (signed_or message wire).
Proof. destruct wire; [apply stable_ret|apply stable_fail]. Qed.
Lemma stable_now : stable (now env).
Proof. apply stable_bind; [apply stable_next|]. intros n. apply stable_ret. Qed.
Lemma stable_cancelled : stable (cancelled env).
Proof. apply stable_bind; [apply stable_next|]. intros n. apply stable_ret. Qed.
Lemma stable_reap : stable (reap env).
Proof. apply stable_bind; [apply stable_next|]. intros n. apply stable_alive. Qed.

Lemma stable_do path body : stable (do_ env path body).
Proof.
  apply stable_bind; [apply stable_next|]. intros n. apply stable_bind; [by intros m s Hs|]. intros _.
  apply stable_bind; [apply stable_alive|]. intros _. destruct (env_reply env n); apply stable_ret || apply stable_fail.
Qed.

Lemma stable_status status refusal : stable (requireControlStatus status refusal).
Proof. unfold requireControlStatus. destruct (500 <=? status); [apply stable_fail|apply stable_guard]. Qed.

Lemma stable_post path refusal wire : stable (post env path refusal wire).
Proof. apply stable_bind; [apply stable_do|]. intros r. apply stable_status. Qed.

Lemma effect_above {A} io (op : J A) m w r w' : above maximum m w -> effect io op w -> op w = (r, w') -> above maximum m w'.
Proof. intros Ha He Ho. destruct (He r w' Ho) as [->|(m' & H1 & H2 & H3 & Hwr)]; [done|]. by destruct (wrote_above maximum io m m' w _ _ Ha H1 H2 H3 Hwr). Qed.

Lemma stable_journal {A} (op : Outcome -> J A) : (forall io w, world_ok w -> effect io (op io) w) -> stable (journal_op env op).
Proof.
  intros Hop. apply stable_bind; [apply stable_next|]. intros n m s Hs. destruct (op (env_io env n) (hst_world s)) as [r w] eqn:E.
  assert (Hw : above maximum m w) by (eapply effect_above; [done|apply Hop, Hs|done]).
  unfold alive, mbind, M_bind. destruct (env_dies env n); [done|]. by destruct r.
Qed.

Lemma stable_attempt op : stable op -> stable (attempt op).
Proof. intros Hop m s Hs. destruct (Hop m s Hs) as [H1 H2]. unfold attempt. destruct (op s) as [[u|e] s1]; [done|]. by destruct e. Qed.

Lemma stable_perform {E} v (emit : E -> H unit) b : (forall value, stable (emit value)) -> stable (perform env v emit b).
Proof.
  intros He. induction b as [ok|kind wire next IH|value next IH]; cbn [perform].
  - apply stable_bind; [apply stable_next|]. intros n. apply stable_bind; [apply stable_alive|]. intros _. apply stable_ret.
  - apply stable_bind; [|done]. apply stable_attempt, stable_journal. intros io w Hw. by apply StageTypedTransferReceipt_effect.
  - apply stable_bind; [|done]. by apply stable_attempt.
Qed.

(** The journal operations that the process calls. *)
Lemma StageResult_stable v wire : stable (journal_op env (fun io => StageResult io v wire)).
Proof. apply stable_journal. intros io w Hw. apply effect_guard. intros Hb. by apply stageResult_effect. Qed.
Lemma StageRecoveryResult_stable key wire : stable (journal_op env (fun io => StageRecoveryResult io key wire)).
Proof. apply stable_journal. intros io w Hw. apply effect_guard. intros Hb. bools. by apply stageResult_effect. Qed.
Lemma StageOutput_stable v wire : stable (journal_op env (fun io => StageOutput io v wire)).
Proof. apply stable_journal. intros io w Hw. by apply StageOutput_effect. Qed.
Lemma AcknowledgeStarted_stable key d : stable (journal_op env (fun io => AcknowledgeStarted io key d)).
Proof. apply stable_journal. intros io w Hw. by apply AcknowledgeStarted_effect. Qed.
Lemma AcknowledgeResult_stable key d : stable (journal_op env (fun io => AcknowledgeResult io key d)).
Proof. apply stable_journal. intros io w Hw. by apply AcknowledgeResult_effect. Qed.
Lemma AcknowledgeOutput_stable key d : stable (journal_op env (fun io => AcknowledgeOutput io key d)).
Proof. apply stable_journal. intros io w Hw. by apply AcknowledgeOutput_effect. Qed.
Lemma AcknowledgeTransferReceipt_stable key d : stable (journal_op env (fun io => AcknowledgeTransferReceipt io key d)).
Proof. apply stable_journal. intros io w Hw. by apply AcknowledgeTransferReceipt_effect. Qed.
End stable.

Create HintDb host.
#[export] Hint Resolve stable_ret stable_fail stable_guard stable_next stable_read stable_alive stable_signed_or stable_now stable_cancelled stable_reap
  stable_do stable_status stable_post StageResult_stable StageRecoveryResult_stable StageOutput_stable AcknowledgeStarted_stable AcknowledgeResult_stable
  AcknowledgeOutput_stable AcknowledgeTransferReceipt_stable stable_attempt stable_perform : host.

(** Go through the steps of an operation. *)
Ltac steady :=
  repeat match goal with
  | |- stable _ (_ ≫= _) => apply stable_bind; [|intros ?]
  | |- stable _ (for_each _ _ _) => apply stable_for_each; intros ? ?
  | |- stable _ (match ?x with _ => _ end) => destruct x
  | |- stable _ (let _ := _ in _) => cbv zeta
  end; auto with host.

Section steps.
Context `{Ed25519} (env : Env) (maximum : Z).

Lemma stable_terminal v at_ key state o fault : stable maximum (stageAndSendTerminal env v at_ key state o fault).
Proof. unfold stageAndSendTerminal, sendResult. steady. Qed.

Lemma stable_emit_receipt v key kr : stable maximum (emit_receipt env v key kr).
Proof. unfold emit_receipt, sendDataReceipt. steady. Qed.

Lemma stable_emit_output v at_ key o : stable maximum (emit_output env v at_ key o).
Proof. unfold emit_output, sendOutput. steady. Qed.

Lemma stable_recover at_ key : stable maximum (recoverIncompleteExecutions env at_ key).
Proof. unfold recoverIncompleteExecutions, sendResult. steady. Qed.

Lemma stable_replayStarts : stable maximum (replayStarts env).
Proof. unfold replayStarts, sendResult. steady. Qed.
Lemma stable_replayOutputs : stable maximum (replayOutputs env).
Proof. unfold replayOutputs, sendOutput. steady. Qed.
Lemma stable_replayTransferReceipts key : stable maximum (replayTransferReceipts env key).
Proof. unfold replayTransferReceipts, sendDataReceipt. steady. Qed.
Lemma stable_replayResults : stable maximum (replayResults env).
Proof. unfold replayResults, sendResult. steady. Qed.
End steps.

#[export] Hint Resolve stable_terminal stable_emit_receipt stable_emit_output stable_recover stable_replayStarts stable_replayOutputs
  stable_replayTransferReceipts stable_replayResults : host.
