(* ===== verification/HostProcessTheorems.v ===== *)
(** * The host process: theorems

    Whatever happens to a host, and however often it polls, the executor is called at
    most once for a receipt ([executed_once]).  An executor bound to its envelope is never
    asked for output or observations ([bound_output_ignored]). *)

From stdpp Require Import gmap.
From Stdlib Require Import Ascii String.
From S2P Require Import Prelude DurableFiles GoString Keys Sha256 GoTime GoJson GoJsonText JsonFacts JsonStrings JsonValues GoDecode DecodeFacts TimeText HostProtocol DigestFacts HostFields HostWire HostWireFacts ControlTrust TrustTheorems HostJournal JournalFacts JournalTheorems HostProcess HostProcessFacts.

Open Scope Z_scope.

(** ** One poll *)

Definition started_in (m : gmap string Entry) (key : string) : Prop := exists e, m !! key = Some e /\ present (jen_Started e).

Section once.
Context `{Ed25519} (env : Env) (maximum : Z).

(** Every receipt executed so far is stored as started, and none was executed twice. *)
Definition once (s : HostState) : Prop :=
  NoDup (hst_executed s) /\ exists m, above maximum m (hst_world s) /\ forall k, k ∈ hst_executed s -> started_in m k.

(** The receipt is stored as started and has not been executed. *)
Definition ready (key : string) (s : HostState) : Prop :=
  NoDup (hst_executed s) /\ key ∉ hst_executed s /\
  exists m, above maximum m (hst_world s) /\ started_in m key /\ forall k, k ∈ hst_executed s -> started_in m k.

Definition keeps_once {A} (op : H A) : Prop := forall s, once s -> once (op s).2.

Lemma stable_once {A} (op : H A) : stable maximum op -> keeps_once op.
Proof. intros Hop s (Hn & m & Ha & Hk). destruct (Hop m s Ha) as [H1 H2]. unfold once. rewrite H2. eauto. Qed.

Lemma stable_ready {A} (op : H A) key s : stable maximum op -> ready key s -> ready key (op s).2.
Proof. intros Hop (Hn & Hni & m & Ha & Hs & Hk). destruct (Hop m s Ha) as [H1 H2]. unfold ready. rewrite H2. eauto 6. Qed.

Lemma ready_once key s : ready key s -> once s.
Proof. intros (Hn & _ & m & Ha & _ & Hk). split; eauto. Qed.

Lemma once_bind {A B} (op : H A) (k : A -> H B) : keeps_once op -> (forall a, keeps_once (k a)) -> keeps_once (op ≫= k).
Proof.
  intros Hop Hk s Hs. specialize (Hop s Hs). unfold mbind, M_bind. destruct (op s) as [[a|e] s1]; [|done]. by apply Hk.
Qed.

Lemma ready_bind {A B} (op : H A) (k : A -> H B) key s : stable maximum op -> ready key s ->
  (forall a s, ready key s -> once (k a s).2) -> once ((op ≫= k) s).2.
Proof.
  intros Hop Hs Hk. pose proof (stable_ready op key s Hop Hs) as H1. unfold mbind, M_bind. destruct (op s) as [[a|e] s1]; [auto|]. by eapply ready_once.
Qed.

Lemma started_le m m' key : entries_le m m' -> started_in m key -> started_in m' key.
Proof. intros Hle (e & He & Hp). destruct (Hle key e He) as (e' & He' & Hl). exists e'. split; [done|]. by eapply observation_le_present; [apply Hl|]. Qed.

Lemma commit_ok io key e restored w w' : commit io key e restored w = (Ok tt, w') -> entries w' = <[key := e]> (entries w).
Proof.
  unfold commit, set_entries, persistLocked, fail, mbind, M_bind. destruct (wire_of _); [|done]. destruct (_ <? _); [done|].
  destruct io; [done..|]. by intros [= <-].
Qed.

(** A start that was not there before is stored when the call returns. *)
Lemma StageStarted_commits io v wire m w w' : above maximum m w -> ExecutionStarted v w = false -> StageStarted io v wire w = (Ok tt, w') ->
  exists m', above maximum m' w' /\ entries_le m m' /\ started_in m' (receiptKey v).
Proof.
  intros Ha Hn Hs. pose proof (StageStarted_effect io w (abv_world _ _ _ Ha) v wire _ _ Hs) as He.
  assert (Hst : started_in (entries w') (receiptKey v)).
  { revert Hs. unfold StageStarted, ExecutionStarted in *. intros (u & w1 & [_ ->]%guard_Ok & Hs)%bind_Ok.
    unfold mbind, M_bind, lookup_entry in Hs. destruct (entries w1 !! receiptKey v) as [e|] eqn:Ee; [|done]. destruct (out_Digest (jen_Result e) ≟ ""); [|done].
    rewrite Hn in Hs. apply commit_ok in Hs. eexists. rewrite Hs, lookup_insert_eq. split; [done|]. destruct e. apply Digest_not_empty. }
  destruct He as [->|(m' & H1 & H2 & H3 & Hwr)].
  - exfalso. destruct Hst as (e & Ee & Hp). unfold ExecutionStarted in Hn. rewrite Ee in Hn. by apply negb_false_iff, bool_decide_eq_true in Hn.
  - destruct (wrote_above maximum io m m' w _ _ Ha H1 H2 H3 Hwr) as [_ Hm']. exists m'. split; [by apply Hm'|].
    split; [exact (transitivity (abv_memory _ _ _ Ha) H2)|]. by destruct Hwr as (text & _ & [(_ & -> & _ & _)|[(_ & _ & _ & [=])|[_ [=]]]]).
Qed.

Lemma not_executed m s v : above maximum m (hst_world s) -> (forall k, k ∈ hst_executed s -> started_in m k) -> ExecutionStarted v (hst_world s) = false ->
  receiptKey v ∉ hst_executed s.
Proof.
  intros Ha Hk Hn Hin. destruct (started_le _ _ _ (abv_memory _ _ _ Ha) (Hk _ Hin)) as (e & He & Hp). unfold ExecutionStarted in Hn. rewrite He in Hn.
  by apply negb_false_iff, bool_decide_eq_true in Hn.
Qed.

Lemma stage_started v wire s : once s -> ExecutionStarted v (hst_world s) = false ->
  match journal_op env (fun io => StageStarted io v wire) s with
  | (Ok _, s') => ready (receiptKey v) s'
  | (Err _, s') => once s'
  end.
Proof.
  intros (Hn & m & Ha & Hk) Hex. pose proof (not_executed m s v Ha Hk Hex) as Hni.
  assert (Hst : once (journal_op env (fun io => StageStarted io v wire) s).2).
  { apply stable_once; [|split; eauto]. apply stable_journal. intros io w Hw. by apply StageStarted_effect. }
  revert Hst. unfold journal_op, next_call, mbind, M_bind. cbn [hst_world hst_calls].
  destruct (StageStarted _ v wire (hst_world s)) as [r w] eqn:Es. unfold alive, guard_or. destruct (env_dies env (hst_calls s)); [done|].
  destruct r as [[]|e]; [|done]. intros _. destruct (StageStarted_commits _ _ _ _ _ _ Ha Hex Es) as (m' & Ha' & Hle & Hs').
  split; [done|]. split; [done|]. exists m'. split_and!; [done..|]. intros k Hin. eapply started_le; [done|]. by apply Hk.
Qed.

Lemma call_executor_once v at_ key executor s : ready (receiptKey v) s -> once (call_executor env v at_ key executor s).2.
Proof.
  intros (Hn & Hni & m & Ha & Hs & Hk). unfold call_executor, record_execution, modify, mbind at 1, M_bind.
  apply stable_once.
  - destruct (exe_ExecuteWithDataPlaneReceipt executor) as [f|]; [|destruct (exe_ExecuteWithOutput executor) as [f|]]; apply stable_perform; intros value; auto with host.
    destruct value.
  - split; cbn [hst_executed hst_world].
    + apply NoDup_app. split_and!; [done| |apply NoDup_singleton]. intros k Hin ->%list_elem_of_singleton. done.
    + exists m. split; [done|]. intros k [Hin| ->%list_elem_of_singleton]%elem_of_app; auto.
Qed.

Lemma read_bind {A B} (f : World -> A) (k : A -> H B) s : (read_journal f ≫= k) s = k (f (hst_world s)) s.
Proof. done. Qed.

(** The part that starts and executes. *)
Lemma execution_once v at_ key executor fault started s : once s -> ExecutionStarted v (hst_world s) = false ->
  once ((journal_op env (fun io => StageStarted io v started);;
    sendResult env started;;
    entry ← read_journal (Entry_ v);
    match entry with
    | None => fail (HostRefused "acknowledge sandbox host started result: durable receipt is absent")
    | Some entry =>
      journal_op env (fun io => AcknowledgeStarted io (jen_ReceiptKey entry) (Digest started));;
      ok ← call_executor env v at_ key executor;
      expired ← cancelled env;
      let uncertain := negb ok || expired || negb (Before at_ (evl_ExpiresAt v)) in
      let state := if uncertain then "uncertain" else "succeeded" in
      (if uncertain && exe_Reap executor then reap env else mret tt);;
      match exe_TerminalObservation executor with
      | None => stageAndSendTerminal env v at_ key state None fault
      | Some report =>
        match report v state (toUTC at_) with
        | Some o => stageAndSendTerminal env v at_ key state o fault
        | None => stageAndSendTerminal env v at_ key "uncertain" None fault
        end
      end
    end) s).2.
Proof.
  intros Hs Ex. pose proof (stage_started v started s Hs Ex) as Hst. unfold mbind at 1, M_bind. destruct (journal_op env _ s) as [[u|e] s1]; [|done].
  eapply ready_bind; [unfold sendResult; auto with host|done|]. intros _ s2 H2. eapply ready_bind; [auto with host|done|].
  intros [entry|] s3 H3; [|by eapply ready_once]. eapply ready_bind; [auto with host|done|]. intros _ s4 H4.
  pose proof (call_executor_once v at_ key executor s4 H4) as H5. unfold mbind at 1, M_bind.
  destruct (call_executor _ _ _ _ _ s4) as [[ok|e] s5]; [|done]. revert H5. apply stable_once. steady.
Qed.

Lemma executeEnvelope_once v at_ key executor fault : keeps_once (executeEnvelope env v at_ key executor fault).
Proof.
  unfold executeEnvelope. apply once_bind; [apply stable_once; auto with host|]. intros _. apply once_bind; [apply stable_once; auto with host|]. intros stopped.
  apply once_bind; [apply stable_once; auto with host|]. intros _ s Hs. rewrite read_bind.
  destruct (ExecutionStarted v (hst_world s)) eqn:Ex; [revert s Hs Ex; intros s Hs _; revert s Hs; apply stable_once; auto with host|].
  destruct (signExecutionResult v "started" at_ key) as [started|]; [|done]. by apply execution_once.
Qed.

Lemma Accept_stable v d : envelope_ok v -> utf8 (bytes d) -> stable maximum (journal_op env (fun io => Accept io v d)).
Proof. intros Hv Hd. apply stable_journal. intros io w Hw. by apply Accept_effect. Qed.

Lemma poll_once config key executor trust : keeps_once (poll env config key executor trust).
Proof.
  unfold poll. do 3 (apply once_bind; [apply stable_once; auto with host|]; intros _). apply once_bind; [apply stable_once; auto with host|]; intros t.
  do 2 (apply once_bind; [apply stable_once; auto with host|]; intros _). apply once_bind; [apply stable_once; auto with host|]; intros response.
  do 2 (apply once_bind; [apply stable_once; auto with host|]; intros _). apply once_bind; [apply stable_once; auto with host|]; intros t'.
  destruct (VerifyEnvelopeWithTrust _ _ _ _ _) as [v|] eqn:Ev; [|apply stable_once; auto with host].
  apply once_bind; [apply stable_once, Accept_stable; [by eapply verified_envelope_ok|apply Digest_utf8]|]. intros accepted.
  apply once_bind; [apply stable_once; auto with host|]; intros _. apply once_bind; [apply stable_once; auto with host|]; intros receipt.
  do 2 (apply once_bind; [apply stable_once; auto with host|]; intros _). apply once_bind; [apply stable_once; auto with host|]; intros t''.
  apply executeEnvelope_once.
Qed.
End once.

(** ** Many polls *)

Section host.
Context `{Ed25519} (config : Config).

(** A host that is not in a poll: its disk, and what it has done. *)
Inductive host_step (s : HostState) : HostState -> Prop :=
| host_poll env key executor trust : host_step s (runOnce env config key executor trust s).2
| host_power_loss content : content ∈ survivors (disk (hst_world s)) ->
    host_step s (set_world (mkWorld (after_power_loss content) (journal (hst_world s))) s).

(** The host before its first poll. *)
Definition new_host : HostState := mkHostState (mkWorld (mkDisk None [None] false) (mkJournal (cfg_maximumReceipts config) ∅)) 0 [] [].

(** Every content that may be found on the disk has the executed receipts as started. *)
Definition safe (s : HostState) : Prop :=
  NoDup (hst_executed s) /\ visible (disk (hst_world s)) ∈ survivors (disk (hst_world s)) /\
  exists m, Forall (keeps (cfg_maximumReceipts config) m) (survivors (disk (hst_world s))) /\ forall k, k ∈ hst_executed s -> started_in m k.

Lemma open_inv lockable readable path maximum d j d' : Open lockable readable path maximum d = (Ok j, d') ->
  HasPrefix path "/" = true /\ 0 < maximum <= 100000 /\ lock_held d = false /\ Open true true path maximum d = (Ok j, d').
Proof.
  unfold Open. destruct (_ || _) eqn:Eg; [done|]. rewrite !orb_false_iff, negb_false_iff, Z.leb_gt, Z.ltb_ge in Eg.
  destruct lockable; [|done]. cbn [negb]. destruct (lock_held d); [done|]. intros Ho. split; [tauto|]. split; [lia|]. split; [done|].
  destruct (visible d); [|done]. by destruct readable.
Qed.

Lemma runOnce_safe env key executor trust s : safe s -> safe (runOnce env config key executor trust s).2.
Proof.
  intros Hsafe. destruct Hsafe as (Hn & Hv & m & Hd & Hk). unfold runOnce. destruct (negb _); [split; eauto|].
  destruct (Open _ _ _ _ _) as [opened d] eqn:Eo. destruct opened as [j|e].
  - destruct (open_inv _ _ _ _ _ _ _ Eo) as (Hp & Hm & Hl & Eo'). pose proof Hd as Hd'. rewrite Forall_forall in Hd'.
    pose proof (open_above _ _ Hp Hm m _ _ _ (Hd' _ Hv) Hd Hv Hl Eo') as Ha.
    assert (Hon : once (cfg_maximumReceipts config) (set_world (mkWorld d j) s)) by (split; [done|]; exists m; done).
    pose proof (poll_once env (cfg_maximumReceipts config) config key executor trust _ Hon) as Hres.
    destruct (poll _ _ _ _ _ _) as [r s'] eqn:Ep. destruct Hres as (Hn' & m' & Ha' & Hk'). destruct Ha'. split; [done|]. split; [done|]. by exists m'.
  - assert (d = disk (hst_world s)) as ->.
    { revert Eo. unfold Open. repeat (case_match; try done); by intros [= _ <-]. }
    split; [done|]. split; [done|]. by exists m.
Qed.

Lemma step_safe s s' : safe s -> host_step s s' -> safe s'.
Proof.
  intros Hs [env key executor trust|content Hin]; [by apply runOnce_safe|]. destruct Hs as (Hn & Hv & m & Hd & Hk). rewrite Forall_forall in Hd.
  split; [done|]. split; [by apply list_elem_of_singleton|]. exists m. split; [|done]. by apply Forall_singleton, Hd.
Qed.

Lemma new_host_safe : safe new_host.
Proof. split; [constructor|]. split; [by apply list_elem_of_singleton|]. exists ∅. split; [by apply Forall_singleton|set_solver]. Qed.

Lemma run_safe s : rtc host_step new_host s -> safe s.
Proof. intros Hr. pose proof new_host_safe as Hs. revert Hs. induction Hr as [|s1 s2 s3 Hstep _ IH]; [done|]. eauto using step_safe. Qed.
End host.

(** ** Theorems *)

(** C7: The executor is called at most once for a receipt.  A host polls any number of
    times; in every poll the calls to the disk, to the control plane and to the executor may
    end in any way, with an error or with the death of the process, which the next
    poll finds as it left the disk; the power may fail between polls.  However that
    goes, and whatever executor, trust and signing key each poll has, no receipt key is
    executed twice; and each content that can be found on the disk has every executed
    receipt as started. *)
Theorem executed_once `{Ed25519} config s :
  rtc (host_step config) (new_host config) s ->
  NoDup (hst_executed s) /\
  forall key content, key ∈ hst_executed s -> content ∈ survivors (disk (hst_world s)) ->
    exists text m e, content = Some text /\ wire_of m = Some text /\ m !! key = Some e /\ present (jen_Started e).
Proof.
  intros (Hn & _ & m & Hd & Hk)%run_safe. split; [done|]. intros key content Hin Hc. rewrite Forall_forall in Hd. specialize (Hd content Hc).
  destruct (Hk key Hin) as (e & He & Hp). destruct content as [text|]; cbn in Hd; [|subst m; by rewrite lookup_empty in He].
  destruct Hd as (m' & Hw & _ & _ & _ & Hle). destruct (started_le _ _ _ Hle (Hk key Hin)) as (e' & He' & Hp'). by exists text, m', e'.
Qed.

(** Two polls that get the same delivery: the first dies after the executor returned. *)
Definition demo_config : Config := mkConfig "host-1" 3 "/journal" 4 false false false.
Definition demo_executor : Executor :=
  mkExecutor (fun _ => Finished true) (Some (fun _ _ => Finished true)) (Some (fun _ => Emits (mkGuestOutput "stdout" 0 "hi") (fun ok => Finished ok))) None None None false None.
Definition demo_env (dies : nat -> bool) : Env :=
  mkEnv (fun _ => Written) dies (fun _ => Response 200 demo_wire) (fun _ => false) (fun _ => demo_hour) true true.
Definition demo_poll (dies : nat -> bool) (s : HostState) : HostState :=
  (@runOnce keyed_digest (demo_env dies) demo_config (demo_seed +:+ demo_seed) demo_executor demo_trust0 s).2.

Definition demo_dead : HostState := demo_poll (fun n => Nat.eqb n 11) (new_host demo_config).
Definition demo_again : HostState := demo_poll (fun _ => false) demo_dead.

Lemma demo_polled dies s : @host_step keyed_digest demo_config s (demo_poll dies s).
Proof. apply (@host_poll keyed_digest demo_config). Qed.

Lemma executed_once_witness : length (hst_executed demo_again) = 1%nat /\ NoDup (hst_executed demo_again).
Proof.
  split; [vm_compute; reflexivity|].
  exact (proj1 (@executed_once keyed_digest demo_config demo_again (rtc_l _ _ _ _ (demo_polled _ _) (rtc_once _ _ (demo_polled _ demo_dead))))).
Defined.

(** The same executor without its output and observation methods. *)
Definition mute (e : Executor) : Executor :=
  mkExecutor (exe_Execute e) (exe_ExecuteAuthenticated e) None None (exe_ExecuteWithDataPlaneReceipt e) (exe_ExecuteAuthenticatedWithDataPlaneReceipt e) (exe_Reap e) None.

(** An executor that takes the authenticated wire is never asked for its output or its
    terminal observation: a poll executes a delivery with it exactly as with the same executor
    without those methods.  Once bound to the wire, it counts as an executor that reports
    data-plane receipts, which takes precedence over output, and the binding does not pass
    the reporter on. *)
Theorem bound_output_ignored `{Ed25519} env v at_ key e wire fault s :
  is_Some (exe_ExecuteAuthenticated e) -> wire <> "" ->
  executeEnvelope env v at_ key (bindAuthenticatedEnvelope e wire) fault s =
  executeEnvelope env v at_ key (bindAuthenticatedEnvelope (mute e) wire) fault s.
Proof.
  intros [f Hf] Hw. assert (Hl : len wire =? 0 = false) by (destruct wire; [done|]; unfold len; by apply Z.eqb_neq).
  unfold bindAuthenticatedEnvelope. cbn [mute exe_ExecuteAuthenticated]. rewrite Hf, Hl. reflexivity.
Qed.

Lemma bound_output_ignored_witness :
  is_Some (exe_ExecuteWithOutput demo_executor) /\
  forall s, @executeEnvelope keyed_digest (demo_env (fun _ => false)) demo_delivery demo_hour (demo_seed +:+ demo_seed) (bindAuthenticatedEnvelope demo_executor demo_wire) false s =
    @executeEnvelope keyed_digest (demo_env (fun _ => false)) demo_delivery demo_hour (demo_seed +:+ demo_seed) (bindAuthenticatedEnvelope (mute demo_executor) demo_wire) false s.
Proof.
  split; [by eexists|]. intros s. apply (@bound_output_ignored keyed_digest); [by eexists|]. intros E. assert (H : len demo_wire =? 0 = false) by (vm_compute; reflexivity).
  by rewrite E in H.
Defined.

(** Two chunks of a stream with the same bytes are two outputs with one ID: the sequence is
    not part of it, while the control database has a unique index on it. *)
Definition demo_chunk (sequence : Z) : option HostProtocol.Output :=
  wire ← @signExecutionOutput keyed_digest demo_delivery (mkGuestOutput "stdout" sequence "tick") demo_hour (demo_seed +:+ demo_seed);
  @VerifyOutput keyed_digest wire demo_hour demo_seed.

Example repeated_output_id :
  oup_Sequence <$> demo_chunk 0 = Some 1 /\ oup_Sequence <$> demo_chunk 1 = Some 2 /\ is_Some (demo_chunk 0) /\
  oup_OutputID <$> demo_chunk 0 = oup_OutputID <$> demo_chunk 1.
Proof. split_and!; [vm_compute; reflexivity..|vm_compute; by eexists|vm_compute; reflexivity]. Qed.
