(* ===== verification/HostLoop.v ===== *)
(** * The host daemon

    internal/sandboxhostprocess: the file with the control trust and its reload
    (trust.go), the secret with the signing key, and the loop that polls until it is
    cancelled, with its delays (loop.go). *)

From stdpp Require Import gmap.
From Stdlib Require Import Ascii String.
From S2P Require Import Prelude DurableFiles GoString Sha256 GoTime GoJson GoJsonText GoDecode TimeText HostProtocol HostFields HostWire ControlTrust HostJournal HostProcess.

Open Scope Z_scope.

(** ** The trust file *)

Definition maximumControlTrustFileBytes : Z := 16384.

Record controlTrustFileKeyDocument : Type := mkKeyDocument {
  kdo_ID : string;
  kdo_Version : Z;
  kdo_PublicKey : string;
  kdo_NotBefore : Time;
  kdo_NotAfter : Time
}.

Record controlTrustFileDocument : Type := mkTrustDocument {
  tdo_Version : Z;
  tdo_RevocationEpoch : Z;
  tdo_Current : controlTrustFileKeyDocument;
  tdo_Next : option controlTrustFileKeyDocument
}.

Definition zeroKeyDocument : controlTrustFileKeyDocument := mkKeyDocument "" 0 "" zeroTime zeroTime.
Definition zeroTrustDocument : controlTrustFileDocument := mkTrustDocument 0 0 zeroKeyDocument None.

Definition key_document_fields : list (field controlTrustFileKeyDocument) :=
  [field_of "id" dec_string kdo_ID (fun x '(mkKeyDocument _ b c d e) => mkKeyDocument x b c d e);
   field_of "version" dec_uint64 kdo_Version (fun x '(mkKeyDocument a _ c d e) => mkKeyDocument a x c d e);
   field_of "public_key" dec_string kdo_PublicKey (fun x '(mkKeyDocument a b _ d e) => mkKeyDocument a b x d e);
   field_of "not_before" dec_time kdo_NotBefore (fun x '(mkKeyDocument a b c _ e) => mkKeyDocument a b c x e);
   field_of "not_after" dec_time kdo_NotAfter (fun x '(mkKeyDocument a b c d _) => mkKeyDocument a b c d x)].
Definition dec_key_document : decoder controlTrustFileKeyDocument := dec_struct false key_document_fields.
Definition trust_document_fields : list (field controlTrustFileDocument) :=
  [field_of "version" dec_uint64 tdo_Version (fun x '(mkTrustDocument _ b c d) => mkTrustDocument x b c d);
   field_of "revocation_epoch" dec_uint64 tdo_RevocationEpoch (fun x '(mkTrustDocument a _ c d) => mkTrustDocument a x c d);
   field_of "current" dec_key_document tdo_Current (fun x '(mkTrustDocument a b _ d) => mkTrustDocument a b x d);
   field_of "next" (dec_ptr zeroKeyDocument dec_key_document) tdo_Next (fun x '(mkTrustDocument a b c _) => mkTrustDocument a b c x)].

(** inspectJSONValue: no object has the same name twice. *)
Fixpoint inspectJSONValue (d : doc) : bool :=
  match d with
  | DObj l => bool_decide (NoDup ((fun kd => unquote kd.1) <$> l)) && forallb (fun kd => inspectJSONValue kd.2) l
  | DArr l => forallb inspectJSONValue l
  | _ => true
  end.

(** [base64.RawStdEncoding.DecodeString] *)
Definition RawStd_DecodeString (s : string) : option string :=
  of_bytes <$> raw_groups base64_value (List.filter (fun c => negb (line_end c)) (bytes s)).

Definition controlTrustFileKey (k : controlTrustFileKeyDocument) : option SigningKey :=
  key ← RawStd_DecodeString (kdo_PublicKey k);
  if negb (len key =? PublicKeySize) || (kdo_ID k ≟ "") || (kdo_Version k =? 0) || negb (isUTC (kdo_NotBefore k)) || negb (isUTC (kdo_NotAfter k)) ||
     negb (After (kdo_NotAfter k) (kdo_NotBefore k))
  then None
  else Some (mkSigningKey (kdo_ID k) (kdo_Version k) key (kdo_NotBefore k) (kdo_NotAfter k)).

(** The file as it is read; [None] when it cannot be opened or read. *)
Definition readControlTrustFile (file : option string) : option TrustBundle :=
  wire ← file;
  if (len wire =? 0) || (maximumControlTrustFileBytes <? len wire) then None
  else
    d ← parse wire;
    if negb (inspectJSONValue d) then None
    else
      document ← dec_struct false trust_document_fields zeroTrustDocument d;
      current ← controlTrustFileKey (tdo_Current document);
      if (tdo_Version document =? 0) || (tdo_RevocationEpoch document =? 0) then None
      else match tdo_Next document with
           | None => Some (mkTrustBundle (tdo_Version document) (tdo_RevocationEpoch document) current None)
           | Some n =>
             next ← controlTrustFileKey n;
             if skey_ID next ≟ skey_ID current then None
             else Some (mkTrustBundle (tdo_Version document) (tdo_RevocationEpoch document) current (Some next))
           end.

Definition LoadControlTrustFile (file : option string) : option AtomicTrust := readControlTrustFile file ≫= NewAtomicTrust.

(** sameTrustKey compares what [sameSigningKey] compares. *)
Definition sameTrustBundle (l r : TrustBundle) : bool :=
  if negb (tbu_Version l =? tbu_Version r) || negb (tbu_RevocationEpoch l =? tbu_RevocationEpoch r) || negb (sameSigningKey (tbu_Current l) (tbu_Current r))
  then false
  else match tbu_Next l, tbu_Next r with
       | None, None => true
       | Some a, Some b => sameSigningKey a b
       | _, _ => false
       end.

(** Whether the reload went through, and the trust after it. *)
Definition ReloadControlTrustFile (file : option string) (t : AtomicTrust) : bool * AtomicTrust :=
  match readControlTrustFile file with
  | None => (false, t)
  | Some b =>
    if sameTrustBundle b (Snapshot t) then (true, t)
    else match Update b t with (Ok _, t') => (true, t') | (Err _, t') => (false, t') end
  end.

(** ** The loop *)

Definition maximumPollInterval : Z := 60000000000.
Definition maximumBackoff : Z := 60000000000.

Fixpoint backoff (fuel : nat) (count failures delay : Z) : Z :=
  match fuel with
  | O => 0
  | S fuel =>
    if (count <? failures) && (delay <? maximumBackoff) then
      if maximumBackoff / 2 <? delay then maximumBackoff else backoff fuel (count + 1) failures (delay * 2)
    else if maximumBackoff <? delay then maximumBackoff
    else delay
  end.

(** Doubling one nanosecond reaches the maximum in 36 rounds. *)
Definition retryDelay (interval failures : Z) : Z := backoff 40 1 failures interval.

Inductive PollOutcome : Type := OutcomeNoWork | OutcomeSucceeded | OutcomeRetrying.

Record Summary : Type := mkSummary {
  sum_ObservedAt : Time;
  sum_Outcome : PollOutcome;
  sum_Ready : bool;
  sum_ConsecutiveFailures : Z
}.

(** Why the loop ended: the context was done, a poll failed, a wait failed. *)
Inductive LoopEnd : Type := Stopped | PollFailed (e : HostError) | WaitFailed.

(** How a wait ends: after the delay, by the end of the context, or with an error. *)
Inductive WaitEnd : Type := Waited | WaitStopped | WaitBroken.

(** What a round of the loop finds outside: whether the context is done before and after
    the poll, the trust file, the injected secret, whether the TLS client can be made,
    the calls of the poll, the clock, and the wait. *)
Record Round : Type := mkRound {
  rnd_stopped : bool;
  rnd_stopped_after : bool;
  rnd_file : option string;
  rnd_secret : option string;
  rnd_client : bool;
  rnd_env : Env;
  rnd_now : Time;
  rnd_wait : WaitEnd
}.

(** [observed]: the summaries with the delays that followed them, latest first. *)
Record DaemonState : Type := mkDaemonState {
  dst_host : HostState;
  dst_trust : AtomicTrust;
  dst_failures : Z;
  dst_observed : list (Summary * Z)
}.

Section daemon.
Context `{Ed25519} (config : Config) (executor : Executor) (interval : Z).

Definition requiredSecret (secret : option string) : option string :=
  value ← secret; if value ≟ "" then None else Some value.

Definition runOnceWithExecutor (r : Round) (trust : AtomicTrust) (s : HostState) : res HostError unit * HostState :=
  match requiredSecret (rnd_secret r) with
  | None => (Err (HostRefused "run sandbox reference host: required secret environment is missing"), s)
  | Some encoded =>
    match RawStd_DecodeString encoded with
    | None => (Err (HostRefused "run sandbox reference host: host signing key is invalid"), s)
    | Some key =>
      if (len key =? PrivateKeySize) && negb (rnd_client r) then (Err (HostRefused "run sandbox reference host: load TLS identity"), s)
      else runOnce (rnd_env r) config key executor trust s
    end
  end.

Definition runWithReloadStatus (reloaded : bool) (run : res HostError unit) : res HostError unit :=
  match run with
  | Ok _ | Err ErrNoWork => if reloaded then run else Err ErrRetryable
  | _ => run
  end.

Definition pollWithTrustReload (r : Round) (d : DaemonState) : res HostError unit * DaemonState :=
  let '(reloaded, trust) := ReloadControlTrustFile (rnd_file r) (dst_trust d) in
  let '(run, host) := runOnceWithExecutor r trust (dst_host d) in
  (runWithReloadStatus reloaded run, mkDaemonState host trust (dst_failures d) (dst_observed d)).

(** The summary of a poll, the number of failures and the delay; or the end. *)
Definition judge (now : Time) (failures : Z) (run : res HostError unit) : (Summary * Z) + LoopEnd :=
  match run with
  | Ok _ => inl (mkSummary (toUTC now) OutcomeSucceeded true 0, interval)
  | Err ErrNoWork => inl (mkSummary (toUTC now) OutcomeNoWork true 0, interval)
  | Err ErrRetryable =>
    let failures := u64 (failures + 1) in inl (mkSummary (toUTC now) OutcomeRetrying false failures, retryDelay interval failures)
  | Err e => inr (PollFailed e)
  end.

(** One round; [None]: the loop goes on. *)
Definition round (r : Round) (d : DaemonState) : option LoopEnd * DaemonState :=
  if rnd_stopped r then (Some Stopped, d)
  else
    let '(run, d) := pollWithTrustReload r d in
    if rnd_stopped_after r then (Some Stopped, d)
    else match judge (rnd_now r) (dst_failures d) run with
         | inr e => (Some e, d)
         | inl (summary, delay) =>
           let d := mkDaemonState (dst_host d) (dst_trust d) (sum_ConsecutiveFailures summary) ((summary, delay) :: dst_observed d) in
           match rnd_wait r with Waited => (None, d) | WaitStopped => (Some Stopped, d) | WaitBroken => (Some WaitFailed, d) end
         end.

(** The loop for the given rounds. *)
Fixpoint loop (rounds : list Round) (d : DaemonState) : option LoopEnd * DaemonState :=
  match rounds with
  | [] => (None, d)
  | r :: rounds => match round r d with (None, d) => loop rounds d | ended => ended end
  end.

(** RunWithExecutor, without a boot probe; [None]: refused before the first round. *)
Definition RunWithExecutor (file : option string) (rounds : list Round) (s : HostState) : option (option LoopEnd * DaemonState) :=
  if (interval <=? 0) || (maximumPollInterval <? interval) then None
  else trust ← LoadControlTrustFile file; Some (loop rounds (mkDaemonState s trust 0 [])).
End daemon.
