(* ===== verification/HostLoopTheorems.v ===== *)
(** * The host daemon: theorems

    A daemon executes each receipt once, trusts only keys of one lineage, and waits between
    polls as long as its doubling delay says ([daemon_serves]). *)

From stdpp Require Import gmap.
From Stdlib Require Import Ascii String.
From S2P Require Import Prelude DurableFiles GoString Keys Sha256 GoTime GoJson GoJsonText JsonFacts JsonStrings JsonValues GoDecode DecodeFacts TimeText HostProtocol DigestFacts HostFields HostWire HostWireFacts ControlTrust TrustTheorems HostJournal JournalFacts JournalTheorems HostProcess HostProcessFacts HostProcessTheorems HostLoop.

Open Scope Z_scope.

(** ** Delays *)

(** Invariant of the loop: [delay] has been doubled [count - 1] times. *)
Lemma backoff_doubles fuel count failures delay : 0 < delay -> maximumBackoff <= delay * 2 ^ (Z.of_nat fuel - 1) -> (0 < fuel)%nat -> count <= failures ->
  backoff fuel count failures delay = Z.min maximumBackoff (delay * 2 ^ (failures - count)).
Proof.
  revert count delay. induction fuel as [|fuel IH]; intros count delay Hd Hf Hn Hc; [lia|]. cbn [backoff].
  assert (Hp : 0 < 2 ^ (failures - count)) by (apply Z.pow_pos_nonneg; lia).
  destruct (count <? failures) eqn:Ec; bools.
  - assert (Hs : 2 ^ (failures - count) = 2 * 2 ^ (failures - (count + 1))) by (rewrite <- Z.pow_succ_r by lia; f_equal; lia).
    assert (0 < 2 ^ (failures - (count + 1))) by (apply Z.pow_pos_nonneg; lia).
    destruct (delay <? maximumBackoff) eqn:Em; bools; cbn [andb].
    + destruct (maximumBackoff / 2 <? delay) eqn:Eh; bools; [unfold maximumBackoff in *; change (60000000000 / 2) with 30000000000 in Eh; nia|].
      destruct fuel as [|fuel]; [simpl in Hf; lia|]. rewrite IH; [rewrite Hs; f_equal; ring|lia| |lia|lia].
      etrans; [exact Hf|]. replace (Z.of_nat (S (S fuel)) - 1) with (Z.succ (Z.of_nat (S fuel) - 1)) by lia. rewrite Z.pow_succ_r by lia. nia.
    + destruct (maximumBackoff <? delay) eqn:E; bools; nia.
  - assert (failures - count = 0) as -> by lia. rewrite andb_false_l. destruct (maximumBackoff <? delay) eqn:E; bools; lia.
Qed.

Lemma retry_doubles interval failures : 0 < interval -> 1 <= failures ->
  retryDelay interval failures = Z.min maximumBackoff (interval * 2 ^ (failures - 1)).
Proof. intros Hi Hf. apply backoff_doubles; [done| |lia|done]. unfold maximumBackoff. change (2 ^ (Z.of_nat 40 - 1)) with 549755813888. nia. Qed.

(** The failures in a row up to now, latest first. *)
Fixpoint streak (l : list (Summary * Z)) : Z :=
  match l with
  | (summary, _) :: l => match sum_Outcome summary with OutcomeRetrying => 1 + streak l | _ => 0 end
  | [] => 0
  end.

(** Each summary reports the failures in a row; each delay is the interval, doubled
    with each failure after the first, up to the maximum. *)
Fixpoint backed_off (interval : Z) (l : list (Summary * Z)) : Prop :=
  match l with
  | [] => True
  | (summary, delay) :: older =>
    sum_ConsecutiveFailures summary = streak l /\ sum_Ready summary = (streak l =? 0) /\
    delay = (if streak l =? 0 then interval else Z.min maximumBackoff (interval * 2 ^ (streak l - 1))) /\
    backed_off interval older
  end.

Lemma streak_bounds l : 0 <= streak l <= Z.of_nat (length l).
Proof. induction l as [|[summary delay] l IH]; cbn [streak length]; [lia|]. destruct (sum_Outcome summary); lia. Qed.

(** ** The loop *)

Section loop.
Context `{Ed25519} (config : Config) (executor : Executor) (interval : Z) (Hi : 0 < interval).

(** The daemon when the loop is at its head, [budget] rounds before its counter wraps. *)
Record serving (t0 : AtomicTrust) (budget : Z) (d : DaemonState) : Prop := mkServing {
  srv_host : rtc (host_step config) (new_host config) (dst_host d);
  srv_trust : rtc trust_step t0 (dst_trust d);
  srv_failures : dst_failures d = streak (dst_observed d);
  srv_observed : backed_off interval (dst_observed d);
  srv_budget : Z.of_nat (length (dst_observed d)) + budget <= max_u64
}.

Lemma reload_lineage file t : rtc trust_step t (ReloadControlTrustFile file t).2.
Proof.
  unfold ReloadControlTrustFile. destruct (readControlTrustFile file) as [b|]; [|done]. destruct (sameTrustBundle _ _); [done|].
  replace (match Update b t with (Ok _, t') => (true, t') | (Err _, t') => (false, t') end).2 with (Update b t).2 by (by destruct (Update b t) as [[] ?]).
  apply rtc_once, trust_update.
Qed.

Lemma run_steps r trust s : rtc (host_step config) s (runOnceWithExecutor config executor r trust s).2.
Proof.
  unfold runOnceWithExecutor. destruct (requiredSecret _); [|done]. destruct (RawStd_DecodeString _); [|done]. destruct (_ && _); [done|].
  apply rtc_once, host_poll.
Qed.

Lemma poll_serving t0 budget r d : serving t0 budget d -> serving t0 budget (pollWithTrustReload config executor r d).2.
Proof.
  intros [H1 H2 H3 H4 H5]. unfold pollWithTrustReload. pose proof (reload_lineage (rnd_file r) (dst_trust d)) as Ht.
  destruct (ReloadControlTrustFile _ _) as [reloaded trust]. pose proof (run_steps r trust (dst_host d)) as Hr.
  destruct (runOnceWithExecutor _ _ _ _ _) as [run host]. split; [exact (transitivity H1 Hr)|exact (transitivity H2 Ht)|done..].
Qed.

Lemma judge_serving now run summary delay l : streak l + 1 <= max_u64 -> judge interval now (streak l) run = inl (summary, delay) -> backed_off interval l ->
  sum_ConsecutiveFailures summary = streak ((summary, delay) :: l) /\ backed_off interval ((summary, delay) :: l).
Proof.
  intros Hb Hj Hl. pose proof (streak_bounds l). destruct run as [[]|[]]; try done; injection Hj as <- <-; [done..|].
  cbn [backed_off streak sum_Outcome sum_ConsecutiveFailures sum_Ready]. rewrite u64_small by lia.
  rewrite (proj2 (Z.eqb_neq (1 + streak l) 0)) by lia. rewrite retry_doubles by lia. rewrite (Z.add_comm 1). done.
Qed.

Lemma round_serving t0 budget r d : 0 <= budget -> serving t0 (budget + 1) d ->
  exists budget', budget <= budget' /\ serving t0 budget' (round config executor interval r d).2.
Proof.
  intros Hb Hs. unfold round. destruct (rnd_stopped r); [exists (budget + 1); split; [lia|done]|]. pose proof (poll_serving t0 (budget + 1) r d Hs) as Hp.
  destruct (pollWithTrustReload _ _ _ _) as [run d1]. cbn [snd] in Hp. destruct (rnd_stopped_after r); [exists (budget + 1); split; [lia|done]|]. destruct Hp as [P1 P2 P3 P4 P5].
  destruct (judge _ _ _ _) as [[summary delay]|e] eqn:Ej; [|exists (budget + 1); split; [lia|done]].
  rewrite P3 in Ej. pose proof (streak_bounds (dst_observed d1)). assert (Hn : streak (dst_observed d1) + 1 <= max_u64) by lia.
  destruct (judge_serving _ _ _ _ _ Hn Ej P4) as [E1 E2].
  exists budget. split; [done|]. assert (Hlen : Z.of_nat (S (length (dst_observed d1))) + budget <= max_u64) by lia.
  destruct (rnd_wait r); (split; [exact P1|exact P2|exact E1|exact E2|exact Hlen]).
Qed.

Lemma loop_serving t0 rounds d : serving t0 (Z.of_nat (length rounds)) d -> exists budget, serving t0 budget (loop config executor interval rounds d).2.
Proof.
  revert d. induction rounds as [|r rounds IH]; intros d Hs; [eauto|]. cbn [loop]. destruct (round_serving t0 (Z.of_nat (length rounds)) r d) as (budget & Hb & H1).
  { lia. }
  { replace (Z.of_nat (length rounds) + 1) with (Z.of_nat (length (r :: rounds))) by (cbn [length]; lia). done. }
  destruct (round _ _ _ _ _) as [[e|] d1]; cbn [snd] in H1; [eauto|]. apply IH. destruct H1. split; [done..|lia].
Qed.
End loop.

(** ** Theorem *)

(** C29: A daemon that started on a host with any past, and has been through any rounds:
    each receipt has been executed at most once, in the life of the host; its trust comes
    from the bundle it loaded by updates alone, whatever the trust file held; and
    each delay was the poll interval, doubled with each failure after the first in a row, up to
    one minute, with the failures in a row as the summary reported them. *)
Theorem daemon_serves `{Ed25519} config executor interval file rounds s ended d :
  RunWithExecutor config executor interval file rounds s = Some (ended, d) ->
  rtc (host_step config) (new_host config) s -> Z.of_nat (length rounds) <= max_u64 ->
  NoDup (hst_executed (dst_host d)) /\
  (exists t0, LoadControlTrustFile file = Some t0 /\ rtc trust_step t0 (dst_trust d)) /\
  backed_off interval (dst_observed d).
Proof.
  unfold RunWithExecutor. destruct (_ || _) eqn:Ei; [done|]. rewrite orb_false_iff, Z.leb_gt in Ei. destruct (LoadControlTrustFile file) as [t0|]; [|done].
  cbn [mbind option_bind]. intros [= Hl] Hs Hn. destruct (loop_serving config executor interval (proj1 Ei) t0 rounds (mkDaemonState s t0 0 [])) as (budget & Hsv).
  { split; [done..|cbn; lia]. }
  rewrite Hl in Hsv. cbn [snd] in Hsv. destruct Hsv as [S1 S2 _ S4 _]. split; [by apply (run_safe config)|]. eauto.
Qed.

(** Two polls that do not reach the control plane, and one that finds no work. *)
Definition demo_raw (s : string) : string := of_bytes (List.filter (fun c => negb (c =? 61)) (base64_encode (bytes s))).
Definition demo_trust_file (more : list (string * jval)) : string :=
  default "" (marshal (JObj ([("version", JNum 1); ("revocation_epoch", JNum 5);
    ("current", JObj [("id", JStr "k1"); ("version", JNum 1); ("public_key", JStr (demo_raw demo_seed)); ("not_before", JStr "2024-02-29T00:00:00Z");
                      ("not_after", JStr "2024-03-09T00:00:00Z")])] ++ more))).
Definition demo_round (reply : Reply) : Round :=
  mkRound false false (Some (demo_trust_file [])) (Some (demo_raw (demo_seed +:+ demo_seed))) true
    (mkEnv (fun _ => Written) (fun _ => false) (fun _ => reply) (fun _ => false) (fun _ => demo_hour) true true) demo_hour Waited.
Definition demo_rounds : list Round := [demo_round TransportUnavailable; demo_round TransportUnavailable; demo_round (Response 204 "")].
Definition demo_ran : option LoopEnd * DaemonState :=
  default (None, mkDaemonState (new_host demo_config) demo_trust0 0 [])
    (@RunWithExecutor keyed_digest demo_config demo_executor 10000000000 (Some (demo_trust_file [])) demo_rounds (new_host demo_config)).

Lemma daemon_serves_witness :
  (dst_observed demo_ran.2).*2 = [10000000000; 20000000000; 10000000000] /\ NoDup (hst_executed (dst_host demo_ran.2)) /\
  backed_off 10000000000 (dst_observed demo_ran.2).
Proof.
  split; [vm_compute; reflexivity|]. destruct (@daemon_serves keyed_digest demo_config demo_executor 10000000000 (Some (demo_trust_file [])) demo_rounds
    (new_host demo_config) demo_ran.1 demo_ran.2) as (H1 & _ & H3); [vm_compute; reflexivity|apply rtc_refl|vm_compute; discriminate|exact (conj H1 H3)].
Defined.

(** A file that states its version twice, in two spellings, is not refused: the last one counts. *)
Example trust_file_two_versions :
  tbu_Version <$> readControlTrustFile (Some (demo_trust_file [("Version", JNum 9)])) = Some 9 /\
  readControlTrustFile (Some (demo_trust_file [("version", JNum 9)])) = None.
Proof. split; vm_compute; reflexivity. Qed.
