(* ===== verification/ResourceManifests.v ===== *)
(** * Resource manifests

    The records of internal/sandboxresource/store.go with assignments to their fields, and
    their JSON in both directions: the fields have no tags, so the names are Go's. *)

From S2P Require Import Prelude GoString GoTime GoJson GoJsonText GoDecode DecodeFacts TimeText.

Open Scope Z_scope.

(** ** [Attachment] *)

Record Attachment : Type := mkAttachment {
  att_SandboxID : string;
  att_Mode : string;
  att_LeaseExpiresAt : Time;
  att_Generation : Z
}.

Definition zeroAttachment : Attachment := mkAttachment "" "" zeroTime 0.

Definition set_att_SandboxID (v : string) (r : Attachment) : Attachment := let '(mkAttachment _ x1 x2 x3) := r in mkAttachment v x1 x2 x3.
Definition set_att_Mode (v : string) (r : Attachment) : Attachment := let '(mkAttachment x0 _ x2 x3) := r in mkAttachment x0 v x2 x3.
Definition set_att_LeaseExpiresAt (v : Time) (r : Attachment) : Attachment := let '(mkAttachment x0 x1 _ x3) := r in mkAttachment x0 x1 v x3.
Definition set_att_Generation (v : Z) (r : Attachment) : Attachment := let '(mkAttachment x0 x1 x2 _) := r in mkAttachment x0 x1 x2 v.

Definition json_Attachment (r : Attachment) : jval :=
  JObj [("SandboxID", JStr (att_SandboxID r));
        ("Mode", JStr (att_Mode r));
        ("LeaseExpiresAt", json_time (att_LeaseExpiresAt r));
        ("Generation", JNum (att_Generation r))].

Definition Attachment_fields : list (field Attachment) :=
  [field_of "SandboxID" dec_string att_SandboxID set_att_SandboxID;
   field_of "Mode" dec_string att_Mode set_att_Mode;
   field_of "LeaseExpiresAt" dec_time att_LeaseExpiresAt set_att_LeaseExpiresAt;
   field_of "Generation" dec_uint64 att_Generation set_att_Generation].
Definition dec_Attachment : decoder Attachment := dec_struct true Attachment_fields.

(** ** [TaintProvenance] *)

Record TaintProvenance : Type := mkTaintProvenance {
  tpr_OperationID : string;
  tpr_Class : string
}.

Definition zeroTaintProvenance : TaintProvenance := mkTaintProvenance "" "".

Definition set_tpr_OperationID (v : string) (r : TaintProvenance) : TaintProvenance := let '(mkTaintProvenance _ x1) := r in mkTaintProvenance v x1.
Definition set_tpr_Class (v : string) (r : TaintProvenance) : TaintProvenance := let '(mkTaintProvenance x0 _) := r in mkTaintProvenance x0 v.

Definition json_TaintProvenance (r : TaintProvenance) : jval :=
  JObj [("OperationID", JStr (tpr_OperationID r));
        ("Class", JStr (tpr_Class r))].

Definition TaintProvenance_fields : list (field TaintProvenance) :=
  [field_of "OperationID" dec_string tpr_OperationID set_tpr_OperationID;
   field_of "Class" dec_string tpr_Class set_tpr_Class].
Definition dec_TaintProvenance : decoder TaintProvenance := dec_struct true TaintProvenance_fields.

(** ** [Taint] *)

Record Taint : Type := mkTaint {
  tnt_KnownSecretPath : bool;
  tnt_UnknownPath : bool;
  tnt_Provenance : option (list TaintProvenance)
}.

Definition zeroTaint : Taint := mkTaint false false None.

Definition set_tnt_KnownSecretPath (v : bool) (r : Taint) : Taint := let '(mkTaint _ x1 x2) := r in mkTaint v x1 x2.
Definition set_tnt_UnknownPath (v : bool) (r : Taint) : Taint := let '(mkTaint x0 _ x2) := r in mkTaint x0 v x2.
Definition set_tnt_Provenance (v : option (list TaintProvenance)) (r : Taint) : Taint := let '(mkTaint x0 x1 _) := r in mkTaint x0 x1 v.

Definition json_Taint (r : Taint) : jval :=
  JObj [("KnownSecretPath", JBool (tnt_KnownSecretPath r));
        ("UnknownPath", JBool (tnt_UnknownPath r));
        ("Provenance", (json_slice json_TaintProvenance) (tnt_Provenance r))].

Definition Taint_fields : list (field Taint) :=
  [field_of "KnownSecretPath" dec_bool tnt_KnownSecretPath set_tnt_KnownSecretPath;
   field_of "UnknownPath" dec_bool tnt_UnknownPath set_tnt_UnknownPath;
   field_of "Provenance" (dec_slice zeroTaintProvenance dec_TaintProvenance) tnt_Provenance set_tnt_Provenance].
Definition dec_Taint : decoder Taint := dec_struct true Taint_fields.

(** ** [VolumeManifest] *)

Record VolumeManifest : Type := mkVolumeManifest {
  vol_SchemaVersion : string;
  vol_Owner : string;
  vol_ID : string;
  vol_Format : string;
  vol_Encryption : string;
  vol_Integrity : string;
  vol_SizeBytes : Z;
  vol_Inodes : Z;
  vol_CreatedAt : Time;
  vol_UpdatedAt : Time;
  vol_RetentionExpiresAt : Time;
  vol_Generation : Z;
  vol_Attachment : option Attachment;
  vol_Taint : Taint;
  vol_TombstonedAt : Time
}.

Definition zeroVolumeManifest : VolumeManifest := mkVolumeManifest "" "" "" "" "" "" 0 0 zeroTime zeroTime zeroTime 0 None zeroTaint zeroTime.

Definition set_vol_SchemaVersion (v : string) (r : VolumeManifest) : VolumeManifest := let '(mkVolumeManifest _ x1 x2 x3 x4 x5 x6 x7 x8 x9 x10 x11 x12 x13 x14) := r in mkVolumeManifest v x1 x2 x3 x4 x5 x6 x7 x8 x9 x10 x11 x12 x13 x14.
Definition set_vol_Owner (v : string) (r : VolumeManifest) : VolumeManifest := let '(mkVolumeManifest x0 _ x2 x3 x4 x5 x6 x7 x8 x9 x10 x11 x12 x13 x14) := r in mkVolumeManifest x0 v x2 x3 x4 x5 x6 x7 x8 x9 x10 x11 x12 x13 x14.
Definition set_vol_ID (v : string) (r : VolumeManifest) : VolumeManifest := let '(mkVolumeManifest x0 x1 _ x3 x4 x5 x6 x7 x8 x9 x10 x11 x12 x13 x14) := r in mkVolumeManifest x0 x1 v x3 x4 x5 x6 x7 x8 x9 x10 x11 x12 x13 x14.
Definition set_vol_Format (v : string) (r : VolumeManifest) : VolumeManifest := let '(mkVolumeManifest x0 x1 x2 _ x4 x5 x6 x7 x8 x9 x10 x11 x12 x13 x14) := r in mkVolumeManifest x0 x1 x2 v x4 x5 x6 x7 x8 x9 x10 x11 x12 x13 x14.
Definition set_vol_Encryption (v : string) (r : VolumeManifest) : VolumeManifest := let '(mkVolumeManifest x0 x1 x2 x3 _ x5 x6 x7 x8 x9 x10 x11 x12 x13 x14) := r in mkVolumeManifest x0 x1 x2 x3 v x5 x6 x7 x8 x9 x10 x11 x12 x13 x14.
Definition set_vol_Integrity (v : string) (r : VolumeManifest) : VolumeManifest := let '(mkVolumeManifest x0 x1 x2 x3 x4 _ x6 x7 x8 x9 x10 x11 x12 x13 x14) := r in mkVolumeManifest x0 x1 x2 x3 x4 v x6 x7 x8 x9 x10 x11 x12 x13 x14.
Definition set_vol_SizeBytes (v : Z) (r : VolumeManifest) : VolumeManifest := let '(mkVolumeManifest x0 x1 x2 x3 x4 x5 _ x7 x8 x9 x10 x11 x12 x13 x14) := r in mkVolumeManifest x0 x1 x2 x3 x4 x5 v x7 x8 x9 x10 x11 x12 x13 x14.
Definition set_vol_Inodes (v : Z) (r : VolumeManifest) : VolumeManifest := let '(mkVolumeManifest x0 x1 x2 x3 x4 x5 x6 _ x8 x9 x10 x11 x12 x13 x14) := r in mkVolumeManifest x0 x1 x2 x3 x4 x5 x6 v x8 x9 x10 x11 x12 x13 x14.
Definition set_vol_CreatedAt (v : Time) (r : VolumeManifest) : VolumeManifest := let '(mkVolumeManifest x0 x1 x2 x3 x4 x5 x6 x7 _ x9 x10 x11 x12 x13 x14) := r in mkVolumeManifest x0 x1 x2 x3 x4 x5 x6 x7 v x9 x10 x11 x12 x13 x14.
Definition set_vol_UpdatedAt (v : Time) (r : VolumeManifest) : VolumeManifest := let '(mkVolumeManifest x0 x1 x2 x3 x4 x5 x6 x7 x8 _ x10 x11 x12 x13 x14) := r in mkVolumeManifest x0 x1 x2 x3 x4 x5 x6 x7 x8 v x10 x11 x12 x13 x14.
Definition set_vol_RetentionExpiresAt (v : Time) (r : VolumeManifest) : VolumeManifest := let '(mkVolumeManifest x0 x1 x2 x3 x4 x5 x6 x7 x8 x9 _ x11 x12 x13 x14) := r in mkVolumeManifest x0 x1 x2 x3 x4 x5 x6 x7 x8 x9 v x11 x12 x13 x14.
Definition set_vol_Generation (v : Z) (r : VolumeManifest) : VolumeManifest := let '(mkVolumeManifest x0 x1 x2 x3 x4 x5 x6 x7 x8 x9 x10 _ x12 x13 x14) := r in mkVolumeManifest x0 x1 x2 x3 x4 x5 x6 x7 x8 x9 x10 v x12 x13 x14.
Definition set_vol_Attachment (v : option Attachment) (r : VolumeManifest) : VolumeManifest := let '(mkVolumeManifest x0 x1 x2 x3 x4 x5 x6 x7 x8 x9 x10 x11 _ x13 x14) := r in mkVolumeManifest x0 x1 x2 x3 x4 x5 x6 x7 x8 x9 x10 x11 v x13 x14.
Definition set_vol_Taint (v : Taint) (r : VolumeManifest) : VolumeManifest := let '(mkVolumeManifest x0 x1 x2 x3 x4 x5 x6 x7 x8 x9 x10 x11 x12 _ x14) := r in mkVolumeManifest x0 x1 x2 x3 x4 x5 x6 x7 x8 x9 x10 x11 x12 v x14.
Definition set_vol_TombstonedAt (v : Time) (r : VolumeManifest) : VolumeManifest := let '(mkVolumeManifest x0 x1 x2 x3 x4 x5 x6 x7 x8 x9 x10 x11 x12 x13 _) := r in mkVolumeManifest x0 x1 x2 x3 x4 x5 x6 x7 x8 x9 x10 x11 x12 x13 v.

Definition json_VolumeManifest (r : VolumeManifest) : jval :=
  JObj [("SchemaVersion", JStr (vol_SchemaVersion r));
        ("Owner", JStr (vol_Owner r));
        ("ID", JStr (vol_ID r));
        ("Format", JStr (vol_Format r));
        ("Encryption", JStr (vol_Encryption r));
        ("Integrity", JStr (vol_Integrity r));
        ("SizeBytes", JNum (vol_SizeBytes r));
        ("Inodes", JNum (vol_Inodes r));
        ("CreatedAt", json_time (vol_CreatedAt r));
        ("UpdatedAt", json_time (vol_UpdatedAt r));
        ("RetentionExpiresAt", json_time (vol_RetentionExpiresAt r));
        ("Generation", JNum (vol_Generation r));
        ("Attachment", (json_ptr json_Attachment) (vol_Attachment r));
        ("Taint", json_Taint (vol_Taint r));
        ("TombstonedAt", json_time (vol_TombstonedAt r))].

Definition VolumeManifest_fields : list (field VolumeManifest) :=
  [field_of "SchemaVersion" dec_string vol_SchemaVersion set_vol_SchemaVersion;
   field_of "Owner" dec_string vol_Owner set_vol_Owner;
   field_of "ID" dec_string vol_ID set_vol_ID;
   field_of "Format" dec_string vol_Format set_vol_Format;
   field_of "Encryption" dec_string vol_Encryption set_vol_Encryption;
   field_of "Integrity" dec_string vol_Integrity set_vol_Integrity;
   field_of "SizeBytes" dec_uint64 vol_SizeBytes set_vol_SizeBytes;
   field_of "Inodes" dec_uint64 vol_Inodes set_vol_Inodes;
   field_of "CreatedAt" dec_time vol_CreatedAt set_vol_CreatedAt;
   field_of "UpdatedAt" dec_time vol_UpdatedAt set_vol_UpdatedAt;
   field_of "RetentionExpiresAt" dec_time vol_RetentionExpiresAt set_vol_RetentionExpiresAt;
   field_of "Generation" dec_uint64 vol_Generation set_vol_Generation;
   field_of "Attachment" (dec_ptr zeroAttachment dec_Attachment) vol_Attachment set_vol_Attachment;
   field_of "Taint" dec_Taint vol_Taint set_vol_Taint;
   field_of "TombstonedAt" dec_time vol_TombstonedAt set_vol_TombstonedAt].
Definition dec_VolumeManifest : decoder VolumeManifest := dec_struct true VolumeManifest_fields.

(** ** [SourceIdentity] *)

Record SourceIdentity : Type := mkSourceIdentity {
  src_ExportID : string;
  src_Device : Z;
  src_Inode : Z;
  src_Generation : Z
}.

Definition zeroSourceIdentity : SourceIdentity := mkSourceIdentity "" 0 0 0.

Definition set_src_ExportID (v : string) (r : SourceIdentity) : SourceIdentity := let '(mkSourceIdentity _ x1 x2 x3) := r in mkSourceIdentity v x1 x2 x3.
Definition set_src_Device (v : Z) (r : SourceIdentity) : SourceIdentity := let '(mkSourceIdentity x0 _ x2 x3) := r in mkSourceIdentity x0 v x2 x3.
Definition set_src_Inode (v : Z) (r : SourceIdentity) : SourceIdentity := let '(mkSourceIdentity x0 x1 _ x3) := r in mkSourceIdentity x0 x1 v x3.
Definition set_src_Generation (v : Z) (r : SourceIdentity) : SourceIdentity := let '(mkSourceIdentity x0 x1 x2 _) := r in mkSourceIdentity x0 x1 x2 v.

Definition json_SourceIdentity (r : SourceIdentity) : jval :=
  JObj [("ExportID", JStr (src_ExportID r));
        ("Device", JNum (src_Device r));
        ("Inode", JNum (src_Inode r));
        ("Generation", JNum (src_Generation r))].

Definition SourceIdentity_fields : list (field SourceIdentity) :=
  [field_of "ExportID" dec_string src_ExportID set_src_ExportID;
   field_of "Device" dec_uint64 src_Device set_src_Device;
   field_of "Inode" dec_uint64 src_Inode set_src_Inode;
   field_of "Generation" dec_uint64 src_Generation set_src_Generation].
Definition dec_SourceIdentity : decoder SourceIdentity := dec_struct true SourceIdentity_fields.

(** ** [MountLease] *)

Record MountLease : Type := mkMountLease {
  mnt_ID : string;
  mnt_Owner : string;
  mnt_SandboxID : string;
  mnt_Source : SourceIdentity;
  mnt_Target : string;
  mnt_Mode : string;
  mnt_View : string;
  mnt_Generation : Z;
  mnt_LeaseExpiresAt : Time;
  mnt_ReleasedAt : Time
}.

Definition zeroMountLease : MountLease := mkMountLease "" "" "" zeroSourceIdentity "" "" "" 0 zeroTime zeroTime.

Definition set_mnt_ID (v : string) (r : MountLease) : MountLease := let '(mkMountLease _ x1 x2 x3 x4 x5 x6 x7 x8 x9) := r in mkMountLease v x1 x2 x3 x4 x5 x6 x7 x8 x9.
Definition set_mnt_Owner (v : string) (r : MountLease) : MountLease := let '(mkMountLease x0 _ x2 x3 x4 x5 x6 x7 x8 x9) := r in mkMountLease x0 v x2 x3 x4 x5 x6 x7 x8 x9.
Definition set_mnt_SandboxID (v : string) (r : MountLease) : MountLease := let '(mkMountLease x0 x1 _ x3 x4 x5 x6 x7 x8 x9) := r in mkMountLease x0 x1 v x3 x4 x5 x6 x7 x8 x9.
Definition set_mnt_Source (v : SourceIdentity) (r : MountLease) : MountLease := let '(mkMountLease x0 x1 x2 _ x4 x5 x6 x7 x8 x9) := r in mkMountLease x0 x1 x2 v x4 x5 x6 x7 x8 x9.
Definition set_mnt_Target (v : string) (r : MountLease) : MountLease := let '(mkMountLease x0 x1 x2 x3 _ x5 x6 x7 x8 x9) := r in mkMountLease x0 x1 x2 x3 v x5 x6 x7 x8 x9.
Definition set_mnt_Mode (v : string) (r : MountLease) : MountLease := let '(mkMountLease x0 x1 x2 x3 x4 _ x6 x7 x8 x9) := r in mkMountLease x0 x1 x2 x3 x4 v x6 x7 x8 x9.
Definition set_mnt_View (v : string) (r : MountLease) : MountLease := let '(mkMountLease x0 x1 x2 x3 x4 x5 _ x7 x8 x9) := r in mkMountLease x0 x1 x2 x3 x4 x5 v x7 x8 x9.
Definition set_mnt_Generation (v : Z) (r : MountLease) : MountLease := let '(mkMountLease x0 x1 x2 x3 x4 x5 x6 _ x8 x9) := r in mkMountLease x0 x1 x2 x3 x4 x5 x6 v x8 x9.
Definition set_mnt_LeaseExpiresAt (v : Time) (r : MountLease) : MountLease := let '(mkMountLease x0 x1 x2 x3 x4 x5 x6 x7 _ x9) := r in mkMountLease x0 x1 x2 x3 x4 x5 x6 x7 v x9.
Definition set_mnt_ReleasedAt (v : Time) (r : MountLease) : MountLease := let '(mkMountLease x0 x1 x2 x3 x4 x5 x6 x7 x8 _) := r in mkMountLease x0 x1 x2 x3 x4 x5 x6 x7 x8 v.

Definition json_MountLease (r : MountLease) : jval :=
  JObj [("ID", JStr (mnt_ID r));
        ("Owner", JStr (mnt_Owner r));
        ("SandboxID", JStr (mnt_SandboxID r));
        ("Source", json_SourceIdentity (mnt_Source r));
        ("Target", JStr (mnt_Target r));
        ("Mode", JStr (mnt_Mode r));
        ("View", JStr (mnt_View r));
        ("Generation", JNum (mnt_Generation r));
        ("LeaseExpiresAt", json_time (mnt_LeaseExpiresAt r));
        ("ReleasedAt", json_time (mnt_ReleasedAt r))].

Definition MountLease_fields : list (field MountLease) :=
  [field_of "ID" dec_string mnt_ID set_mnt_ID;
   field_of "Owner" dec_string mnt_Owner set_mnt_Owner;
   field_of "SandboxID" dec_string mnt_SandboxID set_mnt_SandboxID;
   field_of "Source" dec_SourceIdentity mnt_Source set_mnt_Source;
   field_of "Target" dec_string mnt_Target set_mnt_Target;
   field_of "Mode" dec_string mnt_Mode set_mnt_Mode;
   field_of "View" dec_string mnt_View set_mnt_View;
   field_of "Generation" dec_uint64 mnt_Generation set_mnt_Generation;
   field_of "LeaseExpiresAt" dec_time mnt_LeaseExpiresAt set_mnt_LeaseExpiresAt;
   field_of "ReleasedAt" dec_time mnt_ReleasedAt set_mnt_ReleasedAt].
Definition dec_MountLease : decoder MountLease := dec_struct true MountLease_fields.

(** ** [SnapshotLease] *)

Record SnapshotLease : Type := mkSnapshotLease {
  sls_Holder : string;
  sls_Generation : Z;
  sls_LeaseExpiresAt : Time
}.

Definition zeroSnapshotLease : SnapshotLease := mkSnapshotLease "" 0 zeroTime.

Definition set_sls_Holder (v : string) (r : SnapshotLease) : SnapshotLease := let '(mkSnapshotLease _ x1 x2) := r in mkSnapshotLease v x1 x2.
Definition set_sls_Generation (v : Z) (r : SnapshotLease) : SnapshotLease := let '(mkSnapshotLease x0 _ x2) := r in mkSnapshotLease x0 v x2.
Definition set_sls_LeaseExpiresAt (v : Time) (r : SnapshotLease) : SnapshotLease := let '(mkSnapshotLease x0 x1 _) := r in mkSnapshotLease x0 x1 v.

Definition json_SnapshotLease (r : SnapshotLease) : jval :=
  JObj [("Holder", JStr (sls_Holder r));
        ("Generation", JNum (sls_Generation r));
        ("LeaseExpiresAt", json_time (sls_LeaseExpiresAt r))].

Definition SnapshotLease_fields : list (field SnapshotLease) :=
  [field_of "Holder" dec_string sls_Holder set_sls_Holder;
   field_of "Generation" dec_uint64 sls_Generation set_sls_Generation;
   field_of "LeaseExpiresAt" dec_time sls_LeaseExpiresAt set_sls_LeaseExpiresAt].
Definition dec_SnapshotLease : decoder SnapshotLease := dec_struct true SnapshotLease_fields.

(** ** [SnapshotManifest] *)

Record SnapshotManifest : Type := mkSnapshotManifest {
  snp_SchemaVersion : string;
  snp_Owner : string;
  snp_ID : string;
  snp_SourceSandboxID : string;
  snp_SourceEffectiveSpecDigest : string;
  snp_CapabilityDigest : string;
  snp_ImageDigest : string;
  snp_RequestID : string;
  snp_Format : string;
  snp_Encryption : string;
  snp_Integrity : string;
  snp_PlaintextDigest : string;
  snp_CiphertextDigest : string;
  snp_SizeBytes : Z;
  snp_CreatedAt : Time;
  snp_RetentionExpiresAt : Time;
  snp_Taint : Taint;
  snp_RiskAttestation : string;
  snp_Lease : option SnapshotLease;
  snp_TombstonedAt : Time
}.

Definition zeroSnapshotManifest : SnapshotManifest := mkSnapshotManifest "" "" "" "" "" "" "" "" "" "" "" "" "" 0 zeroTime zeroTime zeroTaint "" None zeroTime.

Definition set_snp_SchemaVersion (v : string) (r : SnapshotManifest) : SnapshotManifest := let '(mkSnapshotManifest _ x1 x2 x3 x4 x5 x6 x7 x8 x9 x10 x11 x12 x13 x14 x15 x16 x17 x18 x19) := r in mkSnapshotManifest v x1 x2 x3 x4 x5 x6 x7 x8 x9 x10 x11 x12 x13 x14 x15 x16 x17 x18 x19.
Definition set_snp_Owner (v : string) (r : SnapshotManifest) : SnapshotManifest := let '(mkSnapshotManifest x0 _ x2 x3 x4 x5 x6 x7 x8 x9 x10 x11 x12 x13 x14 x15 x16 x17 x18 x19) := r in mkSnapshotManifest x0 v x2 x3 x4 x5 x6 x7 x8 x9 x10 x11 x12 x13 x14 x15 x16 x17 x18 x19.
Definition set_snp_ID (v : string) (r : SnapshotManifest) : SnapshotManifest := let '(mkSnapshotManifest x0 x1 _ x3 x4 x5 x6 x7 x8 x9 x10 x11 x12 x13 x14 x15 x16 x17 x18 x19) := r in mkSnapshotManifest x0 x1 v x3 x4 x5 x6 x7 x8 x9 x10 x11 x12 x13 x14 x15 x16 x17 x18 x19.
Definition set_snp_SourceSandboxID (v : string) (r : SnapshotManifest) : SnapshotManifest := let '(mkSnapshotManifest x0 x1 x2 _ x4 x5 x6 x7 x8 x9 x10 x11 x12 x13 x14 x15 x16 x17 x18 x19) := r in mkSnapshotManifest x0 x1 x2 v x4 x5 x6 x7 x8 x9 x10 x11 x12 x13 x14 x15 x16 x17 x18 x19.
Definition set_snp_SourceEffectiveSpecDigest (v : string) (r : SnapshotManifest) : SnapshotManifest := let '(mkSnapshotManifest x0 x1 x2 x3 _ x5 x6 x7 x8 x9 x10 x11 x12 x13 x14 x15 x16 x17 x18 x19) := r in mkSnapshotManifest x0 x1 x2 x3 v x5 x6 x7 x8 x9 x10 x11 x12 x13 x14 x15 x16 x17 x18 x19.
Definition set_snp_CapabilityDigest (v : string) (r : SnapshotManifest) : SnapshotManifest := let '(mkSnapshotManifest x0 x1 x2 x3 x4 _ x6 x7 x8 x9 x10 x11 x12 x13 x14 x15 x16 x17 x18 x19) := r in mkSnapshotManifest x0 x1 x2 x3 x4 v x6 x7 x8 x9 x10 x11 x12 x13 x14 x15 x16 x17 x18 x19.
Definition set_snp_ImageDigest (v : string) (r : SnapshotManifest) : SnapshotManifest := let '(mkSnapshotManifest x0 x1 x2 x3 x4 x5 _ x7 x8 x9 x10 x11 x12 x13 x14 x15 x16 x17 x18 x19) := r in mkSnapshotManifest x0 x1 x2 x3 x4 x5 v x7 x8 x9 x10 x11 x12 x13 x14 x15 x16 x17 x18 x19.
Definition set_snp_RequestID (v : string) (r : SnapshotManifest) : SnapshotManifest := let '(mkSnapshotManifest x0 x1 x2 x3 x4 x5 x6 _ x8 x9 x10 x11 x12 x13 x14 x15 x16 x17 x18 x19) := r in mkSnapshotManifest x0 x1 x2 x3 x4 x5 x6 v x8 x9 x10 x11 x12 x13 x14 x15 x16 x17 x18 x19.
Definition set_snp_Format (v : string) (r : SnapshotManifest) : SnapshotManifest := let '(mkSnapshotManifest x0 x1 x2 x3 x4 x5 x6 x7 _ x9 x10 x11 x12 x13 x14 x15 x16 x17 x18 x19) := r in mkSnapshotManifest x0 x1 x2 x3 x4 x5 x6 x7 v x9 x10 x11 x12 x13 x14 x15 x16 x17 x18 x19.
Definition set_snp_Encryption (v : string) (r : SnapshotManifest) : SnapshotManifest := let '(mkSnapshotManifest x0 x1 x2 x3 x4 x5 x6 x7 x8 _ x10 x11 x12 x13 x14 x15 x16 x17 x18 x19) := r in mkSnapshotManifest x0 x1 x2 x3 x4 x5 x6 x7 x8 v x10 x11 x12 x13 x14 x15 x16 x17 x18 x19.
Definition set_snp_Integrity (v : string) (r : SnapshotManifest) : SnapshotManifest := let '(mkSnapshotManifest x0 x1 x2 x3 x4 x5 x6 x7 x8 x9 _ x11 x12 x13 x14 x15 x16 x17 x18 x19) := r in mkSnapshotManifest x0 x1 x2 x3 x4 x5 x6 x7 x8 x9 v x11 x12 x13 x14 x15 x16 x17 x18 x19.
Definition set_snp_PlaintextDigest (v : string) (r : SnapshotManifest) : SnapshotManifest := let '(mkSnapshotManifest x0 x1 x2 x3 x4 x5 x6 x7 x8 x9 x10 _ x12 x13 x14 x15 x16 x17 x18 x19) := r in mkSnapshotManifest x0 x1 x2 x3 x4 x5 x6 x7 x8 x9 x10 v x12 x13 x14 x15 x16 x17 x18 x19.
Definition set_snp_CiphertextDigest (v : string) (r : SnapshotManifest) : SnapshotManifest := let '(mkSnapshotManifest x0 x1 x2 x3 x4 x5 x6 x7 x8 x9 x10 x11 _ x13 x14 x15 x16 x17 x18 x19) := r in mkSnapshotManifest x0 x1 x2 x3 x4 x5 x6 x7 x8 x9 x10 x11 v x13 x14 x15 x16 x17 x18 x19.
Definition set_snp_SizeBytes (v : Z) (r : SnapshotManifest) : SnapshotManifest := let '(mkSnapshotManifest x0 x1 x2 x3 x4 x5 x6 x7 x8 x9 x10 x11 x12 _ x14 x15 x16 x17 x18 x19) := r in mkSnapshotManifest x0 x1 x2 x3 x4 x5 x6 x7 x8 x9 x10 x11 x12 v x14 x15 x16 x17 x18 x19.
Definition set_snp_CreatedAt (v : Time) (r : SnapshotManifest) : SnapshotManifest := let '(mkSnapshotManifest x0 x1 x2 x3 x4 x5 x6 x7 x8 x9 x10 x11 x12 x13 _ x15 x16 x17 x18 x19) := r in mkSnapshotManifest x0 x1 x2 x3 x4 x5 x6 x7 x8 x9 x10 x11 x12 x13 v x15 x16 x17 x18 x19.
Definition set_snp_RetentionExpiresAt (v : Time) (r : SnapshotManifest) : SnapshotManifest := let '(mkSnapshotManifest x0 x1 x2 x3 x4 x5 x6 x7 x8 x9 x10 x11 x12 x13 x14 _ x16 x17 x18 x19) := r in mkSnapshotManifest x0 x1 x2 x3 x4 x5 x6 x7 x8 x9 x10 x11 x12 x13 x14 v x16 x17 x18 x19.
Definition set_snp_Taint (v : Taint) (r : SnapshotManifest) : SnapshotManifest := let '(mkSnapshotManifest x0 x1 x2 x3 x4 x5 x6 x7 x8 x9 x10 x11 x12 x13 x14 x15 _ x17 x18 x19) := r in mkSnapshotManifest x0 x1 x2 x3 x4 x5 x6 x7 x8 x9 x10 x11 x12 x13 x14 x15 v x17 x18 x19.
Definition set_snp_RiskAttestation (v : string) (r : SnapshotManifest) : SnapshotManifest := let '(mkSnapshotManifest x0 x1 x2 x3 x4 x5 x6 x7 x8 x9 x10 x11 x12 x13 x14 x15 x16 _ x18 x19) := r in mkSnapshotManifest x0 x1 x2 x3 x4 x5 x6 x7 x8 x9 x10 x11 x12 x13 x14 x15 x16 v x18 x19.
Definition set_snp_Lease (v : option SnapshotLease) (r : SnapshotManifest) : SnapshotManifest := let '(mkSnapshotManifest x0 x1 x2 x3 x4 x5 x6 x7 x8 x9 x10 x11 x12 x13 x14 x15 x16 x17 _ x19) := r in mkSnapshotManifest x0 x1 x2 x3 x4 x5 x6 x7 x8 x9 x10 x11 x12 x13 x14 x15 x16 x17 v x19.
Definition set_snp_TombstonedAt (v : Time) (r : SnapshotManifest) : SnapshotManifest := let '(mkSnapshotManifest x0 x1 x2 x3 x4 x5 x6 x7 x8 x9 x10 x11 x12 x13 x14 x15 x16 x17 x18 _) := r in mkSnapshotManifest x0 x1 x2 x3 x4 x5 x6 x7 x8 x9 x10 x11 x12 x13 x14 x15 x16 x17 x18 v.

Definition json_SnapshotManifest (r : SnapshotManifest) : jval :=
  JObj [("SchemaVersion", JStr (snp_SchemaVersion r));
        ("Owner", JStr (snp_Owner r));
        ("ID", JStr (snp_ID r));
        ("SourceSandboxID", JStr (snp_SourceSandboxID r));
        ("SourceEffectiveSpecDigest", JStr (snp_SourceEffectiveSpecDigest r));
        ("CapabilityDigest", JStr (snp_CapabilityDigest r));
        ("ImageDigest", JStr (snp_ImageDigest r));
        ("RequestID", JStr (snp_RequestID r));
        ("Format", JStr (snp_Format r));
        ("Encryption", JStr (snp_Encryption r));
        ("Integrity", JStr (snp_Integrity r));
        ("PlaintextDigest", JStr (snp_PlaintextDigest r));
        ("CiphertextDigest", JStr (snp_CiphertextDigest r));
        ("SizeBytes", JNum (snp_SizeBytes r));
        ("CreatedAt", json_time (snp_CreatedAt r));
        ("RetentionExpiresAt", json_time (snp_RetentionExpiresAt r));
        ("Taint", json_Taint (snp_Taint r));
        ("RiskAttestation", JStr (snp_RiskAttestation r));
        ("Lease", (json_ptr json_SnapshotLease) (snp_Lease r));
        ("TombstonedAt", json_time (snp_TombstonedAt r))].

Definition SnapshotManifest_fields : list (field SnapshotManifest) :=
  [field_of "SchemaVersion" dec_string snp_SchemaVersion set_snp_SchemaVersion;
   field_of "Owner" dec_string snp_Owner set_snp_Owner;
   field_of "ID" dec_string snp_ID set_snp_ID;
   field_of "SourceSandboxID" dec_string snp_SourceSandboxID set_snp_SourceSandboxID;
   field_of "SourceEffectiveSpecDigest" dec_string snp_SourceEffectiveSpecDigest set_snp_SourceEffectiveSpecDigest;
   field_of "CapabilityDigest" dec_string snp_CapabilityDigest set_snp_CapabilityDigest;
   field_of "ImageDigest" dec_string snp_ImageDigest set_snp_ImageDigest;
   field_of "RequestID" dec_string snp_RequestID set_snp_RequestID;
   field_of "Format" dec_string snp_Format set_snp_Format;
   field_of "Encryption" dec_string snp_Encryption set_snp_Encryption;
   field_of "Integrity" dec_string snp_Integrity set_snp_Integrity;
   field_of "PlaintextDigest" dec_string snp_PlaintextDigest set_snp_PlaintextDigest;
   field_of "CiphertextDigest" dec_string snp_CiphertextDigest set_snp_CiphertextDigest;
   field_of "SizeBytes" dec_uint64 snp_SizeBytes set_snp_SizeBytes;
   field_of "CreatedAt" dec_time snp_CreatedAt set_snp_CreatedAt;
   field_of "RetentionExpiresAt" dec_time snp_RetentionExpiresAt set_snp_RetentionExpiresAt;
   field_of "Taint" dec_Taint snp_Taint set_snp_Taint;
   field_of "RiskAttestation" dec_string snp_RiskAttestation set_snp_RiskAttestation;
   field_of "Lease" (dec_ptr zeroSnapshotLease dec_SnapshotLease) snp_Lease set_snp_Lease;
   field_of "TombstonedAt" dec_time snp_TombstonedAt set_snp_TombstonedAt].
Definition dec_SnapshotManifest : decoder SnapshotManifest := dec_struct true SnapshotManifest_fields.
