(* ===== verification/ResourceStore.v ===== *)
(** * The sandbox resource store

    internal/sandboxresource: manifests of volumes, mount leases and snapshots in one file,
    and encrypted snapshot payloads beside it (store.go, payload.go).  The mutex makes each
    call atomic, so a call is a function of the world: the files, and the state of the
    open store.  How the system calls and the random source of one call end is its [IO].
    Staging writes a private temporary file; only its result matters.  OpenSnapshot and
    RestoreSnapshot read the payload after they have released the mutex; a payload is
    immutable until its snapshot is tombstoned, so they are atomic here too. *)

From stdpp Require Import gmap sorting.
From Stdlib Require Import Ascii String.
From S2P Require Import Prelude DurableFiles GoString Sha256 GoTime GoJson GoJsonText AesGcm GoDecode DecodeFacts TimeText ResourceManifests.

Open Scope Z_scope.

Inductive StoreError : Type :=
| ErrAttached
| ErrConflict
| ErrIntegrity
| ErrLeaseExpired
| ErrNotFound
| ErrSnapshotDenied
| ErrTombstoned
| ContextDone
| Failed (message : string).

Definition volumeSchema : string := "sandbox.volume/v1".
Definition snapshotSchema : string := "sandbox.snapshot/v1".
Definition ReadOnly : string := "read-only".
Definition ReadWrite : string := "read-write".

Record SnapshotRestoreRequest : Type := mkRestoreRequest {
  srq_Owner : string;
  srq_ID : string;
  srq_Holder : string;
  srq_Generation : Z;
  srq_SandboxID : string;
  srq_EffectiveSpecDigest : string;
  srq_CapabilityDigest : string;
  srq_ImageDigest : string
}.

Record Config : Type := mkConfig { cfg_MaximumVolumeBytes : Z; cfg_MaximumVolumeInodes : Z; cfg_MaximumSnapshotBytes : Z }.

Record persistentState : Type := mkState {
  pst_Volumes : gmap string VolumeManifest;
  pst_Mounts : gmap string MountLease;
  pst_Snaps : gmap string SnapshotManifest
}.

Definition emptyState : persistentState := mkState ∅ ∅ ∅.

#[export] Instance source_eq_dec : EqDecision SourceIdentity.
Proof. solve_decision. Defined.

(** ** Validation *)

Definition validConfig (c : Config) : bool :=
  (0 <? cfg_MaximumVolumeBytes c) && (0 <? cfg_MaximumVolumeInodes c) && (0 <? cfg_MaximumSnapshotBytes c) &&
  (cfg_MaximumSnapshotBytes c <=? 2 ^ 63 - 2).

Definition resource_rune (r : Z) : bool := is_lower r || is_upper r || is_digit r || (r =? 95) || (r =? 45).
Definition validResourceID (id : string) : bool := negb ((id ≟ "") || (128 <? len id)) && all_runes resource_rune id.
Definition validOwnerID (owner id : string) : bool := (owner ≠? "") && (len owner <=? 512) && validResourceID id.
Definition validAttachmentMode (mode : string) : bool := (mode ≟ ReadOnly) || (mode ≟ ReadWrite).
Definition validFutureLease (expiresAt now : Time) : bool :=
  negb (IsZero expiresAt) && After expiresAt now && (instant expiresAt - instant now <=? Hour).
Definition validSourceIdentity (s : SourceIdentity) : bool :=
  (src_ExportID s ≠? "") && negb (src_Device s =? 0) && negb (src_Inode s =? 0) && negb (src_Generation s =? 0).
Definition validMountLease (l : MountLease) (now : Time) : bool :=
  validOwnerID (mnt_Owner l) (mnt_ID l) && (mnt_SandboxID l ≠? "") && validSourceIdentity (mnt_Source l) && (mnt_Target l ≠? "") &&
  validAttachmentMode (mnt_Mode l) && ((mnt_View l ≟ "live") || (mnt_View l ≟ "frozen")) && validFutureLease (mnt_LeaseExpiresAt l) now.

Definition provenance (t : Taint) : list TaintProvenance := default [] (tnt_Provenance t).
Definition validProvenance (p : TaintProvenance) : bool :=
  negb ((tpr_OperationID p ≟ "") || (tpr_Class p ≟ "") || (128 <? len (tpr_OperationID p)) || (128 <? len (tpr_Class p))).
Definition validTaint (t : Taint) : bool := negb (64 <? Z.of_nat (length (provenance t))) && forallb validProvenance (provenance t).

Definition validNewVolume (v : VolumeManifest) (c : Config) : bool :=
  validOwnerID (vol_Owner v) (vol_ID v) && (instant (vol_CreatedAt v) =? instant (toUTC (vol_CreatedAt v))) && negb (IsZero (vol_CreatedAt v)) &&
  After (vol_RetentionExpiresAt v) (vol_CreatedAt v) && (0 <? vol_SizeBytes v) && (vol_SizeBytes v <=? cfg_MaximumVolumeBytes c) &&
  (0 <? vol_Inodes v) && (vol_Inodes v <=? cfg_MaximumVolumeInodes c) && (vol_Format v ≠? "") && (vol_Encryption v ≠? "") &&
  (vol_Integrity v ≠? "") && validTaint (vol_Taint v).

Definition validNewSnapshot (m : SnapshotManifest) (c : Config) (now : Time) : bool :=
  validOwnerID (snp_Owner m) (snp_ID m) && (snp_SourceSandboxID m ≠? "") && (snp_SourceEffectiveSpecDigest m ≠? "") && (snp_CapabilityDigest m ≠? "") &&
  (snp_ImageDigest m ≠? "") && (snp_RequestID m ≠? "") && (snp_Format m ≠? "") && (snp_Encryption m ≠? "") && (snp_Integrity m ≠? "") &&
  After (snp_RetentionExpiresAt m) now && (0 <? cfg_MaximumSnapshotBytes c) && validTaint (snp_Taint m).

Definition valid_volume (c : Config) (id : string) (v : VolumeManifest) : bool :=
  (id ≟ vol_ID v) && (vol_SchemaVersion v ≟ volumeSchema) && validNewVolume v c &&
  match vol_Attachment v with
  | None => true
  | Some a => (att_Generation a =? vol_Generation v) && (att_SandboxID a ≠? "") && validAttachmentMode (att_Mode a) && negb (IsZero (att_LeaseExpiresAt a))
  end.
Definition valid_mount (id : string) (l : MountLease) : bool :=
  (id ≟ mnt_ID l) && validOwnerID (mnt_Owner l) (mnt_ID l) && validSourceIdentity (mnt_Source l) && negb (mnt_Generation l =? 0).
Definition valid_snapshot (c : Config) (id : string) (m : SnapshotManifest) : bool :=
  (id ≟ snp_ID m) && (snp_SchemaVersion m ≟ snapshotSchema) && validOwnerID (snp_Owner m) (snp_ID m) && (snp_SourceSandboxID m ≠? "") &&
  (snp_PlaintextDigest m ≠? "") && (snp_CiphertextDigest m ≠? "") && (snp_SizeBytes m <=? cfg_MaximumSnapshotBytes c) && validTaint (snp_Taint m) &&
  match snp_Lease m with
  | None => true
  | Some l => (sls_Holder l ≠? "") && negb (sls_Generation l =? 0) && negb (IsZero (sls_LeaseExpiresAt l))
  end.

Definition holds_all {A} (p : string -> A -> bool) (m : gmap string A) : bool := forallb (fun ka => p ka.1 ka.2) (map_to_list m).
Definition validState (s : persistentState) (c : Config) : bool :=
  holds_all (valid_volume c) (pst_Volumes s) && holds_all valid_mount (pst_Mounts s) && holds_all (valid_snapshot c) (pst_Snaps s).

(** copyTaint: an empty slice is copied to nil. *)
Definition copyTaint (t : Taint) : Taint :=
  set_tnt_Provenance (match tnt_Provenance t with Some [] => None | p => p end) t.
Definition copyVolume (v : VolumeManifest) : VolumeManifest := set_vol_Taint (copyTaint (vol_Taint v)) v.
Definition copySnapshot (m : SnapshotManifest) : SnapshotManifest := set_snp_Taint (copyTaint (snp_Taint m)) m.

Definition provenance_key (p : TaintProvenance) : string := tpr_OperationID p +:+ NUL +:+ tpr_Class p.
Definition provenance_le (a b : TaintProvenance) : Prop := string_le (provenance_key a) (provenance_key b).
#[export] Instance provenance_le_dec : RelDecision provenance_le.
Proof. unfold RelDecision, provenance_le. intros a b. apply _. Defined.

Definition mergeTaint (l r : Taint) : Taint :=
  let merged := merge_sort provenance_le (provenance l ++ provenance r) in
  mkTaint (tnt_KnownSecretPath l || tnt_KnownSecretPath r) (tnt_UnknownPath l || tnt_UnknownPath r) (match merged with [] => None | _ => Some merged end).

(** ** The state file *)

Definition json_state (s : persistentState) : jval :=
  JObj [("volumes", json_map json_VolumeManifest (pst_Volumes s)); ("mounts", json_map json_MountLease (pst_Mounts s));
        ("snapshots", json_map json_SnapshotManifest (pst_Snaps s))].

(** The maps as they are decoded: [None] is nil. *)
Record stateDocument : Type := mkStateDocument {
  sdo_volumes : option (gmap string VolumeManifest);
  sdo_mounts : option (gmap string MountLease);
  sdo_snapshots : option (gmap string SnapshotManifest)
}.

Definition state_fields : list (field stateDocument) :=
  [field_of "volumes" (dec_map zeroVolumeManifest dec_VolumeManifest) sdo_volumes (fun x '(mkStateDocument _ b c) => mkStateDocument x b c);
   field_of "mounts" (dec_map zeroMountLease dec_MountLease) sdo_mounts (fun x '(mkStateDocument a _ c) => mkStateDocument a x c);
   field_of "snapshots" (dec_map zeroSnapshotManifest dec_SnapshotManifest) sdo_snapshots (fun x '(mkStateDocument a b _) => mkStateDocument a b x)].

Definition decode_state (text : string) : option persistentState :=
  d ← parse text;
  s ← dec_struct true state_fields (mkStateDocument (Some ∅) (Some ∅) (Some ∅)) d;
  Some (mkState (default ∅ (sdo_volumes s)) (default ∅ (sdo_mounts s)) (default ∅ (sdo_snapshots s))).

(** ** The world *)

(** [files]: the manifests and the directory of the payloads, by snapshot; [store]: the open store. *)
Record World : Type := mkWorld {
  wld_manifests : Slot;
  wld_payloads : gmap string Slot;
  wld_state : persistentState
}.

Definition payload (id : string) (w : World) : Slot := default no_file (wld_payloads w !! id).

(** How the system calls of one call of the store end.  [io_alive]: the context at its
    checks, in their order; [io_nonce]: the bytes of the random source; [io_staged]: whether
    the temporary file could be written. *)
Record IO : Type := mkIO {
  io_alive : nat -> bool;
  io_save : Outcome;
  io_nonce : option string;
  io_staged : bool;
  io_publish : Outcome;
  io_removed : bool;
  io_read : bool
}.

Notation R := (M World StoreError).

Definition state : R persistentState := fun w => (Ok (wld_state w), w).
Definition set_state (s : persistentState) : R unit := fun w => (Ok tt, mkWorld (wld_manifests w) (wld_payloads w) s).
Definition set_payload (id : string) (f : Slot -> Slot) : R unit := fun w =>
  (Ok tt, mkWorld (wld_manifests w) (<[id := f (payload id w)]> (wld_payloads w)) (wld_state w)).

Definition put_volume (id : string) (v : VolumeManifest) (s : persistentState) : persistentState := mkState (<[id := v]> (pst_Volumes s)) (pst_Mounts s) (pst_Snaps s).
Definition put_mount (id : string) (l : MountLease) (s : persistentState) : persistentState := mkState (pst_Volumes s) (<[id := l]> (pst_Mounts s)) (pst_Snaps s).
Definition put_snapshot (id : string) (m : SnapshotManifest) (s : persistentState) : persistentState := mkState (pst_Volumes s) (pst_Mounts s) (<[id := m]> (pst_Snaps s)).

(** saveLocked, writeState *)
Definition saveLocked (io : Outcome) : R unit := fun w =>
  match marshal (json_state (wld_state w)) with
  | None => (Err (Failed "persist sandbox resource manifests"), w)
  | Some content =>
    (match io with Written => Ok tt | _ => Err (Failed "persist sandbox resource manifests") end,
     mkWorld (replace_slot io content (wld_manifests w)) (wld_payloads w) (wld_state w))
  end.

(** Save; [undo] if that fails. *)
Definition save_or (io : Outcome) (undo : R unit) : R unit := fun w =>
  match saveLocked io w with
  | (Ok _, w) => (Ok tt, w)
  | (Err e, w) => (undo;; fail e) w
  end.

(** [_ = op()] *)
Definition ignored (op : R unit) : R unit := fun w => (Ok tt, (op w).2).

(** contextErr *)
Definition contextErr (alive : bool) : R unit := guard_or ContextDone alive.

(** Whether a file could be read, and its content: readState and Open. *)
Definition readState (file : option string) (readable : bool) : res StoreError persistentState :=
  match file with
  | None => Ok emptyState
  | Some content =>
    if negb readable then Err (Failed "read sandbox resource manifests")
    else match decode_state content with Some s => Ok s | None => Err (Failed "decode sandbox resource manifests") end
  end.

Section store.
Context (config : Config) (dataKey : string).

(** Open: [directories]: whether both directories could be made. *)
Definition Open (directory : string) (directories readable : bool) (manifests : Slot) (payloads : gmap string Slot) : res StoreError World :=
  if (directory ≟ "") || negb (validConfig config) || negb (len dataKey =? 32) then Err (Failed "open sandbox resource store: invalid directory, limits, or data key")
  else if negb directories then Err (Failed "open sandbox resource store: create private directory")
  else match readState (slot_now manifests) readable with
       | Err e => Err e
       | Ok s => if validState s config then Ok (mkWorld manifests payloads s) else Err ErrIntegrity
       end.

(** ** Volumes *)

(** The record of a new volume. *)
Definition new_volume (v : VolumeManifest) : VolumeManifest :=
  let createdAt := toUTC (vol_CreatedAt v) in
  set_vol_Generation 0 (set_vol_UpdatedAt createdAt (set_vol_CreatedAt createdAt (set_vol_SchemaVersion volumeSchema (copyVolume v)))).

Definition CreateVolume (io : IO) (volume : VolumeManifest) : R VolumeManifest :=
  contextErr (io_alive io 0);;
  guard_or ErrConflict (validNewVolume volume config);;
  s ← state;
  guard_or ErrConflict (bool_decide (pst_Volumes s !! vol_ID volume = None));;
  let volume := new_volume volume in
  set_state (put_volume (vol_ID volume) volume s);;
  save_or (io_save io) (set_state s);;
  mret (copyVolume volume).

(** The volume of the owner. *)
Definition find_volume (owner id : string) : R VolumeManifest :=
  s ← state;
  match pst_Volumes s !! id with
  | Some v => if vol_Owner v ≟ owner then mret v else fail ErrNotFound
  | None => fail ErrNotFound
  end.

(** Put the volume, save, and return a copy. *)
Definition store_volume (io : IO) (id : string) (v : VolumeManifest) : R VolumeManifest :=
  s ← state;
  set_state (put_volume id v s);;
  saveLocked (io_save io);;
  mret (copyVolume v).

Definition GetVolume (io : IO) (owner id : string) : R VolumeManifest :=
  contextErr (io_alive io 0);;
  v ← find_volume owner id;
  guard_or ErrTombstoned (IsZero (vol_TombstonedAt v));;
  mret (copyVolume v).

Definition AttachVolume (io : IO) (owner id sandboxID mode : string) (leaseExpiresAt now : Time) : R VolumeManifest :=
  contextErr (io_alive io 0);;
  guard_or ErrConflict (validOwnerID owner id && (sandboxID ≠? "") && validAttachmentMode mode && validFutureLease leaseExpiresAt now);;
  v ← find_volume owner id;
  guard_or ErrTombstoned (IsZero (vol_TombstonedAt v));;
  guard_or ErrAttached (bool_decide (vol_Attachment v = None));;
  let generation := u64 (vol_Generation v + 1) in
  store_volume io id
    (set_vol_UpdatedAt (toUTC now) (set_vol_Attachment (Some (mkAttachment sandboxID mode (toUTC leaseExpiresAt) generation)) (set_vol_Generation generation v))).

Definition DetachVolume (io : IO) (owner id : string) (generation : Z) (now : Time) : R VolumeManifest :=
  contextErr (io_alive io 0);;
  v ← find_volume owner id;
  guard_or ErrConflict (match vol_Attachment v with Some a => negb (generation =? 0) && (att_Generation a =? generation) | None => false end);;
  store_volume io id (set_vol_UpdatedAt (toUTC now) (set_vol_Attachment None v)).

(** One volume of the loop of ReconcileExpiredAttachments. *)
Definition expired_attachment (now : Time) (v : VolumeManifest) : bool :=
  match vol_Attachment v with Some a => negb (After (att_LeaseExpiresAt a) now) | None => false end.
Definition reconciled (now : Time) (v : VolumeManifest) : VolumeManifest :=
  if expired_attachment now v then set_vol_UpdatedAt (toUTC now) (set_vol_Attachment None v) else v.

Definition volume_id_le (a b : VolumeManifest) : Prop := string_le (vol_ID a) (vol_ID b).
#[export] Instance volume_id_le_dec : RelDecision volume_id_le.
Proof. unfold RelDecision, volume_id_le. intros a b. apply _. Defined.

Definition ReconcileExpiredAttachments (io : IO) (now : Time) : R (list VolumeManifest) :=
  contextErr (io_alive io 0);;
  s ← state;
  let found := List.filter (fun ka => expired_attachment now ka.2) (map_to_list (pst_Volumes s)) in
  set_state (mkState (reconciled now <$> pst_Volumes s) (pst_Mounts s) (pst_Snaps s));;
  (match found with [] => mret tt | _ => saveLocked (io_save io) end);;
  mret (merge_sort volume_id_le ((fun ka => copyVolume (reconciled now ka.2)) <$> found)).

Definition TombstoneVolume (io : IO) (owner id : string) (generation : Z) (now : Time) : R VolumeManifest :=
  contextErr (io_alive io 0);;
  v ← find_volume owner id;
  guard_or ErrAttached (bool_decide (vol_Attachment v = None));;
  guard_or ErrConflict (vol_Generation v =? generation);;
  guard_or ErrTombstoned (IsZero (vol_TombstonedAt v));;
  store_volume io id (set_vol_UpdatedAt (toUTC now) (set_vol_TombstonedAt (toUTC now) v)).

Definition MarkVolumeTainted (io : IO) (owner id : string) (taint : Taint) (now : Time) : R VolumeManifest :=
  contextErr (io_alive io 0);;
  guard_or ErrConflict (validTaint taint);;
  v ← find_volume owner id;
  store_volume io id (set_vol_UpdatedAt (toUTC now) (set_vol_Taint (mergeTaint (vol_Taint v) taint) v)).

(** ** Mounts *)

Definition store_mount (io : IO) (id : string) (l : MountLease) : R MountLease :=
  s ← state;
  set_state (put_mount id l s);;
  saveLocked (io_save io);;
  mret l.

Definition find_mount (owner id : string) : R MountLease :=
  s ← state;
  match pst_Mounts s !! id with
  | Some l => if mnt_Owner l ≟ owner then mret l else fail ErrNotFound
  | None => fail ErrNotFound
  end.

Definition AcquireMount (io : IO) (lease : MountLease) (now : Time) : R MountLease :=
  contextErr (io_alive io 0);;
  guard_or ErrConflict (validMountLease lease now);;
  s ← state;
  let prior := pst_Mounts s !! mnt_ID lease in
  guard_or ErrConflict (match prior with Some p => negb (IsZero (mnt_ReleasedAt p)) | None => true end);;
  let generation := match prior with Some p => mnt_Generation p | None => mnt_Generation lease end in
  guard_or ErrConflict (negb (generation =? max_u64));;
  store_mount io (mnt_ID lease) (set_mnt_LeaseExpiresAt (toUTC (mnt_LeaseExpiresAt lease)) (set_mnt_Generation (generation + 1) lease)).

Definition ValidateMountLease (io : IO) (owner id : string) (generation : Z) (observed : SourceIdentity) (now : Time) : R unit :=
  contextErr (io_alive io 0);;
  l ← find_mount owner id;
  guard_or ErrLeaseExpired ((mnt_Generation l =? generation) && IsZero (mnt_ReleasedAt l) && After (mnt_LeaseExpiresAt l) now);;
  guard_or ErrIntegrity (mnt_Source l ≟ observed).

Definition ReleaseMount (io : IO) (owner id : string) (generation : Z) (now : Time) : R MountLease :=
  contextErr (io_alive io 0);;
  l ← find_mount owner id;
  guard_or ErrConflict ((mnt_Generation l =? generation) && IsZero (mnt_ReleasedAt l));;
  store_mount io id (set_mnt_ReleasedAt (toUTC now) l).

(** ** Payloads *)

Definition snapshotEnvelopeVersion : Z := 1.
Definition version_byte : string := of_bytes [snapshotEnvelopeVersion].

Definition encryptSnapshot (key plaintext : string) (nonce : option string) : option string :=
  nonce ← nonce; Some (version_byte +:+ nonce +:+ gcm_seal key nonce plaintext version_byte).

Definition take_bytes (n : nat) (s : string) : string := of_bytes (take n (bytes s)).

Definition decryptSnapshot (key envelope : string) : res StoreError string :=
  if (len envelope <? 1 + NonceSize + Overhead) || (take_bytes 1 envelope ≠? version_byte) then Err ErrIntegrity
  else match gcm_open key (take_bytes 12 (drop_bytes 1 envelope)) (drop_bytes 13 envelope) version_byte with
       | Some plain => Ok plain
       | None => Err ErrIntegrity
       end.

(** digest *)
Definition digest (s : string) : string := "sha256:" +:+ sha256_hex s.

Record StagedSnapshot : Type := mkStaged {
  stg_id : string;
  stg_ciphertext : string;
  stg_PlaintextDigest : string;
  stg_CiphertextDigest : string;
  stg_SizeBytes : Z
}.

(** readBounded: [content] is what the reader yields, [None] an error. *)
Definition readBounded (alive : bool) (content : option string) (maximum : Z) : R string :=
  match content with
  | None => fail (Failed "stage snapshot data: read disk bytes")
  | Some content =>
    contextErr alive;;
    guard_or ErrIntegrity (negb (maximum <? len content));;
    mret content
  end.

Definition Stage (io : IO) (id : string) (content : option string) : R StagedSnapshot :=
  contextErr (io_alive io 1);;
  guard_or ErrConflict (validOwnerID "payload" id);;
  plain ← readBounded (io_alive io 2) content (cfg_MaximumSnapshotBytes config);
  match encryptSnapshot dataKey plain (io_nonce io) with
  | None => fail (Failed "encrypt snapshot payload: random nonce")
  | Some ciphertext =>
    guard_or (Failed "stage snapshot data: create temporary ciphertext") (io_staged io);;
    mret (mkStaged id ciphertext (digest plain) (digest ciphertext) (len plain))
  end.

(** The sync of the payload directory covers all its files. *)
Definition sync_payloads : R unit := fun w => (Ok tt, mkWorld (wld_manifests w) (sync_slot <$> wld_payloads w) (wld_state w)).

Definition Publish (io : IO) (stage : StagedSnapshot) : R unit :=
  present ← (fun w => (Ok (slot_now (payload (stg_id stage) w)), w));
  guard_or ErrConflict (bool_decide ((present : option string) = None));;
  match io_publish io with
  | Unwritten => fail (Failed "publish snapshot data")
  | Unsynced => set_payload (stg_id stage) (put_slot (Some (stg_ciphertext stage)));; fail (Failed "publish snapshot data")
  | Written => set_payload (stg_id stage) (put_slot (Some (stg_ciphertext stage)));; sync_payloads
  end.

(** Remove, where the callers do not mind a missing file; [os.Remove] does not sync the
    directory. *)
Definition Remove (io : IO) (id : string) : R unit :=
  present ← (fun w => (Ok (slot_now (payload id w)), w));
  match (present : option string) with
  | None => mret tt
  | Some _ => if io_removed io then set_payload id (put_slot None) else fail (Failed "remove snapshot data")
  end.

(** FileDataPlane.Open: the verified plaintext. *)
Definition OpenPayload (io : IO) (id : string) (m : SnapshotManifest) : R string :=
  contextErr (io_alive io 1);;
  present ← (fun w => (Ok (slot_now (payload id w)), w));
  match (present : option string) with
  | None => fail (Failed "open snapshot data")
  | Some ciphertext =>
    guard_or (Failed "open snapshot data") (io_read io);;
    guard_or ErrIntegrity (digest ciphertext ≟ snp_CiphertextDigest m);;
    match decryptSnapshot dataKey ciphertext with
    | Err e => fail e
    | Ok plain =>
      guard_or ErrIntegrity ((len plain =? snp_SizeBytes m) && (digest plain ≟ snp_PlaintextDigest m));;
      mret plain
    end
  end.

(** ** Snapshots *)

Definition find_snapshot (owner id : string) : R SnapshotManifest :=
  s ← state;
  match pst_Snaps s !! id with
  | Some m => if snp_Owner m ≟ owner then mret m else fail ErrNotFound
  | None => fail ErrNotFound
  end.

Definition store_snapshot (io : IO) (id : string) (m : SnapshotManifest) : R SnapshotManifest :=
  s ← state;
  set_state (put_snapshot id m s);;
  saveLocked (io_save io);;
  mret (copySnapshot m).

(** The record of a new snapshot. *)
Definition new_snapshot (stage : StagedSnapshot) (now : Time) (m : SnapshotManifest) : SnapshotManifest :=
  set_snp_SizeBytes (stg_SizeBytes stage) (set_snp_CiphertextDigest (stg_CiphertextDigest stage)
    (set_snp_PlaintextDigest (stg_PlaintextDigest stage) (set_snp_CreatedAt (toUTC now) (set_snp_SchemaVersion snapshotSchema (copySnapshot m))))).

Definition CreateSnapshot (io : IO) (manifest : SnapshotManifest) (content : option string) (now : Time) : R SnapshotManifest :=
  contextErr (io_alive io 0);;
  guard_or ErrConflict (validNewSnapshot manifest config now);;
  guard_or ErrSnapshotDenied (negb ((tnt_KnownSecretPath (snp_Taint manifest) || tnt_UnknownPath (snp_Taint manifest)) && (snp_RiskAttestation manifest ≟ "")));;
  stage ← Stage io (snp_ID manifest) content;
  let manifest := new_snapshot stage now manifest in
  s ← state;
  guard_or ErrConflict (bool_decide (pst_Snaps s !! snp_ID manifest = None));;
  Publish io stage;;
  set_state (put_snapshot (snp_ID manifest) manifest s);;
  save_or (io_save io) (set_state s;; ignored (Remove io (snp_ID manifest)));;
  mret (copySnapshot manifest).

Definition OpenSnapshot (io : IO) (owner id : string) : R (string * SnapshotManifest) :=
  contextErr (io_alive io 0);;
  m ← find_snapshot owner id;
  guard_or ErrTombstoned (IsZero (snp_TombstonedAt m));;
  plain ← OpenPayload io id m;
  mret (plain, copySnapshot m).

Definition AcquireSnapshotLease (io : IO) (owner id holder : string) (leaseExpiresAt now : Time) : R SnapshotManifest :=
  contextErr (io_alive io 0);;
  guard_or ErrConflict ((holder ≠? "") && validFutureLease leaseExpiresAt now);;
  m ← find_snapshot owner id;
  guard_or ErrTombstoned (IsZero (snp_TombstonedAt m));;
  guard_or ErrAttached (match snp_Lease m with Some l => negb (After (sls_LeaseExpiresAt l) now) | None => true end);;
  guard_or ErrConflict (match snp_Lease m with Some l => negb (sls_Generation l =? max_u64) | None => true end);;
  let generation := match snp_Lease m with Some l => sls_Generation l + 1 | None => 1 end in
  store_snapshot io id (set_snp_Lease (Some (mkSnapshotLease holder generation (toUTC leaseExpiresAt))) m).

Definition ReleaseSnapshotLease (io : IO) (owner id : string) (generation : Z) : R SnapshotManifest :=
  contextErr (io_alive io 0);;
  m ← find_snapshot owner id;
  guard_or ErrConflict (match snp_Lease m with Some l => sls_Generation l =? generation | None => false end);;
  store_snapshot io id (set_snp_Lease None m).

(** [sink]: whether the sink took the manifest and the plaintext. *)
Definition RestoreSnapshot (io : IO) (request : SnapshotRestoreRequest) (sink : SnapshotManifest -> string -> bool) (now : Time) : R SnapshotManifest :=
  contextErr (io_alive io 0);;
  guard_or ErrConflict ((srq_Owner request ≠? "") && (srq_ID request ≠? "") && (srq_Holder request ≠? "") && negb (srq_Generation request =? 0) &&
    (srq_SandboxID request ≠? "") && (srq_EffectiveSpecDigest request ≠? "") && (srq_CapabilityDigest request ≠? "") && (srq_ImageDigest request ≠? ""));;
  m ← find_snapshot (srq_Owner request) (srq_ID request);
  guard_or ErrTombstoned (IsZero (snp_TombstonedAt m));;
  guard_or ErrConflict (match snp_Lease m with
                        | Some l => (sls_Holder l ≟ srq_Holder request) && (sls_Generation l =? srq_Generation request) && After (sls_LeaseExpiresAt l) now
                        | None => false
                        end);;
  guard_or ErrSnapshotDenied ((snp_SourceSandboxID m ≟ srq_SandboxID request) && (snp_SourceEffectiveSpecDigest m ≟ srq_EffectiveSpecDigest request) &&
    (snp_CapabilityDigest m ≟ srq_CapabilityDigest request) && (snp_ImageDigest m ≟ srq_ImageDigest request));;
  plain ← OpenPayload io (srq_ID request) m;
  guard_or (Failed "restore sandbox snapshot: sink unavailable") (sink (copySnapshot m) plain);;
  contextErr (io_alive io 2);;
  mret (copySnapshot m).

Definition TombstoneSnapshot (io : IO) (owner id : string) (now : Time) : R SnapshotManifest :=
  contextErr (io_alive io 0);;
  m ← find_snapshot owner id;
  guard_or ErrTombstoned (IsZero (snp_TombstonedAt m));;
  guard_or ErrAttached (bool_decide (snp_Lease m = None));;
  Remove io id;;
  store_snapshot io id (set_snp_TombstonedAt (toUTC now) m).
End store.
