(* ===== verification/ResourceFacts.v ===== *)
(** * The sandbox resource store: facts

    The state file is read back as the state ([decode_encoded]); manifests only move forward
    ([state_le]); every call, whatever the end of its system calls, keeps the state well
    formed and ordered so, and leaves what it has to leave of the payloads. *)

From stdpp Require Import gmap sorting.
From Stdlib Require Import Ascii String.
From S2P Require Import Prelude DurableFiles GoString Keys Sha256 GoTime GoJson GoJsonText JsonFacts JsonStrings JsonValues AesGcm GoDecode DecodeFacts TimeText HostProtocol DigestFacts ResourceManifests ResourceStore.

Open Scope Z_scope.

(** ** What the encoding keeps *)

Definition attachment_encodable (a : Attachment) : Prop :=
  texts [att_SandboxID a; att_Mode a] /\ time_ok (att_LeaseExpiresAt a) /\ u64_range (att_Generation a).
Definition taint_encodable (t : Taint) : Prop :=
  tnt_Provenance t <> Some [] /\ Forall (fun p => texts [tpr_OperationID p; tpr_Class p]) (provenance t).
Record volume_encodable (v : VolumeManifest) : Prop := mkVolumeEncodable {
  ven_texts : texts [vol_SchemaVersion v; vol_Owner v; vol_ID v; vol_Format v; vol_Encryption v; vol_Integrity v];
  ven_numbers : numbers [vol_SizeBytes v; vol_Inodes v; vol_Generation v];
  ven_times : Forall time_ok [vol_CreatedAt v; vol_UpdatedAt v; vol_RetentionExpiresAt v; vol_TombstonedAt v];
  ven_attachment a : vol_Attachment v = Some a -> attachment_encodable a;
  ven_taint : taint_encodable (vol_Taint v)
}.
Record mount_encodable (l : MountLease) : Prop := mkMountEncodable {
  men_texts : texts [mnt_ID l; mnt_Owner l; mnt_SandboxID l; mnt_Target l; mnt_Mode l; mnt_View l; src_ExportID (mnt_Source l)];
  men_numbers : numbers [mnt_Generation l; src_Device (mnt_Source l); src_Inode (mnt_Source l); src_Generation (mnt_Source l)];
  men_times : Forall time_ok [mnt_LeaseExpiresAt l; mnt_ReleasedAt l]
}.
Definition lease_encodable (l : SnapshotLease) : Prop := texts [sls_Holder l] /\ u64_range (sls_Generation l) /\ time_ok (sls_LeaseExpiresAt l).
Record snapshot_encodable (m : SnapshotManifest) : Prop := mkSnapshotEncodable {
  sen_texts : texts [snp_SchemaVersion m; snp_Owner m; snp_ID m; snp_SourceSandboxID m; snp_SourceEffectiveSpecDigest m; snp_CapabilityDigest m; snp_ImageDigest m;
                     snp_RequestID m; snp_Format m; snp_Encryption m; snp_Integrity m; snp_PlaintextDigest m; snp_CiphertextDigest m; snp_RiskAttestation m];
  sen_numbers : numbers [snp_SizeBytes m];
  sen_times : Forall time_ok [snp_CreatedAt m; snp_RetentionExpiresAt m; snp_TombstonedAt m];
  sen_lease l : snp_Lease m = Some l -> lease_encodable l;
  sen_taint : taint_encodable (snp_Taint m)
}.

(** Take the facts of a list of fields apart. *)
Ltac each := unfold texts, numbers in *; rewrite ?Forall_cons, ?Forall_nil in *; destruct_and?.

Create HintDb manifest.
#[export] Hint Resolve carries_string carries_uint64 carries_time carries_bool : manifest.

(** The next field, by the fact about it. *)
Ltac member := fill; [solve [auto with manifest]|].

Lemma carries_attachment a : attachment_encodable a -> carries_object json_Attachment dec_Attachment zeroAttachment 1 a.
Proof. intros (H1 & H2 & H3). destruct a. cbn in *. each. eapply fills_struct; [reflexivity|]. do 4 member. apply fills_nil. Qed.

Lemma carries_provenance p : texts [tpr_OperationID p; tpr_Class p] -> carries_object json_TaintProvenance dec_TaintProvenance zeroTaintProvenance 1 p.
Proof. destruct p. cbn. intros H. each. eapply fills_struct; [reflexivity|]. do 2 member. apply fills_nil. Qed.

Lemma carries_taint t : taint_encodable t -> carries_object json_Taint dec_Taint zeroTaint 3 t.
Proof.
  intros [_ H]. destruct t as [k u p]. cbn in H. eapply fills_struct; [reflexivity|]. do 2 member. fill; [|apply fills_nil]. apply carries_slice. intros l Hl. cbn in Hl. subst p.
  eapply Forall_impl; [exact H|]. intros x Hx. by apply carries_object_carries, carries_provenance.
Qed.

(** A struct inside a struct. *)
Lemma carries_inner {A} (enc : A -> jval) dec zero k k' a : (k <= k')%nat -> carries_object enc dec zero k a -> carries enc dec zero k' a.
Proof. intros Hk H. eapply carries_mono; [exact Hk|]. by apply carries_object_carries. Qed.

Lemma carries_pointer {A} (enc : A -> jval) dec zero k k' p : (k <= k')%nat ->
  (forall a, p = Some a -> carries_object enc dec zero k a) -> carries (json_ptr enc) (dec_ptr zero dec) None k' p.
Proof. intros Hk H. eapply carries_mono; [exact Hk|]. by apply carries_ptr. Qed.

Lemma carries_volume v : volume_encodable v -> carries_object json_VolumeManifest dec_VolumeManifest zeroVolumeManifest 4 v.
Proof.
  intros [H1 H2 H3 H4 H5]. destruct v. cbn in *. each. eapply fills_struct; [reflexivity|]. do 12 member.
  fill; [eapply (carries_pointer _ _ _ 1); [lia|]; intros a Ha; by apply carries_attachment, H4|]. fill; [by eapply (carries_inner _ _ _ 3), carries_taint; [lia|]|].
  member. apply fills_nil.
Qed.

Lemma carries_mount l : mount_encodable l -> carries_object json_MountLease dec_MountLease zeroMountLease 2 l.
Proof.
  intros [H1 H2 H3]. destruct l as [a b c [d e f g] h i j k m n]. cbn in *. each. eapply fills_struct; [reflexivity|]. do 3 member.
  fill. { apply carries_object_carries. eapply fills_struct; [reflexivity|]. do 4 member. apply fills_nil. }
  do 6 member. apply fills_nil.
Qed.

Lemma carries_lease l : lease_encodable l -> carries_object json_SnapshotLease dec_SnapshotLease zeroSnapshotLease 1 l.
Proof. intros (H1 & H2 & H3). destruct l. cbn in *. each. eapply fills_struct; [reflexivity|]. do 3 member. apply fills_nil. Qed.

Lemma carries_snapshot m : snapshot_encodable m -> carries_object json_SnapshotManifest dec_SnapshotManifest zeroSnapshotManifest 4 m.
Proof.
  intros [H1 H2 H3 H4 H5]. destruct m. cbn in *. each. eapply fills_struct; [reflexivity|]. do 16 member.
  fill; [by eapply (carries_inner _ _ _ 3), carries_taint; [lia|]|]. member.
  fill; [eapply (carries_pointer _ _ _ 1); [lia|]; intros a Ha; by apply carries_lease, H4|]. member. apply fills_nil.
Qed.

(** A map decoded into an empty one. *)
Lemma carries_manifests {A} (enc : A -> jval) dec zero k (m : gmap string A) :
  map_Forall (fun key a => utf8 (bytes key) /\ carries_object enc dec zero k a) m ->
  carries (fun m => json_map enc (default ∅ m)) (dec_map zero dec) (Some ∅) (S k) (Some m).
Proof.
  intros H. destruct (carries_map enc dec zero k (Some m)) as (d & H1 & H2 & H3).
  { intros m' [= <-] key a Ha. destruct (H key a Ha) as [G1 G2]. split; [done|]. by apply carries_object_carries. }
  exists d. split_and!; [done..|]. by destruct d.
Qed.

Record state_encodable (s : persistentState) : Prop := mkStateEncodable {
  ste_volumes : map_Forall (fun key v => utf8 (bytes key) /\ volume_encodable v) (pst_Volumes s);
  ste_mounts : map_Forall (fun key l => utf8 (bytes key) /\ mount_encodable l) (pst_Mounts s);
  ste_snapshots : map_Forall (fun key m => utf8 (bytes key) /\ snapshot_encodable m) (pst_Snaps s)
}.

Lemma carries_mono_manifests {A} (enc : A -> jval) dec zero k k' (m : gmap string A) : (k <= k')%nat ->
  carries (fun m => json_map enc (default ∅ m)) (dec_map zero dec) (Some ∅) (S k) (Some m) ->
  carries (fun m => json_map enc (default ∅ m)) (dec_map zero dec) (Some ∅) (S k') (Some m).
Proof. intros H. apply carries_mono. lia. Qed.

Lemma decode_encoded s : state_encodable s -> exists text, marshal (json_state s) = Some text /\ decode_state text = Some s.
Proof.
  intros [Hv Hm Hs]. destruct s as [vs ms ss]. cbn in *.
  set (enc := fun d => JObj [("volumes", json_map json_VolumeManifest (default ∅ (sdo_volumes d))); ("mounts", json_map json_MountLease (default ∅ (sdo_mounts d)));
                             ("snapshots", json_map json_SnapshotManifest (default ∅ (sdo_snapshots d)))]).
  assert (Hc : carries_object enc (dec_struct true state_fields) (mkStateDocument (Some ∅) (Some ∅) (Some ∅)) 6 (mkStateDocument (Some vs) (Some ms) (Some ss))).
  { eapply fills_struct; [reflexivity|]. 
    eapply (fills_cons _ _ _ _ (fun m => json_map json_VolumeManifest (default ∅ m)) _ _ _ (Some vs)); [reflexivity|reflexivity| |].
    { apply carries_manifests. eapply map_Forall_impl; [exact Hv|]. intros key v [G1 G2]. split; [done|]. by apply carries_volume. }
    eapply (fills_cons _ _ _ _ (fun m => json_map json_MountLease (default ∅ m)) _ _ _ (Some ms)); [reflexivity|reflexivity| |].
    { eapply (carries_mono_manifests _ _ _ 2); [lia|]. apply carries_manifests. eapply map_Forall_impl; [exact Hm|]. intros key v [G1 G2]. split; [done|]. by apply carries_mount. }
    eapply (fills_cons _ _ _ _ (fun m => json_map json_SnapshotManifest (default ∅ m)) _ _ _ (Some ss)); [reflexivity|reflexivity| |].
    { apply carries_manifests. eapply map_Forall_impl; [exact Hs|]. intros key v [G1 G2]. split; [done|]. by apply carries_snapshot. }
    apply fills_nil. }
  apply carries_object_carries in Hc. destruct (carries_parse _ _ _ _ _ Hc) as (text & d & H1 & H2 & H3); [apply Nat.leb_le; reflexivity|].
  exists text. split; [exact H1|]. unfold decode_state. rewrite H2. cbn [mbind option_bind]. rewrite H3. done.
Qed.

(** ** Manifests move forward *)

Record volume_le (a b : VolumeManifest) : Prop := mkVolumeLe {
  vle_owner : vol_Owner a = vol_Owner b;
  vle_id : vol_ID a = vol_ID b;
  vle_layout : (vol_Format a, vol_Encryption a, vol_Integrity a, vol_SizeBytes a, vol_Inodes a) =
               (vol_Format b, vol_Encryption b, vol_Integrity b, vol_SizeBytes b, vol_Inodes b);
  vle_times : (vol_CreatedAt a, vol_RetentionExpiresAt a) = (vol_CreatedAt b, vol_RetentionExpiresAt b);
  vle_generation : vol_Generation a <= vol_Generation b;
  vle_attachment : vol_Generation a = vol_Generation b -> vol_Attachment b = vol_Attachment a \/ vol_Attachment b = None;
  vle_tombstone : IsZero (vol_TombstonedAt a) = false -> vol_TombstonedAt b = vol_TombstonedAt a /\ vol_Generation b = vol_Generation a;
  vle_taint : (tnt_KnownSecretPath (vol_Taint a) = true -> tnt_KnownSecretPath (vol_Taint b) = true) /\
              (tnt_UnknownPath (vol_Taint a) = true -> tnt_UnknownPath (vol_Taint b) = true) /\
              provenance (vol_Taint a) ⊆ provenance (vol_Taint b)
}.

(** A lease of one generation is only released. *)
Record mount_le (a b : MountLease) : Prop := mkMountLe {
  mle_generation : mnt_Generation a <= mnt_Generation b;
  mle_same : mnt_Generation a = mnt_Generation b -> b = set_mnt_ReleasedAt (mnt_ReleasedAt b) a;
  mle_released : mnt_Generation a = mnt_Generation b -> IsZero (mnt_ReleasedAt a) = false -> b = a
}.

(** The same snapshot, with any lease. *)
Definition same_snapshot (a b : SnapshotManifest) : Prop := b = set_snp_Lease (snp_Lease b) a.

Record snapshot_le (a b : SnapshotManifest) : Prop := mkSnapshotLe {
  sle_same : b = set_snp_TombstonedAt (snp_TombstonedAt b) (set_snp_Lease (snp_Lease b) a);
  sle_tombstone : IsZero (snp_TombstonedAt a) = false -> snp_TombstonedAt b = snp_TombstonedAt a;
  sle_lease : IsZero (snp_TombstonedAt a) = false -> snp_Lease b = snp_Lease a \/ snp_Lease b = None
}.

(** Every key keeps a value that has moved forward. *)
Definition map_le {A} (R : relation A) (m m' : gmap string A) : Prop := forall k a, m !! k = Some a -> exists b, m' !! k = Some b /\ R a b.

Record state_le (s s' : persistentState) : Prop := mkStateLe {
  stl_volumes : map_le volume_le (pst_Volumes s) (pst_Volumes s');
  stl_mounts : map_le mount_le (pst_Mounts s) (pst_Mounts s');
  stl_snapshots : map_le snapshot_le (pst_Snaps s) (pst_Snaps s')
}.

#[export] Instance volume_le_preorder : PreOrder volume_le.
Proof.
  split.
  - intros a. split; auto; lia.
  - intros a b c [A1 A2 A3 A4 A5 A6 A7 (A8 & A9 & A10)] [B1 B2 B3 B4 B5 B6 B7 (B8 & B9 & B10)]. split; [congruence..|lia| | |].
    + intros E. destruct A6 as [E1|E1], B6 as [E2|E2]; try lia; rewrite ?E2, ?E1; auto.
    + intros Ha. destruct (A7 Ha) as [E1 E2]. rewrite <- E1 in Ha. destruct (B7 Ha) as [E3 E4]. split; congruence.
    + split_and!; [auto..|]. by etrans.
Qed.

#[export] Instance mount_le_preorder : PreOrder mount_le.
Proof.
  split.
  - intros a. split; [lia| |done]. intros _. by destruct a.
  - intros a b c [A1 A2 A3] [B1 B2 B3]. split; [lia| |].
    + intros E. rewrite B2, A2 by lia. by destruct a.
    + intros E Hr. rewrite (A3 ltac:(lia) Hr) in *. by apply B3.
Qed.

#[export] Instance snapshot_le_preorder : PreOrder snapshot_le.
Proof.
  split.
  - intros a. split; [by destruct a|done|by left].
  - intros a b c [A1 A2 A3] [B1 B2 B3]. split; [rewrite B1, A1; by destruct a| |].
    + intros Ha. rewrite <- (A2 Ha). apply B2. by rewrite (A2 Ha).
    + intros Ha. pose proof (A2 Ha) as Eb. rewrite <- Eb in Ha. destruct (B3 Ha) as [->|]; [|by right]. apply A3. by rewrite <- Eb.
Qed.

#[export] Instance map_le_preorder {A} (R : relation A) `{!PreOrder R} : PreOrder (map_le R).
Proof.
  split.
  - intros m k a Ha. by exists a.
  - intros m1 m2 m3 H1 H2 k a Ha. destruct (H1 k a Ha) as (b & Hb & R1), (H2 k b Hb) as (c & Hc & R2). exists c. split; [done|]. by etrans.
Qed.

#[export] Instance state_le_preorder : PreOrder state_le.
Proof.
  split; [intros s; by split|]. intros a b c [A1 A2 A3] [B1 B2 B3]. split; by etrans.
Qed.

Lemma map_le_insert {A} (R : relation A) `{!PreOrder R} (m : gmap string A) k b : (forall a, m !! k = Some a -> R a b) -> map_le R m (<[k := b]> m).
Proof. intros H k' a Ha. destruct (decide (k' = k)) as [->|Hn]; [exists b; rewrite lookup_insert_eq; auto|]. exists a. by rewrite lookup_insert_ne. Qed.

Lemma map_le_empty {A} (R : relation A) (m : gmap string A) : map_le R ∅ m.
Proof. intros k a Ha. by rewrite lookup_empty in Ha. Qed.

(** ** Calls *)

Section calls.
Context (config : Config) (dataKey : string).

Definition volume_ok (id : string) (v : VolumeManifest) : Prop := volume_encodable v /\ valid_volume config id v = true.
Definition mount_ok (id : string) (l : MountLease) : Prop := mount_encodable l /\ valid_mount id l = true.
Definition snapshot_ok (id : string) (m : SnapshotManifest) : Prop := snapshot_encodable m /\ valid_snapshot config id m = true.

Record state_ok (s : persistentState) : Prop := mkStateOk {
  sok_volumes : map_Forall volume_ok (pst_Volumes s);
  sok_mounts : map_Forall mount_ok (pst_Mounts s);
  sok_snapshots : map_Forall snapshot_ok (pst_Snaps s)
}.

Lemma holds_all_spec {A} (p : string -> A -> bool) (m : gmap string A) : holds_all p m = true <-> map_Forall (fun k a => p k a = true) m.
Proof.
  unfold holds_all. rewrite forallb_forall. split.
  - intros H k a Ha. apply (H (k, a)), list_elem_of_In, elem_of_map_to_list, Ha.
  - intros H [k a] Ha%list_elem_of_In%elem_of_map_to_list. by apply H.
Qed.

Lemma ok_valid s : state_ok s -> validState s config = true.
Proof.
  intros [H1 H2 H3]. unfold validState. rewrite !andb_true_iff, !holds_all_spec.
  split_and!; eapply map_Forall_impl; [exact H1| |exact H2| |exact H3|]; intros k a Ha; apply Ha.
Qed.

Lemma valid_key_text id i : (id ≟ i) = true -> utf8 (bytes i) -> utf8 (bytes id).
Proof. by intros ->%bool_decide_eq_true. Qed.

Lemma ok_encodable s : state_ok s -> state_encodable s.
Proof.
  intros [H1 H2 H3]. split; (eapply map_Forall_impl; [eassumption|]); intros k a [He Hv]; (split; [|done]); destruct He as [Ht _ _]; each;
    unfold valid_volume, valid_mount, valid_snapshot in Hv; rewrite !andb_true_iff in Hv; destruct_and!; by eapply valid_key_text.
Qed.

Lemma ok_empty : state_ok emptyState.
Proof. split; apply map_Forall_empty. Qed.

Lemma ok_put_volume id v s : state_ok s -> volume_ok id v -> state_ok (put_volume id v s).
Proof. intros [H1 H2 H3] Hv. split; [by apply map_Forall_insert_2|done..]. Qed.
Lemma ok_put_mount id l s : state_ok s -> mount_ok id l -> state_ok (put_mount id l s).
Proof. intros [H1 H2 H3] Hv. split; [done|by apply map_Forall_insert_2|done]. Qed.
Lemma ok_put_snapshot id m s : state_ok s -> snapshot_ok id m -> state_ok (put_snapshot id m s).
Proof. intros [H1 H2 H3] Hv. split; [done..|by apply map_Forall_insert_2]. Qed.

(** The state file is replaced by [s'], which is then the state of the store unless the
    call failed and took it back. *)
Definition saved (io : Outcome) (s' : persistentState) (w : World) (ok : bool) (w' : World) : Prop :=
  exists text, marshal (json_state s') = Some text /\ wld_manifests w' = replace_slot io text (wld_manifests w) /\
    (wld_state w' = s' \/ wld_state w' = wld_state w) /\ (ok = true -> io = Written /\ wld_state w' = s').

(** Snapshots that are not [touched] stay as they are, up to their leases. *)
Definition kept (touched : string -> Prop) (s s' : persistentState) : Prop :=
  forall id m, ~ touched id -> pst_Snaps s !! id = Some m -> exists m', pst_Snaps s' !! id = Some m' /\ same_snapshot m m'.

(** Payloads that are not [touched] stay, or become durable. *)
Definition untouched (touched : string -> Prop) (w w' : World) : Prop :=
  forall id, ~ touched id -> payload id w' = payload id w \/ payload id w' = sync_slot (payload id w).

Definition effect (io : Outcome) (touched : string -> Prop) (w : World) {A} (x : res StoreError A * World) : Prop :=
  (wld_manifests x.2 = wld_manifests w /\ wld_state x.2 = wld_state w \/
   exists s', state_ok s' /\ state_le (wld_state w) s' /\ kept touched (wld_state w) s' /\
     saved io s' w (match x.1 with Ok _ => true | Err _ => false end) x.2) /\
  untouched touched w x.2.

Definition none (_ : string) : Prop := False.

Lemma effect_same io touched w {A} (r : res StoreError A) : effect io touched w (r, w).
Proof. split; [by left|]. intros id _. by left. Qed.

Lemma effect_check io touched w {A} e b (k : unit -> R A) : (b = true -> effect io touched w (k tt w)) -> effect io touched w ((guard_or e b ≫= k) w).
Proof. intros H. unfold mbind, M_bind, guard_or. destruct b; [by apply H|apply effect_same]. Qed.

Lemma effect_state io touched w {A} (k : persistentState -> R A) : effect io touched w (k (wld_state w) w) -> effect io touched w ((state ≫= k) w).
Proof. done. Qed.

Lemma effect_find_volume io touched w {A} owner id (k : VolumeManifest -> R A) :
  (forall v, pst_Volumes (wld_state w) !! id = Some v -> vol_Owner v = owner -> effect io touched w (k v w)) ->
  effect io touched w ((find_volume owner id ≫= k) w).
Proof.
  intros H. unfold find_volume, mbind, M_bind, state. destruct (pst_Volumes _ !! id) as [v|]; [|apply effect_same].
  case_bool_decide; [by apply H|apply effect_same].
Qed.
Lemma effect_find_mount io touched w {A} owner id (k : MountLease -> R A) :
  (forall l, pst_Mounts (wld_state w) !! id = Some l -> mnt_Owner l = owner -> effect io touched w (k l w)) ->
  effect io touched w ((find_mount owner id ≫= k) w).
Proof.
  intros H. unfold find_mount, mbind, M_bind, state. destruct (pst_Mounts _ !! id) as [v|]; [|apply effect_same].
  case_bool_decide; [by apply H|apply effect_same].
Qed.
Lemma effect_find_snapshot io touched w {A} owner id (k : SnapshotManifest -> R A) :
  (forall m, pst_Snaps (wld_state w) !! id = Some m -> snp_Owner m = owner -> effect io touched w (k m w)) ->
  effect io touched w ((find_snapshot owner id ≫= k) w).
Proof.
  intros H. unfold find_snapshot, mbind, M_bind, state. destruct (pst_Snaps _ !! id) as [v|]; [|apply effect_same].
  case_bool_decide; [by apply H|apply effect_same].
Qed.

Lemma same_snapshot_refl m : same_snapshot m m.
Proof. by destruct m. Qed.

Lemma kept_snaps touched s s' : pst_Snaps s' = pst_Snaps s -> kept touched s s'.
Proof. intros E id m _ Hm. exists m. rewrite E. split; [done|apply same_snapshot_refl]. Qed.

(** Set the state, save it, and return: the end of most calls. *)
Lemma effect_saved io touched w w1 {A} s' (a : A) : wld_manifests w1 = wld_manifests w -> untouched touched w w1 ->
  state_ok s' -> state_le (wld_state w) s' -> kept touched (wld_state w) s' ->
  effect io touched w ((set_state s';; saveLocked io;; mret a) w1).
Proof.
  intros Hm Hu Hok Hle Hk. destruct (decode_encoded s' (ok_encodable s' Hok)) as (text & Ht & _).
  unfold mbind, M_bind, set_state, saveLocked. cbn [wld_state]. rewrite Ht.
  destruct io; (split; [right; exists s'; split_and!; [done..|]; exists text; cbn; rewrite Hm; split_and!; auto; done|exact Hu]).
Qed.

(** The same, when the call takes its change back on a failure. *)
Lemma effect_saved_or io touched w w1 {A} s' (undo : R unit) (a : A) : wld_manifests w1 = wld_manifests w -> untouched touched w w1 ->
  state_ok s' -> state_le (wld_state w) s' -> kept touched (wld_state w) s' ->
  (forall w2, untouched touched w w2 -> let x := undo w2 in x.1 = Ok tt /\ wld_manifests x.2 = wld_manifests w2 /\ wld_state x.2 = wld_state w /\ untouched touched w x.2) ->
  effect io touched w ((set_state s';; save_or io undo;; mret a) w1).
Proof.
  intros Hm Hu Hok Hle Hk Hundo. destruct (decode_encoded s' (ok_encodable s' Hok)) as (text & Ht & _).
  unfold mbind, M_bind, set_state, save_or, saveLocked. cbn [wld_state]. rewrite Ht.
  set (w2 := mkWorld (replace_slot io text _) _ _). assert (Hw2 : untouched touched w w2) by exact Hu. destruct (Hundo w2 Hw2) as (U0 & U1 & U2 & U3).
  destruct (undo w2) as [r w3] eqn:Eu. cbn in U0, U1, U2, U3. subst r. destruct io; unfold mbind, M_bind; cbn beta iota; rewrite ?Eu.
  1,2: (split; [right; exists s'; split_and!; [done..|]; exists text; cbn; rewrite U1, Hm; split_and!; [done|done|by right|done]|exact U3]).
  split; [|exact Hu]. right. exists s'. split_and!; [done..|]. exists text. cbn. rewrite Hm. auto 6.
Qed.

(** ** Volumes *)

Lemma ok_updated id v t : volume_ok id v -> time_ok t -> volume_ok id (set_vol_UpdatedAt t v).
Proof. intros [[H1 H2 H3 H4 H5] Hv] Ht. destruct v. cbn in *. split; [split; cbn; [done|done| |done|done]|exact Hv]. rewrite !Forall_cons in *. tauto. Qed.
Lemma le_updated v t : volume_le v (set_vol_UpdatedAt t v).
Proof. destruct v. split; auto; cbn; lia. Qed.

Lemma ok_detached id v : volume_ok id v -> volume_ok id (set_vol_Attachment None v).
Proof.
  intros [[H1 H2 H3 H4 H5] Hv]. destruct v. cbn in *. split; [by split|]. unfold valid_volume in *. rewrite !andb_true_iff in *. destruct_and!. split_and!; done.
Qed.
Lemma le_detached v : volume_le v (set_vol_Attachment None v).
Proof. destruct v. split; auto; cbn; lia. Qed.

Lemma ok_attached id v a : volume_ok id v -> attachment_encodable a -> att_SandboxID a <> "" -> validAttachmentMode (att_Mode a) = true ->
  IsZero (att_LeaseExpiresAt a) = false -> volume_ok id (set_vol_Attachment (Some a) (set_vol_Generation (att_Generation a) v)).
Proof.
  intros [[H1 H2 H3 H4 H5] Hv] Ha Hs Hm Hl. destruct v. cbn in *. pose proof Ha as (_ & _ & Hg). split.
  - split; cbn; [done| |done| |done]; [unfold numbers in *; rewrite !Forall_cons in *; tauto|]. by intros a' [= <-].
  - unfold valid_volume in *. rewrite !andb_true_iff in *. destruct_and!. cbn. rewrite Z.eqb_refl, (bool_decide_eq_false_2 (att_SandboxID a = "")), Hl, Hm by done. by split_and!.
Qed.
Lemma le_attached v a : vol_Generation v < att_Generation a -> IsZero (vol_TombstonedAt v) = true ->
  volume_le v (set_vol_Attachment (Some a) (set_vol_Generation (att_Generation a) v)).
Proof. destruct v. cbn. intros Hg Ht. split; auto; cbn; [lia..|congruence]. Qed.

Lemma ok_tombstoned id v t : volume_ok id v -> time_ok t -> volume_ok id (set_vol_TombstonedAt t v).
Proof. intros [[H1 H2 H3 H4 H5] Hv] Ht. destruct v. cbn in *. split; [split; cbn; [done|done| |done|done]|exact Hv]. rewrite !Forall_cons in *. tauto. Qed.
Lemma le_tombstoned v t : IsZero (vol_TombstonedAt v) = true -> volume_le v (set_vol_TombstonedAt t v).
Proof. destruct v. cbn. intros Ht. split; auto; cbn; [lia|congruence]. Qed.

Lemma merged_provenance l r : provenance (mergeTaint l r) ≡ₚ provenance l ++ provenance r.
Proof.
  unfold mergeTaint, provenance at 1. cbn [tnt_Provenance]. pose proof (merge_sort_Permutation provenance_le (provenance l ++ provenance r)) as H.
  destruct (merge_sort _ _); [exact H|exact H].
Qed.

Lemma merged_ok l r : taint_encodable l -> taint_encodable r -> validTaint l = true -> validTaint r = true ->
  Z.of_nat (length (provenance l ++ provenance r)) <= 64 -> taint_encodable (mergeTaint l r) /\ validTaint (mergeTaint l r) = true.
Proof.
  intros [_ L2] [_ R2] [_ L3]%andb_true_iff [_ R3]%andb_true_iff Hl. pose proof (merged_provenance l r) as Hp. split.
  - split; [unfold mergeTaint; cbn; by destruct (merge_sort _ _)|]. rewrite Hp. by apply Forall_app.
  - unfold validTaint. rewrite (Permutation_length Hp), (proj2 (Z.ltb_ge _ _)) by lia. apply forallb_forall. intros p Hin%list_elem_of_In. rewrite Hp in Hin.
    rewrite forallb_forall in L3, R3. apply elem_of_app in Hin as [Hin|Hin]; [apply L3|apply R3]; by apply list_elem_of_In.
Qed.

Lemma ok_tainted id v t : volume_ok id v -> taint_encodable t -> validTaint t = true -> volume_ok id (set_vol_Taint t v).
Proof.
  intros [[H1 H2 H3 H4 H5] Hv] Ht Hval. destruct v. cbn in *. split; [by split|]. unfold valid_volume, validNewVolume in *. cbn in *. rewrite !andb_true_iff in *.
  destruct_and!. by split_and!.
Qed.
Lemma le_tainted v t : volume_le v (set_vol_Taint (mergeTaint (vol_Taint v) t) v).
Proof.
  assert (E : forall x, vol_Taint (set_vol_Taint x v) = x) by (by destruct v).
  split; [by destruct v..|destruct v; cbn; lia|by destruct v; left|by destruct v|]. rewrite E. split_and!; [by cbn; intros ->..|].
  intros p Hp. rewrite merged_provenance. apply elem_of_app. by left.
Qed.

Lemma untouched_same touched w w' : wld_payloads w' = wld_payloads w -> untouched touched w w'.
Proof. intros E id _. left. unfold payload. by rewrite E. Qed.

Lemma le_put_volume id v s : (forall v0, pst_Volumes s !! id = Some v0 -> volume_le v0 v) -> state_le s (put_volume id v s).
Proof. intros H. split; [exact (map_le_insert volume_le _ _ _ H)|done..]. Qed.
Lemma le_put_mount id l s : (forall l0, pst_Mounts s !! id = Some l0 -> mount_le l0 l) -> state_le s (put_mount id l s).
Proof. intros H. split; [done|exact (map_le_insert mount_le _ _ _ H)|done]. Qed.
Lemma le_put_snapshot id m s : (forall m0, pst_Snaps s !! id = Some m0 -> snapshot_le m0 m) -> state_le s (put_snapshot id m s).
Proof. intros H. split; [done..|exact (map_le_insert snapshot_le _ _ _ H)]. Qed.

Lemma store_volume_effect io id v0 v w : state_ok (wld_state w) -> pst_Volumes (wld_state w) !! id = Some v0 -> volume_le v0 v -> volume_ok id v ->
  effect (io_save io) none w (store_volume io id v w).
Proof.
  intros Hw H0 Hle Hok. apply effect_saved; [done|by apply untouched_same|by apply ok_put_volume| |by apply kept_snaps].
  apply le_put_volume. intros v1 Hv1. congruence.
Qed.

Lemma copied_provenance t : provenance (copyTaint t) = provenance t.
Proof. by destruct t as [k u [[|p l]|]]. Qed.

Lemma copied_taint t : Forall (fun p => texts [tpr_OperationID p; tpr_Class p]) (provenance t) -> taint_encodable (copyTaint t).
Proof. intros H. split; [by destruct t as [k u [[|p l]|]]|by rewrite copied_provenance]. Qed.

Lemma validTaint_copy t : validTaint (copyTaint t) = validTaint t.
Proof. unfold validTaint. by rewrite copied_provenance. Qed.

Lemma new_volume_ok v : validNewVolume v config = true -> volume_encodable (new_volume v) -> vol_Attachment v = None -> volume_ok (vol_ID (new_volume v)) (new_volume v).
Proof.
  intros Hv He Ha. split; [done|]. destruct v. cbn in Ha. subst. unfold valid_volume, validNewVolume in *. rewrite !andb_true_iff in *. cbn in *.
  rewrite validTaint_copy, !bool_decide_eq_true_2 by done. destruct_and!. by split_and!.
Qed.

Lemma CreateVolume_effect io v w : state_ok (wld_state w) -> volume_encodable (new_volume v) -> vol_Attachment v = None ->
  effect (io_save io) none w (CreateVolume config io v w).
Proof.
  intros Hw He Ha. apply effect_check; intros _. apply effect_check; intros Hv. apply effect_state. apply effect_check; intros Hn%bool_decide_eq_true.
  assert (E : vol_ID (new_volume v) = vol_ID v) by (by destruct v).
  apply effect_saved_or; [done|by apply untouched_same|by apply ok_put_volume, new_volume_ok| |by apply kept_snaps|].
  - apply le_put_volume. rewrite E. congruence.
  - intros w2 Hu. done.
Qed.

Lemma AttachVolume_effect io owner id sandboxID mode leaseExpiresAt now w : state_ok (wld_state w) ->
  texts [sandboxID] -> time_ok (toUTC leaseExpiresAt) -> time_ok (toUTC now) ->
  (forall v, pst_Volumes (wld_state w) !! id = Some v -> vol_Generation v < max_u64) ->
  effect (io_save io) none w (AttachVolume io owner id sandboxID mode leaseExpiresAt now w).
Proof.
  intros Hw Ht Hl Hn Hg. apply effect_check; intros _. apply effect_check; intros Hval. apply effect_find_volume. intros v Hv _.
  apply effect_check; intros Hz. apply effect_check; intros _. rewrite !andb_true_iff, negb_true_iff, bool_decide_eq_false in Hval. destruct Hval as [[[_ Hs] Hm] Hf].
  specialize (Hg v Hv). pose proof (sok_volumes _ Hw id v Hv) as Hok.
  assert (Hr : u64_range (vol_Generation v)) by (pose proof (ven_numbers _ (proj1 Hok)) as Hnum; each; done). unfold u64_range in Hr.
  rewrite u64_small by lia. set (a := mkAttachment sandboxID mode (toUTC leaseExpiresAt) (vol_Generation v + 1)).
  assert (Hmode : utf8 (bytes mode)) by (unfold validAttachmentMode in Hm; apply orb_true_iff in Hm as [->%bool_decide_eq_true| ->%bool_decide_eq_true]; by apply valid_utf8).
  apply (store_volume_effect io id v); [done..| |].
  - etrans; [apply (le_attached v a); [cbn; lia|done]|apply le_updated].
  - apply ok_updated; [|done]. apply (ok_attached id v a); [done| |done|done|].
    + split; [|split; [done|unfold u64_range; cbn; lia]]. each. cbn. repeat constructor; done.
    + unfold validFutureLease in Hf. rewrite !andb_true_iff, negb_true_iff in Hf. exact (proj1 (proj1 Hf)).
Qed.

Lemma DetachVolume_effect io owner id generation now w : state_ok (wld_state w) -> time_ok (toUTC now) ->
  effect (io_save io) none w (DetachVolume io owner id generation now w).
Proof.
  intros Hw Hn. apply effect_check; intros _. apply effect_find_volume. intros v Hv _. apply effect_check; intros _.
  apply (store_volume_effect io id v); [done..| |].
  - etrans; [apply le_detached|apply le_updated].
  - apply ok_updated; [|done]. apply ok_detached, (sok_volumes _ Hw id v Hv).
Qed.

Lemma TombstoneVolume_effect io owner id generation now w : state_ok (wld_state w) -> time_ok (toUTC now) ->
  effect (io_save io) none w (TombstoneVolume io owner id generation now w).
Proof.
  intros Hw Hn. apply effect_check; intros _. apply effect_find_volume. intros v Hv _. do 2 (apply effect_check; intros _). apply effect_check; intros Hz.
  apply (store_volume_effect io id v); [done..| |].
  - etrans; [by apply le_tombstoned|apply le_updated].
  - apply ok_updated; [|done]. apply ok_tombstoned; [|done]. apply (sok_volumes _ Hw id v Hv).
Qed.

Lemma MarkVolumeTainted_effect io owner id taint now w : state_ok (wld_state w) -> time_ok (toUTC now) -> taint_encodable taint ->
  (forall v, pst_Volumes (wld_state w) !! id = Some v -> Z.of_nat (length (provenance (vol_Taint v) ++ provenance taint)) <= 64) ->
  effect (io_save io) none w (MarkVolumeTainted io owner id taint now w).
Proof.
  intros Hw Hn Ht Hl. apply effect_check; intros _. apply effect_check; intros Hval. apply effect_find_volume. intros v Hv _. pose proof (sok_volumes _ Hw id v Hv) as Hok.
  assert (Hvt : validTaint (vol_Taint v) = true) by (destruct Hok as [_ Hval']; unfold valid_volume, validNewVolume in Hval'; rewrite !andb_true_iff in Hval'; tauto).
  destruct (merged_ok (vol_Taint v) taint (ven_taint _ (proj1 Hok)) Ht Hvt Hval (Hl v Hv)) as [M1 M2].
  apply (store_volume_effect io id v); [done..| |].
  - etrans; [apply le_tainted|apply le_updated].
  - apply ok_updated; [|done]. by apply ok_tainted.
Qed.

Lemma reconciled_none now (m : gmap string VolumeManifest) : List.filter (fun ka => expired_attachment now ka.2) (map_to_list m) = [] -> reconciled now <$> m = m.
Proof.
  intros H. apply map_eq. intros k. rewrite lookup_fmap. destruct (m !! k) as [v|] eqn:E; [|done]. cbn. unfold reconciled.
  destruct (expired_attachment now v) eqn:Ee; [|done]. exfalso. apply elem_of_map_to_list in E. apply list_elem_of_In in E.
  assert (Hin : List.In (k, v) (List.filter (fun ka => expired_attachment now ka.2) (map_to_list m))) by (by apply List.filter_In). by rewrite H in Hin.
Qed.

Lemma Reconcile_effect io now w : state_ok (wld_state w) -> time_ok (toUTC now) -> effect (io_save io) none w (ReconcileExpiredAttachments io now w).
Proof.
  intros Hw Hn. apply effect_check; intros _. apply effect_state. cbv zeta.
  destruct (List.filter _ _) as [|x found] eqn:Ef.
  - apply reconciled_none in Ef. rewrite Ef. split; [left|by apply untouched_same]. split; [done|]. cbn. by destruct (wld_state w).
  - apply effect_saved; [done|by apply untouched_same| | |by apply kept_snaps].
    + destruct Hw as [H1 H2 H3]. split; [|done..]. apply map_Forall_fmap. intros k v Hv. specialize (H1 k v Hv). cbn. unfold reconciled.
      destruct (expired_attachment now v); [|done]. apply ok_updated; [by apply ok_detached|done].
    + split; [|done..]. intros k v Hv. exists (reconciled now v). cbn. rewrite lookup_fmap, Hv. split; [done|]. unfold reconciled.
      destruct (expired_attachment now v); [|done]. etrans; [apply le_detached|apply le_updated].
Qed.

(** ** Mounts *)

Lemma store_mount_effect io id l w : state_ok (wld_state w) -> (forall l0, pst_Mounts (wld_state w) !! id = Some l0 -> mount_le l0 l) -> mount_ok id l ->
  effect (io_save io) none w (store_mount io id l w).
Proof.
  intros Hw Hle Hok. apply effect_saved; [done|by apply untouched_same|by apply ok_put_mount|by apply le_put_mount|by apply kept_snaps].
Qed.

Lemma AcquireMount_effect io lease now w : state_ok (wld_state w) -> mount_encodable (set_mnt_LeaseExpiresAt (toUTC (mnt_LeaseExpiresAt lease)) lease) ->
  effect (io_save io) none w (AcquireMount io lease now w).
Proof.
  intros Hw He. apply effect_check; intros _. apply effect_check; intros Hv. apply effect_state. apply effect_check; intros _. cbv zeta.
  set (generation := match pst_Mounts (wld_state w) !! mnt_ID lease with Some p => mnt_Generation p | None => mnt_Generation lease end).
  assert (Hg : u64_range generation /\ forall p, pst_Mounts (wld_state w) !! mnt_ID lease = Some p -> mnt_Generation p = generation).
  { unfold generation. destruct (pst_Mounts (wld_state w) !! mnt_ID lease) as [p|] eqn:Ep.
    - pose proof (men_numbers _ (proj1 (sok_mounts _ Hw _ p Ep))). each. split; [done|]. by intros p' [= <-].
    - pose proof (men_numbers _ He). destruct lease. cbn in *. each. done. }
  destruct Hg as [Hr Hp]. clearbody generation. apply effect_check; intros Hm%negb_true_iff%Z.eqb_neq. unfold u64_range in Hr. apply store_mount_effect; [done| |].
  - intros l0 H0. specialize (Hp l0 H0). destruct lease. split; cbn; lia.
  - unfold validMountLease in Hv. rewrite !andb_true_iff in Hv. destruct_and!. destruct He as [E1 E2 E3]. destruct lease as [? ? ? [] ? ? ? ? ? ?]. cbn in *. split.
    + split; cbn; [done| |done]. unfold numbers in *. rewrite !Forall_cons in *. split; [|tauto]. unfold u64_range. lia.
    + unfold valid_mount. cbn. rewrite (bool_decide_eq_true_2 (mnt_ID = mnt_ID)), (proj2 (Z.eqb_neq _ _)) by (done || lia). rewrite !andb_true_iff. by split_and!.
Qed.

Lemma ReleaseMount_effect io owner id generation now w : state_ok (wld_state w) -> time_ok (toUTC now) ->
  effect (io_save io) none w (ReleaseMount io owner id generation now w).
Proof.
  intros Hw Hn. apply effect_check; intros _. apply effect_find_mount. intros l Hl _. apply effect_check; intros [_ Hz]%andb_true_iff.
  destruct (sok_mounts _ Hw id l Hl) as [[E1 E2 E3] Hv]. apply store_mount_effect; [done| |].
  - intros l0 H0. assert (l0 = l) as -> by congruence. destruct l. split; cbn in *; [lia|done|congruence].
  - destruct l. cbn in *. split; [split; cbn; [done..|]|exact Hv]. rewrite !Forall_cons in *. tauto.
Qed.

(** ** Snapshots *)

Lemma kept_put_snapshot touched id m s : (forall m0, ~ touched id -> pst_Snaps s !! id = Some m0 -> same_snapshot m0 m) -> kept touched s (put_snapshot id m s).
Proof.
  intros H id' m0 Hn H0. cbn. destruct (decide (id' = id)) as [->|Hd]; [exists m; rewrite lookup_insert_eq; auto|].
  exists m0. rewrite lookup_insert_ne by done. split; [done|apply same_snapshot_refl].
Qed.

Lemma store_snapshot_effect touched io id m0 m w w1 : wld_manifests w1 = wld_manifests w -> wld_state w1 = wld_state w -> untouched touched w w1 ->
  state_ok (wld_state w) -> pst_Snaps (wld_state w) !! id = Some m0 -> snapshot_le m0 m -> (touched id \/ same_snapshot m0 m) -> snapshot_ok id m ->
  effect (io_save io) touched w (store_snapshot io id m w1).
Proof.
  intros Hm Hs Hu Hw H0 Hle Hk Hok. unfold store_snapshot. unfold state at 1, mbind at 1, M_bind. rewrite Hs.
  apply effect_saved; [done|done|by apply ok_put_snapshot| |].
  - apply le_put_snapshot. congruence.
  - apply kept_put_snapshot. intros m1 Ht H1. assert (m1 = m0) as -> by congruence. by destruct Hk.
Qed.

Lemma ok_leased id m l : snapshot_ok id m -> (forall x, l = Some x -> lease_encodable x /\ sls_Holder x <> "" /\ sls_Generation x <> 0 /\ IsZero (sls_LeaseExpiresAt x) = false) ->
  snapshot_ok id (set_snp_Lease l m).
Proof.
  intros [[H1 H2 H3 H4 H5] Hv] Hl. destruct m. cbn in *. split.
  - split; cbn; [done..| |done]. intros x Hx. by apply Hl.
  - unfold valid_snapshot in *. rewrite !andb_true_iff in *. destruct_and!. split_and!; [done..|]. cbn. destruct l as [x|]; [|done].
    destruct (Hl x eq_refl) as (_ & G1 & G2 & G3). rewrite (bool_decide_eq_false_2 (sls_Holder x = "")), (proj2 (Z.eqb_neq _ _)), G3 by done. done.
Qed.
Lemma le_leased m l : l = None \/ IsZero (snp_TombstonedAt m) = true -> snapshot_le m (set_snp_Lease l m).
Proof. intros Hl. destruct m. split; [done..|]. cbn in *. destruct Hl as [->|Hz]; [by right|congruence]. Qed.
Lemma same_leased m l : same_snapshot m (set_snp_Lease l m).
Proof. by destruct m. Qed.

Lemma AcquireSnapshotLease_effect io owner id holder leaseExpiresAt now w : state_ok (wld_state w) -> texts [holder] -> time_ok (toUTC leaseExpiresAt) ->
  effect (io_save io) none w (AcquireSnapshotLease io owner id holder leaseExpiresAt now w).
Proof.
  intros Hw Ht Hl. apply effect_check; intros _. apply effect_check; intros [Hh Hf]%andb_true_iff. apply effect_find_snapshot. intros m Hm _. apply effect_check; intros Hz. apply effect_check; intros _.
  apply effect_check; intros Hg. cbv zeta. pose proof (sok_snapshots _ Hw id m Hm) as Hok.
  eapply (store_snapshot_effect none io id m); [done|done|by apply untouched_same|done..|apply le_leased; by right|right; apply same_leased|]. apply ok_leased; [done|].
  intros x [= <-]. cbn. apply negb_true_iff, bool_decide_eq_false in Hh. unfold validFutureLease in Hf. rewrite !andb_true_iff, negb_true_iff in Hf.
  assert (Hr : 0 < match snp_Lease m with Some l => sls_Generation l + 1 | None => 1 end <= max_u64).
  { destruct (snp_Lease m) as [l|] eqn:El; [|unfold max_u64; lia]. destruct (sen_lease _ (proj1 Hok) l El) as (_ & Hr & _). unfold u64_range in Hr.
    apply negb_true_iff, Z.eqb_neq in Hg. lia. }
  split_and!; [|done|lia|tauto]. split; [done|]. split; [unfold u64_range; cbn; lia|done].
Qed.

Lemma ReleaseSnapshotLease_effect io owner id generation w : state_ok (wld_state w) -> effect (io_save io) none w (ReleaseSnapshotLease io owner id generation w).
Proof.
  intros Hw. apply effect_check; intros _. apply effect_find_snapshot. intros m Hm _. apply effect_check; intros _.
  eapply (store_snapshot_effect none io id m); [done|done|by apply untouched_same|done..|apply le_leased; by left|right; apply same_leased|].
  apply ok_leased; [|done]. apply (sok_snapshots _ Hw id m Hm).
Qed.

Lemma ok_tombstoned_snapshot id m t : snapshot_ok id m -> time_ok t -> snapshot_ok id (set_snp_TombstonedAt t m).
Proof. intros [[H1 H2 H3 H4 H5] Hv] Ht. destruct m. cbn in *. split; [split; cbn; [done|done| |done|done]|exact Hv]. rewrite !Forall_cons in *. tauto. Qed.

(** ** Payloads *)

Lemma payload_insert id id' x w : payload id (mkWorld (wld_manifests w) (<[id' := x]> (wld_payloads w)) (wld_state w)) = if decide (id' = id) then x else payload id w.
Proof. unfold payload. cbn. destruct (decide (id' = id)) as [->|Hn]; [by rewrite lookup_insert_eq|by rewrite lookup_insert_ne]. Qed.

Lemma untouched_insert (touched : string -> Prop) id x w w1 : touched id -> untouched touched w w1 ->
  untouched touched w (mkWorld (wld_manifests w1) (<[id := x]> (wld_payloads w1)) (wld_state w1)).
Proof. intros Ht Hu id' Hn. rewrite payload_insert. destruct (decide (id = id')) as [->|]; [by destruct Hn|]. by apply Hu. Qed.

Lemma Remove_untouched io id (touched : string -> Prop) w w1 : touched id -> untouched touched w w1 ->
  let x := Remove io id w1 in untouched touched w x.2 /\ wld_manifests x.2 = wld_manifests w1 /\ wld_state x.2 = wld_state w1.
Proof.
  intros Ht Hu. unfold Remove, mbind, M_bind. destruct (slot_now (payload id w1)); [|done]. destruct (io_removed io); [|done]. split_and!; [|done..].
  by apply untouched_insert.
Qed.

Lemma TombstoneSnapshot_effect io owner id now w : state_ok (wld_state w) -> time_ok (toUTC now) ->
  effect (io_save io) (eq id) w (TombstoneSnapshot io owner id now w).
Proof.
  intros Hw Hn. apply effect_check; intros _. apply effect_find_snapshot. intros m Hm _. apply effect_check; intros Hz. apply effect_check; intros _.
  destruct (Remove_untouched io id (eq id) w w eq_refl ltac:(by apply untouched_same)) as (R1 & R2 & R3). unfold mbind at 1, M_bind.
  destruct (Remove io id w) as [[u|e] w1]; cbn [fst snd] in *; [|split; [by left|done]].
  apply (store_snapshot_effect (eq id) io id m); [done|done|done|done|done| |by left|].
  - destruct m. split; cbn in *; [done|congruence|congruence].
  - apply ok_tombstoned_snapshot; [|done]. apply (sok_snapshots _ Hw id m Hm).
Qed.

(** What Stage makes of a content and a nonce. *)
Definition sealed (nonce plain : string) : string := version_byte +:+ nonce +:+ gcm_seal dataKey nonce plain version_byte.
Definition staged (id nonce plain : string) : StagedSnapshot := mkStaged id (sealed nonce plain) (digest plain) (digest (sealed nonce plain)) (len plain).

Lemma Stage_inv io id content w : exists r, Stage config dataKey io id content w = (r, w) /\
  forall stage, r = Ok stage -> exists plain nonce, content = Some plain /\ io_nonce io = Some nonce /\ len plain <= cfg_MaximumSnapshotBytes config /\ stage = staged id nonce plain.
Proof.
  unfold Stage, contextErr, readBounded, encryptSnapshot, guard_or. unfold mbind at 1, M_bind. destruct (io_alive io 1); [|by eexists].
  unfold mret, M_ret, mbind at 1, M_bind. destruct (validOwnerID _ _); [|by eexists]. destruct content as [plain|]; [|by eexists].
  unfold mbind at 1, M_bind, contextErr, guard_or, mbind, M_bind, mret, M_ret. destruct (io_alive io 2); [|by eexists].
  destruct (negb _) eqn:El; [|by eexists]. apply negb_true_iff, Z.ltb_ge in El. destruct (io_nonce io) as [nonce|]; [|by eexists]. cbn [option_bind].
  destruct (io_staged io); [|by eexists]. eexists. split; [reflexivity|]. intros stage [= <-]. by exists plain, nonce.
Qed.

Lemma new_snapshot_ok id nonce plain now m : validConfig config = true -> id = snp_ID m -> len plain <= cfg_MaximumSnapshotBytes config ->
  validNewSnapshot m config now = true -> snapshot_encodable (set_snp_CreatedAt (toUTC now) (copySnapshot m)) -> snp_Lease m = None ->
  snapshot_ok id (new_snapshot (staged id nonce plain) now m).
Proof.
  intros Hc -> Hl Hv [H1 H2 H3 H4 H5] Hn. unfold validConfig in Hc. rewrite !andb_true_iff, Z.leb_le in Hc. destruct m. cbn in *. subst snp_Lease.
  assert (Hd : forall x, utf8 (bytes (digest x))) by (intros x; apply Digest_utf8). assert (He : forall x, digest x <> "") by (intros x; apply Digest_not_empty). split.
  - split; cbn; [| |done|done|done].
    + each. split_and!; solve [done | apply Hd | by apply valid_utf8 | by apply Forall_nil].
    + constructor; [|done]. unfold u64_range, max_u64, len in *. lia.
  - unfold validNewSnapshot in Hv. rewrite !andb_true_iff in Hv. destruct_and!. unfold valid_snapshot. cbn. rewrite validTaint_copy, !andb_true_iff, Z.leb_le.
    rewrite !(bool_decide_eq_false_2 (digest _ = "")) by apply He. rewrite !(bool_decide_eq_true_2 (_ = _)) by done. by split_and!.
Qed.

Lemma payload_sync id f p s : payload id (mkWorld f (sync_slot <$> p) s) = sync_slot (payload id (mkWorld f p s)).
Proof. unfold payload. cbn. rewrite lookup_fmap. by destruct (p !! id). Qed.

(** Publish changes no payload but its own, and on success its own is durable. *)
Lemma Publish_inv io stage (touched : string -> Prop) w : touched (stg_id stage) ->
  let x := Publish io stage w in
  wld_manifests x.2 = wld_manifests w /\ wld_state x.2 = wld_state w /\ untouched touched w x.2 /\
  (x.1 = Ok tt -> payload (stg_id stage) x.2 = mkSlot (Some (stg_ciphertext stage)) [Some (stg_ciphertext stage)]).
Proof.
  intros Ht. unfold Publish, mbind, M_bind. destruct (bool_decide _); [|by split_and!; [| |apply untouched_same|]]. unfold guard_or, mret, M_ret, set_payload, fail.
  destruct (io_publish io).
  - by split_and!; [| |apply untouched_same|].
  - split_and!; [done..| |done]. apply untouched_insert; [done|by apply untouched_same].
  - unfold sync_payloads. cbn [fst snd wld_manifests wld_state]. split_and!; [done..| |].
    + intros id Hn. right. rewrite payload_sync. cbn [wld_payloads]. rewrite payload_insert. destruct (decide _) as [E|]; [|done]. by destruct Hn; rewrite <- E.
    + intros _. rewrite payload_sync. cbn [wld_payloads]. rewrite payload_insert. by rewrite decide_True.
Qed.

Definition creates (m : SnapshotManifest) (w : World) (id : string) : Prop := id = snp_ID m /\ pst_Snaps (wld_state w) !! id = None.

Lemma CreateSnapshot_effect io m content now w : validConfig config = true -> state_ok (wld_state w) ->
  snapshot_encodable (set_snp_CreatedAt (toUTC now) (copySnapshot m)) -> snp_Lease m = None ->
  effect (io_save io) (creates m w) w (CreateSnapshot config dataKey io m content now w).
Proof.
  intros Hc Hw He Hl. apply effect_check; intros _. apply effect_check; intros Hv. apply effect_check; intros _. unfold mbind at 1, M_bind.
  destruct (Stage_inv io (snp_ID m) content w) as (r & -> & Hr). destruct r as [stage|e]; [|apply effect_same].
  destruct (Hr stage eq_refl) as (plain & nonce & -> & _ & Hlen & ->). clear Hr. cbv zeta.
  set (m' := new_snapshot (staged (snp_ID m) nonce plain) now m). assert (Eid : snp_ID m' = snp_ID m) by (by destruct m).
  assert (Hok : snapshot_ok (snp_ID m') m') by (rewrite Eid; by apply new_snapshot_ok). clearbody m'. rewrite Eid in *.
  apply effect_state. apply effect_check; intros Hn%bool_decide_eq_true.
  assert (Ht : creates m w (stg_id (staged (snp_ID m) nonce plain))) by done. destruct (Publish_inv io _ (creates m w) w Ht) as (P1 & P2 & P3 & _). unfold mbind at 1, M_bind.
  destruct (Publish io _ w) as [[u|e] w1]; cbn [fst snd] in *; [|split; [by left|done]].
  apply effect_saved_or; [done|done|by apply ok_put_snapshot| | |].
  - apply le_put_snapshot. congruence.
  - apply kept_put_snapshot. congruence.
  - intros w2 Hu. unfold ignored, mbind, M_bind, set_state. cbn [fst snd].
    destruct (Remove_untouched io (snp_ID m) (creates m w) w (mkWorld (wld_manifests w2) (wld_payloads w2) (wld_state w)) Ht Hu) as (R1 & R2 & R3). by split_and!.
Qed.
End calls.
