(* ===== verification/ResourceRuns.v ===== *)
(** * The sandbox resource store: runs

    Any sequence of calls of the store, whatever the end of their system calls, interrupted
    by deaths of the process and losses of power.  A statement about the manifests that
    every call keeps, and that is on the disk, holds from then on ([runs_above]); a snapshot
    whose creation succeeded stays in its place until it is tombstoned ([run_pinned]). *)

From stdpp Require Import gmap sorting.
From Stdlib Require Import Ascii String.
From S2P Require Import Prelude DurableFiles GoString Sha256 GoTime GoJson GoJsonText JsonFacts JsonStrings JsonValues AesGcm GoDecode DecodeFacts TimeText DigestFacts ResourceManifests ResourceStore ResourceFacts.

Open Scope Z_scope.

(** The calls of a store. *)
Inductive store_call : Type :=
| CallCreateVolume (volume : VolumeManifest)
| CallGetVolume (owner id : string)
| CallAttachVolume (owner id sandboxID mode : string) (leaseExpiresAt now : Time)
| CallDetachVolume (owner id : string) (generation : Z) (now : Time)
| CallReconcile (now : Time)
| CallTombstoneVolume (owner id : string) (generation : Z) (now : Time)
| CallMarkVolumeTainted (owner id : string) (taint : Taint) (now : Time)
| CallAcquireMount (lease : MountLease) (now : Time)
| CallValidateMountLease (owner id : string) (generation : Z) (observed : SourceIdentity) (now : Time)
| CallReleaseMount (owner id : string) (generation : Z) (now : Time)
| CallCreateSnapshot (manifest : SnapshotManifest) (content : option string) (now : Time)
| CallOpenSnapshot (owner id : string)
| CallAcquireSnapshotLease (owner id holder : string) (leaseExpiresAt now : Time)
| CallReleaseSnapshotLease (owner id : string) (generation : Z)
| CallRestoreSnapshot (request : SnapshotRestoreRequest) (sink : SnapshotManifest -> string -> bool) (now : Time)
| CallTombstoneSnapshot (owner id : string) (now : Time).

Section runs.
Context (config : Config) (dataKey directory : string).

Definition perform (io : IO) (c : store_call) : M World StoreError unit :=
  match c with
  | CallCreateVolume v => CreateVolume config io v;; mret tt
  | CallGetVolume owner id => GetVolume io owner id;; mret tt
  | CallAttachVolume owner id sandboxID mode expires now => AttachVolume io owner id sandboxID mode expires now;; mret tt
  | CallDetachVolume owner id generation now => DetachVolume io owner id generation now;; mret tt
  | CallReconcile now => ReconcileExpiredAttachments io now;; mret tt
  | CallTombstoneVolume owner id generation now => TombstoneVolume io owner id generation now;; mret tt
  | CallMarkVolumeTainted owner id taint now => MarkVolumeTainted io owner id taint now;; mret tt
  | CallAcquireMount lease now => AcquireMount io lease now;; mret tt
  | CallValidateMountLease owner id generation observed now => ValidateMountLease io owner id generation observed now
  | CallReleaseMount owner id generation now => ReleaseMount io owner id generation now;; mret tt
  | CallCreateSnapshot m content now => CreateSnapshot config dataKey io m content now;; mret tt
  | CallOpenSnapshot owner id => OpenSnapshot dataKey io owner id;; mret tt
  | CallAcquireSnapshotLease owner id holder expires now => AcquireSnapshotLease io owner id holder expires now;; mret tt
  | CallReleaseSnapshotLease owner id generation => ReleaseSnapshotLease io owner id generation;; mret tt
  | CallRestoreSnapshot request sink now => RestoreSnapshot dataKey io request sink now;; mret tt
  | CallTombstoneSnapshot owner id now => TombstoneSnapshot io owner id now;; mret tt
  end.

(** What the callers have to respect, a condition of the theorems that the code does not
    check: texts are UTF-8, numbers fit their types and times have a year that JSON can write;
    a new volume is not attached and a new snapshot not leased; a volume is attached less
    than 2^64 times and has at most 64 items of provenance. *)
Definition call_ok (c : store_call) (w : World) : Prop :=
  match c with
  | CallCreateVolume v => volume_encodable (new_volume v) /\ vol_Attachment v = None
  | CallAttachVolume _ id sandboxID _ expires now => texts [sandboxID] /\ time_ok (toUTC expires) /\ time_ok (toUTC now) /\
      forall v, pst_Volumes (wld_state w) !! id = Some v -> vol_Generation v < max_u64
  | CallDetachVolume _ _ _ now | CallReconcile now | CallTombstoneVolume _ _ _ now | CallReleaseMount _ _ _ now | CallTombstoneSnapshot _ _ now => time_ok (toUTC now)
  | CallMarkVolumeTainted _ id taint now => time_ok (toUTC now) /\ taint_encodable taint /\
      forall v, pst_Volumes (wld_state w) !! id = Some v -> Z.of_nat (length (provenance (vol_Taint v) ++ provenance taint)) <= 64
  | CallAcquireMount l now => mount_encodable (set_mnt_LeaseExpiresAt (toUTC (mnt_LeaseExpiresAt l)) l)
  | CallCreateSnapshot m _ now => snapshot_encodable (set_snp_CreatedAt (toUTC now) (copySnapshot m)) /\ snp_Lease m = None
  | CallAcquireSnapshotLease _ _ holder expires _ => texts [holder] /\ time_ok (toUTC expires)
  | _ => True
  end.

(** The nonce is read in full. *)
Definition io_ok (io : IO) : Prop := forall nonce, io_nonce io = Some nonce -> len nonce = NonceSize.

(** The payloads whose state a call may change. *)
Definition touches (c : store_call) (w : World) : string -> Prop :=
  match c with
  | CallCreateSnapshot m _ _ => creates m w
  | CallTombstoneSnapshot _ id _ => eq id
  | _ => none
  end.

(** What a loss of power may leave of the payloads. *)
Definition survive (w : World) (payloads : gmap string Slot) : Prop :=
  forall id, exists content, content ∈ slot_may (payload id w) /\ default no_file (payloads !! id) = mkSlot content [content].

(** A step: a call that is [allowed], a new process, or a new process after a loss of power. *)
Inductive sstep (allowed : store_call -> Prop) (w : World) : World -> Prop :=
| step_perform io c : io_ok io -> allowed c -> call_ok c w -> sstep allowed w (perform io c w).2
| step_reopen w' : Open config dataKey directory true true (wld_manifests w) (wld_payloads w) = Ok w' -> sstep allowed w w'
| step_lose content payloads w' : content ∈ slot_may (wld_manifests w) -> survive w payloads ->
    Open config dataKey directory true true (mkSlot content [content]) payloads = Ok w' -> sstep allowed w w'.

Definition any (_ : store_call) : Prop := True.

(** The store opened in an empty directory. *)
Definition new_store : World := mkWorld no_file ∅ emptyState.
Definition stored (w : World) : Prop := rtc (sstep any) new_store w.

Context (Hconfig : validConfig config = true) (Hkey : len dataKey = 32) (Hdirectory : directory <> "").

(** ** Calls *)

Lemma effect_done {A} io touched w (op : M World StoreError A) : effect config io touched w (op w) -> effect config io touched w ((op;; mret tt) w).
Proof. unfold mbind, M_bind. by destruct (op w) as [[a|e] w']. Qed.

Lemma effect_read {A} io w (op : M World StoreError A) : (op w).2 = w -> effect config io none w (op w).
Proof. destruct (op w) as [r w']. cbn. intros ->. apply effect_same. Qed.

Lemma read_find_volume {A} owner id w (k : VolumeManifest -> M World StoreError A) : (forall v, (k v w).2 = w) -> ((find_volume owner id ≫= k) w).2 = w.
Proof. intros H. unfold find_volume, mbind, M_bind, state. destruct (_ !! id); [|done]. case_bool_decide; [apply H|done]. Qed.
Lemma read_find_mount {A} owner id w (k : MountLease -> M World StoreError A) : (forall v, (k v w).2 = w) -> ((find_mount owner id ≫= k) w).2 = w.
Proof. intros H. unfold find_mount, mbind, M_bind, state. destruct (_ !! id); [|done]. case_bool_decide; [apply H|done]. Qed.
Lemma read_find_snapshot {A} owner id w (k : SnapshotManifest -> M World StoreError A) : (forall v, (k v w).2 = w) -> ((find_snapshot owner id ≫= k) w).2 = w.
Proof. intros H. unfold find_snapshot, mbind, M_bind, state. destruct (_ !! id); [|done]. case_bool_decide; [apply H|done]. Qed.
Lemma read_guard {A} e b w (k : unit -> M World StoreError A) : (k tt w).2 = w -> ((guard_or e b ≫= k) w).2 = w.
Proof. unfold mbind, M_bind, guard_or. by destruct b. Qed.

Lemma OpenPayload_reads io id m w : (OpenPayload dataKey io id m w).2 = w.
Proof.
  apply read_guard. unfold mbind, M_bind. destruct (slot_now _); [|done]. apply read_guard, read_guard. destruct (decryptSnapshot _ _); [|done]. by apply read_guard.
Qed.

Lemma read_payload {A} io id m w (k : string -> M World StoreError A) : (forall x, (k x w).2 = w) -> ((OpenPayload dataKey io id m ≫= k) w).2 = w.
Proof. intros H. unfold mbind, M_bind. pose proof (OpenPayload_reads io id m w) as E. destruct (OpenPayload _ _ _ _ _) as [[x|] w']; cbn in E; subst w'; [apply H|done]. Qed.

Lemma perform_effect io c w : state_ok config (wld_state w) -> call_ok c w -> effect config (io_save io) (touches c w) w (perform io c w).
Proof.
  intros Hw Hc. destruct c; cbn [perform touches call_ok] in *; try apply effect_done; destruct_and?.
  - by apply CreateVolume_effect.
  - apply effect_read, read_guard, read_find_volume. intros v. by apply read_guard.
  - by apply AttachVolume_effect.
  - by apply DetachVolume_effect.
  - by apply Reconcile_effect.
  - by apply TombstoneVolume_effect.
  - by apply MarkVolumeTainted_effect.
  - by apply AcquireMount_effect.
  - apply effect_read, read_guard, read_find_mount. intros l. apply read_guard. unfold guard_or. by destruct (_ ≟ _).
  - by apply ReleaseMount_effect.
  - by apply CreateSnapshot_effect.
  - apply effect_read, read_guard, read_find_snapshot. intros m. by apply read_guard, read_payload.
  - by apply AcquireSnapshotLease_effect.
  - by apply ReleaseSnapshotLease_effect.
  - apply effect_read. do 2 apply read_guard. apply read_find_snapshot. intros m. do 3 apply read_guard. apply read_payload. intros x. by do 2 apply read_guard.
  - by apply TombstoneSnapshot_effect.
Qed.

(** ** What is on the disk *)

(** A content of the state file that is read back as a state with [P]. *)
Definition keeps (P : persistentState -> Prop) (content : option string) : Prop :=
  match content with
  | None => P emptyState
  | Some text => exists s, marshal (json_state s) = Some text /\ state_ok config s /\ P s
  end.

(** [P] holds of the open store, and of what every later process may find. *)
Record above (P : persistentState -> Prop) (w : World) : Prop := mkAbove {
  abv_ok : state_ok config (wld_state w);
  abv_memory : P (wld_state w);
  abv_visible : slot_now (wld_manifests w) ∈ slot_may (wld_manifests w);
  abv_disk : Forall (keeps P) (slot_may (wld_manifests w))
}.

Lemma keeps_impl (P Q : persistentState -> Prop) content : (forall s, P s -> Q s) -> keeps P content -> keeps Q content.
Proof. intros H. destruct content as [text|]; cbn; [|apply H]. intros (s & H1 & H2 & H3). eauto. Qed.

Lemma above_impl (P Q : persistentState -> Prop) w : (forall s, P s -> Q s) -> above P w -> above Q w.
Proof. intros H [A1 A2 A3 A4]. split; [done|by apply H|done|]. eapply Forall_impl; [exact A4|]. intros content. by apply keeps_impl. Qed.

(** A state file that keeps [P] is opened, and its state has [P]. *)
Lemma reopen_keeps P manifests payloads : keeps P (slot_now manifests) ->
  exists s, Open config dataKey directory true true manifests payloads = Ok (mkWorld manifests payloads s) /\ state_ok config s /\ P s.
Proof.
  intros Hk. unfold Open. rewrite (bool_decide_eq_false_2 (directory = "")), Hconfig, Hkey by done. cbn [orb negb Z.eqb Pos.eqb].
  unfold readState. destruct (slot_now manifests) as [text|]; cbn [keeps] in Hk.
  - destruct Hk as (s & Ht & Hok & HP). destruct (decode_encoded s (ok_encodable config s Hok)) as (text' & E & Ed). rewrite Ht in E. injection E as <-.
    cbn [negb]. rewrite Ed, (ok_valid config s Hok). by exists s.
  - exists emptyState. split_and!; [done|apply ok_empty|done].
Qed.

(** A call keeps what its effect keeps; what it has saved is on the disk. *)
Lemma effect_keeps_above {A} (P : persistentState -> Prop) io touched w (x : res StoreError A * World) :
  (forall s, state_le (wld_state w) s -> kept touched (wld_state w) s -> P s) -> above P w -> effect config io touched w x -> above P x.2.
Proof.
  intros HP [A1 A2 A3 A4] [[[E1 E2]|(s & Hok & Hle & Hk & text & Ht & Em & Es & _)] _].
  - split; by rewrite ?E1, ?E2.
  - assert (Hs : keeps P (Some text)) by (exists s; eauto). split.
    + by destruct Es as [->| ->].
    + destruct Es as [->| ->]; [by apply HP|done].
    + rewrite Em. destruct io; cbn; [done|by apply list_elem_of_here|by apply list_elem_of_here].
    + rewrite Em. destruct io; cbn; [done|by constructor|by constructor].
Qed.

Lemma effect_stored {A} (P : persistentState -> Prop) io touched w (x : res StoreError A * World) : effect config io touched w x ->
  (match x.1 with Ok _ => true | Err _ => false end) = true -> wld_state x.2 <> wld_state w -> P (wld_state x.2) -> above P x.2.
Proof.
  intros [[[_ E]|(s & Hok & _ & _ & text & Ht & Em & _ & Hd)] _] Hx Hne HP; [by destruct Hne|].
  destruct x as [[a|e] w']; [|done]. destruct (Hd eq_refl) as [-> E]. cbn in *. subst s. split; [done..| |]; rewrite Em; cbn.
  - by apply list_elem_of_singleton.
  - apply Forall_singleton. by exists (wld_state w').
Qed.

(** What calls that are allowed keep, runs keep. *)
Lemma sstep_above allowed (P : persistentState -> Prop) w w' :
  (forall c w s, allowed c -> P (wld_state w) -> state_le (wld_state w) s -> kept (touches c w) (wld_state w) s -> P s) ->
  above P w -> sstep allowed w w' -> above P w'.
Proof.
  intros HP Ha Hs. destruct Hs as [io c _ Hc Hok|w' Ho|content payloads w' Hin _ Ho].
  - eapply effect_keeps_above; [|exact Ha|apply perform_effect, Hok; apply Ha]. intros s. apply (HP c w s Hc), Ha.
  - destruct Ha as [_ _ A3 A4]. destruct (reopen_keeps P (wld_manifests w) (wld_payloads w)) as (s & E & H1 & H2); [by eapply Forall_forall|].
    rewrite E in Ho. injection Ho as <-. by split.
  - destruct Ha as [_ _ A3 A4]. assert (Hk : keeps P content) by (by eapply Forall_forall).
    destruct (reopen_keeps P (mkSlot content [content]) payloads) as (s & E & H1 & H2); [done|].
    rewrite E in Ho. injection Ho as <-. split; cbn; [done..|by apply list_elem_of_singleton|by apply Forall_singleton].
Qed.

Lemma runs_above allowed (P : persistentState -> Prop) w w' :
  (forall c w s, allowed c -> P (wld_state w) -> state_le (wld_state w) s -> kept (touches c w) (wld_state w) s -> P s) ->
  above P w -> rtc (sstep allowed) w w' -> above P w'.
Proof. intros HP Ha Hr. revert Ha. induction Hr as [|w w1 w2 Hs _ IH]; [done|]. intros Ha. by eapply IH, sstep_above. Qed.

(** The order of the manifests is kept by every run. *)
Lemma run_le m w w' : above (state_le m) w -> rtc (sstep any) w w' -> above (state_le m) w'.
Proof. apply runs_above. intros c w0 s _ H1 H2 _. by etrans. Qed.

Lemma state_le_empty s : state_le emptyState s.
Proof. split; apply map_le_empty. Qed.

Lemma new_store_above : above (state_le emptyState) new_store.
Proof. split; cbn; [apply ok_empty|done|by apply list_elem_of_singleton|]. apply Forall_singleton. cbn. done. Qed.

Lemma stored_above w : stored w -> above (state_le emptyState) w.
Proof. apply run_le, new_store_above. Qed.

Lemma stored_ok w : stored w -> state_ok config (wld_state w).
Proof. intros H. apply (abv_ok _ _ (stored_above w H)). Qed.

(** What a call has saved is never taken back. *)
Lemma perform_lasting io c w w' later : stored w -> call_ok c w -> perform io c w = (Ok tt, w') -> wld_state w' <> wld_state w ->
  rtc (sstep any) w' later -> state_le (wld_state w') (wld_state later) /\ state_ok config (wld_state later).
Proof.
  intros Hw Hc E Hne Hr. pose proof (perform_effect io c w (stored_ok w Hw) Hc) as He. rewrite E in He.
  assert (Ha : above (state_le (wld_state w')) w') by (apply (effect_stored _ _ _ _ (Ok tt, w') He eq_refl Hne); reflexivity).
  pose proof (run_le _ _ _ Ha Hr) as [H1 H2 _ _]. done.
Qed.

(** ** Snapshots *)

Lemma take_bytes_app p x n : String.length p = n -> take_bytes n (p +:+ x) = p.
Proof. intros <-. unfold take_bytes. by rewrite bytes_app, <- length_bytes, take_app_length, of_bytes_bytes. Qed.
Lemma drop_bytes_add a b s : drop_bytes (a + b) s = drop_bytes b (drop_bytes a s).
Proof. revert s. induction a as [|a IH]; intros s; [by destruct s|]. destruct s; cbn; [by destruct b|apply IH]. Qed.
Lemma drop_bytes_prefix p x n : String.length p = n -> drop_bytes n (p +:+ x) = x.
Proof. intros <-. induction p as [|c p IH]; [by destruct x|exact IH]. Qed.

Lemma sealed_length nonce plain aad : (16 <= String.length (gcm_seal dataKey nonce plain aad))%nat.
Proof.
  rewrite <- length_bytes. unfold gcm_seal. cbv zeta. pose proof (gcm_ctr_ok dataKey nonce Hkey _ (bytes_ok_bytes plain)) as Hc. revert Hc.
  generalize (gcm_ctr (bytes dataKey) (bytes nonce) (bytes plain)). intros c Hc. destruct (gcm_tag_ok dataKey nonce Hkey c (bytes aad)) as [T1 T2].
  assert (Hs : bytes_ok (c ++ gcm_tag (bytes dataKey) (bytes nonce) c (bytes aad))) by (apply Forall_app; exact (conj Hc T1)).
  rewrite (bytes_ok_read _ Hs), length_app, T2. lia.
Qed.

Lemma decrypt_sealed nonce plain : len nonce = NonceSize -> decryptSnapshot dataKey (sealed dataKey nonce plain) = Ok plain.
Proof.
  intros Hn. unfold decryptSnapshot, sealed. assert (Hl : String.length nonce = 12%nat) by (unfold len, NonceSize in Hn; lia).
  assert (Hv : String.length version_byte = 1%nat) by reflexivity. pose proof (sealed_length nonce plain version_byte) as Hs.
  rewrite (take_bytes_app version_byte), (drop_bytes_prefix version_byte), (drop_bytes_add 1 12), (drop_bytes_prefix version_byte), (take_bytes_app nonce), (drop_bytes_prefix nonce) by done.
  rewrite (bool_decide_eq_true_2 (version_byte = version_byte)), open_seal by done. rewrite (proj2 (Z.ltb_ge _ _)); [done|].
  unfold len. rewrite <- length_bytes, !bytes_app, !length_app, !length_bytes. unfold NonceSize, Overhead. lia.
Qed.

(** The snapshot with any lease, under its name. *)
Definition held (id : string) (m : SnapshotManifest) (s : persistentState) : Prop := exists m', pst_Snaps s !! id = Some m' /\ same_snapshot m m'.

(** The manifest and the payload are there, now and after a loss of power. *)
Definition pinned (id : string) (m : SnapshotManifest) (content : string) (w : World) : Prop :=
  above (held id m) w /\ payload id w = mkSlot (Some content) [Some content].

(** The snapshot is not tombstoned. *)
Definition spares (id : string) (c : store_call) : Prop := match c with CallTombstoneSnapshot _ i _ => i <> id | _ => True end.

Lemma spared id m c w : spares id c -> held id m (wld_state w) -> ~ touches c w id.
Proof. intros Hs (m' & Hm & _) Ht. destruct c; cbn in *; try done. destruct Ht as [_ Ht]. by rewrite Hm in Ht. Qed.

Lemma same_snapshot_trans a b c : same_snapshot a b -> same_snapshot b c -> same_snapshot a c.
Proof. unfold same_snapshot. intros -> ->. by destruct a. Qed.

Lemma held_kept id m c w s : spares id c -> held id m (wld_state w) -> kept (touches c w) (wld_state w) s -> held id m s.
Proof.
  intros Hs Hh Hk. pose proof (spared id m c w Hs Hh) as Hn. destruct Hh as (m' & Hm & E). destruct (Hk id m' Hn Hm) as (m2 & H2 & E2).
  exists m2. split; [done|]. by eapply same_snapshot_trans.
Qed.

Lemma Open_payloads manifests payloads w : Open config dataKey directory true true manifests payloads = Ok w -> wld_payloads w = payloads.
Proof.
  unfold Open. destruct (_ || _); [done|]. cbn [negb]. destruct (readState _ _) as [s|]; [|done]. destruct (validState s config); [|done]. by intros [= <-].
Qed.

Lemma step_pinned id m content w w' : pinned id m content w -> sstep (spares id) w w' -> pinned id m content w'.
Proof.
  intros [Ha Hp] Hs. split.
  - eapply sstep_above; [|exact Ha|exact Hs]. intros c w0 s Hc Hh _. by apply held_kept.
  - destruct Hs as [io c _ Hc Hok|w' Ho|text payloads w' Hin Hsv Ho].
    + destruct (perform_effect io c w (abv_ok _ _ Ha) Hok) as [_ Hu].
      destruct (Hu id (spared id m c w Hc (abv_memory _ _ Ha))) as [->| ->]; by rewrite Hp.
    + unfold payload. by rewrite (Open_payloads _ _ _ Ho).
    + destruct (Hsv id) as (c & Hc & E). rewrite Hp in Hc. apply list_elem_of_singleton in Hc as ->. unfold payload. by rewrite (Open_payloads _ _ _ Ho).
Qed.

Lemma run_pinned id m content w w' : pinned id m content w -> rtc (sstep (spares id)) w w' -> pinned id m content w'.
Proof. intros Ha Hr. revert Ha. induction Hr as [|w w1 w2 Hs _ IH]; [done|]. intros Ha. by eapply IH, step_pinned. Qed.

(** A creation that succeeds. *)
Lemma CreateSnapshot_created io m content now w m' w' : CreateSnapshot config dataKey io m content now w = (Ok m', w') ->
  exists plain nonce, let m1 := new_snapshot (staged dataKey (snp_ID m) nonce plain) now m in
    content = Some plain /\ io_nonce io = Some nonce /\ m' = copySnapshot m1 /\ pst_Snaps (wld_state w) !! snp_ID m = None /\
    wld_state w' = put_snapshot (snp_ID m) m1 (wld_state w) /\
    payload (snp_ID m) w' = mkSlot (Some (sealed dataKey nonce plain)) [Some (sealed dataKey nonce plain)].
Proof.
  intros (u & w0 & [_ <-]%guard_Ok & H)%bind_Ok. apply bind_Ok in H as (u1 & w0 & [_ <-]%guard_Ok & H). apply bind_Ok in H as (u2 & w0 & [_ <-]%guard_Ok & H).
  apply bind_Ok in H as (stage & w0 & Hst & H). destruct (Stage_inv config dataKey io (snp_ID m) content w) as (r & E & Hr). rewrite E in Hst. injection Hst as -> <-.
  destruct (Hr stage eq_refl) as (plain & nonce & -> & Hn & _ & ->). exists plain, nonce. cbv zeta in *. set (m1 := new_snapshot (staged dataKey (snp_ID m) nonce plain) now m) in *.
  assert (Eid : snp_ID m1 = snp_ID m) by (by destruct m). clearbody m1. rewrite Eid in H.
  apply bind_Ok in H as (s & w0 & [= <- <-] & H). apply bind_Ok in H as (u3 & w0 & [Hf%bool_decide_eq_true <-]%guard_Ok & H).
  apply bind_Ok in H as ([] & w1 & Hp & H). destruct (Publish_inv io (staged dataKey (snp_ID m) nonce plain) (eq (snp_ID m)) w eq_refl) as (P1 & P2 & _ & P4).
  rewrite Hp in P1, P2, P4. cbn [fst snd] in *. apply bind_Ok in H as (u4 & w2 & [= _ <-] & H). apply bind_Ok in H as (u5 & w3 & Hs & [= <- <-]).
  unfold save_or, saveLocked in Hs. destruct (marshal _); [|done]. destruct (io_save io); try done. injection Hs as _ <-. split_and!; try done. exact (P4 eq_refl).
Qed.

Lemma create_pinned io m content now w m' w' : stored w -> io_ok io -> call_ok (CallCreateSnapshot m content now) w ->
  CreateSnapshot config dataKey io m content now w = (Ok m', w') ->
  exists plain nonce, content = Some plain /\ len nonce = NonceSize /\ m' = copySnapshot m' /\
    (snp_PlaintextDigest m', snp_CiphertextDigest m', snp_SizeBytes m') = (digest plain, digest (sealed dataKey nonce plain), len plain) /\
    pinned (snp_ID m) m' (sealed dataKey nonce plain) w'.
Proof.
  intros Hw Hio Hc E. destruct (CreateSnapshot_created io m content now w m' w' E) as (plain & nonce & -> & Hn & -> & H0 & Hs & Hp).
  exists plain, nonce. assert (E1 : copySnapshot (new_snapshot (staged dataKey (snp_ID m) nonce plain) now m) = new_snapshot (staged dataKey (snp_ID m) nonce plain) now m).
  { destruct m as [? ? ? ? ? ? ? ? ? ? ? ? ? ? ? ? [? ? [[|]|]] ? ? ?]; reflexivity. }
  rewrite !E1. split_and!; [done|by apply Hio|done|by destruct m|]. split; [|done].
  pose proof (perform_effect io (CallCreateSnapshot m (Some plain) now) w (stored_ok w Hw) Hc) as He. cbn [perform] in He. unfold mbind, M_bind in He. rewrite E in He.
  apply (effect_stored _ _ _ _ (Ok tt, w') He eq_refl); cbn [snd]; rewrite Hs.
  - intros Ec. apply (f_equal (fun s => pst_Snaps s !! snp_ID m)) in Ec. cbn in Ec. by rewrite lookup_insert_eq, H0 in Ec.
  - eexists. cbn. rewrite lookup_insert_eq. split; [done|]. apply same_snapshot_refl.
Qed.
End runs.
