(* ===== verification/ResourceTheorems.v ===== *)
(** * The sandbox resource store: theorems

    Over any run of the store, with deaths of the process and losses of power: a snapshot is
    returned as it was stored ([snapshot_restored]); attachments of a volume and leases of a
    mount are fenced by their generations ([attachments_fenced], [mounts_fenced]); what is
    tombstoned stays so ([tombstones_final]); and the store opens again ([store_recovers]).
    The calls of a run respect the conditions of [call_ok]. *)

From stdpp Require Import gmap sorting.
From Stdlib Require Import Ascii String.
From S2P Require Import Prelude DurableFiles GoString Sha256 GoTime GoJson GoJsonText JsonFacts JsonStrings JsonValues AesGcm GoDecode DecodeFacts TimeText DigestFacts ResourceManifests ResourceStore ResourceFacts ResourceRuns.

Open Scope Z_scope.

(** ** Calls that succeed *)

Notation R := (M World StoreError).

(** The next check of a call that succeeded. *)
Ltac passed H Hb := apply bind_Ok in H as (? & ? & [Hb <-]%guard_Ok & H).

Lemma find_volume_Ok {A} owner id w (k : VolumeManifest -> R A) a w' : (find_volume owner id ≫= k) w = (Ok a, w') ->
  exists v, pst_Volumes (wld_state w) !! id = Some v /\ vol_Owner v = owner /\ k v w = (Ok a, w').
Proof. unfold find_volume, mbind, M_bind, state. destruct (_ !! id) as [v|]; [|done]. case_bool_decide; [|done]. intros H1. by exists v. Qed.
Lemma find_mount_Ok {A} owner id w (k : MountLease -> R A) a w' : (find_mount owner id ≫= k) w = (Ok a, w') ->
  exists l, pst_Mounts (wld_state w) !! id = Some l /\ mnt_Owner l = owner /\ k l w = (Ok a, w').
Proof. unfold find_mount, mbind, M_bind, state. destruct (_ !! id) as [v|]; [|done]. case_bool_decide; [|done]. intros H1. by exists v. Qed.
Lemma find_snapshot_Ok {A} owner id w (k : SnapshotManifest -> R A) a w' : (find_snapshot owner id ≫= k) w = (Ok a, w') ->
  exists m, pst_Snaps (wld_state w) !! id = Some m /\ snp_Owner m = owner /\ k m w = (Ok a, w').
Proof. unfold find_snapshot, mbind, M_bind, state. destruct (_ !! id) as [v|]; [|done]. case_bool_decide; [|done]. intros H1. by exists v. Qed.

Lemma saved_Ok {A} io s (a b : A) w w' : (set_state s;; saveLocked io;; mret a) w = (Ok b, w') -> b = a /\ wld_state w' = s.
Proof.
  unfold mbind, M_bind, set_state, saveLocked. destruct (marshal _); [|done]. destruct io; try done. by intros [= <- <-].
Qed.

Lemma store_volume_Ok io id v w r w' : store_volume io id v w = (Ok r, w') -> r = copyVolume v /\ wld_state w' = put_volume id v (wld_state w).
Proof. intros (s & ? & [= <- <-] & H)%bind_Ok. by apply saved_Ok in H. Qed.
Lemma store_mount_Ok io id l w r w' : store_mount io id l w = (Ok r, w') -> r = l /\ wld_state w' = put_mount id l (wld_state w).
Proof. intros (s & ? & [= <- <-] & H)%bind_Ok. by apply saved_Ok in H. Qed.
Lemma store_snapshot_Ok io id m w r w' : store_snapshot io id m w = (Ok r, w') -> r = copySnapshot m /\ wld_state w' = put_snapshot id m (wld_state w).
Proof. intros (s & ? & [= <- <-] & H)%bind_Ok. by apply saved_Ok in H. Qed.

Lemma AttachVolume_Ok io owner id sandboxID mode expires now w v w' : AttachVolume io owner id sandboxID mode expires now w = (Ok v, w') ->
  exists v0 v1, pst_Volumes (wld_state w) !! id = Some v0 /\ IsZero (vol_TombstonedAt v0) = true /\
    vol_Generation v1 = u64 (vol_Generation v0 + 1) /\ v = copyVolume v1 /\ wld_state w' = put_volume id v1 (wld_state w).
Proof.
  intros H. passed H Hb. passed H Hb1. apply find_volume_Ok in H as (v0 & H0 & _ & H). passed H Hz. passed H Ha.
  cbv zeta in H. apply store_volume_Ok in H as [-> Hs]. eexists v0, _. split_and!; [done..| |reflexivity|exact Hs]. by destruct v0.
Qed.

Lemma DetachVolume_Ok io owner id generation now w v w' : DetachVolume io owner id generation now w = (Ok v, w') ->
  exists v0 a, pst_Volumes (wld_state w) !! id = Some v0 /\ vol_Attachment v0 = Some a /\ att_Generation a = generation.
Proof.
  intros H. passed H Hb. apply find_volume_Ok in H as (v0 & H0 & _ & H). passed H Ha. exists v0. destruct (vol_Attachment v0) as [a|]; [|done].
  exists a. apply andb_true_iff in Ha as [_ Ha%Z.eqb_eq]. done.
Qed.

Lemma TombstoneVolume_Ok io owner id generation now w v w' : TombstoneVolume io owner id generation now w = (Ok v, w') ->
  exists v0 v1, pst_Volumes (wld_state w) !! id = Some v0 /\ IsZero (vol_TombstonedAt v0) = true /\
    vol_TombstonedAt v1 = toUTC now /\ vol_Attachment v1 = None /\ wld_state w' = put_volume id v1 (wld_state w).
Proof.
  intros H. passed H Hb. apply find_volume_Ok in H as (v0 & H0 & _ & H). passed H Ha. passed H Hg. passed H Hz.
  apply bool_decide_eq_true in Ha. cbv zeta in H. apply store_volume_Ok in H as [_ Hs]. eexists v0, _. split_and!; [done..| | |exact Hs]; by destruct v0.
Qed.

Lemma MarkVolumeTainted_Ok io owner id taint now w v w' : MarkVolumeTainted io owner id taint now w = (Ok v, w') ->
  exists v0, pst_Volumes (wld_state w) !! id = Some v0 /\ vol_TombstonedAt v = vol_TombstonedAt v0 /\ vol_Attachment v = vol_Attachment v0.
Proof.
  intros H. passed H Hb. passed H Ht. apply find_volume_Ok in H as (v0 & H0 & _ & H). apply store_volume_Ok in H as [-> _].
  exists v0. split; [done|]. by destruct v0.
Qed.

(** What the reconciliation returns are volumes of the state whose attachment has expired. *)
Lemma Reconcile_Ok io now w vs w' : ReconcileExpiredAttachments io now w = (Ok vs, w') -> forall v, v ∈ vs ->
  exists id v0, pst_Volumes (wld_state w) !! id = Some v0 /\ vol_ID v = vol_ID v0 /\ vol_Attachment v0 <> None.
Proof.
  intros H v Hv. passed H Hb. apply bind_Ok in H as (s & ? & [= <- <-] & H). cbv zeta in H. apply bind_Ok in H as ([] & w1 & _ & H).
  apply bind_Ok in H as ([] & w2 & _ & [= <- _]). rewrite merge_sort_Permutation, list_elem_of_fmap in Hv. destruct Hv as ([id v0] & -> & Hin).
  apply list_elem_of_In, filter_In in Hin as [Hin%list_elem_of_In%elem_of_map_to_list He]. exists id, v0. cbn in *. split; [done|]. unfold reconciled. rewrite He.
  unfold expired_attachment in He. destruct v0 as [? ? ? ? ? ? ? ? ? ? ? ? [a|] ? ?]; cbn in *; done.
Qed.

Lemma ReleaseSnapshotLease_Ok io owner id generation w m w' : ReleaseSnapshotLease io owner id generation w = (Ok m, w') ->
  exists m0, pst_Snaps (wld_state w) !! id = Some m0 /\ snp_Lease m0 <> None.
Proof.
  intros H. passed H Hb. apply find_snapshot_Ok in H as (m0 & H0 & _ & H). passed H Hl. exists m0. split; [done|]. by destruct (snp_Lease m0).
Qed.

Lemma AcquireMount_Ok io lease now w l w' : AcquireMount io lease now w = (Ok l, w') ->
  mnt_Owner l = mnt_Owner lease /\ mnt_Source l = mnt_Source lease /\
  (forall p, pst_Mounts (wld_state w) !! mnt_ID lease = Some p -> mnt_Generation p < mnt_Generation l) /\ wld_state w' = put_mount (mnt_ID lease) l (wld_state w).
Proof.
  intros H. passed H Hb. passed H Hv. apply bind_Ok in H as (s & ? & [= <- <-] & H). passed H Hr. passed H Hm.
  cbv zeta in H. apply store_mount_Ok in H as [-> Hs]. split_and!; [by destruct lease..| |exact Hs]. intros p Hp. rewrite Hp. destruct lease. cbn. lia.
Qed.

Lemma ReleaseMount_Ok io owner id generation now w l w' : ReleaseMount io owner id generation now w = (Ok l, w') ->
  exists l0, pst_Mounts (wld_state w) !! id = Some l0 /\ IsZero (mnt_ReleasedAt l0) = true /\ mnt_Generation l = generation /\
    mnt_ReleasedAt l = toUTC now /\ wld_state w' = put_mount id l (wld_state w).
Proof.
  intros H. passed H Hb. apply find_mount_Ok in H as (l0 & H0 & _ & H). passed H Hg. apply andb_true_iff in Hg as [Hg%Z.eqb_eq Hz].
  cbv zeta in H. apply store_mount_Ok in H as [-> Hs]. exists l0. split_and!; [done..| | |exact Hs]; by destruct l0.
Qed.

Lemma ValidateMountLease_Ok io owner id generation observed now w w' : ValidateMountLease io owner id generation observed now w = (Ok tt, w') ->
  exists l, pst_Mounts (wld_state w) !! id = Some l /\ mnt_Owner l = owner /\ mnt_Generation l = generation /\ IsZero (mnt_ReleasedAt l) = true /\
    After (mnt_LeaseExpiresAt l) now = true /\ mnt_Source l = observed.
Proof.
  intros H. passed H Hb. apply find_mount_Ok in H as (l & H0 & Ho & H). passed H Hg. apply guard_Ok in H as [Hs%bool_decide_eq_true _].
  rewrite !andb_true_iff in Hg. destruct Hg as [[Hg%Z.eqb_eq Hz] Ha]. by exists l.
Qed.

Lemma TombstoneSnapshot_Ok io owner id now w m w' : TombstoneSnapshot io owner id now w = (Ok m, w') ->
  exists m0 m1, pst_Snaps (wld_state w) !! id = Some m0 /\ IsZero (snp_TombstonedAt m0) = true /\ snp_TombstonedAt m1 = toUTC now /\
    snp_Lease m1 = None /\ wld_state w' = put_snapshot id m1 (wld_state w).
Proof.
  intros H. passed H Hb. apply find_snapshot_Ok in H as (m0 & H0 & _ & H). passed H Hz. passed H Hl. apply bind_Ok in H as ([] & w1 & Hr & H).
  destruct (Remove_untouched io id (eq id) w w eq_refl ltac:(by apply untouched_same)) as (_ & _ & R2). rewrite Hr in R2. cbn in R2.
  apply store_snapshot_Ok in H as [_ Hs]. rewrite R2 in Hs. apply bool_decide_eq_true in Hl.
  eexists m0, _. split_and!; [done..| | |exact Hs]; by destruct m0.
Qed.

(** ** Theorems *)

Section theorems.
Context (config : Config) (dataKey directory : string).
Context (Hconfig : validConfig config = true) (Hkey : len dataKey = 32) (Hdirectory : directory <> "").

(** A call that succeeded and changed the manifests, as a step that lasts. *)
Lemma lasting {A} io c (op : R A) w a w' later : stored config dataKey directory w -> call_ok c w -> perform config dataKey io c w = (op;; mret tt) w ->
  op w = (Ok a, w') -> wld_state w' <> wld_state w -> rtc (sstep config dataKey directory any) w' later ->
  state_le (wld_state w') (wld_state later) /\ state_ok config (wld_state later).
Proof.
  intros Hw Hc Hop E. apply (perform_lasting config dataKey directory Hconfig Hkey Hdirectory io c w w' later Hw Hc). rewrite Hop. unfold mbind, M_bind. by rewrite E.
Qed.

Lemma lasting_stored {A} io c (op : R A) w a w' later : stored config dataKey directory w -> io_ok io -> call_ok c w -> perform config dataKey io c w = (op;; mret tt) w ->
  op w = (Ok a, w') -> rtc (sstep config dataKey directory any) w' later -> stored config dataKey directory later.
Proof.
  intros Hw Hio Hc Hop E Hr. unfold stored in *. etrans; [exact Hw|]. eapply rtc_l; [by apply (step_perform _ _ _ _ _ io c)|]. rewrite Hop. unfold mbind, M_bind. by rewrite E.
Qed.

Lemma put_volume_changes id v v0 s : pst_Volumes s !! id = Some v0 -> v <> v0 -> put_volume id v s <> s.
Proof. intros H Hn E. apply (f_equal (fun s => pst_Volumes s !! id)) in E. cbn in E. rewrite lookup_insert_eq, H in E. congruence. Qed.
Lemma put_mount_changes id l s : (forall l0, pst_Mounts s !! id = Some l0 -> l <> l0) -> put_mount id l s <> s.
Proof. intros H E. apply (f_equal (fun s => pst_Mounts s !! id)) in E. cbn in E. rewrite lookup_insert_eq in E. symmetry in E. by apply (H l E). Qed.
Lemma put_snapshot_changes id m m0 s : pst_Snaps s !! id = Some m0 -> m <> m0 -> put_snapshot id m s <> s.
Proof. intros H Hn E. apply (f_equal (fun s => pst_Snaps s !! id)) in E. cbn in E. rewrite lookup_insert_eq, H in E. congruence. Qed.

Lemma generation_range s id v : state_ok config s -> pst_Volumes s !! id = Some v -> 0 <= vol_Generation v <= max_u64.
Proof. intros Hs Hv. pose proof (ven_numbers _ (proj1 (sok_volumes _ _ Hs id v Hv))) as Hn. unfold u64_range in *. each. done. Qed.

(** The generation an attachment gets. *)
Lemma attached_generation w id v0 v1 : state_ok config (wld_state w) -> pst_Volumes (wld_state w) !! id = Some v0 -> vol_Generation v0 < max_u64 ->
  vol_Generation v1 = u64 (vol_Generation v0 + 1) -> vol_Generation v1 = vol_Generation v0 + 1.
Proof. intros Hw Hv Hm ->. pose proof (generation_range _ id v0 Hw Hv). apply u64_small. lia. Qed.

(** C20: Attachments of a volume are fenced.  When an attachment succeeds in a reachable
    state, then however the run goes on (any calls that respect [call_ok] with any end of
    their writes, deaths of the process, losses of power), a later successful attachment of
    the volume, which has been attached fewer than 2^64 times, has a greater generation, and a detachment with the generation of the first one only succeeds
    while the first one is still what is attached. *)
Theorem attachments_fenced io owner id sandboxID mode expires now w v w1 later :
  stored config dataKey directory w -> call_ok (CallAttachVolume owner id sandboxID mode expires now) w ->
  AttachVolume io owner id sandboxID mode expires now w = (Ok v, w1) -> rtc (sstep config dataKey directory any) w1 later ->
  (forall io' owner' sandboxID' mode' expires' now' v' w', call_ok (CallAttachVolume owner' id sandboxID' mode' expires' now') later ->
     AttachVolume io' owner' id sandboxID' mode' expires' now' later = (Ok v', w') -> vol_Generation v < vol_Generation v') /\
  (forall io' owner' now' v' w', DetachVolume io' owner' id (vol_Generation v) now' later = (Ok v', w') ->
     exists u, pst_Volumes (wld_state later) !! id = Some u /\ vol_Attachment u = vol_Attachment v).
Proof.
  intros Hw Hc E Hr. destruct (AttachVolume_Ok _ _ _ _ _ _ _ _ _ _ E) as (v0 & v1 & H0 & _ & Hg & -> & Hs).
  pose proof (stored_ok config dataKey directory Hconfig Hkey Hdirectory w Hw) as Hok. destruct Hc as (Hc1 & Hc2 & Hc3 & Hc4).
  pose proof (attached_generation w id v0 v1 Hok H0 (Hc4 v0 H0) Hg) as Hg1. clear Hg.
  destruct (lasting io (CallAttachVolume owner id sandboxID mode expires now) _ w _ w1 later Hw ltac:(done) eq_refl E) as [Hle Hok']; [|done|].
  { rewrite Hs. eapply put_volume_changes; [exact H0|]. intros ->. lia. }
  rewrite Hs in Hle. destruct (stl_volumes _ _ Hle id v1) as (u & Hu & Hvu); [cbn; by rewrite lookup_insert_eq|]. destruct Hvu as [_ _ _ _ V5 V6 _ _].
  assert (Ev : vol_Generation (copyVolume v1) = vol_Generation v1 /\ vol_Attachment (copyVolume v1) = vol_Attachment v1) by (by destruct v1). destruct Ev as [-> ->]. split.
  - intros io' owner' sb' mode' ex' now' v' w' (_ & _ & _ & Hc') E'. destruct (AttachVolume_Ok _ _ _ _ _ _ _ _ _ _ E') as (u0 & u1 & Hu0 & _ & Hg' & -> & _).
    pose proof (attached_generation later id u0 u1 Hok' Hu0 (Hc' u0 Hu0) Hg'). assert (u0 = u) as -> by congruence. replace (vol_Generation (copyVolume u1)) with (vol_Generation u1) by (by destruct u1). lia.
  - intros io' owner' now' v' w' E'. destruct (DetachVolume_Ok _ _ _ _ _ _ _ _ E') as (u0 & a & Hu0 & Ha & Hga). assert (u0 = u) as -> by congruence.
    exists u. split; [done|]. pose proof (proj2 (sok_volumes _ _ Hok' id u Hu)) as Hval. unfold valid_volume in Hval. rewrite Ha, !andb_true_iff, Z.eqb_eq in Hval. destruct_and!.
    destruct V6 as [E1|E1]; [lia|done|congruence].
Qed.

(** Leases of a mount are fenced.  When a lease is acquired in a reachable state, then
    however the run goes on, the next lease under the same ID has a greater generation; the
    generation only validates for the owner and with the source identity of this lease,
    before it expires; and once it has been released (at a time that is not the zero time),
    it never validates again. *)
Theorem mounts_fenced io lease now w l w1 later :
  stored config dataKey directory w -> io_ok io -> call_ok (CallAcquireMount lease now) w ->
  AcquireMount io lease now w = (Ok l, w1) -> rtc (sstep config dataKey directory any) w1 later ->
  (forall io' lease' now' l' w', mnt_ID lease' = mnt_ID lease -> AcquireMount io' lease' now' later = (Ok l', w') -> mnt_Generation l < mnt_Generation l') /\
  (forall io' owner observed now' w', ValidateMountLease io' owner (mnt_ID lease) (mnt_Generation l) observed now' later = (Ok tt, w') ->
     owner = mnt_Owner l /\ observed = mnt_Source l /\ After (mnt_LeaseExpiresAt l) now' = true) /\
  (forall io' owner now' r w2 latest, time_ok (toUTC now') -> IsZero (toUTC now') = false ->
     ReleaseMount io' owner (mnt_ID lease) (mnt_Generation l) now' later = (Ok r, w2) -> rtc (sstep config dataKey directory any) w2 latest ->
     forall io2 owner2 observed now2 w', ValidateMountLease io2 owner2 (mnt_ID lease) (mnt_Generation l) observed now2 latest <> (Ok tt, w')).
Proof.
  intros Hw Hio Hc E Hr. destruct (AcquireMount_Ok _ _ _ _ _ _ E) as (_ & _ & Hg & Hs).
  destruct (lasting io (CallAcquireMount lease now) _ w _ w1 later Hw Hc eq_refl E) as [Hle _]; [|done|].
  { rewrite Hs. apply put_mount_changes. intros l0 H0 ->. pose proof (Hg l0 H0). lia. }
  rewrite Hs in Hle. destruct (stl_mounts _ _ Hle (mnt_ID lease) l) as (u & Hu & Hlu); [cbn; by rewrite lookup_insert_eq|]. destruct Hlu as [M1 M2 _]. split_and!.
  - intros io' lease' now' l' w' Eid E'. destruct (AcquireMount_Ok _ _ _ _ _ _ E') as (_ & _ & Hg' & _). rewrite Eid in Hg'. pose proof (Hg' u Hu). lia.
  - intros io' owner observed now' w' E'. destruct (ValidateMountLease_Ok _ _ _ _ _ _ _ _ E') as (u0 & Hu0 & <- & Hgu & _ & Ha & <-). assert (u0 = u) as -> by congruence.
    rewrite (M2 ltac:(lia)) in Ha |- *. by destruct l.
  - intros io' owner now' r w2 latest Hn Hz E' Hr2 io2 owner2 observed now2 w' E2. destruct (ReleaseMount_Ok _ _ _ _ _ _ _ _ E') as (u0 & Hu0 & Hz0 & Hgr & Hrel & Hs2).
    pose proof (lasting_stored io (CallAcquireMount lease now) _ w _ w1 later Hw Hio Hc eq_refl E Hr) as Hst.
    destruct (lasting io' (CallReleaseMount owner (mnt_ID lease) (mnt_Generation l) now') _ later _ w2 latest Hst Hn eq_refl E') as [Hle2 _]; [|done|].
    { rewrite Hs2. apply put_mount_changes. intros l0 H0 ->. assert (l0 = u0) as -> by congruence. congruence. }
    rewrite Hs2 in Hle2. destruct (stl_mounts _ _ Hle2 (mnt_ID lease) r) as (u2 & Hu2 & Hlu2); [cbn; by rewrite lookup_insert_eq|].
    destruct (ValidateMountLease_Ok _ _ _ _ _ _ _ _ E2) as (u3 & Hu3 & _ & Hg3 & Hz3 & _). assert (u3 = u2) as -> by congruence.
    rewrite (mle_released _ _ Hlu2) in Hz3 by (congruence || lia). congruence.
Qed.

(** A volume that was tombstoned at [time]: every call that names it fails, except that it
    can still be tainted, which returns the manifest with its tombstone; and no
    reconciliation returns it. *)
Record volume_gone (id : string) (time : Time) (w : World) : Prop := mkVolumeGone {
  vgn_get : forall io owner v w', GetVolume io owner id w <> (Ok v, w');
  vgn_attach : forall io owner sandboxID mode expires now v w', AttachVolume io owner id sandboxID mode expires now w <> (Ok v, w');
  vgn_detach : forall io owner generation now v w', DetachVolume io owner id generation now w <> (Ok v, w');
  vgn_tombstone : forall io owner generation now v w', TombstoneVolume io owner id generation now w <> (Ok v, w');
  vgn_create : forall io v r w', vol_ID v = id -> CreateVolume config io v w <> (Ok r, w');
  vgn_reconcile : forall io now vs w', ReconcileExpiredAttachments io now w = (Ok vs, w') -> forall v, v ∈ vs -> vol_ID v <> id;
  vgn_taint : forall io owner taint now v w', MarkVolumeTainted io owner id taint now w = (Ok v, w') -> vol_TombstonedAt v = time /\ vol_Attachment v = None
}.

(** A snapshot that was tombstoned: every call that names it fails. *)
Record snapshot_gone (id : string) (w : World) : Prop := mkSnapshotGone {
  sgn_open : forall io owner x w', OpenSnapshot dataKey io owner id w <> (Ok x, w');
  sgn_lease : forall io owner holder expires now m w', AcquireSnapshotLease io owner id holder expires now w <> (Ok m, w');
  sgn_release : forall io owner generation m w', ReleaseSnapshotLease io owner id generation w <> (Ok m, w');
  sgn_restore : forall io request sink now m w', srq_ID request = id -> RestoreSnapshot dataKey io request sink now w <> (Ok m, w');
  sgn_tombstone : forall io owner now m w', TombstoneSnapshot io owner id now w <> (Ok m, w');
  sgn_create : forall io m content now r w', snp_ID m = id -> CreateSnapshot config dataKey io m content now w <> (Ok r, w')
}.

Lemma valid_volume_id id v : valid_volume config id v = true -> vol_ID v = id.
Proof. unfold valid_volume. rewrite !andb_true_iff. intros [[[H%bool_decide_eq_true _] _] _]. by symmetry. Qed.

Lemma tombstoned_volume_gone id v w : state_ok config (wld_state w) -> pst_Volumes (wld_state w) !! id = Some v -> IsZero (vol_TombstonedAt v) = false ->
  vol_Attachment v = None -> volume_gone id (vol_TombstonedAt v) w.
Proof.
  intros Hok Hv Hz Ha. split.
  - intros io owner r w' H. passed H Hb. apply find_volume_Ok in H as (v0 & H0 & _ & H). passed H Hz0. congruence.
  - intros io owner sb mode ex now r w' H. destruct (AttachVolume_Ok _ _ _ _ _ _ _ _ _ _ H) as (v0 & _ & H0 & Hz0 & _). congruence.
  - intros io owner g now r w' H. destruct (DetachVolume_Ok _ _ _ _ _ _ _ _ H) as (v0 & a & H0 & Ha0 & _). congruence.
  - intros io owner g now r w' H. destruct (TombstoneVolume_Ok _ _ _ _ _ _ _ _ H) as (v0 & _ & H0 & Hz0 & _). congruence.
  - intros io v1 r w' Eid H. passed H Hb. passed H Hb1. apply bind_Ok in H as (s & ? & [= <- <-] & H). passed H Hn. apply bool_decide_eq_true in Hn. congruence.
  - intros io now vs w' H r Hr Er. destruct (Reconcile_Ok _ _ _ _ _ H r Hr) as (k & v0 & H0 & Eid & Ha0).
    pose proof (valid_volume_id _ _ (proj2 (sok_volumes _ _ Hok k v0 H0))). congruence.
  - intros io owner t now r w' H. destruct (MarkVolumeTainted_Ok _ _ _ _ _ _ _ _ H) as (v0 & H0 & Et & Ea). assert (v0 = v) as -> by congruence. split; congruence.
Qed.

Lemma tombstoned_snapshot_gone id m w : pst_Snaps (wld_state w) !! id = Some m -> IsZero (snp_TombstonedAt m) = false -> snp_Lease m = None -> snapshot_gone id w.
Proof.
  intros Hv Hz Hl. split.
  - intros io owner r w' H. passed H Hb. apply find_snapshot_Ok in H as (v0 & H0 & _ & H). passed H Hz0. congruence.
  - intros io owner holder ex now r w' H. passed H Hb. passed H Hb1. apply find_snapshot_Ok in H as (v0 & H0 & _ & H). passed H Hz0. congruence.
  - intros io owner g r w' H. destruct (ReleaseSnapshotLease_Ok _ _ _ _ _ _ _ H) as (v0 & H0 & Hl0). congruence.
  - intros io request sink now r w' Eid H. passed H Hb. passed H Hb1. apply find_snapshot_Ok in H as (v0 & H0 & _ & H). passed H Hz0. congruence.
  - intros io owner now r w' H. destruct (TombstoneSnapshot_Ok _ _ _ _ _ _ _ H) as (v0 & _ & H0 & Hz0 & _). congruence.
  - intros io m1 content now r w' Eid H. destruct (CreateSnapshot_created config dataKey io m1 content now w r w' H) as (plain & nonce & _ & _ & _ & Hn & _). congruence.
Qed.

(** C21: Tombstones are final.  When a volume or a snapshot is tombstoned in a reachable state
    (at a time that is not the zero time), then however the run goes on with calls that
    respect [call_ok], deaths of the process and losses of power included: no call gets,
    attaches, detaches, tombstones or creates a volume of that ID again, and no
    reconciliation returns it; a call that taints it, which is meant to work through a
    tombstone, returns the manifest without an attachment and with the time of this
    tombstone; and no call opens, leases, releases, restores, tombstones or creates a
    snapshot of that ID again. *)
Theorem tombstones_final io owner id now w w1 later :
  stored config dataKey directory w -> time_ok (toUTC now) -> IsZero (toUTC now) = false -> rtc (sstep config dataKey directory any) w1 later ->
  (forall generation v, TombstoneVolume io owner id generation now w = (Ok v, w1) -> volume_gone id (toUTC now) later) /\
  (forall m, TombstoneSnapshot io owner id now w = (Ok m, w1) -> snapshot_gone id later).
Proof.
  intros Hw Hn Hz Hr. split.
  - intros generation v E. destruct (TombstoneVolume_Ok _ _ _ _ _ _ _ _ E) as (v0 & v1 & H0 & Hz0 & Ht & Ha & Hs).
    destruct (lasting io (CallTombstoneVolume owner id generation now) _ w _ w1 later Hw Hn eq_refl E) as [Hle Hok]; [|done|].
    { rewrite Hs. eapply put_volume_changes; [exact H0|]. congruence. }
    rewrite Hs in Hle. destruct (stl_volumes _ _ Hle id v1) as (u & Hu & Hvu); [cbn; by rewrite lookup_insert_eq|].
    destruct (vle_tombstone _ _ Hvu) as [Et Eg]; [congruence|]. rewrite <- Ht, <- Et.
    apply (tombstoned_volume_gone id u); [done..|congruence|]. by destruct (vle_attachment _ _ Hvu) as [->| ->].
  - intros m E. destruct (TombstoneSnapshot_Ok _ _ _ _ _ _ _ E) as (m0 & m1 & H0 & Hz0 & Ht & Hl & Hs).
    destruct (lasting io (CallTombstoneSnapshot owner id now) _ w _ w1 later Hw Hn eq_refl E) as [Hle _]; [|done|].
    { rewrite Hs. eapply put_snapshot_changes; [exact H0|]. congruence. }
    rewrite Hs in Hle. destruct (stl_snapshots _ _ Hle id m1) as (u & Hu & Hvu); [cbn; by rewrite lookup_insert_eq|].
    assert (Hz1 : IsZero (snp_TombstonedAt m1) = false) by congruence.
    apply (tombstoned_snapshot_gone id u); [done|by rewrite (sle_tombstone _ _ Hvu)|]. by destruct (sle_lease _ _ Hvu Hz1) as [->| ->].
Qed.

Lemma open_pinned io id m nonce plain w : pinned config id m (sealed dataKey nonce plain) w -> len nonce = NonceSize ->
  (snp_PlaintextDigest m, snp_CiphertextDigest m, snp_SizeBytes m) = (digest plain, digest (sealed dataKey nonce plain), len plain) ->
  IsZero (snp_TombstonedAt m) = true -> (forall n, io_alive io n = true) -> io_read io = true ->
  exists m', OpenSnapshot dataKey io (snp_Owner m) id w = (Ok (plain, copySnapshot m'), w) /\ same_snapshot m m'.
Proof.
  intros [[_ (m' & Hm & E) _ _] Hp] Hn [= D1 D2 D3] Hz Ha Hr. exists m'. split; [|done].
  assert (F : snp_Owner m' = snp_Owner m /\ IsZero (snp_TombstonedAt m') = true /\ snp_PlaintextDigest m' = digest plain /\
              snp_CiphertextDigest m' = digest (sealed dataKey nonce plain) /\ snp_SizeBytes m' = len plain) by (rewrite E; by destruct m).
  destruct F as (F1 & F2 & F3 & F4 & F5). unfold OpenSnapshot, find_snapshot, OpenPayload, contextErr, guard_or, state, mbind, M_bind. rewrite !Ha. cbn [mret M_ret].
  rewrite Hm, F1, bool_decide_eq_true_2 by done. unfold mret, M_ret. rewrite F2, Hp. cbn [slot_now]. rewrite Hr, F3, F4, F5.
  rewrite (bool_decide_eq_true_2 (digest (sealed _ _ _) = _)) by reflexivity. cbv beta. rewrite (decrypt_sealed dataKey Hkey nonce plain Hn), Z.eqb_refl.
  rewrite (bool_decide_eq_true_2 (digest plain = _)) by reflexivity. reflexivity.
Qed.

(** C19: A snapshot is returned as it was stored.  When the creation of a snapshot succeeds in
    a reachable state, then however the run goes on with calls that respect [call_ok], deaths
    of the process and losses of power included, as long as this snapshot is not tombstoned, its owner opens it (if the context
    lives and the file can be read) and gets exactly the bytes that were stored, with the
    manifest that was returned up to its lease.  The bytes go through the encryption, the
    payload file, the digests and the state file. *)
Theorem snapshot_restored io m content now w m1 w1 later :
  stored config dataKey directory w -> io_ok io -> call_ok (CallCreateSnapshot m content now) w -> IsZero (snp_TombstonedAt m) = true ->
  CreateSnapshot config dataKey io m content now w = (Ok m1, w1) -> rtc (sstep config dataKey directory (spares (snp_ID m))) w1 later ->
  exists plain, content = Some plain /\
  forall io', (forall n, io_alive io' n = true) -> io_read io' = true ->
    exists m2, OpenSnapshot dataKey io' (snp_Owner m) (snp_ID m) later = (Ok (plain, copySnapshot m2), later) /\ same_snapshot m1 m2.
Proof.
  intros Hw Hio Hc Hz E Hr. destruct (create_pinned config dataKey directory Hconfig Hkey Hdirectory io m content now w m1 w1 Hw Hio Hc E) as (plain & nonce & -> & Hn & _ & Hd & Hp).
  exists plain. split; [done|]. intros io' Ha Hr'. apply (run_pinned config dataKey directory Hconfig Hkey Hdirectory) with (w' := later) in Hp; [|done].
  destruct (CreateSnapshot_created config dataKey io m (Some plain) now w m1 w1 E) as (plain' & nonce' & _ & _ & Em & _).
  assert (F : snp_Owner m1 = snp_Owner m /\ snp_TombstonedAt m1 = snp_TombstonedAt m) by (rewrite Em; by destruct m). destruct F as [<- F2].
  apply (open_pinned io' (snp_ID m) m1 nonce plain later); try done. by rewrite F2.
Qed.

(** C22: The store opens again after any run of calls that respect [call_ok]: texts are UTF-8,
    times have a year that JSON can write, a new volume carries no attachment and a new
    snapshot no lease, a volume is attached fewer than 2^64 times and no call brings its
    provenance above 64 items.  In every state such a run reaches, the files that a new
    process finds after the death of the old one, and every combination of contents that a
    loss of power can leave, are opened without an error: every manifest passes the checks of
    the load, and the encoding of the state that was read is the state file.  The conditions
    are needed: the store accepts calls outside of them and then does not open again
    ([taint_locks_store], [attached_volume_locks_store]). *)
Theorem store_recovers w manifests payloads :
  stored config dataKey directory w ->
  manifests = wld_manifests w \/ (exists content, content ∈ slot_may (wld_manifests w) /\ manifests = mkSlot content [content]) ->
  exists s, Open config dataKey directory true true manifests payloads = Ok (mkWorld manifests payloads s) /\ state_ok config s /\
    (slot_now manifests = None /\ s = emptyState \/ slot_now manifests = marshal (json_state s)).
Proof.
  intros Hw Hm. destruct (stored_above config dataKey directory Hconfig Hkey Hdirectory w Hw) as [_ _ Hv Hd]. rewrite Forall_forall in Hd.
  assert (Hk : keeps config (state_le emptyState) (slot_now manifests)) by (destruct Hm as [->|(content & Hin & ->)]; [by apply Hd|by apply Hd]).
  set (P := fun s => slot_now manifests = None /\ s = emptyState \/ slot_now manifests = marshal (json_state s)).
  apply (reopen_keeps config dataKey directory Hconfig Hkey Hdirectory P). revert Hk. subst P. destruct (slot_now manifests) as [text|]; cbn [keeps]; [|by left].
  intros (s & Ht & Hok & _). exists s. split_and!; [done..|]. right. by symmetry.
Qed.
End theorems.

(** ** Runs of the store *)

Definition demo_limits : Config := mkConfig 1000 100 1000.
Definition demo_data_key : string := "0123456789abcdef0123456789abcdef".
Definition demo_time (seconds : Z) : Time := mkTime (seconds * 1000000000) UTC.
Definition demo_fine : IO := mkIO (fun _ => true) Written (Some "abcdefghijkl") true Written true true.

Definition demo_volume : VolumeManifest :=
  mkVolumeManifest "" "acme" "vol-1" "ext4" "luks" "dm" 10 10 (demo_time 1) zeroTime (demo_time 100000) 0 None zeroTaint zeroTime.
Definition demo_lease : MountLease :=
  mkMountLease "mnt-1" "acme" "sbx-1" (mkSourceIdentity "export" 1 2 3) "/data" ReadOnly "live" 0 (demo_time 1000) zeroTime.
Definition demo_snapshot : SnapshotManifest :=
  mkSnapshotManifest "" "acme" "snap-1" "sbx-1" "spec" "caps" "image" "req-1" "raw" "aes" "sha" "" "" 0 zeroTime (demo_time 100000) zeroTaint "" None zeroTime.

Notation demo_do := (perform demo_limits demo_data_key).
Notation demo_stored := (stored demo_limits demo_data_key "/store").
Notation demo_run := (rtc (sstep demo_limits demo_data_key "/store" any)).

(** Power is lost, and a new process opens what a reader saw last. *)
Definition demo_power (w : World) : World :=
  let content := slot_now (wld_manifests w) in
  match Open demo_limits demo_data_key "/store" true true (mkSlot content [content]) (sync_slot <$> wld_payloads w) with Ok w' => w' | Err _ => w end.

Lemma survive_now w : map_Forall (fun _ s => slot_now s ∈ slot_may s) (wld_payloads w) -> survive w (sync_slot <$> wld_payloads w).
Proof.
  intros H id. unfold payload. rewrite lookup_fmap. destruct (wld_payloads w !! id) as [s|] eqn:E; cbn.
  - exists (slot_now s). split; [by apply (H id s)|done].
  - exists None. split; [by apply list_elem_of_singleton|done].
Qed.

Ltac each_text := unfold texts; rewrite !Forall_cons, Forall_nil; split_and!; try exact I; apply valid_utf8; vm_compute; reflexivity.
Ltac a_time := split; [reflexivity|eexists; vm_compute; reflexivity].
Ltac each_time := repeat (apply Forall_cons_2; [a_time|]); apply Forall_nil_2.
Ltac each_number := unfold numbers, u64_range; rewrite !Forall_cons, Forall_nil; split_and!; try exact I; vm_compute; congruence.

Lemma zero_taint_encodable : taint_encodable zeroTaint.
Proof. by split; [|apply Forall_nil]. Qed.

Lemma demo_limits_ok : validConfig demo_limits = true /\ len demo_data_key = 32 /\ "/store" <> "".
Proof. by split_and!. Qed.

Lemma demo_fine_ok : io_ok demo_fine.
Proof. by intros nonce [= <-]. Qed.

Lemma demo_create_ok w : call_ok (CallCreateVolume demo_volume) w.
Proof.
  split; [|reflexivity]. split; [each_text|each_number|each_time|by intros a [=]|apply zero_taint_encodable].
Qed.

Definition demo_created : World := (demo_do demo_fine (CallCreateVolume demo_volume) new_store).2.
Definition demo_attach_call (sandbox : string) : store_call := CallAttachVolume "acme" "vol-1" sandbox ReadWrite (demo_time 1000) (demo_time 2).
Definition demo_attach (sandbox : string) : R VolumeManifest := AttachVolume demo_fine "acme" "vol-1" sandbox ReadWrite (demo_time 1000) (demo_time 2).
Definition demo_attached : World := (demo_attach "sbx-1" demo_created).2.
Definition demo_detached : World := (demo_do demo_fine (CallDetachVolume "acme" "vol-1" 1 (demo_time 3)) demo_attached).2.
Definition demo_recovered : World := demo_power demo_detached.
Definition demo_value {A} (zero : A) (x : res StoreError A * World) : A := match x.1 with Ok a => a | Err _ => zero end.
Definition demo_v1 : VolumeManifest := demo_value demo_volume (demo_attach "sbx-1" demo_created).
Definition demo_v2 : VolumeManifest := demo_value demo_volume (demo_attach "sbx-2" demo_recovered).

Lemma demo_created_stored : demo_stored demo_created.
Proof. eapply rtc_l; [|apply rtc_refl]. exact (step_perform _ _ _ any new_store demo_fine (CallCreateVolume demo_volume) demo_fine_ok I (demo_create_ok _)). Qed.

Definition demo_generation (w : World) : Z := match pst_Volumes (wld_state w) !! "vol-1" with Some v => vol_Generation v | None => 0 end.
Lemma demo_attach_ok sandbox w : ValidString sandbox = true -> (demo_generation w <? max_u64) = true -> call_ok (demo_attach_call sandbox) w.
Proof.
  intros Hs Hg%Z.ltb_lt. split; [apply Forall_singleton; by apply valid_utf8|]. do 2 (split; [a_time|]).
  intros v Hv. unfold demo_generation in Hg. by rewrite Hv in Hg.
Qed.

Lemma demo_loses w : (match Open demo_limits demo_data_key "/store" true true (mkSlot (slot_now (wld_manifests w)) [slot_now (wld_manifests w)]) (sync_slot <$> wld_payloads w) with Ok _ => true | Err _ => false end) = true ->
  bool_decide (slot_now (wld_manifests w) ∈ slot_may (wld_manifests w)) = true ->
  bool_decide (map_Forall (fun _ s => slot_now s ∈ slot_may s) (wld_payloads w)) = true ->
  forall allowed, sstep demo_limits demo_data_key "/store" allowed w (demo_power w).
Proof.
  intros Ho Hin%bool_decide_eq_true Hp%bool_decide_eq_true allowed. eapply (step_lose _ _ _ _ _ _ _ _ Hin); [by apply survive_now|].
  unfold demo_power. cbv zeta. by destruct (Open _ _ _ _ _ _ _).
Qed.

Lemma demo_detaches : demo_run demo_attached demo_recovered.
Proof.
  eapply rtc_l; [apply (step_perform _ _ _ any demo_attached demo_fine (CallDetachVolume "acme" "vol-1" 1 (demo_time 3)) demo_fine_ok I); a_time|].
  eapply rtc_l; [|apply rtc_refl]. apply demo_loses; vm_compute; reflexivity.
Qed.

Lemma attachments_fenced_witness : vol_Generation demo_v1 < vol_Generation demo_v2 /\ (vol_Generation demo_v1, vol_Generation demo_v2) = (1, 2).
Proof.
  split; [|vm_compute; reflexivity].
  refine (proj1 (attachments_fenced demo_limits demo_data_key "/store" eq_refl eq_refl (proj2 (proj2 demo_limits_ok)) demo_fine "acme" "vol-1" "sbx-1" ReadWrite (demo_time 1000) (demo_time 2)
    demo_created demo_v1 demo_attached demo_recovered demo_created_stored _ _ demo_detaches) demo_fine "acme" "sbx-2" ReadWrite (demo_time 1000) (demo_time 2) demo_v2 (demo_attach "sbx-2" demo_recovered).2 _ _).
  - apply demo_attach_ok; vm_compute; reflexivity.
  - vm_compute. reflexivity.
  - apply demo_attach_ok; vm_compute; reflexivity.
  - vm_compute. reflexivity.
Defined.

Definition demo_leased : World := (AcquireMount demo_fine demo_lease (demo_time 2) new_store).2.
Definition demo_l1 : MountLease := demo_value demo_lease (AcquireMount demo_fine demo_lease (demo_time 2) new_store).
Definition demo_released : World := (ReleaseMount demo_fine "acme" "mnt-1" 1 (demo_time 3) demo_leased).2.
Definition demo_r1 : MountLease := demo_value demo_lease (ReleaseMount demo_fine "acme" "mnt-1" 1 (demo_time 3) demo_leased).
Definition demo_released_again : World := demo_power demo_released.

Lemma demo_lease_ok w : call_ok (CallAcquireMount demo_lease (demo_time 2)) w.
Proof. split; [each_text|each_number|each_time]. Qed.

Lemma demo_released_loses : demo_run demo_released demo_released_again.
Proof. eapply rtc_l; [|apply rtc_refl]. apply demo_loses; vm_compute; reflexivity. Qed.

Lemma mounts_fenced_witness :
  (ValidateMountLease demo_fine "acme" "mnt-1" 1 (mkSourceIdentity "export" 1 2 3) (demo_time 4) demo_leased).1 = Ok tt /\
  forall w', ValidateMountLease demo_fine "acme" "mnt-1" 1 (mkSourceIdentity "export" 1 2 3) (demo_time 4) demo_released_again <> (Ok tt, w').
Proof.
  split; [vm_compute; reflexivity|]. intros w'.
  refine (proj2 (proj2 (mounts_fenced demo_limits demo_data_key "/store" eq_refl eq_refl (proj2 (proj2 demo_limits_ok)) demo_fine demo_lease (demo_time 2)
    new_store demo_l1 demo_leased demo_leased (rtc_refl _ _) demo_fine_ok (demo_lease_ok _) _ (rtc_refl _ _)))
    demo_fine "acme" (demo_time 3) demo_r1 demo_released demo_released_again _ eq_refl _ demo_released_loses demo_fine "acme" _ _ w').
  - vm_compute. reflexivity.
  - a_time.
  - vm_compute. reflexivity.
Defined.

Definition demo_content : string := "the disk".
Definition demo_snapshot_call : store_call := CallCreateSnapshot demo_snapshot (Some demo_content) (demo_time 2).
Definition demo_creation : res StoreError SnapshotManifest * World := Eval vm_compute in CreateSnapshot demo_limits demo_data_key demo_fine demo_snapshot (Some demo_content) (demo_time 2) new_store.
Definition demo_m1 : SnapshotManifest := demo_value demo_snapshot demo_creation.
Definition demo_kept : World := demo_creation.2.
Definition demo_taken : World := (demo_do demo_fine (CallAcquireSnapshotLease "acme" "snap-1" "restorer" (demo_time 1000) (demo_time 3)) demo_kept).2.
Definition demo_kept_again : World := demo_power demo_taken.

Lemma demo_snapshot_ok w : call_ok demo_snapshot_call w.
Proof. split; [|reflexivity]. split; [each_text|each_number|each_time|by intros l [=]|apply zero_taint_encodable]. Qed.

Lemma demo_creation_eq : CreateSnapshot demo_limits demo_data_key demo_fine demo_snapshot (Some demo_content) (demo_time 2) new_store = (Ok demo_m1, demo_kept).
Proof. vm_compute. reflexivity. Qed.

Lemma demo_kept_runs : rtc (sstep demo_limits demo_data_key "/store" (spares "snap-1")) demo_kept demo_kept_again.
Proof.
  eapply rtc_l.
  - apply (step_perform _ _ _ (spares "snap-1") demo_kept demo_fine (CallAcquireSnapshotLease "acme" "snap-1" "restorer" (demo_time 1000) (demo_time 3)) demo_fine_ok I).
    split; [each_text|a_time].
  - eapply rtc_l; [|apply rtc_refl]. apply demo_loses; vm_compute; reflexivity.
Qed.

Lemma snapshot_restored_witness : exists plain, Some demo_content = Some plain /\
  exists m2, OpenSnapshot demo_data_key demo_fine "acme" "snap-1" demo_kept_again = (Ok (plain, copySnapshot m2), demo_kept_again) /\ same_snapshot demo_m1 m2.
Proof.
  destruct (snapshot_restored demo_limits demo_data_key "/store" eq_refl eq_refl (proj2 (proj2 demo_limits_ok)) demo_fine demo_snapshot (Some demo_content) (demo_time 2)
    new_store demo_m1 demo_kept demo_kept_again (rtc_refl _ _) demo_fine_ok (demo_snapshot_ok _) eq_refl demo_creation_eq demo_kept_runs) as (plain & E & H).
  exists plain. split; [exact E|]. exact (H demo_fine (fun _ => eq_refl) eq_refl).
Defined.

Definition demo_tombstone : res StoreError SnapshotManifest * World := TombstoneSnapshot demo_fine "acme" "snap-1" (demo_time 3) demo_kept.
Definition demo_gone : World := demo_tombstone.2.
Definition demo_gone_again : World := demo_power demo_gone.

Lemma demo_kept_stored : demo_stored demo_kept.
Proof.
  eapply rtc_l; [|apply rtc_refl]. pose proof (step_perform demo_limits demo_data_key "/store" any new_store demo_fine demo_snapshot_call demo_fine_ok I (demo_snapshot_ok _)) as H.
  unfold demo_snapshot_call, perform, mbind, M_bind in H. rewrite demo_creation_eq in H. exact H.
Qed.

Lemma demo_gone_runs : demo_run demo_gone demo_gone_again.
Proof. eapply rtc_l; [|apply rtc_refl]. apply demo_loses; vm_compute; reflexivity. Qed.

Definition demo_tomb : res StoreError VolumeManifest * World := TombstoneVolume demo_fine "acme" "vol-1" 0 (demo_time 3) demo_created.
Definition demo_tomb_again : World := demo_power demo_tomb.2.

Lemma demo_tomb_runs : demo_run demo_tomb.2 demo_tomb_again.
Proof. eapply rtc_l; [|apply rtc_refl]. apply demo_loses; vm_compute; reflexivity. Qed.

Lemma tombstones_final_witness : volume_gone demo_limits "vol-1" (toUTC (demo_time 3)) demo_tomb_again /\ snapshot_gone demo_limits demo_data_key "snap-1" demo_gone_again.
Proof.
  split.
  - refine (proj1 (tombstones_final demo_limits demo_data_key "/store" eq_refl eq_refl (proj2 (proj2 demo_limits_ok)) demo_fine "acme" "vol-1" (demo_time 3)
      demo_created demo_tomb.2 demo_tomb_again demo_created_stored _ eq_refl demo_tomb_runs) 0 (demo_value demo_volume demo_tomb) _).
    + a_time.
    + vm_compute. reflexivity.
  - refine (proj2 (tombstones_final demo_limits demo_data_key "/store" eq_refl eq_refl (proj2 (proj2 demo_limits_ok)) demo_fine "acme" "snap-1" (demo_time 3)
      demo_kept demo_gone demo_gone_again demo_kept_stored _ eq_refl demo_gone_runs) (demo_value demo_snapshot demo_tombstone) _).
    + a_time.
    + vm_compute. reflexivity.
Defined.

Definition demo_taint : Taint := mkTaint false true (Some (repeat (mkTaintProvenance "op" "class") 40)).

(** A tombstoned volume can be tainted, as its method says: the call returns its manifest. *)
Example tombstoned_volume_tainted : exists v, (MarkVolumeTainted demo_fine "acme" "vol-1" demo_taint (demo_time 4) demo_tomb.2).1 = Ok v /\
  IsZero (vol_TombstonedAt v) = false.
Proof. eexists. split; [vm_compute; reflexivity|reflexivity]. Qed.

Lemma store_recovers_witness : exists s, let manifests := wld_manifests demo_kept in
  Open demo_limits demo_data_key "/store" true true manifests ∅ = Ok (mkWorld manifests ∅ s) /\ state_ok demo_limits s.
Proof.
  destruct (store_recovers demo_limits demo_data_key "/store" eq_refl eq_refl (proj2 (proj2 demo_limits_ok)) demo_kept (wld_manifests demo_kept) ∅ demo_kept_stored (or_introl eq_refl))
    as (s & H1 & H2 & _). exists s. exact (conj H1 H2).
Defined.

(** ** Where the store does not do what it means to *)

Definition demo_acquire (holder : string) : store_call := CallAcquireSnapshotLease "acme" "snap-1" holder (demo_time 1000) (demo_time 3).
Definition demo_release : store_call := CallReleaseSnapshotLease "acme" "snap-1" 1.
Definition demo_holder (w : World) : option (string * Z) := m ← pst_Snaps (wld_state w) !! "snap-1"; l ← snp_Lease m; Some (sls_Holder l, sls_Generation l).
Definition demo_calls (l : list store_call) (w : World) : World := foldl (fun w c => (demo_do demo_fine c w).2) w l.

(** A release forgets the generation, so the next lease has the same one, and the first
    holder's release, sent twice, takes the lease of the second. *)
Example snapshot_lease_reused :
  demo_holder (demo_calls [demo_acquire "first"] demo_kept) = Some ("first", 1) /\
  demo_holder (demo_calls [demo_acquire "first"; demo_release; demo_acquire "second"] demo_kept) = Some ("second", 1) /\
  demo_holder (demo_calls [demo_acquire "first"; demo_release; demo_acquire "second"; demo_release] demo_kept) = None /\
  (demo_do demo_fine (CallTombstoneSnapshot "acme" "snap-1" (demo_time 4)) (demo_calls [demo_acquire "first"; demo_release; demo_acquire "second"; demo_release] demo_kept)).1 = Ok tt.
Proof. vm_compute. split_and!; reflexivity. Qed.

Definition demo_mark : store_call := CallMarkVolumeTainted "acme" "vol-1" demo_taint (demo_time 3).
Definition demo_reopened (w : World) : bool :=
  match Open demo_limits demo_data_key "/store" true true (wld_manifests w) (wld_payloads w) with Ok _ => true | Err _ => false end.

(** Provenance beyond the 64 items that the load accepts is stored, and the store does not
    open again. *)
Example taint_locks_store :
  (demo_do demo_fine demo_mark (demo_calls [demo_mark] demo_created)).1 = Ok tt /\
  demo_reopened (demo_calls [demo_mark] demo_created) = true /\ demo_reopened (demo_calls [demo_mark; demo_mark] demo_created) = false.
Proof. vm_compute. split_and!; reflexivity. Qed.

(** A new volume that says it is attached locks the store as well. *)
Example attached_volume_locks_store :
  let v := set_vol_Attachment (Some (mkAttachment "sbx-1" ReadOnly (demo_time 1000) 1)) demo_volume in
  (demo_do demo_fine (CallCreateVolume v) new_store).1 = Ok tt /\ demo_reopened (demo_calls [CallCreateVolume v] new_store) = false.
Proof. vm_compute. split; reflexivity. Qed.

Definition demo_unpublished : IO := mkIO (fun _ => true) Written (Some "abcdefghijkl") true Unsynced true true.

(** A creation that fails at the sync of the payload directory leaves the payload: the ID can
    not be used again, and nothing removes the payload. *)
Example orphan_payload :
  let w := (demo_do demo_unpublished demo_snapshot_call new_store).2 in
  (demo_do demo_unpublished demo_snapshot_call new_store).1 = Err (Failed "publish snapshot data") /\
  (demo_do demo_fine demo_snapshot_call w).1 = Err ErrConflict /\
  (demo_do demo_fine (CallTombstoneSnapshot "acme" "snap-1" (demo_time 3)) w).1 = Err ErrNotFound.
Proof. vm_compute. split_and!; reflexivity. Qed.

Definition demo_unsaved : IO := mkIO (fun _ => true) Unwritten None true Written true true.

(** A detachment that could not be saved fails, and yet the store then attaches the volume to
    another sandbox. *)
Example failed_detach_detaches :
  let w := demo_do demo_unsaved (CallDetachVolume "acme" "vol-1" 1 (demo_time 3)) demo_attached in
  w.1 = Err (Failed "persist sandbox resource manifests") /\ (demo_do demo_fine (demo_attach_call "sbx-2") w.2).1 = Ok tt /\
  (demo_do demo_fine (demo_attach_call "sbx-2") demo_attached).1 = Err ErrAttached.
Proof. vm_compute. split_and!; reflexivity. Qed.
