(* ===== verification/StateMemory.v ===== *)
(** * The in-memory state store

    [MemoryRuntimeStateStore] of internal/runtimestate/memory.go: the partitions
    by tenant, the compare-and-swap of a planner-sealed replacement, the atomic
    application of a compiled mutation, and the authority-scoped reads.  The mutex
    makes each method one step, so a method is a function of the whole store. *)

From Stdlib Require Import Ascii String.
From S2P Require Import Prelude GoString Sha256 GoTime GoJson Sdk SdkTypes StateContract RuntimeContent StateCompiler.
From S2P Require Import StatePlanner PlannerFacts PlannerProgress PlannerWf CompilerFacts PlannerScenario PlannerSafety.

Open Scope Z_scope.

(** ** Queries and projections *)

Record AgentRevisionQuery : Type := mkAgentRevisionQuery {
  qar_Scope : MutationScope;
  qar_AgentID : AgentID;
  qar_RevisionID : AgentRevisionID
}.

Record PolicyRevisionQuery : Type := mkPolicyRevisionQuery {
  qpr_Scope : MutationScope;
  qpr_Name : string;
  qpr_Revision : Z
}.

Record SessionViewQuery : Type := mkSessionViewQuery {
  qsv_Scope : MutationScope;
  qsv_SessionID : SessionID;
  qsv_RecentEventLimit : Z;
  qsv_QueuedTurnLimit : Z
}.

Record TurnQuery : Type := mkTurnQuery {
  qtu_Scope : MutationScope;
  qtu_SessionID : SessionID;
  qtu_TurnID : TurnID
}.

Record ArtifactQuery : Type := mkArtifactQuery {
  qaf_Scope : MutationScope;
  qaf_ArtifactID : ArtifactID
}.

Record InvocationQuery : Type := mkInvocationQuery {
  qin_Scope : MutationScope;
  qin_SessionID : SessionID;
  qin_TurnID : TurnID;
  qin_OperationID : OperationID
}.

Record EventsQuery : Type := mkEventsQuery {
  qev_Scope : MutationScope;
  qev_SessionID : SessionID;
  qev_After : Cursor;
  qev_Limit : Z
}.

Record MutationReceiptQuery : Type := mkMutationReceiptQuery {
  qmr_Scope : MutationScope;
  qmr_IdempotencyKey : string
}.

Record AuditQuery : Type := mkAuditQuery {
  qau_Scope : MutationScope;
  qau_After : AuditFactID;
  qau_Limit : Z
}.

Record OutboxQuery : Type := mkOutboxQuery {
  qob_Scope : MutationScope;
  qob_After : OutboxID;
  qob_Limit : Z
}.

Record SessionView : Type := mkSessionView {
  vie_Session : SessionRecord;
  vie_ActiveTurn : option TurnRecord;
  vie_QueuedTurns : list TurnRecord;
  vie_QueuedTurnCount : Z;
  vie_QueuedTruncated : bool;
  vie_RecentEvents : list ProductEventRecord
}.

Record EventPage : Type := mkEventPage {
  epa_Events : list ProductEventRecord;
  epa_NextCursor : Cursor;
  epa_Gap : option EventGap
}.

Record AuditPage : Type := mkAuditPage {
  apa_Facts : list AuditFactRecord;
  apa_Next : AuditFactID
}.

Record OutboxPage : Type := mkOutboxPage {
  opa_Records : list OutboxRecord;
  opa_Next : OutboxID
}.

(** ** The store *)

(** [states map[string]RuntimeState]; a missing partition reads as the zero
    state.  [store_planner] is the planner the store was built with. *)
Record MemoryStore : Type := mkStore {
  store_planner : Planner;
  states : gmap string RuntimeState
}.

Definition NewMemoryRuntimeStateStore (planner : Planner) : MemoryStore := mkStore planner ∅.

Definition snapshot (store : MemoryStore) (tenant : TenantID) : RuntimeState := default emptyState (states store !! tenant).

Definition put_state (tenant : TenantID) (st : RuntimeState) (store : MemoryStore) : MemoryStore :=
  mkStore (store_planner store) (<[tenant := st]> (states store)).

Definition LoadRuntimeState (cancelled : bool) (store : MemoryStore) (scope : MutationScope) : res StateError RuntimeState :=
  if cancelled then Err ErrContext
  else if negb (validOpaque (sco_Tenant scope) 128) then Err ErrNotFoundOrDenied
  else Ok (snapshot store (sco_Tenant scope)).

Definition PersistTransitionPlan (cancelled : bool) (plan : TransitionPlan) (store : MemoryStore)
  : res StateError unit * MemoryStore :=
  if cancelled then (Err ErrContext, store) else
  let tenant := sco_Tenant (rec_Scope (res_Receipt (plan_result plan))) in
  if negb (Validate plan) || (tenant ≟ "") then (Err ErrIntegrity, store) else
  if snapshot store tenant ≠? plan_base plan then (Err ErrConflict, store)
  else (Ok tt, put_state tenant (plan_state plan) store).

Definition ApplyCompiledMutation (cancelled : bool) (planner : Planner) (mutation : CompiledMutation) (store : MemoryStore)
  : res StateError TransitionPlan * MemoryStore :=
  if cancelled then (Err ErrContext, store) else
  let tenant := sco_Tenant (bin_Scope (mut_receipt mutation)) in
  if tenant ≟ "" then (Err ErrIntegrity, store) else
  let prior := snapshot store tenant in
  match Plan cancelled planner prior mutation with
  | Err e => (Err e, store)
  | Ok plan =>
    if (prior ≠? plan_base plan) || negb (Validate plan) then (Err ErrIntegrity, store)
    else (Ok plan, put_state tenant (plan_state plan) store)
  end.

Definition Apply (cancelled : bool) (mutation : CompiledMutation) (store : MemoryStore)
  : res StateError TransitionPlan * MemoryStore :=
  ApplyCompiledMutation cancelled (store_planner store) mutation store.

(** ** Reads *)

Definition requireScope (cancelled : bool) (scope : MutationScope) (authority : Authority) (principal : bool)
  : option StateError :=
  if cancelled then Some ErrContext
  else if negb (validateScope scope authority principal) then Some ErrNotFoundOrDenied else None.

(** [if err := requireScope(...); err != nil { return err }; ...] *)
Definition scoped {A} (denied : option StateError) (body : res StateError A) : res StateError A :=
  match denied with Some e => Err e | None => body end.

(** The first record a loop returns, or the denial after it. *)
Definition first_or_denied {A} (p : A -> bool) (l : list A) : res StateError A :=
  match find_index p l with Some (_, x) => Ok x | None => Err ErrNotFoundOrDenied end.

Definition GetAgentRevision (cancelled : bool) (store : MemoryStore) (query : AgentRevisionQuery)
  : res StateError AgentRevisionRecord :=
  scoped (requireScope cancelled (qar_Scope query) AuthorityTenantAdministrator false)
    (first_or_denied (fun r => (rev_AgentID r ≟ qar_AgentID query) && (rev_RevisionID r ≟ qar_RevisionID query))
       (Revisions (snapshot store (sco_Tenant (qar_Scope query))))).

Definition GetPolicyRevision (cancelled : bool) (store : MemoryStore) (query : PolicyRevisionQuery)
  : res StateError PolicyRevisionRecord :=
  if bool_decide (requireScope cancelled (qpr_Scope query) AuthorityTenantAdministrator false <> None) ||
     negb (StateCompiler.validName (qpr_Name query)) || (qpr_Revision query =? 0)
  then Err ErrNotFoundOrDenied
  else first_or_denied (fun r => (pol_Name r ≟ qpr_Name query) && (pol_Revision r =? qpr_Revision query))
         (Policies (snapshot store (sco_Tenant (qpr_Scope query)))).

(** One iteration of the loop over the Turns of [GetSessionView]. *)
Definition view_turn (query : SessionViewQuery) (view : SessionView) (turn : TurnRecord) : SessionView :=
  if tur_SessionID turn ≠? qsv_SessionID query then view else
  match tur_State turn with
  | TurnRunning => mkSessionView (vie_Session view) (Some turn) (vie_QueuedTurns view) (vie_QueuedTurnCount view)
                     (vie_QueuedTruncated view) (vie_RecentEvents view)
  | TurnQueued =>
      mkSessionView (vie_Session view) (vie_ActiveTurn view)
        (if u32 (Z.of_nat (length (vie_QueuedTurns view))) <? qsv_QueuedTurnLimit query
         then vie_QueuedTurns view ++ [turn] else vie_QueuedTurns view)
        (u64 (vie_QueuedTurnCount view + 1)) (vie_QueuedTruncated view) (vie_RecentEvents view)
  | _ => view
  end.

Definition GetSessionView (cancelled : bool) (store : MemoryStore) (query : SessionViewQuery) : res StateError SessionView :=
  scoped (requireScope cancelled (qsv_Scope query) AuthoritySessionOwner true) (
  let st := snapshot store (sco_Tenant (qsv_Scope query)) in
  match findSession st (qsv_Scope query) (qsv_SessionID query) with
  | None => Err ErrNotFoundOrDenied
  | Some (_, session) =>
    let view := foldl (view_turn query) (mkSessionView session None [] 0 false []) (Turns st) in
    let truncated := Z.of_nat (length (vie_QueuedTurns view)) <? vie_QueuedTurnCount view in
    let events := List.filter (fun e => eve_SessionID e ≟ qsv_SessionID query) (Events st) in
    let recent := if qsv_RecentEventLimit query <? u32 (Z.of_nat (length events))
                  then drop (length events - Z.to_nat (qsv_RecentEventLimit query)) events else events in
    Ok (mkSessionView (vie_Session view) (vie_ActiveTurn view) (vie_QueuedTurns view) (vie_QueuedTurnCount view)
          truncated recent)
  end).

Definition GetTurn (cancelled : bool) (store : MemoryStore) (query : TurnQuery) : res StateError TurnRecord :=
  scoped (requireScope cancelled (qtu_Scope query) AuthoritySessionOwner true)
    match findTurn (snapshot store (sco_Tenant (qtu_Scope query))) (qtu_Scope query) (qtu_SessionID query) (qtu_TurnID query) with
    | None => Err ErrNotFoundOrDenied
    | Some (_, turn) => Ok turn
    end.

Definition GetArtifact (cancelled : bool) (store : MemoryStore) (query : ArtifactQuery) : res StateError ArtifactRecord :=
  scoped (requireScope cancelled (qaf_Scope query) AuthoritySessionOwner true)
    (first_or_denied (fun r => (art_Principal r ≟ sco_Principal (qaf_Scope query)) && (art_ArtifactID r ≟ qaf_ArtifactID query))
       (Artifacts (snapshot store (sco_Tenant (qaf_Scope query))))).

Definition GetInvocation (cancelled : bool) (store : MemoryStore) (query : InvocationQuery) : res StateError InvocationRecord :=
  scoped (requireScope cancelled (qin_Scope query) AuthorityRuntimeWorker true)
    match findInvocation (snapshot store (sco_Tenant (qin_Scope query))) (qin_Scope query) (qin_SessionID query)
            (qin_TurnID query) (qin_OperationID query) with
    | None => Err ErrNotFoundOrDenied
    | Some (_, invocation) => Ok invocation
    end.

Definition earliestCursor (st : RuntimeState) (sid : SessionID) : Cursor :=
  match find_index (fun e => eve_SessionID e ≟ sid) (Events st) with Some (_, e) => eve_Cursor e | None => "" end.

(** One iteration of the page loop of [ReadEvents]. *)
Definition page_event (query : EventsQuery) (page : EventPage) (event : ProductEventRecord) : EventPage :=
  if (eve_SessionID event ≟ qev_SessionID query) && (u32 (Z.of_nat (length (epa_Events page))) <? qev_Limit query)
  then mkEventPage (epa_Events page ++ [event]) (eve_Cursor event) (epa_Gap page) else page.

Definition ReadEvents (cancelled : bool) (store : MemoryStore) (query : EventsQuery) : res StateError EventPage :=
  scoped (requireScope cancelled (qev_Scope query) AuthoritySessionOwner true) (
  if (qev_Limit query =? 0) || (1000 <? qev_Limit query) then Err ErrConflict else
  let st := snapshot store (sco_Tenant (qev_Scope query)) in
  match findSession st (qev_Scope query) (qev_SessionID query) with
  | None => Err ErrNotFoundOrDenied
  | Some _ =>
    let start :=
      if qev_After query ≟ "" then Some 0%nat
      else match find_index (fun e => (eve_SessionID e ≟ qev_SessionID query) && (eve_Cursor e ≟ qev_After query)) (Events st) with
           | Some (i, _) => Some (S i)
           | None => None
           end in
    match start with
    | None => Ok (mkEventPage [] "" (Some (mkEventGap (qev_After query) (earliestCursor st (qev_SessionID query)) true)))
    | Some start => Ok (foldl (page_event query) (mkEventPage [] "" None) (drop start (Events st)))
    end
  end).

Definition GetMutationReceipt (cancelled : bool) (store : MemoryStore) (query : MutationReceiptQuery)
  : res StateError MutationReceipt :=
  if cancelled then Err ErrContext else
  match find_index (fun r => (rec_Scope r ≟ qmr_Scope query) && (rec_IdempotencyKey r ≟ qmr_IdempotencyKey query))
          (Receipts (snapshot store (sco_Tenant (qmr_Scope query)))) with
  | None => Err ErrNotFoundOrDenied
  | Some (_, receipt) =>
    if receiptExpired receipt (normalizeTime (pla_now (store_planner store))) then Err ErrReceiptExpired else Ok receipt
  end.

(** The page loop of [ReadAudit] and [ReadOutbox]: skip up to and including the
    record named [after], then collect until the page is full. *)
Fixpoint page_loop {A} (key : A -> string) (after : string) (limit : Z) (seen : bool) (page : list A) (next : string)
    (l : list A) : list A * string :=
  match l with
  | [] => (page, next)
  | x :: l =>
    if negb seen then page_loop key after limit (key x ≟ after) page next l
    else if u32 (Z.of_nat (length page)) =? limit then (page, next)
    else page_loop key after limit true (page ++ [x]) (key x) l
  end.

Definition ReadAudit (cancelled : bool) (store : MemoryStore) (query : AuditQuery) : res StateError AuditPage :=
  scoped (requireScope cancelled (qau_Scope query) AuthorityAuditReader false) (
  let '(facts, next) := page_loop aud_AuditFactID (qau_After query) (qau_Limit query) (qau_After query ≟ "") [] ""
                          (Audit (snapshot store (sco_Tenant (qau_Scope query)))) in
  Ok (mkAuditPage facts next)).

Definition ReadOutbox (cancelled : bool) (store : MemoryStore) (query : OutboxQuery) : res StateError OutboxPage :=
  scoped (requireScope cancelled (qob_Scope query) AuthorityOutboxPublisher false) (
  let '(records, next) := page_loop out_OutboxID (qob_After query) (qob_Limit query) (qob_After query ≟ "") [] ""
                            (Outbox (snapshot store (sco_Tenant (qob_Scope query)))) in
  Ok (mkOutboxPage records next)).

Definition ListOutboxTenants (cancelled : bool) (store : MemoryStore) : res StateError (list TenantID) :=
  if cancelled then Err ErrContext else Ok (sort_strings (map_to_list (states store)).*1).

Definition AuthorizeAgentSpecificationBodyRead (cancelled : bool) (store : MemoryStore)
    (authorization : CompiledReadAuthorization) : res StateError AgentSpecificationBodyRecord :=
  let scope := aut_scope authorization in
  if (sco_Authority scope ≠? AuthorityTenantAdministrator) && (sco_Authority scope ≠? AuthorityRuntimeWorker)
  then Err ErrNotFoundOrDenied
  else scoped (requireScope cancelled scope (sco_Authority scope) false)
    match find_index (fun r => (rev_AgentID r ≟ aut_agentID authorization) && (rev_RevisionID r ≟ aut_revisionID authorization))
            (Revisions (snapshot store (sco_Tenant scope))) with
    | None => Err ErrNotFoundOrDenied
    | Some (_, r) => Ok (mkBodyRecord (rev_Tenant r) (rev_AgentID r) (rev_RevisionID r) (rev_Revision r) (rev_Name r)
                           (rev_ModelProfile r) (rev_Specification r) (rev_CreatedAt r))
    end.

Definition AuthorizeInputEnvelopeRead (cancelled : bool) (store : MemoryStore) (authorization : CompiledReadAuthorization)
  : res StateError InputEnvelopeRecord :=
  let scope := aut_scope authorization in
  scoped (requireScope cancelled scope AuthoritySessionOwner true)
    match find_index (fun r => (inp_Principal r ≟ sco_Principal scope) && (inp_SessionID r ≟ aut_sessionID authorization) &&
                               (inp_InputID r ≟ aut_inputID authorization)) (Inputs (snapshot store (sco_Tenant scope))) with
    | None => Err ErrNotFoundOrDenied
    | Some (_, r) => Ok (mkEnvelopeRecord (inp_Tenant r) (inp_Principal r) (inp_SessionID r) (inp_InputID r) (inp_Content r))
    end.

Definition AuthorizeArtifactRead (cancelled : bool) (store : MemoryStore) (authorization : CompiledReadAuthorization)
  : res StateError ArtifactBodyRecord :=
  let scope := aut_scope authorization in
  scoped (requireScope cancelled scope AuthoritySessionOwner true)
    match find_index (fun r => (art_Principal r ≟ sco_Principal scope) && (art_ArtifactID r ≟ aut_artifactID authorization))
            (Artifacts (snapshot store (sco_Tenant scope))) with
    | None => Err ErrNotFoundOrDenied
    | Some (_, r) => Ok (mkStoredArtifact (art_Tenant r) (art_Principal r) (art_ArtifactID r) (art_Reference r))
    end.

Definition AuthorizeToolActionDescriptorRead (cancelled : bool) (store : MemoryStore)
    (authorization : CompiledReadAuthorization) : res StateError ContentCommitment :=
  let scope := aut_scope authorization in
  scoped (requireScope cancelled scope AuthorityRuntimeWorker true)
    match find_index (fun r => (int_Principal r ≟ sco_Principal scope) && (int_SessionID r ≟ aut_sessionID authorization) &&
                               (int_TurnID r ≟ aut_turnID authorization) && (int_ToolCallID r ≟ aut_toolCallID authorization))
            (ToolIntents (snapshot store (sco_Tenant scope))) with
    | None => Err ErrNotFoundOrDenied
    | Some (_, r) => Ok (mkContentCommitment (int_Tenant r) (int_ActionDescriptor r))
    end.
