(* ===== verification/MemoryTheorems.v ===== *)
(** * The in-memory state store: theorems

    Optimistic persistence is linearizable, every partition is a history of
    planned mutations, and the paged reads enumerate the logs exactly. *)

From Stdlib Require Import Ascii String.
From S2P Require Import Prelude GoString Sha256 GoTime GoJson Sdk StateContract RuntimeContent StateCompiler.
From S2P Require Import StatePlanner PlannerFacts PlannerProgress PlannerTenancy PlannerWf CompilerFacts PlannerScenario.
From S2P Require Import PlannerSafety PlannerRun StateMemory.

Open Scope Z_scope.

(** ** Persistence *)

Lemma receipt_contained st r : r ∈ Receipts st -> containsReceipt st r = true.
Proof.
  intros Hr. unfold containsReceipt. apply existsb_exists. exists r.
  split; [by apply list_elem_of_In | by rewrite !bool_decide_eq_true_2].
Qed.

(** A plan records the state it was computed from, is valid, and names the tenant
    of its mutation. *)
Lemma Plan_sealed cancelled planner prior m plan :
  Plan cancelled planner prior m = Ok plan ->
  plan_base plan = prior /\ Validate plan = true /\
  sco_Tenant (rec_Scope (res_Receipt (plan_result plan))) = mutation_tenant m.
Proof.
  unfold Plan. destruct cancelled; [done|]. case_match eqn:Hk; [done|]. case_match; [done|]. case_match; [done|].
  destruct (findReceipt prior (mut_receipt m)) as [r|] eqn:Hf.
  - case_match; [done|]. case_match eqn:Hc; [done|]. bools. intros [= <-]. unfold findReceipt in Hf.
    destruct (find_index _ _) as [[i r']|] eqn:Hi; [|done]. simpl in Hf. simplify_eq.
    apply find_index_Some in Hi as (Hi & Hm & _). unfold receipt_matches in Hm. bools. split_and!; [done | |].
    + unfold Validate. simpl. rewrite !bool_decide_eq_true_2 by done. simpl. rewrite receipt_contained; [done|].
      by eapply list_elem_of_lookup_2.
    + simpl. unfold mutation_tenant. congruence.
  - destruct (execute _ _ _ _ _) as [[[result effs]|e] s]; [|done]. case_match; [done|]. case_match eqn:Hv; [done|].
    bools. intros [= <-]. by split_and!.
Qed.

Lemma snapshot_put tenant other st store :
  snapshot (put_state tenant st store) other = if bool_decide (tenant = other) then st else snapshot store other.
Proof.
  unfold snapshot, put_state. simpl. case_bool_decide as H; [subst; by rewrite lookup_insert_eq | by rewrite lookup_insert_ne].
Qed.

(** C4: optimistic persistence is linearizable.  A plan computed at any earlier
    time commits exactly when its tenant's partition still equals the state it was
    computed from, and then the store becomes what applying the mutation
    atomically at this point would have made of it, with the same plan; otherwise
    persistence conflicts and the store is unchanged. *)
Theorem persist_linearizes planner prior m plan store :
  Plan false planner prior m = Ok plan -> mutation_tenant m <> "" ->
  if bool_decide (snapshot store (mutation_tenant m) = prior)
  then exists store', PersistTransitionPlan false plan store = (Ok tt, store') /\
         ApplyCompiledMutation false planner m store = (Ok plan, store') /\
         snapshot store' (mutation_tenant m) = plan_state plan /\
         (forall other, other <> mutation_tenant m -> snapshot store' other = snapshot store other)
  else PersistTransitionPlan false plan store = (Err ErrConflict, store).
Proof.
  intros Hp Ht. destruct (Plan_sealed _ _ _ _ _ Hp) as (Hb & Hv & Hs).
  unfold PersistTransitionPlan, ApplyCompiledMutation. fold (mutation_tenant m). rewrite Hs, Hb, Hv.
  rewrite (bool_decide_eq_false_2 (mutation_tenant m = "")) by done. cbn [negb orb].
  case_bool_decide as He; [|done]. rewrite He, Hp, Hb, Hv, bool_decide_eq_true_2 by done. cbn [negb orb].
  eexists. split_and!; [reflexivity | reflexivity | |].
  - by rewrite snapshot_put, bool_decide_eq_true_2.
  - intros other Ho. by rewrite snapshot_put, bool_decide_eq_false_2.
Qed.

Section store.
Context {content : ContentHandoffValidator}.

(** Plans that exist: computed by some planner from some state. *)
Definition planned (plan : TransitionPlan) : Prop :=
  exists cancelled planner prior m, valid_mutation m /\ Plan cancelled planner prior m = Ok plan.

(** The stores that clients reach by interleaving atomic applications and
    persistence of plans computed at arbitrary earlier points, failures included. *)
Inductive reachable : MemoryStore -> Prop :=
| reachable_new planner : reachable (NewMemoryRuntimeStateStore planner)
| reachable_apply cancelled planner m store r store' :
    reachable store -> valid_mutation m -> ApplyCompiledMutation cancelled planner m store = (r, store') -> reachable store'
| reachable_persist cancelled plan store r store' :
    reachable store -> planned plan -> PersistTransitionPlan cancelled plan store = (r, store') -> reachable store'.

Lemma reachable_history store tenant : reachable store -> history tenant (snapshot store tenant).
Proof.
  induction 1 as [planner | c planner m store r store' _ IH Hm H | c plan store r store' _ IH Hp H].
  - unfold snapshot. simpl. rewrite lookup_empty. apply history_empty.
  - unfold ApplyCompiledMutation in H. destruct c; [by simplify_eq|]. case_match eqn:Ht; [by simplify_eq|].
    destruct (Plan _ _ _ _) as [plan|e] eqn:Hp; [|by simplify_eq].
    destruct (_ || _); simplify_eq; [done|]. rewrite snapshot_put. fold (mutation_tenant m) in *.
    destruct (decide (mutation_tenant m = tenant)) as [<-|Hne];
      [rewrite bool_decide_eq_true_2 by done; by eapply history_plan | by rewrite bool_decide_eq_false_2].
  - unfold PersistTransitionPlan in H. destruct c; [by simplify_eq|]. case_match eqn:Ht; [by simplify_eq|].
    destruct (bool_decide (snapshot store _ = plan_base plan)) eqn:He; simpl in H; simplify_eq; [|done].
    apply bool_decide_eq_true_1 in He. destruct Hp as (c' & planner & prior & m & Hm & Hpl).
    destruct (Plan_sealed _ _ _ _ _ Hpl) as (Hb & _ & Hs). rewrite Hs in *. rewrite snapshot_put.
    destruct (decide (mutation_tenant m = tenant)) as [<-|Hne];
      [rewrite bool_decide_eq_true_2 by done | by rewrite bool_decide_eq_false_2].
    eapply history_plan; [exact IH | exact Hm | done |]. by rewrite He, Hb.
Qed.

(** Conversely, every history of a tenant is the content of a reachable store. *)
Lemma history_reachable planner tenant st :
  tenant <> "" -> history tenant st -> st = emptyState \/ reachable (put_state tenant st (NewMemoryRuntimeStateStore planner)).
Proof.
  intros Hne. induction 1 as [|c pl prior m plan _ IH Hm HT Hp]; [by left|]. right.
  destruct (Plan_sealed _ _ _ _ _ Hp) as (Hb & Hv & Hs). rewrite HT in Hs.
  set (base := if bool_decide (prior = emptyState) then NewMemoryRuntimeStateStore planner
               else put_state tenant prior (NewMemoryRuntimeStateStore planner)).
  assert (Hr : reachable base /\ snapshot base tenant = prior /\
               put_state tenant (plan_state plan) base = put_state tenant (plan_state plan) (NewMemoryRuntimeStateStore planner)).
  { unfold base. case_bool_decide as He.
    - subst prior. split_and!; [apply reachable_new | | done]. unfold snapshot. simpl. by rewrite lookup_empty.
    - destruct IH as [|IH]; [done|]. split_and!; [done | by rewrite snapshot_put, bool_decide_eq_true_2|].
      unfold put_state. simpl. by rewrite insert_insert_eq. }
  destruct Hr as (Hr & Hsn & <-). eapply (reachable_persist false plan base (Ok tt)); [done | by exists c, pl, prior, m|].
  unfold PersistTransitionPlan. by rewrite Hv, Hs, Hsn, Hb, bool_decide_eq_false_2, bool_decide_eq_true_2 by done.
Qed.

(** C8: however clients interleave, every partition of the store is at all times a
    state reached by a sequence of planned, compiler-sealed mutations of that
    tenant from the empty state: persistence never loses, reorders or interleaves
    commits, so every history theorem applies to every partition; and every such
    history is the partition of a reachable store. *)
Theorem partitions_are_histories tenant st :
  tenant <> "" -> st <> emptyState ->
  (exists store, reachable store /\ snapshot store tenant = st) <-> history tenant st.
Proof.
  intros Ht He. split.
  - intros (store & Hr & <-). by apply reachable_history.
  - intros [|Hr]%(history_reachable (mkPlanner (fun _ _ => None) zeroTime defaultRetention)); [done| |done].
    eexists. split; [exact Hr|]. by rewrite snapshot_put, bool_decide_eq_true_2.
Qed.

(** C9: tenants are isolated.  Whatever the clients do, every record in a tenant's
    partition (revision, policy, Session, Input, Artifact, conversation entry, tool
    intent, grant, execution, Approval, Turn, invocation, receipt, event, audit
    fact and Outbox record) carries that tenant, and every event, audit fact and
    Outbox record has an identifier by which it can be resumed from. *)
Theorem tenants_isolated store tenant : reachable store -> tenancy tenant (snapshot store tenant).
Proof. intros H. by apply history_tenancy, reachable_history. Qed.
End store.

(** ** Paged reads *)

(** A kept element of a filtered list splits the list it came from. *)
Lemma filter_split {A} (p : A -> bool) (l : list A) l1 x l2 :
  List.filter p l = l1 ++ x :: l2 ->
  exists r1 r2, l = r1 ++ x :: r2 /\ List.filter p r1 = l1 /\ List.filter p r2 = l2 /\ p x = true.
Proof.
  revert l1. induction l as [|y l IH]; intros l1; simpl; [by destruct l1|]. destruct (p y) eqn:Hy.
  - destruct l1 as [|z l1]; simpl; intros [= -> H].
    + exists [], l. by rewrite <- H.
    + destruct (IH _ H) as (r1 & r2 & -> & <- & <- & Hx). exists (z :: r1), r2. simpl. by rewrite Hy.
  - intros H. destruct (IH _ H) as (r1 & r2 & -> & <- & <- & Hx). exists (y :: r1), r2. simpl. by rewrite Hy.
Qed.

Lemma find_index_split {A} (p : A -> bool) (l1 l2 : list A) x :
  p x = true -> (forall y, y ∈ l1 -> p y = false) -> find_index p (l1 ++ x :: l2) = Some (length l1, x).
Proof.
  intros Hx Hl. apply find_index_intro; [by rewrite list_lookup_middle | done |].
  intros j y Hj Hy. apply Hl. rewrite lookup_app_l in Hy by done. by eapply list_elem_of_lookup_2.
Qed.

(** An element with a non-empty key does not have it in common with its
    predecessors. *)
Lemma distinct_before {A} (key : A -> string) l1 x l2 y :
  distinct key (l1 ++ x :: l2) -> key x <> "" -> y ∈ l1 -> key y <> key x.
Proof.
  intros Hd Hx [j Hj]%list_elem_of_lookup_1 He. assert (j = length l1); [|apply lookup_lt_Some in Hj; lia].
  apply (Hd _ _ y x); [by apply lookup_app_l_Some | by apply list_lookup_middle | done | congruence].
Qed.

Section events.
Context (store : MemoryStore) (scope : MutationScope) (sid : SessionID) (limit : Z).
Let st := snapshot store (sco_Tenant scope).
Hypothesis authorized : requireScope false scope AuthoritySessionOwner true = None.
Hypothesis found : findSession st scope sid <> None.
Hypothesis bounded : 0 < limit <= 1000.

(** A client that follows [NextCursor] until a page is empty. *)
Fixpoint follow_events (fuel : nat) (after : Cursor) : option (list ProductEventRecord) :=
  match fuel with
  | O => None
  | S fuel =>
    match ReadEvents false store (mkEventsQuery scope sid after limit) with
    | Ok page => match epa_Gap page, epa_Events page with
                 | Some _, _ => None
                 | None, [] => Some []
                 | None, events => app events <$> follow_events fuel (epa_NextCursor page)
                 end
    | Err _ => None
    end
  end.

Lemma page_fold after l evs next :
  Z.of_nat (length evs) <= limit ->
  foldl (page_event (mkEventsQuery scope sid after limit)) (mkEventPage evs next None) l =
  let more := take (Z.to_nat limit - length evs) (List.filter (of_session sid) l) in
  mkEventPage (evs ++ more) (default next (eve_Cursor <$> last more)) None.
Proof.
  revert evs next. induction l as [|e l IH]; intros evs next Hl; cbn [foldl List.filter]; [by rewrite take_nil, app_nil_r|].
  unfold page_event at 2. cbn [qev_SessionID qev_Limit epa_Events epa_Gap]. rewrite u32_small by lia.
  change (eve_SessionID e ≟ sid) with (of_session sid e). destruct (of_session sid e) eqn:He; cbn [andb]; [|by apply IH].
  destruct (Z.ltb_spec (Z.of_nat (length evs)) limit).
  - rewrite IH by (rewrite length_app; simpl; lia). rewrite length_app.
    replace (Z.to_nat limit - length evs)%nat with (S (Z.to_nat limit - (length evs + length [e]))) by (simpl; lia). simpl.
    rewrite <- app_assoc. simpl. f_equal. destruct (take _ _) as [|y k]; [done|].
    rewrite last_cons_cons. destruct (last (y :: k)) eqn:Hk; [done|]. by apply last_None in Hk.
  - rewrite IH by lia. by replace (Z.to_nat limit - length evs)%nat with 0%nat by lia.
Qed.

Hypothesis cursors : distinct eve_Cursor (Events st).
Hypothesis named : forall e, e ∈ Events st -> eve_Cursor e <> "".

(** The events the next page is taken from. *)
Definition resumes (after : Cursor) (rest : list ProductEventRecord) : Prop :=
  (after = "" /\ rest = Events st) \/
  (exists l x, Events st = l ++ x :: rest /\ of_session sid x = true /\ after = eve_Cursor x).

Lemma resumed_page after rest :
  resumes after rest ->
  ReadEvents false store (mkEventsQuery scope sid after limit) =
  let page := take (Z.to_nat limit) (List.filter (of_session sid) rest) in
  Ok (mkEventPage page (default "" (eve_Cursor <$> last page)) None).
Proof.
  intros Hr. unfold ReadEvents, scoped. cbn [qev_Scope qev_SessionID qev_After qev_Limit]. rewrite authorized. fold st.
  destruct (findSession st scope sid) as [[i s]|]; [|done].
  replace ((limit =? 0) || (1000 <? limit)) with false by lia.
  assert (Hdrop : exists n, (if after ≟ "" then Some 0%nat
    else match find_index (fun e => (eve_SessionID e ≟ sid) && (eve_Cursor e ≟ after)) (Events st) with
         | Some (i, _) => Some (S i) | None => None end) = Some n /\ drop n (Events st) = rest).
  { destruct Hr as [[-> ->]|(l & x & Hx & Ho & ->)].
    - exists 0%nat. by rewrite bool_decide_eq_true_2.
    - exists (S (length l)). assert (Hn : eve_Cursor x <> "") by (apply named; rewrite Hx; set_solver).
      rewrite bool_decide_eq_false_2 by done. rewrite Hx, find_index_split.
      + split; [done|]. by rewrite (cons_middle x), app_assoc, drop_app_length' by (rewrite length_app; simpl; lia).
      + unfold of_session in Ho. rewrite Ho. by apply bool_decide_eq_true_2.
      + intros y Hy. rewrite (bool_decide_eq_false_2 (eve_Cursor y = _)); [by rewrite andb_false_r|].
        eapply distinct_before; [rewrite <- Hx; exact cursors | done | done]. }
  destruct Hdrop as (n & -> & ->). rewrite page_fold by (simpl; lia). simpl. by rewrite Nat.sub_0_r.
Qed.

Lemma follow_rest fuel after rest :
  resumes after rest -> (length rest < fuel)%nat ->
  follow_events fuel after = Some (List.filter (of_session sid) rest).
Proof.
  revert after rest. induction fuel as [|fuel IH]; intros after rest Hr Hf; [lia|]. simpl.
  rewrite (resumed_page after rest Hr). cbn [epa_Gap epa_Events epa_NextCursor].
  pose proof (take_drop (Z.to_nat limit) (List.filter (of_session sid) rest)) as Hsplit.
  destruct (List.filter (of_session sid) rest) as [|e0 kept] eqn:Hk; [by rewrite take_nil|].
  destruct (take (Z.to_nat limit) (e0 :: kept)) as [|p0 page] eqn:Ht.
  { destruct (Z.to_nat limit) eqn:Hz; [lia | done]. }
  destruct (last (p0 :: page)) as [x|] eqn:Hl; [|by apply last_None in Hl].
  apply last_Some in Hl as [page' Hl]. change (fmap (app (p0 :: page)) (follow_events fuel (eve_Cursor x)) = Some (e0 :: kept)).
  rewrite Hl in Hsplit |- *. rewrite <- app_assoc in Hsplit. simpl in Hsplit.
  rewrite <- Hsplit in Hk. destruct (filter_split _ _ _ _ _ Hk) as (r1 & r2 & Hrest & _ & H2 & Hx). simpl.
  rewrite (IH (eve_Cursor x) r2).
  - rewrite H2. cbn [fmap option_fmap option_map]. rewrite <- app_assoc. f_equal. exact Hsplit.
  - right. destruct Hr as [[_ ->]|(l & y & Hy & _ & _)]; [by exists r1, x|].
    exists (l ++ y :: r1), x. by rewrite Hy, Hrest, <- app_assoc.
  - rewrite Hrest, length_app in Hf. simpl in Hf. lia.
Qed.
End events.

(** C11: event replay is complete and exact.  A client that reads pages of any
    legal size from the start and follows [NextCursor] until an empty page obtains
    every product event of its Session once, in order, without meeting a gap, in
    at most one more read than there are events. *)
Theorem event_replay_complete {content : ContentHandoffValidator} store scope sid limit :
  let st := snapshot store (sco_Tenant scope) in
  reachable store -> requireScope false scope AuthoritySessionOwner true = None ->
  findSession st scope sid <> None -> 0 < limit <= 1000 ->
  follow_events store scope sid limit (S (length (Events st))) "" = Some (List.filter (of_session sid) (Events st)).
Proof.
  intros st Hr Ha Hf Hb. pose proof (reachable_history _ (sco_Tenant scope) Hr) as Hh.
  apply follow_rest; [done | done | done | by eapply wf_Cursors, history_well_formed | | by left | lia].
  intros e He. apply history_tenancy, ty_Events in Hh. rewrite Forall_forall in Hh. by apply Hh.
Qed.

(** A client that follows the [Next] position of a log until a page is empty. *)
Fixpoint follow_log {A} (read : string -> res StateError (list A * string)) (fuel : nat) (after : string) : option (list A) :=
  match fuel with
  | O => None
  | S fuel =>
    match read after with
    | Ok ([], _) => Some []
    | Ok (page, next) => app page <$> follow_log read fuel next
    | Err _ => None
    end
  end.

Section log.
Context {A : Type} (key : A -> string) (limit : Z) (log : list A).
Hypothesis bounded : 0 < limit < 2 ^ 32.
Hypothesis keys : distinct key log.
Hypothesis named : forall x, x ∈ log -> key x <> "".

Definition read_log (after : string) : res StateError (list A * string) :=
  Ok (page_loop key after limit (after ≟ "") [] "" log).

Lemma page_loop_collect after l page next :
  Z.of_nat (length page) <= limit ->
  page_loop key after limit true page next l =
  let more := take (Z.to_nat limit - length page) l in (page ++ more, default next (key <$> last more)).
Proof.
  revert page next. induction l as [|x l IH]; intros page next Hl; cbn [page_loop negb]; [by rewrite take_nil, app_nil_r|].
  rewrite u32_small by lia. destruct (Z.eqb_spec (Z.of_nat (length page)) limit).
  - replace (Z.to_nat limit - length page)%nat with 0%nat by lia. simpl. by rewrite app_nil_r.
  - rewrite IH by (rewrite length_app; simpl; lia). rewrite length_app.
    replace (Z.to_nat limit - length page)%nat with (S (Z.to_nat limit - (length page + length [x]))) by (simpl; lia). simpl.
    rewrite <- app_assoc. simpl. f_equal. destruct (take _ _) as [|y k]; [done|].
    rewrite last_cons_cons. destruct (last (y :: k)) eqn:Hk; [done|]. by apply last_None in Hk.
Qed.

Lemma page_loop_skip l1 x l2 page next :
  (forall y, y ∈ l1 -> key y <> key x) ->
  page_loop key (key x) limit false page next (l1 ++ x :: l2) = page_loop key (key x) limit true page next l2.
Proof.
  induction l1 as [|y l1 IH]; intros Hl; simpl; [by rewrite bool_decide_eq_true_2|].
  rewrite bool_decide_eq_false_2 by (apply Hl; left). apply IH. intros z Hz. apply Hl. by right.
Qed.

Definition continues (after : string) (rest : list A) : Prop :=
  (after = "" /\ rest = log) \/ (exists l x, log = l ++ x :: rest /\ after = key x).

Lemma read_log_page after rest :
  continues after rest ->
  read_log after = let page := take (Z.to_nat limit) rest in Ok (page, default "" (key <$> last page)).
Proof.
  unfold read_log. intros [[-> ->]|(l & x & Hx & ->)].
  - rewrite bool_decide_eq_true_2 by done. rewrite page_loop_collect by (simpl; lia). simpl. by rewrite Nat.sub_0_r.
  - rewrite bool_decide_eq_false_2 by (apply named; rewrite Hx; set_solver). rewrite Hx, page_loop_skip.
    + rewrite page_loop_collect by (simpl; lia). simpl. by rewrite Nat.sub_0_r.
    + intros y Hy. eapply distinct_before; [rewrite <- Hx; exact keys | | done]. apply named. rewrite Hx. set_solver.
Qed.

Lemma follow_log_rest fuel after rest :
  continues after rest -> (length rest < fuel)%nat -> follow_log read_log fuel after = Some rest.
Proof.
  revert after rest. induction fuel as [|fuel IH]; intros after rest Hr Hf; [lia|]. cbn [follow_log].
  rewrite (read_log_page after rest Hr). cbv zeta. pose proof (take_drop (Z.to_nat limit) rest) as Hsplit.
  destruct (take (Z.to_nat limit) rest) as [|p0 page] eqn:Ht.
  { destruct rest; [done|]. destruct (Z.to_nat limit) eqn:Hz; [lia | done]. }
  destruct (last (p0 :: page)) as [x|] eqn:Hl; [|by apply last_None in Hl]. 
  change (fmap (app (p0 :: page)) (follow_log read_log fuel (key x)) = Some rest).
  apply last_Some in Hl as [page' Hl]. rewrite (IH (key x) (drop (Z.to_nat limit) rest)).
  - cbn [fmap option_fmap option_map]. by rewrite Hsplit.
  - right. rewrite Hl, <- app_assoc in Hsplit. simpl in Hsplit.
    destruct Hr as [[_ ->]|(l & y & Hy & _)]; [by exists page', x|].
    exists (l ++ y :: page'), x. split; [|done]. rewrite Hy, <- Hsplit at 1. by rewrite <- app_assoc.
  - rewrite length_drop. assert (length rest <> 0%nat); [|lia]. by destruct rest.
Qed.
End log.

(** The pages of the audit and outbox reads as positions in a log. *)
Definition audit_pages (store : MemoryStore) (scope : MutationScope) (limit : Z) (after : string) :=
  match ReadAudit false store (mkAuditQuery scope after limit) with
  | Ok page => Ok (apa_Facts page, apa_Next page) | Err e => Err e end.
Definition outbox_pages (store : MemoryStore) (scope : MutationScope) (limit : Z) (after : string) :=
  match ReadOutbox false store (mkOutboxQuery scope after limit) with
  | Ok page => Ok (opa_Records page, opa_Next page) | Err e => Err e end.

Lemma follow_log_ext {A} (read read' : string -> res StateError (list A * string)) fuel after :
  (forall after, read after = read' after) -> follow_log read fuel after = follow_log read' fuel after.
Proof.
  intros H. revert after. induction fuel as [|fuel IH]; intros after; [done|]. simpl. rewrite H.
  destruct (read' after) as [[[|x page] next]|]; [done | by rewrite IH | done].
Qed.

(** The audit log and the Outbox are read completely: an auditor (publisher)
    that follows [Next] from the start, with pages of any non-zero size, obtains
    exactly the audit facts (Outbox records) of its tenant, once each and in
    commit order. *)
Theorem log_replay_complete {content : ContentHandoffValidator} store auditor publisher limit limit' :
  reachable store ->
  requireScope false auditor AuthorityAuditReader false = None -> 0 < limit < 2 ^ 32 ->
  requireScope false publisher AuthorityOutboxPublisher false = None -> 0 < limit' < 2 ^ 32 ->
  let sa := snapshot store (sco_Tenant auditor) in let so := snapshot store (sco_Tenant publisher) in
  follow_log (audit_pages store auditor limit) (S (length (Audit sa))) "" = Some (Audit sa) /\
  follow_log (outbox_pages store publisher limit') (S (length (Outbox so))) "" = Some (Outbox so).
Proof.
  intros Hr Ha Hl Ho Hl' sa so.
  pose proof (reachable_history _ (sco_Tenant auditor) Hr) as Hha. pose proof (reachable_history _ (sco_Tenant publisher) Hr) as Hho.
  fold sa in Hha. fold so in Hho. split.
  - rewrite (follow_log_ext _ (read_log aud_AuditFactID limit (Audit sa))).
    + apply follow_log_rest; [done | by eapply wf_Audit, history_well_formed | | by left | lia].
      intros f Hf. apply history_tenancy, ty_Audit in Hha. rewrite Forall_forall in Hha. by apply Hha.
    + intros after. unfold audit_pages, ReadAudit, read_log, scoped. cbn [qau_Scope qau_After qau_Limit]. rewrite Ha. fold sa.
      by destruct (page_loop _ _ _ _ _ _ _).
  - rewrite (follow_log_ext _ (read_log out_OutboxID limit' (Outbox so))).
    + apply follow_log_rest; [done | by eapply wf_Outbox, history_well_formed | | by left | lia].
      intros o Hout. apply history_tenancy, ty_Outbox in Hho. rewrite Forall_forall in Hho. by apply Hho.
    + intros after. unfold outbox_pages, ReadOutbox, read_log, scoped. cbn [qob_Scope qob_After qob_Limit]. rewrite Ho. fold so.
      by destruct (page_loop _ _ _ _ _ _ _).
Qed.

(** ** The Session view *)

Definition queued_in (sid : SessionID) (t : TurnRecord) : bool := (tur_SessionID t ≟ sid) && (tur_State t ≟ TurnQueued).

Lemma view_turn_cases query session active queued count truncated events t :
  view_turn query (mkSessionView session active queued count truncated events) t =
  if running_in (qsv_SessionID query) t then mkSessionView session (Some t) queued count truncated events
  else if queued_in (qsv_SessionID query) t then
    mkSessionView session active
      (if u32 (Z.of_nat (length queued)) <? qsv_QueuedTurnLimit query then queued ++ [t] else queued) (u64 (count + 1))
      truncated events
  else mkSessionView session active queued count truncated events.
Proof.
  unfold view_turn, running_in, queued_in, in_session. destruct (bool_decide (tur_SessionID t = _)); [|done].
  by destruct (tur_State t).
Qed.

Lemma view_fold query session l active queued count truncated events :
  0 <= qsv_QueuedTurnLimit query < 2 ^ 32 -> Z.of_nat (length queued) <= qsv_QueuedTurnLimit query ->
  0 <= count -> count + Z.of_nat (length l) < 2 ^ 32 ->
  let more := List.filter (queued_in (qsv_SessionID query)) l in
  foldl (view_turn query) (mkSessionView session active queued count truncated events) l =
  mkSessionView session
    (match last (List.filter (running_in (qsv_SessionID query)) l) with Some t => Some t | None => active end)
    (queued ++ take (Z.to_nat (qsv_QueuedTurnLimit query) - length queued) more)
    (count + Z.of_nat (length more)) truncated events.
Proof.
  intros Hlim. revert active queued count. induction l as [|t l IH]; intros active queued count Hq Hc Hb; cbn [foldl List.filter last].
  { rewrite take_nil, app_nil_r. f_equal. simpl. lia. }
  cbn [length] in Hb. cbv zeta in IH |- *. rewrite view_turn_cases.
  destruct (running_in _ t) eqn:Hrun; [|destruct (queued_in _ t) eqn:Hqd; [|apply IH; lia]].
  - assert (queued_in (qsv_SessionID query) t = false) as ->.
    { unfold running_in, queued_in in *. bools. rewrite (bool_decide_eq_false_2 (tur_State t = _)) by congruence.
      apply andb_false_r. }
    rewrite IH by lia. f_equal. destruct (List.filter (running_in _) l) as [|y k]; [done|].
    rewrite last_cons_cons. destruct (last (y :: k)) eqn:Hk; [done|]. by apply last_None in Hk.
  - rewrite u32_small by lia. unfold u64. rewrite Z.mod_small by lia.
    destruct (Z.ltb_spec (Z.of_nat (length queued)) (qsv_QueuedTurnLimit query)).
    + rewrite IH by (rewrite ?length_app; simpl; lia). rewrite length_app.
      replace (Z.to_nat (qsv_QueuedTurnLimit query) - length queued)%nat
        with (S (Z.to_nat (qsv_QueuedTurnLimit query) - (length queued + length [t]))) by (simpl; lia).
      f_equal; [simpl; by rewrite <- app_assoc | simpl; lia].
    + rewrite IH by lia. replace (Z.to_nat (qsv_QueuedTurnLimit query) - length queued)%nat with 0%nat by lia.
      f_equal. simpl. lia.
Qed.

Lemma last_only {A} (p : A -> bool) (l : list A) x :
  at_most_one (fun y => p y = true) l -> last (List.filter p l) = Some x <-> x ∈ l /\ p x = true.
Proof.
  intros Hu. split.
  - intros Hl. apply last_Some_elem_of in Hl. by apply list_elem_of_In, filter_In in Hl as [Hl%list_elem_of_In Hp].
  - intros [Hx Hp]. destruct (last (List.filter p l)) as [y|] eqn:Hl.
    + apply last_Some_elem_of in Hl. apply list_elem_of_In, filter_In in Hl as [Hy%list_elem_of_In Hpy].
      apply list_elem_of_lookup_1 in Hx as [i Hi], Hy as [j Hj]. assert (i = j) by (by eapply Hu). congruence.
    + apply last_None in Hl. assert (Hin : In x (List.filter p l)) by (apply filter_In; by rewrite <- list_elem_of_In).
      by rewrite Hl in Hin.
Qed.

(** A Session view is exact: for the owner of a Session it shows the one
    running Turn (and none if none runs), the first queued Turns up to the limit
    with the true number of queued Turns, whether the list was cut, and the most
    recent events up to the limit. *)
Theorem session_view_exact {content : ContentHandoffValidator} store query i session :
  let st := snapshot store (sco_Tenant (qsv_Scope query)) in
  let queued := List.filter (queued_in (qsv_SessionID query)) (Turns st) in
  let events := List.filter (of_session (qsv_SessionID query)) (Events st) in
  reachable store -> requireScope false (qsv_Scope query) AuthoritySessionOwner true = None ->
  findSession st (qsv_Scope query) (qsv_SessionID query) = Some (i, session) ->
  0 <= qsv_QueuedTurnLimit query < 2 ^ 32 -> 0 <= qsv_RecentEventLimit query < 2 ^ 32 ->
  Z.of_nat (length (Turns st)) < 2 ^ 32 -> Z.of_nat (length (Events st)) < 2 ^ 32 ->
  exists view, GetSessionView false store query = Ok view /\ vie_Session view = session /\
    (forall t, vie_ActiveTurn view = Some t <-> t ∈ Turns st /\ is_running (qsv_SessionID query) t) /\
    vie_QueuedTurns view = take (Z.to_nat (qsv_QueuedTurnLimit query)) queued /\
    vie_QueuedTurnCount view = Z.of_nat (length queued) /\
    vie_QueuedTruncated view = (qsv_QueuedTurnLimit query <? Z.of_nat (length queued)) /\
    vie_RecentEvents view = drop (length events - Z.to_nat (qsv_RecentEventLimit query)) events.
Proof.
  intros st queued events Hr Ha Hf Hq He Ht Hev.
  pose proof (history_well_formed _ _ (reachable_history _ (sco_Tenant (qsv_Scope query)) Hr)) as Hw. fold st in Hw.
  unfold GetSessionView, scoped. rewrite Ha. fold st. rewrite Hf.
  rewrite view_fold by (simpl; lia). fold queued. simpl. rewrite Nat.sub_0_r. eexists. split_and!; [reflexivity | done | |done|done| |]; simpl.
  - intros t. transitivity (last (List.filter (running_in (qsv_SessionID query)) (Turns st)) = Some t).
    { by destruct (last _). }
    rewrite last_only.
    + unfold running_in, in_session, is_running. split; intros [Hin Hrun]; (split; [done|]); bools; [done|].
      destruct Hrun. by rewrite !bool_decide_eq_true_2.
    + intros a b x y Hx Hy Hpx Hpy. unfold running_in, in_session in *. bools. by eapply (wf_Running _ Hw).
  - rewrite length_take. apply eq_true_iff_eq. rewrite !Z.ltb_lt. lia.
  - change (List.filter (fun e => eve_SessionID e ≟ qsv_SessionID query) (Events st)) with events.
    assert (Hle : (length events <= length (Events st))%nat) by apply filter_length_le.
    rewrite u32_small by lia. destruct (Z.ltb_spec (qsv_RecentEventLimit query) (Z.of_nat (length events))); [done|].
    by replace (length events - Z.to_nat (qsv_RecentEventLimit query))%nat with 0%nat by lia.
Qed.

(** ** Authorized reads *)

Lemma first_or_denied_Ok {A} (p : A -> bool) l x : first_or_denied p l = Ok x -> x ∈ l /\ p x = true.
Proof.
  unfold first_or_denied. destruct (find_index p l) as [[i y]|] eqn:Hf; [|done]. intros [= <-].
  apply find_index_Some in Hf as (Hi & Hp & _). split; [by eapply list_elem_of_lookup_2 | done].
Qed.

Lemma scoped_Ok {A} (denied : option StateError) (body : res StateError A) x :
  scoped denied body = Ok x -> denied = None /\ body = Ok x.
Proof. destruct denied; simpl; [done | by split]. Qed.

Lemma requireScope_None c scope authority principal :
  requireScope c scope authority principal = None -> c = false /\ validateScope scope authority principal = true.
Proof. unfold requireScope. destruct c; [done|]. by destruct (validateScope _ _ _). Qed.

(** Content and records are read only by their owner.  A successful read of a
    Turn, an invocation, an artifact, an Input envelope or a tool descriptor was
    made under a valid scope with the authority the read requires, and returns a
    record of the caller's own partition that carries the caller's principal and
    the identifiers asked for. *)
Theorem reads_scoped cancelled store :
  (forall q t, GetTurn cancelled store q = Ok t ->
     validateScope (qtu_Scope q) AuthoritySessionOwner true = true /\ t ∈ Turns (snapshot store (sco_Tenant (qtu_Scope q))) /\
     (tur_Tenant t, tur_Principal t, tur_SessionID t, tur_TurnID t) =
     (sco_Tenant (qtu_Scope q), sco_Principal (qtu_Scope q), qtu_SessionID q, qtu_TurnID q)) /\
  (forall q i, GetInvocation cancelled store q = Ok i ->
     validateScope (qin_Scope q) AuthorityRuntimeWorker true = true /\
     i ∈ Invocations (snapshot store (sco_Tenant (qin_Scope q))) /\
     (inv_Tenant i, inv_Principal i, inv_OperationID i) =
     (sco_Tenant (qin_Scope q), sco_Principal (qin_Scope q), qin_OperationID q)) /\
  (forall q a, GetArtifact cancelled store q = Ok a ->
     validateScope (qaf_Scope q) AuthoritySessionOwner true = true /\ a ∈ Artifacts (snapshot store (sco_Tenant (qaf_Scope q))) /\
     (art_Principal a, art_ArtifactID a) = (sco_Principal (qaf_Scope q), qaf_ArtifactID q)) /\
  (forall z e, AuthorizeInputEnvelopeRead cancelled store z = Ok e ->
     validateScope (aut_scope z) AuthoritySessionOwner true = true /\
     (ier_Principal e, ier_SessionID e, ier_InputID e) = (sco_Principal (aut_scope z), aut_sessionID z, aut_inputID z) /\
     exists r, r ∈ Inputs (snapshot store (sco_Tenant (aut_scope z))) /\ inp_Content r = ier_Reference e) /\
  (forall z k, AuthorizeToolActionDescriptorRead cancelled store z = Ok k ->
     validateScope (aut_scope z) AuthorityRuntimeWorker true = true /\
     exists r, r ∈ ToolIntents (snapshot store (sco_Tenant (aut_scope z))) /\ cmt_Reference k = int_ActionDescriptor r /\
       (int_Principal r, int_SessionID r, int_TurnID r, int_ToolCallID r) =
       (sco_Principal (aut_scope z), aut_sessionID z, aut_turnID z, aut_toolCallID z)).
Proof.
  split_and!; intros q x H;
    [unfold GetTurn in H | unfold GetInvocation in H | unfold GetArtifact in H | unfold AuthorizeInputEnvelopeRead in H
    | unfold AuthorizeToolActionDescriptorRead in H]; cbv zeta in H;
    apply scoped_Ok in H as [[_ Hs]%requireScope_None H]; (split; [exact Hs|]).
  - destruct (findTurn _ _ _ _) as [[i t]|] eqn:Hf; [|done]. injection H as <-.
    apply find_index_Some in Hf as (Hi & Hp & _). unfold turn_matches in Hp. bools.
    split; [by eapply list_elem_of_lookup_2 | by repeat f_equal].
  - destruct (findInvocation _ _ _ _ _) as [[i t]|] eqn:Hf; [|done]. injection H as <-.
    apply find_index_Some in Hf as (Hi & Hp & _). bools. split; [by eapply list_elem_of_lookup_2 | by repeat f_equal].
  - apply first_or_denied_Ok in H as [Hin Hp]. bools. split; [done | by repeat f_equal].
  - destruct (find_index _ _) as [[i r]|] eqn:Hf; [|done]. injection H as <-. apply find_index_Some in Hf as (Hi & Hp & _).
    bools. split; [simpl; by repeat f_equal|]. exists r. split; [by eapply list_elem_of_lookup_2 | done].
  - destruct (find_index _ _) as [[i r]|] eqn:Hf; [|done]. injection H as <-. apply find_index_Some in Hf as (Hi & Hp & _).
    bools. exists r. split_and!; [by eapply list_elem_of_lookup_2 | done | by repeat f_equal].
Qed.

(** ** The theorems at work *)

Definition scenario_store (st : RuntimeState) : MemoryStore := put_state "tenant-a" st (NewMemoryRuntimeStateStore (planner_at 11)).

Lemma scenario_snapshot st scope : sco_Tenant scope = "tenant-a" -> snapshot (scenario_store st) (sco_Tenant scope) = st.
Proof. intros ->. unfold scenario_store. by rewrite snapshot_put, bool_decide_eq_true_2. Qed.

Lemma committed_not_empty st : (length (Receipts st) =? 0)%nat = false -> st <> emptyState.
Proof. by intros H ->. Qed.

Lemma st9_not_empty : st9 <> emptyState.
Proof. apply committed_not_empty. vm_compute. reflexivity. Qed.
Lemma st10_not_empty : st10 <> emptyState.
Proof. apply committed_not_empty. vm_compute. reflexivity. Qed.

Lemma scenario_reachable st : st <> emptyState -> history "tenant-a" st -> reachable (scenario_store st).
Proof. intros He Hh. destruct (history_reachable (planner_at 11) "tenant-a" st ltac:(discriminate) Hh) as [|H]; [done | exact H]. Qed.

Lemma st9_reachable : reachable (scenario_store st9).
Proof. exact (scenario_reachable _ st9_not_empty history_st9). Qed.
Lemma st10_reachable : reachable (scenario_store st10).
Proof. exact (scenario_reachable _ st10_not_empty history_st10). Qed.

Lemma settle1_plan : Plan false (planner_at 10) st9 (sealed_or settle1) = Ok plan10.
Proof. vm_compute. reflexivity. Qed.

Lemma st8_not_st9 : snapshot (scenario_store st8) (mutation_tenant (sealed_or settle1)) <> st9.
Proof.
  unfold mutation_tenant. rewrite scenario_snapshot by (vm_compute; reflexivity). intros He.
  apply (f_equal (fun st => length (Receipts st))) in He. vm_compute in He. discriminate He.
Qed.

(** [settle1] planned against [st9] commits on a store that holds [st9] and
    conflicts on one that holds [st8]. *)
Lemma persist_linearizes_witness :
  (exists store', PersistTransitionPlan false plan10 (scenario_store st9) = (Ok tt, store') /\
     snapshot store' (mutation_tenant (sealed_or settle1)) = plan_state plan10) /\
  PersistTransitionPlan false plan10 (scenario_store st8) = (Err ErrConflict, scenario_store st8).
Proof.
  split.
  - pose proof (persist_linearizes (planner_at 10) st9 (sealed_or settle1) plan10 (scenario_store st9) settle1_plan
      ltac:(discriminate)) as H.
    rewrite bool_decide_eq_true_2 in H by (apply scenario_snapshot; vm_compute; reflexivity).
    destruct H as (store' & H & _ & Hs & _). exists store'. split; [exact H | exact Hs].
  - pose proof (persist_linearizes (planner_at 10) st9 (sealed_or settle1) plan10 (scenario_store st8) settle1_plan
      ltac:(discriminate)) as H.
    rewrite bool_decide_eq_false_2 in H by apply st8_not_st9. exact H.
Defined.

Lemma partitions_are_histories_witness : exists store, reachable store /\ snapshot store "tenant-a" = st10.
Proof. apply (partitions_are_histories "tenant-a" st10 ltac:(discriminate) st10_not_empty). exact history_st10. Defined.

Lemma tenants_isolated_witness : tenancy "tenant-a" (snapshot (scenario_store st10) "tenant-a").
Proof. exact (tenants_isolated (scenario_store st10) "tenant-a" st10_reachable). Defined.

Lemma event_replay_complete_witness :
  follow_events (scenario_store st10) owner session1 2 (S (length (Events st10))) "" =
    Some (List.filter (of_session session1) (Events st10)) /\ (2 < length (List.filter (of_session session1) (Events st10)))%nat.
Proof.
  split; [|vm_compute; lia]. pose proof (event_replay_complete (scenario_store st10) owner session1 2) as H.
  cbv zeta in H. rewrite scenario_snapshot in H by reflexivity. apply H.
  - exact st10_reachable.
  - vm_compute. reflexivity.
  - vm_compute. discriminate.
  - lia.
Defined.

Definition auditor : MutationScope := mkScope "tenant-a" "" AuthorityAuditReader.

Lemma log_replay_complete_witness :
  follow_log (audit_pages (scenario_store st10) auditor 3) (S (length (Audit st10))) "" = Some (Audit st10) /\
  follow_log (outbox_pages (scenario_store st10) publisher 5) (S (length (Outbox st10))) "" = Some (Outbox st10).
Proof.
  pose proof (log_replay_complete (scenario_store st10) auditor publisher 3 5) as H.
  cbv zeta in H. rewrite !scenario_snapshot in H by reflexivity. apply H.
  - exact st10_reachable.
  - vm_compute. reflexivity.
  - lia.
  - vm_compute. reflexivity.
  - lia.
Defined.

Definition view_query : SessionViewQuery := mkSessionViewQuery owner session1 3 0.

Lemma session_view_exact_witness : exists view,
  GetSessionView false (scenario_store st9) view_query = Ok view /\ vie_QueuedTruncated view = true /\ vie_QueuedTurnCount view = 1.
Proof.
  pose proof (session_view_exact (scenario_store st9) view_query 0 (nth 0 (Sessions st9) zeroSessionRecord)) as H.
  cbv zeta in H. rewrite scenario_snapshot in H by reflexivity. destruct H as (view & Hv & _ & _ & _ & Hc & Ht & _).
  - exact st9_reachable.
  - vm_compute. reflexivity.
  - vm_compute. reflexivity.
  - vm_compute. split; congruence.
  - vm_compute. split; congruence.
  - vm_compute. reflexivity.
  - vm_compute. reflexivity.
  - exists view. split_and!; [exact Hv | rewrite Ht; vm_compute; reflexivity | rewrite Hc; vm_compute; reflexivity].
Defined.
