(* ===== verification/AdmissionFacts.v ===== *)
(** * What an admission leaves behind

    The receipt of an accepted Input, in every state of a history, names one Input and one
    Turn, and its digest is that of the Session and content reference of that Input
    ([admission_recorded]).  The text that is digested determines both
    ([admission_text_inj]). *)

From Stdlib Require Import Ascii String.
From S2P Require Import Prelude GoString Sha256 GoTime GoJson GoJsonText JsonFacts JsonStrings JsonValues GoDecode DecodeFacts Sdk StateContract RuntimeContent ContentFacts StateCompiler.
From S2P Require Import StatePlanner PlannerFacts PlannerProgress PlannerTenancy PlannerWf CompilerFacts PlannerSafety PlannerTheorems.

Open Scope Z_scope.

(** ** The digested text *)

Definition admission_shape (session : SessionID) (r : Reference) : jval := JObj [("Session", JStr session); ("Reference", json_Reference r)].

Definition admission_text (scope : MutationScope) (key : string) (session : SessionID) (r : Reference) : option string :=
  canonical CommandAdmitInput scope key (admission_shape session r).

(** A decoder of the shape, to tell two texts apart. *)
Definition shape_fields : list (field (SessionID * Reference)) :=
  let reference_fields := [
    field_of "Digest" dec_string ref_Digest (fun v r => mkReference v (ref_MediaType r) (ref_SizeBytes r));
    field_of "MediaType" dec_string ref_MediaType (fun v r => mkReference (ref_Digest r) v (ref_SizeBytes r));
    field_of "SizeBytes" dec_uint64 ref_SizeBytes (fun v r => mkReference (ref_Digest r) (ref_MediaType r) v)] in
  [ field_of "Session" dec_string fst (fun v p => (v, p.2));
    field_of "Reference" (dec_struct false reference_fields) snd (fun v p => (p.1, v)) ].

Lemma reference_valid r : validReference r = true -> utf8 (bytes (ref_Digest r)) /\ utf8 (bytes (ref_MediaType r)) /\ 0 <= ref_SizeBytes r <= max_u64.
Proof.
  unfold validReference, validOpaque. change (Z.shiftl 2 20 + Z.shiftl 4 10) with 2101248. intros H. bools. split_and!; [by apply valid_utf8..| |]; unfold max_u64; lia.
Qed.

Lemma session_text s : validSession s = true -> utf8 (bytes s).
Proof. intros H%bool_decide_eq_true. apply (parsed_id sessionPrefix) in H as [[H _] _]; [by apply valid_utf8|done|vm_compute; discriminate]. Qed.

Lemma shape_carried s r : validSession s = true -> validReference r = true ->
  carries (fun p => admission_shape p.1 p.2) (dec_struct false shape_fields) ("", mkReference "" "" 0) 2 (s, r).
Proof.
  intros Hs%session_text (Hd & Hm & Hz)%reference_valid. apply carries_object_carries. eapply fills_struct; [reflexivity|]. cbn [fst snd].
  fill; [by apply carries_string|]. fill; [|apply fills_nil].
  apply carries_object_carries. eapply fills_struct; [reflexivity|]. fill; [by apply carries_string|]. fill; [by apply carries_string|]. fill; [by apply carries_uint64|]. destruct r. apply fills_nil.
Qed.

Lemma canonical_shape kind scope key x y text : canonical kind scope key x = Some text -> canonical kind scope key y = Some text ->
  exists body, marshal x = Some body /\ marshal y = Some body.
Proof.
  unfold canonical. cbn [marshal json_scope]. destruct (marshal x) as [a|]; [|done]. destruct (marshal y) as [b|]; [|done]. cbn [join].
  intros <-%(inj Some) H%(inj Some). exists a. split; [done|]. f_equal. apply bytes_inj. apply (f_equal bytes) in H. rewrite !bytes_app, <- !app_assoc in H.
  repeat apply app_inv_head in H. by apply app_inv_tail in H.
Qed.

(** The text determines the Session and the reference. *)
Lemma admission_text_inj scope key s r s' r' text : validSession s = true -> validReference r = true -> validSession s' = true -> validReference r' = true ->
  admission_text scope key s r = Some text -> admission_text scope key s' r' = Some text -> s = s' /\ r = r'.
Proof.
  intros Hs Hr Hs' Hr' H H'. destruct (canonical_shape _ _ _ _ _ _ H H') as (body & Hb & Hb').
  destruct (carries_parse _ _ _ _ _ (shape_carried s r Hs Hr)) as (t & d & E & Hp & Hd); [by apply Nat.leb_le|].
  destruct (carries_parse _ _ _ _ _ (shape_carried s' r' Hs' Hr')) as (t' & d' & E' & Hp' & Hd'); [by apply Nat.leb_le|].
  change (marshal (admission_shape s r) = Some t) in E. change (marshal (admission_shape s' r') = Some t') in E'.
  assert (t = t') as <- by congruence. assert (d = d') as <- by congruence. rewrite Hd in Hd'. by injection Hd' as [= -> ->].
Qed.

(** ** The record of an admission *)

(** What the receipt of an accepted Input stands for. *)
Record admitted (st : RuntimeState) (r : MutationReceipt) (i : InputRecord) (t : TurnRecord) : Prop := mkAdmitted {
  adm_Input : i ∈ Inputs st;
  adm_Turn : t ∈ Turns st;
  adm_InputID : inp_InputID i = rec_InputID r /\ inp_InputID i <> "";
  adm_TurnID : tur_TurnID t = rec_TurnID r /\ tur_TurnID t <> "";
  adm_pair : tur_InputID t = inp_InputID i /\ tur_SessionID t = inp_SessionID i;
  adm_owner : (inp_Tenant i, inp_Principal i) = (sco_Tenant (rec_Scope r), sco_Principal (rec_Scope r));
  adm_AcceptedAt : inp_AcceptedAt i = rec_AcceptedAt r;
  adm_valid : validSession (inp_SessionID i) = true /\ validReference (inp_Content i) = true;
  adm_digest : exists text, admission_text (rec_Scope r) (rec_IdempotencyKey r) (inp_SessionID i) (inp_Content i) = Some text /\
    rec_RequestDigest r = "sha256:" +:+ sha256_hex text
}.

Section admissions.
Context {content : ContentHandoffValidator}.

Lemma admitted_mono R st st' r i t : evolution R st st' -> admitted st r i t -> exists t', turn_identity t' = turn_identity t /\ admitted st' r i t'.
Proof.
  intros He [Hi Ht H1 H2 H3 H4 H5 H6 H7]. destruct (survives_turn _ _ _ He _ Ht) as (t' & Ht' & E). exists t'. split; [done|].
  unfold turn_identity in E. simplify_eq. constructor; try done; [|naive_solver congruence..].
  destruct (pg_Inputs _ _ _ He) as [new ->]. set_solver.
Qed.

(** The command of an admission. *)
Lemma compiled_admission m : compiled m -> mut_kind m = CommandAdmitInput ->
  exists c k text, mut_command m = compiledAdmit c k /\ validSession (cai_SessionID c) = true /\ validReference (cmt_Reference k) = true /\
    admission_text (bin_Scope (mut_receipt m)) (bin_IdempotencyKey (mut_receipt m)) (cai_SessionID c) (cmt_Reference k) = Some text /\
    bin_RequestDigest (mut_receipt m) = "sha256:" +:+ sha256_hex text /\ bin_Command (mut_receipt m) = CommandAdmitInput.
Proof.
  intros Hc Hk.
  destruct Hc as [c H|c H|c H|c H|c H|c H|c H|c H|c H|c H|c H|c H|c H|c H|c H|c H|c H|c H|c H|c H|c H|c H|c H|c H|c H|c H].
  all: lazymatch type of H with ?f _ _ = _ => unfold f in H | ?f _ = _ => unfold f in H end; cbv zeta in H.
  all: repeat (case_match; try discriminate H); bools; apply compile_Ok in H as (Hk' & Hc & _ & text & Ht & Hr); rewrite Hk' in Hk; try discriminate Hk.
  rewrite Hc, Hr. by eexists _, _, text.
Qed.

(** The first commit of an admission. *)
Definition input_made (scope : MutationScope) (session : SessionID) (r : Reference) (now : Time) (i : InputRecord) (t : TurnRecord) (st : RuntimeState) : Prop :=
  i ∈ Inputs st /\ t ∈ Turns st /\ inp_InputID i <> "" /\ tur_TurnID t <> "" /\ tur_InputID t = inp_InputID i /\ tur_SessionID t = inp_SessionID i /\
  (inp_Tenant i, inp_Principal i) = (sco_Tenant scope, sco_Principal scope) /\ inp_AcceptedAt i = now /\ inp_SessionID i = session /\ inp_Content i = r.

Lemma admit_input_record planner binding c k now s : wp (admit_input planner binding c k now) s (fun re s' =>
  input_made (bin_Scope binding) (cai_SessionID c) (cmt_Reference k) now (res_Input re.1) (res_Turn re.1) (pst_state s')).
Proof.
  unfold admit_input. wp_walk. apply routed_quiet, quiet_collections in Hq as (HT & _ & HI). cbn in *. apply findSession_owner in Hr.
  unfold input_made. rewrite HT, HI. cbn. split_and!; try done; [set_solver|set_solver|by eapply parseID_nonempty|by eapply parseID_nonempty|congruence..].
Qed.

Lemma fresh_admission planner prior m plan : valid_mutation m -> mut_kind m = CommandAdmitInput -> fresh_plan planner prior m plan ->
  admitted (plan_state plan) (res_Receipt (plan_result plan)) (res_Input (plan_result plan)) (res_Turn (plan_result plan)).
Proof.
  intros [Hc _] Hk (_ & result & effs & s & Hx & ->). destruct (compiled_admission _ Hc Hk) as (c & k & text & Ec & Hs & Hr & Ht & Hd & Hb).
  rewrite Ec in Hx. pose proof (admit_input_record _ _ _ _ _ _ _ _ Hx) as (H1 & H2 & H3 & H4 & H5 & H6 & H7 & H8 & H9 & H10). cbn [fst] in *.
  constructor; cbn; try done.
  - split; [|done]. unfold firstID. by rewrite bool_decide_eq_false_2.
  - by rewrite H9, H10.
  - exists text. by rewrite H9, H10.
Qed.

(** In every state of a history, every receipt of an admission has its Input and its Turn. *)
Lemma admission_recorded T st r : history T st -> r ∈ Receipts st -> rec_Command r = CommandKind_text CommandAdmitInput -> exists i t, admitted st r i t.
Proof.
  intros H. revert r. induction H as [|c pl prior m plan _ IH Hm _ Hp]; intros r Hr Hc; [by apply elem_of_nil in Hr|].
  assert (Hold : r ∈ Receipts prior -> exists i t, admitted (plan_state plan) r i t).
  { intros Hin. destruct (IH r Hin Hc) as (i & t & Ha). destruct (admitted_mono _ _ _ _ _ _ (plan_progress _ _ _ _ _ Hm Hp) Ha) as (t' & _ & Ha'). eauto. }
  destruct (Plan_Ok _ _ _ _ _ Hp) as (Hk & _ & _ & _ & [Hf|(r' & _ & _ & _ & _ & E)]); [|subst plan; by apply Hold].
  assert (Hcommand : rec_Command (res_Receipt (plan_result plan)) = CommandKind_text (mut_kind m)) by apply (committed_receipt _ _ _ _ _ Hm Hp).
  pose proof (fun E => fresh_admission pl prior m plan Hm E Hf) as Hnew. destruct Hf as (_ & result & effs & s & Hx & E). cbv zeta in E.
  assert (Hin : r ∈ Receipts prior \/ r = res_Receipt (plan_result plan)).
  { rewrite <- (execute_receipts _ _ _ _ _ _ Hm Hx). subst plan. cbn in Hr |- *. set_solver. }
  destruct Hin as [Hin| ->]; [by apply Hold|]. eexists _, _. apply Hnew. rewrite Hcommand in Hc. by destruct (mut_kind m).
Qed.

Lemma last_match_elem {A} (p : A -> bool) d (l : list A) : (exists x, x ∈ l /\ p x = true) -> last_match p d l ∈ l /\ p (last_match p d l) = true.
Proof.
  unfold last_match. induction l as [|y l IH] using rev_ind; [intros (x & Hx%elem_of_nil & _); done|]. rewrite foldl_snoc.
  intros (x & Hx & Hp). destruct (p y) eqn:Hy; [set_solver|]. destruct IH as [IH1 IH2]; [|set_solver].
  exists x. split; [|done]. apply elem_of_app in Hx as [Hx|Hx%list_elem_of_singleton]; [done|congruence].
Qed.

(** The record that a replay finds by an identifier is the one that has it. *)
Lemma last_match_distinct {A} (key : A -> string) d (l : list A) x : distinct key l -> x ∈ l -> key x <> "" -> last_match (fun y => key y ≟ key x) d l = x.
Proof.
  intros Hd Hx Hne. destruct (last_match_elem (fun y => key y ≟ key x) d l) as [Hl Hk]; [exists x; by rewrite bool_decide_eq_true_2|].
  apply bool_decide_eq_true_1 in Hk. apply list_elem_of_lookup in Hl as [i Hi]. apply list_elem_of_lookup in Hx as [j Hj].
  assert (i = j) as -> by (eapply Hd; [exact Hi|exact Hj|done|by rewrite Hk]). congruence.
Qed.

(** An admission that is planned, first or replayed, answers with the Input and the Turn of
    its receipt. *)
Lemma planned_admission T cancelled planner prior m plan : history T prior -> valid_mutation m -> mut_kind m = CommandAdmitInput ->
  Plan cancelled planner prior m = Ok plan ->
  admitted (plan_state plan) (res_Receipt (plan_result plan)) (res_Input (plan_result plan)) (res_Turn (plan_result plan)).
Proof.
  intros Hh Hm Hk Hp. destruct (Plan_Ok _ _ _ _ _ Hp) as (_ & _ & _ & _ & [Hf|(r & Hf & _ & Hc & _ & ->)]); [by eapply fresh_admission|].
  unfold findReceipt in Hf. destruct (find_index _ _) as [[j r']|] eqn:Hj; [|done]. cbn in Hf. simplify_eq.
  apply find_index_Some in Hj as (Hj & _). rewrite Hk in Hc. destruct (admission_recorded _ _ r Hh) as (i & t & Ha); [by eapply list_elem_of_lookup_2|done|].
  pose proof (history_well_formed _ _ Hh) as Hwf. pose proof Ha as [Hi Ht [H1 H1'] [H2 H2'] _ _ _ _ _]. cbn.
  by rewrite <- H1, <- H2, (last_match_distinct _ _ _ _ (wf_Inputs _ Hwf) Hi H1'), (last_match_distinct _ _ _ _ (wf_Turns _ Hwf) Ht H2').
Qed.
End admissions.
