(* ===== verification/StateRuntime.v ===== *)
(** * The state-backed runtime

    Models StateRuntime of internal/runtimeapi/state_runtime.go: every public operation, on
    the content store, the compiler, the planner and a state store.  The state store is the
    interface [RuntimeStateStore] of operations on the world [W]; [planner] is the clock and
    the identifiers that the planner would draw in a world.  An [ApiError] is the context's
    error or a public Failure. *)

From Stdlib Require Import Ascii String.
From S2P Require Import StateMemory.
From S2P Require Import Prelude GoString Sha256 GoTime GoJson GoJsonText Cbor ToolSchema StateContract StateCompiler StatePlanner Sdk SdkTypes RuntimeContent ContentEnvelope ContentStore.

Open Scope Z_scope.

(** ** Public records *)

Record Identity : Type := mkIdentity { idn_Tenant : string; idn_Principal : string; idn_Admin : bool }.

Record Policy : Type := mkPolicy { plc_Name : string; plc_Revision : Z; plc_Digest : string; plc_Rules : list PolicyRule; plc_CreatedAt : Time }.
Record CreatePolicyRequest : Type := mkCreatePolicy { rcp_IdempotencyKey : string; rcp_Name : string; rcp_Rules : list PolicyRule }.
Record RevisePolicyRequest : Type := mkRevisePolicy { rrp_IdempotencyKey : string; rrp_Name : string; rrp_ExpectedRevision : Z; rrp_Rules : list PolicyRule }.

Record ArtifactPage : Type := mkArtifactPage { afp_Artifacts : list ArtifactReference; afp_Truncated : bool }.
Record ArtifactDownload : Type := mkArtifactDownload { adl_Artifact : ArtifactReference; adl_Body : string }.

Record ApprovalAction : Type := mkApprovalAction { acn_Verb : string; acn_Target : string }.
Record ApprovalScope : Type := mkApprovalScope { asp_MaximumUses : Z }.
Record Approval : Type := mkPublicApproval {
  apr_ID : ApprovalID; apr_SessionID : SessionID; apr_TurnID : TurnID; apr_ToolCallID : string; apr_Requester : string;
  apr_PolicyRevision : string; apr_State : string; apr_Action : option ApprovalAction; apr_Scope : option ApprovalScope;
  apr_ExpiresAt : Time; apr_DecidedAt : option Time
}.
Record ApprovalPage : Type := mkApprovalPage { app_Approvals : list Approval; app_Truncated : bool }.
Record DecideApprovalRequest : Type := mkDecideApproval { rda_ApprovalID : ApprovalID; rda_Decision : string; rda_IdempotencyKey : string }.

Record IdempotencyStatus : Type := mkIdempotencyStatus {
  ids_OperationID : string; ids_Command : string; ids_SessionID : SessionID; ids_TurnID : TurnID; ids_ArtifactID : ArtifactID; ids_AcceptedAt : Time
}.

Inductive ToolCallState : Type :=
| ToolCallIntent | ToolCallAwaitingApproval | ToolCallAuthorized | ToolCallExecuting | ToolCallSucceeded | ToolCallFailed | ToolCallUncertain.
#[export] Instance ToolCallState_eq_dec : EqDecision ToolCallState.
Proof. solve_decision. Defined.

Record CapabilityGrant : Type := mkCapabilityGrant { cgr_MaximumUses : Z; cgr_Uses : Z; cgr_ExpiresAt : Time }.
Record ToolExecution : Type := mkPublicExecution {
  txe_State : ToolCallState; txe_Result : option ArtifactReference; txe_Failure : option Failure; txe_CreatedAt : Time; txe_CompletedAt : option Time
}.
Record ToolCall : Type := mkToolCall {
  tca_ID : string; tca_Name : string; tca_State : ToolCallState; tca_Approval : option Approval; tca_Grant : option CapabilityGrant;
  tca_Execution : option ToolExecution; tca_CreatedAt : Time
}.
Record ToolCallPage : Type := mkToolCallPage { tcp_Calls : list ToolCall; tcp_Truncated : bool }.

Definition MaxIdempotencyKeyBytes : Z := 128.
Definition MaxSessionViewQueuedTurns : Z := 100.
Definition MaxToolCallsPerTurn : nat := 64.
Definition MaxApprovalsPerPage : nat := 64.
Definition MaxArtifactsPerSession : nat := 256.

(** ** Errors *)

Inductive ApiError : Type := ApiContext | ApiFailure (f : Failure).

Definition refusal (code message : string) (retryable : bool) : ApiError := ApiFailure (mkFailure code message retryable ∅).

Definition invalidFailure (message : string) : ApiError := refusal "invalid_input" message false.

Definition stageFailure (e : ContentError) : ApiError :=
  match e with
  | ContentContext => ApiContext
  | ContentUnavailable => refusal "unavailable" "runtime content is unavailable" true
  | ContentIntegrity => refusal "internal" "runtime content integrity check failed" false
  | _ => invalidFailure "request content is invalid"
  end.

Definition contentReadFailure (e : ContentError) : ApiError :=
  match e with
  | ContentContext => ApiContext
  | ContentDenied => refusal "not_found" "resource not found" false
  | ContentUnavailable => refusal "unavailable" "runtime content is unavailable" true
  | _ => refusal "internal" "request failed" false
  end.

Definition runtimeFailure (action : string) (e : StateError) : ApiError :=
  match e with
  | ErrContext => ApiContext
  | ErrConflict | ErrReceiptExpired => refusal "conflict" (action +:+ " conflicts with current state") false
  | ErrNotFoundOrDenied => refusal "not_found" "resource not found" false
  | ErrUnavailable => refusal "unavailable" "durable runtime is unavailable" true
  | ErrIntegrity => refusal "internal" "request failed" false
  | _ => invalidFailure (action +:+ " request is invalid")
  end.

Definition contentAuthorizationFailure (e : StateError) : ContentError :=
  match e with
  | ErrContext => ContentContext
  | ErrUnavailable => ContentUnavailable
  | ErrIntegrity => ContentIntegrity
  | _ => ContentDenied
  end.

(** [if err != nil { return f(err) }] *)
Definition mapped {W E E' A} (f : E -> E') (m : M W E A) : M W E' A := fun w => match m w with (Ok a, w) => (Ok a, w) | (Err e, w) => (Err (f e), w) end.

Definition returning {W E A} (r : res E A) : M W E A := match r with Ok a => mret a | Err e => fail e end.

(** ** Projections *)

Definition publicSession (r : SessionRecord) : Session :=
  mkPublicSession (ses_SessionID r) (ses_AgentID r) (ses_RevisionID r) (ses_State r) (ses_CreatedAt r) (ses_UpdatedAt r).

Definition publicPolicy (r : PolicyRevisionRecord) : Policy := mkPolicy (pol_Name r) (pol_Revision r) (pol_Digest r) (pol_Rules r) (pol_CreatedAt r).

Definition publicTurnWithUsage (r : TurnRecord) (usage : option ModelUsage) (output : option ArtifactReference) : Turn :=
  mkPublicTurn (tur_TurnID r) (tur_InputID r) (tur_Position r) (tur_State r) (tur_StartedAt r) (tur_CompletedAt r) (tur_Failure r) usage output.

Definition publicTurn (r : TurnRecord) : Turn := publicTurnWithUsage r None None.

Definition publicArtifact (r : ArtifactRecord) : ArtifactReference :=
  mkArtifactReference (art_ArtifactID r) (ref_MediaType (art_Reference r)) (ref_SizeBytes (art_Reference r)) (TrimPrefix (ref_Digest (art_Reference r)) "sha256:").

(** An unparsable identifier reads as the empty one. *)
Definition publicApproval (r : ApprovalRecord) : Approval :=
  mkPublicApproval (default "" (ParseApprovalID (app_ApprovalID r))) (app_SessionID r) (app_TurnID r) (app_ToolCallID r) (app_Principal r)
    (app_PolicyRevisionDigest r) (app_State r) (Some (mkApprovalAction (app_ActionVerb r) (app_ActionTarget r)))
    (Some (mkApprovalScope (app_MaximumUses r))) (app_ExpiresAt r) (app_DecidedAt r).

Definition publicEvent (r : ProductEventRecord) : Event :=
  mkPublicEvent (eve_EventID r) (eve_Cursor r) (eve_Sequence r) (eve_Kind r) (eve_SessionID r) (eve_InputID r) (eve_TurnID r) (eve_OccurredAt r).
Definition publicEvents (records : list ProductEventRecord) : list Event := publicEvent <$> records.

(** The latest of the Invocations of a Turn that [p] accepts: by ordinal, then by fence. *)
Definition invocation_of (turn : TurnRecord) (i : InvocationRecord) : bool :=
  (inv_Tenant i ≟ tur_Tenant turn) && (inv_Principal i ≟ tur_Principal turn) && (inv_SessionID i ≟ tur_SessionID turn) && (inv_TurnID i ≟ tur_TurnID turn).

Definition later (i latest : InvocationRecord) : bool :=
  (inv_Ordinal latest <? inv_Ordinal i) || ((inv_Ordinal i =? inv_Ordinal latest) && (inv_Fence latest <? inv_Fence i)).

Definition latest_invocation (p : InvocationRecord -> bool) (turn : TurnRecord) (l : list InvocationRecord) : option InvocationRecord :=
  foldl (fun latest i =>
    if negb (invocation_of turn i && p i) then latest
    else match latest with None => Some i | Some x => if later i x then Some i else latest end) None l.

Definition latestInvocationUsage (st : RuntimeState) (turn : TurnRecord) : option ModelUsage :=
  match latest_invocation (fun i => inv_State i ≠? InvocationIntent) turn (Invocations st) with Some i => inv_Usage i | None => None end.

Definition artifact_of (tenant : TenantID) (principal : PrincipalID) (session : SessionID) (turn : TurnID) (reference : Reference) (r : ArtifactRecord) : bool :=
  (art_Tenant r ≟ tenant) && (art_Principal r ≟ principal) && (art_SessionID r ≟ session) && (art_TurnID r ≟ turn) && (art_Reference r ≟ reference).

Definition find_artifact (p : ArtifactRecord -> bool) (st : RuntimeState) : option ArtifactReference :=
  match find_index p (Artifacts st) with Some (_, r) => Some (publicArtifact r) | None => None end.

Definition latestInvocationOutput (st : RuntimeState) (turn : TurnRecord) : option ArtifactReference :=
  latest ← latest_invocation (fun i => (inv_State i ≟ InvocationSucceeded) && bool_decide (is_Some (inv_Result i))) turn (Invocations st);
  result ← inv_Result latest;
  find_artifact (artifact_of (tur_Tenant turn) (tur_Principal turn) (tur_SessionID turn) (tur_TurnID turn) result) st.

Definition execution_state (s : ToolExecutionState) : ToolCallState :=
  match s with
  | ToolExecutionSucceeded => ToolCallSucceeded
  | ToolExecutionFailed => ToolCallFailed
  | ToolExecutionUncertain => ToolCallUncertain
  | _ => ToolCallExecuting
  end.

Definition publicToolExecution (st : RuntimeState) (r : ToolExecutionRecord) : ToolExecution :=
  mkPublicExecution (execution_state (exe_State r))
    (if exe_State r ≟ ToolExecutionSucceeded
     then result ← exe_Result r; find_artifact (artifact_of (exe_Tenant r) (exe_Principal r) (exe_SessionID r) (exe_TurnID r) result) st
     else None)
    (exe_Failure r) (exe_CreatedAt r)
    (if exe_State r ≟ ToolExecutionIntent then None else Some (exe_UpdatedAt r)).

(** [sort.Slice] by falling revision, then the first of the Agent.  The sort is not stable,
    but the revisions of one Agent have different numbers. *)
Definition latestRevision (st : RuntimeState) (tenant : TenantID) (agent : AgentID) : option AgentRevisionRecord :=
  foldl (fun latest r =>
    if negb ((rev_Tenant r ≟ tenant) && (rev_AgentID r ≟ agent)) then latest
    else match latest with None => Some r | Some x => if rev_Revision x <? rev_Revision r then Some r else latest end) None (Revisions st).

(** A loop that appends the records [p] accepts, until the page is full. *)
Fixpoint bounded {A B} (limit : nat) (p : A -> bool) (f : A -> B) (page : list B) (l : list A) : list B * bool :=
  match l with
  | [] => (page, false)
  | x :: l =>
    if negb (p x) then bounded limit p f page l
    else if Nat.eqb (length page) limit then (page, true)
    else bounded limit p f (page ++ [f x]) l
  end.

(** ** The runtime *)

(** The operations of the interface that the runtime calls. *)
Record RuntimeStateStore (W : Type) : Type := mkStateStore {
  sts_LoadRuntimeState : MutationScope -> M W StateError RuntimeState;
  sts_PersistTransitionPlan : TransitionPlan -> M W StateError unit;
  sts_GetPolicyRevision : PolicyRevisionQuery -> M W StateError PolicyRevisionRecord;
  sts_GetArtifact : ArtifactQuery -> M W StateError ArtifactRecord;
  sts_GetSessionView : SessionViewQuery -> M W StateError StateMemory.SessionView;
  sts_GetTurn : TurnQuery -> M W StateError TurnRecord;
  sts_ReadEvents : EventsQuery -> M W StateError StateMemory.EventPage;
  sts_GetMutationReceipt : MutationReceiptQuery -> M W StateError MutationReceipt;
  sts_AuthorizeAgentSpecificationBodyRead : CompiledReadAuthorization -> M W StateError AgentSpecificationBodyRecord;
  sts_AuthorizeInputEnvelopeRead : CompiledReadAuthorization -> M W StateError InputEnvelopeRecord;
  sts_AuthorizeArtifactRead : CompiledReadAuthorization -> M W StateError ArtifactBodyRecord
}.
Arguments sts_LoadRuntimeState {W} _ _. Arguments sts_PersistTransitionPlan {W} _ _. Arguments sts_GetPolicyRevision {W} _ _. Arguments sts_GetArtifact {W} _ _.
Arguments sts_GetSessionView {W} _ _. Arguments sts_GetTurn {W} _ _. Arguments sts_ReadEvents {W} _ _. Arguments sts_GetMutationReceipt {W} _ _.
Arguments sts_AuthorizeAgentSpecificationBodyRead {W} _ _. Arguments sts_AuthorizeInputEnvelopeRead {W} _ _. Arguments sts_AuthorizeArtifactRead {W} _ _.

(** NewStateRuntime: the allow-list of model profiles. *)
Definition NewStateRuntime (profiles : list string) : option (list string) :=
  if existsb (fun p => (p ≟ "") || (128 <? len p)) profiles || (length profiles =? 0)%nat then None else Some profiles.

Definition administratorScope (identity : Identity) : res ApiError MutationScope :=
  if negb (idn_Admin identity) then Err (invalidFailure "administrator authority is required")
  else match ParseTenantID (idn_Tenant identity) with
       | None => Err (invalidFailure "invalid authenticated identity")
       | Some tenant => Ok (mkScope tenant "" AuthorityTenantAdministrator)
       end.

Definition ownerScope (identity : Identity) : res ApiError MutationScope :=
  match ParseTenantID (idn_Tenant identity), ParsePrincipalID (idn_Principal identity) with
  | Some tenant, Some principal => Ok (mkScope tenant principal AuthoritySessionOwner)
  | _, _ => Err (invalidFailure "invalid authenticated identity")
  end.

Section runtime.
Context {W : Type} (compiler : any -> option (any -> bool)) (objects : ImmutableObjectStore W) (done : W -> bool * W) (id : nat) (root : string).
Context (store : RuntimeStateStore W) (planner : W -> Planner) (profiles : list string).

Definition S_ (A : Type) : Type := M W StateError A.
Definition API (A : Type) : Type := M W ApiError A.

#[local] Instance validator : ContentHandoffValidator := storeValidator id.

Definition validateProfile (profile : string) : API unit := guard_or (invalidFailure "model profile is not configured") (bool_decide (profile ∈ profiles)).

(** contextError(ctx) *)
Definition contextError : S_ unit := fun w => let '(d, w) := done w in (if d then Err ErrContext else Ok tt, w).

(** [runtime.planner.Plan(ctx, prior, mutation)]: the context is checked first. *)
Definition planning (prior : RuntimeState) (mutation : CompiledMutation) : S_ TransitionPlan := fun w =>
  let '(d, w) := done w in (Plan d (planner w) prior mutation, w).

(** The persistence of an attempt: a conflict is retried, unless it is the [last]. *)
Definition persisting (last : bool) (retry : S_ TransitionPlan) (plan : TransitionPlan) : S_ TransitionPlan := fun w =>
  match sts_PersistTransitionPlan store plan w with
  | (Ok _, w) => (Ok plan, w)
  | (Err e, w) => if (e ≠? ErrConflict) || last then (Err e, w) else retry w
  end.

(** The loop of apply with [n] attempts to go. *)
Fixpoint attempts (n : nat) (scope : MutationScope) (compile : res StateError CompiledMutation) : S_ TransitionPlan :=
  match n with
  | O => fail ErrConflict
  | S n =>
    contextError;;
    mutation ← returning compile;
    prior ← sts_LoadRuntimeState store scope;
    plan ← planning prior mutation;
    persisting (Nat.eqb n 0) (attempts n scope compile) plan
  end.

Definition apply (scope : MutationScope) (compile : res StateError CompiledMutation) : S_ TransitionPlan := attempts 3 scope compile.

(** ** Reading content *)

Definition stateAgentBodyRepository (tenant : TenantID) (agent : AgentID) (revision : AgentRevisionID) : C W AgentSpecificationBodyRecord :=
  match CompileAuthorizeAgentSpecificationBodyRead (mkScope tenant "" AuthorityTenantAdministrator) agent revision with
  | None => fail ContentDenied
  | Some authorization => mapped contentAuthorizationFailure (sts_AuthorizeAgentSpecificationBodyRead store authorization)
  end.

Definition stateArtifactRepository (tenant : TenantID) (principal : PrincipalID) (artifact : ArtifactID) : C W ArtifactBodyRecord :=
  match CompileAuthorizeArtifactRead (mkScope tenant principal AuthoritySessionOwner) artifact with
  | None => fail ContentDenied
  | Some authorization => mapped contentAuthorizationFailure (sts_AuthorizeArtifactRead store authorization)
  end.

(** The error of this repository is not translated: apart from the context's, it is none of
    the content store's errors. *)
Definition stateInputRepository (tenant : TenantID) (principal : PrincipalID) (session : SessionID) (input : InputID) : C W InputEnvelopeRecord :=
  match CompileAuthorizeInputEnvelopeRead (mkScope tenant principal AuthoritySessionOwner) session input with
  | None => fail ContentOther
  | Some authorization =>
    mapped (fun e => match e with ErrContext => ContentContext | _ => ContentOther end) (sts_AuthorizeInputEnvelopeRead store authorization)
  end.

Definition readAgentSpecification (tenant : TenantID) (agent : AgentID) (revision : AgentRevisionID) : API AgentSpecification :=
  mapped contentReadFailure (ReadAgentSpecificationBody compiler objects done root (stateAgentBodyRepository tenant agent revision) tenant agent revision).

Definition readInputEnvelope (scope : MutationScope) (session : SessionID) (input : InputID) : API (list ContentPart) :=
  mapped contentReadFailure (ReadInputEnvelope objects done root (stateInputRepository (sco_Tenant scope) (sco_Principal scope) session input)
    (sco_Tenant scope) (sco_Principal scope) session input).

(** ** Agents *)

Definition CreateAgent (identity : Identity) (request : CreateAgentRequest) : API AgentSpecification :=
  scope ← returning (administratorScope identity);
  validateProfile (rca_ModelProfile request);;
  handoff ← mapped stageFailure (StageAgentSpecificationBody compiler objects done id root (sco_Tenant scope)
    (mkBody (rca_Name request) (rca_ModelProfile request) (rca_Instructions request) (rca_Tools request)));
  plan ← mapped (runtimeFailure "create Agent") (apply scope
    (CompileRegisterAgentRevision (mkRegisterAgentRevisionCommand scope (rca_IdempotencyKey request) "" 0 handoff)));
  let revision := res_Revision (plan_result plan) in
  readAgentSpecification (sco_Tenant scope) (rev_AgentID revision) (rev_RevisionID revision).

Definition ReviseAgent (identity : Identity) (request : ReviseAgentRequest) : API AgentSpecification :=
  scope ← returning (administratorScope identity);
  validateProfile (rva_ModelProfile request);;
  st ← mapped (runtimeFailure "load Agent revision") (sts_LoadRuntimeState store scope);
  latest ← match latestRevision st (sco_Tenant scope) (rva_AgentID request) with
           | Some latest => mret latest
           | None => fail (runtimeFailure "revise Agent" ErrNotFoundOrDenied)
           end;
  handoff ← mapped stageFailure (StageAgentSpecificationBody compiler objects done id root (sco_Tenant scope)
    (mkBody (rev_Name latest) (rva_ModelProfile request) (rva_Instructions request) (rva_Tools request)));
  plan ← mapped (runtimeFailure "revise Agent") (apply scope
    (CompileRegisterAgentRevision (mkRegisterAgentRevisionCommand scope (rva_IdempotencyKey request) (rva_AgentID request) (rev_Revision latest) handoff)));
  let revision := res_Revision (plan_result plan) in
  readAgentSpecification (sco_Tenant scope) (rev_AgentID revision) (rev_RevisionID revision).

Definition GetAgentRevision (identity : Identity) (agent : AgentID) (revision : AgentRevisionID) : API AgentSpecification :=
  scope ← returning (administratorScope identity);
  readAgentSpecification (sco_Tenant scope) agent revision.

(** ** Policies *)

Definition CreatePolicy (identity : Identity) (request : CreatePolicyRequest) : API Policy :=
  scope ← returning (administratorScope identity);
  plan ← mapped (runtimeFailure "create Policy") (apply scope
    (CompileRegisterPolicyRevision (mkRegisterPolicyRevisionCommand scope (rcp_IdempotencyKey request) (rcp_Name request) 0 (rcp_Rules request))));
  mret (publicPolicy (res_Policy (plan_result plan))).

Definition RevisePolicy (identity : Identity) (request : RevisePolicyRequest) : API Policy :=
  scope ← returning (administratorScope identity);
  plan ← mapped (runtimeFailure "revise Policy") (apply scope
    (CompileRegisterPolicyRevision (mkRegisterPolicyRevisionCommand scope (rrp_IdempotencyKey request) (rrp_Name request) (rrp_ExpectedRevision request) (rrp_Rules request))));
  mret (publicPolicy (res_Policy (plan_result plan))).

Definition GetPolicy (identity : Identity) (name : string) (revision : Z) : API Policy :=
  scope ← returning (administratorScope identity);
  record ← mapped (runtimeFailure "read Policy") (sts_GetPolicyRevision store (mkPolicyRevisionQuery scope name revision));
  mret (publicPolicy record).

(** ** Artifacts *)

Definition ReadArtifact (identity : Identity) (artifact : ArtifactID) : API ArtifactDownload :=
  scope ← returning (ownerScope identity);
  record ← mapped (runtimeFailure "read Artifact") (sts_GetArtifact store (mkArtifactQuery scope artifact));
  body ← mapped contentReadFailure (ContentStore.ReadArtifact objects done root
    (stateArtifactRepository (sco_Tenant scope) (sco_Principal scope) artifact) (sco_Tenant scope) (sco_Principal scope) artifact);
  mret (mkArtifactDownload (publicArtifact record) body).

Definition OpenArtifact (streamer : option (string -> Z -> C W (option string))) (identity : Identity) (artifact : ArtifactID) : API (Reference * string) :=
  scope ← returning (ownerScope identity);
  mapped (runtimeFailure "open Artifact") (sts_GetArtifact store (mkArtifactQuery scope artifact));;
  mapped contentReadFailure (ContentStore.OpenArtifact root streamer
    (stateArtifactRepository (sco_Tenant scope) (sco_Principal scope) artifact) (sco_Tenant scope) (sco_Principal scope) artifact).

Definition ListSessionArtifacts (identity : Identity) (session : SessionID) : API ArtifactPage :=
  scope ← returning (ownerScope identity);
  mapped (runtimeFailure "list Session Artifacts") (sts_GetSessionView store (mkSessionViewQuery scope session 1 1));;
  st ← mapped (runtimeFailure "list Session Artifacts") (sts_LoadRuntimeState store scope);
  let '(artifacts, truncated) := bounded MaxArtifactsPerSession
    (fun r => (art_Tenant r ≟ sco_Tenant scope) && (art_Principal r ≟ sco_Principal scope) && (art_SessionID r ≟ session)) publicArtifact [] (Artifacts st) in
  mret (mkArtifactPage artifacts truncated).

(** ** Approvals *)

Definition InspectApproval (identity : Identity) (approval : ApprovalID) : API Approval :=
  scope ← returning (ownerScope identity);
  st ← mapped (runtimeFailure "inspect Approval") (sts_LoadRuntimeState store scope);
  match find_index (fun r => (app_Tenant r ≟ sco_Tenant scope) && (app_Principal r ≟ sco_Principal scope) && (app_ApprovalID r ≟ approval)) (Approvals st) with
  | Some (_, r) => mret (publicApproval r)
  | None => fail (runtimeFailure "inspect Approval" ErrNotFoundOrDenied)
  end.

Definition ListApprovals (identity : Identity) : API ApprovalPage :=
  scope ← returning (ownerScope identity);
  st ← mapped (runtimeFailure "list Approvals") (sts_LoadRuntimeState store scope);
  let '(approvals, truncated) := bounded MaxApprovalsPerPage
    (fun r => (app_Tenant r ≟ sco_Tenant scope) && (app_Principal r ≟ sco_Principal scope)) publicApproval [] (Approvals st) in
  mret (mkApprovalPage approvals truncated).

Definition DecideApproval (identity : Identity) (request : DecideApprovalRequest) : API Approval :=
  scope ← returning (ownerScope identity);
  guard_or (invalidFailure "approval decision is invalid") ((rda_Decision request ≟ ApprovalApproved) || (rda_Decision request ≟ ApprovalDenied));;
  mapped (runtimeFailure "decide Approval") (apply scope
    (CompileDecideApproval (mkDecideApprovalCommand scope (rda_IdempotencyKey request) (rda_ApprovalID request) (rda_Decision request))));;
  approval ← InspectApproval identity (rda_ApprovalID request);
  guard_or (runtimeFailure "decide Approval" ErrConflict) (apr_State approval ≠? ApprovalExpired);;
  mret approval.

Definition IdempotencyStatus_ (identity : Identity) (k : string) : API IdempotencyStatus :=
  scope ← returning (if idn_Admin identity then administratorScope identity else ownerScope identity);
  guard_or (invalidFailure "idempotency key is invalid") (negb ((k ≟ "") || (MaxIdempotencyKeyBytes <? len k)));;
  receipt ← mapped (runtimeFailure "read idempotency status") (sts_GetMutationReceipt store (mkMutationReceiptQuery scope k));
  mret (mkIdempotencyStatus (rec_OperationID receipt) (rec_Command receipt) (rec_SessionID receipt) (rec_TurnID receipt) (rec_ArtifactID receipt) (rec_AcceptedAt receipt)).

(** ** Sessions *)

Definition CreateSession (identity : Identity) (request : CreateSessionRequest) : API Session :=
  scope ← returning (ownerScope identity);
  plan ← mapped (runtimeFailure "create Session") (apply scope
    (CompileCreateSession (mkCreateSessionCommand scope (crs_IdempotencyKey request) (crs_AgentRevision request))));
  mret (publicSession (res_Session (plan_result plan))).

Definition authorizeInputArtifact (scope : MutationScope) (part : ContentPart) : API unit :=
  match prt_Artifact part with
  | Some artifact =>
    if prt_Kind part ≠? ContentArtifact then mret tt
    else
      record ← mapped (runtimeFailure "authorize Input Artifact") (sts_GetArtifact store (mkArtifactQuery scope (art_ID artifact)));
      guard_or (runtimeFailure "authorize Input Artifact" ErrNotFoundOrDenied) (publicArtifact record ≟ artifact)
  | None => mret tt
  end.

Definition authorizeInputArtifacts (scope : MutationScope) (parts : list ContentPart) : API unit := for_each (fun _ => authorizeInputArtifact scope) tt parts.

Definition SendInput (identity : Identity) (request : SendInputRequest) : API SendInputResult :=
  scope ← returning (ownerScope identity);
  authorizeInputArtifacts scope (sni_Parts request);;
  handoff ← mapped stageFailure (StageInputEnvelope objects done id root (sco_Tenant scope) (sni_Parts request));
  plan ← mapped (runtimeFailure "send Input") (apply scope
    (CompileAdmitInput (mkAdmitInputCommand scope (sni_IdempotencyKey request) (sni_SessionID request) handoff)));
  let result := plan_result plan in
  parts ← readInputEnvelope scope (inp_SessionID (res_Input result)) (inp_InputID (res_Input result));
  mret (mkSendResult (mkPublicInput (inp_InputID (res_Input result)) parts (inp_AcceptedAt (res_Input result))) (publicTurn (res_Turn result))).

Definition InspectSession (identity : Identity) (session : SessionID) : API SessionView :=
  scope ← returning (ownerScope identity);
  view ← mapped (runtimeFailure "inspect Session") (sts_GetSessionView store (mkSessionViewQuery scope session 20 MaxSessionViewQueuedTurns));
  mret (mkView (publicSession (vie_Session view)) (publicTurn <$> vie_ActiveTurn view) (publicTurn <$> vie_QueuedTurns view)
    (vie_QueuedTurnCount view) (vie_QueuedTruncated view) (publicEvents (vie_RecentEvents view))).

Definition InspectTurn (identity : Identity) (session : SessionID) (turn : TurnID) : API Turn :=
  scope ← returning (ownerScope identity);
  record ← mapped (runtimeFailure "inspect Turn") (sts_GetTurn store (mkTurnQuery scope session turn));
  st ← mapped (runtimeFailure "inspect Turn usage") (sts_LoadRuntimeState store scope);
  mret (publicTurnWithUsage record (latestInvocationUsage st record) (latestInvocationOutput st record)).

(** The three inner loops of InspectToolCalls, each over the call so far. *)
Definition with_approval (session : SessionID) (turn : TurnID) (call : ToolCall) (r : ApprovalRecord) : ToolCall :=
  if (app_ToolCallID r ≟ tca_ID call) && (app_SessionID r ≟ session) && (app_TurnID r ≟ turn)
  then mkToolCall (tca_ID call) (tca_Name call) (if app_State r ≟ ApprovalPending then ToolCallAwaitingApproval else tca_State call)
         (Some (publicApproval r)) (tca_Grant call) (tca_Execution call) (tca_CreatedAt call)
  else call.

Definition with_grant (scope : MutationScope) (session : SessionID) (turn : TurnID) (call : ToolCall) (r : CapabilityGrantRecord) : ToolCall :=
  if (gra_ToolCallID r ≟ tca_ID call) && (gra_SessionID r ≟ session) && (gra_TurnID r ≟ turn) && (gra_Tenant r ≟ sco_Tenant scope) && (gra_Principal r ≟ sco_Principal scope)
  then mkToolCall (tca_ID call) (tca_Name call) (if tca_State call ≠? ToolCallAwaitingApproval then ToolCallAuthorized else tca_State call)
         (tca_Approval call) (Some (mkCapabilityGrant (gra_MaximumUses r) (gra_Uses r) (gra_ExpiresAt r))) (tca_Execution call) (tca_CreatedAt call)
  else call.

Definition with_execution (st : RuntimeState) (session : SessionID) (turn : TurnID) (call : ToolCall) (r : ToolExecutionRecord) : ToolCall :=
  if (exe_ToolCallID r ≟ tca_ID call) && (exe_SessionID r ≟ session) && (exe_TurnID r ≟ turn)
  then let value := publicToolExecution st r in
       mkToolCall (tca_ID call) (tca_Name call) (txe_State value) (tca_Approval call) (tca_Grant call) (Some value) (tca_CreatedAt call)
  else call.

Definition publicToolCall (scope : MutationScope) (st : RuntimeState) (session : SessionID) (turn : TurnID) (intent : ToolIntentRecord) : ToolCall :=
  let call := mkToolCall (int_ToolCallID intent) (int_ToolName intent) ToolCallIntent None None None (int_CreatedAt intent) in
  let call := foldl (with_approval session turn) call (Approvals st) in
  let call := foldl (with_grant scope session turn) call (Grants st) in
  foldl (with_execution st session turn) call (ToolExecutions st).

Definition InspectToolCalls (identity : Identity) (session : SessionID) (turn : TurnID) : API ToolCallPage :=
  scope ← returning (ownerScope identity);
  mapped (runtimeFailure "inspect Tool calls") (sts_GetTurn store (mkTurnQuery scope session turn));;
  st ← mapped (runtimeFailure "inspect Tool calls") (sts_LoadRuntimeState store scope);
  let '(calls, truncated) := bounded MaxToolCallsPerTurn
    (fun r => (int_Tenant r ≟ sco_Tenant scope) && (int_Principal r ≟ sco_Principal scope) && (int_SessionID r ≟ session) && (int_TurnID r ≟ turn))
    (publicToolCall scope st session turn) [] (ToolIntents st) in
  mret (mkToolCallPage calls truncated).

Definition Events (identity : Identity) (session : SessionID) (after : Cursor) (limit : Z) : API EventPage :=
  scope ← returning (ownerScope identity);
  guard_or (invalidFailure "event page limit is outside the supported range") ((1 <=? limit) && (limit <=? 1000));;
  page ← mapped (runtimeFailure "read events") (sts_ReadEvents store (mkEventsQuery scope session after limit));
  mret (mkPage (publicEvents (epa_Events page)) (epa_NextCursor page) (epa_Gap page)).

Definition CancelTurn (identity : Identity) (request : CancelTurnRequest) : API Turn :=
  scope ← returning (ownerScope identity);
  plan ← mapped (runtimeFailure "cancel Turn") (apply scope
    (CompileCancelTurn (mkCancelTurnCommand scope (cnt_IdempotencyKey request) (cnt_SessionID request) (cnt_TurnID request))));
  mret (publicTurn (res_Turn (plan_result plan))).

Definition CloseSession (identity : Identity) (request : CloseSessionRequest) : API Session :=
  scope ← returning (ownerScope identity);
  plan ← mapped (runtimeFailure "close Session") (apply scope
    (CompileCloseSession (mkCloseSessionCommand scope (cls_IdempotencyKey request) (cls_SessionID request))));
  mret (publicSession (res_Session (plan_result plan))).

Definition CancelSession (identity : Identity) (request : CancelSessionRequest) : API Session :=
  scope ← returning (ownerScope identity);
  plan ← mapped (runtimeFailure "cancel Session") (apply scope
    (CompileCancelSession (mkCancelSessionCommand scope (cns_IdempotencyKey request) (cns_SessionID request))));
  mret (publicSession (res_Session (plan_result plan))).
End runtime.
