(* ===== verification/StateRuntimeTheorems.v ===== *)
(** * What the public runtime guarantees

    Proved against the interface [LinearStore]: a state store whose partitions advance
    only by commits of planned mutations, and whose operations take effect at one point of
    the call, with other clients in between.  [memory_linear] shows that the in-memory
    store is one.  An accepted Input is the one that was sent ([sent_input_recorded]), is
    accepted once ([sent_once]), and a call gives up with a conflict only when others made
    progress ([conflict_means_progress]). *)

From Stdlib Require Import Ascii String.
From S2P Require Import Prelude GoString Sha256 GoTime GoJson GoJsonText Sdk SdkTypes StateContract RuntimeContent ContentEnvelope ContentFacts ContentStore ContentTheorems.
From S2P Require Import StateCompiler StatePlanner PlannerFacts PlannerProgress PlannerTenancy PlannerWf CompilerFacts PlannerScenario PlannerSafety PlannerRun PlannerTheorems.
From S2P Require Import StateMemory MemoryTheorems AdmissionFacts StateRuntime.

Open Scope Z_scope.

(** ** Commits *)

(** Histories do not depend on the process: a handoff counts when the store that it names
    would accept it. *)
Definition issued : ContentHandoffValidator := {|
  checkAgentSpecificationBody h := ValidateAgentSpecificationBodyHandoff (han_issuer h) h;
  checkInputEnvelope h := ValidateInputEnvelopeHandoff (han_issuer h) h;
  checkArtifact h := ValidateArtifactHandoff (han_issuer h) h;
  checkConversationEntry h := ValidateConversationEntryHandoff (han_issuer h) h;
  checkToolActionDescriptor h := ValidateToolActionDescriptorHandoff (han_issuer h) h
|}.
#[local] Existing Instance issued.

(** ** The interface *)

Section interface.
Context {W : Type} (part : W -> TenantID -> RuntimeState).

(** Between two worlds, every partition only takes commits. *)
Definition later (w w' : W) : Prop := forall T, extends T (part w T) (part w' T).

#[export] Instance later_preorder : PreOrder later.
Proof. split; [intros w T; apply rtc_refl|intros w1 w2 w3 H1 H2 T; etrans; [apply H1|apply H2]]. Qed.

Definition plan_tenant (plan : TransitionPlan) : TenantID := sco_Tenant (rec_Scope (res_Receipt (plan_result plan))).

Class LinearStore (store : RuntimeStateStore W) (objects : ImmutableObjectStore W) (done : W -> bool * W) : Prop := {
  lin_done w : later w (done w).2;
  lin_put k v w : later w (PutIfAbsent objects k v w).2;
  lin_get k n w : later w (Get objects k n w).2;
  lin_load scope w r w' : sts_LoadRuntimeState store scope w = (r, w') -> later w w' /\
    match r with
    | Ok st => extends (sco_Tenant scope) (part w (sco_Tenant scope)) st /\ extends (sco_Tenant scope) st (part w' (sco_Tenant scope))
    | Err e => e <> ErrConflict
    end;
  lin_persist plan w r w' : planned plan -> sts_PersistTransitionPlan store plan w = (r, w') -> later w w' /\
    let T := plan_tenant plan in
    match r with
    | Ok _ => extends T (part w T) (plan_base plan) /\ extends T (plan_state plan) (part w' T)
    | Err e => e = ErrConflict -> exists st, extends T (part w T) st /\ extends T st (part w' T) /\ st <> plan_base plan
    end;
  lin_artifact query w r w' : sts_GetArtifact store query w = (r, w') -> later w w' /\
    forall a, r = Ok a -> a ∈ Artifacts (part w' (sco_Tenant (qaf_Scope query))) /\
      (art_Principal a, art_ArtifactID a) = (sco_Principal (qaf_Scope query), qaf_ArtifactID query);
  lin_input z w r w' : sts_AuthorizeInputEnvelopeRead store z w = (r, w') -> later w w' /\
    forall e, r = Ok e -> exists i, i ∈ Inputs (part w' (sco_Tenant (aut_scope z))) /\ inp_InputID i = aut_inputID z /\ ier_Reference e = inp_Content i
}.
End interface.

(** ** The in-memory store *)

Section memory.
Context {W : Type} (mem : W -> MemoryStore) (set_mem : MemoryStore -> W -> W) (others : W -> W) (done : W -> bool * W) (objects : ImmutableObjectStore W).

(** The store in a world: [others] is what other clients do before a call takes effect. *)
Definition reading {A} (f : bool -> MemoryStore -> res StateError A) : M W StateError A := fun w =>
  let '(d, w) := done (others w) in (f d (mem w), w).

Definition memoryStateStore : RuntimeStateStore W := mkStateStore W
  (fun scope => reading (fun d s => LoadRuntimeState d s scope))
  (fun plan w => let '(d, w) := done (others w) in let '(r, s) := PersistTransitionPlan d plan (mem w) in (r, set_mem s w))
  (fun q => reading (fun d s => GetPolicyRevision d s q))
  (fun q => reading (fun d s => GetArtifact d s q))
  (fun q => reading (fun d s => GetSessionView d s q))
  (fun q => reading (fun d s => GetTurn d s q))
  (fun q => reading (fun d s => ReadEvents d s q))
  (fun q => reading (fun d s => GetMutationReceipt d s q))
  (fun z => reading (fun d s => AuthorizeAgentSpecificationBodyRead d s z))
  (fun z => reading (fun d s => AuthorizeInputEnvelopeRead d s z))
  (fun z => reading (fun d s => AuthorizeArtifactRead d s z)).

Definition memory_part (w : W) : TenantID -> RuntimeState := snapshot (mem w).

Context (Hset : forall s w, mem (set_mem s w) = s).
Context (Hothers : forall w, later memory_part w (others w)).
Context (Hdone : forall w, mem (done w).2 = mem w).
Context (Hput : forall k v w, mem (PutIfAbsent objects k v w).2 = mem w) (Hget : forall k n w, mem (Get objects k n w).2 = mem w).

Lemma same_later w w' : mem w' = mem w -> later memory_part w w'.
Proof. intros E T. unfold memory_part. by rewrite E. Qed.

Lemma reading_later {A} (f : bool -> MemoryStore -> res StateError A) w r w' : reading f w = (r, w') ->
  later memory_part w w' /\ exists d, r = f d (mem w').
Proof.
  unfold reading. specialize (Hdone (others w)). destruct (done (others w)) as [d v]. cbn in Hdone. intros [= <- <-]. split; [|by exists d].
  etrans; [apply Hothers|by apply same_later].
Qed.

Lemma planned_commit plan : planned plan -> commit (plan_tenant plan) (plan_base plan) (plan_state plan).
Proof. intros (c & pl & prior & m & Hm & Hp). destruct (Plan_sealed _ _ _ _ _ Hp) as (-> & _ & Hs). eapply commit_plan; [exact Hm| |exact Hp]. by rewrite <- Hs. Qed.

Lemma memory_persist plan w r w' : planned plan -> sts_PersistTransitionPlan memoryStateStore plan w = (r, w') -> later memory_part w w' /\
  let T := plan_tenant plan in
  match r with
  | Ok _ => extends T (memory_part w T) (plan_base plan) /\ extends T (plan_state plan) (memory_part w' T)
  | Err e => e = ErrConflict -> exists st, extends T (memory_part w T) st /\ extends T st (memory_part w' T) /\ st <> plan_base plan
  end.
Proof.
  intros Hpl%planned_commit. cbn. specialize (Hdone (others w)). destruct (done (others w)) as [d v]. cbn in Hdone.
  assert (Hv : later memory_part w v) by (etrans; [apply Hothers|by apply same_later]). unfold PersistTransitionPlan. fold (plan_tenant plan).
  assert (Hsame : later memory_part w (set_mem (mem v) v)) by (etrans; [exact Hv|apply same_later, Hset]).
  destruct d; [by intros [= <- <-]|]. destruct (negb (Validate plan) || _); [by intros [= <- <-]|].
  destruct (bool_decide_reflect (snapshot (mem v) (plan_tenant plan) = plan_base plan)) as [E|E]; cbn; intros [= <- <-].
  - assert (Hpart : forall T, memory_part (set_mem (put_state (plan_tenant plan) (plan_state plan) (mem v)) v) T = if bool_decide (plan_tenant plan = T) then plan_state plan else memory_part v T).
    { intros T. unfold memory_part. by rewrite Hset, snapshot_put. }
    split; [|rewrite Hpart, bool_decide_eq_true_2 by done; rewrite <- E; split; [apply Hv|apply rtc_refl]].
    intros T. rewrite Hpart. case_bool_decide as HT; [|apply Hv]. subst T. etrans; [apply Hv|]. unfold memory_part. rewrite E. by apply rtc_once.
  - split; [exact Hsame|]. intros _. exists (memory_part v (plan_tenant plan)). split_and!; [apply Hv| |exact E]. unfold memory_part. rewrite Hset. apply rtc_refl.
Qed.

#[export] Instance memory_linear : LinearStore memory_part memoryStateStore objects done.
Proof.
  constructor.
  - intros w. by apply same_later.
  - intros k v w. by apply same_later.
  - intros k n w. by apply same_later.
  - intros scope w r w' [Hl [d ->]]%reading_later. split; [exact Hl|]. unfold LoadRuntimeState. destruct d; [discriminate|]. destruct (validOpaque _ _); [|discriminate]. split; [apply Hl|apply rtc_refl].
  - apply memory_persist.
  - intros q w r w' [Hl [d ->]]%reading_later. split; [exact Hl|]. intros a Ha. unfold GetArtifact in Ha. apply scoped_Ok in Ha as [_ [Hin Hp]%first_or_denied_Ok]. bools.
    split; [done|by repeat f_equal].
  - intros z w r w' [Hl [d ->]]%reading_later. split; [exact Hl|]. intros e He. unfold AuthorizeInputEnvelopeRead in He. cbv zeta in He. apply scoped_Ok in He as [_ He].
    destruct (find_index _ _) as [[j i]|] eqn:Hf; [|done]. injection He as <-. apply find_index_Some in Hf as (Hi & Hp & _). bools. exists i. split_and!; [by eapply list_elem_of_lookup_2|done..].
Qed.
End memory.

(** ** Calls in a world that advances *)

(** [n] times in turn, a commit of another client came between a load and the persistence
    of what was planned on it. *)
Inductive overtaken (T : TenantID) : nat -> RuntimeState -> RuntimeState -> Prop :=
| overtaken_O st st' : extends T st st' -> overtaken T 0 st st'
| overtaken_S n st loaded current st' : extends T st loaded -> extends T loaded current -> current <> loaded -> overtaken T n current st' -> overtaken T (S n) st st'.

Lemma overtaken_earlier T n st0 st st' : extends T st0 st -> overtaken T n st st' -> overtaken T n st0 st'.
Proof. intros H. destruct 1; [constructor; by etrans|]. econstructor; [by etrans|eassumption..]. Qed.

Lemma mapped_Ok {W E E' A} (f : E -> E') (m : M W E A) a w w' : mapped f m w = (Ok a, w') <-> m w = (Ok a, w').
Proof. unfold mapped. destruct (m w) as [[] ?]; naive_solver. Qed.

Lemma returning_Ok {W E A} (r : res E A) a (w w' : W) : returning r w = (Ok a, w') <-> r = Ok a /\ w = w'.
Proof. unfold returning. destruct r; [rewrite ret_Ok|rewrite fail_Ok]; naive_solver. Qed.

Section calls.
Context {W : Type} (part : W -> TenantID -> RuntimeState) (store : RuntimeStateStore W) (objects : ImmutableObjectStore W) (done : W -> bool * W).
Context {linear : LinearStore part store objects done} (planner : W -> Planner).

Definition forward {E A} (m : M W E A) : Prop := forall w, later part w (m w).2.

Lemma forward_bind {E A B} (m : M W E A) (k : A -> M W E B) : forward m -> (forall a, forward (k a)) -> forward (m ≫= k).
Proof. intros Hm Hk w. unfold mbind, M_bind. specialize (Hm w). destruct (m w) as [[a|e] v]; [|exact Hm]. etrans; [exact Hm|apply Hk]. Qed.

Lemma forward_pure {E A} (m : M W E A) : (forall w, (m w).2 = w) -> forward m.
Proof. intros H w. by rewrite H. Qed.

Lemma forward_guard {E} (e : E) b : forward (guard_or e b).
Proof. apply forward_pure. by destruct b. Qed.

Lemma forward_returning {E A} (r : res E A) : forward (returning r).
Proof. apply forward_pure. by destruct r. Qed.

Lemma forward_lift {A} e (o : option A) : forward (lift e o).
Proof. apply forward_pure. by destruct o. Qed.

Lemma forward_ret {E A} (a : A) : forward (mret a : M W E A).
Proof. by apply forward_pure. Qed.

Lemma forward_fail {E A} (e : E) : forward (fail e : M W E A).
Proof. by apply forward_pure. Qed.

Lemma forward_mapped {E E' A} (f : E -> E') (m : M W E A) : forward m -> forward (mapped f m).
Proof. intros H w. specialize (H w). unfold mapped. by destruct (m w) as [[a|e] v]. Qed.

Lemma forward_classified {A} fallback (m : C W A) : forward m -> forward (classified fallback m).
Proof. intros H w. specialize (H w). unfold classified. by destruct (m w) as [[a|e] v]. Qed.

Lemma forward_alive : forward (alive done).
Proof. intros w. unfold alive. pose proof (@lin_done _ _ _ _ _ linear w) as H. by destruct (done w). Qed.

Lemma forward_contextError : forward (contextError done).
Proof. intros w. unfold contextError. pose proof (@lin_done _ _ _ _ _ linear w) as H. by destruct (done w). Qed.

Lemma forward_put k v : forward (PutIfAbsent objects k v).
Proof. intros w. exact (@lin_put _ _ _ _ _ linear k v w). Qed.

Lemma forward_get k n : forward (Get objects k n).
Proof. intros w. exact (@lin_get _ _ _ _ _ linear k n w). Qed.

Lemma forward_artifact q : forward (sts_GetArtifact store q).
Proof. intros w. destruct (sts_GetArtifact store q w) as [r v] eqn:E. by apply (@lin_artifact _ _ _ _ _ linear) in E as [H _]. Qed.

Lemma forward_input z : forward (sts_AuthorizeInputEnvelopeRead store z).
Proof. intros w. destruct (sts_AuthorizeInputEnvelopeRead store z w) as [r v] eqn:E. by apply (@lin_input _ _ _ _ _ linear) in E as [H _]. Qed.

(** How a call of apply ends. *)
Definition refused (T : TenantID) (compile : res StateError CompiledMutation) (st st' : RuntimeState) : Prop :=
  compile = Err ErrConflict \/ exists m cancelled planner prior, compile = Ok m /\ extends T st prior /\ extends T prior st' /\ Plan cancelled planner prior m = Err ErrConflict.

Definition applied (n : nat) (T : TenantID) (compile : res StateError CompiledMutation) (st st' : RuntimeState) (r : res StateError TransitionPlan) : Prop :=
  match r with
  | Ok plan => exists m cancelled planner, compile = Ok m /\ Plan cancelled planner (plan_base plan) m = Ok plan /\ extends T st (plan_base plan) /\ extends T (plan_state plan) st'
  | Err e => e = ErrConflict -> refused T compile st st' \/ overtaken T n st st'
  end.

Lemma applied_earlier n T compile st0 st st' r : extends T st0 st -> applied n T compile st st' r -> applied n T compile st0 st' r.
Proof.
  intros H. destruct r as [plan|e]; cbn.
  - intros (m & c & pl & H1 & H2 & H3 & H4). exists m, c, pl. split_and!; [done|done|by etrans|done].
  - intros Hc E. destruct (Hc E) as [[|(m & c & pl & prior & H1 & H2 & H3 & H4)]|Ho]; [by left; left| |right; by eapply overtaken_earlier].
    left; right. exists m, c, pl, prior. split_and!; [done|by etrans|done..].
Qed.

(** Mutations of the scope's tenant. *)
Definition compiles_for (scope : MutationScope) (compile : res StateError CompiledMutation) : Prop :=
  forall m, compile = Ok m -> valid_mutation m /\ mutation_tenant m = sco_Tenant scope.

Lemma attempts_spec n scope compile w r w' : compiles_for scope compile -> attempts done store planner n scope compile w = (r, w') ->
  later part w w' /\ applied n (sco_Tenant scope) compile (part w (sco_Tenant scope)) (part w' (sco_Tenant scope)) r.
Proof.
  intros Hc. revert w. induction n as [|n IH]; intros w.
  { cbn. intros [= <- <-]. split; [reflexivity|]. intros _. right. constructor. apply rtc_refl. }
  cbn [attempts]. unfold mbind, M_bind. pose proof (forward_contextError w) as H1. destruct (contextError done w) as [[u|e] w1] eqn:E1; cbn in H1.
  2: { intros [= <- <-]. split; [exact H1|]. intros ->. exfalso. revert E1. unfold contextError. destruct (done w) as [[] v]; discriminate. }
  destruct compile as [m|e]; cbn.
  2: { intros [= <- <-]. split; [exact H1|]. intros ->. by left; left. }
  destruct (Hc m eq_refl) as [Hm HT]. destruct (sts_LoadRuntimeState store scope w1) as [rl w2] eqn:E2. apply (@lin_load _ _ _ _ _ linear) in E2 as [H2 Hl].
  destruct rl as [prior|e].
  2: { intros [= <- <-]. split; [by etrans|]. by intros ->. }
  destruct Hl as [Hl1 Hl2]. unfold planning. pose proof (@lin_done _ _ _ _ _ linear w2) as H3. destruct (done w2) as [d w3]. cbn in H3.
  set (T := sco_Tenant scope) in *. assert (Hprior : extends T (part w T) prior) by (etrans; [apply H1|exact Hl1]).
  assert (H03 : later part w w3) by (do 2 (etrans; [eassumption|]); exact H3). assert (Hp3 : extends T prior (part w3 T)) by (etrans; [exact Hl2|apply H3]).
  destruct (Plan d (planner w3) prior m) as [plan|e] eqn:Ep.
  2: { intros [= <- <-]. split; [done|]. intros ->. left; right. by exists m, d, (planner w3), prior. }
  destruct (Plan_sealed _ _ _ _ _ Ep) as (Eb & _ & Et). unfold persisting.
  assert (Hpl : planned plan) by (by exists d, (planner w3), prior, m).
  destruct (sts_PersistTransitionPlan store plan w3) as [rp w4] eqn:E4. apply (@lin_persist _ _ _ _ _ linear) in E4 as [H4 Hp]; [|done].
  cbv zeta in Hp. unfold plan_tenant in Hp. rewrite Et, HT, Eb in Hp. fold T in Hp. assert (H04 : later part w w4) by (by etrans).
  destruct rp as [u'|e].
  { intros [= <- <-]. split; [done|]. exists m, d, (planner w3). rewrite Eb. split_and!; [done|exact Ep|exact Hprior|apply Hp]. }
  assert (Hovertaken : e = ErrConflict -> exists st, extends T prior st /\ st <> prior /\ extends T st (part w4 T)).
  { intros (st & S1 & S2 & S3)%Hp. exists st. split_and!; [by etrans|done|done]. }
  destruct (bool_decide_reflect (e = ErrConflict)) as [->|He]; cbn.
  2: { intros [= <- <-]. split; [done|]. by intros ->. }
  destruct (Hovertaken eq_refl) as (st & S1 & S2 & S3). destruct (Nat.eqb_spec n 0) as [->|_].
  - intros [= <- <-]. split; [done|]. intros _. right. econstructor; [exact Hprior|exact S1|exact S2|]. by constructor.
  - intros H. destruct (IH _ H) as [H5 Ha]. split; [by etrans|]. destruct r as [plan'|e'].
    + eapply applied_earlier; [apply H04|exact Ha].
    + intros E. destruct (Ha E) as [Hr|Ho]; [|right; econstructor; [exact Hprior|exact S1|exact S2|by eapply overtaken_earlier]].
      left. destruct Hr as [|(m' & c & pl & p & R1 & R2 & R3 & R4)]; [by left|]. right. exists m', c, pl, p. split_and!; [done| |done..]. etrans; [apply H04|exact R2].
Qed.

Lemma forward_at {E A} (m : M W E A) w r w' : forward m -> m w = (r, w') -> later part w w'.
Proof. intros H Hm. specialize (H w). by rewrite Hm in H. Qed.

(** Discharges [forward] for an operation of the content store. *)
Ltac forwarding := repeat first
  [ apply forward_put | apply forward_get | apply forward_alive | apply forward_guard | apply forward_lift | apply forward_ret | apply forward_classified
  | apply forward_mapped | apply forward_returning | apply forward_artifact | apply forward_input | apply forward_fail | apply forward_bind; [|intros ?] ].

Lemma forward_stage_input id root tenant parts : forward (StageInputEnvelope objects done id root tenant parts).
Proof. unfold StageInputEnvelope, putVerified. forwarding. Qed.

(** An Artifact that an Input refers to was recorded for its sender, as it is described. *)
Lemma artifacts_authorized scope parts w u w' : authorizeInputArtifacts store scope parts w = (Ok u, w') -> later part w w' /\
  forall p artifact, p ∈ parts -> prt_Kind p = ContentArtifact -> prt_Artifact p = Some artifact ->
  exists a, a ∈ Artifacts (part w' (sco_Tenant scope)) /\ art_Principal a = sco_Principal scope /\ publicArtifact a = artifact.
Proof.
  unfold authorizeInputArtifacts. destruct u. revert w. induction parts as [|p parts IH]; intros w H; cbn in H.
  { apply ret_Ok in H as [_ <-]. split; [reflexivity|]. intros p artifact Hp%elem_of_nil. done. }
  apply bind_Ok in H as ([] & v & Hp & H). destruct (IH _ H) as [Hl Hrest]. unfold authorizeInputArtifact in Hp.
  assert (Hthis : later part w v /\ forall artifact, prt_Kind p = ContentArtifact -> prt_Artifact p = Some artifact ->
    exists a, a ∈ Artifacts (part v (sco_Tenant scope)) /\ art_Principal a = sco_Principal scope /\ publicArtifact a = artifact).
  { destruct (prt_Artifact p) as [x|]; [|by apply ret_Ok in Hp as [_ <-]]. destruct (bool_decide_reflect (prt_Kind p = ContentArtifact)) as [Hk|Hk]; cbn in Hp; [|by apply ret_Ok in Hp as [_ <-]].
    apply bind_Ok in Hp as (a & v1 & Ha%mapped_Ok & [Hg <-]%guard_Ok). apply (@lin_artifact _ _ _ _ _ linear) in Ha as [Hl1 Ha]. destruct (Ha a eq_refl) as [Hin E]. bools.
    split; [done|]. intros artifact _ [= <-]. cbn in *. exists a. simplify_eq. by split_and!. }
  destruct Hthis as [Hl1 Hthis]. split; [by etrans|]. intros q artifact [->|Hq]%elem_of_cons Hk Ha; [|by eapply Hrest].
  destruct (Hthis artifact Hk Ha) as (a & Hin & Ho). exists a. split; [|done]. destruct (pg_Artifacts _ _ _ (extends_advance _ _ _ (Hl (sco_Tenant scope)))) as [new ->]. set_solver.
Qed.

Lemma authorized_at {R} (authorize : C W R) exact w r w' : authorized done authorize exact w = (Ok r, w') ->
  exists v v', later part w v /\ authorize v = (Ok r, v') /\ later part v' w'.
Proof.
  intros H. unfold authorized in H. apply bind_Ok in H as (u1 & v1 & H1%(forward_at _ _ _ _ forward_alive) & H). apply bind_Ok in H as (r' & v2 & Ha%classified_Ok & H).
  apply bind_Ok in H as (u2 & v3 & H3%(forward_at _ _ _ _ forward_alive) & H). apply bind_Ok in H as (u3 & v4 & [_ <-]%guard_Ok & [-> <-]%ret_Ok). by exists v1, v2.
Qed.

(** An Input is read with the reference of the record that has its identifier. *)
Lemma input_fetched root scope session input w parts w' : readInputEnvelope objects done root store scope session input w = (Ok parts, w') -> later part w w' /\
  exists i raw, i ∈ Inputs (part w' (sco_Tenant scope)) /\ inp_InputID i = input /\ matches raw (inp_Content i) = true /\ decodeInputEnvelope raw = Some parts.
Proof.
  unfold readInputEnvelope. intros H%mapped_Ok. unfold ReadInputEnvelope in H. apply bind_Ok in H as ([] & w0 & [_ <-]%guard_Ok & H).
  apply bind_Ok in H as (e & w1 & (v & v' & H1 & Hz & H2)%authorized_at & H). unfold getInputEnvelope in H. apply bind_Ok in H as ([] & w2 & [_ <-]%guard_Ok & H).
  apply bind_Ok in H as (raw & w3 & Hf & [Hd <-]%lift_Ok). assert (H3 : later part w1 w3) by (eapply forward_at; [|exact Hf]; unfold fetch; forwarding). apply fetch_Ok in Hf.
  unfold stateInputRepository in Hz. destruct (CompileAuthorizeInputEnvelopeRead _ _ _) as [z|] eqn:Ez; [|by apply fail_Ok in Hz].
  unfold CompileAuthorizeInputEnvelopeRead in Ez. destruct (_ || _); [done|]. apply (inj Some) in Ez as <-. apply mapped_Ok, (@lin_input _ _ _ _ _ linear) in Hz as [H4 Hz].
  destruct (Hz e eq_refl) as (i & Hi & Hid & Hr). cbn in Hi, Hid. assert (Hl : later part v' w3) by (by etrans). split; [do 2 (etrans; [eassumption|]); exact Hl|].
  exists i, raw. rewrite <- Hr. split_and!; [|done..]. destruct (pg_Inputs _ _ _ (extends_advance _ _ _ (Hl (sco_Tenant scope)))) as [new ->]. set_solver.
Qed.

(** ** Sending an Input *)

Definition sender (identity : Identity) : MutationScope := mkScope (idn_Tenant identity) (idn_Principal identity) AuthoritySessionOwner.

Lemma ownerScope_Ok identity scope : ownerScope identity = Ok scope -> scope = sender identity.
Proof. unfold ownerScope, ParseTenantID, ParsePrincipalID. repeat case_match; naive_solver. Qed.

Lemma compile_issued id command m : @CompileAdmitInput (storeValidator id) command = Ok m -> CompileAdmitInput command = Ok m.
Proof.
  unfold CompileAdmitInput. destruct (_ || _); [done|]. cbn. unfold ValidateInputEnvelopeHandoff. destruct (bool_decide_reflect (han_issuer (cai_Input command) = id)) as [<-|]; [|done].
  rewrite (bool_decide_eq_true_2 (han_issuer (cai_Input command) = _)) by reflexivity. cbn. tauto.
Qed.

(** The mutation of an admission. *)
Lemma admission_compiled command m : CompileAdmitInput command = Ok m -> valid_mutation m /\ mut_kind m = CommandAdmitInput /\ bin_Command (mut_receipt m) = CommandAdmitInput /\
  bin_Scope (mut_receipt m) = cai_Scope command /\ bin_IdempotencyKey (mut_receipt m) = cai_IdempotencyKey command /\
  validSession (cai_SessionID command) = true /\ validReference (han_reference (cai_Input command)) = true /\
  exists text, admission_text (cai_Scope command) (cai_IdempotencyKey command) (cai_SessionID command) (han_reference (cai_Input command)) = Some text /\
    bin_RequestDigest (mut_receipt m) = "sha256:" +:+ sha256_hex text.
Proof.
  intros H. pose proof (from_AdmitInput _ _ H) as Hc. unfold CompileAdmitInput in H. destruct (_ || _) eqn:Eg; [done|]. bools. cbn in H. unfold ValidateInputEnvelopeHandoff in H.
  destruct (_ || _); [done|]. cbn in H. destruct (_ || _) eqn:Er; [done|]. bools. apply compile_Ok in H as (Hk & Hm & _ & text & Ht & Hr).
  split_and!; rewrite ?Hr; try done; [|by exists text]. split; [done|]. by rewrite Hm.
Qed.

Record sent (id : nat) (root : string) (identity : Identity) (request : SendInputRequest) (w : W) (res : SendInputResult) (w' : W) : Prop := mkSent {
  snt_later : later part w w';
  snt_artifacts p artifact : p ∈ sni_Parts request -> prt_Kind p = ContentArtifact -> prt_Artifact p = Some artifact ->
    exists a, a ∈ Artifacts (part w' (idn_Tenant identity)) /\ art_Principal a = idn_Principal identity /\ publicArtifact a = artifact;
  snt_plan : exists e h m cancelled pl plan, encodeInputEnvelope (sni_Parts request) = Some e /\ han_reference h = referenceForMediaType e InputEnvelopeMediaTypeV1 /\
    CompileAdmitInput (mkAdmitInputCommand (sender identity) (sni_IdempotencyKey request) (sni_SessionID request) h) = Ok m /\
    Plan cancelled pl (plan_base plan) m = Ok plan /\
    extends (idn_Tenant identity) (part w (idn_Tenant identity)) (plan_base plan) /\ extends (idn_Tenant identity) (plan_state plan) (part w' (idn_Tenant identity)) /\
    ipt_ID (snr_Input res) = inp_InputID (res_Input (plan_result plan)) /\ ipt_AcceptedAt (snr_Input res) = inp_AcceptedAt (res_Input (plan_result plan)) /\
    trn_ID (snr_Turn res) = tur_TurnID (res_Turn (plan_result plan));
  snt_read : exists i raw, i ∈ Inputs (part w' (idn_Tenant identity)) /\ inp_InputID i = ipt_ID (snr_Input res) /\ matches raw (inp_Content i) = true /\
    decodeInputEnvelope raw = Some (ipt_Parts (snr_Input res))
}.

Lemma SendInput_Ok id root identity request w res w' : SendInput objects done id root store planner identity request w = (Ok res, w') -> sent id root identity request w res w'.
Proof.
  intros H. unfold SendInput in H. apply bind_Ok in H as (scope & w0 & [->%ownerScope_Ok <-]%returning_Ok & H).
  apply bind_Ok in H as ([] & w1 & [H1 Ha]%artifacts_authorized & H). apply bind_Ok in H as (h & w2 & Hh%mapped_Ok & H).
  assert (H2 : later part w1 w2) by (eapply forward_at; [apply forward_stage_input|exact Hh]). apply StageInputEnvelope_Ok in Hh as (e & _ & He & ->).
  apply bind_Ok in H as (plan & w3 & Hp%mapped_Ok & H). unfold apply in Hp. apply attempts_spec in Hp as [H3 (m & c & pl & Hm & Hp & E1 & E2)].
  2: { intros m Hm%compile_issued%admission_compiled. destruct Hm as (Hv & _ & _ & Hs & _). split; [done|]. unfold mutation_tenant. by rewrite Hs. }
  cbv zeta in H. apply bind_Ok in H as (parts & w4 & [H4 Hr]%input_fetched & [<- <-]%ret_Ok). cbn in *. assert (H02 : later part w w2) by (by etrans). assert (H04 : later part w1 w4) by (do 2 (etrans; [eassumption|]); done).
  constructor; cbn.
  - etrans; [exact H1|exact H04].
  - intros p artifact Hp1 Hp2 Hp3. destruct (Ha p artifact Hp1 Hp2 Hp3) as (a & Hin & Ho). exists a. split; [|done].
    destruct (pg_Artifacts _ _ _ (extends_advance _ _ _ (H04 (idn_Tenant identity)))) as [new ->]. set_solver.
  - eexists e, _, m, c, pl, plan. split; [exact He|]. split; [|split; [exact (compile_issued _ _ _ Hm)|]]; [reflexivity|].
    split_and!; [exact Hp| | |done..]; etrans; try eassumption; [apply H02|apply H4].
  - done.
Qed.
End calls.

(** The request that an Input of the sender stands for was digested as [t]. *)
Definition digested (identity : Identity) (key : string) (session : SessionID) (r : Reference) (t : string) : Prop :=
  admission_text (sender identity) key session r = Some t.

(** C5: An accepted Input is the one that was sent.  Whatever other clients and the object
    store do meanwhile, if SendInput succeeds then the sender's partition holds an Input of
    the sender, and a Turn for it, with the identifiers and the time that were returned;
    the Input belongs to the Session of the request and its content reference is that of
    the parts of the request, and the parts that were returned are those of the request,
    also when the call replayed an earlier one; every Artifact they refer to was recorded
    for the sender as described.  The exceptions are explicit SHA-256 collisions: of the
    digested requests, or of the encoded parts. *)
Theorem sent_input_recorded {W} (part : W -> TenantID -> RuntimeState) store objects done (linear : LinearStore part store objects done) planner id root identity request w res w' :
  let T := idn_Tenant identity in
  history T (part w T) -> Forall part_int64 (sni_Parts request) -> SendInput objects done id root store planner identity request w = (Ok res, w') ->
  exists input turn e, input ∈ Inputs (part w' T) /\ turn ∈ Turns (part w' T) /\ encodeInputEnvelope (sni_Parts request) = Some e /\
    (inp_Tenant input, inp_Principal input, inp_InputID input, inp_AcceptedAt input) = (T, idn_Principal identity, ipt_ID (snr_Input res), ipt_AcceptedAt (snr_Input res)) /\
    (tur_TurnID turn, tur_InputID turn, tur_SessionID turn) = (trn_ID (snr_Turn res), inp_InputID input, inp_SessionID input) /\
    (forall p artifact, p ∈ sni_Parts request -> prt_Kind p = ContentArtifact -> prt_Artifact p = Some artifact ->
       exists a, a ∈ Artifacts (part w' T) /\ art_Principal a = idn_Principal identity /\ publicArtifact a = artifact) /\
    let reference := referenceForMediaType e InputEnvelopeMediaTypeV1 in
    ((exists t t', digested identity (sni_IdempotencyKey request) (sni_SessionID request) reference t /\
        digested identity (sni_IdempotencyKey request) (inp_SessionID input) (inp_Content input) t' /\ digests_collide t t') \/
     inp_SessionID input = sni_SessionID request /\ inp_Content input = reference /\
     (ipt_Parts (snr_Input res) = sni_Parts request \/ exists e', encodeInputEnvelope (ipt_Parts (snr_Input res)) = Some e' /\ digests_collide e e')).
Proof.
  intros T Hh Hi H. subst T. set (T := idn_Tenant identity) in *. apply (SendInput_Ok part store objects done planner) in H. destruct H as [Hl Ha (e & h & m & c & pl & plan & He & Hr & Hm & Hp & E1 & E2 & R1 & R2 & R3) (i & raw & Hin & Hid & Hmatch & Hd)].
  destruct (admission_compiled _ _ Hm) as (Hv & Hk & _ & Hs & Hkey & Hvs & Hvr & t & Ht & Hdig). cbn [cai_Scope cai_IdempotencyKey cai_SessionID cai_Input] in Hs, Hkey, Hvs, Hvr, Ht. rewrite Hr in *.
  pose proof (planned_admission T _ _ _ _ _ (extends_history _ _ _ E1 Hh) Hv Hk Hp) as Had.
  destruct (committed_receipt _ _ _ _ _ Hv Hp) as (Hf & _ & Hrd).
  assert (Hrs : rec_Scope (res_Receipt (plan_result plan)) = sender identity /\ rec_IdempotencyKey (res_Receipt (plan_result plan)) = sni_IdempotencyKey request).
  { unfold findReceipt in Hf. destruct (find_index _ _) as [[j r]|] eqn:Hj; [|done]. cbn in Hf. apply (inj Some) in Hf as <-. apply find_index_holds in Hj. unfold receipt_matches in Hj. bools. split; congruence. }
  destruct Hrs as [Hrs Hrk]. destruct (admitted_mono _ _ _ _ _ _ (extends_advance _ _ _ E2) Had) as (turn & _ & [A1 A2 [A3 A3'] [A4 _] [A5 A6] A7 A8 [A9 A10] (t' & A11 & A12)]).
  rewrite Hrs in A7, A11. rewrite Hrk in A11. set (input := res_Input (plan_result plan)) in *.
  assert (i = input) as ->.
  { pose proof (wf_Inputs _ (history_well_formed _ _ (extends_history _ _ _ (Hl T) Hh))) as Hw. apply list_elem_of_lookup in Hin as [j1 Hj1]. apply list_elem_of_lookup in A1 as [j2 Hj2].
    assert (j1 = j2) as -> by (eapply Hw; [exact Hj1|exact Hj2|congruence|by rewrite Hid, R1]). congruence. }
  exists input, turn, e. split_and!; try done.
  - unfold T. cbn in A7. injection A7 as -> ->. by rewrite R1, R2.
  - by rewrite R3, A4, A5, A6, (proj1 (adm_TurnID _ _ _ _ Had)).
  - intros reference. destruct (decide (t = t')) as [<-|Hne].
    + right. destruct (admission_text_inj _ _ _ _ _ _ _ Hvs Hvr A9 A10 Ht A11) as [Es Er]. split; [exact (eq_sym Es)|]. split; [exact (eq_sym Er)|]. rewrite <- Er in Hmatch.
      destruct (matches_reference _ _ _ Hmatch) as [->|Hc]; [left|right; exists raw; split; [by apply input_written|done]]. rewrite (input_read _ _ Hi He) in Hd. congruence.
    + left. exists t, t'. split; [exact Ht|]. split; [exact A11|]. split; [exact Hne|]. rewrite Hrd, Hdig in A12. by apply (inj (String.append "sha256:")) in A12.
Qed.

(** C6: An Input is accepted once.  Of two successful calls of SendInput by one sender with one
    idempotency key, whatever happened between them and whether or not they ran in the
    same process, the second answers with the Input, its time and the Turn of the first. *)
Theorem sent_once {W} (part : W -> TenantID -> RuntimeState) store
  objects done (linear : LinearStore part store objects done) planner id root objects' done' (linear' : LinearStore part store objects' done') planner' id' root'
  identity request request' w res w1 w2 res' w3 :
  history (idn_Tenant identity) (part w (idn_Tenant identity)) -> sni_IdempotencyKey request' = sni_IdempotencyKey request ->
  SendInput objects done id root store planner identity request w = (Ok res, w1) -> later part w1 w2 ->
  SendInput objects' done' id' root' store planner' identity request' w2 = (Ok res', w3) ->
  ipt_ID (snr_Input res') = ipt_ID (snr_Input res) /\ ipt_AcceptedAt (snr_Input res') = ipt_AcceptedAt (snr_Input res) /\ trn_ID (snr_Turn res') = trn_ID (snr_Turn res).
Proof.
  intros Hh Hkey H Hw H'. apply (SendInput_Ok part store objects done planner) in H. apply (SendInput_Ok part store objects' done' planner') in H'.
  destruct H as [Hl _ (e & h & m & c & pl & plan & _ & _ & Hm & Hp & E1 & E2 & -> & -> & ->) _]. destruct H' as [_ _ (e' & h' & m' & c' & pl' & plan' & _ & _ & Hm' & Hp' & E1' & E2' & -> & -> & ->) _].
  destruct (admission_compiled _ _ Hm) as (Hv & Hk & _ & Hs & Hkm & _). destruct (admission_compiled _ _ Hm') as (Hv' & Hk' & _ & Hs' & Hkm' & _). cbn in Hs, Hs', Hkm, Hkm'.
  set (T := idn_Tenant identity) in *. assert (Hplan : extends T (plan_state plan) (plan_base plan')) by (etrans; [exact E2|]; etrans; [apply Hw|exact E1']).
  pose proof (extends_history _ _ _ E1 Hh) as Hb. pose proof (extends_history _ _ _ (Hl T) Hh) as Hh1. pose proof (extends_history _ _ _ (Hw T) Hh1) as Hh2.
  pose proof (planned_admission T _ _ _ _ _ Hb Hv Hk Hp) as Had. pose proof (planned_admission T _ _ _ _ _ (extends_history _ _ _ E1' Hh2) Hv' Hk' Hp') as Had'.
  destruct (committed_receipt _ _ _ _ _ Hv Hp) as (Hf & _). apply (extends_receipt _ _ _ _ _ Hplan) in Hf.
  assert (Hf' : findReceipt (plan_base plan') (mut_receipt m') = Some (res_Receipt (plan_result plan))).
  { rewrite <- Hf. unfold findReceipt, receipt_matches. by rewrite Hs, Hs', Hkm, Hkm', Hkey. }
  assert (Hr : res_Receipt (plan_result plan') = res_Receipt (plan_result plan)).
  { destruct (Plan_Ok _ _ _ _ _ Hp') as (_ & _ & _ & _ & [[Hn _]|(r & Hr & _ & _ & _ & ->)]); [congruence|]. cbn. congruence. }
  destruct Had as [_ _ [H1 _] [H2 _] _ _ H3 _ _], Had' as [_ _ [H1' _] [H2' _] _ _ H3' _ _]. rewrite Hr in H1', H2', H3'. split_and!; congruence.
Qed.

(** C16: A call gives up with a conflict only when others made progress.  If a mutation of the
    scope ends with ErrConflict, then it could not be compiled for that reason, or a planner
    refuses it on a state that the partition had during the call, or three times in turn another client committed between the load
    of the partition and the persistence of the plan. *)
Theorem conflict_means_progress {W} (part : W -> TenantID -> RuntimeState) store objects done (linear : LinearStore part store objects done) planner scope compile w w' :
  compiles_for scope compile -> apply done store planner scope compile w = (Err ErrConflict, w') ->
  let T := sco_Tenant scope in refused T compile (part w T) (part w' T) \/ overtaken T 3 (part w T) (part w' T).
Proof. intros Hc H. destruct (attempts_spec part store objects done planner 3 scope compile w _ w' Hc H) as [_ Ha]. exact (Ha eq_refl). Qed.

(** ** Pages *)

Lemma bounded_spec {A B} limit (p : A -> bool) (f : A -> B) page l : (length page <= limit)%nat ->
  bounded limit p f page l = (take limit (page ++ (f <$> List.filter p l)), (limit <? length page + length (List.filter p l))%nat).
Proof.
  revert page. induction l as [|x l IH]; intros page Hl; cbn.
  - rewrite app_nil_r, take_ge by done. f_equal. symmetry. apply Nat.ltb_ge. lia.
  - destruct (p x); cbn; [|by apply IH]. destruct (Nat.eqb_spec (length page) limit) as [<-|Hn].
    + rewrite take_app_length. f_equal. symmetry. apply Nat.ltb_lt. lia.
    + rewrite IH by (rewrite length_app; cbn; lia). rewrite <- app_assoc. cbn.
      by replace (length (page ++ [f x]) + length (List.filter p l))%nat with (length page + S (length (List.filter p l)))%nat by (rewrite length_app; cbn; lia).
Qed.

(** The first [limit] records that [p] selects of [l], in order, and whether there are more. *)
Definition exact_page {A B} (limit : nat) (p : A -> bool) (f : A -> B) (l : list A) (page : list B) (truncated : bool) : Prop :=
  page = take limit (f <$> List.filter p l) /\ truncated = (limit <? length (List.filter p l))%nat.

Lemma bounded_exact {A B} limit (p : A -> bool) (f : A -> B) l page truncated : bounded limit p f [] l = (page, truncated) -> exact_page limit p f l page truncated.
Proof. rewrite bounded_spec by (cbn; lia). by intros [= <- <-]. Qed.

(** The lists of the public interface are exact: the Approvals of the caller, the Artifacts
    of a Session of the caller and the tool calls of a Turn of the caller are the first 64,
    256 and 64 of them in the order of the state that was loaded, nothing of another
    principal, and the truncation mark is set exactly when there are more. *)
Theorem pages_exact {W} (store : RuntimeStateStore W) identity w w' :
  let mine (tenant : TenantID) (principal : PrincipalID) := (tenant ≟ idn_Tenant identity) && (principal ≟ idn_Principal identity) in
  (forall page, ListApprovals store identity w = (Ok page, w') -> exists v st, sts_LoadRuntimeState store (sender identity) v = (Ok st, w') /\
     exact_page MaxApprovalsPerPage (fun r => mine (app_Tenant r) (app_Principal r)) publicApproval (Approvals st) (app_Approvals page) (app_Truncated page)) /\
  (forall session page, ListSessionArtifacts store identity session w = (Ok page, w') -> exists v st, sts_LoadRuntimeState store (sender identity) v = (Ok st, w') /\
     exact_page MaxArtifactsPerSession (fun r => mine (art_Tenant r) (art_Principal r) && (art_SessionID r ≟ session)) publicArtifact (Artifacts st)
       (afp_Artifacts page) (afp_Truncated page)) /\
  (forall session turn page, InspectToolCalls store identity session turn w = (Ok page, w') -> exists v st, sts_LoadRuntimeState store (sender identity) v = (Ok st, w') /\
     exact_page MaxToolCallsPerTurn (fun r => mine (int_Tenant r) (int_Principal r) && (int_SessionID r ≟ session) && (int_TurnID r ≟ turn))
       (publicToolCall (sender identity) st session turn) (ToolIntents st) (tcp_Calls page) (tcp_Truncated page)).
Proof.
  intros mine. split_and!.
  - intros page H. unfold ListApprovals in H. apply bind_Ok in H as (scope & w0 & [->%ownerScope_Ok <-]%returning_Ok & H). apply bind_Ok in H as (st & w1 & Hl%mapped_Ok & H).
    destruct (bounded _ _ _ _ _) as [l t] eqn:Hb. apply ret_Ok in H as [<- <-]. exists w, st. split; [done|]. by apply bounded_exact.
  - intros session page H. unfold ListSessionArtifacts in H. apply bind_Ok in H as (scope & w0 & [->%ownerScope_Ok <-]%returning_Ok & H). apply bind_Ok in H as (u & w1 & _ & H).
    apply bind_Ok in H as (st & w2 & Hl%mapped_Ok & H). destruct (bounded _ _ _ _ _) as [l t] eqn:Hb. apply ret_Ok in H as [<- <-]. exists w1, st. split; [done|]. by apply bounded_exact.
  - intros session turn page H. unfold InspectToolCalls in H. apply bind_Ok in H as (scope & w0 & [->%ownerScope_Ok <-]%returning_Ok & H). apply bind_Ok in H as (u & w1 & _ & H).
    apply bind_Ok in H as (st & w2 & Hl%mapped_Ok & H). destruct (bounded _ _ _ _ _) as [l t] eqn:Hb. apply ret_Ok in H as [<- <-]. exists w1, st. split; [done|]. by apply bounded_exact.
Qed.

(** ** The theorems at work

    A world of the in-memory store, the bucket of a list and [busy], the number of calls
    before which another client still commits an Input of its own. *)

Record demo : Type := mkDemo { dem_mem : MemoryStore; dem_bucket : demo_world; dem_busy : nat }.

Definition dem_set (s : MemoryStore) (w : demo) : demo := mkDemo s (dem_bucket w) (dem_busy w).
Definition dem_done (w : demo) : bool * demo := (false, w).
Definition dem_objects : ImmutableObjectStore demo :=
  let lifted {A} (m : C demo_world A) : C demo A := fun w => let '(r, b) := m (dem_bucket w) in (r, mkDemo (dem_mem w) b (dem_busy w)) in
  mkObjectStore demo (fun k v => lifted (PutIfAbsent demo_objects k v)) (fun k n => lifted (Get demo_objects k n)).

Definition other_input (n : nat) : AdmitInputCommand := input_command ("other-" +:+ decimal (Z.of_nat n)) "an Input of another client".
Definition dem_others (w : demo) : demo :=
  match dem_busy w, CompileAdmitInput (other_input (dem_busy w)) with
  | S n, Ok m => mkDemo (ApplyCompiledMutation false (planner_at (100 + n)) m (dem_mem w)).2 (dem_bucket w) n
  | _, _ => w
  end.
Definition dem_store : RuntimeStateStore demo := memoryStateStore dem_mem dem_set dem_others dem_done.
Definition dem_part : demo -> TenantID -> RuntimeState := memory_part dem_mem.

Lemma apply_extends c pl m store T : valid_mutation m -> extends T (snapshot store T) (snapshot (ApplyCompiledMutation c pl m store).2 T).
Proof.
  intros Hm. unfold ApplyCompiledMutation. destruct c; [apply rtc_refl|]. fold (mutation_tenant m). destruct (bool_decide (mutation_tenant m = "")); [apply rtc_refl|].
  destruct (Plan _ _ _ _) as [plan|e] eqn:Hp; [|apply rtc_refl]. destruct (_ || _); [apply rtc_refl|]. cbn [snd]. rewrite snapshot_put.
  case_bool_decide as HT; [|apply rtc_refl]. subst T. apply rtc_once. by eapply commit_plan.
Qed.

#[local] Instance dem_linear : LinearStore dem_part dem_store dem_objects dem_done.
Proof.
  apply memory_linear; try done.
  - intros w T. unfold dem_others, memory_part. destruct (dem_busy w) as [|n] eqn:En; [apply rtc_refl|]. destruct (CompileAdmitInput _) as [m|] eqn:Ec; [|apply rtc_refl].
    apply apply_extends. by apply admission_compiled in Ec as [Hv _].
  - intros k v w. cbn. by destruct (S3PutIfAbsent _ _ _ _ _ _).
  - intros k n w. cbn. by destruct (S3Get _ _ _ _ _ _).
Qed.

Definition dem_planner (w : demo) : Planner := planner_at (50 + dem_busy w).
Definition dem_world (busy : nat) : demo := mkDemo (scenario_store st2) [] busy.
Definition alice : Identity := mkIdentity "tenant-a" "alice" false.
Definition dem_request : SendInputRequest := mkSendInput session1 "send-1" [mkPart ContentText "Compare the two drafts." None].
#[local] Notation dem_send w := (SendInput dem_objects dem_done 7 demo_root dem_store dem_planner alice dem_request w).

Lemma dem_history busy : history "tenant-a" (dem_part (dem_world busy) "tenant-a").
Proof.
  change (history "tenant-a" (snapshot (scenario_store st2) (sco_Tenant owner))). rewrite scenario_snapshot by reflexivity.
  assert (V1 : valid_mutation (sealed_or register_agent)) by (valid_by (from_RegisterAgentRevision _ register_agent_command)).
  assert (V2 : valid_mutation (sealed_or create_session)) by (valid_by (from_CreateSession _ create_session_command)).
  assert (H1 : history "tenant-a" st1) by (extend (planner_at 1) plan1 (history_empty "tenant-a") V1). extend (planner_at 2) plan2 H1 V2.
Qed.

Definition dem_result : SendInputResult :=
  mkSendResult (mkPublicInput "inpt_0000000000050000" (sni_Parts dem_request) (at_second 50))
    (mkPublicTurn "turn_0000000000050001" "inpt_0000000000050000" 3 TurnQueued None None None None None).

Lemma fst_pair {A B} (p : A * B) a : p.1 = a -> p = (a, p.2).
Proof. by intros <-; destruct p. Qed.

Definition dem_world' : demo := (dem_send (dem_world 2)).2.
Definition dem_world'' : demo := (dem_send dem_world').2.

(** The other client commits before the load and before the first persistence; the second
    attempt succeeds. *)
Lemma dem_sent : dem_send (dem_world 2) = (Ok dem_result, dem_world').
Proof. apply (fst_pair (dem_send (dem_world 2))). vm_compute. reflexivity. Qed.

(** The request is repeated. *)
Lemma dem_repeated : dem_send dem_world' = (Ok dem_result, dem_world'').
Proof. apply (fst_pair (dem_send dem_world')). vm_compute. reflexivity. Qed.

Lemma sent_input_recorded_witness : exists input turn, input ∈ Inputs (dem_part dem_world' "tenant-a") /\ turn ∈ Turns (dem_part dem_world' "tenant-a") /\
  inp_InputID input = "inpt_0000000000050000" /\ inp_Principal input = "alice" /\ tur_TurnID turn = "turn_0000000000050001".
Proof.
  destruct (sent_input_recorded dem_part dem_store dem_objects dem_done dem_linear dem_planner 7 demo_root alice dem_request (dem_world 2) dem_result dem_world') as (input & turn & e & Hi & Ht & _ & Ei & Et & _).
  - exact (dem_history 2).
  - repeat constructor. discriminate.
  - exact dem_sent.
  - exists input, turn. injection Ei as _ Ep Eid _. injection Et as Etid _ _. split; [exact Hi|]. split; [exact Ht|]. split; [exact Eid|]. split; [exact Ep|exact Etid].
Defined.

Lemma sent_once_witness : exists res, dem_send dem_world' = (Ok res, dem_world'') /\ ipt_ID (snr_Input res) = "inpt_0000000000050000".
Proof.
  exists dem_result. split; [exact dem_repeated|].
  exact (proj1 (sent_once dem_part dem_store dem_objects dem_done dem_linear dem_planner 7 demo_root dem_objects dem_done dem_linear dem_planner 7 demo_root alice dem_request dem_request
    (dem_world 2) dem_result dem_world' dem_world' dem_result dem_world'' (dem_history 2) eq_refl dem_sent (reflexivity dem_world') dem_repeated)).
Defined.

Definition own_input : res StateError CompiledMutation := CompileAdmitInput (input_command "own" "mine").

#[local] Notation own_apply := (apply dem_done dem_store dem_planner owner own_input (dem_world 10)).
Definition own_world : demo := own_apply.2.

(** With a client that commits before every call, the call gives up. *)
Lemma own_conflict : own_apply = (Err ErrConflict, own_world).
Proof. apply (fst_pair own_apply). vm_compute. reflexivity. Qed.

Lemma conflict_means_progress_witness : let w' := own_world in
  refused "tenant-a" own_input (dem_part (dem_world 10) "tenant-a") (dem_part w' "tenant-a") \/ overtaken "tenant-a" 3 (dem_part (dem_world 10) "tenant-a") (dem_part w' "tenant-a").
Proof.
  refine (conflict_means_progress dem_part dem_store dem_objects dem_done dem_linear dem_planner owner own_input (dem_world 10) own_world _ own_conflict).
  intros m Hm. destruct (admission_compiled _ _ Hm) as (Hv & _ & _ & Hs & _). split; [exact Hv|]. unfold mutation_tenant. rewrite Hs. reflexivity.
Defined.

Definition page_world : demo := mkDemo (scenario_store st10) [] 0.
#[local] Notation page_listed := (ListApprovals dem_store alice page_world).
Definition listed_page : ApprovalPage := match page_listed.1 with Ok page => page | Err _ => mkApprovalPage [] false end.
Definition listed_world : demo := page_listed.2.

Lemma page_run : page_listed = (Ok listed_page, listed_world).
Proof. apply (fst_pair page_listed). vm_compute. reflexivity. Qed.

Lemma pages_exact_witness : exists v st, sts_LoadRuntimeState dem_store owner v = (Ok st, listed_world) /\
  app_Approvals listed_page = take MaxApprovalsPerPage (publicApproval <$> List.filter (fun r => (app_Tenant r ≟ "tenant-a") && (app_Principal r ≟ "alice")) (Approvals st)).
Proof.
  destruct (proj1 (pages_exact dem_store alice page_world listed_world) listed_page page_run) as (v & st & Hl & Hp & _). exists v, st. split; [exact Hl|exact Hp].
Defined.
