(* ===== verification/Kernel.v ===== *)
(** * The conversation kernel

    internal/runtime/kernel: the deterministic Agent, Session, Input, Turn and event
    transitions ([kernel.go]), their aggregate ([state.go]) and the in-memory
    repository ([store.go]).  A transition runs on a copy of the aggregate, so it is
    a function in the monad over [Candidate]: the copy, and how often the identifier
    source and the clock have been used, which outlives a failed transition.  Maps
    and slices are copied at every boundary of the source, so no aliasing is visible.
    A panic of the source is the error [Panic]. *)

From stdpp Require Import gmap.
From Stdlib Require Import Ascii String.
From S2P Require Import Prelude GoString Sha256 GoTime GoJson GoJsonText Sdk SdkTypes ToolSchema.

Open Scope Z_scope.

(** ** Errors *)

Inductive KernelError : Type :=
| Refused (code message : string)
| ContextDone
| BadIdentifier
| Panic.

#[export] Instance KernelError_eq_dec : EqDecision KernelError.
Proof. solve_decision. Defined.

Definition invalid (message : string) : KernelError := Refused "invalid_input" message.
Definition conflict (message : string) : KernelError := Refused "conflict" message.
Definition notFound (message : string) : KernelError := Refused "not_found" message.
Definition internalFailure (operation : string) : KernelError := Refused "internal" (operation +:+ " failed").

(** ** The aggregate (state.go) *)

Record idempotencyRecord : Type := mkIdempotency {
  idm_command : string; idm_digest : string; idm_agent : AgentID; idm_revision : AgentRevisionID; idm_session : SessionID;
  idm_input : InputID; idm_turn : TurnID
}.

Record agentRecord : Type := mkAgent { agt_id : AgentID; agt_revisions : list AgentSpecification }.

Record sessionRecord : Type := mkSessionRecord {
  session : Session; inputs : gmap InputID Input; turns : list Turn; events : list Event; trimmed : gset Cursor
}.

Definition noSessionRecord : sessionRecord := mkSessionRecord noSession ∅ [] [] ∅.

Record TenantState : Type := mkTenant {
  agents : gmap AgentID agentRecord; revisions : gmap AgentRevisionID AgentSpecification;
  sessions : gmap SessionID sessionRecord; idempotency : gmap string idempotencyRecord
}.

Definition newTenantState : TenantState := mkTenant ∅ ∅ ∅ ∅.

Definition put_agent (id : AgentID) (a : agentRecord) (s : TenantState) : TenantState :=
  mkTenant (<[id := a]> (agents s)) (revisions s) (sessions s) (idempotency s).
Definition put_revision (id : AgentRevisionID) (r : AgentSpecification) (s : TenantState) : TenantState :=
  mkTenant (agents s) (<[id := r]> (revisions s)) (sessions s) (idempotency s).
Definition put_session (id : SessionID) (r : sessionRecord) (s : TenantState) : TenantState :=
  mkTenant (agents s) (revisions s) (<[id := r]> (sessions s)) (idempotency s).
Definition put_idempotency (key : string) (r : idempotencyRecord) (s : TenantState) : TenantState :=
  mkTenant (agents s) (revisions s) (sessions s) (<[key := r]> (idempotency s)).

Definition set_session (x : Session) (r : sessionRecord) : sessionRecord := mkSessionRecord x (inputs r) (turns r) (events r) (trimmed r).
Definition set_turns (l : list Turn) (r : sessionRecord) : sessionRecord := mkSessionRecord (session r) (inputs r) l (events r) (trimmed r).
Definition set_events (l : list Event) (r : sessionRecord) : sessionRecord := mkSessionRecord (session r) (inputs r) (turns r) l (trimmed r).
Definition set_trimmed (c : gset Cursor) (r : sessionRecord) : sessionRecord := mkSessionRecord (session r) (inputs r) (turns r) (events r) c.
Definition add_input (i : Input) (r : sessionRecord) : sessionRecord :=
  mkSessionRecord (session r) (<[ipt_ID i := i]> (inputs r)) (turns r) (events r) (trimmed r).

Definition set_state (state : SessionState) (x : Session) : Session :=
  mkPublicSession (ssn_ID x) (ssn_AgentID x) (ssn_AgentRevision x) state (ssn_CreatedAt x) (ssn_UpdatedAt x).
Definition set_updated (t : Time) (x : Session) : Session :=
  mkPublicSession (ssn_ID x) (ssn_AgentID x) (ssn_AgentRevision x) (ssn_State x) (ssn_CreatedAt x) t.
Definition touch (t : Time) (r : sessionRecord) : sessionRecord := set_session (set_updated t (session r)) r.

Definition started (t : Time) (x : Turn) : Turn :=
  mkPublicTurn (trn_ID x) (trn_InputID x) (trn_Position x) TurnRunning (Some t) (trn_CompletedAt x) (trn_Failure x) (trn_Usage x) (trn_Output x).
Definition ended (state : TurnState) (t : Time) (failure : option Failure) (x : Turn) : Turn :=
  mkPublicTurn (trn_ID x) (trn_InputID x) (trn_Position x) state (trn_StartedAt x) (Some t) failure (trn_Usage x) (trn_Output x).

(** ** Validation *)

Definition maxNameBytes : Z := 128.
Definition maxInstructionsBytes : Z := 262144.
Definition maxTools : Z := 64.
Definition maxEventPage : Z := 1000.
Definition MaxIdempotencyKeyBytes : Z := 128.
Definition MaxInputParts : Z := 32.
Definition MaxTextPartBytes : Z := 65536.
Definition MaxSessionViewQueuedTurns : Z := 100.

Definition scopeCharacter (c : Z) : bool := is_lower c || is_upper c || is_digit c || (c =? 45) || (c =? 95).
Definition ParseScope (value : string) : bool :=
  if (len value =? 0) || (128 <? len value) then false else all_runes scopeCharacter value.

Definition nameCharacter (c : Z) : bool := is_lower c || is_upper c || is_digit c || (c =? 45) || (c =? 95) || (c =? 46).
Definition safeName (value : string) : bool :=
  if (len value =? 0) || (maxNameBytes <? len value) then false else all_runes nameCharacter value.

Definition validateIdempotencyKey (key : string) : res KernelError unit :=
  if (len key =? 0) || (MaxIdempotencyKeyBytes <? len key) then Err (invalid "idempotency key is invalid or unbounded")
  else if all_runes (fun c => between 0x21 c 0x7E) key then Ok tt
  else Err (invalid "idempotency key contains an unsupported character").

(** ^[0-9a-f]{64}$ *)
Definition sha256Pattern (s : string) : bool := (len s =? 64) && forallb is_lower_hex (bytes s).

Definition validatePart (part : ContentPart) : res KernelError unit :=
  if prt_Kind part ≟ ContentText then
    if (prt_Text part ≟ "") || (MaxTextPartBytes <? len (prt_Text part)) || negb (ValidString (prt_Text part)) || bool_decide (is_Some (prt_Artifact part))
    then Err (invalid "text Input part is invalid or unbounded") else Ok tt
  else if prt_Kind part ≟ ContentArtifact then
    match prt_Artifact part with
    | None => Err (invalid "Artifact Input part is invalid or unbounded")
    | Some a =>
      if (prt_Text part ≠? "") || (art_SizeBytes a <? 0) || (art_MediaType a ≟ "") || (255 <? len (art_MediaType a)) || negb (sha256Pattern (art_SHA256 a))
      then Err (invalid "Artifact Input part is invalid or unbounded")
      else match ParseArtifactID (art_ID a) with Some _ => Ok tt | None => Err (invalid "Artifact Input part has an invalid ID") end
    end
  else Err (invalid "Input content part kind is unsupported").

(** The first error of a loop of checks. *)
Fixpoint first_error {A} (check : A -> res KernelError unit) (l : list A) : res KernelError unit :=
  match l with
  | [] => Ok tt
  | x :: l => match check x with Ok _ => first_error check l | Err e => Err e end
  end.

Definition validateInput (request : SendInputRequest) : res KernelError unit :=
  match ParseSessionID (sni_SessionID request) with
  | None => Err (invalid "invalid Session ID")
  | Some _ =>
    if (length (sni_Parts request) =? 0)%nat || (MaxInputParts <? Z.of_nat (length (sni_Parts request)))
    then Err (invalid "Input content part count is outside the supported range")
    else first_error validatePart (sni_Parts request)
  end.

Definition validateFailure (failure : option Failure) : res KernelError unit :=
  match failure with
  | None => Ok tt
  | Some f =>
    if (Code f ≟ "") || (len (Message f) =? 0) || (1024 <? len (Message f)) || negb (ValidString (Message f)) || (16 <? Z.of_nat (size (Details f)))
    then Err (invalid "Turn Failure is invalid or unbounded")
    else if forallb (fun kv => safeName kv.1 && (len kv.2 <=? 1024) && ValidString kv.2) (map_to_list (Details f))
    then Ok tt else Err (invalid "Turn Failure details are invalid or unbounded")
  end.

(** ** Digests *)

(** canonicalDigest *)
Definition canonicalDigest (v : jval) : option string := sha256_hex <$> marshal v.

Definition json_tool (t : ToolDefinition) : jval :=
  JObj ([("name", JStr (tol_Name t)); ("description", JStr (tol_Description t))] ++
        (if tol_InputSchemaVersion t ≟ "" then [] else [("input_schema_version", JStr (tol_InputSchemaVersion t))]) ++
        (if tol_InputSchema t ≟ "" then [] else [("input_schema", json_raw (tol_InputSchema t))])).

Definition json_create_agent (r : CreateAgentRequest) : jval :=
  JObj [("Name", JStr (rca_Name r)); ("ModelProfile", JStr (rca_ModelProfile r)); ("Instructions", JStr (rca_Instructions r));
        ("Tools", match rca_Tools r with [] => JNull | l => JArr (json_tool <$> l) end)].

Definition json_tools_field (l : list ToolDefinition) : list (string * jval) :=
  match l with [] => [] | _ => [("tools", JArr (json_tool <$> l))] end.

Definition json_revise_agent (r : ReviseAgentRequest) : jval :=
  JObj ([("agent_id", marshalID (rva_AgentID r) agentPrefix); ("idempotency_key", JStr (rva_IdempotencyKey r));
         ("model_profile", JStr (rva_ModelProfile r)); ("instructions", JStr (rva_Instructions r))] ++ json_tools_field (rva_Tools r)).

Definition json_create_session (r : CreateSessionRequest) : jval :=
  JObj [("idempotency_key", JStr (crs_IdempotencyKey r)); ("agent_revision_id", marshalID (crs_AgentRevision r) agentRevisionPrefix)].

Definition json_specification (s : AgentSpecification) : jval :=
  JObj ([("id", marshalID (spc_ID s) agentPrefix); ("revision_id", marshalID (spc_RevisionID s) agentRevisionPrefix);
         ("revision", JNum (spc_Revision s)); ("name", JStr (spc_Name s)); ("model_profile", JStr (spc_ModelProfile s));
         ("instructions", JStr (spc_Instructions s))] ++ json_tools_field (spc_Tools s) ++ [("created_at", json_time (spc_CreatedAt s))]).

Definition json_artifact (a : ArtifactReference) : jval :=
  JObj [("id", marshalID (art_ID a) artifactPrefix); ("media_type", JStr (art_MediaType a)); ("size_bytes", JNum (art_SizeBytes a));
        ("sha256", JStr (art_SHA256 a))].

Definition json_part (p : ContentPart) : jval :=
  JObj ([("kind", JStr (prt_Kind p))] ++ (if prt_Text p ≟ "" then [] else [("text", JStr (prt_Text p))]) ++
        match prt_Artifact p with Some a => [("artifact", json_artifact a)] | None => [] end).

Definition json_send_input (r : SendInputRequest) : jval :=
  JObj [("SessionID", marshalID (sni_SessionID r) sessionPrefix); ("Parts", JArr (json_part <$> sni_Parts r))].

Definition json_cancel_turn (r : CancelTurnRequest) : jval :=
  JObj [("SessionID", marshalID (cnt_SessionID r) sessionPrefix); ("TurnID", marshalID (cnt_TurnID r) turnPrefix)].

(** equalFailure: the encodings of a Failure never fail. *)
Definition equalFailure (left right : option Failure) : bool :=
  marshal (json_ptr json_failure left) ≟ marshal (json_ptr json_failure right).

(** ** Searches *)

Definition terminal (state : TurnState) : bool := match state with TurnSucceeded | TurnFailed | TurnCancelled => true | _ => false end.

(** activeTurnIndex, queuedTurnIndex, turnIndex: the index with the Turn there; [None]
    is -1. *)
Definition activeTurnIndex (s : sessionRecord) : option (nat * Turn) := find_index (fun t => trn_State t ≟ TurnRunning) (turns s).
Definition queuedTurnIndex (s : sessionRecord) : option (nat * Turn) := find_index (fun t => trn_State t ≟ TurnQueued) (turns s).
Definition turnIndex (s : sessionRecord) (id : TurnID) : option (nat * Turn) := find_index (fun t => trn_ID t ≟ id) (turns s).
Definition eventAfter (l : list Event) (cursor : Cursor) : option nat := (fun ie => S ie.1) <$> find_index (fun e => evt_Cursor e ≟ cursor) l.

(** findTurn: the sessions in the order of their identifiers. *)
Fixpoint find_turn_in (ids : list SessionID) (m : gmap SessionID sessionRecord) (id : TurnID) : option (SessionID * sessionRecord * (nat * Turn)) :=
  match ids with
  | [] => None
  | sid :: ids =>
    let s := default noSessionRecord (m !! sid) in
    match turnIndex s id with Some found => Some (sid, s, found) | None => find_turn_in ids m id end
  end.
Definition findTurn (state : TenantState) (id : TurnID) : option (SessionID * sessionRecord * (nat * Turn)) :=
  find_turn_in (sort_strings (map_to_list (sessions state)).*1) (sessions state) id.

Definition nextEventSequence (s : sessionRecord) : Z :=
  match last (events s) with
  | None => u64 (Z.of_nat (size (trimmed s)) + 1)
  | Some e => u64 (evt_Sequence e + 1)
  end.

(** ** The kernel *)

Record Kernel : Type := mkKernel {
  clock : nat -> Time;
  ids : nat -> option string;
  profiles : gset string;
  compile : any -> option (any -> bool)
}.

(** New; [None] is an error. *)
Definition New (source : nat -> Time) (payloads : nat -> option string) (names : list string)
    (general : any -> option (any -> bool)) : option Kernel :=
  if forallb safeName names && negb (length names =? 0)%nat then Some (mkKernel source payloads (list_to_set names) general) else None.

(** The copy of the aggregate, and the uses of the identifier source and of the clock. *)
Record Candidate : Type := mkCandidate { state_ : TenantState; drawn : nat; ticks : nat }.

Notation K := (M Candidate KernelError).

Definition state : K TenantState := fun c => (Ok (state_ c), c).
Definition update (f : TenantState -> TenantState) : K unit := fun c => (Ok tt, mkCandidate (f (state_ c)) (drawn c) (ticks c)).
Definition lift {A} (r : res KernelError A) : K A := fun c => (r, c).
Definition need {A} (e : KernelError) (o : option A) : K A := match o with Some a => mret a | None => fail e end.

Section kernel.
Context (kernel : Kernel).

Definition now : K Time := fun c => (Ok (toUTC (clock kernel (ticks c))), mkCandidate (state_ c) (drawn c) (S (ticks c))).

(** ids.Next() *)
Definition next_payload : K (option string) := fun c => (Ok (ids kernel (drawn c)), mkCandidate (state_ c) (S (drawn c)) (ticks c)).

Definition payload (prefix : string) : K string :=
  next ← next_payload;
  match next with
  | None => fail (internalFailure "allocate runtime identifier")
  | Some payload =>
    guard_or (internalFailure "allocate runtime identifier") (negb ((len payload ≠? 16) || ContainsAny payload "_- "));;
    mret (prefix +:+ payload)
  end.

Definition newID (prefix : string) : K string := value ← payload prefix; need BadIdentifier (parseID value prefix).
Definition newAgentID : K AgentID := newID agentPrefix.
Definition newRevisionID : K AgentRevisionID := newID agentRevisionPrefix.
Definition newSessionID : K SessionID := newID sessionPrefix.
Definition newInputID : K InputID := newID inputPrefix.
Definition newTurnID : K TurnID := newID turnPrefix.
Definition newEventID : K EventID := newID eventPrefix.
Definition newCursor : K Cursor := newID cursorPrefix.

Definition validateTools (tools : list ToolDefinition) : res KernelError unit :=
  (fix go (seen : gset string) (l : list ToolDefinition) : res KernelError unit :=
     match l with
     | [] => Ok tt
     | tool :: l =>
       if negb (safeName (tol_Name tool)) || (len (tol_Description tool) =? 0) || (4096 <? len (tol_Description tool)) || negb (ValidString (tol_Description tool))
       then Err (invalid "Tool definition is invalid or unbounded")
       else match CanonicalSchema (compile kernel) (tol_InputSchemaVersion tool) (tol_InputSchema tool) with
            | None => Err (invalid "Tool definition input schema is invalid or unsupported")
            | Some _ => if bool_decide (tol_Name tool ∈ seen) then Err (invalid "Tool definition name is duplicated")
                        else go ({[ tol_Name tool ]} ∪ seen) l
            end
     end) ∅ tools.

Definition validateAgent (name profile instructions : string) (tools : list ToolDefinition) : res KernelError unit :=
  if negb (safeName name) || (len instructions =? 0) || (maxInstructionsBytes <? len instructions) || negb (ValidString instructions)
  then Err (invalid "Agent specification is invalid or unbounded")
  else if negb (bool_decide (profile ∈ profiles kernel)) then Err (invalid "model profile is not configured")
  else if maxTools <? Z.of_nat (length tools) then Err (invalid "Agent specification has too many Tools")
  else validateTools tools.

Definition appendEvent (s : sessionRecord) (kind : EventKind) (inputID : InputID) (turnID : TurnID) : K sessionRecord :=
  eventID ← newEventID;
  cursor ← newCursor;
  occurred ← now;
  mret (set_events (events s ++ [mkPublicEvent eventID cursor (nextEventSequence s) kind (ssn_ID (session s)) inputID turnID occurred]) s).

(** advance *)
Definition advance (s : sessionRecord) (timestamp : Time) : K sessionRecord :=
  match activeTurnIndex s with
  | Some _ => mret s
  | None =>
    match queuedTurnIndex s with
    | Some (queued, turn) =>
      let s := set_turns (<[queued := started timestamp turn]> (turns s)) s in
      appendEvent s EventTurnStarted (trn_InputID turn) (trn_ID turn)
    | None =>
      if ssn_State (session s) ≟ SessionClosing
      then appendEvent (set_session (set_state SessionCompleted (session s)) s) EventSessionCompleted "" ""
      else mret s
    end
  end.

(** [if record, ok := state.idempotency[key]; ok { ... }]: the replay of a recorded
    mutation, or the mutation itself. *)
Definition idempotently {A} (key command digest : string) (replay : TenantState -> idempotencyRecord -> K A) (mutation : K A) : K A :=
  st ← state;
  match idempotency st !! key with
  | Some record =>
    guard_or (conflict "idempotency key conflicts with another mutation") (negb ((idm_command record ≠? command) || (idm_digest record ≠? digest)));;
    replay st record
  | None => lift (validateIdempotencyKey key);; mutation
  end.

Definition record_mutation (key command digest : string) (agent : AgentID) (revision : AgentRevisionID) (sid : SessionID) (input : InputID) (turn : TurnID) : K unit :=
  update (put_idempotency key (mkIdempotency command digest agent revision sid input turn)).

(** ** Transitions *)

Definition replay_revision (st : TenantState) (record : idempotencyRecord) : K AgentSpecification :=
  mret (default noSpecification (revisions st !! idm_revision record)).

Definition createAgent (request : CreateAgentRequest) (digest : string) : K AgentSpecification :=
  idempotently (rca_IdempotencyKey request) "create_agent" digest replay_revision
    (lift (validateAgent (rca_Name request) (rca_ModelProfile request) (rca_Instructions request) (rca_Tools request));;
     agentID ← newAgentID;
     revisionID ← newRevisionID;
     created ← now;
     let result := mkSpecification agentID revisionID 1 (rca_Name request) (rca_ModelProfile request) (rca_Instructions request) (rca_Tools request) created in
     update (put_agent agentID (mkAgent agentID [result]));;
     update (put_revision revisionID result);;
     record_mutation (rca_IdempotencyKey request) "create_agent" digest agentID revisionID "" "" "";;
     mret result).

Definition reviseAgent (request : ReviseAgentRequest) (digest : string) : K AgentSpecification :=
  idempotently (rva_IdempotencyKey request) "revise_agent" digest replay_revision
    (lift (validateAgent "revision" (rva_ModelProfile request) (rva_Instructions request) (rva_Tools request));;
     st ← state;
     agent ← need (notFound "Agent not found") (agents st !! rva_AgentID request);
     revisionID ← newRevisionID;
     first ← need Panic (head (agt_revisions agent));
     created ← now;
     let result := mkSpecification (rva_AgentID request) revisionID (u64 (Z.of_nat (length (agt_revisions agent)) + 1)) (spc_Name first)
                     (rva_ModelProfile request) (rva_Instructions request) (rva_Tools request) created in
     update (put_agent (rva_AgentID request) (mkAgent (agt_id agent) (agt_revisions agent ++ [result])));;
     update (put_revision revisionID result);;
     record_mutation (rva_IdempotencyKey request) "revise_agent" digest (rva_AgentID request) revisionID "" "" "";;
     mret result).

Definition replay_session (st : TenantState) (record : idempotencyRecord) : K Session :=
  mret (session (default noSessionRecord (sessions st !! idm_session record))).

(** The Session pinned to a revision, the common end of the two ways to create one. *)
Definition open_session (key digest : string) (agentID : AgentID) (revisionID : AgentRevisionID) : K Session :=
  sessionID ← newSessionID;
  timestamp ← now;
  let result := mkPublicSession sessionID agentID revisionID SessionOpen timestamp timestamp in
  record ← appendEvent (mkSessionRecord result ∅ [] [] ∅) EventSessionCreated "" "";
  update (put_session sessionID record);;
  record_mutation key "create_session" digest "" "" sessionID "" "";;
  mret result.

Definition createSession (request : CreateSessionRequest) (digest : string) : K Session :=
  idempotently (crs_IdempotencyKey request) "create_session" digest replay_session
    (st ← state;
     revision ← need (notFound "Agent revision not found") (revisions st !! crs_AgentRevision request);
     open_session (crs_IdempotencyKey request) digest (spc_ID revision) (spc_RevisionID revision)).

Definition createSessionFromRevision (request : CreateSessionRequest) (revision : AgentSpecification) (digest : string) : K Session :=
  idempotently (crs_IdempotencyKey request) "create_session" digest replay_session
    (st ← state;
     match revisions st !! spc_RevisionID revision with
     | Some existing =>
       existingDigest ← need (internalFailure "compare resolved Agent revision") (canonicalDigest (json_specification existing));
       revisionDigest ← need (internalFailure "compare resolved Agent revision") (canonicalDigest (json_specification revision));
       guard_or (conflict "resolved Agent revision conflicts with pinned revision") (existingDigest ≟ revisionDigest)
     | None => update (put_revision (spc_RevisionID revision) revision)
     end;;
     open_session (crs_IdempotencyKey request) digest (spc_ID revision) (spc_RevisionID revision)).

(** resultFor *)
Definition resultFor (s : sessionRecord) (inputID : InputID) (turnID : TurnID) : K SendInputResult :=
  found ← need Panic (turnIndex s turnID);
  mret (mkSendResult (default noInput (inputs s !! inputID)) found.2).

Definition sendInput (request : SendInputRequest) (digest : string) : K SendInputResult :=
  idempotently (sni_IdempotencyKey request) "send_input" digest
    (fun st record => resultFor (default noSessionRecord (sessions st !! idm_session record)) (idm_input record) (idm_turn record))
    (lift (validateInput request);;
     st ← state;
     s ← need (notFound "Session not found") (sessions st !! sni_SessionID request);
     guard_or (conflict "Session does not accept new Input") (ssn_State (session s) ≟ SessionOpen);;
     inputID ← newInputID;
     turnID ← newTurnID;
     timestamp ← now;
     let input := mkPublicInput inputID (sni_Parts request) timestamp in
     let turn := mkPublicTurn turnID inputID (u64 (Z.of_nat (length (turns s)) + 1)) TurnQueued None None None None None in
     let s := set_turns (turns s ++ [turn]) (add_input input s) in
     s ← appendEvent s EventInputAccepted inputID turnID;
     s ← match activeTurnIndex s with
         | None =>
           let index := (length (turns s) - 1)%nat in
           appendEvent (set_turns (<[index := started timestamp turn]> (turns s)) s) EventTurnStarted inputID turnID
         | Some _ => appendEvent s EventTurnQueued inputID turnID
         end;
     let s := touch timestamp s in
     update (put_session (sni_SessionID request) s);;
     record_mutation (sni_IdempotencyKey request) "send_input" digest "" "" (sni_SessionID request) inputID turnID;;
     resultFor s inputID turnID).

(** A Turn ends: its event, the next Turn, and the Session. *)
Definition end_turn (sid : SessionID) (s : sessionRecord) (index : nat) (turn : Turn) (kind : EventKind) (timestamp : Time) : K unit :=
  s ← appendEvent (set_turns (<[index := turn]> (turns s)) s) kind (trn_InputID turn) (trn_ID turn);
  s ← advance s timestamp;
  update (put_session sid (touch timestamp s)).

Definition completeTurn (sid : SessionID) (turnID : TurnID) (failure : option Failure) : K Turn :=
  st ← state;
  s ← need (notFound "Session not found") (sessions st !! sid);
  '(index, turn) ← need (notFound "Turn not found") (turnIndex s turnID);
  if terminal (trn_State turn) then
    guard_or (conflict "Turn already has a terminal outcome") (equalFailure (trn_Failure turn) failure && (trn_State turn ≠? TurnCancelled));;
    mret turn
  else
    guard_or (conflict "only the active Turn can complete") (trn_State turn ≟ TurnRunning);;
    timestamp ← now;
    let '(outcome, kind) := match failure with None => (TurnSucceeded, EventTurnSucceeded) | Some _ => (TurnFailed, EventTurnFailed) end in
    let turn := ended outcome timestamp failure turn in
    end_turn sid s index turn kind timestamp;;
    mret turn.

Definition replay_turn (st : TenantState) (record : idempotencyRecord) : K Turn :=
  let s := default noSessionRecord (sessions st !! idm_session record) in
  found ← need Panic (turnIndex s (idm_turn record));
  mret found.2.

Definition cancelTurn (request : CancelTurnRequest) (digest : string) : K Turn :=
  idempotently (cnt_IdempotencyKey request) "cancel_turn" digest replay_turn
    (st ← state;
     '(sid, s, (index, turn)) ← need (notFound "Turn not found") (findTurn st (cnt_TurnID request));
     guard_or (notFound "Turn not found") (sid ≟ cnt_SessionID request);;
     guard_or (conflict "Turn already has a terminal outcome") (negb (terminal (trn_State turn)));;
     timestamp ← now;
     let turn := ended TurnCancelled timestamp (trn_Failure turn) turn in
     end_turn sid s index turn EventTurnCancelled timestamp;;
     record_mutation (cnt_IdempotencyKey request) "cancel_turn" digest "" "" sid "" (cnt_TurnID request);;
     mret turn).

Definition closeSession (request : CloseSessionRequest) (digest : string) : K Session :=
  idempotently (cls_IdempotencyKey request) "close_session" digest replay_session
    (st ← state;
     s ← need (notFound "Session not found") (sessions st !! cls_SessionID request);
     guard_or (conflict "Session cannot enter closing state") (ssn_State (session s) ≟ SessionOpen);;
     timestamp ← now;
     s ← appendEvent (touch timestamp (set_session (set_state SessionClosing (session s)) s)) EventSessionClosing "" "";
     s ← match activeTurnIndex s with
         | None => appendEvent (set_session (set_state SessionCompleted (session s)) s) EventSessionCompleted "" ""
         | Some _ => mret s
         end;
     update (put_session (cls_SessionID request) s);;
     record_mutation (cls_IdempotencyKey request) "close_session" digest "" "" (cls_SessionID request) "" "";;
     mret (session s)).

Definition cancelSession (request : CancelSessionRequest) (digest : string) : K Session :=
  idempotently (cns_IdempotencyKey request) "cancel_session" digest replay_session
    (st ← state;
     s ← need (notFound "Session not found") (sessions st !! cns_SessionID request);
     guard_or (conflict "Session cannot enter cancelled state")
       (negb ((ssn_State (session s) ≠? SessionOpen) && (ssn_State (session s) ≠? SessionClosing) ||
              bool_decide (is_Some (activeTurnIndex s)) || bool_decide (is_Some (queuedTurnIndex s))));;
     timestamp ← now;
     s ← appendEvent (touch timestamp (set_session (set_state SessionCancelled (session s)) s)) EventSessionCancelled "" "";
     update (put_session (cns_SessionID request) s);;
     record_mutation (cns_IdempotencyKey request) "cancel_session" digest "" "" (cns_SessionID request) "" "";;
     mret (session s)).

Definition compactEvents (sid : SessionID) (keep : Z) : K unit :=
  st ← state;
  s ← need (notFound "Session not found") (sessions st !! sid);
  if Z.of_nat (length (events s)) <=? keep then mret tt
  else
    let cut := (length (events s) - Z.to_nat keep)%nat in
    update (put_session sid (set_events (drop cut (events s)) (set_trimmed (trimmed s ∪ list_to_set (evt_Cursor <$> take cut (events s))) s))).

End kernel.

(** ** The repository (store.go) *)

(** Whether the context is alive where it is looked at: on entry of the operation, on
    entry of the repository, and before the commit. *)
Record Ctx : Type := mkCtx { live_entry : bool; live_begin : bool; live_commit : bool }.

Record MemoryRepository : Type := mkRepository { states : gmap string TenantState; drawn_ids : nat; clock_ticks : nat }.

Definition NewMemoryRepository : MemoryRepository := mkRepository ∅ 0 0.

Notation W := (M MemoryRepository KernelError).

Definition tenant (w : MemoryRepository) (scope : string) : TenantState := default newTenantState (states w !! scope).

Definition Transact {A} (ctx : Ctx) (scope : string) (change : K A) : W A := fun w =>
  if negb (live_begin ctx) then (Err ContextDone, w)
  else match change (mkCandidate (tenant w scope) (drawn_ids w) (clock_ticks w)) with
       | (Err e, c) => (Err e, mkRepository (states w) (drawn c) (ticks c))
       | (Ok a, c) =>
         if live_commit ctx then (Ok a, mkRepository (<[scope := state_ c]> (states w)) (drawn c) (ticks c))
         else (Err ContextDone, mkRepository (states w) (drawn c) (ticks c))
       end.

Definition View {A} (ctx : Ctx) (scope : string) (inspect : TenantState -> res KernelError A) : W A := fun w =>
  if negb (live_begin ctx) then (Err ContextDone, w) else (inspect (tenant w scope), w).

Definition validateScopeAndContext (ctx : Ctx) (scope : string) : W unit :=
  guard_or ContextDone (live_entry ctx);; guard_or (invalid "invalid ownership scope") (ParseScope scope).

(** ** Operations *)

Definition digested (operation : string) (v : jval) : W string :=
  match canonicalDigest v with Some digest => mret digest | None => fail (internalFailure operation) end.

Section operations.
Context (kernel : Kernel).

Definition CreateAgent (ctx : Ctx) (scope : string) (request : CreateAgentRequest) : W AgentSpecification :=
  validateScopeAndContext ctx scope;;
  digest ← digested "create agent" (json_create_agent request);
  Transact ctx scope (createAgent kernel request digest).

Definition ReviseAgent (ctx : Ctx) (scope : string) (request : ReviseAgentRequest) : W AgentSpecification :=
  validateScopeAndContext ctx scope;;
  guard_or (invalid "invalid Agent ID") (bool_decide (is_Some (ParseAgentID (rva_AgentID request))));;
  digest ← digested "revise agent" (json_revise_agent request);
  Transact ctx scope (reviseAgent kernel request digest).

Definition GetAgentRevision (ctx : Ctx) (scope : string) (agentID : AgentID) (revisionID : AgentRevisionID) : W AgentSpecification :=
  validateScopeAndContext ctx scope;;
  View ctx scope (fun st =>
    match revisions st !! revisionID with
    | Some revision => if spc_ID revision ≠? agentID then Err (notFound "Agent revision not found") else Ok revision
    | None => Err (notFound "Agent revision not found")
    end).

Definition ResolveAgentRevision (ctx : Ctx) (scope : string) (revisionID : AgentRevisionID) : W AgentSpecification :=
  validateScopeAndContext ctx scope;;
  guard_or (invalid "invalid Agent revision ID") (bool_decide (is_Some (ParseAgentRevisionID revisionID)));;
  View ctx scope (fun st =>
    match revisions st !! revisionID with Some revision => Ok revision | None => Err (notFound "Agent revision not found") end).

Definition CreateSession (ctx : Ctx) (scope : string) (request : CreateSessionRequest) : W Session :=
  validateScopeAndContext ctx scope;;
  digest ← digested "create session" (json_create_session request);
  Transact ctx scope (createSession kernel request digest).

Definition CreateSessionFromRevision (ctx : Ctx) (scope : string) (request : CreateSessionRequest) (revision : AgentSpecification) : W Session :=
  validateScopeAndContext ctx scope;;
  guard_or (invalid "resolved Agent revision does not match the Session request")
    (negb ((crs_AgentRevision request ≠? spc_RevisionID revision) || (spc_ID revision ≟ "") || (spc_Revision revision =? 0)));;
  guard_or (invalid "resolved Agent revision has an invalid Agent ID") (bool_decide (is_Some (ParseAgentID (spc_ID revision))));;
  guard_or (invalid "resolved Agent revision has an invalid revision ID") (bool_decide (is_Some (ParseAgentRevisionID (spc_RevisionID revision))));;
  digest ← digested "create session" (json_create_session request);
  Transact ctx scope (createSessionFromRevision kernel request revision digest).

Definition SendInput (ctx : Ctx) (scope : string) (request : SendInputRequest) : W SendInputResult :=
  validateScopeAndContext ctx scope;;
  digest ← digested "send input" (json_send_input request);
  Transact ctx scope (sendInput kernel request digest).

Definition CompleteTurn (ctx : Ctx) (scope : string) (sid : SessionID) (turnID : TurnID) (failure : option Failure) : W Turn :=
  validateScopeAndContext ctx scope;;
  (match validateFailure failure with Ok _ => mret tt | Err e => fail e end : W unit);;
  Transact ctx scope (completeTurn kernel sid turnID failure).

Definition CancelTurn (ctx : Ctx) (scope : string) (request : CancelTurnRequest) : W Turn :=
  validateScopeAndContext ctx scope;;
  guard_or (invalid "invalid Session ID") (bool_decide (is_Some (ParseSessionID (cnt_SessionID request))));;
  digest ← digested "cancel turn" (json_cancel_turn request);
  Transact ctx scope (cancelTurn kernel request digest).

Definition CloseSession (ctx : Ctx) (scope : string) (request : CloseSessionRequest) : W Session :=
  validateScopeAndContext ctx scope;;
  digest ← digested "close session" (marshalID (cls_SessionID request) sessionPrefix);
  Transact ctx scope (closeSession kernel request digest).

Definition CancelSession (ctx : Ctx) (scope : string) (request : CancelSessionRequest) : W Session :=
  validateScopeAndContext ctx scope;;
  digest ← digested "cancel session" (marshalID (cns_SessionID request) sessionPrefix);
  Transact ctx scope (cancelSession kernel request digest).

(** The loop of InspectSession over the Turns. *)
Definition view_turn (v : SessionView) (t : Turn) : SessionView :=
  match trn_State t with
  | TurnRunning => mkView (viw_Session v) (Some t) (viw_QueuedTurns v) (viw_QueuedTurnCount v) (viw_QueuedTurnsTruncated v) (viw_RecentEvents v)
  | TurnQueued =>
    mkView (viw_Session v) (viw_ActiveTurn v)
      (if Z.of_nat (length (viw_QueuedTurns v)) <? MaxSessionViewQueuedTurns then viw_QueuedTurns v ++ [t] else viw_QueuedTurns v)
      (u64 (viw_QueuedTurnCount v + 1)) (viw_QueuedTurnsTruncated v) (viw_RecentEvents v)
  | _ => v
  end.

Definition inspect_session (s : sessionRecord) : SessionView :=
  let v := foldl view_turn (mkView (session s) None [] 0 false []) (turns s) in
  mkView (viw_Session v) (viw_ActiveTurn v) (viw_QueuedTurns v) (viw_QueuedTurnCount v)
    (Z.of_nat (length (viw_QueuedTurns v)) <? viw_QueuedTurnCount v) (drop (length (events s) - 20) (events s)).

Definition InspectSession (ctx : Ctx) (scope : string) (sid : SessionID) : W SessionView :=
  validateScopeAndContext ctx scope;;
  View ctx scope (fun st => match sessions st !! sid with Some s => Ok (inspect_session s) | None => Err (notFound "Session not found") end).

Definition InspectTurn (ctx : Ctx) (scope : string) (sid : SessionID) (turnID : TurnID) : W Turn :=
  validateScopeAndContext ctx scope;;
  View ctx scope (fun st =>
    match sessions st !! sid with
    | Some s => match turnIndex s turnID with Some found => Ok found.2 | None => Err (notFound "Turn not found") end
    | None => Err (notFound "Turn not found")
    end).

(** The page of a Session's events after a cursor. *)
Definition event_page (s : sessionRecord) (after : Cursor) (limit : Z) : EventPage :=
  match (if after ≟ "" then Some 0%nat else eventAfter (events s) after) with
  | None => mkPage [] "" (Some (mkEventGap after (match events s with e :: _ => evt_Cursor e | [] => "" end) true))
  | Some start =>
    let page := take (Z.to_nat limit) (drop start (events s)) in
    mkPage page (match last page with Some e => evt_Cursor e | None => after end) None
  end.

Definition Events (ctx : Ctx) (scope : string) (sid : SessionID) (after : Cursor) (limit : Z) : W EventPage :=
  validateScopeAndContext ctx scope;;
  guard_or (invalid "event page limit is outside the supported range") (negb ((limit <? 1) || (maxEventPage <? limit)));;
  guard_or (invalid "invalid event Cursor") ((after ≟ "") || bool_decide (is_Some (ParseCursor after)));;
  View ctx scope (fun st => match sessions st !! sid with Some s => Ok (event_page s after limit) | None => Err (notFound "Session not found") end).

Definition CompactEvents (ctx : Ctx) (scope : string) (sid : SessionID) (keep : Z) : W unit :=
  validateScopeAndContext ctx scope;;
  guard_or (invalid "event retention must keep at least one event") (negb (keep <? 1));;
  Transact ctx scope (compactEvents sid keep).

End operations.

(** ** Calls *)

Inductive Call : Type :=
| call_CreateAgent (r : CreateAgentRequest)
| call_ReviseAgent (r : ReviseAgentRequest)
| call_CreateSession (r : CreateSessionRequest)
| call_CreateSessionFromRevision (r : CreateSessionRequest) (revision : AgentSpecification)
| call_SendInput (r : SendInputRequest)
| call_CompleteTurn (sid : SessionID) (turnID : TurnID) (failure : option Failure)
| call_CancelTurn (r : CancelTurnRequest)
| call_CloseSession (r : CloseSessionRequest)
| call_CancelSession (r : CancelSessionRequest)
| call_CompactEvents (sid : SessionID) (keep : Z).

Definition discard {A} (m : W A) : W unit := m;; mret tt.

(** The mutating operations; the others leave the repository as it is. *)
Definition perform (kernel : Kernel) (ctx : Ctx) (scope : string) (call : Call) : W unit :=
  match call with
  | call_CreateAgent r => discard (CreateAgent kernel ctx scope r)
  | call_ReviseAgent r => discard (ReviseAgent kernel ctx scope r)
  | call_CreateSession r => discard (CreateSession kernel ctx scope r)
  | call_CreateSessionFromRevision r revision => discard (CreateSessionFromRevision kernel ctx scope r revision)
  | call_SendInput r => discard (SendInput kernel ctx scope r)
  | call_CompleteTurn sid turnID failure => discard (CompleteTurn kernel ctx scope sid turnID failure)
  | call_CancelTurn r => discard (CancelTurn kernel ctx scope r)
  | call_CloseSession r => discard (CloseSession kernel ctx scope r)
  | call_CancelSession r => discard (CancelSession kernel ctx scope r)
  | call_CompactEvents sid keep => discard (CompactEvents ctx scope sid keep)
  end.

(** One call, whatever its outcome. *)
Definition kernel_step (kernel : Kernel) (w w' : MemoryRepository) : Prop :=
  exists ctx scope call, w' = (perform kernel ctx scope call w).2.

Definition reachable (kernel : Kernel) (w : MemoryRepository) : Prop := rtc (kernel_step kernel) NewMemoryRepository w.
