(* ===== verification/KernelFacts.v ===== *)
(** * The conversation kernel: invariants

    A specification logic for transitions ([kspec]), the invariant of the aggregate
    ([tenant_ok]) and one lemma per transition: it keeps the invariant, does not
    panic, and only adds to what the aggregate holds ([tenant_step]). *)

From stdpp Require Import gmap.
From Stdlib Require Import Ascii String.
From S2P Require Import Prelude GoString GoTime Sdk SdkTypes Keys Kernel.

Open Scope Z_scope.

(** ** Specifications of transitions

    Whatever the outcome, identifiers are only drawn, never given back; an error is
    not a panic, if the identifier source does not repeat itself; a result satisfies
    [Q]. *)

Section facts.
Context (kernel : Kernel).

Definition unique_ids : Prop := forall i j p, ids kernel i = Some p -> ids kernel j = Some p -> i = j.

Definition kspec {A} (m : K A) (c : Candidate) (Q : A -> Candidate -> Prop) : Prop :=
  match m c with
  | (Ok a, c') => (drawn c <= drawn c')%nat /\ Q a c'
  | (Err e, c') => (drawn c <= drawn c')%nat /\ (unique_ids -> e <> Panic)
  end.

Section rules.
Context {A B : Type}.

Lemma kspec_mono (m : K A) c (Q Q' : A -> Candidate -> Prop) :
  kspec m c Q -> (forall a c', (drawn c <= drawn c')%nat -> Q a c' -> Q' a c') -> kspec m c Q'.
Proof. unfold kspec. destruct (m c) as [[a|e] c']; naive_solver. Qed.

Lemma kspec_ret (a : A) c (Q : A -> Candidate -> Prop) : Q a c -> kspec (mret a) c Q.
Proof. done. Qed.

Lemma kspec_bind (m : K A) (f : A -> K B) c (Q : B -> Candidate -> Prop) :
  kspec m c (fun a c' => kspec (f a) c' Q) -> kspec (m ≫= f) c Q.
Proof.
  unfold kspec. unfold mbind, M_bind. destruct (m c) as [[a|e] c']; [|done]. intros [Hle H].
  destruct (f a c') as [[b|e] c'']; destruct H; split; try done; lia.
Qed.

Lemma kspec_fail e c (Q : A -> Candidate -> Prop) : (unique_ids -> e <> Panic) -> kspec (fail e) c Q.
Proof. done. Qed.

Lemma kspec_need e (o : option A) c (Q : A -> Candidate -> Prop) :
  (o = None -> unique_ids -> e <> Panic) -> (forall a, o = Some a -> Q a c) -> kspec (need e o) c Q.
Proof. intros He HQ. destruct o as [a|]; [by apply kspec_ret, HQ|by apply kspec_fail, He]. Qed.

Lemma kspec_lift (r : res KernelError A) c (Q : A -> Candidate -> Prop) :
  r <> Err Panic -> (forall a, r = Ok a -> Q a c) -> kspec (lift r) c Q.
Proof. intros He HQ. destruct r as [a|e]; unfold kspec, lift; split; [done|by apply HQ|done|congruence]. Qed.
End rules.

Lemma kspec_guard e b c (Q : unit -> Candidate -> Prop) : e <> Panic -> (b = true -> Q tt c) -> kspec (guard_or e b) c Q.
Proof. intros He HQ. destruct b; [by apply kspec_ret, HQ|by apply kspec_fail]. Qed.

Lemma kspec_state c (Q : TenantState -> Candidate -> Prop) : Q (state_ c) c -> kspec state c Q.
Proof. done. Qed.

Lemma kspec_update f c (Q : unit -> Candidate -> Prop) : Q tt (mkCandidate (f (state_ c)) (drawn c) (ticks c)) -> kspec (update f) c Q.
Proof. done. Qed.


Lemma kspec_now c (Q : Time -> Candidate -> Prop) :
  (forall t c', state_ c' = state_ c -> drawn c' = drawn c -> Q t c') -> kspec (now kernel) c Q.
Proof. intros H. unfold kspec, now. split; [done|]. by apply H. Qed.

Lemma kspec_newID prefix c (Q : string -> Candidate -> Prop) :
  (forall p c', state_ c' = state_ c -> drawn c' = S (drawn c) -> ids kernel (drawn c) = Some p -> Q (prefix +:+ p) c') ->
  kspec (newID kernel prefix) c Q.
Proof.
  intros H. unfold newID, payload. apply kspec_bind, kspec_bind. unfold kspec at 1, next_payload. split; [simpl; lia|].
  destruct (ids kernel (drawn c)) as [p|] eqn:Hp; [|by apply kspec_fail].
  apply kspec_bind, kspec_guard; [done|]. intros _. apply kspec_ret, kspec_need; [done|]. intros v Hv.
  assert (v = prefix +:+ p) as -> by (unfold parseID in Hv; destruct (_ || _); congruence). by apply H.
Qed.

(** ** The order of Turns *)

Definition is_terminal (t : Turn) : Prop := terminal (trn_State t) = true.
Definition is_waiting (t : Turn) : Prop := trn_State t = TurnQueued \/ trn_State t = TurnCancelled.

(** One Turn runs; those before it are over, those after it wait or were cancelled. *)
Definition running_at (l : list Turn) (r : Turn) (over later : list Turn) : Prop :=
  l = over ++ r :: later /\ Forall is_terminal over /\ trn_State r = TurnRunning /\ Forall is_waiting later.

Definition ordered (l : list Turn) : Prop := Forall is_terminal l \/ exists r over later, running_at l r over later.

(** No Turn runs; those that are over come first. *)
Definition draining (l : list Turn) : Prop := exists over later, l = over ++ later /\ Forall is_terminal over /\ Forall is_waiting later.

Definition state_fits (state : SessionState) (l : list Turn) : Prop :=
  match state with
  | SessionOpen => True
  | SessionClosing => exists r over later, running_at l r over later
  | SessionCompleted | SessionCancelled => Forall is_terminal l
  | _ => False
  end.

Lemma running_active l r over later : running_at l r over later -> find_index (fun t => trn_State t ≟ TurnRunning) l = Some (length over, r).
Proof.
  intros (-> & Ho & Hr & _). apply find_index_intro; [by rewrite list_lookup_middle|by apply bool_decide_eq_true|].
  intros j y Hj Hy. rewrite lookup_app_l in Hy by done. rewrite Forall_lookup in Ho. apply Ho in Hy. unfold is_terminal in Hy.
  apply bool_decide_eq_false. intros E. by rewrite E in Hy.
Qed.

Lemma inactive_terminal l : ordered l -> find_index (fun t => trn_State t ≟ TurnRunning) l = None -> Forall is_terminal l.
Proof. intros [H|(r & over & later & H)] Hn; [done|]. by rewrite (running_active _ _ _ _ H) in Hn. Qed.

Lemma terminal_inactive l : Forall is_terminal l -> find_index (fun t => trn_State t ≟ TurnRunning) l = None.
Proof.
  intros H. apply find_index_None. eapply Forall_impl; [exact H|]. intros t Ht. apply bool_decide_eq_false. intros E.
  unfold is_terminal in Ht. by rewrite E in Ht.
Qed.

Lemma draining_inactive l : draining l -> find_index (fun t => trn_State t ≟ TurnRunning) l = None.
Proof.
  intros (over & later & -> & Ho & Hl). apply find_index_None, Forall_app. split; (eapply Forall_impl; [eassumption|]); intros t Ht;
    apply bool_decide_eq_false; intros E; unfold is_terminal, is_waiting in Ht; rewrite E in Ht; [done|by destruct Ht].
Qed.

Lemma waiting_terminal t : is_waiting t -> trn_State t <> TurnQueued -> is_terminal t.
Proof. intros [H|H] Hn; [done|]. unfold is_terminal. by rewrite H. Qed.

(** The first queued Turn starts. *)
Lemma draining_start l i t ts : draining l -> find_index (fun t => trn_State t ≟ TurnQueued) l = Some (i, t) ->
  running_at (<[i := started ts t]> l) (started ts t) (take i l) (drop (S i) l).
Proof.
  intros (over & later & -> & Ho & Hl) H. apply find_index_Some in H as (Hi & Ht & Hlt). apply bool_decide_eq_true in Ht.
  assert (Hlen : (i < length (over ++ later))%nat) by (by eapply lookup_lt_Some).
  assert (Hge : (length over <= i)%nat).
  { destruct (Nat.lt_ge_cases i (length over)) as [Hc|]; [|done]. rewrite lookup_app_l in Hi by done.
    rewrite Forall_lookup in Ho. apply Ho in Hi. unfold is_terminal in Hi. by rewrite Ht in Hi. }
  split_and!.
  - by apply insert_take_drop.
  - apply Forall_lookup. intros j x [Hx Hj]%lookup_take_Some. destruct (Nat.lt_ge_cases j (length over)).
    + rewrite lookup_app_l in Hx by done. rewrite Forall_lookup in Ho. eauto.
    + pose proof (Hlt j x Hj Hx) as Hq. apply bool_decide_eq_false in Hq. rewrite lookup_app_r in Hx by done.
      rewrite Forall_lookup in Hl. apply waiting_terminal; eauto.
  - done.
  - apply Forall_lookup. intros j x Hx. rewrite lookup_drop, lookup_app_r in Hx by lia. rewrite Forall_lookup in Hl. eauto.
Qed.

Lemma draining_over l : draining l -> find_index (fun t => trn_State t ≟ TurnQueued) l = None -> Forall is_terminal l.
Proof.
  intros (over & later & -> & Ho & Hl) H. apply find_index_None, Forall_app in H as [_ H]. apply Forall_app. split; [done|].
  rewrite Forall_forall in *. intros t Ht. apply waiting_terminal; [auto|]. specialize (H t Ht). by apply bool_decide_eq_false in H.
Qed.

(** The running Turn ends. *)
Lemma running_end l i t t' : ordered l -> l !! i = Some t -> trn_State t = TurnRunning -> is_terminal t' -> draining (<[i := t']> l).
Proof.
  intros [H|(r & over & later & H)] Hi Ht Ht'.
  - rewrite Forall_lookup in H. apply H in Hi. unfold is_terminal in Hi. by rewrite Ht in Hi.
  - assert (i = length over).
    { pose proof (running_active _ _ _ _ H) as Ha. destruct H as (-> & Ho & Hr & Hl). destruct (Nat.lt_trichotomy i (length over)) as [Hc|[Hc|Hc]]; [|done|].
      - rewrite lookup_app_l in Hi by done. rewrite Forall_lookup in Ho. apply Ho in Hi. unfold is_terminal in Hi. by rewrite Ht in Hi.
      - rewrite lookup_app_r, lookup_cons_ne_0 in Hi by lia. rewrite Forall_lookup in Hl. apply Hl in Hi as [Hi|Hi]; congruence. }
    subst i. destruct H as (-> & Ho & Hr & Hl). exists (over ++ [t']), later. split_and!; [|by apply Forall_app; auto|done].
    by rewrite insert_app_r_alt, Nat.sub_diag, <- (assoc_L (++)) by lia.
Qed.

(** A waiting Turn is cancelled. *)
Lemma waiting_cancelled l i t t' : ordered l -> l !! i = Some t -> trn_State t = TurnQueued -> trn_State t' = TurnCancelled ->
  exists r over later, running_at l r over later /\ running_at (<[i := t']> l) r over (<[(i - S (length over))%nat := t']> later).
Proof.
  intros [H|(r & over & later & H)] Hi Ht Ht'.
  - rewrite Forall_lookup in H. apply H in Hi. unfold is_terminal in Hi. by rewrite Ht in Hi.
  - exists r, over, later. split; [done|]. destruct H as (-> & Ho & Hr & Hl). destruct (Nat.lt_trichotomy i (length over)) as [Hc|[Hc|Hc]].
    + rewrite lookup_app_l in Hi by done. rewrite Forall_lookup in Ho. apply Ho in Hi. unfold is_terminal in Hi. by rewrite Ht in Hi.
    + subst i. rewrite list_lookup_middle in Hi by done. congruence.
    + split_and!; [|done|done|].
      * rewrite insert_app_r_alt by lia. f_equal. destruct (i - length over)%nat as [|k] eqn:Ek; [lia|]. simpl. do 2 f_equal. lia.
      * apply Forall_insert; [done|by right].
Qed.

(** ** The events of a Session *)

Definition consecutive (l : list Event) : Prop :=
  l <> [] /\ forall i e e', l !! i = Some e -> l !! S i = Some e' -> evt_Sequence e' = u64 (evt_Sequence e + 1).

Definition session_ok (sid : SessionID) (s : sessionRecord) : Prop :=
  ssn_ID (session s) = sid /\
  ordered (turns s) /\ state_fits (ssn_State (session s)) (turns s) /\
  (forall i t, turns s !! i = Some t -> trn_Position t = u64 (Z.of_nat i + 1)) /\
  (forall t, t ∈ turns s -> exists input, inputs s !! trn_InputID t = Some input /\ ipt_ID input = trn_InputID t) /\
  consecutive (events s).

(** ** What the aggregate refers to *)

Definition drawn_id (n : nat) (prefix v : string) : Prop := exists i p, (i < n)%nat /\ ids kernel i = Some p /\ v = prefix +:+ p.

Definition turn_recorded (st : TenantState) (sid : SessionID) (turnID : TurnID) : Prop :=
  exists s t, sessions st !! sid = Some s /\ t ∈ turns s /\ trn_ID t = turnID.

Definition record_grounded (st : TenantState) (r : idempotencyRecord) : Prop :=
  (idm_command r = "send_input" \/ idm_command r = "cancel_turn") -> turn_recorded st (idm_session r) (idm_turn r).

(** Sessions and Turns carry identifiers that were drawn, the Turns of a Session
    different ones, and the records of replays refer to Turns that exist. *)
Definition grounded (n : nat) (st : TenantState) : Prop :=
  (forall sid s, sessions st !! sid = Some s -> drawn_id n sessionPrefix sid /\
     NoDup (trn_ID <$> turns s) /\ forall t, t ∈ turns s -> drawn_id n turnPrefix (trn_ID t)) /\
  (forall key r, idempotency st !! key = Some r -> record_grounded st r).

Definition tenant_ok (n : nat) (st : TenantState) : Prop :=
  (forall sid s, sessions st !! sid = Some s -> session_ok sid s) /\
  (forall id a, agents st !! id = Some a -> agt_revisions a <> []) /\
  (unique_ids -> grounded n st).

Lemma drawn_id_mono n n' prefix v : (n <= n')%nat -> drawn_id n prefix v -> drawn_id n' prefix v.
Proof. intros Hle (i & p & Hi & Hp & Hv). exists i, p. split_and!; [lia|done..]. Qed.

Lemma tenant_ok_mono n n' st : (n <= n')%nat -> tenant_ok n st -> tenant_ok n' st.
Proof.
  intros Hle (Hs & Ha & Hg). split_and!; [done..|]. intros Hu. destruct (Hg Hu) as [Hg1 Hg2]. split; [|done].
  intros sid s Hsid. destruct (Hg1 sid s Hsid) as (H1 & H2 & H3). split_and!; eauto using drawn_id_mono.
Qed.

(** A fresh identifier differs from those drawn before. *)
Lemma fresh_id n prefix p v : unique_ids -> ids kernel n = Some p -> drawn_id n prefix v -> v <> prefix +:+ p.
Proof.
  intros Hu Hp (i & q & Hi & Hq & ->) E. apply app_inj_l in E as ->. by rewrite (Hu _ _ _ Hp Hq) in Hi; lia.
Qed.

(** ** Appending events *)

Lemma appendEvent_spec s kind inputID turnID c (Q : sessionRecord -> Candidate -> Prop) :
  (forall e c', state_ c' = state_ c -> (drawn c <= drawn c')%nat -> evt_Sequence e = nextEventSequence s ->
     Q (set_events (events s ++ [e]) s) c') ->
  kspec (appendEvent kernel s kind inputID turnID) c Q.
Proof.
  intros H. unfold appendEvent, newEventID, newCursor. apply kspec_bind, kspec_newID. intros p1 c1 Hs1 Hd1 _.
  apply kspec_bind, kspec_newID. intros p2 c2 Hs2 Hd2 _. apply kspec_bind, kspec_now. intros t c3 Hs3 Hd3.
  apply kspec_ret, H; [congruence|lia|done].
Qed.

Lemma consecutive_snoc s e : (events s = [] \/ consecutive (events s)) -> evt_Sequence e = nextEventSequence s -> consecutive (events s ++ [e]).
Proof.
  intros Hs He. split; [by destruct (events s)|]. intros i x y Hx Hy.
  assert (Hi : (S i < length (events s ++ [e]))%nat) by (by eapply lookup_lt_Some). rewrite length_app in Hi. simpl in Hi.
  rewrite lookup_app_l in Hx by lia. destruct (decide (S i < length (events s))%nat) as [Hlt|Hge].
  - rewrite lookup_app_l in Hy by done. destruct Hs as [Hs|[_ Hs]]; [by rewrite Hs in Hx|eauto].
  - rewrite lookup_app_r in Hy by lia. assert (S i - length (events s) = 0)%nat as E by lia. rewrite E in Hy. injection Hy as <-.
    rewrite He. unfold nextEventSequence. rewrite last_lookup. assert (pred (length (events s)) = i) as -> by lia. by rewrite Hx.
Qed.

(** ** Sessions *)

(** A Session whose Turns may be about to advance. *)
Definition session_between (sid : SessionID) (s : sessionRecord) : Prop :=
  ssn_ID (session s) = sid /\
  (forall i t, turns s !! i = Some t -> trn_Position t = u64 (Z.of_nat i + 1)) /\
  (forall t, t ∈ turns s -> exists input, inputs s !! trn_InputID t = Some input /\ ipt_ID input = trn_InputID t) /\
  consecutive (events s).

Lemma between_event sid s e : session_between sid s -> evt_Sequence e = nextEventSequence s -> session_between sid (set_events (events s ++ [e]) s).
Proof. intros (H1 & H2 & H3 & H4) He. split_and!; [done..|]. apply consecutive_snoc; auto. Qed.

Lemma between_ok sid s : session_between sid s -> ordered (turns s) -> state_fits (ssn_State (session s)) (turns s) -> session_ok sid s.
Proof. intros (H1 & H2 & H3 & H4) Ho Hf. by split_and!. Qed.

Lemma ok_between sid s : session_ok sid s -> session_between sid s.
Proof. intros (H1 & _ & _ & H2 & H3 & H4). by split_and!. Qed.

Lemma between_touch sid s t : session_between sid s -> session_between sid (touch t s).
Proof. intros (H1 & H2 & H3 & H4). by split_and!. Qed.

(** A Turn is replaced by the same Turn in another state. *)
Definition same_turn (t t' : Turn) : Prop := trn_ID t' = trn_ID t /\ trn_InputID t' = trn_InputID t /\ trn_Position t' = trn_Position t.

Lemma between_turn sid s i t t' : session_between sid s -> turns s !! i = Some t -> same_turn t t' -> session_between sid (set_turns (<[i := t']> (turns s)) s).
Proof.
  intros (H1 & H2 & H3 & H4) Hi (E1 & E2 & E3). split_and!; [done| | |done].
  - intros j x [(<- & -> & _)|[Hne Hx]]%lookup_insert_cases; [|by apply H2]. rewrite E3. by apply H2.
  - intros x [j [(<- & -> & _)|[Hne Hx]]%lookup_insert_cases]%list_elem_of_lookup; [rewrite E2|]; apply H3; by eapply list_elem_of_lookup_2.
Qed.

(** The identifiers of the Turns and the Inputs stay. *)
Definition session_le (s s' : sessionRecord) : Prop := (trn_ID <$> turns s) `prefix_of` (trn_ID <$> turns s').

Lemma insert_same_ids (l : list Turn) (i : nat) (t t' : Turn) : l !! i = Some t -> trn_ID t' = trn_ID t -> trn_ID <$> <[i := t']> l = trn_ID <$> l.
Proof. intros Hi E. rewrite list_fmap_insert, E. apply list_insert_id. by rewrite list_lookup_fmap, Hi. Qed.

Lemma state_open_or_closing s i t : state_fits (ssn_State (session s)) (turns s) -> turns s !! i = Some t -> trn_State t = TurnRunning ->
  ssn_State (session s) = SessionOpen \/ ssn_State (session s) = SessionClosing.
Proof.
  intros Hf Hi Ht. destruct (ssn_State (session s)); try done; auto; simpl in Hf; rewrite Forall_lookup in Hf;
    apply Hf in Hi; unfold is_terminal in Hi; by rewrite Ht in Hi.
Qed.

Lemma advance_spec sid s ts c (Q : sessionRecord -> Candidate -> Prop) :
  session_between sid s ->
  (ordered (turns s) /\ (exists r over later, running_at (turns s) r over later) \/ draining (turns s)) ->
  ssn_State (session s) = SessionOpen \/ ssn_State (session s) = SessionClosing ->
  (forall s' c', state_ c' = state_ c -> (drawn c <= drawn c')%nat -> session_ok sid s' -> trn_ID <$> turns s' = trn_ID <$> turns s -> Q s' c') ->
  kspec (advance kernel s ts) c Q.
Proof.
  intros Hb Hcase Hst HQ. unfold advance. destruct Hcase as [[Ho (r & over & later & Hr)]|Hd].
  - unfold activeTurnIndex. rewrite (running_active _ _ _ _ Hr). apply kspec_ret, HQ; [done..| |done].
    apply between_ok; [done..|]. destruct Hst as [-> | ->]; [done|]. simpl. eauto.
  - unfold activeTurnIndex, queuedTurnIndex. rewrite (draining_inactive _ Hd).
    destruct (find_index (fun t => trn_State t ≟ TurnQueued) (turns s)) as [[i t]|] eqn:Hq.
    + pose proof (draining_start _ _ _ ts Hd Hq) as Hr. apply find_index_lookup in Hq as Hi.
      apply appendEvent_spec. intros e c' Hc' Hle He. apply HQ; [done..| |].
      * apply between_ok; [apply between_event; [|done]; by eapply between_turn|right; eauto|].
        cbn. destruct Hst as [-> | ->]; [done|]. simpl. eauto.
      * cbn. by eapply insert_same_ids.
    + pose proof (draining_over _ Hd Hq) as Hall. case_bool_decide as Hc.
      * apply appendEvent_spec. intros e c' Hc' Hle He. apply HQ; [done..| |done].
        apply between_ok; [apply between_event; [exact Hb|done]|by left|done].
      * apply kspec_ret, HQ; [done..| |done]. apply between_ok; [done|by left|]. destruct Hst as [Hst|Hst]; [by rewrite Hst|done].
Qed.

(** ** The aggregate *)

Lemma tenant_put_agent n id a st : agt_revisions a <> [] -> tenant_ok n st -> tenant_ok n (put_agent id a st).
Proof.
  intros Ha (Hs & Hag & Hg). split_and!; [done| |done]. cbn [put_agent agents].
  intros id' a' [[<- <-]|[_ H]]%lookup_insert_Some; [done|by eapply Hag].
Qed.

Lemma tenant_put_revision n id r st : tenant_ok n st -> tenant_ok n (put_revision id r st).
Proof. intros (Hs & Hag & Hg). by split_and!. Qed.

Lemma tenant_put_idempotency n key r st : (unique_ids -> record_grounded st r) -> tenant_ok n st -> tenant_ok n (put_idempotency key r st).
Proof.
  intros Hr (Hs & Hag & Hg). split_and!; [done..|]. intros Hu. destruct (Hg Hu) as [Hg1 Hg2]. split; [done|].
  cbn [put_idempotency idempotency]. intros key' r' [[<- <-]|[_ H]]%lookup_insert_Some; [by apply Hr|by eapply Hg2].
Qed.

(** What a Session adds to [grounded]. *)
Definition session_grounded (n : nat) (sid : SessionID) (s : sessionRecord) : Prop :=
  drawn_id n sessionPrefix sid /\ NoDup (trn_ID <$> turns s) /\ forall t, t ∈ turns s -> drawn_id n turnPrefix (trn_ID t).

Lemma session_le_turn s s' t : session_le s s' -> t ∈ turns s -> exists t', t' ∈ turns s' /\ trn_ID t' = trn_ID t.
Proof.
  intros [k Hk] Ht. assert (H : trn_ID t ∈ trn_ID <$> turns s') by (rewrite Hk; apply elem_of_app; left; by apply list_elem_of_fmap_2).
  apply list_elem_of_fmap in H as (t' & E & Ht'). by exists t'.
Qed.

Lemma tenant_put_session n sid s st :
  tenant_ok n st -> session_ok sid s -> (unique_ids -> session_grounded n sid s /\ forall s0, sessions st !! sid = Some s0 -> session_le s0 s) ->
  tenant_ok n (put_session sid s st).
Proof.
  intros (Hs & Hag & Hg) Hok Hgs. split_and!; [|done|].
  - cbn [put_session sessions]. intros sid' s' [[<- <-]|[_ H]]%lookup_insert_Some; [done|by eapply Hs].
  - intros Hu. destruct (Hg Hu) as [Hg1 Hg2]. destruct (Hgs Hu) as [Hsg Hle]. split.
    + cbn [put_session sessions]. intros sid' s' [[<- <-]|[_ H]]%lookup_insert_Some; [done|by eapply Hg1].
    + intros key r Hr Hcmd. destruct (Hg2 key r Hr Hcmd) as (s0 & t & Hs0 & Ht & Hid). unfold turn_recorded. cbn [sessions put_session].
      destruct (decide (idm_session r = sid)) as [<- | Hne].
      * destruct (session_le_turn _ _ _ (Hle _ Hs0) Ht) as (t' & Ht' & E). exists s, t'. rewrite lookup_insert_eq. split_and!; [done..|congruence].
      * exists s0, t. by rewrite lookup_insert_ne.
Qed.

(** What every transition does. *)
Definition kept (c c' : Candidate) : Prop := tenant_ok (drawn c') (state_ c') /\ idempotency (state_ c) ⊆ idempotency (state_ c').

Lemma kept_refl c : tenant_ok (drawn c) (state_ c) -> kept c c.
Proof. done. Qed.

Lemma validateIdempotencyKey_no_panic key : validateIdempotencyKey key <> Err Panic.
Proof. unfold validateIdempotencyKey. repeat case_match; discriminate. Qed.

Lemma idempotently_spec {A} key command digest replay (mutation : K A) c (Q : A -> Candidate -> Prop) :
  (forall r, idempotency (state_ c) !! key = Some r -> idm_command r = command -> kspec (replay (state_ c) r) c Q) ->
  (idempotency (state_ c) !! key = None -> kspec mutation c Q) -> kspec (idempotently key command digest replay mutation) c Q.
Proof.
  intros Hr Hm. unfold idempotently. apply kspec_bind, kspec_state. destruct (idempotency (state_ c) !! key) as [r|].
  - apply kspec_bind, kspec_guard; [done|]. intros E. apply negb_true_iff, orb_false_iff in E as [E _].
    apply negb_false_iff, bool_decide_eq_true in E. by apply Hr.
  - apply kspec_bind, kspec_lift; [apply validateIdempotencyKey_no_panic|]. intros _ _. by apply Hm.
Qed.

(** A transition records itself at the end. *)
Lemma record_spec {A} key command digest agent revision sid input turn c0 (rest : K A) c (Q : A -> Candidate -> Prop) :
  idempotency (state_ c) = idempotency (state_ c0) -> idempotency (state_ c0) !! key = None ->
  tenant_ok (drawn c) (state_ c) -> (unique_ids -> command = "send_input" \/ command = "cancel_turn" -> turn_recorded (state_ c) sid turn) ->
  (forall c', kept c0 c' -> sessions (state_ c') = sessions (state_ c) -> kspec rest c' Q) ->
  kspec (record_mutation key command digest agent revision sid input turn;; rest) c Q.
Proof.
  intros E Hn Hok Hrec HQ. unfold record_mutation. apply kspec_bind, kspec_update, HQ; [|done]. split; cbn [state_ drawn].
  - apply tenant_put_idempotency; [|done]. intros Hu. exact (Hrec Hu).
  - cbn. rewrite E. by apply insert_subseteq.
Qed.

Lemma validateTools_no_panic tools : validateTools kernel tools <> Err Panic.
Proof.
  unfold validateTools. generalize (∅ : gset string). induction tools as [|t l IH]; intros seen; [done|].
  destruct (_ || _); [done|]. destruct (ToolSchema.CanonicalSchema _ _ _); [|done]. case_bool_decide; [done|]. apply IH.
Qed.

Lemma validateAgent_no_panic name profile instructions tools : validateAgent kernel name profile instructions tools <> Err Panic.
Proof. unfold validateAgent. repeat (case_match; [done|]). apply validateTools_no_panic. Qed.

Lemma createAgent_kept request digest c : tenant_ok (drawn c) (state_ c) -> kspec (createAgent kernel request digest) c (fun _ c' => kept c c').
Proof.
  intros Hok. apply idempotently_spec; [intros r _ _; by apply kspec_ret|]. intros Hn.
  apply kspec_bind, kspec_lift; [apply validateAgent_no_panic|]. intros _ _. apply kspec_bind, kspec_newID. intros p1 c1 E1 D1 _.
  apply kspec_bind, kspec_newID. intros p2 c2 E2 D2 _. apply kspec_bind, kspec_now. intros t c3 E3 D3.
  apply kspec_bind, kspec_update, kspec_bind, kspec_update, (record_spec _ _ _ _ _ _ _ _ c); [|done| |by intros _ []|by intros; apply kspec_ret].
  - cbn. by rewrite E3, E2, E1.
  - cbn. apply tenant_put_revision, tenant_put_agent; [done|]. eapply tenant_ok_mono; [|by rewrite E3, E2, E1]. lia.
Qed.

Lemma reviseAgent_kept request digest c : tenant_ok (drawn c) (state_ c) -> kspec (reviseAgent kernel request digest) c (fun _ c' => kept c c').
Proof.
  intros Hok. apply idempotently_spec; [intros r _ _; by apply kspec_ret|]. intros Hn.
  apply kspec_bind, kspec_lift; [apply validateAgent_no_panic|]. intros _ _. apply kspec_bind, kspec_state.
  apply kspec_bind, kspec_need; [done|]. intros a Ha. apply kspec_bind, kspec_newID. intros p1 c1 E1 D1 _.
  apply kspec_bind, kspec_need.
  { intros Hh. destruct Hok as (_ & Hag & _). apply Hag in Ha. by destruct (agt_revisions a). }
  intros first _. apply kspec_bind, kspec_now. intros t c2 E2 D2.
  apply kspec_bind, kspec_update, kspec_bind, kspec_update, (record_spec _ _ _ _ _ _ _ _ c); [|done| |by intros _ []|by intros; apply kspec_ret].
  - cbn. by rewrite E2, E1.
  - cbn. apply tenant_put_revision, tenant_put_agent; [by destruct (agt_revisions a)|]. eapply tenant_ok_mono; [|by rewrite E2, E1]. lia.
Qed.

(** ** The transitions of a Session *)

Lemma kspec_put_session sid s c0 c (Q : unit -> Candidate -> Prop) :
  tenant_ok (drawn c0) (state_ c0) -> state_ c = state_ c0 -> (drawn c0 <= drawn c)%nat ->
  session_ok sid s -> (unique_ids -> session_grounded (drawn c) sid s /\ forall s0, sessions (state_ c) !! sid = Some s0 -> session_le s0 s) ->
  (forall c', tenant_ok (drawn c') (state_ c') -> idempotency (state_ c') = idempotency (state_ c) -> drawn c' = drawn c ->
     sessions (state_ c') = <[sid := s]> (sessions (state_ c)) -> Q tt c') ->
  kspec (update (put_session sid s)) c Q.
Proof.
  intros Hok E Hle Hs Hg HQ. apply kspec_update, HQ; [|done..]. cbn. apply tenant_put_session; [|done..].
  eapply tenant_ok_mono; [|by rewrite E]. lia.
Qed.

(** A Session with the Turns it had stays grounded. *)
Lemma session_grounded_same n n' st sid s s' :
  tenant_ok n st -> sessions st !! sid = Some s -> (n <= n')%nat -> trn_ID <$> turns s' = trn_ID <$> turns s ->
  unique_ids -> session_grounded n' sid s' /\ forall s0, sessions st !! sid = Some s0 -> session_le s0 s'.
Proof.
  intros (_ & _ & Hg) Hs Hle E Hu. destruct (Hg Hu) as [Hg1 _]. destruct (Hg1 _ _ Hs) as (H1 & H2 & H3). split.
  - split_and!; [by eapply drawn_id_mono|by rewrite E|]. intros t Ht.
    assert (Hi : trn_ID t ∈ trn_ID <$> turns s) by (rewrite <- E; by apply list_elem_of_fmap_2).
    apply list_elem_of_fmap in Hi as (t0 & -> & Ht0). eapply drawn_id_mono; [done|by apply H3].
  - intros s0 Hs0. assert (s0 = s) as -> by congruence. unfold session_le. by rewrite E.
Qed.

Lemma open_session_kept key digest agent revision c0 c :
  idempotency (state_ c) = idempotency (state_ c0) -> idempotency (state_ c0) !! key = None -> tenant_ok (drawn c) (state_ c) ->
  kspec (open_session kernel key digest agent revision) c (fun _ c' => kept c0 c').
Proof.
  intros Hid Hn Hok. unfold open_session. apply kspec_bind, kspec_newID. intros p c1 E1 D1 Hp.
  apply kspec_bind, kspec_now. intros t c2 E2 D2. apply kspec_bind, appendEvent_spec. intros e c3 E3 D3 He. cbn [events] in *.
  apply kspec_bind, (kspec_put_session _ _ c).
  - done.
  - congruence.
  - lia.
  - apply between_ok; [|by left; constructor|done]. split_and!; [done..|by intros t' []%elem_of_nil|]. apply consecutive_snoc in He; [exact He|by left].
  - intros Hu. split.
    + split_and!; [|constructor|by intros t' []%elem_of_nil]. exists (drawn c), p. split_and!; [lia|done..].
    + intros s0 Hs0. exfalso. rewrite E3, E2, E1 in Hs0. destruct Hok as (_ & _ & Hg). apply Hg in Hs0 as [Hd _]; [|done].
      by apply (fresh_id _ _ _ _ Hu Hp) in Hd.
  - intros c4 Hok4 Hid4 D4 _. eapply (record_spec _ _ _ _ _ _ _ _ c0); [congruence|done|done|by intros _ []|].
    intros c' Hk _. by apply kspec_ret.
Qed.

Lemma createSession_kept request digest c : tenant_ok (drawn c) (state_ c) -> kspec (createSession kernel request digest) c (fun _ c' => kept c c').
Proof.
  intros Hok. apply idempotently_spec; [intros r _ _; by apply kspec_ret|]. intros Hn. apply kspec_bind, kspec_state.
  apply kspec_bind, kspec_need; [done|]. intros revision _. by apply open_session_kept.
Qed.

Lemma createSessionFromRevision_kept request revision digest c :
  tenant_ok (drawn c) (state_ c) -> kspec (createSessionFromRevision kernel request revision digest) c (fun _ c' => kept c c').
Proof.
  intros Hok. apply idempotently_spec; [intros r _ _; by apply kspec_ret|]. intros Hn. apply kspec_bind, kspec_state, kspec_bind.
  destruct (revisions _ !! _) as [existing|].
  - apply kspec_bind, kspec_need; [done|]. intros d1 _. apply kspec_bind, kspec_need; [done|]. intros d2 _.
    apply kspec_guard; [done|]. intros _. by apply open_session_kept.
  - apply kspec_update, open_session_kept; [done..|]. by apply tenant_put_revision.
Qed.

Lemma turn_found s id : id ∈ trn_ID <$> turns s -> turnIndex s id <> None.
Proof.
  intros (t & -> & Ht)%list_elem_of_fmap H. apply find_index_None in H. rewrite Forall_forall in H. specialize (H t Ht). by apply bool_decide_eq_false in H.
Qed.

Lemma turn_recorded_session st sid s id : sessions st !! sid = Some s -> id ∈ trn_ID <$> turns s -> turn_recorded st sid id.
Proof. intros Hs (t' & E & Ht)%list_elem_of_fmap. by exists s, t'. Qed.

(** A queued or the running Turn ends. *)
Lemma end_turn_spec sid s i t t' kind ts c (Q : unit -> Candidate -> Prop) :
  tenant_ok (drawn c) (state_ c) -> sessions (state_ c) !! sid = Some s -> turns s !! i = Some t -> same_turn t t' ->
  (trn_State t = TurnRunning /\ is_terminal t' \/ trn_State t = TurnQueued /\ trn_State t' = TurnCancelled) ->
  (forall c', tenant_ok (drawn c') (state_ c') -> idempotency (state_ c') = idempotency (state_ c) -> turn_recorded (state_ c') sid (trn_ID t') -> Q tt c') ->
  kspec (end_turn kernel sid s i t' kind ts) c Q.
Proof.
  intros Hok Hs Hi Hsame Hcase HQ. unfold end_turn. pose proof (proj1 Hok _ _ Hs) as Hsok.
  assert (Hids : trn_ID <$> <[i := t']> (turns s) = trn_ID <$> turns s) by (eapply insert_same_ids; [exact Hi|apply Hsame]).
  apply kspec_bind, appendEvent_spec. intros e c1 E1 D1 He.
  apply kspec_bind, (advance_spec sid).
  - apply between_event; [|done]. eapply between_turn; [by apply ok_between|done..].
  - cbn. destruct Hsok as (_ & Ho & _). destruct Hcase as [[Ht Ht']|[Ht Ht']]; [right; by eapply running_end|left].
    destruct (waiting_cancelled _ _ _ _ Ho Hi Ht Ht') as (r & over & later & _ & H). split; [right|]; eauto.
  - cbn. destruct Hsok as (_ & Ho & Hf & _). destruct Hcase as [[Ht _]|[Ht Ht']]; [by eapply state_open_or_closing|].
    destruct (waiting_cancelled _ _ _ _ Ho Hi Ht Ht') as (r & over & later & (El & _ & Hr & _) & _).
    eapply (state_open_or_closing s (length over)); [done| |exact Hr]. by rewrite El, list_lookup_middle.
  - intros s2 c2 E2 D2 Hs2 Hids2. cbn in Hids2. rewrite Hids in Hids2.
    apply (kspec_put_session _ _ c); [done|congruence|lia| | |].
    + apply between_ok; [by apply between_touch, ok_between|apply Hs2..].
    + rewrite E2, E1. eapply session_grounded_same; [done..|lia|done].
    + intros c3 Hok3 Hid3 _ Hss3. apply HQ; [done|by rewrite Hid3, E2, E1|].
      eapply turn_recorded_session; [by rewrite Hss3, lookup_insert_eq|]. cbn. rewrite Hids2.
      destruct Hsame as [-> _]. apply list_elem_of_fmap_2. by eapply list_elem_of_lookup_2.
Qed.

Lemma completeTurn_kept sid turnID failure c : tenant_ok (drawn c) (state_ c) -> kspec (completeTurn kernel sid turnID failure) c (fun _ c' => kept c c').
Proof.
  intros Hok. apply kspec_bind, kspec_state, kspec_bind, kspec_need; [done|]. intros s Hs.
  apply kspec_bind, kspec_need; [done|]. intros [i t] Hi. apply find_index_lookup in Hi.
  destruct (terminal (trn_State t)) eqn:Hterm.
  { apply kspec_bind, kspec_guard; [done|]. intros _. by apply kspec_ret. }
  apply kspec_bind, kspec_guard; [done|]. intros Hrun%bool_decide_eq_true. apply kspec_bind, kspec_now. intros ts c1 E1 D1.
  destruct (match failure with None => _ | Some _ => _ end) as [outcome kind] eqn:Ho.
  apply kspec_bind. eapply end_turn_spec; [by rewrite E1, D1|by rewrite E1|exact Hi|done|left; split; [done|]|].
  - unfold is_terminal. destruct failure; by simplify_eq.
  - intros c2 Hok2 Hid2 _. apply kspec_ret. split; [done|]. by rewrite Hid2, E1.
Qed.

Lemma find_turn_in_Some l m id sid s found : find_turn_in l m id = Some (sid, s, found) -> s = default noSessionRecord (m !! sid) /\ turnIndex s id = Some found.
Proof.
  induction l as [|x l IH]; simpl; [done|]. destruct (turnIndex (default noSessionRecord (m !! x)) id) eqn:Ht; [|exact IH]. intros [= <- <- <-]. done.
Qed.

Lemma findTurn_Some st id sid s i t : findTurn st id = Some (sid, s, (i, t)) -> sessions st !! sid = Some s /\ turns s !! i = Some t /\ trn_ID t = id.
Proof.
  intros (-> & Hi)%find_turn_in_Some. destruct (sessions st !! sid) as [s|]; [|done]. simpl in *.
  split_and!; [done|by eapply find_index_lookup|]. apply find_index_Some in Hi as (_ & Hi & _). by apply bool_decide_eq_true in Hi.
Qed.

Lemma replay_turn_found c key r : tenant_ok (drawn c) (state_ c) -> unique_ids -> idempotency (state_ c) !! key = Some r ->
  idm_command r = "send_input" \/ idm_command r = "cancel_turn" -> turnIndex (default noSessionRecord (sessions (state_ c) !! idm_session r)) (idm_turn r) <> None.
Proof.
  intros (_ & _ & Hg) Hu Hr Hc. destruct (Hg Hu) as [_ Hg2]. destruct (Hg2 _ _ Hr Hc) as (s & t & Hs & Ht & <-).
  rewrite Hs. by apply turn_found, list_elem_of_fmap_2.
Qed.

Lemma cancelTurn_kept request digest c : tenant_ok (drawn c) (state_ c) -> kspec (cancelTurn kernel request digest) c (fun _ c' => kept c c').
Proof.
  intros Hok. apply idempotently_spec.
  { intros r Hr Hc. apply kspec_bind, kspec_need; [|intros found _; by apply kspec_ret].
    intros Hnone Hu. exfalso. eapply replay_turn_found; [done|done|exact Hr|by right|done]. }
  intros Hn. apply kspec_bind, kspec_state, kspec_bind, kspec_need; [done|]. intros [[sid s] [i t]] Hf.
  apply findTurn_Some in Hf as (Hs & Hi & Hid).
  apply kspec_bind, kspec_guard; [done|]. intros _. apply kspec_bind, kspec_guard; [done|]. intros Hterm%negb_true_iff.
  apply kspec_bind, kspec_now. intros ts c1 E1 D1.
  apply kspec_bind. eapply end_turn_spec; [by rewrite E1, D1|by rewrite E1|exact Hi|done| |].
  - cbn. assert (Hst : trn_State t = TurnRunning \/ trn_State t = TurnQueued).
    { destruct Hok as (Hok & _). apply Hok in Hs as (_ & [Ho|(r & over & later & El & Ho & Hr & Hl)] & _).
      - rewrite Forall_lookup in Ho. apply Ho in Hi. unfold is_terminal in Hi. congruence.
      - apply list_elem_of_lookup_2 in Hi. rewrite El in Hi. apply elem_of_app in Hi as [Hi|[->|Hi]%elem_of_cons]; [| by left|].
        + rewrite Forall_forall in Ho. apply Ho in Hi. unfold is_terminal in Hi. congruence.
        + rewrite Forall_forall in Hl. destruct (Hl _ Hi) as [H|H]; [by right|]. by rewrite H in Hterm. }
    destruct Hst as [Hst|Hst]; [left|right]; by split.
  - cbn. intros c2 Hok2 Hid2 Hrec. eapply (record_spec _ _ _ _ _ _ _ _ c); [by rewrite Hid2, E1|done|done| |by intros; apply kspec_ret].
    intros _ _. by rewrite <- Hid.
Qed.

(** A new Turn waits behind the others, or runs if none does. *)
Lemma enqueue_running l t : ordered l -> trn_State t = TurnQueued -> find_index (fun t => trn_State t ≟ TurnRunning) (l ++ [t]) <> None ->
  exists r over later, running_at (l ++ [t]) r over later.
Proof.
  intros [H|(r & over & later & -> & Ho & Hr & Hl)] Ht Hn.
  - destruct Hn. apply find_index_None, Forall_app. split; [by apply find_index_None, terminal_inactive|].
    constructor; [|done]. by rewrite Ht.
  - exists r, over, (later ++ [t]). split_and!; [by rewrite <- (assoc_L (++))|done..|]. apply Forall_app. split; [done|]. constructor; [by left|done].
Qed.

Lemma enqueue_first l t ts : ordered l -> find_index (fun t => trn_State t ≟ TurnRunning) (l ++ [t]) = None ->
  running_at (<[(length (l ++ [t]) - 1)%nat := started ts t]> (l ++ [t])) (started ts t) l [].
Proof.
  intros Ho Hn. split_and!; [|apply inactive_terminal; [done|]|done|done].
  - rewrite length_app. simpl. replace (length l + 1 - 1)%nat with (length l + 0)%nat by lia. by rewrite insert_app_r.
  - apply find_index_None. apply find_index_None, Forall_app in Hn. by destruct Hn.
Qed.

Lemma between_enqueue sid s input t : session_between sid s -> trn_InputID t = ipt_ID input -> trn_Position t = u64 (Z.of_nat (length (turns s)) + 1) ->
  session_between sid (set_turns (turns s ++ [t]) (add_input input s)).
Proof.
  intros (H1 & H2 & H3 & H4) Hin Hpos. split_and!; [done| | |done]; cbn.
  - intros i x Hx. apply lookup_app_Some in Hx as [Hx|[Hge Hx]]; [by apply H2|].
    apply list_lookup_singleton_Some in Hx as [Hz <-]. rewrite Hpos. do 2 f_equal. lia.
  - intros x [Hx|Hx%list_elem_of_singleton]%elem_of_app.
    + destruct (H3 x Hx) as (i & Hi & Ei). destruct (decide (ipt_ID input = trn_InputID x)) as [E|Hne].
      * rewrite E, lookup_insert_eq. eauto.
      * rewrite lookup_insert_ne by done. eauto.
    + subst x. rewrite Hin, lookup_insert_eq. eauto.
Qed.

Lemma session_grounded_enqueue m n st sid s s' p :
  tenant_ok m st -> sessions st !! sid = Some s -> (m < n)%nat -> ids kernel m = Some p ->
  trn_ID <$> turns s' = (trn_ID <$> turns s) ++ [turnPrefix +:+ p] ->
  unique_ids -> session_grounded n sid s' /\ forall s0, sessions st !! sid = Some s0 -> session_le s0 s'.
Proof.
  intros (_ & _ & Hg) Hs Hle Hp E Hu. destruct (Hg Hu) as [Hg1 _]. destruct (Hg1 _ _ Hs) as (H1 & H2 & H3). split.
  - split_and!; [eapply drawn_id_mono; [|done]; lia| |].
    + rewrite E. apply NoDup_app. split_and!; [done| |apply NoDup_singleton].
      intros x (t & -> & Ht)%list_elem_of_fmap Hx%list_elem_of_singleton. by apply (fresh_id _ _ _ _ Hu Hp) in Hx; [|apply H3].
    + intros t Ht. apply (list_elem_of_fmap_2 trn_ID) in Ht. rewrite E in Ht.
      apply elem_of_app in Ht as [(t0 & -> & Ht0)%list_elem_of_fmap| ->%list_elem_of_singleton].
      * eapply drawn_id_mono; [|by apply H3]. lia.
      * by exists m, p.
  - intros s0 Hs0. assert (s0 = s) as -> by congruence. unfold session_le. rewrite E. by apply prefix_app_r.
Qed.

Lemma validatePart_no_panic part : validatePart part <> Err Panic.
Proof. unfold validatePart. by repeat case_match. Qed.

Lemma validateInput_no_panic request : validateInput request <> Err Panic.
Proof.
  unfold validateInput. destruct (ParseSessionID _); [|done]. destruct (_ || _); [done|].
  induction (sni_Parts request) as [|part l IH]; simpl; [done|]. destruct (validatePart part) eqn:Hv; [done|]. rewrite <- Hv. apply validatePart_no_panic.
Qed.

Lemma sendInput_kept request digest c : tenant_ok (drawn c) (state_ c) -> kspec (sendInput kernel request digest) c (fun _ c' => kept c c').
Proof.
  intros Hok. apply idempotently_spec.
  { intros r Hr Hc. apply kspec_bind, kspec_need; [|intros found _; by apply kspec_ret].
    intros Hnone Hu. exfalso. eapply replay_turn_found; [done|done|exact Hr|by left|done]. }
  intros Hn. apply kspec_bind, kspec_lift; [apply validateInput_no_panic|]. intros _ _.
  apply kspec_bind, kspec_state, kspec_bind, kspec_need; [done|]. intros s Hs. set (sid := sni_SessionID request) in *.
  apply kspec_bind, kspec_guard; [done|]. intros Hopen%bool_decide_eq_true.
  apply kspec_bind, kspec_newID. intros p1 c1 E1 D1 _. apply kspec_bind, kspec_newID. intros p2 c2 E2 D2 Hp2.
  apply kspec_bind, kspec_now. intros ts c3 E3 D3. set (t := mkPublicTurn _ _ _ TurnQueued _ _ _ _ _).
  pose proof (proj1 Hok _ _ Hs) as Hsok. pose proof (proj1 (proj2 Hsok)) as Ho.
  apply kspec_bind, appendEvent_spec. intros e c4 E4 D4 He.
  match type of He with _ = nextEventSequence ?x => set (s1 := x) in * end.
  assert (Hb1 : session_between sid (set_events (events s1 ++ [e]) s1)) by (apply between_event; [by apply between_enqueue; [apply ok_between|..]|done]).
  apply kspec_bind. eapply (kspec_mono _ _ (fun s2 c5 => state_ c5 = state_ c /\ session_ok sid (touch ts s2) /\ trn_ID <$> turns s2 = trn_ID <$> turns s1)).
  - destruct (activeTurnIndex (set_events (events s1 ++ [e]) s1)) eqn:Hact.
    + apply appendEvent_spec. intros e' c5 E5 D5 He'. split_and!; [congruence| |done].
      apply between_ok; [by apply between_touch, between_event| |by cbn; rewrite Hopen].
      right. apply (enqueue_running _ t); [done..|]. unfold activeTurnIndex in Hact. cbn in Hact. by rewrite Hact.
    + apply appendEvent_spec. intros e' c5 E5 D5 He'. split_and!; [congruence| |].
      * apply between_ok; [apply between_touch, between_event; [eapply (between_turn _ _ _ t)|]; [done| |done|done]| |by cbn; rewrite Hopen].
        -- cbn. rewrite length_app. simpl. replace (length (turns s) + 1 - 1)%nat with (length (turns s)) by lia. by rewrite list_lookup_middle.
        -- right. do 3 eexists. by apply (enqueue_first (turns s) t).
      * cbn. apply (insert_same_ids _ _ t); [|done]. rewrite length_app. simpl.
        replace (length (turns s) + 1 - 1)%nat with (length (turns s)) by lia. by rewrite list_lookup_middle.
  - intros s2 c5 D5 (E5 & Hok2 & Hids2).
    assert (Hidt : trn_ID <$> turns s2 = (trn_ID <$> turns s) ++ [turnPrefix +:+ p2]) by (rewrite Hids2; cbn; by rewrite fmap_app).
    assert (Hin : turnPrefix +:+ p2 ∈ trn_ID <$> turns s2) by (rewrite Hidt; apply elem_of_app; right; by apply list_elem_of_singleton).
    apply kspec_bind, (kspec_put_session _ _ c); [done..|lia|done| |].
    + rewrite E5. eapply (session_grounded_enqueue (drawn c1)); [eapply tenant_ok_mono; [|done]; lia|done| |exact Hp2|done]. lia.
    + intros c6 Hok6 Hid6 D6 Hss6. eapply (record_spec _ _ _ _ _ _ _ _ c); [congruence|done|done| |].
      * intros _ _. eapply turn_recorded_session; [by rewrite Hss6, lookup_insert_eq|]. exact Hin.
      * intros c7 Hk7 _. apply kspec_bind, kspec_need; [|intros found _; by apply kspec_ret]. intros Hnone. by apply turn_found in Hnone.
Qed.

Lemma closeSession_kept request digest c : tenant_ok (drawn c) (state_ c) -> kspec (closeSession kernel request digest) c (fun _ c' => kept c c').
Proof.
  intros Hok. apply idempotently_spec; [intros r _ _; by apply kspec_ret|]. intros Hn.
  apply kspec_bind, kspec_state, kspec_bind, kspec_need; [done|]. intros s Hs. set (sid := cls_SessionID request) in *.
  apply kspec_bind, kspec_guard; [done|]. intros _. apply kspec_bind, kspec_now. intros ts c1 E1 D1.
  pose proof (proj1 Hok _ _ Hs) as Hsok. pose proof (proj1 (proj2 Hsok)) as Ho. apply ok_between in Hsok as Hb.
  apply kspec_bind, appendEvent_spec. intros e c2 E2 D2 He. match type of He with _ = nextEventSequence ?x => set (s1 := x) in * end.
  assert (Hb1 : session_between sid (set_events (events s1 ++ [e]) s1)) by (by apply between_event).
  apply kspec_bind. eapply (kspec_mono _ _ (fun s2 c3 => state_ c3 = state_ c /\ session_ok sid s2 /\ trn_ID <$> turns s2 = trn_ID <$> turns s)).
  - destruct (activeTurnIndex (set_events (events s1 ++ [e]) s1)) as [[i t]|] eqn:Hact; unfold activeTurnIndex in Hact; cbn in Hact.
    + apply kspec_ret. split_and!; [congruence| |done]. apply between_ok; [done..|]. destruct Ho as [Ho|Ho]; [|done].
      by rewrite terminal_inactive in Hact.
    + apply appendEvent_spec. intros e' c3 E3 D3 He'. split_and!; [congruence| |done]. apply inactive_terminal in Hact; [|done].
      apply between_ok; [apply between_event; [exact Hb1|done]|by left|done].
  - intros s2 c3 D3 (E3 & Hok2 & Hids2). apply kspec_bind, (kspec_put_session _ _ c); [done..|lia|done| |].
    + rewrite E3. eapply session_grounded_same; [done..|lia|done].
    + intros c4 Hok4 Hid4 D4 _. eapply (record_spec _ _ _ _ _ _ _ _ c); [congruence|done|done|by intros _ []|by intros; apply kspec_ret].
Qed.


Lemma cancelSession_kept request digest c : tenant_ok (drawn c) (state_ c) -> kspec (cancelSession kernel request digest) c (fun _ c' => kept c c').
Proof.
  intros Hok. apply idempotently_spec; [intros r _ _; by apply kspec_ret|]. intros Hn.
  apply kspec_bind, kspec_state, kspec_bind, kspec_need; [done|]. intros s Hs. set (sid := cns_SessionID request) in *.
  apply kspec_bind, kspec_guard; [done|]. intros Hg. apply kspec_bind, kspec_now. intros ts c1 E1 D1.
  pose proof (proj1 Hok _ _ Hs) as Hsok. pose proof (proj1 (proj2 Hsok)) as Ho. apply ok_between in Hsok as Hb.
  assert (Hall : Forall is_terminal (turns s)).
  { apply negb_true_iff, orb_false_iff in Hg as [[_ Hg]%orb_false_iff _]. apply bool_decide_eq_false in Hg.
    apply inactive_terminal; [done|]. by apply eq_None_not_Some. }
  apply kspec_bind, appendEvent_spec. intros e c2 E2 D2 He.
  apply kspec_bind, (kspec_put_session _ _ c); [done|congruence|lia| | |].
  - apply between_ok; [by apply between_event|by left|done].
  - rewrite E2, E1. eapply session_grounded_same; [done..|lia|done].
  - intros c3 Hok3 Hid3 D3 _. eapply (record_spec _ _ _ _ _ _ _ _ c); [congruence|done|done|by intros _ []|by intros; apply kspec_ret].
Qed.

Lemma consecutive_drop l k : consecutive l -> (k < length l)%nat -> consecutive (drop k l).
Proof.
  intros [_ H] Hk. split.
  - intros E. apply (f_equal length) in E. rewrite length_drop in E. simpl in E. lia.
  - intros i e e'. rewrite !lookup_drop, Nat.add_succ_r. apply H.
Qed.

Lemma compactEvents_kept sid keep c : 1 <= keep -> tenant_ok (drawn c) (state_ c) -> kspec (compactEvents sid keep) c (fun _ c' => kept c c').
Proof.
  intros Hkeep Hok. apply kspec_bind, kspec_state, kspec_bind, kspec_need; [done|]. intros s Hs.
  case_match eqn:Hle; [by apply kspec_ret|]. pose proof (proj1 Hok _ _ Hs) as (H1 & H2 & H3 & H4 & H5 & H6).
  apply (kspec_put_session _ _ c); [done..| | |].
  - split_and!; [done..|]. apply consecutive_drop; [done|]. lia.
  - by eapply session_grounded_same.
  - intros c1 Hok1 Hid1 _ _. split; [done|]. by rewrite Hid1.
Qed.

End facts.
