(* ===== verification/KernelTheorems.v ===== *)
(** * The conversation kernel: theorems

    What holds of every repository that calls can lead to, whatever their outcome:
    its Sessions are in order, no call panics, a mutation happens once under its
    idempotency key, and a Session drains.  The operations are taken apart into their
    checks and their transition ([perform_keyed]); what a transition keeps is
    KernelFacts. *)

From stdpp Require Import gmap.
From Stdlib Require Import Ascii String.
From S2P Require Import Prelude GoString GoTime GoJson Sdk SdkTypes Keys ToolSchema Kernel KernelFacts.

Open Scope Z_scope.

Section repository.
Context (kernel : Kernel).

(** ** The repository *)

Definition repository_ok (w : MemoryRepository) : Prop :=
  forall scope st, states w !! scope = Some st -> tenant_ok kernel (drawn_ids w) st.

(** Records of mutations stay. *)
Definition records_le (w w' : MemoryRepository) : Prop :=
  forall scope, idempotency (tenant w scope) ⊆ idempotency (tenant w' scope).

#[local] Instance records_le_preorder : PreOrder records_le.
Proof. split; [by intros w scope|]. intros w1 w2 w3 H1 H2 scope. exact (transitivity (H1 scope) (H2 scope)). Qed.

Lemma empty_tenant_ok n : tenant_ok kernel n newTenantState.
Proof. by split_and!. Qed.

Lemma tenant_of_ok w scope : repository_ok w -> tenant_ok kernel (drawn_ids w) (tenant w scope).
Proof. intros H. unfold tenant. destruct (states w !! scope) eqn:Hs; [by eapply H|apply empty_tenant_ok]. Qed.

(** An operation keeps the invariant and the records, and does not panic. *)
Definition safe {A} (m : W A) (w : MemoryRepository) : Prop :=
  repository_ok w -> repository_ok (m w).2 /\ records_le w (m w).2 /\ (unique_ids kernel -> (m w).1 <> Err Panic).

Lemma safe_ret {A} (a : A) w : safe (mret a) w.
Proof. done. Qed.

Lemma safe_fail {A} e w : e <> Panic -> safe (fail e : W A) w.
Proof. intros He Hok. split_and!; [done..|]. intros _ [=]. done. Qed.

Lemma safe_bind {A B} (m : W A) (f : A -> W B) w : safe m w -> (forall a w', safe (f a) w') -> safe (m ≫= f) w.
Proof.
  intros Hm Hf Hok. destruct (Hm Hok) as (H1 & H2 & H3). unfold mbind, M_bind. destruct (m w) as [[a|e] w']; simpl in *.
  - destruct (Hf a w' H1) as (H4 & H5 & H6). split_and!; [done|by etrans|done].
  - split_and!; [done..|]. intros Hu [= ->]. by apply H3.
Qed.

Lemma safe_guard e b w : e <> Panic -> safe (guard_or e b) w.
Proof. intros He. destruct b; [apply safe_ret|by apply safe_fail]. Qed.

Lemma safe_bind_guard {A} e b (m : W A) w : e <> Panic -> (b = true -> safe m w) -> safe (guard_or e b;; m) w.
Proof. intros He Hm. destruct b; [by apply Hm|by apply safe_fail]. Qed.

Lemma safe_digested operation v w : safe (digested operation v) w.
Proof. unfold digested. destruct (canonicalDigest v); [apply safe_ret|by apply safe_fail]. Qed.

Lemma safe_scope ctx scope w : safe (validateScopeAndContext ctx scope) w.
Proof. apply safe_bind; [by apply safe_guard|]. intros _ w'. by apply safe_guard. Qed.

Lemma safe_transact {A} ctx scope (change : K A) w :
  (forall c, tenant_ok kernel (drawn c) (state_ c) -> kspec kernel change c (fun _ c' => kept kernel c c')) -> safe (Transact ctx scope change) w.
Proof.
  intros Hc Hok. unfold Transact. destruct (live_begin ctx); [|by split_and!]. cbn [negb].
  specialize (Hc (mkCandidate (tenant w scope) (drawn_ids w) (clock_ticks w)) (tenant_of_ok _ _ Hok)). unfold kspec in Hc.
  destruct (change _) as [[a|e] c'].
  - destruct Hc as (Hle & Hok' & Hid). simpl in Hle, Hid. destruct (live_commit ctx); split_and!; [| |done| |by intros scope'|done].
    + intros scope' st Hs. cbn in Hs. apply lookup_insert_Some in Hs as [[<- <-]|[_ Hs]]; [done|]. eapply tenant_ok_mono; [exact Hle|]. by eapply Hok.
    + intros scope'. unfold tenant at 2. cbn. destruct (decide (scope = scope')) as [<-|Hne].
      * by rewrite lookup_insert_eq.
      * by rewrite lookup_insert_ne.
    + intros scope' st Hs. eapply tenant_ok_mono; [exact Hle|]. by eapply Hok.
  - destruct Hc as (Hle & He). split_and!; [|by intros scope'|].
    + intros scope' st Hs. eapply tenant_ok_mono; [exact Hle|]. by eapply Hok.
    + intros Hu [= ->]. by apply He.
Qed.

Lemma perform_safe ctx scope call w : safe (perform kernel ctx scope call) w.
Proof.
  assert (Hd : forall A (m : W A), safe m w -> safe (discard m) w) by (intros A m H; apply safe_bind; [done|intros; apply safe_ret]).
  destruct call; apply Hd; (apply safe_bind; [apply safe_scope|intros _ w1]);
    repeat first [apply safe_bind_guard; [done|let H := fresh "Hg" in intros H] | apply safe_bind; [apply safe_digested|intros ? ?]].
  - apply safe_transact, createAgent_kept.
  - apply safe_transact, reviseAgent_kept.
  - apply safe_transact, createSession_kept.
  - apply safe_transact, createSessionFromRevision_kept.
  - apply safe_transact, sendInput_kept.
  - apply safe_bind; [|intros _ w2; apply safe_transact, completeTurn_kept].
    unfold validateFailure. destruct failure as [f|]; [|apply safe_ret]. destruct (_ || _); [by apply safe_fail|].
    destruct (forallb _ _); [apply safe_ret|by apply safe_fail].
  - apply safe_transact, cancelTurn_kept.
  - apply safe_transact, closeSession_kept.
  - apply safe_transact, cancelSession_kept.
  - apply safe_transact. intros c. apply compactEvents_kept. apply negb_true_iff, Z.ltb_ge in Hg. lia.
Qed.

Lemma calls_ok w w' : rtc (kernel_step kernel) w w' -> repository_ok w -> repository_ok w' /\ records_le w w'.
Proof.
  induction 1 as [w|w w1 w2 (ctx & scope & call & ->) _ IH]; intros Hok; [done|].
  destruct (perform_safe ctx scope call w Hok) as (H1 & H2 & _). destruct (IH H1) as [H3 H4]. split; [done|by etrans].
Qed.

Lemma reachable_ok w : reachable kernel w -> repository_ok w.
Proof. intros H. apply calls_ok in H as [H _]; [done|]. intros scope st Hs. cbn in Hs. by rewrite lookup_empty in Hs. Qed.

(** ** Keyed mutations *)

Definition key_of (call : Call) : option string :=
  match call with
  | call_CreateAgent r => Some (rca_IdempotencyKey r)
  | call_ReviseAgent r => Some (rva_IdempotencyKey r)
  | call_CreateSession r | call_CreateSessionFromRevision r _ => Some (crs_IdempotencyKey r)
  | call_SendInput r => Some (sni_IdempotencyKey r)
  | call_CancelTurn r => Some (cnt_IdempotencyKey r)
  | call_CloseSession r => Some (cls_IdempotencyKey r)
  | call_CancelSession r => Some (cns_IdempotencyKey r)
  | call_CompleteTurn _ _ _ | call_CompactEvents _ _ => None
  end.

Definition command_of (call : Call) : string :=
  match call with
  | call_CreateAgent _ => "create_agent"
  | call_ReviseAgent _ => "revise_agent"
  | call_CreateSession _ | call_CreateSessionFromRevision _ _ => "create_session"
  | call_SendInput _ => "send_input"
  | call_CancelTurn _ => "cancel_turn"
  | call_CloseSession _ => "close_session"
  | call_CancelSession _ => "cancel_session"
  | call_CompleteTurn _ _ _ | call_CompactEvents _ _ => ""
  end.

(** What a call's digest is taken of. *)
Definition content_of (call : Call) : jval :=
  match call with
  | call_CreateAgent r => json_create_agent r
  | call_ReviseAgent r => json_revise_agent r
  | call_CreateSession r | call_CreateSessionFromRevision r _ => json_create_session r
  | call_SendInput r => json_send_input r
  | call_CancelTurn r => json_cancel_turn r
  | call_CloseSession r => marshalID (cls_SessionID r) sessionPrefix
  | call_CancelSession r => marshalID (cns_SessionID r) sessionPrefix
  | call_CompleteTurn _ _ _ | call_CompactEvents _ _ => JNull
  end.

Definition recorded (st : TenantState) (key command digest : string) : Prop :=
  exists r, idempotency st !! key = Some r /\ idm_command r = command /\ idm_digest r = digest.

(** A transition under an idempotency key: it leaves a record; with its own record it
    is replayed, with another one it is refused, and neither changes anything. *)
Record keyed {A} (key command digest : string) (change : K A) : Prop := mkKeyed {
  keyed_records : forall c, wp change c (fun _ c' => recorded (state_ c') key command digest);
  keyed_replays : forall c, unique_ids kernel -> tenant_ok kernel (drawn c) (state_ c) -> recorded (state_ c) key command digest ->
    exists a, change c = (Ok a, c);
  keyed_conflicts : forall c command' digest', recorded (state_ c) key command' digest' -> command' <> command \/ digest' <> digest ->
    exists e, change c = (Err e, c)
}.

Lemma keyed_idempotently {A} key command digest replay (mutation : K A) :
  (forall c, wp mutation c (fun _ c' => recorded (state_ c') key command digest)) ->
  (forall c r, unique_ids kernel -> tenant_ok kernel (drawn c) (state_ c) -> idempotency (state_ c) !! key = Some r -> idm_command r = command ->
     exists a, replay (state_ c) r c = (Ok a, c)) ->
  (forall st r c, wp (replay st r) c (fun _ c' => c' = c)) ->
  keyed key command digest (idempotently key command digest replay mutation).
Proof.
  intros Hm Hr Hk. unfold idempotently. split.
  - intros c. apply wp_bind. intros st c1 [= <- <-]. destruct (idempotency (state_ c) !! key) as [r|] eqn:Hl.
    + apply wp_bind, wp_guard. intros [H1 H2]%negb_true_iff%orb_false_iff. apply negb_false_iff, bool_decide_eq_true in H1, H2.
      eapply wp_mono; [apply Hk|]. intros a c' ->. by exists r.
    + apply wp_bind. intros ? c1 [= _ <-]. apply Hm.
  - intros c Hu Hok (r & Hl & Hc & Hd). unfold mbind, M_bind, state. rewrite Hl, Hc, Hd, !bool_decide_eq_true_2 by done. by apply Hr.
  - intros c command' digest' (r & Hl & <- & <-) Hne. unfold mbind, M_bind, state. rewrite Hl.
    replace ((idm_command r ≠? command) || (idm_digest r ≠? digest)) with true; [by eexists|].
    symmetry. apply orb_true_iff. destruct Hne; [left|right]; by apply negb_true_iff, bool_decide_eq_false.
Qed.

Lemma wp_any {A B} (m : K A) (f : A -> K B) c Q : (forall a c', wp (f a) c' Q) -> wp (m ≫= f) c Q.
Proof. intros H. apply wp_bind. intros a c' _. apply H. Qed.

Lemma wp_recorded {A} key command digest agent revision sid input turn (rest : K A) c :
  (forall c, wp rest c (fun _ c' => c' = c)) ->
  wp (record_mutation key command digest agent revision sid input turn;; rest) c (fun _ c' => recorded (state_ c') key command digest).
Proof.
  intros Hr. apply wp_bind. intros [] c1 [= E]. subst c1. eapply wp_mono; [apply Hr|]. intros _ c' ->.
  exists (mkIdempotency command digest agent revision sid input turn). split; [|done]. apply lookup_insert_eq.
Qed.

Lemma wp_found {A B} e (o : option A) (f : A -> B) c : wp (found ← need e o; mret (f found) : K B) c (fun _ c' => c' = c).
Proof. apply wp_bind. intros a c1 H. destruct o; [|done]. injection H as _ <-. by apply wp_ret. Qed.

End repository.

Ltac records := repeat (first [apply wp_recorded; intros; first [by apply wp_ret | apply wp_found] | apply wp_any; intros]).

Section keyed_transitions.
Context (kernel : Kernel).

Lemma createAgent_keyed request digest : keyed kernel (rca_IdempotencyKey request) "create_agent" digest (createAgent kernel request digest).
Proof. apply keyed_idempotently; [intros; records|by eexists|intros; by apply wp_ret]. Qed.

Lemma reviseAgent_keyed request digest : keyed kernel (rva_IdempotencyKey request) "revise_agent" digest (reviseAgent kernel request digest).
Proof. apply keyed_idempotently; [intros; records|by eexists|intros; by apply wp_ret]. Qed.

Lemma createSession_keyed request digest : keyed kernel (crs_IdempotencyKey request) "create_session" digest (createSession kernel request digest).
Proof. apply keyed_idempotently; [intros; unfold open_session; records|by eexists|intros; by apply wp_ret]. Qed.

Lemma createSessionFromRevision_keyed request revision digest :
  keyed kernel (crs_IdempotencyKey request) "create_session" digest (createSessionFromRevision kernel request revision digest).
Proof. apply keyed_idempotently; [intros; unfold open_session; records|by eexists|intros; by apply wp_ret]. Qed.

Lemma sendInput_keyed request digest : keyed kernel (sni_IdempotencyKey request) "send_input" digest (sendInput kernel request digest).
Proof.
  apply keyed_idempotently; [intros; records| |intros; apply wp_found].
  intros c r Hu Hok Hr Hc. pose proof (replay_turn_found _ _ _ _ Hok Hu Hr (or_introl Hc)) as Hf.
  unfold resultFor. destruct (turnIndex _ _) as [found|]; [by eexists|done].
Qed.

Lemma cancelTurn_keyed request digest : keyed kernel (cnt_IdempotencyKey request) "cancel_turn" digest (cancelTurn kernel request digest).
Proof.
  apply keyed_idempotently; [intros| |intros; apply wp_found].
  - apply wp_any. intros st c1. apply wp_any. intros [[sid s] [i t]] c2. records.
  - intros c r Hu Hok Hr Hc. pose proof (replay_turn_found _ _ _ _ Hok Hu Hr (or_intror Hc)) as Hf.
    unfold replay_turn. destruct (turnIndex _ _) as [found|]; [by eexists|done].
Qed.

Lemma closeSession_keyed request digest : keyed kernel (cls_IdempotencyKey request) "close_session" digest (closeSession kernel request digest).
Proof. apply keyed_idempotently; [intros; records|by eexists|intros; by apply wp_ret]. Qed.

Lemma cancelSession_keyed request digest : keyed kernel (cns_IdempotencyKey request) "cancel_session" digest (cancelSession kernel request digest).
Proof. apply keyed_idempotently; [intros; records|by eexists|intros; by apply wp_ret]. Qed.

(** ** A keyed call is its checks, its digest and its transition *)

Section form.
Context {A : Type} (ctx : Ctx) (scope : string) (change : string -> K A).

(** The rest of an operation: either its checks give a digest, or they fail. *)
Definition checks (body : W A) (pre : res KernelError string) : Prop :=
  forall w, body w = match pre with Ok digest => Transact ctx scope (change digest) w | Err e => (Err e, w) end.

Lemma checks_digested operation v :
  checks (digest ← digested operation v; Transact ctx scope (change digest)) (match canonicalDigest v with Some d => Ok d | None => Err (internalFailure operation) end).
Proof. intros w. unfold digested, mbind, M_bind. by destruct (canonicalDigest v). Qed.

Lemma checks_guard e b body pre : checks body pre -> checks (guard_or e b;; body) (if b then pre else Err e).
Proof. intros H w. destruct b; [apply H|done]. Qed.

Definition keyed_form (pre : res KernelError string) : W unit :=
  validateScopeAndContext ctx scope;;
  match pre with Ok digest => discard (Transact ctx scope (change digest)) | Err e => fail e end.

Lemma keyed_form_intro body pre w : checks body pre -> discard (validateScopeAndContext ctx scope;; body) w = keyed_form pre w.
Proof.
  intros H. unfold keyed_form, discard, mbind, M_bind. destruct (validateScopeAndContext ctx scope w) as [[[]|e] w']; [|done].
  rewrite H. by destruct pre.
Qed.
End form.

Ltac keyed_call lemma :=
  do 3 eexists; split_and!;
  [ |intros ?; apply lemma|intros ? ? ?; apply keyed_form_intro; repeat first [apply checks_guard | apply checks_digested]];
  intros ?; by repeat case_match; intros [= <-].

Lemma perform_keyed call key : key_of call = Some key ->
  exists A pre (change : string -> K A),
    (forall digest, pre = Ok digest -> canonicalDigest (content_of call) = Some digest) /\
    (forall digest, keyed kernel key (command_of call) digest (change digest)) /\
    forall ctx scope w, perform kernel ctx scope call w = keyed_form ctx scope change pre w.
Proof.
  intros Hk. destruct call; try discriminate Hk; injection Hk as <-.
  - keyed_call createAgent_keyed.
  - keyed_call reviseAgent_keyed.
  - keyed_call createSession_keyed.
  - keyed_call createSessionFromRevision_keyed.
  - keyed_call sendInput_keyed.
  - keyed_call cancelTurn_keyed.
  - keyed_call closeSession_keyed.
  - keyed_call cancelSession_keyed.
Qed.

Definition live (ctx : Ctx) : Prop := live_entry ctx = true /\ live_begin ctx = true /\ live_commit ctx = true.

Lemma validate_scope ctx scope w : validateScopeAndContext ctx scope w = (Ok tt, w) /\ live_entry ctx = true /\ ParseScope scope = true \/
  exists e, validateScopeAndContext ctx scope w = (Err e, w).
Proof.
  unfold validateScopeAndContext. destruct (live_entry ctx); [|right; by eexists]. destruct (ParseScope scope) eqn:Hp; [by left|right; by eexists].
Qed.

Lemma recorded_present w scope key command digest : recorded (tenant w scope) key command digest -> states w !! scope = Some (tenant w scope).
Proof. intros (r & Hr & _). unfold tenant in *. destruct (states w !! scope); [done|]. simpl in Hr. by rewrite lookup_empty in Hr. Qed.

(** Nothing changes if the transition changes nothing. *)
Lemma transact_same {A} ctx scope (change : K A) w r :
  states w !! scope = Some (tenant w scope) ->
  change (mkCandidate (tenant w scope) (drawn_ids w) (clock_ticks w)) = (r, mkCandidate (tenant w scope) (drawn_ids w) (clock_ticks w)) ->
  (Transact ctx scope change w).2 = w /\ (live_begin ctx = true -> live_commit ctx = true -> (Transact ctx scope change w).1 = r) /\
  (forall a, (Transact ctx scope change w).1 = Ok a -> r = Ok a).
Proof.
  intros Hst Hc. unfold Transact. rewrite Hc. destruct w as [sts n k]. simpl in *.
  destruct (live_begin ctx); [|done]. destruct r as [a|e]; [|done]. destruct (live_commit ctx); [|done]. simpl. by rewrite insert_id.
Qed.

Section form_facts.
Context {A : Type} (key command : string) (change : string -> K A) (Hkeyed : forall digest, keyed kernel key command digest (change digest)).

Lemma keyed_form_records ctx scope pre w w' : keyed_form ctx scope change pre w = (Ok tt, w') ->
  ParseScope scope = true /\ exists digest, pre = Ok digest /\ recorded (tenant w' scope) key command digest.
Proof.
  unfold keyed_form, mbind, M_bind. destruct (validate_scope ctx scope w) as [(-> & _ & Hp)|[e ->]]; [|done].
  destruct pre as [digest|e]; [|done]. intros Ht. split; [done|]. exists digest. split; [done|].
  unfold discard, mbind, M_bind, Transact in Ht. destruct (live_begin ctx); [|done]. simpl in Ht.
  destruct (change digest _) as [[a|e] c'] eqn:Hc; [|done]. destruct (live_commit ctx); [|done]. injection Ht as <-.
  apply (keyed_records _ _ _ _ _ (Hkeyed digest)) in Hc. unfold tenant. cbn. by rewrite lookup_insert_eq.
Qed.

Lemma keyed_form_replays ctx scope digest w : live ctx -> ParseScope scope = true -> unique_ids kernel -> repository_ok kernel w ->
  recorded (tenant w scope) key command digest -> keyed_form ctx scope change (Ok digest) w = (Ok tt, w).
Proof.
  intros (L1 & L2 & L3) Hp Hu Hok Hr. unfold keyed_form, mbind, M_bind.
  destruct (validate_scope ctx scope w) as [[-> _]|[e He]]; [|by unfold validateScopeAndContext, mbind, M_bind in He; rewrite L1, Hp in He].
  edestruct (keyed_replays _ _ _ _ _ (Hkeyed digest) (mkCandidate (tenant w scope) (drawn_ids w) (clock_ticks w)) Hu) as [a Ha];
    [by apply tenant_of_ok|done|].
  destruct (transact_same ctx _ _ _ _ (recorded_present _ _ _ _ _ Hr) Ha) as (E1 & E2 & _).
  unfold discard, mbind, M_bind. destruct (Transact ctx scope (change digest) w) as [r w']. simpl in *. subst w'. by rewrite E2.
Qed.

Lemma keyed_form_at_most_once ctx scope pre w command' digest' : unique_ids kernel -> repository_ok kernel w ->
  recorded (tenant w scope) key command' digest' ->
  (keyed_form ctx scope change pre w).2 = w /\ ((keyed_form ctx scope change pre w).1 = Ok tt -> command' = command /\ pre = Ok digest').
Proof.
  intros Hu Hok Hr. unfold keyed_form, mbind, M_bind. destruct (validate_scope ctx scope w) as [[-> _]|[e ->]]; [|done].
  destruct pre as [digest|e]; [|done]. unfold discard, mbind, M_bind.
  destruct (decide (command' = command /\ digest' = digest)) as [[-> ->]|Hne].
  - edestruct (keyed_replays _ _ _ _ _ (Hkeyed digest) (mkCandidate (tenant w scope) (drawn_ids w) (clock_ticks w)) Hu) as [a Ha];
      [by apply tenant_of_ok|done|].
    destruct (transact_same ctx _ _ _ _ (recorded_present _ _ _ _ _ Hr) Ha) as (E1 & _).
    destruct (Transact ctx scope (change digest) w) as [[a'|e] w']; by simpl in *.
  - edestruct (keyed_conflicts _ _ _ _ _ (Hkeyed digest) (mkCandidate (tenant w scope) (drawn_ids w) (clock_ticks w))) as [e He];
      [exact Hr|destruct (decide (command' = command)); [right|left]; naive_solver|].
    destruct (transact_same ctx _ _ _ _ (recorded_present _ _ _ _ _ Hr) He) as (E1 & _ & E2).
    destruct (Transact ctx scope (change digest) w) as [[a'|e'] w']; simpl in *; [by specialize (E2 a' eq_refl)|done].
Qed.
End form_facts.

End keyed_transitions.

(** ** Draining *)

Section drain.
Context (kernel : Kernel).

(** The source has valid identifiers for the next [k] draws. *)
Definition supply (k n : nat) : Prop := forall i, (n <= i < n + k)%nat -> exists p, ids kernel i = Some p /\ validPayload p = true.

Lemma supply_le k k' n n' : supply k n -> (n <= n')%nat -> (n' + k' <= n + k)%nat -> supply k' n'.
Proof. intros H Hn Hk i Hi. apply H. lia. Qed.

Lemma alphanumeric_not_special p : validPayload p = true -> len p = 16 /\ ContainsAny p "_- " = false.
Proof.
  unfold validPayload. case_match eqn:Hl; [|done]. intros Ha. split; [by apply Z.eqb_eq|].
  apply (all_runes_bytes asciiAlphaNumeric) in Ha; [|by intros c; unfold asciiAlphaNumeric, is_lower, is_upper, is_digit, between; intros; bools; lia].
  apply not_true_iff_false. unfold ContainsAny. intros (b & Hb & Hc)%existsb_exists. rewrite forallb_forall in Ha. apply Ha in Hb.
  apply existsb_exists in Hc as (x & Hx & ->%Z.eqb_eq). by repeat destruct Hx as [<-|Hx].
Qed.

Lemma newID_total prefix c : supply 1 (drawn c) -> exists p, newID kernel prefix c = (Ok (prefix +:+ p), mkCandidate (state_ c) (S (drawn c)) (ticks c)).
Proof.
  intros Hs. destruct (Hs (drawn c)) as (p & Hp & Hv); [lia|]. exists p. apply alphanumeric_not_special in Hv as Hv'. destruct Hv' as [Hlen Hany].
  unfold newID, payload, next_payload, mbind, M_bind. rewrite Hp, Hlen, Hany. simpl. unfold parseID. by rewrite HasPrefix_app, TrimPrefix_app, Hv.
Qed.

Lemma appendEvent_total s kind inputID turnID c : supply 2 (drawn c) ->
  exists e c', appendEvent kernel s kind inputID turnID c = (Ok (set_events (events s ++ [e]) s), c') /\ state_ c' = state_ c /\ drawn c' = (drawn c + 2)%nat.
Proof.
  intros Hs. unfold appendEvent, newEventID, newCursor, mbind, M_bind.
  destruct (newID_total eventPrefix c) as [p ->]; [eapply supply_le; [exact Hs|lia..]|].
  destruct (newID_total cursorPrefix (mkCandidate (state_ c) (S (drawn c)) (ticks c))) as [q ->]; [eapply supply_le; [exact Hs|simpl; lia..]|].
  do 2 eexists. split_and!; [done..|]. simpl. lia.
Qed.

(** The outcome a Turn has when every Turn left succeeds, and how many are left. *)
Definition final (t : Turn) : TurnState := if terminal (trn_State t) then trn_State t else TurnSucceeded.
Definition pending (l : list Turn) : nat := length (List.filter (fun t => negb (terminal (trn_State t))) l).

Definition ending (state : SessionState) : Prop := state = SessionClosing \/ state = SessionCompleted.

(** What completing Turns leaves of a Session. *)
Definition progressed (s s' : sessionRecord) : Prop :=
  trn_ID <$> turns s' = trn_ID <$> turns s /\ final <$> turns s' = final <$> turns s /\
  (ending (ssn_State (session s)) -> ending (ssn_State (session s'))).

#[local] Instance progressed_preorder : PreOrder progressed.
Proof. split; [done|]. intros s1 s2 s3 (H1 & H2 & H3) (H4 & H5 & H6). split_and!; [congruence..|auto]. Qed.

Lemma pending_app l l' : pending (l ++ l') = (pending l + pending l')%nat.
Proof. unfold pending. by rewrite List.filter_app, length_app. Qed.

Lemma pending_cons t l : pending (t :: l) = ((if terminal (trn_State t) then 0 else 1) + pending l)%nat.
Proof. unfold pending. simpl. by destruct (terminal (trn_State t)). Qed.

Lemma pending_insert l i t t' : l !! i = Some t -> terminal (trn_State t') = terminal (trn_State t) -> pending (<[i := t']> l) = pending l.
Proof.
  intros Hi E. assert (Hlt : (i < length l)%nat) by (by eapply lookup_lt_Some). rewrite insert_take_drop by done.
  rewrite <- (take_drop_middle l i t Hi) at 3. by rewrite !pending_app, !pending_cons, E.
Qed.

Lemma pending_none l : pending l = 0%nat -> Forall is_terminal l.
Proof.
  induction l as [|t l IH]; [constructor|]. rewrite pending_cons. intros H. unfold is_terminal in *.
  destruct (terminal (trn_State t)) eqn:Ht; [|lia]. constructor; [done|]. by apply IH.
Qed.

Lemma final_insert (l : list Turn) (i : nat) t t' : l !! i = Some t -> final t' = final t -> final <$> <[i := t']> l = final <$> l.
Proof. intros Hi E. rewrite list_fmap_insert, E. apply list_insert_id. by rewrite list_lookup_fmap, Hi. Qed.

Lemma advance_total s ts c : supply 2 (drawn c) -> draining (turns s) ->
  exists s' c', advance kernel s ts c = (Ok s', c') /\ state_ c' = state_ c /\ (drawn c <= drawn c' <= drawn c + 2)%nat /\ progressed s s' /\ pending (turns s') = pending (turns s).
Proof.
  intros Hsup Hd. unfold advance, activeTurnIndex. rewrite (draining_inactive _ Hd). destruct (queuedTurnIndex s) as [[i t]|] eqn:Hq.
  - apply find_index_Some in Hq as (Hi & Ht%bool_decide_eq_true & _).
    edestruct (appendEvent_total (set_turns (<[i := started ts t]> (turns s)) s)) as (e & c' & -> & E & D); [exact Hsup|].
    do 2 eexists. split_and!; [done..|lia|lia| |].
    + split_and!; cbn; [by eapply insert_same_ids| |done]. eapply final_insert; [exact Hi|]. unfold final. by rewrite Ht.
    + cbn. eapply pending_insert; [exact Hi|]. by rewrite Ht.
  - case_bool_decide as Hc.
    + edestruct (appendEvent_total (set_session (set_state SessionCompleted (session s)) s)) as (e & c' & -> & E & D); [exact Hsup|].
      do 2 eexists. split_and!; [done..|lia|lia| |done]. split_and!; [done..|by right].
    + do 2 eexists. split_and!; [done..|lia|lia| |done]. done.
Qed.

Lemma active_turn_found n st sid s r over later : unique_ids kernel -> tenant_ok kernel n st -> sessions st !! sid = Some s ->
  running_at (turns s) r over later -> turnIndex s (trn_ID r) = Some (length over, r).
Proof.
  intros Hu (_ & _ & Hg) Hs (El & _). destruct (Hg Hu) as [Hg1 _]. destruct (Hg1 _ _ Hs) as (_ & Hnd & _).
  assert (Hr : turns s !! length over = Some r) by (by rewrite El, list_lookup_middle).
  apply find_index_intro; [done|by apply bool_decide_eq_true|].
  intros j y Hj Hy. apply bool_decide_eq_false. intros E.
  assert (j = length over); [|lia]. eapply (NoDup_lookup _ _ _ (trn_ID r) Hnd); rewrite list_lookup_fmap; [rewrite Hy; by f_equal/=; congruence|by rewrite Hr].
Qed.

(** The running Turn succeeds, and the next one starts. *)
Lemma completeTurn_total sid s r over later c :
  unique_ids kernel -> tenant_ok kernel (drawn c) (state_ c) -> sessions (state_ c) !! sid = Some s -> running_at (turns s) r over later ->
  supply 4 (drawn c) ->
  exists t c' s', completeTurn kernel sid (trn_ID r) None c = (Ok t, c') /\ (drawn c <= drawn c' <= drawn c + 4)%nat /\ sessions (state_ c') !! sid = Some s' /\
    progressed s s' /\ pending (turns s) = S (pending (turns s')).
Proof.
  intros Hu Hok Hs Hr Hsup. pose proof (active_turn_found _ _ _ _ _ _ _ Hu Hok Hs Hr) as Hf.
  pose proof (proj1 (proj2 (proj1 Hok _ _ Hs))) as Ho. pose proof Hr as (El & _ & Hrun & _).
  assert (Hi : turns s !! length over = Some r) by (by rewrite El, list_lookup_middle).
  unfold completeTurn, mbind, M_bind, state. rewrite Hs. simpl. rewrite Hf. simpl. rewrite Hrun. simpl.
  set (ts := toUTC (clock kernel (ticks c))). set (t := ended TurnSucceeded ts None r). set (c1 := mkCandidate _ _ _).
  unfold end_turn, mbind, M_bind.
  edestruct (appendEvent_total (set_turns (<[length over := t]> (turns s)) s)) as (e & c2 & -> & E2 & D2); [eapply supply_le; [exact Hsup|simpl; lia..]|].
  edestruct (advance_total (set_events (events (set_turns (<[length over := t]> (turns s)) s) ++ [e]) (set_turns (<[length over := t]> (turns s)) s)) ts c2) as (s3 & c3 & -> & E3 & D3 & Hp & Hpend).
  { eapply supply_le; [exact Hsup|simpl in *; lia..]. }
  { by eapply running_end. }
  do 3 eexists. split_and!; [done|simpl in *; lia..|apply lookup_insert_eq| |].
  - destruct Hp as (P1 & P2 & P3). split_and!; [| |exact P3].
    + etrans; [exact P1|]. by eapply insert_same_ids.
    + etrans; [exact P2|]. eapply final_insert; [exact Hi|]. unfold final. by rewrite Hrun.
  - cbn [touch set_session set_events set_turns turns] in *. rewrite Hpend, El. rewrite insert_app_r_alt, Nat.sub_diag by lia. simpl. rewrite !pending_app, !pending_cons, Hrun. simpl. lia.
Qed.

(** ** The driver of a Session: complete the active Turn, again and again *)

Fixpoint drain (ctx : Ctx) (scope : string) (sid : SessionID) (n : nat) : W unit :=
  match n with
  | O => mret tt
  | S n =>
    view ← InspectSession ctx scope sid;
    match viw_ActiveTurn view with
    | Some t => CompleteTurn kernel ctx scope sid (trn_ID t) None;; drain ctx scope sid n
    | None => mret tt
    end
  end.

Lemma view_keeps_active l v : Forall (fun t => trn_State t <> TurnRunning) l -> viw_ActiveTurn (foldl view_turn v l) = viw_ActiveTurn v.
Proof.
  revert v. induction l as [|t l IH]; intros v; [done|]. intros [Ht Hl]%Forall_cons. simpl. rewrite IH by done.
  unfold view_turn. by destruct (trn_State t).
Qed.

Lemma inspect_active s r over later : running_at (turns s) r over later -> viw_ActiveTurn (inspect_session s) = Some r.
Proof.
  intros (El & Ho & Hr & Hl). unfold inspect_session. cbn [viw_ActiveTurn]. rewrite El, foldl_app. simpl. rewrite view_keeps_active.
  - unfold view_turn at 1. by rewrite Hr.
  - eapply Forall_impl; [exact Hl|]. intros t [H|H]; by rewrite H.
Qed.

Section run.
Context (ctx : Ctx) (Hlive : live ctx) (scope : string) (Hscope : ParseScope scope = true).

Lemma scope_passes w : validateScopeAndContext ctx scope w = (Ok tt, w).
Proof. destruct Hlive as (H & _). unfold validateScopeAndContext, mbind, M_bind. by rewrite H, Hscope. Qed.

Lemma InspectSession_total sid s w : sessions (tenant w scope) !! sid = Some s -> InspectSession ctx scope sid w = (Ok (inspect_session s), w).
Proof.
  intros Hs. unfold InspectSession, mbind, M_bind. rewrite scope_passes. unfold View. destruct Hlive as (_ & -> & _). simpl. by rewrite Hs.
Qed.

Lemma CompleteTurn_total sid s r over later w :
  unique_ids kernel -> repository_ok kernel w -> sessions (tenant w scope) !! sid = Some s -> running_at (turns s) r over later ->
  supply 4 (drawn_ids w) ->
  exists t w' s', CompleteTurn kernel ctx scope sid (trn_ID r) None w = (Ok t, w') /\ repository_ok kernel w' /\ (drawn_ids w <= drawn_ids w' <= drawn_ids w + 4)%nat /\
    sessions (tenant w' scope) !! sid = Some s' /\ progressed s s' /\ pending (turns s) = S (pending (turns s')).
Proof.
  intros Hu Hok Hs Hr Hsup.
  edestruct (completeTurn_total sid s r over later (mkCandidate (tenant w scope) (drawn_ids w) (clock_ticks w))) as (t & c' & s' & Hc & Hd & Hs' & Hp & Hn);
    [done|by apply tenant_of_ok|done..|].
  pose proof (perform_safe kernel ctx scope (call_CompleteTurn sid (trn_ID r) None) w Hok) as (Hok' & _).
  unfold perform, discard, mbind, M_bind in Hok'. revert Hok'.
  unfold CompleteTurn, mbind, M_bind. rewrite scope_passes. simpl. unfold Transact. destruct Hlive as (_ & -> & ->). simpl. rewrite Hc.
  intros Hok'. destruct Hd. do 3 eexists. split_and!; [done..| |done|done]. unfold tenant. cbn. by rewrite lookup_insert_eq.
Qed.

Lemma drain_total sid n : forall s w, unique_ids kernel -> repository_ok kernel w -> sessions (tenant w scope) !! sid = Some s -> pending (turns s) = n ->
  supply (4 * n) (drawn_ids w) ->
  exists w' s', drain ctx scope sid n w = (Ok tt, w') /\ repository_ok kernel w' /\ sessions (tenant w' scope) !! sid = Some s' /\
    progressed s s' /\ pending (turns s') = 0%nat.
Proof.
  induction n as [|n IH]; intros s w Hu Hok Hs Hn Hsup.
  { by exists w, s. }
  assert (Hr : exists r over later, running_at (turns s) r over later).
  { pose proof (tenant_of_ok _ _ scope Hok) as [Ht _]. destruct (Ht _ _ Hs) as (_ & [Ho|Ho] & _); [|done].
    exfalso. clear -Ho Hn. revert Hn. induction Ho as [|t l Hx _ IH]; [done|]. rewrite pending_cons. unfold is_terminal in Hx. by rewrite Hx. }
  destruct Hr as (r & over & later & Hr).
  edestruct (CompleteTurn_total sid s r over later w) as (t & w1 & s1 & Hc & Hok1 & Hd & Hs1 & Hp & Hn1); [done..|eapply supply_le; [exact Hsup|lia..]|].
  edestruct (IH s1 w1) as (w' & s' & Hdr & Hok' & Hs' & Hp' & Hn'); [done..|lia|eapply supply_le; [exact Hsup|lia..]|].
  exists w', s'. split_and!; [|done..| |done].
  - simpl. unfold mbind, M_bind. rewrite (InspectSession_total _ s), (inspect_active _ _ _ _ Hr), Hc by done. exact Hdr.
  - by etrans.
Qed.
End run.

End drain.

(** ** Theorems *)

(** C12: whatever calls were made, in whatever order and with whatever outcome (errors,
    cancelled contexts and failing identifier sources included), every Session of every
    tenant is in order: at most one Turn runs, the Turns before it are over and those
    after it are queued or cancelled, in the order of acceptance; a closing Session has
    a running Turn, a completed or cancelled one has none left; positions count from
    one, every Turn has its Input, and the sequence numbers of the retained events are
    consecutive. *)
Theorem sessions_in_order kernel w scope st sid s :
  reachable kernel w -> states w !! scope = Some st -> sessions st !! sid = Some s -> session_ok sid s.
Proof. intros Hr%reachable_ok Hst Hs. exact (proj1 (Hr _ _ Hst) _ _ Hs). Qed.

(** C14: the panics of the kernel (a Session without the Turn that a record or a result
    names, an Agent without a revision) are unreachable, if the identifier source does
    not repeat itself. *)
Theorem kernel_never_panics kernel w ctx scope call :
  unique_ids kernel -> reachable kernel w -> (perform kernel ctx scope call w).1 <> Err Panic.
Proof. intros Hu Hr%reachable_ok. by apply perform_safe. Qed.

(** C13: a mutation happens once under its idempotency key, if the source of identifiers
    does not repeat itself.  When a call with a key has
    succeeded, then after any further calls: the same call succeeds again and leaves
    the repository as it is, to the identifiers drawn; and no call with that key, with
    whatever command or content, changes anything, and it succeeds only if it has the
    command and the digest of the first one. *)
Theorem mutations_happen_once kernel w ctx scope call key w1 w2 :
  unique_ids kernel -> reachable kernel w -> key_of call = Some key ->
  perform kernel ctx scope call w = (Ok tt, w1) -> rtc (kernel_step kernel) w1 w2 ->
  (forall ctx', live ctx' -> perform kernel ctx' scope call w2 = (Ok tt, w2)) /\
  (forall ctx' call', key_of call' = Some key ->
     (perform kernel ctx' scope call' w2).2 = w2 /\
     ((perform kernel ctx' scope call' w2).1 = Ok tt ->
        command_of call' = command_of call /\ canonicalDigest (content_of call') = canonicalDigest (content_of call))).
Proof.
  intros Hu Hr Hk Hp Hsteps. destruct (perform_keyed kernel _ _ Hk) as (A & pre & change & Hpre & Hkey & Hform).
  pose proof (perform_safe kernel ctx scope call w (reachable_ok _ _ Hr)) as (Hok1 & _ & _). rewrite Hp in Hok1. simpl in Hok1.
  rewrite Hform in Hp. apply (keyed_form_records kernel _ _ _ Hkey) in Hp as (Hsc & digest & -> & r & Hrec & Hc & Hd).
  destruct (calls_ok kernel _ _ Hsteps Hok1) as [Hok2 Hle].
  assert (Hrec2 : recorded (tenant w2 scope) key (command_of call) digest).
  { exists r. split; [|done]. eapply lookup_weaken; [exact Hrec|apply Hle]. }
  split.
  - intros ctx' Hl. rewrite Hform. by eapply keyed_form_replays.
  - intros ctx' call' Hk'. destruct (perform_keyed kernel _ _ Hk') as (A' & pre' & change' & Hpre' & Hkey' & Hform'). rewrite Hform'.
    destruct (keyed_form_at_most_once kernel _ _ _ Hkey' ctx' scope pre' w2 _ _ Hu Hok2 Hrec2) as [E Hs].
    split; [done|]. intros H. apply Hs in H as [H1 H2]. split; [done|]. by rewrite (Hpre _ eq_refl), (Hpre' _ H2).
Qed.

(** C15: a Session drains.  Completing the active Turn that InspectSession reports, as
    many times as Turns are left, succeeds from every reachable repository, if the source
    does not repeat itself and has four valid identifiers for each of these Turns; it ends
    every Turn that was left, keeps the outcomes of the others and their order, and a
    closing Session has become completed. *)
Theorem session_drains kernel w ctx scope sid s :
  unique_ids kernel -> reachable kernel w -> live ctx -> ParseScope scope = true -> sessions (tenant w scope) !! sid = Some s ->
  supply kernel (4 * pending (turns s)) (drawn_ids w) ->
  exists w' s', drain kernel ctx scope sid (pending (turns s)) w = (Ok tt, w') /\ sessions (tenant w' scope) !! sid = Some s' /\
    trn_ID <$> turns s' = trn_ID <$> turns s /\ trn_State <$> turns s' = final <$> turns s /\
    (ssn_State (session s) = SessionClosing -> ssn_State (session s') = SessionCompleted).
Proof.
  intros Hu Hr%reachable_ok Hl Hsc Hs Hsup.
  destruct (drain_total kernel ctx Hl scope Hsc sid _ s w Hu Hr Hs eq_refl Hsup) as (w' & s' & Hd & Hok & Hs' & (P1 & P2 & P3) & Hn).
  apply pending_none in Hn. exists w', s'. split_and!; [done..| |].
  - rewrite <- P2. apply list_fmap_ext. intros i t Ht. rewrite Forall_lookup in Hn. apply Hn in Ht. unfold final. by rewrite Ht.
  - intros Hc. destruct (P3 (or_introl Hc)) as [H|H]; [exfalso|done].
    destruct (proj1 (tenant_of_ok _ _ scope Hok) _ _ Hs') as (_ & _ & Hf & _). rewrite H in Hf. destruct Hf as (r & over & later & El & _ & Hrun & _).
    rewrite El in Hn. apply Forall_app in Hn as [_ [Hn _]%Forall_cons]. unfold is_terminal in Hn. by rewrite Hrun in Hn.
Qed.

(** An Input for a malformed Session identifier is reported as an internal failure:
    the digest of the request fails to encode before the request is validated, so the
    refusal "invalid Session ID" of validateInput is never given. *)
Theorem malformed_session_is_internal kernel ctx scope request w :
  live ctx -> ParseScope scope = true -> ParseSessionID (sni_SessionID request) = None ->
  SendInput kernel ctx scope request w = (Err (internalFailure "send input"), w).
Proof.
  intros Hl Hsc Hp. unfold SendInput, mbind, M_bind. rewrite scope_passes by done. unfold digested, json_send_input, marshalID.
  unfold ParseSessionID in Hp. by rewrite Hp.
Qed.

(** ** Runs *)

Definition demo_payload (n : nat) : string := "00000000000000" +:+ String (ascii_of_nat (65 + n / 10)) (String (ascii_of_nat (48 + n mod 10)) "").
Definition demo_payloads : list string := Eval vm_compute in demo_payload <$> seq 0 60.
Definition demo : Kernel := mkKernel (fun n => zeroTime) (fun n => demo_payloads !! n) {[ "fast" ]} (fun _ => None).

Lemma demo_unique : unique_ids demo.
Proof.
  intros i j p Hi Hj. assert (Hnd : NoDup demo_payloads) by (apply (bool_decide_unpack _); by vm_compute).
  exact (NoDup_lookup _ _ _ _ Hnd Hi Hj).
Qed.

Definition awake : Ctx := mkCtx true true true.
Definition demo_agent : Call := call_CreateAgent (mkCreateAgent "k1" "helper" "fast" "be brief" []).
Definition demo_session : Call := call_CreateSession (mkCreateSession "k2" "arev_00000000000000A1").
Definition demo_sid : SessionID := "sess_00000000000000A2".
Definition demo_input (key : string) : Call := call_SendInput (mkSendInput demo_sid key [mkPart ContentText "hello" None]).
Definition demo_calls : list Call := [demo_agent; demo_session; demo_input "k3"; demo_input "k4"; call_CloseSession (mkCloseSession demo_sid "k5")].

Definition run_calls (calls : list Call) (w : MemoryRepository) : MemoryRepository := foldl (fun w call => (perform demo awake "team" call w).2) w calls.

Lemma run_calls_steps calls w : rtc (kernel_step demo) w (run_calls calls w).
Proof. revert w. induction calls as [|call l IH]; intros w; [done|]. eapply rtc_l; [|apply IH]. by exists awake, "team", call. Qed.

Lemma run_calls_prefix first rest w : rtc (kernel_step demo) (run_calls first w) (run_calls (first ++ rest) w).
Proof. unfold run_calls. rewrite foldl_app. apply run_calls_steps. Qed.

Lemma demo_supply k n : (n + k <= 60)%nat -> supply demo k n.
Proof.
  intros Hk i Hi. destruct (lookup_lt_is_Some_2 demo_payloads i) as [p Hp]; [change (length demo_payloads) with 60%nat; lia|]. exists p. split; [exact Hp|].
  assert (Hv : forallb validPayload demo_payloads = true) by (by vm_compute). rewrite forallb_forall in Hv. apply Hv.
  by apply list_elem_of_In, (list_elem_of_lookup_2 _ i).
Qed.

Definition demo_world : MemoryRepository := run_calls demo_calls NewMemoryRepository.
Definition demo_record : sessionRecord := default noSessionRecord (sessions (tenant demo_world "team") !! demo_sid).

Lemma demo_record_present : sessions (tenant demo_world "team") !! demo_sid = Some demo_record.
Proof. by vm_compute. Qed.

Lemma demo_reachable : reachable demo demo_world.
Proof. apply run_calls_steps. Qed.

Lemma sessions_in_order_witness : session_ok demo_sid demo_record /\ trn_State <$> turns demo_record = [TurnRunning; TurnQueued].
Proof.
  split; [|by vm_compute]. apply (sessions_in_order demo demo_world "team" (tenant demo_world "team") demo_sid demo_record).
  - apply demo_reachable.
  - by vm_compute.
  - apply demo_record_present.
Defined.

Lemma kernel_never_panics_witness : (perform demo awake "team" (demo_input "k3") demo_world).1 <> Err Panic.
Proof. exact (kernel_never_panics demo demo_world awake "team" (demo_input "k3") demo_unique demo_reachable). Defined.

(** The first Input is sent again after the second one and the close. *)
Lemma mutations_happen_once_witness : perform demo awake "team" (demo_input "k3") demo_world = (Ok tt, demo_world).
Proof.
  apply (mutations_happen_once demo (run_calls [demo_agent; demo_session] NewMemoryRepository) awake "team" (demo_input "k3") "k3"
           (run_calls [demo_agent; demo_session; demo_input "k3"] NewMemoryRepository) demo_world).
  - apply demo_unique.
  - apply run_calls_steps.
  - reflexivity.
  - vm_compute. reflexivity.
  - exact (run_calls_prefix [demo_agent; demo_session; demo_input "k3"] [demo_input "k4"; call_CloseSession (mkCloseSession demo_sid "k5")] NewMemoryRepository).
  - by split_and!.
Defined.

Lemma session_drains_witness : exists w' s', drain demo awake "team" demo_sid (pending (turns demo_record)) demo_world = (Ok tt, w') /\ sessions (tenant w' "team") !! demo_sid = Some s' /\
  trn_ID <$> turns s' = trn_ID <$> turns demo_record /\ trn_State <$> turns s' = final <$> turns demo_record /\
  (ssn_State (session demo_record) = SessionClosing -> ssn_State (session s') = SessionCompleted).
Proof.
  apply (session_drains demo demo_world awake "team" demo_sid demo_record demo_unique demo_reachable).
  - by split_and!.
  - by vm_compute.
  - apply demo_record_present.
  - apply demo_supply. apply Nat.leb_le. by vm_compute.
Defined.

Lemma malformed_session_is_internal_witness :
  SendInput demo awake "team" (mkSendInput "session-1" "k6" [mkPart ContentText "hello" None]) demo_world = (Err (internalFailure "send input"), demo_world).
Proof. apply malformed_session_is_internal; [by split_and!|by vm_compute|by vm_compute]. Defined.
